(* ===== verification/_CoqProject ===== *)
-Q . S2P
Prelude.v
Memory.v
Bitarray.v
Ext2.v
Ext2Facts.v
CString.v
Paths.v
Rfs.v
ActiveFiles.v
Alloc.v
AllocFacts.v
InodeAlloc.v
BlockMap.v
Dirs.v
DirFacts.v
Walk.v
FileOps.v
Serial.v
Sockets.v
Requests.v
SerialFacts.v
Lookups.v
Tree.v
TreeSteps.v
Enters.v
Creates.v
Mkdirs.v
Removes.v
Deletes.v
Rmdirs.v
Reads.v
Writes.v
Truncates.v
Contents.v
Volume.v
Data.v
Sessions.v
Acceptor.v
Service.v
Fuse.v
FuseFacts.v
Clients.v
TaskQueue.v
Sync.v
Lists.v
ListsFacts.v
Dictionary.v
DictionaryFacts.v
Config.v
Diccionario.v
Dinamicas.v
Particiones.v
Liberacion.v
Compactacion.v
Buddy.v
BuddyFacts.v
Engine.v
Schemes.v
EngineFacts.v
Typed.v
TypedOps.v
