(* ===== verification/Prelude.v ===== *)
(** * La Liga de la Justicia: verification library (root)

    The program is a distributed file system.  A client (src/fsc) serves
    FUSE: each operation is a message to the server, with a cache of
    attributes and listings in memcached.  The server (src/rfs) maps an ext2
    image, takes requests from its clients, queues them as tasks for its
    worker threads, and keeps a block cache in memcached.  The remote cache
    (src/rc) is a storage engine for memcached, with dynamic partitions or a
    buddy system.

    ** The files and the code they model

    - [Prelude]: machine integers, results and errors, the state monad, lists,
      tactics and hint databases.
    - [Memory]: the mapped image, a total function from addresses to bytes,
      with the loads, stores, memset and memcpy of the code.
    - [Bitarray]: commons/bitarray.c, with both bit orders of BIT_IN_CHAR.
    - [Ext2], [Ext2Facts]: rfs/source_RFS/ex2_block_types.c.  The constants
      that the code reads once from the superblock are the class
      [Superblock_constants]; structures are addresses with field accessors.
    - [CString], [Paths]: commons/string.c on lists of bytes; the ancestors of
      a path, its parent, and the keys of the caches.
    - [Rfs], [ActiveFiles]: the server state of server_threading.c ([rfs]: image,
      errno, files in use, counters, the memcached connection) and the table
      of the files in use.  The operations of memcached that the server uses
      are the class [Memcached], with its laws.
    - [Alloc]: the free lists of blocks and inodes; [AllocFacts] and
      [InodeAlloc] prove what taking and releasing does to them.
    - [BlockMap]: the blocks of a file (Attach_Blocks, Remove_Blocks, ...).
    - [Dirs], [DirFacts]: directory entries, and the walk of inode_of_file.
    - [Walk]: the meaning of a path in an image ([resolves]) and the walk.
    - [FileOps]: the operations of file_operations.c.
    - [Serial], [SerialFacts]: commons/serializadores.c, both directions.
    - [Sockets]: commons/sockete.c and manejador_de_socketes.c over a
      connection that takes or gives part of the bytes.
    - [Acceptor], [Service]: the main thread of rfs/main.c, with the table of
      clients that poll watches, the acceptance, and the turn that receives
      requests and queues tasks, over connections from which recv takes what
      has arrived; and what it does for the clients.
    - [Requests]: procesador_de_pedidos.c, the switch of rfs/main.c and the
      worker: [generar_task] turns a message into a task, [atender] is the
      server's turn from the message to the answer.
    - [Lookups], [Reads], [Writes]: lookups, reads and writes, from the message
      of the client to the bytes of the answer; [Truncates] changes of size,
      and [Contents] writes that grow the file.
    - [Fuse], [FuseFacts]: operaciones_fuse.c and manejador_memcached.c of the
      client, with the server as an instance of the class [Server].
    - [Tree]: the file system as a finite map from inode numbers to nodes
      ([node], [tree_walk]), its invariant [tree_ok], and [holds m fs]: the
      image [m] holds the tree [fs]; [TreeSteps] has what each kind of write
      does to an image that holds a tree, [Enters] the tree with one node
      more, [Removes] the tree with one node less; [Creates],
      [Mkdirs], [Deletes] and [Rmdirs] prove create_file_dir (for files and
      for directories), delete_file and delete_dir against the tree.
    - [Volume]: the file system as an abstract state ([volume]: the tree, the
      free inodes and the free blocks, in order, and the bytes of the files
      as far as they are known) with an executable specification of the
      requests ([paso], [pasos]); [Data] relates the known bytes to the image
      and to the server's block cache; [Sessions] proves that the server
      implements the volume, [Clients] what FUSE gets to see of it.  A request
      that [paso] does not specify (a read behind the end of the file, a write
      of which the code leaves a rest, a file with indirect blocks, a deletion
      whose copy overlaps) gives
      [None]; what the code does there is in theorems of its own.
    - [Typed], [TypedOps]: the types of the state ([typed]), and that every
      operation keeps them ([keeps]), up to arbitrary bytes from a client.
    - [TaskQueue]: the queue between the acceptor and the workers, as steps of
      several threads.
    - [Sync]: the count of the writes and the thread that syncs the image, as
      steps of the workers and the syncer.
    - [Lists], [ListsFacts], [Dictionary], [DictionaryFacts], [Config]: the
      linked lists, queues and hash tables of commons/collections, and the
      configuration files of both programs.
    - [Diccionario], [Dinamicas], [Buddy], [Engine]: src/rc, the elements of
      the storage as a heap of linked nodes, both ways to divide it, and the
      engine's interface; [Particiones] has the layout [partitioned] that both
      ways keep, [Liberacion] the deletion and [Compactacion] the compaction of
      the dynamic partitions,
      [BuddyFacts] the invariant [buddies] and the deletion of the buddy
      system, [Schemes] the class [Storage_scheme] of what the engine relies
      on with its two instances, [EngineFacts] the engine.

    ** What the theorems show

    - End to end ([obtener_atributos_served], [leer_archivo_served],
      [leer_directorio_served],
      [write_file_overwrites], [changes_forget], [long_paths_answered]): what
      FUSE gets from the client is what the image of the server holds, and the
      server's table, its locks and the caches of both are as they should be
      afterwards; what FUSE writes it reads back ([written_is_read]).
    - Refinement: the server, from the bytes of the messages to the bytes of
      the answers, implements the abstract volume in every sequence of
      requests ([server_implements_volume]), but the answers tell no failure
      of a creation or deletion ([changes_look_successful]).
    - Clients: a turn of the main thread with a worker behind it serves all
      clients that ask, together, as the volume says ([clients_served]); a new
      client gets an entry and an answer ([client_accepted]); a client that
      goes too early costs another one its request
      ([handshake_drops_request]) or stops the server ([cut_message_hangs]).
    - Types: no sequence of bytes from clients takes the server out of the
      states that the program's types have ([server_keeps_types]).
    - The tree: an image that holds a tree holds, after create_file_dir, the
      tree with the new file ([create_file_enters]) or directory
      ([create_dir_enters], [create_dir_last_inode] where it faults) and, after delete_file,
      the tree without the file, its blocks and its inode free again
      ([delete_file_leaves]); delete_dir does so for an empty directory
      ([delete_dir_leaves]) and loses one that is not ([delete_dir_orphans]);
      both deletions copy between regions that overlap when the next name is
      longer than the record that goes ([copies_apart]);
      truncate_file changes the size and the blocks of a file
      ([truncate_file_resizes], [truncate_unlocks_twice] where it faults); refused creations leave everything as it was
      ([create_refused]); the lock of a directory excludes readers only where
      its two spellings agree ([directories_have_two_locks]).
    - Collections: the lists and queues are sequences ([lists_refine]), the
      hash table is the list of its entries ([dictionary_refines]); where they
      are not is a theorem too ([dictionary_confuses_keys]).
    - Concurrency: in every interleaving the table counts the references of
      each path ([active_files_counted], [active_files_progress]) and the queue
      is first in, first out, without a thread that waits for nothing
      ([s_queue_fifo], [s_queue_progress]); the counter of the writes accounts
      for those that are not on the disk ([syncer_accounts]), but for those
      made during a sync ([syncer_misses_writes]).
    - Image: allocation takes the first free blocks and releasing gives them
      back ([Get_Free_Blocks_takes]); the list of
      addresses is what the pointers of the inode give
      ([Inode_Get_Data_Adressess_map]); a directory block stays a sequence of
      entries that fills it ([delete_in_blocks_takes_out]).
    - Messages: round trips and the sizes at which they break.
    - Remote cache: the layout is established ([engine_starts]) and kept
      ([eliminar_releases], [eliminar_buddy_releases]), what is set can be got
      with either scheme ([set_then_get]); where deletion never ends
      ([eliminar_hangs]), what compaction loses ([compaction_loses_items]) and
      a size that breaks the layout ([buddy_memory_short]) are theorems too.

    ** Conventions

    A C integer is a [Z] with its wrap-around written out ([u32], [s32], ...).
    A NULL dereference, an access outside of an array, a lock that is released
    without being held, a memcpy between regions of one memory that overlap, a
    wait that never ends: each is an [error] of the
    result type, so that a theorem that an operation is [Ok] includes their
    absence.  What a system call does is part of the state where it matters
    (the segments of a connection in [Acceptor], what msync promises in [Sync]).  A thread runs an operation sequentially; what another thread
    holds makes it [Deadlock], as does locking twice, which POSIX leaves
    undefined.  Loops whose end is not structural have fuel: the number of
    bytes of a block for the entries of a block ([block_fuel]; an entry is at
    least eight bytes), the number of live elements for the lists of the remote
    cache ([list_fuel]) and of the linked lists ([walk_fuel]), the groups of the
    image for allocation.  Where fuel could run out, the theorems prove that it
    does not.

    What the program calls and src/ does not define is a class with its laws:
    memcached for the server ([Memcached]) and for the client, and the bytes
    that lie behind an object where the code reads past it
    ([Word_after_array], [Bytes_behind_key]).  The client holds a mutex during
    an operation, so that an operation of the client is one step.

    ** Not modelled

    Logging and sleeping (log.c, temporal.c, the calls to log_* and sleep);
    the creation of sockets and threads and the mapping of the image
    (sockete_bindear_servidor and the like, manage_fs.c), which only call the
    system; th_inotify, which main does not start; failure of malloc; the glue of
    memcached 1.6, which is vendored code; string_from_format,
    config_get_double_value and config_get_long_value. *)

From stdpp Require Export base tactics numbers list option strings sets gmap.
From Stdlib Require Export ZArith Lia Bool.

#[export] Set Default Goal Selector "!".
Open Scope Z_scope.

(** ** Machine integers

    A C integer of width [w] is a [Z]; the conversions C performs on
    assignment are written out. *)

Definition u8 (z : Z) : Z := z mod 2 ^ 8.
Definition u16 (z : Z) : Z := z mod 2 ^ 16.
Definition u32 (z : Z) : Z := z mod 2 ^ 32.
Definition u64 (z : Z) : Z := z mod 2 ^ 64.
Definition swrap (w z : Z) : Z := (z + 2 ^ (w - 1)) mod 2 ^ w - 2 ^ (w - 1).
Definition s8 (z : Z) : Z := swrap 8 z.
Definition s32 (z : Z) : Z := swrap 32 z.
Definition s64 (z : Z) : Z := swrap 64 z.

Lemma u32_small z : 0 <= z < 2 ^ 32 -> u32 z = z.
Proof. apply Z.mod_small. Qed.

Lemma u16_small z : 0 <= z < 2 ^ 16 -> u16 z = z.
Proof. apply Z.mod_small. Qed.

Lemma u8_small z : 0 <= z < 2 ^ 8 -> u8 z = z.
Proof. apply Z.mod_small. Qed.

Lemma u32_range z : 0 <= u32 z < 2 ^ 32.
Proof. apply Z.mod_pos_bound; lia. Qed.

Lemma u16_range z : 0 <= u16 z < 2 ^ 16.
Proof. apply Z.mod_pos_bound; lia. Qed.

Lemma u8_range z : 0 <= u8 z < 2 ^ 8.
Proof. apply Z.mod_pos_bound; lia. Qed.

Lemma s32_small z : - 2 ^ 31 <= z < 2 ^ 31 -> s32 z = z.
Proof. intros H. unfold s32, swrap. rewrite Z.mod_small; lia. Qed.

Lemma s32_range z : - 2 ^ 31 <= s32 z < 2 ^ 31.
Proof.
  unfold s32, swrap. change (32 - 1) with 31.
  pose proof (Z.mod_pos_bound (z + 2 ^ 31) (2 ^ 32) ltac:(lia)). lia.
Qed.

Lemma u32_idem z : u32 (u32 z) = u32 z.
Proof. apply Z.mod_mod. lia. Qed.

Lemma s8_small z : - 2 ^ 7 <= z < 2 ^ 7 -> s8 z = z.
Proof. intros H. unfold s8, swrap. rewrite Z.mod_small; lia. Qed.

(** ** Faults and the state monad

    A computation of the program either returns with a new state or stops at
    a fault: the undefined behaviours and non-terminations the C code can
    reach are values, not side conditions. *)

Inductive fault : Type :=
  | NullDeref    (* a NULL pointer is dereferenced *)
  | OutOfBounds  (* an access outside the object it is made through *)
  | OutOfFuel    (* the loop did not finish within the fuel *)
  | Deadlock     (* the thread waits: for a lock it holds, or bytes that have not come *)
  | BadUnlock    (* pthread_rwlock_unlock of a lock that is not held *)
  | DivByZero
  | Overlap      (* memcpy between regions that overlap *)
  | Uninitialised. (* a variable is used that no branch has set *)

Inductive res (A : Type) : Type :=
  | Ok (a : A)
  | Fail (f : fault).
Arguments Ok {A} a.
Arguments Fail {A} f.

Definition res_bind {A B} (r : res A) (f : A -> res B) : res B :=
  match r with Ok a => f a | Fail e => Fail e end.

#[export] Instance fault_eq_dec : EqDecision fault.
Proof. solve_decision. Defined.

Definition M (S A : Type) : Type := S -> res (A * S).

#[export] Instance M_ret S : MRet (M S) := fun A x s => Ok (x, s).
#[export] Instance M_bind S : MBind (M S) := fun A B f m s =>
  match m s with
  | Ok (a, s') => f a s'
  | Fail e => Fail e
  end.

Definition get {S} : M S S := fun s => Ok (s, s).
Definition put {S} (s : S) : M S unit := fun _ => Ok (tt, s).
Definition gets {S A} (f : S -> A) : M S A := fun s => Ok (f s, s).
Definition modify {S} (f : S -> S) : M S unit := fun s => Ok (tt, f s).
Definition fail {S A} (e : fault) : M S A := fun _ => Fail e.
Definition when {S} (b : bool) (m : M S unit) : M S unit := if b then m else mret tt.

(** A pointer that the code dereferences without a test. *)
Definition deref {S A} (p : option A) : M S A :=
  match p with Some a => mret a | None => fail NullDeref end.

(** The loops of the code: [body] returns [inl] to go on with a new loop
    state and [inr] to leave the loop. *)
Fixpoint loop {S A B} (fuel : nat) (body : A -> M S (A + B)) (a : A) : M S B :=
  match fuel with
  | O => fail OutOfFuel
  | Datatypes.S n =>
      r ← body a;
      match r with inl a' => loop n body a' | inr b => mret b end
  end.

Lemma bind_ok {S A B} (m : M S A) (f : A -> M S B) s a s' :
  m s = Ok (a, s') -> (m ≫= f) s = f a s'.
Proof. intros H. unfold mbind, M_bind. by rewrite H. Qed.

Lemma bind_fail {S A B} (m : M S A) (f : A -> M S B) s e :
  m s = Fail e -> (m ≫= f) s = Fail e.
Proof. intros H. unfold mbind, M_bind. by rewrite H. Qed.

Lemma bind_inv {S A B} (m : M S A) (f : A -> M S B) s b s'' :
  (m ≫= f) s = Ok (b, s'') ->
  exists a s', m s = Ok (a, s') /\ f a s' = Ok (b, s'').
Proof.
  unfold mbind, M_bind. destruct (m s) as [[a s']|]; [eauto|done].
Qed.

Lemma loop_unfold {S A B} n (body : A -> M S (A + B)) a s :
  loop (Datatypes.S n) body a s =
  match body a s with
  | Ok (inl a', s') => loop n body a' s'
  | Ok (inr b, s') => Ok (b, s')
  | Fail e => Fail e
  end.
Proof.
  simpl. unfold mbind, M_bind.
  by destruct (body a s) as [[[a'|b] s']|].
Qed.

(** More fuel never changes a result. *)
Lemma loop_mono {S A B} n k (body : A -> M S (A + B)) a s r :
  loop n body a s = Ok r -> loop (n + k) body a s = Ok r.
Proof.
  revert a s. induction n as [|n IH]; intros a s; [done|].
  change (Datatypes.S n + k)%nat with (Datatypes.S (n + k)).
  rewrite !loop_unfold.
  destruct (body a s) as [[[a'|b] s']|]; [apply IH|done|done].
Qed.

(** ** Byte strings

    A C string is the list of its characters, without the terminating NUL. *)

Definition byte_of_ascii (c : Ascii.ascii) : Z := Z.of_nat (Ascii.nat_of_ascii c).

Fixpoint str (s : string) : list Z :=
  match s with
  | EmptyString => []
  | String c s' => byte_of_ascii c :: str s'
  end.

Definition slash : Z := 47.
Definition hash_sign : Z := 35.

(** [C_string l]: [l] can be held in a NUL-terminated array of char. *)
Definition C_string (l : list Z) : Prop := Forall (fun c => 0 < c < 256) l.
Definition bytes (l : list Z) : Prop := Forall (fun c => 0 <= c < 256) l.

Lemma C_string_bytes l : C_string l -> bytes l.
Proof. intros H. eapply Forall_impl; [exact H|]. simpl. intros; lia. Qed.

Definition zlen {A} (l : list A) : Z := Z.of_nat (length l).

Lemma zlen_app {A} (l k : list A) : zlen (l ++ k) = zlen l + zlen k.
Proof. unfold zlen. rewrite length_app. lia. Qed.

Lemma zlen_nonneg {A} (l : list A) : 0 <= zlen l.
Proof. unfold zlen. lia. Qed.

Lemma zlen_nil {A} : zlen (@nil A) = 0.
Proof. done. Qed.

Lemma zlen_cons {A} (x : A) l : zlen (x :: l) = 1 + zlen l.
Proof. unfold zlen. simpl. lia. Qed.

Lemma NoDup_middle {A} (l1 l2 : list A) a :
  NoDup (l1 ++ a :: l2) <-> (a ∉ l1 ++ l2) /\ NoDup (l1 ++ l2).
Proof. rewrite <- Permutation_middle. apply NoDup_cons. Qed.

(** ** Automation *)

Create HintDb liga.
Create Rewrite HintDb liga.
#[export] Hint Resolve u8_range u16_range u32_range zlen_nonneg C_string_bytes : liga.
#[export] Hint Rewrite @zlen_app @zlen_cons @zlen_nil : liga.

(** Case analysis on the boolean tests of the code. *)
Ltac case_test :=
  match goal with
  | |- context [if ?b then _ else _] =>
      let E := fresh "E" in destruct b eqn:E
  | H : context [if ?b then _ else _] |- _ =>
      let E := fresh "E" in destruct b eqn:E
  end.

(** Turn boolean comparisons into propositions for [lia]. *)
Ltac zify_bool :=
  repeat match goal with
  | H : (_ <? _) = true |- _ => apply Z.ltb_lt in H
  | H : (_ <? _) = false |- _ => apply Z.ltb_ge in H
  | H : (_ <=? _) = true |- _ => apply Z.leb_le in H
  | H : (_ <=? _) = false |- _ => apply Z.leb_gt in H
  | H : (_ =? _) = true |- _ => apply Z.eqb_eq in H
  | H : (_ =? _) = false |- _ => apply Z.eqb_neq in H
  | H : (_ && _)%bool = true |- _ => apply andb_true_iff in H as [? ?]
  | H : (_ || _)%bool = false |- _ => apply orb_false_iff in H as [? ?]
  | H : negb _ = true |- _ => apply negb_true_iff in H
  | H : negb _ = false |- _ => apply negb_false_iff in H
  end.
