(* ===== verification/Memory.v ===== *)
(** * Memory: byte-addressed memory

    The RFS maps the whole disk image into memory ([Map_FS]) and reads and
    writes the ext2 structures in place, through pointers into the mapping;
    the cache keeps its items in one malloc'ed block.  Both are a [mem]: a
    byte per address.  Accesses of 1, 2 and 4 bytes are little endian, as on
    the x86 machines the program runs on.  The model does not check that an
    address lies inside the mapping. *)

From S2P Require Import Prelude.

Definition mem : Type := Z -> Z.

Definition in_range (a n x : Z) : bool := (a <=? x) && (x <? a + n).

Definition store_byte (m : mem) (a v : Z) : mem :=
  fun x => if x =? a then u8 v else m x.

(** [load n m a]: the [n]-byte little-endian integer at [a]. *)
Fixpoint load (n : nat) (m : mem) (a : Z) : Z :=
  match n with
  | O => 0
  | S k => m a + 256 * load k m (a + 1)
  end.

Definition store (n : Z) (m : mem) (a v : Z) : mem :=
  fun x => if in_range a n x then (v / 256 ^ (x - a)) mod 256 else m x.

Definition load16 := load 2.
Definition load32 := load 4.
Definition store16 := store 2.
Definition store32 := store 4.

(** memset(p, v, n) and memcpy(p, src, n) with the source bytes in a list or
    in the same memory. *)
Definition memset (m : mem) (a v n : Z) : mem :=
  fun x => if in_range a n x then u8 v else m x.

Definition memcpy_bytes (m : mem) (a : Z) (l : list Z) : mem :=
  fun x => if in_range a (zlen l) x then default 0 (l !! Z.to_nat (x - a)) else m x.

Definition moved (m : mem) (dst src n : Z) : mem :=
  fun x => if in_range dst n x then m (src + (x - dst)) else m x.

(** C leaves a copy between regions that overlap undefined. *)
Definition memcpy (m : mem) (dst src n : Z) : res mem :=
  if n <=? Z.abs (dst - src) then Ok (moved m dst src n) else Fail Overlap.

(** The [n] bytes at [a]. *)
Definition read_bytes (m : mem) (a n : Z) : list Z :=
  (fun i => m (a + i)) <$> seqZ 0 n.

(** The [n] words of 32 bits at [a] ([uint32_t] arrays). *)
Definition read_words (m : mem) (a n : Z) : list Z :=
  (fun i => load32 m (a + 4 * i)) <$> seqZ 0 n.

Definition write_words (m : mem) (a : Z) (l : list Z) : mem :=
  fun x => if in_range a (4 * zlen l) x
           then (default 0 (l !! Z.to_nat ((x - a) / 4)) / 256 ^ ((x - a) mod 4)) mod 256
           else m x.

(** ** Pointwise equality of memories *)

Definition meq (m1 m2 : mem) : Prop := forall x, m1 x = m2 x.

(** [m1] and [m2] agree outside of the [n] bytes at [a]. *)
Definition same_outside (a n : Z) (m1 m2 : mem) : Prop :=
  forall x, in_range a n x = false -> m1 x = m2 x.

Definition mem_ok (m : mem) : Prop := forall a, 0 <= m a < 256.

#[export] Instance meq_equiv : Equivalence meq.
Proof.
  split.
  - by intros m x.
  - intros m1 m2 H x. by rewrite H.
  - intros m1 m2 m3 H H' x. by rewrite H, H'.
Qed.

#[export] Instance load_proper n : Proper (meq ==> eq ==> eq) (load n).
Proof.
  intros m1 m2 H a ? <-. revert a. induction n as [|n IH]; intros a; [done|].
  simpl. by rewrite H, IH.
Qed.

#[export] Instance store_proper n : Proper (meq ==> eq ==> eq ==> meq) (store n).
Proof. intros m1 m2 H a ? <- v ? <- x. unfold store. by rewrite H. Qed.

#[export] Instance memset_proper : Proper (meq ==> eq ==> eq ==> eq ==> meq) memset.
Proof. intros m1 m2 H a ? <- v ? <- n ? <- x. unfold memset. by rewrite H. Qed.

(** ** Ranges *)

Lemma in_range_true a n x : in_range a n x = true <-> a <= x < a + n.
Proof.
  unfold in_range. rewrite andb_true_iff, Z.leb_le, Z.ltb_lt. tauto.
Qed.

Lemma in_range_false a n x : in_range a n x = false <-> ~ (a <= x < a + n).
Proof. rewrite <- in_range_true. by destruct (in_range a n x). Qed.

(** Decide the range tests of the goal with [lia]. *)
Ltac decide_ranges :=
  repeat match goal with
  | |- context [in_range ?a ?n ?x] =>
      first [ rewrite (proj2 (in_range_true a n x)) by lia
            | rewrite (proj2 (in_range_false a n x)) by lia ]
  end.

Ltac case_range :=
  match goal with
  | |- context [in_range ?a ?n ?x] =>
      let E := fresh "R" in
      destruct (in_range a n x) eqn:E;
      [apply in_range_true in E | apply in_range_false in E]
  end.

(** ** Loads *)

Lemma load_range n m a : mem_ok m -> 0 <= load n m a < 256 ^ Z.of_nat n.
Proof.
  intros Hm. revert a. induction n as [|n IH]; intros a; [simpl; lia|].
  cbn [load]. specialize (IH (a + 1)). pose proof (Hm a).
  rewrite Nat2Z.inj_succ, Z.pow_succ_r by lia. nia.
Qed.

Lemma load_ext n m1 m2 a :
  (forall x, a <= x < a + Z.of_nat n -> m1 x = m2 x) -> load n m1 a = load n m2 a.
Proof.
  revert a. induction n as [|n IH]; intros a H; [done|].
  cbn [load]. rewrite (H a), IH; [done| |lia].
  intros x Hx. apply H. lia.
Qed.

Lemma load_store_other n k m a b v :
  b + Z.of_nat n <= a \/ a + k <= b -> load n (store k m a v) b = load n m b.
Proof.
  intros H. apply load_ext. intros x Hx. unfold store. by decide_ranges.
Qed.

Lemma load_memset_other n m a v k b :
  b + Z.of_nat n <= a \/ a + k <= b -> load n (memset m a v k) b = load n m b.
Proof.
  intros H. apply load_ext. intros x Hx. unfold memset. by decide_ranges.
Qed.

Lemma load_outside n m1 m2 a k b :
  same_outside a k m1 m2 -> b + Z.of_nat n <= a \/ a + k <= b ->
  load n m1 b = load n m2 b.
Proof.
  intros H Hd. apply load_ext. intros x Hx. apply H. apply in_range_false. lia.
Qed.

Lemma load_memset_zero n m a k b :
  a <= b -> b + Z.of_nat n <= a + k -> load n (memset m a 0 k) b = 0.
Proof.
  revert b. induction n as [|n IH]; intros b Hl Hu; [done|].
  cbn [load]. rewrite IH by lia. unfold memset. by decide_ranges.
Qed.

Lemma load_store_aux n m a v d k :
  0 <= d -> d + Z.of_nat n <= k ->
  load n (store k m a v) (a + d) = (v / 256 ^ d) mod 256 ^ Z.of_nat n.
Proof.
  intros Hd. revert d Hd. induction n as [|n IH]; intros d Hd Hk.
  - simpl. by rewrite Z.mod_1_r.
  - cbn [load]. rewrite <- (Z.add_assoc a d 1), IH by lia.
    unfold store at 1. decide_ranges.
    replace (a + d - a) with d by lia.
    rewrite Nat2Z.inj_succ, Z.pow_succ_r, Z.pow_add_r, Z.pow_1_r by lia.
    assert (0 < 256 ^ d) by (apply Z.pow_pos_nonneg; lia).
    assert (0 < 256 ^ Z.of_nat n) by (apply Z.pow_pos_nonneg; lia).
    rewrite <- Z.div_div by lia.
    rewrite (Z.rem_mul_r (v / 256 ^ d) 256 (256 ^ Z.of_nat n)) by lia. lia.
Qed.

Lemma load_store_same n m a v :
  load n (store (Z.of_nat n) m a v) a = v mod 256 ^ Z.of_nat n.
Proof.
  rewrite <- (Z.add_0_r a) at 2. rewrite load_store_aux by lia. by rewrite Z.div_1_r.
Qed.

Lemma load32_store32_same m a v : load32 (store32 m a v) a = u32 v.
Proof. apply (load_store_same 4). Qed.

Lemma load16_store16_same m a v : load16 (store16 m a v) a = u16 v.
Proof. apply (load_store_same 2). Qed.

Lemma load32_range m a : mem_ok m -> 0 <= load32 m a < 2 ^ 32.
Proof. intros H. apply (load_range 4 m a H). Qed.

Lemma load16_range m a : mem_ok m -> 0 <= load16 m a < 2 ^ 16.
Proof. intros H. apply (load_range 2 m a H). Qed.

(** ** Well-formed memories are closed under the writes *)

Lemma store_mem_ok n m a v : mem_ok m -> mem_ok (store n m a v).
Proof. intros H x. unfold store. case_range; [apply Z.mod_pos_bound; lia|apply H]. Qed.

Lemma memset_mem_ok m a v n : mem_ok m -> mem_ok (memset m a v n).
Proof. intros H x. unfold memset. case_range; [apply u8_range|apply H]. Qed.

Lemma store_byte_mem_ok m a v : mem_ok m -> mem_ok (store_byte m a v).
Proof. intros H x. unfold store_byte. case_match; [apply u8_range|apply H]. Qed.

Lemma moved_mem_ok m d s n : mem_ok m -> mem_ok (moved m d s n).
Proof. intros H x. unfold moved. case_range; apply H. Qed.

Lemma memcpy_mem_ok m d s n m' : mem_ok m -> memcpy m d s n = Ok m' -> mem_ok m'.
Proof. unfold memcpy. intros H. case_match; [|done]. intros [= <-]. by apply moved_mem_ok. Qed.

Lemma memcpy_apart m d s n : n <= Z.abs (d - s) -> memcpy m d s n = Ok (moved m d s n).
Proof. intros H. unfold memcpy. by rewrite (proj2 (Z.leb_le _ _)). Qed.

Lemma memcpy_overlap m d s n : Z.abs (d - s) < n -> memcpy m d s n = Fail Overlap.
Proof. intros H. unfold memcpy. by rewrite (proj2 (Z.leb_gt _ _)). Qed.

Lemma memcpy_bytes_mem_ok m a l : mem_ok m -> bytes l -> mem_ok (memcpy_bytes m a l).
Proof.
  intros H Hl x. unfold memcpy_bytes. case_range; [|apply H].
  destruct (l !! Z.to_nat (x - a)) as [b|] eqn:E; simpl; [|lia].
  by eapply (Forall_lookup_1 (fun c => 0 <= c < 256)) in E.
Qed.

Lemma write_words_mem_ok m a l : mem_ok m -> mem_ok (write_words m a l).
Proof.
  intros H x. unfold write_words. case_range; [apply Z.mod_pos_bound; lia|apply H].
Qed.

#[export] Hint Resolve store_mem_ok memset_mem_ok store_byte_mem_ok moved_mem_ok
  memcpy_bytes_mem_ok write_words_mem_ok load32_range load16_range : liga.

Lemma store_same_outside n m a v : same_outside a n m (store n m a v).
Proof. intros x Hx. unfold store. by rewrite Hx. Qed.

Lemma memset_same_outside m a v n : same_outside a n m (memset m a v n).
Proof. intros x Hx. unfold memset. by rewrite Hx. Qed.

(** ** Word arrays *)

Lemma length_read_words m a n : 0 <= n -> zlen (read_words m a n) = n.
Proof. intros H. unfold zlen, read_words. rewrite length_fmap, length_seqZ. lia. Qed.

Lemma lookup_read_words m a n i :
  0 <= i < n -> read_words m a n !! Z.to_nat i = Some (load32 m (a + 4 * i)).
Proof.
  intros H. unfold read_words. rewrite list_lookup_fmap, lookup_seqZ_lt by lia.
  simpl. do 3 f_equal. lia.
Qed.

Lemma load_write_words_other n m a l b :
  b + Z.of_nat n <= a \/ a + 4 * zlen l <= b ->
  load n (write_words m a l) b = load n m b.
Proof.
  intros H. apply load_ext. intros x Hx. unfold write_words. by decide_ranges.
Qed.

Lemma load32_write_words m a l i v :
  0 <= i -> l !! Z.to_nat i = Some v ->
  load32 (write_words m a l) (a + 4 * i) = u32 v.
Proof.
  intros Hi Hl. pose proof (lookup_lt_Some _ _ _ Hl) as Hlt.
  rewrite <- (load32_store32_same m (a + 4 * i) v).
  apply load_ext. intros x Hx. unfold write_words, store32, store. unfold zlen.
  decide_ranges.
  replace ((x - a) / 4) with i by (apply Z.div_unique with (x - a - 4 * i); lia).
  rewrite Hl. simpl. do 3 f_equal. symmetry. apply Z.mod_unique with i; lia.
Qed.
