(* ===== verification/Bitarray.v ===== *)
(** * Bitarray: the bit arrays of the commons library

    Models [commons/bitarray.c] over the byte memory of [Memory].  The two
    copies of [bitarray.h] number the bits of a byte differently: the one of
    the RFS counts from the least significant bit (the order ext2 uses on
    disk), the one of the FSC and RC from the most significant.  The class
    [BitOrder] is what the operations need of [BIT_IN_CHAR]; both headers
    are instances, and the theorems hold for either. *)

From S2P Require Import Prelude Memory.

Definition CHAR_BIT : Z := 8.

(** #define BIT_CHAR(bit) ((bit) / CHAR_BIT) *)
Definition BIT_CHAR (bit : Z) : Z := bit / CHAR_BIT.

(** rfs/commons/bitarray.h: 0x80 >> (CHAR_BIT - 1 - (bit % CHAR_BIT)) *)
Definition BIT_IN_CHAR_rfs (bit : Z) : Z :=
  Z.shiftr 128 (CHAR_BIT - 1 - bit mod CHAR_BIT).

(** rc/commons/bitarray.h: 1 << (CHAR_BIT - 1 - (bit % CHAR_BIT)) *)
Definition BIT_IN_CHAR_rc (bit : Z) : Z :=
  Z.shiftl 1 (CHAR_BIT - 1 - bit mod CHAR_BIT).

Class BitOrder := {
  BIT_IN_CHAR : Z -> Z;
  bit_pos : Z -> Z;
  bit_in_char_pos : forall b, BIT_IN_CHAR b = 2 ^ bit_pos b;
  bit_pos_range : forall b, 0 <= bit_pos b < 8;
  bit_pos_inj : forall b b', b / 8 = b' / 8 -> bit_pos b = bit_pos b' -> b = b'
}.

(** ** Operations *)

Record t_bitarray := { bitarray : Z; size : Z }.

Definition bitarray_create (bitarray size : Z) : t_bitarray :=
  {| bitarray := bitarray; size := size |}.

Section Operations.
Context {O : BitOrder}.

Definition bitarray_test_bit (m : mem) (self : t_bitarray) (bit_index : Z) : bool :=
  negb (Z.land (m (bitarray self + BIT_CHAR bit_index)) (BIT_IN_CHAR bit_index) =? 0).

Definition bitarray_set_bit (m : mem) (self : t_bitarray) (bit_index : Z) : mem :=
  let a := bitarray self + BIT_CHAR bit_index in
  store_byte m a (Z.lor (m a) (BIT_IN_CHAR bit_index)).

Definition bitarray_clean_bit (m : mem) (self : t_bitarray) (bit_index : Z) : mem :=
  let mask := u8 (BIT_IN_CHAR bit_index) in
  let mask := u8 (Z.lnot mask) in
  let a := bitarray self + BIT_CHAR bit_index in
  store_byte m a (Z.land (m a) mask).

Definition bitarray_get_max_bit (self : t_bitarray) : Z := size self * CHAR_BIT.
End Operations.

(** ** The two instances *)

Lemma rfs_bit_pos b : BIT_IN_CHAR_rfs b = 2 ^ (b mod 8).
Proof.
  unfold BIT_IN_CHAR_rfs, CHAR_BIT.
  assert (0 <= b mod 8 < 8) as H by (apply Z.mod_pos_bound; lia).
  generalize dependent (b mod 8). intros r H.
  assert (r = 0 \/ r = 1 \/ r = 2 \/ r = 3 \/ r = 4 \/ r = 5 \/ r = 6 \/ r = 7) as Hr by lia.
  destruct Hr as [->|[->|[->|[->|[->|[->|[->| ->]]]]]]]; reflexivity.
Qed.

Lemma rc_bit_pos b : BIT_IN_CHAR_rc b = 2 ^ (7 - b mod 8).
Proof.
  unfold BIT_IN_CHAR_rc, CHAR_BIT. rewrite Z.shiftl_1_l. f_equal.
Qed.

#[export] Instance rfs_bit_order : BitOrder.
Proof.
  refine {| BIT_IN_CHAR := BIT_IN_CHAR_rfs;
            bit_pos b := b mod 8;
            bit_in_char_pos := rfs_bit_pos |}.
  - intros b. apply Z.mod_pos_bound; lia.
  - intros b b' Hq Hr. rewrite (Z.div_mod b 8), (Z.div_mod b' 8) by lia. lia.
Defined.

Definition rc_bit_order : BitOrder.
Proof.
  refine {| BIT_IN_CHAR := BIT_IN_CHAR_rc;
            bit_pos b := 7 - b mod 8;
            bit_in_char_pos := rc_bit_pos |}.
  - intros b. pose proof (Z.mod_pos_bound b 8). lia.
  - intros b b' Hq Hr. rewrite (Z.div_mod b 8), (Z.div_mod b' 8) by lia. lia.
Defined.

(** ** Behaviour *)

Section Laws.
Context {O : BitOrder}.
Implicit Types (m : mem) (bm : t_bitarray).

Lemma test_bit_testbit m bm i :
  bitarray_test_bit m bm i = Z.testbit (m (bitarray bm + i / 8)) (bit_pos i).
Proof.
  unfold bitarray_test_bit, BIT_CHAR, CHAR_BIT. rewrite bit_in_char_pos.
  pose proof (bit_pos_range i) as Hp.
  set (x := m _). set (p := bit_pos i) in *.
  destruct (Z.testbit x p) eqn:E.
  - apply negb_true_iff, Z.eqb_neq. intros H.
    assert (Z.testbit (Z.land x (2 ^ p)) p = true) as Ht.
    { rewrite Z.land_spec, E, Z.pow2_bits_true by lia. done. }
    rewrite H, Z.bits_0 in Ht. done.
  - apply negb_false_iff, Z.eqb_eq. apply Z.bits_inj'. intros n Hn.
    rewrite Z.land_spec, Z.bits_0, Z.pow2_bits_eqb by lia.
    destruct (Z.eqb_spec p n) as [<-|]; [by rewrite E|apply andb_false_r].
Qed.

Lemma testbit_u8 x p : 0 <= p < 8 -> Z.testbit (u8 x) p = Z.testbit x p.
Proof. intros H. unfold u8. apply Z.mod_pow2_bits_low. lia. Qed.

Lemma byte_ne_or_bit_ne i j :
  i <> j -> i / 8 <> j / 8 \/ (i / 8 = j / 8 /\ bit_pos i <> bit_pos j).
Proof.
  intros H. destruct (Z.eq_dec (i / 8) (j / 8)) as [e|]; [|by left].
  right. split; [done|]. intros Hp. by apply H, bit_pos_inj.
Qed.

Lemma store_byte_same m a v : store_byte m a v a = u8 v.
Proof. unfold store_byte. by rewrite Z.eqb_refl. Qed.

Lemma store_byte_other m a v x : x <> a -> store_byte m a v x = m x.
Proof. intros H. unfold store_byte. by rewrite (proj2 (Z.eqb_neq x a)). Qed.

Lemma test_set_bit m bm i j :
  bitarray_test_bit (bitarray_set_bit m bm i) bm j =
  (bool_decide (i = j) || bitarray_test_bit m bm j)%bool.
Proof.
  rewrite !test_bit_testbit. unfold bitarray_set_bit, BIT_CHAR, CHAR_BIT.
  rewrite bit_in_char_pos. pose proof (bit_pos_range i). pose proof (bit_pos_range j).
  case_bool_decide as E; simpl.
  - subst j. rewrite store_byte_same, testbit_u8, Z.lor_spec, Z.pow2_bits_true by lia.
    apply orb_true_r.
  - destruct (byte_ne_or_bit_ne i j E) as [Hb|[Hb Hp]].
    + rewrite store_byte_other by lia. done.
    + rewrite Hb, store_byte_same, testbit_u8, Z.lor_spec by lia.
      rewrite Z.pow2_bits_false by lia. apply orb_false_r.
Qed.

Lemma test_clean_bit m bm i j :
  bitarray_test_bit (bitarray_clean_bit m bm i) bm j =
  (negb (bool_decide (i = j)) && bitarray_test_bit m bm j)%bool.
Proof.
  rewrite !test_bit_testbit. unfold bitarray_clean_bit, BIT_CHAR, CHAR_BIT.
  rewrite bit_in_char_pos. pose proof (bit_pos_range i). pose proof (bit_pos_range j).
  case_bool_decide as E; simpl.
  - subst j. rewrite store_byte_same, testbit_u8, Z.land_spec by lia.
    rewrite testbit_u8, Z.lnot_spec, testbit_u8, Z.pow2_bits_true by lia.
    apply andb_false_r.
  - destruct (byte_ne_or_bit_ne i j E) as [Hb|[Hb Hp]].
    + rewrite store_byte_other by lia. done.
    + rewrite Hb, store_byte_same, testbit_u8, Z.land_spec by lia.
      rewrite testbit_u8, Z.lnot_spec, testbit_u8, Z.pow2_bits_false by lia.
      apply andb_true_r.
Qed.

(** Both writes change the one byte of the bit. *)
Lemma set_bit_outside m bm i :
  same_outside (bitarray bm + i / 8) 1 m (bitarray_set_bit m bm i).
Proof.
  intros x Hx. apply in_range_false in Hx. symmetry. apply store_byte_other.
  unfold BIT_CHAR, CHAR_BIT. lia.
Qed.

Lemma clean_bit_outside m bm i :
  same_outside (bitarray bm + i / 8) 1 m (bitarray_clean_bit m bm i).
Proof.
  intros x Hx. apply in_range_false in Hx. symmetry. apply store_byte_other.
  unfold BIT_CHAR, CHAR_BIT. lia.
Qed.

Lemma set_bit_mem_ok m bm i : mem_ok m -> mem_ok (bitarray_set_bit m bm i).
Proof. intros H. by apply store_byte_mem_ok. Qed.

Lemma clean_bit_mem_ok m bm i : mem_ok m -> mem_ok (bitarray_clean_bit m bm i).
Proof. intros H. by apply store_byte_mem_ok. Qed.

Lemma test_bit_ext m1 m2 bm i :
  m1 (bitarray bm + i / 8) = m2 (bitarray bm + i / 8) ->
  bitarray_test_bit m1 bm i = bitarray_test_bit m2 bm i.
Proof. intros H. by rewrite !test_bit_testbit, H. Qed.
End Laws.

#[export] Hint Resolve set_bit_mem_ok clean_bit_mem_ok : liga.
