(* ===== verification/Ext2.v ===== *)
(** * Ext2: the on-disk structures of the file system

    Models [rfs/source_RFS/ex2_block_types.c] and its header.  A
    [SuperBlock_t*], [Group_Descriptor_t*] or [inode_t*] of the code points
    into the mapped image, so it is an address of the byte memory, and a
    field is a load or a store at the offset the structure gives it. *)

From S2P Require Import Prelude Memory Bitarray.

(** ** struct Superblock_constants and the fields of the structures *)

Class Superblock_constants := {
  TOTAL_NUMBER_INODES_FS : Z;
  TOTAL_NUMBER_BLOCKS_FS : Z;
  BLOCKS_PER_GROUP : Z;
  INODES_PER_GROUP : Z;
  BLOCK_SIZE : Z;
  TOTAL_GROUPS : Z;
  GDT_START : Z
}.

Definition SUPERBLOCK_START : Z := 1024.

(** SuperBlock_t: offsets of the fields. *)
Module SuperBlock.
Definition TOTAL_NUMBER_INODES_FS : Z := SUPERBLOCK_START + 0.
Definition TOTAL_NUMBER_BLOCKS_FS : Z := SUPERBLOCK_START + 4.
Definition TOTAL_UNALLOCATED_BLOCKS : Z := SUPERBLOCK_START + 12.
Definition TOTAL_UNALLOCATED_INODES : Z := SUPERBLOCK_START + 16.
Definition SHIFT_NUMBER_BLOCK_SIZE : Z := SUPERBLOCK_START + 24.
Definition BLOCKS_PER_GROUP : Z := SUPERBLOCK_START + 32.
Definition INODES_PER_GROUP : Z := SUPERBLOCK_START + 40.
End SuperBlock.

(** Group_Descriptor_t *)
Definition sizeof_Group_Descriptor : Z := 32.
Definition BITMAP_BLOCK_ADDRESS (m : mem) (gd : Z) : Z := load32 m gd.
Definition BITMAP_INODE_ADDRESS (m : mem) (gd : Z) : Z := load32 m (gd + 4).
Definition START_INODE_TABLE (m : mem) (gd : Z) : Z := load32 m (gd + 8).
Definition UNALLOCATED_BLOCKS (m : mem) (gd : Z) : Z := load16 m (gd + 12).
Definition UNALLOCATED_INODES (m : mem) (gd : Z) : Z := load16 m (gd + 14).
Definition NUMBER_DIRECTORIES_GROUP (m : mem) (gd : Z) : Z := load16 m (gd + 16).
Definition set_UNALLOCATED_BLOCKS (m : mem) (gd v : Z) : mem := store16 m (gd + 12) v.
Definition set_UNALLOCATED_INODES (m : mem) (gd v : Z) : mem := store16 m (gd + 14) v.
Definition set_NUMBER_DIRECTORIES_GROUP (m : mem) (gd v : Z) : mem := store16 m (gd + 16) v.

(** inode_t *)
Definition sizeof_inode : Z := 128.
Module Inode.
Definition mode (m : mem) (i : Z) : Z := load16 m i.
Definition size (m : mem) (i : Z) : Z := s32 (load32 m (i + 4)).
Definition links_count (m : mem) (i : Z) : Z := load16 m (i + 26).
Definition blocks (m : mem) (i : Z) : Z := load32 m (i + 28).
Definition pointer_data_0 (i k : Z) : Z := i + 40 + 4 * k.
Definition pointer_data_1 (i : Z) : Z := i + 88.
Definition pointer_data_2 (i : Z) : Z := i + 92.
Definition pointer_data_3 (i : Z) : Z := i + 96.
Definition set_mode (m : mem) (i v : Z) : mem := store16 m i v.
Definition set_size (m : mem) (i v : Z) : mem := store32 m (i + 4) v.
Definition set_links_count (m : mem) (i v : Z) : mem := store16 m (i + 26) v.
Definition set_blocks (m : mem) (i v : Z) : mem := store32 m (i + 28) v.
End Inode.

(** ** Superblock functions *)

Definition SuperBlock_getBlockSize (m : mem) : Z :=
  u32 (Z.shiftl 1024 (load32 m SuperBlock.SHIFT_NUMBER_BLOCK_SIZE)).

(** lround((double) a / b) of two uint32_t: the nearest integer, halves away
    from zero.  The double division cannot move a quotient across a half. *)
Definition lround_div (a b : Z) : Z := (2 * a + b) / (2 * b).

Definition SuperBlock_getTotalGroups (m : mem) : Z :=
  let groups_through_blocks :=
    s32 (lround_div (load32 m SuperBlock.TOTAL_NUMBER_BLOCKS_FS)
                    (load32 m SuperBlock.BLOCKS_PER_GROUP)) in
  let groups_through_inodes :=
    s32 (lround_div (load32 m SuperBlock.TOTAL_NUMBER_INODES_FS)
                    (load32 m SuperBlock.INODES_PER_GROUP)) in
  u32 (if groups_through_blocks <? groups_through_inodes
       then groups_through_inodes else groups_through_blocks).

(** The first call fills the global [Super_constants]; the later ones only
    return the address [SUPERBLOCK_START]. *)
Definition SuperBlock_read (m : mem) : Superblock_constants :=
  let bs := SuperBlock_getBlockSize m in
  {| BLOCKS_PER_GROUP := load32 m SuperBlock.BLOCKS_PER_GROUP;
     INODES_PER_GROUP := load32 m SuperBlock.INODES_PER_GROUP;
     TOTAL_NUMBER_BLOCKS_FS := load32 m SuperBlock.TOTAL_NUMBER_BLOCKS_FS;
     TOTAL_NUMBER_INODES_FS := load32 m SuperBlock.TOTAL_NUMBER_INODES_FS;
     BLOCK_SIZE := bs;
     GDT_START := if bs =? 1024 then u32 (SUPERBLOCK_START + bs) else bs;
     TOTAL_GROUPS := SuperBlock_getTotalGroups m |}.

(** while (base < number) base *= base; return base == number;
    [None] when the loop is still running after [fuel] tests. *)
Fixpoint is_Power (fuel : nat) (number base : Z) : option bool :=
  match fuel with
  | O => None
  | S n => if base <? number then is_Power n number (u64 (base * base))
           else Some (base =? number)
  end.

Definition is_Sparse (gnumber : Z) : bool :=
  (gnumber =? 0) || (gnumber =? 1)
  || default false (is_Power 6 gnumber 3)
  || default false (is_Power 6 gnumber 5)
  || default false (is_Power 6 gnumber 7).

Section Ext2.
Context {Super_constants : Superblock_constants}.

(** The address of a block: uint32_t * uint32_t, added to the mapping. *)
Definition block_addr (b : Z) : Z := u32 (b * BLOCK_SIZE).

(** Pointers of 32 bits in a block: BLOCK_SIZE / sizeof(uint32_t) *)
Definition ptrs_per_block : Z := BLOCK_SIZE / 4.

Definition Size_In_Blocks (bytes : Z) : Z :=
  let bytes := u32 bytes in
  let blocks := bytes / BLOCK_SIZE in
  if bytes mod BLOCK_SIZE >? 0 then blocks + 1 else blocks.

Definition SuperBlock_getGDTSize : Z :=
  u32 (Size_In_Blocks (sizeof_Group_Descriptor * TOTAL_GROUPS)).

(** ** Group descriptors *)

Definition Group_Descriptor_read (gd_position : Z) : option Z :=
  if gd_position <? TOTAL_GROUPS
  then Some (GDT_START + sizeof_Group_Descriptor * gd_position)
  else None.

Definition Group_Number (m : mem) (group_desc : Z) : Z :=
  u32 (BITMAP_BLOCK_ADDRESS m group_desc - 1) / BLOCKS_PER_GROUP.

(** ** Inodes *)

Definition Inode_TableSize : Z :=
  u32 (Size_In_Blocks (u32 (sizeof_inode * INODES_PER_GROUP))).

Definition Data_Blocks_In_Group (m : mem) (group_desc : Z) : Z :=
  let data_blocks := u32 (BLOCKS_PER_GROUP - 2 - Inode_TableSize) in
  let gnumber := Group_Number m group_desc in
  if gnumber =? 0 then 8109
  else if is_Sparse gnumber
       then u32 (data_blocks - (1 + SuperBlock_getGDTSize))
       else data_blocks.

(** [None]: the group descriptor is NULL and the code dereferences it. *)
Definition Inode_readTable (m : mem) (group_number : Z) : option Z :=
  gd ← Group_Descriptor_read group_number;
  Some (u32 (START_INODE_TABLE m gd * BLOCK_SIZE)).

Definition Inode_locateGroup (anInodeNumber : Z) : Z :=
  u32 (anInodeNumber - 1) / INODES_PER_GROUP.

Definition Inode_getLocalIndex (anInodeNumber : Z) : Z :=
  u32 (anInodeNumber - 1) mod INODES_PER_GROUP.

Definition Inode_Local_Read (m : mem) (aGroupBlock anInodeIndex : Z) : option Z :=
  tablaDeInodos ← Inode_readTable m aGroupBlock;
  Some (tablaDeInodos + sizeof_inode * anInodeIndex).

Definition Inode_Global_Read (m : mem) (anInodeNumber : Z) : option Z :=
  let grupo := Inode_locateGroup anInodeNumber in
  let indice := Inode_getLocalIndex anInodeNumber in
  Inode_Local_Read m grupo indice.

Definition Inode_Block_Read (m : mem) (anInode aBlockNumber : Z) : Z :=
  load32 m (Inode.pointer_data_0 anInode aBlockNumber).

(** ** Reading the data pointers of an inode *)

Definition Inode_Indirect_Read1 (m : mem) (indirect_block blocks_to_read : Z)
  : option (list Z) :=
  if blocks_to_read >? ptrs_per_block then None
  else Some (read_words m (block_addr indirect_block) blocks_to_read).

(** pow(BLOCK_SIZE / sizeof(uint32_t), level) stored in a uint32_t *)
Definition pow_ptrs (level : nat) : Z := u32 (ptrs_per_block ^ Z.of_nat level).

(** The function calls itself with [level - 1], or [Inode_Indirect_Read1]
    when that is 1. The code never calls it with a level below 2. *)
Fixpoint Inode_Indirect_Read23 (level : nat) (m : mem) (indirect_block blocks_to_read : Z)
  : option (list Z) :=
  match level with
  | O => None
  | S level' =>
      let Indirect_Read :=
        if (level' =? 1)%nat then Inode_Indirect_Read1 m
        else Inode_Indirect_Read23 level' m in
      if blocks_to_read >? pow_ptrs level then None
      else
        let blocks_per_full_entry := pow_ptrs level' in
        let full_read_entries := blocks_to_read / blocks_per_full_entry in
        let remaining_blocks_to_read := blocks_to_read mod blocks_per_full_entry in
        let indirect_address i := load32 m (block_addr indirect_block + 4 * i) in
        full ← mapM (fun i => Indirect_Read (indirect_address i) blocks_per_full_entry)
                    (seqZ 0 full_read_entries);
        if remaining_blocks_to_read >? 0 then
          rest ← Indirect_Read (indirect_address full_read_entries) remaining_blocks_to_read;
          Some (mjoin full ++ rest)
        else Some (mjoin full)
  end.

Definition Indirect_Read (m : mem) (indirect_address : Z) (level : nat) (cantidad : Z)
  : option (list Z) :=
  if (1 <? level)%nat then Inode_Indirect_Read23 level m indirect_address cantidad
  else Inode_Indirect_Read1 m indirect_address cantidad.

(** The result has one more entry than the file has blocks, zero. *)
Definition Inode_Get_Data_Adressess (m : mem) (anInode file_size : Z) : option (list Z) :=
  let cantidadDeBloques :=
    u32 (if Size_In_Blocks file_size >? 1 then Size_In_Blocks file_size else 1) in
  let p := ptrs_per_block in
  let punteroDirecto := Inode.pointer_data_0 anInode 0 in
  if cantidadDeBloques >? 12 then
    let direct := read_words m punteroDirecto 12 in
    let cantidadDeBloques := cantidadDeBloques - 12 in
    let indirect1 := load32 m (Inode.pointer_data_1 anInode) in
    if cantidadDeBloques >? p then
      r1 ← Indirect_Read m indirect1 1 p;
      let cantidadDeBloques := cantidadDeBloques - p in
      let indirect2 := load32 m (Inode.pointer_data_2 anInode) in
      if cantidadDeBloques >? p ^ 2 then
        r2 ← Indirect_Read m indirect2 2 (u32 (p ^ 2));
        let cantidadDeBloques := u32 (cantidadDeBloques - u32 (p ^ 2)) in
        let indirect3 := load32 m (Inode.pointer_data_3 anInode) in
        if cantidadDeBloques <=? p ^ 3 then
          r3 ← Indirect_Read m indirect3 3 cantidadDeBloques;
          Some (direct ++ r1 ++ r2 ++ r3 ++ [0])
        else None
      else
        r2 ← Indirect_Read m indirect2 2 cantidadDeBloques;
        Some (direct ++ r1 ++ r2 ++ [0])
    else
      r1 ← Indirect_Read m indirect1 1 cantidadDeBloques;
      Some (direct ++ r1 ++ [0])
  else Some (read_words m punteroDirecto cantidadDeBloques ++ [0]).
End Ext2.
