(* ===== verification/Ext2Facts.v ===== *)
(** * Ext2Facts: the read side of the ext2 structures

    What the functions of [Ext2] compute: the group arithmetic of inodes and
    blocks, the test for sparse groups, and the translation of a file's block
    numbers into block addresses through the direct and the indirect
    pointers, against the reference definition [block_pointer]. *)

From S2P Require Import Prelude Memory Bitarray Ext2.

(** ** Sizes of the constants *)

(** What mke2fs writes for the three block sizes of ext2. *)
Class Superblock_ok `{Superblock_constants} : Prop := {
  block_size_cases : BLOCK_SIZE = 1024 \/ BLOCK_SIZE = 2048 \/ BLOCK_SIZE = 4096;
  inodes_per_group_pos : 0 < INODES_PER_GROUP < 2 ^ 32;
  blocks_per_group_pos : 0 < BLOCKS_PER_GROUP < 2 ^ 32
}.

(** ** Powers and sparse groups *)

Lemma is_Power_run fuel n b k :
  2 <= b -> n < 2 ^ 32 -> b < 2 ^ 64 -> (k < fuel)%nat -> n <= b ^ 2 ^ Z.of_nat k ->
  exists r, is_Power fuel n b = Some r /\
    (r = true <-> exists j : nat, n = b ^ 2 ^ Z.of_nat j).
Proof.
  revert b k. induction fuel as [|fuel IH]; intros b k Hb Hn Hb64 Hk Hle; [lia|].
  cbn [is_Power]. destruct (b <? n) eqn:E; zify_bool.
  - destruct k as [|k]; [change (2 ^ Z.of_nat 0) with 1 in Hle; lia|].
    assert (u64 (b * b) = b * b) as -> by (apply Z.mod_small; nia).
    assert (forall j, (b * b) ^ 2 ^ Z.of_nat j = b ^ 2 ^ Z.of_nat (S j)) as Hsq.
    { intros j. rewrite Nat2Z.inj_succ, Z.pow_succ_r by lia.
      rewrite <- (Z.pow_2_r b), <- Z.pow_mul_r by lia. done. }
    destruct (IH (b * b) k) as (r & Hr & Hiff); [nia|lia|nia|lia|by rewrite Hsq|].
    exists r. split; [done|]. rewrite Hiff. split.
    + intros [j Hj]. exists (S j). by rewrite <- Hsq.
    + intros [[|j] Hj].
      * change (2 ^ Z.of_nat 0) with 1 in Hj. lia.
      * exists j. by rewrite Hsq.
  - exists (b =? n). split; [done|]. rewrite Z.eqb_eq. split.
    + intros <-. exists 0%nat. change (2 ^ Z.of_nat 0) with 1. lia.
    + intros [j Hj]. assert (b ^ 1 <= b ^ 2 ^ Z.of_nat j) as H1.
      { apply Z.pow_le_mono_r; [lia|].
        assert (0 < 2 ^ Z.of_nat j) by (apply Z.pow_pos_nonneg; lia). lia. }
      rewrite Z.pow_1_r in H1. lia.
Qed.

(** Six tests are enough for 32-bit numbers. *)
Lemma is_Power_6 n b :
  2 <= b < 2 ^ 32 -> n < 2 ^ 32 ->
  exists r, is_Power 6 n b = Some r /\
    (r = true <-> exists j : nat, n = b ^ 2 ^ Z.of_nat j).
Proof.
  intros Hb Hn. apply (is_Power_run 6 n b 5); [lia|lia|lia|lia|].
  assert (2 ^ 32 <= b ^ 32) by (apply Z.pow_le_mono_l; lia). change (2 ^ Z.of_nat 5) with 32. lia.
Qed.

(** [is_Sparse] answers, within six squarings, whether a 32-bit group
    number is 0, 1 or one of base^1, base^2, base^4, base^8, ... for the bases
    3, 5 and 7: the other powers (27, 125, 243, ...), whose groups ext2 keeps
    a superblock copy in as well, are not recognised. *)
Lemma is_Sparse_groups g :
  0 <= g < 2 ^ 32 ->
  is_Sparse g = true <->
  g = 0 \/ g = 1 \/ exists b (j : nat), (b = 3 \/ b = 5 \/ b = 7) /\ g = b ^ 2 ^ Z.of_nat j.
Proof.
  intros Hg. unfold is_Sparse.
  destruct (is_Power_6 g 3) as (r3 & -> & H3); [lia..|].
  destruct (is_Power_6 g 5) as (r5 & -> & H5); [lia..|].
  destruct (is_Power_6 g 7) as (r7 & -> & H7); [lia..|].
  cbn [default]. rewrite !orb_true_iff, !Z.eqb_eq, H3, H5, H7. clear H3 H5 H7. split.
  - intros [[[[->| ->]|[j ->]]|[j ->]]|[j ->]]; eauto 10.
  - intros [->|[->|(b & j & [->|[->| ->]] & ->)]]; eauto 10.
Qed.

Lemma is_Sparse_groups_witness :
  is_Sparse 25 = true /\ is_Sparse 27 = false /\
  ~ exists b (j : nat), (b = 3 \/ b = 5 \/ b = 7) /\ 27 = b ^ 2 ^ Z.of_nat j.
Proof.
  split_and!; [vm_compute; reflexivity|vm_compute; reflexivity|].
  intros H. enough (is_Sparse 27 = true) by (vm_compute in *; discriminate).
  apply (is_Sparse_groups 27); [lia|]. right. right. exact H.
Defined.

(** ** Inode numbers *)

Section Blocks.
Context `{Superblock_ok}.

(** An inode number splits into a group and an index inside the group,
    and back; numbers start at 1. *)
Lemma Inode_number_split n :
  1 <= n < 2 ^ 32 ->
  n = Inode_locateGroup n * INODES_PER_GROUP + Inode_getLocalIndex n + 1 /\
  0 <= Inode_getLocalIndex n < INODES_PER_GROUP /\ 0 <= Inode_locateGroup n.
Proof.
  intros Hn. unfold Inode_locateGroup, Inode_getLocalIndex.
  pose proof inodes_per_group_pos. rewrite u32_small by lia.
  pose proof (Z.div_mod (n - 1) INODES_PER_GROUP). pose proof (Z.mod_pos_bound (n - 1) INODES_PER_GROUP).
  pose proof (Z.div_pos (n - 1) INODES_PER_GROUP). lia.
Qed.

Lemma block_size_pos : 0 < BLOCK_SIZE.
Proof. destruct block_size_cases as [->|[->| ->]]; lia. Qed.

Lemma Size_In_Blocks_bounds bytes :
  0 <= bytes < 2 ^ 32 ->
  bytes <= Size_In_Blocks bytes * BLOCK_SIZE < bytes + BLOCK_SIZE /\
  0 <= Size_In_Blocks bytes < 2 ^ 22 + 1.
Proof.
  intros Hb. unfold Size_In_Blocks. rewrite u32_small by done.
  destruct block_size_cases as [->|[->| ->]]; rewrite Z.gtb_ltb; case_test; zify_bool;
    Z.to_euclidean_division_equations; lia.
Qed.

(** [Size_In_Blocks] is the least number of blocks that holds the
    bytes. *)
Lemma Size_In_Blocks_least bytes k :
  0 <= bytes < 2 ^ 32 -> Size_In_Blocks bytes <= k <-> bytes <= k * BLOCK_SIZE.
Proof.
  intros Hb. pose proof (Size_In_Blocks_bounds bytes Hb). pose proof block_size_pos. nia.
Qed.

(** ** The block map *)

(** The block that [level] levels of pointers, from the block [blk], give
    for the entry [i]. *)
Fixpoint pointer_walk (m : mem) (level : nat) (blk i : Z) : Z :=
  match level with
  | O => blk
  | S l => let q := ptrs_per_block ^ Z.of_nat l in
           pointer_walk m l (load32 m (block_addr blk + 4 * (i / q))) (i mod q)
  end.

(** The block of the file's [i]-th block: ext2's i_block array. *)
Definition block_pointer (m : mem) (anInode i : Z) : Z :=
  let p := ptrs_per_block in
  if i <? 12 then load32 m (Inode.pointer_data_0 anInode i)
  else if i <? 12 + p then
    pointer_walk m 1 (load32 m (Inode.pointer_data_1 anInode)) (i - 12)
  else if i <? 12 + p + p ^ 2 then
    pointer_walk m 2 (load32 m (Inode.pointer_data_2 anInode)) (i - 12 - p)
  else pointer_walk m 3 (load32 m (Inode.pointer_data_3 anInode)) (i - 12 - p - p ^ 2).

Lemma ptrs_cases : ptrs_per_block = 256 \/ ptrs_per_block = 512 \/ ptrs_per_block = 1024.
Proof.
  unfold ptrs_per_block. destruct block_size_cases as [->|[->| ->]]; vm_compute; tauto.
Qed.

Lemma pow_ptrs_eq l : (l <= 3)%nat -> pow_ptrs l = ptrs_per_block ^ Z.of_nat l.
Proof.
  intros Hl. unfold pow_ptrs. apply u32_small.
  assert (l = 0 \/ l = 1 \/ l = 2 \/ l = 3)%nat as Hc by lia.
  destruct ptrs_cases as [->|[->| ->]], Hc as [->|[->|[->| ->]]]; vm_compute; split; congruence.
Qed.

Lemma seqZ_app a n k : 0 <= n -> 0 <= k -> seqZ a (n + k) = seqZ a n ++ seqZ (a + n) k.
Proof.
  intros Hn Hk. apply list_eq. intros i.
  destruct (decide (Z.of_nat i < n)).
  - rewrite lookup_app_l by (rewrite length_seqZ; lia). rewrite !lookup_seqZ_lt by lia. done.
  - rewrite lookup_app_r by (rewrite length_seqZ; lia). rewrite length_seqZ.
    destruct (decide (Z.of_nat i < n + k)).
    + rewrite !lookup_seqZ_lt by lia. f_equal. lia.
    + rewrite !lookup_seqZ_ge by lia. done.
Qed.

Lemma fmap_seqZ_shift {A} (f g : Z -> A) a n :
  (forall i, 0 <= i < n -> f (a + i) = g i) -> f <$> seqZ a n = g <$> seqZ 0 n.
Proof.
  intros Hf. apply list_eq. intros i. rewrite !list_lookup_fmap.
  destruct (decide (Z.of_nat i < n)).
  - rewrite !lookup_seqZ_lt by lia. simpl. rewrite Hf by lia. done.
  - rewrite !lookup_seqZ_ge by lia. done.
Qed.

(** Rows of [q] entries, one after the other. *)
Lemma mjoin_rows {A} (f : Z -> Z -> A) q k :
  0 < q -> 0 <= k ->
  mjoin ((fun r => (fun c => f r c) <$> seqZ 0 q) <$> seqZ 0 k) =
  (fun i => f (i / q) (i mod q)) <$> seqZ 0 (k * q).
Proof.
  intros Hq Hk. revert k Hk. apply natlike_ind; [done|]. intros k Hk IH.
  unfold Z.succ. rewrite (seqZ_app 0 k 1), fmap_app, join_app, IH by lia.
  rewrite Z.mul_add_distr_r, (seqZ_app 0 (k * q)), fmap_app by lia. f_equal.
  change (seqZ (0 + k) 1) with [0 + k]. simpl. rewrite app_nil_r, Z.mul_1_l.
  symmetry. apply fmap_seqZ_shift. intros i Hi.
  replace (0 + k * q + i) with (i + k * q) by lia.
  rewrite Z.div_add, Z.mod_add, Z.div_small, Z.mod_small by lia. done.
Qed.

Lemma Indirect_Read1_spec m blk n :
  0 <= n <= ptrs_per_block ->
  Inode_Indirect_Read1 m blk n = Some (pointer_walk m 1 blk <$> seqZ 0 n).
Proof.
  intros Hn. unfold Inode_Indirect_Read1. rewrite Z.gtb_ltb.
  rewrite (proj2 (Z.ltb_ge _ _)) by lia. unfold read_words. f_equal.
  apply list_fmap_ext. intros _ i _. simpl. change (ptrs_per_block ^ 0) with 1.
  by rewrite Z.div_1_r.
Qed.

Lemma mapM_total {A B} (f : A -> option B) (g : A -> B) l :
  (forall x, x ∈ l -> f x = Some (g x)) -> mapM f l = Some (g <$> l).
Proof.
  induction l as [|x l IH]; intros H'; [done|]. simpl.
  rewrite H' by set_solver. simpl. rewrite IH by set_solver. done.
Qed.

Lemma Indirect_Read23_unfold l m blk n (rd := if (l =? 1)%nat then Inode_Indirect_Read1 m
                                             else Inode_Indirect_Read23 l m) :
  Inode_Indirect_Read23 (S l) m blk n =
  if n >? pow_ptrs (S l) then None
  else full ← mapM (fun i => rd (load32 m (block_addr blk + 4 * i)) (pow_ptrs l))
                   (seqZ 0 (n / pow_ptrs l));
       if n mod pow_ptrs l >? 0 then
         rest ← rd (load32 m (block_addr blk + 4 * (n / pow_ptrs l))) (n mod pow_ptrs l);
         Some (mjoin full ++ rest)
       else Some (mjoin full).
Proof. reflexivity. Qed.

(** The recursive readers list the walks of the first [n] entries. *)
Lemma Indirect_Read_spec m level blk n :
  (1 <= level <= 3)%nat -> 0 <= n <= ptrs_per_block ^ Z.of_nat level ->
  Indirect_Read m blk level n = Some (pointer_walk m level blk <$> seqZ 0 n).
Proof.
  unfold Indirect_Read. intros [Hl Hl3]. revert blk n Hl Hl3.
  induction level as [|l IH]; [lia|]. intros blk n _ Hl3 Hn.
  destruct l as [|l].
  { change (Z.of_nat 1) with 1 in Hn. rewrite Z.pow_1_r in Hn.
    exact (Indirect_Read1_spec m blk n Hn). }
  change (1 <? S (S l))%nat with true.
  set (q := ptrs_per_block ^ Z.of_nat (S l)).
  assert (0 < q) as Hq.
  { apply Z.pow_pos_nonneg; [|lia]. destruct ptrs_cases as [->|[->| ->]]; lia. }
  rewrite Indirect_Read23_unfold, !pow_ptrs_eq by lia. fold q.
  rewrite Z.gtb_ltb, (proj2 (Z.ltb_ge _ _)) by lia.
  set (rd := if (S l =? 1)%nat then _ else _).
  assert (forall b k, 0 <= k <= q -> rd b k = Some (pointer_walk m (S l) b <$> seqZ 0 k)) as Hrd.
  { intros b k Hk. specialize (IH b k ltac:(lia) ltac:(lia) Hk). rewrite <- IH.
    subst rd. by destruct l. }
  pose proof (Z.div_mod n q) as Hdm. pose proof (Z.mod_pos_bound n q Hq).
  pose proof (Z.div_pos n q).
  rewrite (mapM_total _ (fun i => pointer_walk m (S l)
             (load32 m (block_addr blk + 4 * i)) <$> seqZ 0 q)) by (intros; apply Hrd; lia).
  cbn [mbind option_bind].
  rewrite (mjoin_rows (fun r c => pointer_walk m (S l) (load32 m (block_addr blk + 4 * r)) c))
    by lia.
  change (pointer_walk m (S (S l)) blk) with
    (fun i => pointer_walk m (S l) (load32 m (block_addr blk + 4 * (i / q))) (i mod q)).
  rewrite Z.gtb_ltb. case_test; zify_bool.
  - rewrite Hrd by lia. cbn [mbind option_bind]. f_equal.
    replace n with (n / q * q + n mod q) at 4 by lia.
    rewrite seqZ_app, fmap_app by lia. f_equal. symmetry. apply fmap_seqZ_shift.
    intros i Hi. replace (0 + n / q * q + i) with (i + n / q * q) by lia.
    rewrite Z.div_add, Z.mod_add, Z.div_small, Z.mod_small by lia. done.
  - do 3 f_equal. lia.
Qed.

Lemma max_blocks_enough :
  2 ^ 32 <= (12 + ptrs_per_block + ptrs_per_block ^ 2 + ptrs_per_block ^ 3) * BLOCK_SIZE.
Proof.
  unfold ptrs_per_block. destruct block_size_cases as [->|[->| ->]]; vm_compute; congruence.
Qed.

Lemma read_words_direct m anInode n :
  n <= 12 -> read_words m (Inode.pointer_data_0 anInode 0) n = block_pointer m anInode <$> seqZ 0 n.
Proof.
  intros Hn. unfold read_words. apply list_fmap_ext. intros k i Hi. apply lookup_seqZ in Hi as [-> Hi].
  unfold block_pointer. rewrite (proj2 (Z.ltb_lt _ _)) by lia.
  f_equal. unfold Inode.pointer_data_0. lia.
Qed.

Lemma Inode_addresses_spec m anInode file_size :
  0 <= file_size < 2 ^ 32 ->
  Inode_Get_Data_Adressess m anInode file_size =
  Some ((block_pointer m anInode <$> seqZ 0 (Z.max 1 (Size_In_Blocks file_size))) ++ [0]).
Proof.
  intros Hs. unfold Inode_Get_Data_Adressess.
  pose proof (Size_In_Blocks_bounds file_size Hs) as [Hb Hb'].
  pose proof max_blocks_enough as Hmax. pose proof block_size_pos as Hbs.
  set (n := Size_In_Blocks file_size) in *.
  assert (u32 (if n >? 1 then n else 1) = Z.max 1 n) as ->.
  { rewrite Z.gtb_ltb. destruct (1 <? n) eqn:E; zify_bool; rewrite u32_small; lia. }
  set (p := ptrs_per_block) in *.
  assert (0 < p /\ p ^ 2 < 2 ^ 32 /\ 12 + p + p ^ 2 + p ^ 3 < 2 ^ 32) as (Hp & Hp2 & Hp3).
  { subst p. destruct ptrs_cases as [->|[->| ->]]; vm_compute; split_and!; congruence. }
  assert (Z.max 1 n <= 12 + p + p ^ 2 + p ^ 3) as Hle by nia.
  set (k := Z.max 1 n) in *. assert (0 < k) as Hk by lia. clearbody k. clear Hb Hb' n.
  rewrite (u32_small (p ^ 2)) by lia.
  assert (forall lo len lvl blk,
    0 <= lo -> 0 <= len ->
    (forall i, 0 <= i < len -> block_pointer m anInode (lo + i) = pointer_walk m lvl blk i) ->
    block_pointer m anInode <$> seqZ lo len = pointer_walk m lvl blk <$> seqZ 0 len) as Hseg.
  { intros lo len lvl blk H1 H2 H3. by apply fmap_seqZ_shift. }
  assert (forall len, 0 <= len <= p -> block_pointer m anInode <$> seqZ 12 len =
    pointer_walk m 1 (load32 m (Inode.pointer_data_1 anInode)) <$> seqZ 0 len) as H1.
  { intros len Hlen. apply Hseg; [lia..|]. intros i Hi. unfold block_pointer. fold p.
    rewrite (proj2 (Z.ltb_ge _ _)), (proj2 (Z.ltb_lt _ _)) by lia. f_equal. lia. }
  assert (forall len, 0 <= len <= p ^ 2 -> block_pointer m anInode <$> seqZ (12 + p) len =
    pointer_walk m 2 (load32 m (Inode.pointer_data_2 anInode)) <$> seqZ 0 len) as H2.
  { intros len Hlen. apply Hseg; [lia..|]. intros i Hi. unfold block_pointer. fold p.
    rewrite !(proj2 (Z.ltb_ge _ _)), (proj2 (Z.ltb_lt _ _)) by lia. f_equal. lia. }
  assert (forall len, 0 <= len -> block_pointer m anInode <$> seqZ (12 + p + p ^ 2) len =
    pointer_walk m 3 (load32 m (Inode.pointer_data_3 anInode)) <$> seqZ 0 len) as H3.
  { intros len Hlen. apply Hseg; [lia..|]. intros i Hi. unfold block_pointer. fold p.
    rewrite !(proj2 (Z.ltb_ge _ _)) by lia. f_equal. lia. }
  rewrite (Z.gtb_ltb k 12). destruct (12 <? k) eqn:E1; zify_bool.
  2: { by rewrite read_words_direct by lia. }
  rewrite read_words_direct by lia.
  rewrite (Z.gtb_ltb (k - 12) p). destruct (p <? k - 12) eqn:E2; zify_bool.
  2: { rewrite Indirect_Read_spec by (change (Z.of_nat 1) with 1; fold p; lia).
       cbn [mbind option_bind].
       replace k with (12 + (k - 12)) at 2 by lia.
       rewrite (seqZ_app 0 12), fmap_app, <- app_assoc, H1 by lia. done. }
  rewrite (Indirect_Read_spec m 1 _ p) by (change (Z.of_nat 1) with 1; fold p; lia).
  cbn [mbind option_bind].
  rewrite (Z.gtb_ltb (k - 12 - p) (p ^ 2)). destruct (p ^ 2 <? k - 12 - p) eqn:E3; zify_bool.
  2: { rewrite (Indirect_Read_spec m 2 _ (k - 12 - p)) by (change (Z.of_nat 2) with 2; fold p; lia).
       cbn [mbind option_bind].
       replace k with (12 + (p + (k - 12 - p))) at 2 by lia.
       rewrite (seqZ_app 0 12), (seqZ_app (0 + 12) p), !fmap_app, H1, H2, <- !app_assoc by lia.
       done. }
  rewrite (Indirect_Read_spec m 2 _ (p ^ 2)) by (change (Z.of_nat 2) with 2; fold p; lia).
  cbn [mbind option_bind]. rewrite (u32_small (k - 12 - p - p ^ 2)) by lia.
  rewrite (proj2 (Z.leb_le _ _)) by lia.
  rewrite Indirect_Read_spec by (change (Z.of_nat 3) with 3; fold p; lia).
  cbn [mbind option_bind].
  replace k with (12 + (p + (p ^ 2 + (k - 12 - p - p ^ 2)))) at 2 by lia.
  rewrite (seqZ_app 0 12), (seqZ_app (0 + 12) p), (seqZ_app (0 + 12 + p) (p ^ 2)), !fmap_app by lia.
  change (0 + 12) with 12. rewrite H1, H2, H3, <- !app_assoc by lia. done.
Qed.

(** C29: the list that [Inode_Get_Data_Adressess] returns has, for each block
    of a file of [file_size] bytes (one block for an empty file), the block
    that the inode's direct and indirect pointers give for it, and then the
    terminating zero; it is never NULL. *)
Theorem Inode_Get_Data_Adressess_map m anInode file_size :
  0 <= file_size < 2 ^ 32 ->
  Inode_Get_Data_Adressess m anInode file_size =
  Some ((block_pointer m anInode <$> seqZ 0 (Z.max 1 (Size_In_Blocks file_size))) ++ [0]).
Proof. apply Inode_addresses_spec. Qed.
End Blocks.

(** ** Witnesses: an image of two groups with blocks of 1024 bytes *)

Definition sample_sb : Superblock_constants := {|
  TOTAL_NUMBER_INODES_FS := 4096; TOTAL_NUMBER_BLOCKS_FS := 16384;
  BLOCKS_PER_GROUP := 8192; INODES_PER_GROUP := 2048; BLOCK_SIZE := 1024;
  TOTAL_GROUPS := 2; GDT_START := 2048 |}.

Lemma sample_sb_ok : @Superblock_ok sample_sb.
Proof. split; cbn; [by left|lia|lia]. Defined.

Lemma Size_In_Blocks_least_witness : @Size_In_Blocks sample_sb 1025 <= 2 /\ 0 <= 1025 < 2 ^ 32.
Proof.
  split; [apply (@Size_In_Blocks_least sample_sb sample_sb_ok 1025 2); cbn; lia|lia].
Defined.

Lemma Inode_Get_Data_Adressess_map_witness :
  @Inode_Get_Data_Adressess sample_sb (fun _ => 1) 0 20000 =
  Some ((@block_pointer sample_sb (fun _ => 1) 0 <$> seqZ 0 20) ++ [0]).
Proof.
  exact (@Inode_Get_Data_Adressess_map sample_sb sample_sb_ok (fun _ => 1) 0 20000 ltac:(lia)).
Defined.
