(* ===== verification/CString.v ===== *)
(** * CString: the string functions of the commons library

    Models [commons/string.c] (the same file in fsc, rc and rfs) and the libc
    string functions the program calls.  A string is the list of its
    characters; a function that rewrites its argument in place, or through a
    [char**], returns the new string. *)

From S2P Require Import Prelude.

(** ** libc *)

Definition strlen (s : list Z) : Z := zlen s.

Definition isblank (c : Z) : bool := (c =? 32) || (c =? 9).
Definition isspace (c : Z) : bool := (c =? 32) || ((9 <=? c) && (c <=? 13)).
Definition toupper (c : Z) : Z := if (97 <=? c) && (c <=? 122) then c - 32 else c.
Definition tolower (c : Z) : Z := if (65 <=? c) && (c <=? 90) then c + 32 else c.

(** [strncmp a b n = 0] *)
Fixpoint strncmp0 (a b : list Z) (n : nat) {struct n} : bool :=
  match n with
  | O => true
  | S k => match a, b with
           | [], [] => true
           | x :: a', y :: b' => (x =? y) && strncmp0 a' b' k
           | _, _ => false
           end
  end.

Definition streq (a b : list Z) : bool := bool_decide (a = b).

(** strncpy into a zeroed buffer with room to spare *)
Definition strncpy (s : list Z) (n : nat) : list Z := take n s.
#[global] Arguments strncpy : simpl never.

(** The longest prefix whose characters satisfy [p], and the rest. *)
Fixpoint span (p : Z -> bool) (l : list Z) : list Z * list Z :=
  match l with
  | [] => ([], [])
  | c :: l' => if p c then let (a, b) := span p l' in (c :: a, b) else ([], l)
  end.

Definition is_sep (separator : list Z) (c : Z) : bool := bool_decide (c ∈ separator).

(** strtok_r: the next token and the text after the separator that ends it *)
Definition strtok_r (separator text : list Z) : option (list Z * list Z) :=
  match snd (span (is_sep separator) text) with
  | [] => None
  | l => let (tok, rest) := span (fun c => negb (is_sep separator c)) l in
         Some (tok, tail rest)
  end.

(** ** string.c *)

Definition string_repeat (character : Z) (count : nat) : list Z := replicate count character.
Definition string_duplicate (original : list Z) : list Z := original.
Definition string_append (original string_to_add : list Z) : list Z := original ++ string_to_add.
Definition string_is_empty (text : list Z) : bool := strlen text =? 0.
Definition string_to_upper (text : list Z) : list Z := toupper <$> text.
Definition string_to_lower (text : list Z) : list Z := tolower <$> text.

Definition string_capitalized (text : list Z) : list Z :=
  if string_is_empty text then text
  else match text with
       | [] => []
       | c :: l => toupper c :: (if strlen text >=? 2 then string_to_lower l else l)
       end.

Definition string_trim_left (text : list Z) : list Z := snd (span isblank text).
Definition string_trim_right (text : list Z) : list Z :=
  reverse (snd (span isspace (reverse text))).
Definition string_trim (text : list Z) : list Z := string_trim_right (string_trim_left text).

Definition string_starts_with (text begin : list Z) : bool :=
  strncmp0 text begin (length begin).

Definition string_ends_with (text end_ : list Z) : bool :=
  if strlen text <? strlen end_ then false
  else streq (drop (length text - length end_) text) end_.

Definition string_equals_ignore_case (actual expected : list Z) : bool :=
  streq (tolower <$> actual) (tolower <$> expected).

(** The array of the tokens, which the code ends with a NULL entry.  A call
    of strtok_r consumes at least one character, so [length text + 1] rounds
    are enough. *)
Fixpoint string_split_loop (fuel : nat) (text separator : list Z) : list (list Z) :=
  match fuel with
  | O => []
  | S n => match strtok_r separator text with
           | None => []
           | Some (token, next) => token :: string_split_loop n next separator
           end
  end.

Definition string_split (text separator : list Z) : list (list Z) :=
  string_split_loop (S (length text)) text separator.

Definition string_iterate_lines {A} (strings : list (list Z)) (closure : list Z -> A -> A) (a : A) : A :=
  fold_left (fun acc s => closure s acc) strings a.

(** ** Lemmas *)

Lemma streq_spec a b : streq a b = true <-> a = b.
Proof. unfold streq. by rewrite bool_decide_eq_true. Qed.

Lemma span_app p l : fst (span p l) ++ snd (span p l) = l.
Proof.
  induction l as [|c l IH]; [done|]. simpl. destruct (p c); [|done].
  destruct (span p l). simpl in *. by rewrite IH.
Qed.

Lemma span_all p l : Forall (fun c => p c = true) (fst (span p l)).
Proof.
  induction l as [|c l IH]; [constructor|]. simpl. destruct (p c) eqn:E; [|constructor].
  destruct (span p l). by constructor.
Qed.

Lemma span_stop p l c k : snd (span p l) = c :: k -> p c = false.
Proof.
  induction l as [|d l IH]; [done|]. simpl. destruct (p d) eqn:E.
  - destruct (span p l). apply IH.
  - by intros [= -> ->].
Qed.

Lemma span_exact p a b :
  Forall (fun c => p c = true) a ->
  match b with [] => True | c :: _ => p c = false end ->
  span p (a ++ b) = (a, b).
Proof.
  intros Ha Hb. induction Ha as [|c a Hc Ha IH]; simpl.
  - destruct b as [|c b]; [done|]. simpl. by rewrite Hb.
  - by rewrite Hc, IH.
Qed.

Lemma strncmp0_full a b : strncmp0 a b (length b) = true <-> b `prefix_of` a.
Proof.
  revert a. induction b as [|y b IH]; intros a; cbn [length strncmp0].
  - split; [intros _; apply prefix_nil|by destruct a].
  - destruct a as [|x a].
    + split; [done|]. intros [k Hk]. done.
    + rewrite andb_true_iff, Z.eqb_eq, IH. split.
      * intros [-> [k ->]]. by exists k.
      * intros [k Hk]. simplify_list_eq. split; [reflexivity|by exists k].
Qed.

(** A token that no separator occurs in. *)
Definition token_ok (sep : Z) (t : list Z) : Prop := t <> [] /\ sep ∉ t.

Lemma token_nonsep sep t :
  sep ∉ t -> Forall (fun c => negb (is_sep [sep] c) = true) t.
Proof.
  intros H. apply Forall_forall. intros c Hc. apply negb_true_iff.
  unfold is_sep. apply bool_decide_eq_false. rewrite list_elem_of_singleton.
  by intros ->.
Qed.

Lemma token_head_span sep c l :
  sep <> c -> span (is_sep [sep]) (c :: l) = ([], c :: l).
Proof.
  intros H. simpl. unfold is_sep. rewrite bool_decide_eq_false_2; [done|].
  by rewrite list_elem_of_singleton.
Qed.

Lemma strtok_r_token sep t rest :
  token_ok sep t ->
  strtok_r [sep] (t ++ sep :: rest) = Some (t, rest).
Proof.
  intros [Hne Hs]. unfold strtok_r. destruct t as [|c t]; [done|].
  rewrite <- app_comm_cons, token_head_span by set_solver. cbn [snd].
  rewrite app_comm_cons, (span_exact _ (c :: t) (sep :: rest)); [done| |].
  - by apply token_nonsep.
  - unfold is_sep. by rewrite bool_decide_eq_true_2 by by apply list_elem_of_singleton.
Qed.

Lemma strtok_r_last sep t :
  token_ok sep t -> strtok_r [sep] t = Some (t, []).
Proof.
  intros [Hne Hs]. unfold strtok_r. destruct t as [|c t]; [done|].
  rewrite token_head_span by set_solver. cbn [snd].
  rewrite <- (app_nil_r (c :: t)), (span_exact _ (c :: t) []) by (by apply token_nonsep || done).
  by rewrite app_nil_r.
Qed.

Lemma strtok_r_skip sep l : strtok_r [sep] (sep :: l) = strtok_r [sep] l.
Proof.
  unfold strtok_r. cbn [span]. unfold is_sep at 1.
  rewrite bool_decide_eq_true_2 by by apply list_elem_of_singleton.
  destruct (span (is_sep [sep]) l) as [a b]. done.
Qed.

(** [t1 sep t2 sep ... tn] *)
Fixpoint join (sep : Z) (ts : list (list Z)) : list Z :=
  match ts with
  | [] => []
  | [t] => t
  | t :: ts' => t ++ sep :: join sep ts'
  end.

Lemma string_split_loop_join sep ts n :
  Forall (token_ok sep) ts -> (length ts < n)%nat ->
  string_split_loop n (join sep ts) [sep] = ts.
Proof.
  intros H. revert n. induction H as [|t ts Ht Hts IH]; intros n Hn.
  - destruct n; [simpl in Hn; lia|]. done.
  - destruct n as [|n]; [simpl in Hn; lia|]. simpl in Hn. cbn [string_split_loop].
    destruct ts as [|t' ts].
    + cbn [join]. rewrite strtok_r_last by done.
      destruct n; [lia|]. done.
    + change (join sep (t :: t' :: ts)) with (t ++ sep :: join sep (t' :: ts)).
      rewrite strtok_r_token by done. f_equal. apply IH. simpl in *; lia.
Qed.

Lemma length_join sep ts :
  Forall (token_ok sep) ts -> (length ts <= length (join sep ts) + 1)%nat.
Proof.
  induction 1 as [|t ts [Hne _] Hts IH]; simpl; [lia|].
  destruct t as [|c t]; [done|]. destruct ts as [|t' ts]; [simpl in *; lia|].
  rewrite length_app. simpl in *. lia.
Qed.

(** The separator can also stand in front. *)
Lemma string_split_lead_join sep ts :
  Forall (token_ok sep) ts -> string_split (sep :: join sep ts) [sep] = ts.
Proof.
  intros H. unfold string_split.
  transitivity (string_split_loop (S (S (length (join sep ts)))) (join sep ts) [sep]).
  - cbn [string_split_loop length]. by rewrite strtok_r_skip.
  - apply string_split_loop_join; [done|]. pose proof (length_join sep ts H). lia.
Qed.

Lemma string_split_join_eq sep ts :
  Forall (token_ok sep) ts -> ts <> [] -> string_split (join sep ts) [sep] = ts.
Proof.
  intros H Hne. unfold string_split. apply string_split_loop_join; [done|].
  clear Hne. induction H as [|t ts [Hne _] Hts IH]; simpl; [lia|].
  destruct t as [|c t]; [done|]. destruct ts as [|t' ts]; [simpl in *; lia|].
  rewrite length_app. simpl in *. lia.
Qed.

(** ... and behind. *)
Lemma string_split_loop_trail sep ts n :
  Forall (token_ok sep) ts -> (length ts < n)%nat ->
  string_split_loop n (join sep ts ++ [sep]) [sep] = ts.
Proof.
  intros H. revert n. induction H as [|t ts Ht Hts IH]; intros n Hn.
  - destruct n; [simpl in Hn; lia|]. cbn [string_split_loop join app].
    by rewrite strtok_r_skip.
  - destruct n as [|n]; [simpl in Hn; lia|]. simpl in Hn. cbn [string_split_loop].
    destruct ts as [|t' ts].
    + cbn [join]. rewrite strtok_r_token by done. by destruct n; [lia|].
    + change (join sep (t :: t' :: ts)) with (t ++ sep :: join sep (t' :: ts)).
      rewrite <- app_assoc. cbn [app]. rewrite strtok_r_token by done. f_equal.
      apply IH. simpl in *; lia.
Qed.

Lemma string_split_lead_join_trail sep ts :
  Forall (token_ok sep) ts -> string_split (sep :: join sep ts ++ [sep]) [sep] = ts.
Proof.
  intros H. unfold string_split.
  transitivity (string_split_loop (S (S (length (join sep ts ++ [sep])))) (join sep ts ++ [sep]) [sep]).
  - cbn [string_split_loop length]. by rewrite strtok_r_skip.
  - apply string_split_loop_trail; [done|]. pose proof (length_join sep ts H).
    rewrite length_app. simpl. lia.
Qed.
