(* ===== verification/Paths.v ===== *)
(** * Paths: path names in the client and the server

    Models [split_path] and the search of the parent directory of
    [file_operations.c], [active_file_get_file_name] of [server_threading.c],
    the keys of the two users of the cache ([generate_key] of the server,
    [memcached_library_key] of the client) and [get_previus_path] of the
    client. *)

From S2P Require Import Prelude CString.

(** ** split_path *)

(** The indices of [sep] in [path]: the values that [pointer_to_separator]
    takes, as offsets from [path]. *)
Fixpoint separators (sep : Z) (path : list Z) (pos : nat) : list nat :=
  match path with
  | [] => []
  | c :: l => if c =? sep then pos :: separators sep l (S pos) else separators sep l (S pos)
  end.

(** The entries before the NULL one; [None] is a NULL result. *)
Definition split_path (path : list Z) : option (list (list Z)) :=
  if negb (strncmp0 path [slash] 1) then None
  else
    let pointers := separators slash path 0 in
    let ocurrences := length pointers in
    if strlen path =? 1 then Some [[slash]]
    else if (ocurrences =? 1)%nat then Some [[slash]; path]
    else
      let first := strncpy path (default 0%nat (pointers !! 1%nat)) in
      let middle := (fun p => strncpy path (p + 1)) <$> drop 2 pointers in
      let file_tree := [slash] :: first :: middle in
      if strncmp0 path (default [] (last file_tree)) (length path)
      then Some file_tree
      else Some (file_tree ++ [path]).

(** [for(; strncmp(file_tree[i], path, strlen(path)) != 0; i++); i--] and
    then [file_tree[i]]: [None] when the index leaves the array. *)
Definition parent_entry (file_tree : list (list Z)) (path : list Z) : option (list Z) :=
  match list_find (fun e => strncmp0 e path (length path) = true) file_tree with
  | Some (S i, _) => file_tree !! i
  | _ => None
  end.

(** ** The name of a file *)

Definition active_file_get_file_name_of (path : list Z) : option (list Z) :=
  if strlen path =? 1 then Some path
  else last (string_split path [slash]).

(** strrchr(s, c): the suffix that starts at the last [c] *)
Fixpoint strrchr (c : Z) (s : list Z) : option (list Z) :=
  match s with
  | [] => None
  | x :: l => match strrchr c l with
              | Some r => Some r
              | None => if x =? c then Some s else None
              end
  end.

(** [None]: the path has no '/' and strlen(NULL) is undefined. *)
Definition get_previus_path (path : list Z) : option (list Z) :=
  path_last ← strrchr slash path;
  let size_splitted := (length path - length path_last)%nat in
  Some (if (size_splitted =? 0)%nat then [slash] else take size_splitted path).

(** ** Keys of the cache *)

Definition le_bytes32 (v : Z) : list Z :=
  [v mod 256; (v / 256) mod 256; (v / 256 ^ 2) mod 256; (v / 256 ^ 3) mod 256].

(** The path, then the four bytes of the block number. *)
Definition generate_key (path : list Z) (block_number : Z) : list Z :=
  path ++ le_bytes32 block_number.

Inductive key_type := LEER_DIRECTORIO_key | OTHER_key.

Definition memcached_library_key (type : key_type) (path : list Z) : list Z :=
  match type with
  | LEER_DIRECTORIO_key => str "dir-" ++ path
  | OTHER_key => str "attr-" ++ path
  end.

(** ** Absolute paths *)

Definition name_ok (n : list Z) : Prop := token_ok slash n.

(** The path of the components [ns]: ["/n1/n2/.../nk"], ["/"] for none. *)
Definition abs_path (ns : list (list Z)) : list Z := slash :: join slash ns.

(** The path of a directory the way [split_path] spells the ancestors below
    the first level: with a trailing '/'. *)
Definition dir_path (ns : list (list Z)) : list Z := abs_path ns ++ [slash].

Lemma separators_app sep a b pos :
  separators sep (a ++ b) pos = separators sep a pos ++ separators sep b (pos + length a).
Proof.
  revert pos. induction a as [|c a IH]; intros pos; simpl.
  - by rewrite Nat.add_0_r.
  - rewrite IH. replace (S pos + length a)%nat with (pos + S (length a))%nat by lia.
    by destruct (c =? sep).
Qed.

Lemma separators_none sep a pos : sep ∉ a -> separators sep a pos = [].
Proof.
  revert pos. induction a as [|c a IH]; intros pos H; [done|]. simpl.
  rewrite (proj2 (Z.eqb_neq c sep)) by set_solver. apply IH. set_solver.
Qed.

Lemma separators_cons_sep sep l pos :
  separators sep (sep :: l) pos = pos :: separators sep l (S pos).
Proof. simpl. by rewrite Z.eqb_refl. Qed.

(** The ancestors [split_path] gives a path of the components [ns]. *)
Fixpoint ancestors (pre : list (list Z)) (ns : list (list Z)) : list (list Z) :=
  match ns with
  | [] => []
  | [n] => []
  | n :: ns' => dir_path (pre ++ [n]) :: ancestors (pre ++ [n]) ns'
  end.

Lemma join_snoc sep ts t :
  ts <> [] -> join sep (ts ++ [t]) = join sep ts ++ sep :: t.
Proof.
  induction ts as [|a ts IH]; [done|]. intros _. destruct ts as [|b ts]; [done|].
  change ((a :: b :: ts) ++ [t]) with (a :: (b :: ts) ++ [t]).
  change (join sep (a :: (b :: ts) ++ [t])) with (a ++ sep :: join sep ((b :: ts) ++ [t])).
  rewrite IH by done. change (join sep (a :: b :: ts)) with (a ++ sep :: join sep (b :: ts)).
  by rewrite <- app_assoc.
Qed.

Lemma join_app sep ts us :
  ts <> [] -> us <> [] -> join sep (ts ++ us) = join sep ts ++ sep :: join sep us.
Proof.
  revert us. induction ts as [|a ts IH]; [done|]. intros us _ Hu.
  destruct ts as [|b ts].
  - by destruct us.
  - change ((a :: b :: ts) ++ us) with (a :: (b :: ts) ++ us).
    change (join sep (a :: (b :: ts) ++ us)) with (a ++ sep :: join sep ((b :: ts) ++ us)).
    rewrite IH by done.
    change (join sep (a :: b :: ts)) with (a ++ sep :: join sep (b :: ts)).
    by rewrite <- app_assoc.
Qed.

(** The slashes of [join ns] are the ends of its proper prefixes. *)
Lemma middle_entries pre ns path :
  pre <> [] -> Forall name_ok ns -> ns <> [] ->
  path = abs_path (pre ++ ns) ->
  (fun p => strncpy path (p + 1)) <$>
    separators slash (join slash ns) (length (dir_path pre)) = ancestors pre ns.
Proof.
  revert pre. induction ns as [|n ns IH]; [done|].
  intros pre Hpre Hns _ Hpath. apply Forall_cons in Hns as [[Hn Hs] Hns].
  destruct ns as [|n' ns].
  { simpl. by rewrite separators_none. }
  change (join slash (n :: n' :: ns)) with (n ++ slash :: join slash (n' :: ns)).
  rewrite separators_app, separators_none by done. rewrite app_nil_l.
  change (separators slash (slash :: ?l) ?p) with (p :: separators slash l (S p)). cbn [fmap list_fmap ancestors].
  assert (abs_path (pre ++ [n]) = dir_path pre ++ n) as Hl.
  { unfold dir_path, abs_path. rewrite join_snoc by done.
    simpl. by rewrite <- app_assoc. }
  assert (path = dir_path (pre ++ [n]) ++ join slash (n' :: ns)) as Hp.
  { rewrite Hpath. change (n :: n' :: ns) with ([n] ++ (n' :: ns)).
    rewrite app_assoc. unfold abs_path at 1. rewrite join_app by (done || by destruct pre).
    unfold dir_path, abs_path. rewrite <- app_assoc. done. }
  f_equal.
  - rewrite Hp at 1. unfold strncpy. rewrite take_app_length'; [done|].
    unfold dir_path at 2. rewrite Hl, !length_app. simpl. lia.
  - etransitivity; [|apply (IH (pre ++ [n])); [by destruct pre|done|done|]].
    + f_equal. f_equal. unfold dir_path at 2. rewrite Hl, !length_app. simpl. lia.
    + rewrite Hpath, <- app_assoc. done.
Qed.

Lemma strncmp0_prefix a b : strncmp0 a b (length a) = true <-> a `prefix_of` b.
Proof.
  rewrite <- strncmp0_full. assert (forall n, strncmp0 a b n = strncmp0 b a n) as ->; [|done].
  intros n. revert a b. induction n as [|n IH]; intros a b; [done|].
  destruct a, b; simpl; [done..|]. by rewrite IH, Z.eqb_sym.
Qed.

Lemma abs_path_app pre ns :
  pre <> [] -> ns <> [] -> abs_path (pre ++ ns) = dir_path pre ++ join slash ns.
Proof.
  intros Hp Hn. unfold dir_path, abs_path. rewrite join_app by done.
  simpl. by rewrite <- app_assoc.
Qed.

Lemma length_dir_path ns : length (dir_path ns) = S (length (abs_path ns)).
Proof. unfold dir_path. rewrite length_app. simpl. lia. Qed.

(** A path has a character for each component. *)
Lemma names_fit ns : Forall name_ok ns -> zlen ns <= zlen (abs_path ns).
Proof.
  intros Hns. unfold abs_path. rewrite zlen_cons. unfold zlen.
  assert (length ns <= S (length (join slash ns)))%nat; [|lia].
  induction Hns as [|n ns [Hn _] Hns IH]; [simpl; lia|]. destruct n as [|c n]; [done|]. destruct ns as [|n' ns].
  - simpl. lia.
  - cbn [join]. rewrite !length_app. simpl in *. lia.
Qed.

Lemma join_nonempty ns : Forall name_ok ns -> ns <> [] -> (0 < length (join slash ns))%nat.
Proof.
  intros H Hne. destruct H as [|n ns [Hn _] Hns]; [done|].
  destruct n; [done|]. destruct ns; simpl; lia.
Qed.

Lemma ancestors_short pre ns e :
  pre <> [] -> Forall name_ok ns -> ns <> [] ->
  e ∈ ancestors pre ns -> (length e < length (abs_path (pre ++ ns)))%nat.
Proof.
  revert pre. induction ns as [|n ns IH]; [done|].
  intros pre Hpre Hns _ He. apply Forall_cons in Hns as [Hn Hns].
  destruct ns as [|n' ns]; [by apply not_elem_of_nil in He|].
  change (n :: n' :: ns) with ([n] ++ (n' :: ns)). rewrite app_assoc.
  change (ancestors pre (n :: n' :: ns))
    with (dir_path (pre ++ [n]) :: ancestors (pre ++ [n]) (n' :: ns)) in He.
  apply elem_of_cons in He as [->|He].
  - rewrite abs_path_app by (done || by destruct pre). rewrite length_app.
    pose proof (join_nonempty (n' :: ns) Hns ltac:(done)). lia.
  - apply IH; [by destruct pre|done|done|done].
Qed.

(** [split_path] on a well-formed path of two or more components. *)
Lemma split_path_deep n ns :
  Forall name_ok (n :: ns) -> ns <> [] ->
  split_path (abs_path (n :: ns)) =
  Some ([slash] :: abs_path [n] :: ancestors [n] ns ++ [abs_path (n :: ns)]).
Proof.
  intros Hall Hne. pose proof Hall as [[Hn Hs] Hns]%Forall_cons.
  set (path := abs_path (n :: ns)). unfold split_path.
  assert (path = abs_path [n] ++ slash :: join slash ns) as Hpath.
  { subst path. change (n :: ns) with ([n] ++ ns). unfold abs_path.
    rewrite join_app by done. done. }
  assert (separators slash path 0 = [0%nat; S (length n)] ++
          separators slash (join slash ns) (length (dir_path [n]))) as ->.
  { rewrite Hpath. change (abs_path [n]) with ([slash] ++ n).
    rewrite <- app_assoc. change ([slash] ++ n ++ ?l) with (slash :: n ++ l).
    rewrite separators_cons_sep, separators_app, (separators_none _ n) by done.
    rewrite app_nil_l, separators_cons_sep, length_dir_path. done. }
  pose proof (middle_entries [n] ns path ltac:(done) Hns Hne eq_refl) as Hmid.
  pose proof (ancestors_short [n] ns) as Hshort'. change ([n] ++ ns) with (n :: ns) in Hshort'.
  change (abs_path (n :: ns)) with path in Hshort'.
  assert (strncmp0 path [slash] 1 = true) as -> by (rewrite Hpath; done).
  revert Hmid. generalize (separators slash (join slash ns) (length (dir_path [n]))).
  intros seps Hmid. clearbody path. cbn [negb].
  rewrite (proj2 (Z.eqb_neq (strlen path) 1)).
  2: { unfold strlen, zlen. rewrite Hpath, length_app. simpl.
       pose proof (join_nonempty ns Hns Hne). lia. }
  simpl. rewrite drop_0, Hmid.
  assert (strncpy path (S (length n)) = abs_path [n]) as ->.
  { rewrite Hpath. unfold strncpy. rewrite take_app_length'; [done|]. done. }
  match goal with |- context [if ?b then _ else _] => destruct b eqn:Ec end; [|done].
  exfalso. revert Ec. rewrite strncmp0_prefix. intros Hpre%prefix_length.
  assert (forall e, e ∈ abs_path [n] :: ancestors [n] ns ->
                    (length e < length path)%nat) as Hshort.
  { intros e. rewrite elem_of_cons. intros [->|He].
    - rewrite Hpath, length_app. simpl. lia.
    - by apply Hshort'. }
  destruct (last (abs_path [n] :: ancestors [n] ns)) as [e|] eqn:El.
  - apply last_Some in El as [l' El].
    specialize (Hshort e). rewrite El in Hshort. simpl in Hpre.
    assert (e ∈ l' ++ [e]) as Hin by set_solver. specialize (Hshort Hin). lia.
  - by apply last_None in El.
Qed.

Lemma split_path_single n :
  name_ok n -> split_path (abs_path [n]) = Some [[slash]; abs_path [n]].
Proof.
  intros [Hn Hs]. change (abs_path [n]) with (slash :: n).
  assert ((strlen (slash :: n) =? 1) = false) as E.
  { apply Z.eqb_neq. unfold strlen, zlen. destruct n; simpl; [done|lia]. }
  unfold split_path. rewrite E, separators_cons_sep, separators_none by done. done.
Qed.

(** ** The parent directory *)

Lemma parent_entry_last tree path :
  (forall e, e ∈ tree -> (length e < length path)%nat) -> tree <> [] ->
  parent_entry (tree ++ [path]) path = last tree.
Proof.
  intros Hs Hne. unfold parent_entry.
  assert (list_find (fun e => strncmp0 e path (length path) = true) (tree ++ [path])
          = Some (length tree, path)) as ->.
  { apply list_find_Some. split_and!.
    - by rewrite lookup_app_r, Nat.sub_diag.
    - apply strncmp0_full. done.
    - intros j e He Hj. rewrite strncmp0_full.
      rewrite lookup_app_l in He by done.
      intros Hp%prefix_length. apply list_elem_of_lookup_2, Hs in He. lia. }
  destruct (length tree) as [|k] eqn:El; [by destruct tree|].
  rewrite last_lookup, El. simpl. rewrite lookup_app_l by lia. done.
Qed.

Lemma ancestors_last pre ns n :
  pre <> [] -> ns <> [] -> last (ancestors pre (ns ++ [n])) = Some (dir_path (pre ++ ns)).
Proof.
  revert pre. induction ns as [|m ns IH]; [done|]. intros pre Hpre _.
  destruct ns as [|m' ns]; [done|].
  change ((m :: m' :: ns) ++ [n]) with (m :: m' :: (ns ++ [n])).
  change (ancestors pre (m :: m' :: (ns ++ [n])))
    with (dir_path (pre ++ [m]) :: ancestors (pre ++ [m]) ((m' :: ns) ++ [n])).
  rewrite last_cons, IH by (done || by destruct pre).
  by rewrite <- app_assoc.
Qed.

Lemma separators_bound sep l pos p : p ∈ separators sep l pos -> (pos <= p < pos + length l)%nat.
Proof.
  revert pos. induction l as [|c l IH]; intros pos; [by intros []%not_elem_of_nil|]. simpl.
  destruct (c =? sep); [intros [->|H%IH]%elem_of_cons; lia|intros H%IH; lia].
Qed.

(** The spelling with a trailing '/' has the ancestors of anything below it. *)
Lemma split_path_dir n ns x :
  Forall name_ok (n :: ns) -> name_ok x -> ns <> [] ->
  split_path (dir_path (n :: ns)) = Some ([slash] :: abs_path [n] :: ancestors [n] (ns ++ [x])).
Proof.
  intros Hall Hx Hne. pose proof Hall as [[Hn Hs] Hns]%Forall_cons.
  assert (Hmid : (fun p => strncpy (dir_path (n :: ns)) (p + 1)) <$>
    separators slash (join slash ns ++ [slash]) (length (dir_path [n])) = ancestors [n] (ns ++ [x])).
  { etransitivity; [|apply (middle_entries [n] (ns ++ [x]) (abs_path (n :: ns ++ [x])));
      [done|apply Forall_app; split; [done|by apply Forall_singleton]|by destruct ns|done]].
    rewrite join_snoc by done. change (slash :: x) with ([slash] ++ x).
    rewrite app_assoc, (separators_app slash (join slash ns ++ [slash]) x), (separators_none _ x), app_nil_r
      by apply Hx.
    apply list_fmap_ext. intros k p Hp%list_elem_of_lookup_2%separators_bound.
    change (n :: ns ++ [x]) with ((n :: ns) ++ [x]). rewrite abs_path_app by done. unfold strncpy.
    rewrite take_app_le; [done|].
    unfold dir_path at 1. change (n :: ns) with ([n] ++ ns). rewrite abs_path_app by done.
    rewrite !length_app in *. simpl in *. lia. }
  assert (Hpath : dir_path (n :: ns) = abs_path [n] ++ slash :: join slash ns ++ [slash]).
  { unfold dir_path. change (n :: ns) with ([n] ++ ns). rewrite abs_path_app by done.
    unfold dir_path. by rewrite <- !app_assoc. }
  pose proof (ancestors_last [n] ns x ltac:(done) Hne) as Hlast.
  unfold split_path.
  assert (separators slash (dir_path (n :: ns)) 0 = [0%nat; S (length n)] ++
          separators slash (join slash ns ++ [slash]) (length (dir_path [n]))) as ->.
  { rewrite Hpath. change (abs_path [n]) with ([slash] ++ n).
    rewrite <- app_assoc. change ([slash] ++ n ++ ?l) with (slash :: n ++ l).
    rewrite separators_cons_sep, separators_app, (separators_none _ n) by done.
    rewrite app_nil_l, separators_cons_sep, length_dir_path. done. }
  revert Hmid. generalize (separators slash (join slash ns ++ [slash]) (length (dir_path [n]))).
  intros seps Hmid.
  assert (strncmp0 (dir_path (n :: ns)) [slash] 1 = true) as -> by (rewrite Hpath; done).
  assert (strlen (dir_path (n :: ns)) <> 1) as Hl1.
  { unfold strlen, zlen. rewrite Hpath, length_app. simpl. lia. }
  assert (strncpy (dir_path (n :: ns)) (S (length n)) = abs_path [n]) as Hfirst.
  { rewrite Hpath. unfold strncpy. rewrite take_app_length'; [done|]. done. }
  change ([n] ++ ns) with (n :: ns) in Hlast. clear Hpath. revert Hmid Hlast Hl1 Hfirst.
  generalize (dir_path (n :: ns)). intros path Hmid Hlast Hl1 Hfirst.
  cbn [negb]. rewrite (proj2 (Z.eqb_neq (strlen path) 1)) by done.
  simpl. rewrite drop_0, Hmid, Hfirst, last_cons, Hlast. cbn [default from_option id].
  by rewrite (proj2 (strncmp0_full path path)).
Qed.

Definition parent_spelling (ns : list (list Z)) : list Z :=
  match ns with
  | [] => [slash]
  | [_] => abs_path ns
  | _ => dir_path ns
  end.

Lemma parent_entry_spelling ns n tree :
  Forall name_ok (ns ++ [n]) ->
  split_path (abs_path (ns ++ [n])) = Some tree ->
  parent_entry tree (abs_path (ns ++ [n])) = Some (parent_spelling ns).
Proof.
  intros Hall Ht. destruct ns as [|m ns].
  - apply Forall_cons in Hall as [[Hn Hsl] _].
    assert (Forall name_ok [n]) as Hn1 by by repeat constructor.
    simpl app in Ht. rewrite split_path_single in Ht by done. injection Ht as <-.
    change [[slash]; abs_path [n]] with ([[slash]] ++ [abs_path [n]]).
    simpl app. apply (parent_entry_last [[slash]]); [|done].
    intros e ->%list_elem_of_singleton. destruct n; simpl; [done|lia].
  - change ((m :: ns) ++ [n]) with (m :: (ns ++ [n])) in *.
    assert (ns ++ [n] <> []) as Hne by by destruct ns.
    rewrite split_path_deep in Ht by done. injection Ht as <-.
    change ([slash] :: abs_path [m] :: ancestors [m] (ns ++ [n]) ++ ?p)
      with (([slash] :: abs_path [m] :: ancestors [m] (ns ++ [n])) ++ p).
    rewrite parent_entry_last; [|..].
    + destruct ns as [|m' ns]; [done|].
      rewrite !last_cons, ancestors_last by done. done.
    + intros e. apply Forall_cons in Hall as [[Hm Hms] Hns].
      assert (length (abs_path (m :: ns ++ [n])) =
              length (abs_path [m]) + S (length (join slash (ns ++ [n]))))%nat as ->.
      { change (m :: ns ++ [n]) with ([m] ++ (ns ++ [n])). unfold abs_path.
        rewrite join_app by done. simpl. rewrite length_app. done. }
      rewrite !elem_of_cons. intros [->|[->|He]]; [simpl; lia|lia|].
      apply ancestors_short in He; [|done..]. simpl app in He.
      change (m :: ns ++ [n]) with ([m] ++ (ns ++ [n])) in He. unfold abs_path in He.
      rewrite join_app in He by done. simpl in He. rewrite length_app in He. simpl in *. lia.
    + done.
Qed.

(** [string_split] on a path yields its components. *)
Lemma string_split_abs_path ns :
  Forall name_ok ns -> string_split (abs_path ns) [slash] = ns.
Proof. apply string_split_lead_join. Qed.

Lemma file_name_abs_path ns n :
  Forall name_ok (ns ++ [n]) ->
  active_file_get_file_name_of (abs_path (ns ++ [n])) = Some n.
Proof.
  intros H. unfold active_file_get_file_name_of.
  rewrite (proj2 (Z.eqb_neq (strlen (abs_path (ns ++ [n]))) 1)).
  - rewrite string_split_abs_path by done. apply last_snoc.
  - assert (0 < length (join slash (ns ++ [n])))%nat.
    { apply join_nonempty; [done|]. by destruct ns. }
    unfold strlen, zlen. simpl. lia.
Qed.

(** ** The parent computed by the client *)

Lemma strrchr_none c s : c ∉ s -> strrchr c s = None.
Proof.
  induction s as [|x s IH]; [done|]. intros H. simpl. rewrite IH by set_solver.
  rewrite (proj2 (Z.eqb_neq x c)); [done|set_solver].
Qed.

Lemma strrchr_last c a b : c ∉ b -> strrchr c (a ++ c :: b) = Some (c :: b).
Proof.
  intros H. induction a as [|x a IH]; simpl.
  - by rewrite strrchr_none, Z.eqb_refl.
  - by rewrite IH.
Qed.

Lemma get_previus_path_abs ns n :
  Forall name_ok (ns ++ [n]) ->
  get_previus_path (abs_path (ns ++ [n])) = Some (abs_path ns).
Proof.
  intros H. apply Forall_app in H as [Hns [[Hn Hs] _]%Forall_cons].
  unfold get_previus_path. destruct ns as [|m ns].
  - simpl app. change (abs_path [n]) with ([] ++ slash :: n).
    rewrite strrchr_last by done. simpl. by rewrite Nat.sub_diag.
  - assert (abs_path ((m :: ns) ++ [n]) = abs_path (m :: ns) ++ slash :: n) as ->.
    { unfold abs_path. by rewrite join_snoc. }
    rewrite strrchr_last by done. cbn [mbind option_bind]. cbv zeta.
    rewrite length_app. replace (length (abs_path (m :: ns)) + length (slash :: n)
      - length (slash :: n))%nat with (length (abs_path (m :: ns))) by lia.
    rewrite (proj2 (Nat.eqb_neq (length (abs_path (m :: ns))) 0)) by done.
    by rewrite take_app_length.
Qed.

(** ** Keys *)

Lemma le_bytes32_inj a b :
  0 <= a < 2 ^ 32 -> 0 <= b < 2 ^ 32 -> le_bytes32 a = le_bytes32 b -> a = b.
Proof.
  intros Ha Hb [= H0 H1 H2 H3].
  assert (forall z, 0 <= z < 2 ^ 32 ->
    z = z mod 256 + 256 * ((z / 256) mod 256) + 256 ^ 2 * ((z / 256 ^ 2) mod 256)
        + 256 ^ 3 * ((z / 256 ^ 3) mod 256)) as E.
  { intros z Hz.
    assert (z / 256 ^ 2 = z / 256 / 256) as E2 by (rewrite Z.div_div by lia; done).
    assert (z / 256 ^ 3 = z / 256 / 256 / 256) as E3 by (rewrite !Z.div_div by lia; done).
    rewrite E2, E3. clear E2 E3. Z.to_euclidean_division_equations. lia. }
  rewrite (E a Ha), (E b Hb), H0, H1, H2, H3. done.
Qed.

Lemma generate_key_length path b : zlen (generate_key path b) = zlen path + 4.
Proof. unfold generate_key. rewrite zlen_app. done. Qed.

Lemma generate_key_injective p1 p2 b1 b2 :
  0 <= b1 < 2 ^ 32 -> 0 <= b2 < 2 ^ 32 ->
  generate_key p1 b1 = generate_key p2 b2 -> p1 = p2 /\ b1 = b2.
Proof.
  intros H1 H2 H. apply app_inj_2 in H as [-> H]; [|done].
  split; [done|]. by apply le_bytes32_inj.
Qed.
