(* ===== verification/Rfs.v ===== *)
(** * Rfs: the state of the server and the table of files in use

    Models [s_Mapped_File_t] and the active-file functions, the counters and
    the read-write locks of [rfs/source_RFS/server_threading.c].  One worker
    thread runs a task as a computation in [M rfs].  The state holds the
    image, the thread's [errno], the table of files in use with their locks,
    the two counters and the connection to the cache.

    libmemcached is not part of the repository: the cache is an instance of
    the class [Memcached], with the behaviour its documentation promises for
    a server that answers as the class [MemcachedLaws]. *)

From S2P Require Import Prelude Memory CString Paths.

(** ** The cache client *)

Class Memcached (C : Type) := {
  memcached_get : list Z -> C -> option (list Z) * C;
  memcached_set : list Z -> list Z -> C -> C;
  memcached_delete : list Z -> C -> C
}.

Definition cached {C} `{Memcached C} (c : C) (k : list Z) : option (list Z) :=
  fst (memcached_get k c).

(** What a value stored can later be: itself, or gone (evicted). *)
Definition kept {V} (new old : option V) : Prop := new = old \/ new = None.

Class MemcachedLaws (C : Type) `{Memcached C} := {
  cached_get : forall c k k', kept (cached (snd (memcached_get k c)) k') (cached c k');
  cached_set_same : forall c k v, kept (cached (memcached_set k v c) k) (Some v);
  cached_set_other : forall c k k' v, k <> k' -> kept (cached (memcached_set k v c) k') (cached c k');
  cached_delete_same : forall c k, cached (memcached_delete k c) k = None;
  cached_delete_other : forall c k k', k <> k' -> kept (cached (memcached_delete k c) k') (cached c k')
}.

(** A cache that never evicts. *)
#[export] Instance gmap_memcached : Memcached (gmap (list Z) (list Z)) := {
  memcached_get k c := (c !! k, c);
  memcached_set k v c := <[k := v]> c;
  memcached_delete k c := delete k c
}.

#[export] Instance gmap_memcached_laws : MemcachedLaws (gmap (list Z) (list Z)).
Proof.
  split; unfold cached, kept; simpl.
  - by left.
  - intros c k v. left. apply lookup_insert_eq.
  - intros c k k' v H. left. by apply lookup_insert_ne.
  - intros c k. apply lookup_delete_eq.
  - intros c k k' H. left. by apply lookup_delete_ne.
Qed.

(** ** State *)

(** pthread_rwlock_t: the holds on the lock *)
Record rwlock_t := { readers : nat; writer : bool }.

(** [af_id] stands for the address of the structure. *)
Record active_file_t := {
  af_id : nat;
  path : list Z;
  is_working : Z;
  rwlock : rwlock_t
}.

#[export] Instance rwlock_eq_dec : EqDecision rwlock_t.
Proof. solve_decision. Defined.
#[export] Instance active_file_eq_dec : EqDecision active_file_t.
Proof. solve_decision. Defined.

Record rfs (C : Type) := {
  file : mem;
  errno : Z;
  active_file_list : list active_file_t;
  next_id : nat;
  fs_sleep : Z;
  writes_to_sync : Z;
  memc : C
}.
Arguments file {C}. Arguments errno {C}. Arguments active_file_list {C}.
Arguments next_id {C}. Arguments fs_sleep {C}. Arguments writes_to_sync {C}. Arguments memc {C}.

(** Values of <errno.h> on Linux. *)
Definition EPERM : Z := 1.
Definition ENOENT : Z := 2.
Definition EEXIST : Z := 17.
Definition ENOTDIR : Z := 20.
Definition ENOSPC : Z := 28.
Definition ENAMETOOLONG : Z := 36.
Definition ENOTEMPTY : Z := 39.
Definition ECANCELED : Z := 125.

Section State.
Context {C : Type}.
Abbreviation R := (rfs C).

Definition with_file (m : mem) (s : R) : R :=
  {| file := m; errno := errno s; active_file_list := active_file_list s;
     next_id := next_id s; fs_sleep := fs_sleep s;
     writes_to_sync := writes_to_sync s; memc := memc s |}.
Definition with_errno (e : Z) (s : R) : R :=
  {| file := file s; errno := e; active_file_list := active_file_list s;
     next_id := next_id s; fs_sleep := fs_sleep s;
     writes_to_sync := writes_to_sync s; memc := memc s |}.
Definition with_files (l : list active_file_t) (n : nat) (s : R) : R :=
  {| file := file s; errno := errno s; active_file_list := l;
     next_id := n; fs_sleep := fs_sleep s;
     writes_to_sync := writes_to_sync s; memc := memc s |}.
Definition with_counter (n : Z) (s : R) : R :=
  {| file := file s; errno := errno s; active_file_list := active_file_list s;
     next_id := next_id s; fs_sleep := fs_sleep s;
     writes_to_sync := n; memc := memc s |}.
Definition with_memc (c : C) (s : R) : R :=
  {| file := file s; errno := errno s; active_file_list := active_file_list s;
     next_id := next_id s; fs_sleep := fs_sleep s;
     writes_to_sync := writes_to_sync s; memc := c |}.

Definition get_file : M R mem := gets file.
Definition put_file (m : mem) : M R unit := modify (with_file m).
Definition update_file (f : mem -> mem) : M R unit := modify (fun s => with_file (f (file s)) s).
Definition set_errno (e : Z) : M R unit := modify (with_errno e).
Definition get_errno : M R Z := gets errno.
Definition get_files : M R (list active_file_t) := gets active_file_list.
Definition put_files (l : list active_file_t) : M R unit :=
  modify (fun s => with_files l (next_id s) s).

(** update_counter(s_mapped_file->writes_to_sync) *)
Definition update_counter : M R unit :=
  modify (fun s => with_counter (u64 (writes_to_sync s + 1)) s).

(** ** The files in use *)

Definition unlocked : rwlock_t := {| readers := 0; writer := false |}.

Definition active_file_create (id : nat) (p : list Z) : active_file_t :=
  {| af_id := id; path := p; is_working := 1; rwlock := unlocked |}.

Definition set_working (n : Z) (a : active_file_t) : active_file_t :=
  {| af_id := af_id a; path := path a; is_working := n; rwlock := rwlock a |}.
Definition set_lock (l : rwlock_t) (a : active_file_t) : active_file_t :=
  {| af_id := af_id a; path := path a; is_working := is_working a; rwlock := l |}.

Definition find_id (id : nat) (l : list active_file_t) : option active_file_t :=
  snd <$> list_find (fun a => af_id a = id) l.

Definition update_id (id : nat) (f : active_file_t -> active_file_t)
  : list active_file_t -> list active_file_t :=
  fmap (fun a => if (af_id a =? id)%nat then f a else a).

(** The structure a pointer refers to; freed structures are not in the
    list any more. *)
Definition the_file (id : nat) : M R active_file_t :=
  l ← get_files;
  match find_id id l with Some a => mret a | None => fail OutOfBounds end.

Definition with_lock (id : nat) (f : rwlock_t -> res rwlock_t) : M R unit :=
  a ← the_file id;
  l ← get_files;
  match f (rwlock a) with
  | Ok k => put_files (update_id id (set_lock k) l)
  | Fail e => fail e
  end.

(** RDLOCK, WRLOCK, UNLOCK.  A lock the thread would have to wait for is a
    [Deadlock]: no other thread runs in this model. *)
Definition RDLOCK (id : nat) : M R unit :=
  with_lock id (fun k =>
    if writer k then Fail Deadlock
    else Ok {| readers := S (readers k); writer := false |}).

Definition WRLOCK (id : nat) : M R unit :=
  with_lock id (fun k =>
    if writer k || negb (readers k =? 0)%nat then Fail Deadlock
    else Ok {| readers := 0; writer := true |}).

Definition UNLOCK (id : nat) : M R unit :=
  with_lock id (fun k =>
    if writer k then Ok unlocked
    else match readers k with
         | O => Fail BadUnlock
         | S n => Ok {| readers := n; writer := false |}
         end).

(** strlen(path) == strlen(a->path) && strncmp(path, a->path, strlen(path)) == 0 *)
Definition cmp_str (p : list Z) (a : active_file_t) : bool :=
  (strlen p =? strlen (path a)) && strncmp0 p (path a) (length p).

Definition active_file_list_find (p : list Z) : M R nat :=
  l ← get_files;
  match list_find (fun a => cmp_str p a = true) l with
  | None =>
      s ← get;
      let id := next_id s in
      put (with_files (l ++ [active_file_create id p]) (S id) s);;
      mret id
  | Some (_, found) =>
      WRLOCK (af_id found);;
      l ← get_files;
      put_files (update_id (af_id found)
                   (fun a => set_working (u32 (is_working a + 1)) a) l);;
      UNLOCK (af_id found);;
      mret (af_id found)
  end.

(** Removes the first element with the same path; the element destroyed is
    that one.  ([element_destroyer(NULL)] when there is none.) *)
Definition active_file_list_remove_and_destroy_element (a_file : active_file_t) : M R unit :=
  l ← get_files;
  let cmp a := strncmp0 (path a_file) (path a) (S (length (path a_file))) in
  match list_find (fun a => cmp a = true) l with
  | Some (i, _) => put_files (take i l ++ drop (S i) l)
  | None => fail NullDeref
  end.

Definition active_file_finished_using (id : nat) : M R unit :=
  WRLOCK id;;
  l ← get_files;
  put_files (update_id id (fun a => set_working (u32 (is_working a - 1)) a) l);;
  UNLOCK id;;
  a ← the_file id;
  if is_working a =? 0 then active_file_list_remove_and_destroy_element a
  else mret tt.

Definition active_file_get_file_name (id : nat) : M R (list Z) :=
  a ← the_file id;
  match active_file_get_file_name_of (path a) with
  | Some n => mret n
  | None => fail OutOfBounds
  end.
End State.
