(* ===== verification/ActiveFiles.v ===== *)
(** * ActiveFiles: the table of files in use is a reference count

    Every operation of the server brackets its work with
    [active_file_list_find] and [active_file_finished_using].  Both run under
    the mutex of the table, so the calls of all the threads form one
    sequence: the transition system below, whose states carry the references
    handed out and not returned yet.  The table of a reachable state counts
    them exactly. *)

From S2P Require Import Prelude Memory CString Paths Rfs.

Section ActiveFiles.
Context {C : Type}.
Abbreviation R := (rfs C).
Implicit Types (s : R) (l : list active_file_t) (refs : list nat).

Definition count_refs (id : nat) refs : Z := Z.of_nat (length (filter (eq id) refs)).

(** Every file in use has one entry that counts its references; nothing else
    is in the table.  [lk] gives the lock of each entry. *)
Record table_inv (s : R) (refs : list nat) (lk : nat -> rwlock_t) : Prop := {
  paths_unique : NoDup (path <$> active_file_list s);
  ids_unique : NoDup (af_id <$> active_file_list s);
  ids_fresh : Forall (fun a => (af_id a < next_id s)%nat) (active_file_list s);
  locks : Forall (fun a => rwlock a = lk (af_id a)) (active_file_list s);
  locks_fresh : forall id, (next_id s <= id)%nat -> lk id = unlocked;
  counts : Forall (fun a => is_working a = count_refs (af_id a) refs /\ 0 < is_working a)
                  (active_file_list s);
  refs_known : Forall (fun id => id ∈ af_id <$> active_file_list s) refs
}.

(** Between the operations, no lock is held. *)
Definition table_ok (s : R) (refs : list nat) : Prop := table_inv s refs (fun _ => unlocked).

(** The path of an entry. *)
Definition path_at (s : R) (id : nat) : option (list Z) := path <$> find_id id (active_file_list s).

(** Only the table has changed. *)
Definition table_moved (s s' : R) : Prop := s' = with_files (active_file_list s') (next_id s') s.

(** ** Lemmas on the table *)

Lemma cmp_str_spec p a : cmp_str p a = true <-> path a = p.
Proof.
  unfold cmp_str. rewrite andb_true_iff, Z.eqb_eq, strncmp0_prefix. split.
  - intros [Hl [k Hk]]. unfold strlen, zlen in Hl. rewrite Hk, length_app in Hl.
    destruct k; [by rewrite Hk, app_nil_r|simpl in Hl; lia].
  - intros ->. done.
Qed.

Lemma find_id_elem l a :
  NoDup (af_id <$> l) -> a ∈ l -> find_id (af_id a) l = Some a.
Proof.
  intros Hnd Ha. unfold find_id.
  apply list_elem_of_lookup in Ha as [i Hi].
  rewrite (proj2 (list_find_Some _ l i a)); [done|]. split_and!; [done|done|].
  intros j b Hj Hlt Hb.
  assert (j = i); [|lia]. apply (NoDup_lookup _ j i (af_id a) Hnd).
  - by rewrite list_lookup_fmap, Hj; simpl; f_equal.
  - by rewrite list_lookup_fmap, Hi.
Qed.

Lemma find_id_fmap id g l :
  (forall a, af_id (g a) = af_id a) -> find_id id (g <$> l) = g <$> find_id id l.
Proof.
  intros Hg. induction l as [|a l IH]; [done|]. unfold find_id in *. rewrite fmap_cons. cbn [list_find].
  destruct (decide (af_id a = id)), (decide (af_id (g a) = id)); try (done || congruence).
  destruct (list_find _ l) as [[]|], (list_find _ (g <$> l)) as [[]|]; simpl in *; congruence.
Qed.

Lemma find_id_app_1 id l k a : find_id id l = Some a -> find_id id (l ++ k) = Some a.
Proof.
  unfold find_id. intros ([i x] & Hx & ->)%fmap_Some. by rewrite (list_find_app_l _ _ _ _ _ Hx).
Qed.

Lemma find_id_known id l : id ∈ af_id <$> l -> exists a, find_id id l = Some a.
Proof.
  intros (a & -> & Ha)%list_elem_of_fmap. unfold find_id.
  destruct (list_find_elem_of (fun b => af_id b = af_id a) l a Ha eq_refl) as [[i b] E].
  rewrite E. by exists b.
Qed.

Lemma find_id_Some id l a : find_id id l = Some a -> a ∈ l /\ af_id a = id.
Proof.
  unfold find_id. intros ([i b] & Hx & ->)%fmap_Some. apply list_find_Some in Hx as (Hi & Hb & _).
  split; [by eapply list_elem_of_lookup_2|done].
Qed.

Lemma find_id_middle id l1 a l2 :
  af_id a <> id -> find_id id (l1 ++ l2) = find_id id (l1 ++ a :: l2).
Proof.
  intros Ha. induction l1 as [|b l1 IH]; unfold find_id in *; simpl.
  - rewrite decide_False by done. by destruct (list_find _ l2) as [[]|].
  - destruct (decide (af_id b = id)); [done|].
    destruct (list_find _ (l1 ++ l2)) as [[]|], (list_find _ (l1 ++ a :: l2)) as [[]|];
      simpl in *; congruence.
Qed.

Lemma path_at_elem s a :
  NoDup (af_id <$> active_file_list s) -> a ∈ active_file_list s ->
  path_at s (af_id a) = Some (path a).
Proof. intros Hn Ha. unfold path_at. by rewrite find_id_elem. Qed.

Lemma path_at_update s id f n j :
  (forall a, af_id (f a) = af_id a) -> (forall a, path (f a) = path a) ->
  path_at (with_files (update_id id f (active_file_list s)) n s) j = path_at s j.
Proof.
  intros Hf Hp. unfold path_at. cbn [with_files active_file_list]. unfold update_id.
  rewrite find_id_fmap by (intros a; case_match; [apply Hf|done]).
  destruct (find_id j (active_file_list s)) as [a|]; [|done]. simpl. f_equal.
  case_match; [apply Hp|done].
Qed.

Lemma update_id_compose id f g l :
  (forall a, af_id (g a) = af_id a) ->
  update_id id f (update_id id g l) = update_id id (fun a => f (g a)) l.
Proof.
  intros Hg. unfold update_id. rewrite <- list_fmap_compose.
  apply list_fmap_ext. intros _ a _. simpl.
  destruct (af_id a =? id)%nat eqn:E; [by rewrite Hg, E|by rewrite E].
Qed.

Lemma update_id_ids id f l :
  (forall a, af_id (f a) = af_id a) -> af_id <$> update_id id f l = af_id <$> l.
Proof.
  intros Hf. unfold update_id. rewrite <- list_fmap_compose.
  apply list_fmap_ext. intros _ a _. simpl. case_match; [apply Hf|done].
Qed.

Lemma update_id_paths id f l :
  (forall a, path (f a) = path a) -> path <$> update_id id f l = path <$> l.
Proof.
  intros Hf. unfold update_id. rewrite <- list_fmap_compose.
  apply list_fmap_ext. intros _ a _. simpl. case_match; [apply Hf|done].
Qed.

Lemma elem_update_id id f l b :
  b ∈ update_id id f l <->
  exists a, a ∈ l /\ b = if (af_id a =? id)%nat then f a else a.
Proof.
  unfold update_id. rewrite list_elem_of_fmap. split; intros (a & H1 & H2); eauto.
Qed.

Lemma elem_update_id_same id f l a :
  a ∈ l -> af_id a = id -> f a ∈ update_id id f l.
Proof.
  intros Ha Hid. apply elem_update_id. exists a. split; [done|].
  by rewrite (proj2 (Nat.eqb_eq _ _) Hid).
Qed.

Lemma with_lock_run s id k f a :
  NoDup (af_id <$> active_file_list s) ->
  a ∈ active_file_list s -> af_id a = id -> f (rwlock a) = Ok k ->
  with_lock id f s = Ok (tt, with_files (update_id id (set_lock k) (active_file_list s))
                                        (next_id s) s).
Proof.
  intros Hnd Ha Hid Hf. unfold with_lock, the_file.
  cbv [mbind M_bind mret M_ret get_files gets].
  rewrite <- Hid, find_id_elem by done. rewrite Hf, Hid. done.
Qed.

Lemma with_lock_fails s id f a e :
  NoDup (af_id <$> active_file_list s) ->
  a ∈ active_file_list s -> af_id a = id -> f (rwlock a) = Fail e -> with_lock id f s = Fail e.
Proof.
  intros Hnd Ha Hid Hf. unfold with_lock, the_file.
  cbv [mbind M_bind mret M_ret get_files gets].
  rewrite <- Hid, find_id_elem by done. by rewrite Hf.
Qed.

(** Lock, change the count, unlock: the count changes. *)
Lemma bump_run s id n a :
  NoDup (af_id <$> active_file_list s) ->
  a ∈ active_file_list s -> af_id a = id -> rwlock a = unlocked ->
  (WRLOCK id;;
   l ← get_files;
   put_files (update_id id (fun a => set_working (n (is_working a)) a) l);;
   UNLOCK id) s =
  Ok (tt, with_files (update_id id (fun b => set_lock unlocked (set_working (n (is_working b)) b))
                                (active_file_list s)) (next_id s) s).
Proof.
  intros Hnd Ha Hid Hlk.
  pose (wr := {| readers := 0; writer := true |}).
  rewrite (bind_ok _ _ _ tt (with_files (update_id id (set_lock wr) (active_file_list s)) (next_id s) s)).
  2: { eapply with_lock_run; [done|done|done|]. by rewrite Hlk. }
  cbv [mbind M_bind get_files gets put_files modify]. simpl.
  rewrite update_id_compose by done.
  unfold UNLOCK. erewrite with_lock_run with (a := set_working (n (is_working a)) (set_lock wr a)).
  - cbn [active_file_list with_files next_id]. rewrite update_id_compose by done. done.
  - simpl. by rewrite update_id_ids.
  - simpl. apply (elem_update_id_same id (fun b => set_working (n (is_working b)) (set_lock wr b))); done.
  - done.
  - done.
Qed.

(** ** The two operations *)

Lemma count_refs_cons id j refs :
  count_refs id (j :: refs) = (if decide (id = j) then 1 else 0) + count_refs id refs.
Proof.
  unfold count_refs. rewrite filter_cons. destruct (decide (id = j)); simpl; lia.
Qed.

Lemma count_refs_perm id refs refs' :
  refs ≡ₚ refs' -> count_refs id refs = count_refs id refs'.
Proof. intros H. unfold count_refs. by rewrite H. Qed.

Lemma count_refs_bound id refs : 0 <= count_refs id refs <= zlen refs.
Proof.
  unfold count_refs, zlen. pose proof (length_filter (eq id) refs). lia.
Qed.

Lemma count_refs_pos id refs : id ∈ refs -> 0 < count_refs id refs.
Proof.
  intros H. unfold count_refs. destruct (filter (eq id) refs) eqn:E; [|simpl; lia].
  assert (id ∈ filter (eq id) refs) as Hin by (by apply list_elem_of_filter).
  rewrite E in Hin. by apply not_elem_of_nil in Hin.
Qed.

Lemma count_refs_zero id refs : id ∉ refs -> count_refs id refs = 0.
Proof.
  intros H. unfold count_refs. destruct (filter (eq id) refs) as [|j k] eqn:E; [done|].
  assert (j ∈ filter (eq id) refs) as Hin by (rewrite E; set_solver).
  apply list_elem_of_filter in Hin as [<- Hin]. done.
Qed.

Lemma fresh_not_in l n id :
  Forall (fun a => (af_id a < n)%nat) l -> (n <= id)%nat -> id ∉ af_id <$> l.
Proof.
  rewrite Forall_forall. intros H Hle (a & -> & Ha)%list_elem_of_fmap.
  specialize (H a Ha). lia.
Qed.

Lemma find_new s p refs lk :
  table_inv s refs lk -> list_find (fun a => cmp_str p a = true) (active_file_list s) = None ->
  table_inv (with_files (active_file_list s ++ [active_file_create (next_id s) p])
                       (S (next_id s)) s) (next_id s :: refs) lk.
Proof.
  intros [Hp Hi Hf Hu Hl Hc Hr] Hnone. apply list_find_None in Hnone.
  assert (next_id s ∉ af_id <$> active_file_list s) as Hnew.
  { eapply fresh_not_in; [done|lia]. }
  split; cbn [with_files active_file_list next_id].
  - rewrite fmap_app. apply NoDup_app. split_and!; [done| |apply NoDup_singleton].
    intros q (a & -> & Ha)%list_elem_of_fmap Hq. simpl in Hq.
    apply list_elem_of_singleton in Hq.
    rewrite Forall_forall in Hnone. apply (Hnone a Ha). by apply cmp_str_spec.
  - rewrite fmap_app. apply NoDup_app. split_and!; [done| |apply NoDup_singleton].
    intros q Hq1 Hq2. simpl in Hq2. apply list_elem_of_singleton in Hq2. by subst.
  - apply Forall_app. split; [|repeat constructor; simpl; lia].
    eapply Forall_impl; [exact Hf|]. simpl. intros; lia.
  - apply Forall_app. split; [done|]. apply Forall_singleton. simpl. by rewrite Hl.
  - intros j Hj. apply Hl. lia.
  - apply Forall_app. split.
    + rewrite Forall_forall in Hc |- *. intros a Ha. rewrite count_refs_cons, decide_False.
      * apply (Hc a Ha).
      * intros E. apply Hnew. rewrite <- E. by apply list_elem_of_fmap_2.
    + apply Forall_singleton. split; [|simpl; lia]. simpl.
      rewrite count_refs_cons, decide_True, count_refs_zero; [done| |done].
      intros Hin. rewrite Forall_forall in Hr. by apply Hnew, Hr.
  - rewrite fmap_app. constructor; [set_solver|].
    rewrite Forall_forall in Hr |- *. intros j Hj. apply elem_of_app. left. by apply Hr.
Qed.

(** Changing the count of one entry by [d], with the references. *)
Lemma recount s refs refs' lk id d :
  table_inv s refs lk -> lk id = unlocked ->
  (forall j, count_refs j refs' = count_refs j refs + (if decide (j = id) then d else 0)) ->
  Forall (fun j => j ∈ refs) refs' -> zlen refs' < 2 ^ 32 ->
  (forall a, a ∈ active_file_list s -> af_id a = id -> 0 < is_working a + d) ->
  table_inv (with_files (update_id id (fun b => set_lock unlocked (set_working (u32 (is_working b + d)) b))
                                  (active_file_list s)) (next_id s) s) refs' lk.
Proof.
  intros [Hp Hi Hf Hu Hl Hc Hr] Hlid Hcnt Hsub Hlen Hpos.
  split; cbn [with_files active_file_list next_id].
  - by rewrite update_id_paths.
  - by rewrite update_id_ids.
  - apply Forall_forall. intros b (a & Ha & ->)%elem_update_id.
    rewrite Forall_forall in Hf. case_match; simpl; by apply Hf.
  - apply Forall_forall. intros b (a & Ha & ->)%elem_update_id.
    rewrite Forall_forall in Hu. destruct (af_id a =? id)%nat eqn:E; simpl; [|by apply Hu].
    apply Nat.eqb_eq in E. by rewrite E.
  - done.
  - apply Forall_forall. intros b (a & Ha & ->)%elem_update_id.
    rewrite Forall_forall in Hc. specialize (Hc a Ha) as [Hw Hgt].
    destruct (af_id a =? id)%nat eqn:E; simpl; rewrite Hcnt.
    + apply Nat.eqb_eq in E. rewrite decide_True by done.
      specialize (Hpos a Ha E). pose proof (count_refs_bound (af_id a) refs') as Hb.
      rewrite Hcnt, decide_True in Hb by done.
      rewrite u32_small by lia. lia.
    + apply Nat.eqb_neq in E. rewrite decide_False by done. lia.
  - rewrite update_id_ids by done. rewrite Forall_forall in Hsub, Hr |- *.
    intros j Hj. by apply Hr, Hsub.
Qed.

Lemma find_inv s refs lk p :
  table_inv s refs lk -> zlen refs < 2 ^ 32 - 1 ->
  (forall id, path_at s id = Some p -> lk id = unlocked) ->
  exists id s', active_file_list_find p s = Ok (id, s') /\ table_inv s' (id :: refs) lk /\
    path_at s' id = Some p /\ lk id = unlocked /\
    (forall j, j ∈ refs -> path_at s' j = path_at s j) /\ table_moved s s'.
Proof.
  intros Hok Hlen Hfree. unfold active_file_list_find.
  cbv [get_files gets]. rewrite (bind_ok _ _ s (active_file_list s) s) by done.
  pose proof Hok as [Hp Hi Hf Hu Hl Hc Hr].
  destruct (list_find _ (active_file_list s)) as [[i a]|] eqn:Ef.
  - apply list_find_Some in Ef as (Hla & Hpa & _). apply cmp_str_spec in Hpa.
    assert (a ∈ active_file_list s) as Ha by by eapply list_elem_of_lookup_2.
    assert (path_at s (af_id a) = Some p) as Hat by by rewrite path_at_elem, Hpa.
    pose proof (bump_run s (af_id a) (fun w => u32 (w + 1)) a Hi Ha eq_refl) as Hb.
    rewrite Forall_forall in Hu. rewrite (Hu a Ha) in Hb. specialize (Hb (Hfree _ Hat)).
    exists (af_id a). eexists. split_and!.
    + revert Hb. cbv [mbind M_bind get_files gets mret M_ret].
      destruct (WRLOCK (af_id a) s) as [[[] s1]|]; [|done].
      destruct (put_files _ s1) as [[[] s2]|]; [|done].
      destruct (UNLOCK (af_id a) s2) as [[[] s3]|]; [|done].
      intros [= ->]. done.
    + apply (recount s refs); [done|by apply Hfree| | |unfold zlen in *; simpl; lia|].
      * intros j. rewrite count_refs_cons. destruct (decide (j = af_id a)); lia.
      * constructor; [|apply Forall_forall; set_solver].
        rewrite Forall_forall in Hc. destruct (Hc a Ha) as [Hw Hgt]. rewrite Hw in Hgt.
        destruct (decide (af_id a ∈ refs)) as [|Hn]; [done|].
        rewrite count_refs_zero in Hgt by done. lia.
      * intros b Hb' _. rewrite Forall_forall in Hc. destruct (Hc b Hb'). lia.
    + by rewrite path_at_update.
    + by apply Hfree.
    + intros j _. by rewrite path_at_update.
    + done.
  - exists (next_id s). eexists. split_and!; [done|by apply find_new| |by apply Hl| |done].
    + pose proof (find_new s p refs lk Hok Ef) as [_ Hi' _ _ _ _ _].
      apply (path_at_elem _ (active_file_create (next_id s) p) Hi').
      cbn [with_files active_file_list]. apply elem_of_app. right. by apply list_elem_of_singleton.
    + intros j Hj. rewrite Forall_forall in Hr.
      destruct (find_id_known j _ (Hr j Hj)) as [a Ea].
      unfold path_at. cbn [with_files active_file_list].
      by rewrite Ea, (find_id_app_1 _ _ _ _ Ea).
Qed.

Lemma strncmp0_S a b : strncmp0 a b (S (length a)) = true <-> a = b.
Proof.
  revert b. induction a as [|x a IH]; intros [|y b]; try done.
  change (strncmp0 (x :: a) (y :: b) (S (length (x :: a))))
    with ((x =? y) && strncmp0 a b (S (length a)))%bool.
  rewrite andb_true_iff, Z.eqb_eq, IH. split; [by intros [-> ->]|by intros [= -> ->]].
Qed.

(** Removing the entry of [a] by its path removes it and nothing else. *)
Lemma remove_run s a :
  NoDup (path <$> active_file_list s) -> a ∈ active_file_list s ->
  exists l1 l2, active_file_list s = l1 ++ a :: l2 /\
    active_file_list_remove_and_destroy_element a s =
    Ok (tt, with_files (l1 ++ l2) (next_id s) s).
Proof.
  intros Hnd Ha. apply list_elem_of_lookup in Ha as [i Hi].
  exists (take i (active_file_list s)), (drop (S i) (active_file_list s)).
  split; [by rewrite take_drop_middle|].
  unfold active_file_list_remove_and_destroy_element.
  cbv [mbind M_bind get_files gets].
  rewrite (proj2 (list_find_Some _ _ i a)); [done|]. split_and!; [done| |].
  - by apply strncmp0_S.
  - intros j b Hb Hj Hc. apply strncmp0_S in Hc.
    assert (j = i); [|lia]. eapply (NoDup_lookup _ j i (path a)); [done| |].
    + by rewrite list_lookup_fmap, Hb, Hc.
    + by rewrite list_lookup_fmap, Hi.
Qed.

Lemma remove_ok s refs lk l1 a l2 :
  NoDup (path <$> l1 ++ a :: l2) -> NoDup (af_id <$> l1 ++ a :: l2) ->
  Forall (fun a => (af_id a < next_id s)%nat) (l1 ++ a :: l2) ->
  Forall (fun a => rwlock a = lk (af_id a)) (l1 ++ a :: l2) ->
  (forall id, (next_id s <= id)%nat -> lk id = unlocked) ->
  Forall (fun b => is_working b = count_refs (af_id b) refs /\
                   (b <> a -> 0 < is_working b)) (l1 ++ a :: l2) ->
  is_working a = 0 ->
  Forall (fun id => id ∈ af_id <$> l1 ++ a :: l2) refs ->
  table_inv (with_files (l1 ++ l2) (next_id s) s) refs lk.
Proof.
  intros Hp Hi Hf Hu Hl Hc Hz Hr.
  assert (forall b, b ∈ l1 ++ l2 -> b ∈ l1 ++ a :: l2) as Hin.
  { intros b. rewrite !elem_of_app, elem_of_cons. tauto. }
  rewrite fmap_app, fmap_cons in Hp. rewrite fmap_app, fmap_cons in Hi.
  apply NoDup_middle in Hp as [_ Hp], Hi as [Hna Hi].
  rewrite <- fmap_app in Hp. rewrite <- fmap_app in Hi. rewrite <- fmap_app in Hna.
  rewrite Forall_forall in Hf. rewrite Forall_forall in Hu.
  rewrite Forall_forall in Hc. rewrite Forall_forall in Hr.
  split; cbn [with_files active_file_list next_id]; try apply Forall_forall.
  - done.
  - done.
  - intros b Hb. by apply Hf, Hin.
  - intros b Hb. by apply Hu, Hin.
  - done.
  - intros b Hb. destruct (Hc b (Hin b Hb)) as [Hw Hgt]. split; [done|].
    apply Hgt. intros ->. by apply Hna, list_elem_of_fmap_2.
  - intros j Hj. pose proof (Hr j Hj) as (b & -> & Hb)%list_elem_of_fmap.
    destruct (decide (b = a)) as [->|Hne].
    + destruct (Hc a Hb) as [Hw _]. rewrite Hz in Hw.
      pose proof (count_refs_pos _ _ Hj). lia.
    + apply list_elem_of_fmap_2.
      apply elem_of_app in Hb. rewrite elem_of_cons in Hb. apply elem_of_app. tauto.
Qed.

Lemma finish_inv s refs refs' lk id :
  table_inv s refs lk -> refs ≡ₚ id :: refs' -> zlen refs < 2 ^ 32 -> lk id = unlocked ->
  exists s', active_file_finished_using id s = Ok (tt, s') /\ table_inv s' refs' lk /\
    (id ∉ refs' -> id ∉ af_id <$> active_file_list s') /\
    (forall j, j ∈ refs' -> path_at s' j = path_at s j) /\ table_moved s s'.
Proof.
  intros Hok Hperm Hlen Hlid. pose proof Hok as [Hp Hi Hf Hu Hlf Hc Hr].
  assert (id ∈ refs) as Hid by (rewrite Hperm; by left).
  rewrite Forall_forall in Hr. pose proof (Hr id Hid) as (a & Hida & Ha)%list_elem_of_fmap.
  rewrite Forall_forall in Hu. rewrite Forall_forall in Hc.
  pose proof (Hc a Ha) as [Hw Hgt].
  assert (count_refs id refs = 1 + count_refs id refs') as Hcount.
  { by rewrite (count_refs_perm id _ _ Hperm), count_refs_cons, decide_True. }
  assert (zlen refs = 1 + zlen refs') as Hlen'.
  { unfold zlen. rewrite Hperm. simpl. lia. }
  set (f := fun b => set_lock unlocked (set_working (u32 (is_working b + -1)) b)).
  set (s1 := with_files (update_id id f (active_file_list s)) (next_id s) s).
  set (a1 := f a).
  assert (a1 ∈ active_file_list s1) as Ha1 by by apply elem_update_id_same.
  assert (NoDup (af_id <$> active_file_list s1)) as Hi1.
  { cbn [s1 with_files active_file_list]. by rewrite update_id_ids. }
  assert (active_file_finished_using id s =
          (if is_working a1 =? 0 then active_file_list_remove_and_destroy_element a1
           else mret tt) s1) as ->.
  { pose proof (bump_run s id (fun w => u32 (w - 1)) a Hi Ha (eq_sym Hida)) as Hb.
    rewrite (Hu a Ha), <- Hida in Hb. specialize (Hb Hlid).
    unfold active_file_finished_using. revert Hb.
    cbv [mbind M_bind get_files gets].
    destruct (WRLOCK id s) as [[[] s2]|]; [|done].
    destruct (put_files _ s2) as [[[] s3]|]; [|done].
    destruct (UNLOCK id s3) as [[[] s4]|]; [|done].
    intros [= ->]. fold s1. unfold the_file. cbv [mbind M_bind get_files gets].
    change (update_id id _ (active_file_list s)) with (active_file_list s1).
    change (with_files (active_file_list s1) (next_id s) s) with s1.
    assert (id = af_id a1) as -> by done.
    by rewrite (find_id_elem _ a1 Hi1 Ha1). }
  assert (is_working a1 = count_refs id refs') as Hw1.
  { subst a1. simpl. rewrite Hw, <- Hida, Hcount.
    pose proof (count_refs_bound id refs'). rewrite u32_small by lia. lia. }
  assert (forall j, count_refs j refs' =
           count_refs j refs + (if decide (j = id) then -1 else 0)) as Hrec.
  { intros j. rewrite (count_refs_perm j _ _ Hperm), count_refs_cons.
    destruct (decide (j = id)); lia. }
  destruct (is_working a1 =? 0) eqn:Ez; zify_bool.
  - destruct (remove_run s1 a1) as (l1 & l2 & Hl & ->).
    { cbn [s1 with_files active_file_list]. by rewrite update_id_paths. }
    { done. }
    exists (with_files (l1 ++ l2) (next_id s) s). split_and!; [done| |..].
    + assert (forall b, b ∈ l1 ++ a1 :: l2 -> exists c, c ∈ active_file_list s /\
                b = if (af_id c =? id)%nat then f c else c) as Hel.
      { intros b Hb. rewrite <- Hl in Hb. by apply elem_update_id in Hb. }
      apply (remove_ok s refs' lk l1 a1 l2); [..|done|].
      * rewrite <- Hl. cbn [s1 with_files active_file_list]. by rewrite update_id_paths.
      * by rewrite <- Hl.
      * apply Forall_forall. intros b (c & Hc' & ->)%Hel.
        rewrite Forall_forall in Hf. case_match; simpl; by apply Hf.
      * apply Forall_forall. intros b (c & Hc' & ->)%Hel.
        destruct (af_id c =? id)%nat eqn:E; [|by apply Hu]. apply Nat.eqb_eq in E. simpl. by rewrite E.
      * done.
      * apply Forall_forall. intros b (c & Hc' & ->)%Hel.
        pose proof (Hc c Hc') as [Hwc Hgc]. rewrite Hrec.
        destruct (af_id c =? id)%nat eqn:E.
        -- apply Nat.eqb_eq in E.
           assert (c = a) as ->.
           { pose proof (find_id_elem _ _ Hi Hc') as E1. rewrite E, Hida in E1.
             pose proof (find_id_elem _ _ Hi Ha) as E2. congruence. }
           split; [|done]. fold a1. rewrite decide_True by done.
           rewrite Hw1. simpl. rewrite <- Hida. lia.
        -- apply Nat.eqb_neq in E. rewrite decide_False by done. split; [lia|done].
      * apply Forall_forall. intros j Hj. rewrite <- Hl.
        cbn [s1 with_files active_file_list]. rewrite update_id_ids by done.
        apply Hr. rewrite Hperm. by right.
    + intros _. cbn [with_files active_file_list]. rewrite Hl in Hi1.
      rewrite fmap_app, fmap_cons in Hi1. apply NoDup_middle in Hi1 as [Hn _].
      by rewrite fmap_app, Hida.
    + intros j Hj. unfold path_at. cbn [with_files active_file_list].
      assert (af_id a1 <> j) as Hne.
      { intros <-. change (af_id a1) with (af_id a) in Hj. rewrite <- Hida in Hj.
        apply count_refs_pos in Hj. lia. }
      rewrite (find_id_middle _ _ a1 _ Hne), <- Hl.
      change (path <$> find_id j (active_file_list s1)) with (path_at s1 j).
      unfold s1. by rewrite path_at_update.
    + done.
  - exists s1. split_and!; [done| |..].
    + apply (recount s refs); [done|done|done| |lia|].
      * apply Forall_forall. intros j Hj. rewrite Hperm. by right.
      * intros b Hb Hb'. assert (b = a) as ->.
        { pose proof (find_id_elem _ _ Hi Hb) as E1. rewrite Hb', Hida in E1.
          pose proof (find_id_elem _ _ Hi Ha) as E2. congruence. }
        pose proof (count_refs_bound id refs'). rewrite Hw, <- Hida, Hcount. lia.
    + intros Hn. apply count_refs_zero in Hn. lia.
    + intros j _. unfold s1. by rewrite path_at_update.
    + done.
Qed.
End ActiveFiles.

(** ** The calls of all the threads as one sequence *)

Section Interleaving.
Context {C : Type}.
Abbreviation R := (rfs C).

(** A state and the references handed out. *)
Inductive table_step : R * list nat -> R * list nat -> Prop :=
  | step_find s refs p id s' :
      active_file_list_find p s = Ok (id, s') ->
      table_step (s, refs) (s', id :: refs)
  | step_finish s refs refs' id s' :
      refs ≡ₚ id :: refs' ->
      active_file_finished_using id s = Ok (tt, s') ->
      table_step (s, refs) (s', refs').

(** Reachable from an empty table with fewer than 2^32 - 1 references at
    any time (the counter has 32 bits). *)
Inductive reachable : R * list nat -> Prop :=
  | reach_init s : active_file_list s = [] -> reachable (s, [])
  | reach_step x y :
      reachable x -> zlen (snd x) < 2 ^ 32 - 1 -> table_step x y -> reachable y.

Lemma reachable_table_ok x : reachable x -> table_ok (fst x) (snd x).
Proof.
  induction 1 as [s Hs|x y Hx IH Hlen Hstep].
  - split; simpl; rewrite ?Hs; simpl; constructor.
  - destruct Hstep as [s refs p id s' Hrun|s refs refs' id s' Hperm Hrun]; simpl in *.
    + destruct (find_inv s refs _ p IH Hlen) as (id' & s'' & Hrun' & Hok & _); [done|].
      rewrite Hrun in Hrun'. by injection Hrun' as -> ->.
    + destruct (finish_inv s refs refs' _ id IH Hperm) as (s'' & Hrun' & Hok & _); [lia|done|].
      rewrite Hrun in Hrun'. by injection Hrun' as ->.
Qed.

(** C22: in every interleaving of the calls of the threads, the table has
    exactly one entry for each path in use, with the number of references
    to it, and no entry for a path nobody uses. *)
Theorem active_files_counted s refs :
  reachable (s, refs) ->
  NoDup (path <$> active_file_list s) /\
  (forall a, a ∈ active_file_list s ->
     is_working a = count_refs (af_id a) refs /\ 0 < is_working a /\ rwlock a = unlocked) /\
  (forall id, id ∈ refs -> id ∈ af_id <$> active_file_list s).
Proof.
  intros H. destruct (reachable_table_ok _ H) as [Hp _ _ Hu _ Hc Hr]. simpl in *.
  split_and!; [done| |by apply Forall_forall].
  rewrite Forall_forall in Hu. rewrite Forall_forall in Hc.
  intros a Ha. destruct (Hc a Ha). by split_and!; [..|apply Hu].
Qed.

(** neither call can fail in a reachable state: a path can always be
    taken into use, and a reference that was handed out can always be
    returned; the last one removes the entry. *)
Lemma active_files_progress s refs :
  reachable (s, refs) -> zlen refs < 2 ^ 32 - 1 ->
  (forall p, exists id s', active_file_list_find p s = Ok (id, s') /\
     exists a, a ∈ active_file_list s' /\ af_id a = id /\ path a = p) /\
  (forall id refs', refs ≡ₚ id :: refs' ->
     exists s', active_file_finished_using id s = Ok (tt, s') /\
       (id ∉ refs' -> id ∉ af_id <$> active_file_list s')).
Proof.
  intros H Hlen. pose proof (reachable_table_ok _ H) as Hok. simpl in Hok. split.
  - intros p. destruct (find_inv s refs _ p Hok Hlen) as (id & s' & Hrun & _ & Ha & _); [done|].
    unfold path_at in Ha. apply fmap_Some in Ha as (a & Ha & ->). apply find_id_Some in Ha as [Ha Hid].
    exists id, s'. split; [done|]. by exists a.
  - intros id refs' Hperm.
    destruct (finish_inv s refs refs' _ id Hok Hperm) as (s' & Hrun & _ & Hn & _); [lia|done|]. eauto.
Qed.
End Interleaving.

(** ** Witnesses *)

Definition empty_server : rfs unit :=
  {| file := fun _ => 0; errno := 0; active_file_list := []; next_id := 0;
     fs_sleep := 0; writes_to_sync := 0; memc := tt |}.

Definition server_after (p : list Z) (s : rfs unit) : rfs unit :=
  match active_file_list_find p s with Ok (_, s') => s' | Fail _ => s end.

Definition two_users : rfs unit :=
  server_after (str "/a") (server_after (str "/a") empty_server).

Lemma two_users_reachable : reachable (two_users, [0%nat; 0%nat]).
Proof.
  apply (reach_step (server_after (str "/a") empty_server, [0%nat])); [|done|].
  - apply (reach_step (empty_server, [])); [by apply reach_init|done|].
    by apply (step_find _ _ (str "/a")).
  - by apply (step_find _ _ (str "/a")).
Defined.

Lemma active_files_counted_witness :
  reachable (two_users, [0%nat; 0%nat]) /\ NoDup (path <$> active_file_list two_users) /\
  (is_working <$> active_file_list two_users) = [2].
Proof.
  split_and!; [apply two_users_reachable|
    exact (proj1 (active_files_counted two_users [0%nat; 0%nat] two_users_reachable))|
    vm_compute; reflexivity].
Defined.

Lemma active_files_progress_witness :
  zlen [0%nat; 0%nat] < 2 ^ 32 - 1 /\
  exists s', active_file_finished_using 0 two_users = Ok (tt, s').
Proof.
  split; [vm_compute; reflexivity|].
  destruct (proj2 (active_files_progress two_users [0%nat; 0%nat] two_users_reachable
                     ltac:(vm_compute; reflexivity)) 0%nat [0%nat] ltac:(reflexivity))
    as (s' & H & _).
  by exists s'.
Defined.
