(* ===== verification/Alloc.v ===== *)
(** * Alloc: allocation and release of blocks and inodes

    Models [Get_Free_Blocks_In_Group] and [Get_Free_Inodes_In_Group] of
    [ex2_block_types.c] and [Get_Free_Blocks], [Get_Free_Inodes],
    [setFreeBlockBitmap], [setFreeInodeBitmap] and [CleanBlocks] of
    [server_threading.c].  The mutexes of the groups and of the superblock
    make the updates atomic; a call is one step of the model.  malloc and
    calloc do not fail. *)

From S2P Require Import Prelude Memory Bitarray Ext2 CString Paths Rfs.

(** The word of the heap behind a calloc'ed array of blocks, which
    [CleanBlocks] reads. *)
Class Word_after_array := word_after_array : list Z -> Z.

(** memcpy(&blocks[i], l, ...) inside the array. *)
Definition array_write (blocks : list Z) (i : Z) (l : list Z) : list Z :=
  take (Z.to_nat i) blocks ++ l ++ drop (Z.to_nat i + length l) blocks.

Section Alloc.
Context {Super_constants : Superblock_constants} {WA : Word_after_array} {C : Type}.
Abbreviation R := (rfs C).

(** ** In one group *)

(** The loop over the bits of a bitmap: [limit] bits are left to look at
    from [var] on, [got] are the numbers found. *)
Fixpoint free_bits_loop (limit : nat) (var how_many : Z) (bitmap : t_bitarray)
    (number : Z -> Z) (m : mem) (got : list Z) : list Z * mem :=
  match limit with
  | O => (got, m)
  | S n =>
      if zlen got <? how_many then
        if negb (bitarray_test_bit m bitmap var)
        then free_bits_loop n (var + 1) how_many bitmap number
               (bitarray_set_bit m bitmap var) (got ++ [number var])
        else free_bits_loop n (var + 1) how_many bitmap number m got
      else (got, m)
  end.

(** The array of [how_many] words: the numbers found, then zeros. *)
Definition Get_Free_Blocks_In_Group (m : mem) (how_many group_desc : Z) : list Z * mem :=
  let bitmap_addr := u32 (BITMAP_BLOCK_ADDRESS m group_desc * BLOCK_SIZE) in
  let bitmap := bitarray_create bitmap_addr BLOCK_SIZE in
  let group_offset := u32 (Group_Number m group_desc * BLOCKS_PER_GROUP + 1) in
  let '(got, m) := free_bits_loop (Z.to_nat BLOCKS_PER_GROUP) 0 how_many bitmap
                     (fun var => u32 (var + group_offset)) m [] in
  (got ++ replicate (Z.to_nat (how_many - zlen got)) 0, m).

(** The loop runs while [var <= INODES_PER_GROUP]. *)
Definition Get_Free_Inodes_In_Group (m : mem) (how_many group_desc group_number : Z)
  : list Z * mem :=
  let bitmap_addr := u32 (BITMAP_INODE_ADDRESS m group_desc * BLOCK_SIZE) in
  let bitmap := bitarray_create bitmap_addr BLOCK_SIZE in
  let '(got, m) := free_bits_loop (S (Z.to_nat INODES_PER_GROUP)) 0 how_many bitmap
                     (fun var => u32 (group_number * INODES_PER_GROUP + var + 1)) m [] in
  (got ++ replicate (Z.to_nat (how_many - zlen got)) 0, m).

(** ** In the file system *)

(** for (count = 0; blocks[count+1] != 0; count++) memset(blocks[count]...):
    the last element is only cleared when the word behind the array is not
    zero, and then the loop goes on outside of the array. *)
Fixpoint CleanBlocks (blocks_indexes : list Z) (after : Z) (m : mem) : res mem :=
  match blocks_indexes with
  | b :: ((next :: _) as rest) =>
      if next =? 0 then Ok m
      else CleanBlocks rest after (memset m (block_addr b) 0 BLOCK_SIZE)
  | _ => if after =? 0 then Ok m else Fail OutOfBounds
  end.

Definition clean_blocks (blocks_indexes : list Z) : M R unit :=
  m ← get_file;
  match CleanBlocks blocks_indexes (word_after_array blocks_indexes) m with
  | Ok m => put_file m
  | Fail e => fail e
  end.

Definition group_descriptor (group_number : Z) : Z :=
  GDT_START + sizeof_Group_Descriptor * group_number.

(** One turn of the loop over the groups: the new [how_many], [mem_index]
    and array. *)
Definition Get_Free_Blocks_turn (group_number how_many mem_index : Z)
    (blocks_to_return : list Z) : M R (Z * Z * list Z) :=
  m ← get_file;
  let group_descriptor := group_descriptor group_number in
  let unallocated := UNALLOCATED_BLOCKS m group_descriptor in
  if unallocated =? 0 then mret (how_many, mem_index, blocks_to_return)
  else if how_many <=? unallocated then
    let m := set_UNALLOCATED_BLOCKS m group_descriptor (unallocated - how_many) in
    let '(free_blocks, m) := Get_Free_Blocks_In_Group m how_many group_descriptor in
    put_file m;;
    mret (0, mem_index, array_write blocks_to_return mem_index free_blocks)
  else
    let '(free_blocks, m) := Get_Free_Blocks_In_Group m unallocated group_descriptor in
    put_file (set_UNALLOCATED_BLOCKS m group_descriptor 0);;
    mret (how_many - unallocated, u32 (mem_index + unallocated),
          array_write blocks_to_return mem_index free_blocks).

(** [n] groups are left, from [group_number] on. *)
Fixpoint Get_Free_Blocks_loop (n : nat) (group_number how_many mem_index : Z)
    (blocks_to_return : list Z) : M R (list Z) :=
  match n with
  | O => mret blocks_to_return
  | S n =>
      if how_many >? 0 then
        r ← Get_Free_Blocks_turn group_number how_many mem_index blocks_to_return;
        let '(how_many, mem_index, blocks_to_return) := r in
        Get_Free_Blocks_loop n (group_number + 1) how_many mem_index blocks_to_return
      else mret blocks_to_return
  end.

(** [None] is the NULL result. *)
Definition Get_Free_Blocks (how_many : Z) : M R (option (list Z)) :=
  m ← get_file;
  let total := load32 m SuperBlock.TOTAL_UNALLOCATED_BLOCKS in
  if how_many >? total then set_errno ENOSPC;; mret None
  else
    put_file (store32 m SuperBlock.TOTAL_UNALLOCATED_BLOCKS (total - how_many));;
    blocks ← Get_Free_Blocks_loop (Z.to_nat TOTAL_GROUPS) 0 how_many 0
               (replicate (Z.to_nat how_many) 0);
    clean_blocks blocks;;
    mret (Some blocks).

(** The descriptor's counter is set to 0 before the group is searched, for
    [how_many] inodes, and before it is used as the number of bytes to copy. *)
Definition Get_Free_Inodes_turn (group_number how_many mem_index : Z)
    (inodes_to_return : list Z) : M R (Z * Z * list Z) :=
  m ← get_file;
  let group_descriptor := group_descriptor group_number in
  let unallocated := UNALLOCATED_INODES m group_descriptor in
  if how_many <=? unallocated then
    let m := set_UNALLOCATED_INODES m group_descriptor (unallocated - how_many) in
    let '(free_inodes, m) := Get_Free_Inodes_In_Group m how_many group_descriptor group_number in
    put_file m;;
    mret (0, mem_index, array_write inodes_to_return mem_index free_inodes)
  else if unallocated =? 0 then mret (how_many, mem_index, inodes_to_return)
  else
    let how_many := how_many - unallocated in
    let m := set_UNALLOCATED_INODES m group_descriptor 0 in
    let '(free_inodes, m) := Get_Free_Inodes_In_Group m how_many group_descriptor group_number in
    put_file m;;
    mret (how_many, u32 (mem_index + 0), inodes_to_return).

Fixpoint Get_Free_Inodes_loop (n : nat) (group_number how_many mem_index : Z)
    (inodes_to_return : list Z) : M R (list Z) :=
  match n with
  | O => mret inodes_to_return
  | S n =>
      if how_many >? 0 then
        r ← Get_Free_Inodes_turn group_number how_many mem_index inodes_to_return;
        let '(how_many, mem_index, inodes_to_return) := r in
        Get_Free_Inodes_loop n (group_number + 1) how_many mem_index inodes_to_return
      else mret inodes_to_return
  end.

Definition Get_Free_Inodes (how_many : Z) : M R (option (list Z)) :=
  m ← get_file;
  let total := load32 m SuperBlock.TOTAL_UNALLOCATED_INODES in
  if how_many >? total then set_errno ENOSPC;; mret None
  else
    put_file (store32 m SuperBlock.TOTAL_UNALLOCATED_INODES (total - how_many));;
    inodes ← Get_Free_Inodes_loop (Z.to_nat TOTAL_GROUPS) 0 how_many 0
               (replicate (Z.to_nat how_many) 0);
    mret (Some inodes).

(** ** Release *)

(** A group number outside of the table makes [Group_Descriptor_read] return
    NULL, which is dereferenced. *)
Definition setFreeBlockBitmap (block_number : Z) : M R unit :=
  m ← get_file;
  let group_number := u32 (block_number - 1) / BLOCKS_PER_GROUP in
  group_desc ← deref (Group_Descriptor_read group_number);
  let bitmap_addr := u32 (BITMAP_BLOCK_ADDRESS m group_desc * BLOCK_SIZE) in
  let local_index := u32 (block_number - 1) mod BLOCKS_PER_GROUP in
  let bitmap := bitarray_create bitmap_addr BLOCK_SIZE in
  let m := bitarray_clean_bit m bitmap local_index in
  let m := set_UNALLOCATED_BLOCKS m group_desc (UNALLOCATED_BLOCKS m group_desc + 1) in
  let m := store32 m SuperBlock.TOTAL_UNALLOCATED_BLOCKS
             (load32 m SuperBlock.TOTAL_UNALLOCATED_BLOCKS + 1) in
  put_file m.

Definition setFreeInodeBitmap (inode_number : Z) : M R unit :=
  m ← get_file;
  let group_number := Inode_locateGroup inode_number in
  group_desc ← deref (Group_Descriptor_read group_number);
  let bitmap_addr := u32 (BITMAP_INODE_ADDRESS m group_desc * BLOCK_SIZE) in
  let local_index := Inode_getLocalIndex inode_number in
  let bitmap := bitarray_create bitmap_addr BLOCK_SIZE in
  let m := bitarray_clean_bit m bitmap local_index in
  let m := set_UNALLOCATED_INODES m group_desc (UNALLOCATED_INODES m group_desc + 1) in
  let m := store32 m SuperBlock.TOTAL_UNALLOCATED_INODES
             (load32 m SuperBlock.TOTAL_UNALLOCATED_INODES + 1) in
  put_file m.
End Alloc.
