(* ===== verification/AllocFacts.v ===== *)
(** * AllocFacts: the allocator is a list of free blocks

    The abstract state of the block allocator is the list of the free blocks
    of the image, in order.  [Get_Free_Blocks] takes its first elements and
    [setFreeBlockBitmap] puts a block back; the counters of the group
    descriptors and of the superblock stay equal to the numbers of free
    blocks. *)

From S2P Require Import Prelude Memory Bitarray Ext2 Ext2Facts CString Paths Rfs Alloc.

(** ** Lists *)

Lemma filter_bool_ext {A} (P Q : A -> bool) (l : list A) :
  (forall x, x ∈ l -> P x = Q x) ->
  filter (fun x => P x = true) l = filter (fun x => Q x = true) l.
Proof.
  induction l as [|x l IH]; intros H; [done|].
  rewrite !filter_cons, IH by set_solver. pose proof (H x ltac:(set_solver)) as E.
  destruct (decide (P x = true)), (decide (Q x = true)); congruence.
Qed.

Lemma filter_minus_take {A} `{!EqDecision A} (P : A -> bool) (k : nat) (l : list A) (Q : A -> bool) :
  NoDup l ->
  (forall x, x ∈ l -> Q x = (P x && negb (bool_decide (x ∈ take k (filter (fun x => P x = true) l))))%bool) ->
  filter (fun x => Q x = true) l = drop k (filter (fun x => P x = true) l).
Proof.
  revert k. induction l as [|x l IH]; intros k Hnd HQ; [by destruct k|].
  apply NoDup_cons in Hnd as [Hx Hnd]. pose proof (HQ x ltac:(set_solver)) as HQx.
  assert (forall k', (forall y, y ∈ l -> Q y = (P y && negb (bool_decide (y ∈ take k' (filter (fun x => P x = true) l))))%bool) ->
    filter (fun x => Q x = true) l = drop k' (filter (fun x => P x = true) l)) as IH'.
  { intros k' H. by apply IH. }
  rewrite !filter_cons. rewrite filter_cons in HQx. rewrite filter_cons in HQ.
  destruct (decide (P x = true)) as [E|E].
  - destruct k as [|k].
    + rewrite take_0, bool_decide_false, andb_true_r in HQx by set_solver.
      rewrite decide_True by congruence. simpl. f_equal.
      rewrite (IH' 0%nat); [by rewrite drop_0|].
      intros y Hy. rewrite HQ by set_solver. done.
    + cbn [take] in HQx. rewrite bool_decide_true, andb_false_r in HQx by set_solver.
      rewrite decide_False by congruence. simpl. apply IH'.
      intros y Hy. rewrite HQ by set_solver. cbn [take]. f_equal. f_equal.
      apply bool_decide_ext. rewrite elem_of_cons.
      assert (y <> x) by by intros ->. tauto.
  - rewrite (decide_False (P := Q x = true)); [|apply not_true_iff_false in E; rewrite HQx, E; done].
    apply IH'. intros y Hy. apply HQ. set_solver.
Qed.

Lemma filter_plus_one {A} `{!EqDecision A} (P Q : A -> bool) (x : A) (l : list A) :
  NoDup l -> x ∈ l -> P x = false -> Q x = true -> (forall y, y <> x -> Q y = P y) ->
  filter (fun y => Q y = true) l ≡ₚ x :: filter (fun y => P y = true) l.
Proof.
  intros Hnd Hx HP HQ H. apply list_elem_of_split in Hx as (l1 & l2 & ->).
  apply NoDup_middle in Hnd as [Hx _]. rewrite !filter_app, !filter_cons.
  rewrite (decide_True (P := Q x = true)), (decide_False (P := P x = true)) by congruence.
  rewrite (filter_bool_ext Q P l1), (filter_bool_ext Q P l2).
  - by rewrite Permutation_middle.
  - intros y Hy. apply H. intros ->. apply Hx, elem_of_app. by right.
  - intros y Hy. apply H. intros ->. apply Hx, elem_of_app. by left.
Qed.

(** ** The loop over a bitmap *)

Definition free_bits (m : mem) (bm : t_bitarray) (lo n : Z) : list Z :=
  filter (fun i => negb (bitarray_test_bit m bm i) = true) (seqZ lo n).

Lemma free_bits_loop_spec bm number how n var m got :
  forall got' m', free_bits_loop n var how bm number m got = (got', m') ->
  let t := take (Z.to_nat (how - zlen got)) (free_bits m bm var (Z.of_nat n)) in
  got' = got ++ (number <$> t) /\
  (forall i, bitarray_test_bit m' bm i =
             (bitarray_test_bit m bm i || bool_decide (i ∈ t))%bool) /\
  (forall x, (forall i, var <= i < var + Z.of_nat n -> x <> bitarray bm + i / 8) -> m' x = m x) /\
  (mem_ok m -> mem_ok m').
Proof.
  revert var m got. induction n as [|n IH]; intros var m got got' m' Hrun.
  - injection Hrun as <- <-. cbv zeta.
    replace (free_bits m bm var (Z.of_nat 0)) with (@nil Z) by done. rewrite take_nil. split_and!; [by rewrite app_nil_r|..|done|done].
    intros i. rewrite bool_decide_false, orb_false_r by set_solver. done.
  - cbn [free_bits_loop] in Hrun. cbv zeta.
    assert (free_bits m bm var (Z.of_nat (S n)) =
      (if negb (bitarray_test_bit m bm var) then [var] else []) ++
      free_bits m bm (var + 1) (Z.of_nat n)) as Hfree.
    { unfold free_bits. replace (Z.of_nat (S n)) with (1 + Z.of_nat n) by lia.
      rewrite seqZ_app by lia. rewrite filter_app. f_equal.
      change (seqZ var 1) with [0 + var]. rewrite Z.add_0_l, filter_cons, filter_nil.
      by destruct (negb _). }
    destruct (zlen got <? how) eqn:Eh; zify_bool.
    2: { injection Hrun as <- <-. replace (Z.to_nat (how - zlen got)) with 0%nat by lia.
         rewrite take_0. split_and!; [by rewrite app_nil_r|..|done|done].
         intros i. rewrite bool_decide_false, orb_false_r by set_solver. done. }
    destruct (negb (bitarray_test_bit m bm var)) eqn:Eb.
    + specialize (IH _ _ _ _ _ Hrun) as (Hg & Ht & Hx & Hok). cbv zeta in *.
      assert (free_bits (bitarray_set_bit m bm var) bm (var + 1) (Z.of_nat n) =
              free_bits m bm (var + 1) (Z.of_nat n)) as Hsame.
      { unfold free_bits. apply filter_bool_ext. intros i Hi.
        apply elem_of_seqZ in Hi. rewrite test_set_bit, bool_decide_false by lia. done. }
      rewrite Hsame in Hg. rewrite Hsame in Ht. rewrite Hfree.
      assert (Z.to_nat (how - zlen got) = S (Z.to_nat (how - zlen (got ++ [number var])))) as ->.
      { rewrite zlen_app. change (zlen [number var]) with 1. lia. }
      cbn [app]. rewrite firstn_cons. split_and!.
      * rewrite Hg, <- app_assoc. done.
      * intros i. rewrite Ht, test_set_bit. rewrite (bool_decide_ext (i ∈ var :: _)
          (var = i \/ i ∈ take (Z.to_nat (how - zlen (got ++ [number var])))
                         (free_bits m bm (var + 1) (Z.of_nat n)))).
        2: { rewrite elem_of_cons. split; intros [->|?]; auto. }
        rewrite bool_decide_or. destruct (bitarray_test_bit m bm i), (bool_decide (var = i)); done.
      * intros x Hxi. rewrite Hx by (intros i Hi; apply Hxi; lia).
        symmetry. apply (set_bit_outside m bm var). apply in_range_false.
        specialize (Hxi var ltac:(lia)). lia.
      * auto with liga.
    + specialize (IH _ _ _ _ _ Hrun) as (Hg & Ht & Hx & Hok). cbv zeta in *.
      rewrite Hfree. simpl. split_and!; [done|done| |done].
      intros x Hxi. apply Hx. intros i Hi. apply Hxi. lia.
Qed.

(** ** The abstract state: the free blocks, in order *)

Section Blocks.
Context {Super_constants : Superblock_constants} {WA : Word_after_array} {C : Type}.
Abbreviation R := (rfs C).
Abbreviation gd := group_descriptor.
Implicit Types (m : mem) (s : R) (g : Z).

Definition in_groups g : Prop := 0 <= g < TOTAL_GROUPS.

Definition GDT_END : Z := GDT_START + sizeof_Group_Descriptor * TOTAL_GROUPS.

(** The bitmaps of a group. *)
Definition block_bitmap m g : Z := u32 (BITMAP_BLOCK_ADDRESS m (gd g) * BLOCK_SIZE).
Definition inode_bitmap m g : Z := u32 (BITMAP_INODE_ADDRESS m (gd g) * BLOCK_SIZE).

Definition group_free m g : list Z :=
  free_bits m (bitarray_create (block_bitmap m g) BLOCK_SIZE) 0 BLOCKS_PER_GROUP.
Definition block_of g i : Z := g * BLOCKS_PER_GROUP + 1 + i.
Definition free_from m g n : list Z :=
  mjoin ((fun g => block_of g <$> group_free m g) <$> seqZ g n).
Definition free_blocks m : list Z := free_from m 0 TOTAL_GROUPS.

(** Two ranges of bytes without a common byte. *)
Definition apart (a n b k : Z) : Prop := a + n <= b \/ b + k <= a.

(** The superblock, the table of group descriptors and the bitmaps do not
    overlap, and a group descriptor's block bitmap lies in its group. *)
Record layout_ok m : Prop := {
  lo_gdt : 2048 <= GDT_START;
  lo_total : 0 <= TOTAL_GROUPS;
  lo_size : 0 < BLOCK_SIZE;
  lo_bpg : 0 < BLOCKS_PER_GROUP <= 8 * BLOCK_SIZE;
  lo_u16 : BLOCKS_PER_GROUP < 2 ^ 16;
  lo_blocks : TOTAL_GROUPS * BLOCKS_PER_GROUP < 2 ^ 32 - 1;
  lo_bbm : forall g, in_groups g -> GDT_END <= block_bitmap m g;
  lo_ibm : forall g, in_groups g -> GDT_END <= inode_bitmap m g;
  lo_bb : forall g g', in_groups g -> in_groups g' -> g <> g' ->
    apart (block_bitmap m g) BLOCK_SIZE (block_bitmap m g') BLOCK_SIZE;
  lo_ii : forall g g', in_groups g -> in_groups g' -> g <> g' ->
    apart (inode_bitmap m g) BLOCK_SIZE (inode_bitmap m g') BLOCK_SIZE;
  lo_bi : forall g g', in_groups g -> in_groups g' ->
    apart (block_bitmap m g) BLOCK_SIZE (inode_bitmap m g') BLOCK_SIZE;
  lo_number : forall g, in_groups g -> Group_Number m (gd g) = g
}.

(** No free block holds metadata. *)
Definition is_data_block m (b : Z) : Prop :=
  GDT_END <= block_addr b /\
  (forall g, in_groups g -> apart (block_addr b) BLOCK_SIZE (block_bitmap m g) BLOCK_SIZE) /\
  (forall g, in_groups g -> apart (block_addr b) BLOCK_SIZE (inode_bitmap m g) BLOCK_SIZE).

(** The counters count. *)
Definition group_counted m g : Prop := UNALLOCATED_BLOCKS m (gd g) = zlen (group_free m g).

Record alloc_ok m : Prop := {
  al_mem : mem_ok m;
  al_layout : layout_ok m;
  al_groups : forall g, in_groups g -> group_counted m g;
  al_total : load32 m SuperBlock.TOTAL_UNALLOCATED_BLOCKS = zlen (free_blocks m);
  al_data : Forall (is_data_block m) (free_blocks m)
}.

(** The descriptors and the block bitmaps. *)
Definition groups_area m (x : Z) : Prop :=
  GDT_START <= x < GDT_END \/
  exists g, in_groups g /\ block_bitmap m g <= x < block_bitmap m g + BLOCK_SIZE.

(** The bytes that allocation may write: the counters in the descriptors and
    the block bitmaps. *)
Definition metadata m (x : Z) : Prop :=
  (exists g, in_groups g /\ gd g + 12 <= x < gd g + 14) \/
  exists g, in_groups g /\ block_bitmap m g <= x < block_bitmap m g + BLOCK_SIZE.

(** ** Frame lemmas *)

(** The addresses kept in the descriptors. *)
Definition same_descriptors m m' : Prop :=
  forall g, in_groups g ->
    BITMAP_BLOCK_ADDRESS m' (gd g) = BITMAP_BLOCK_ADDRESS m (gd g) /\
    BITMAP_INODE_ADDRESS m' (gd g) = BITMAP_INODE_ADDRESS m (gd g).

Lemma same_block_bitmap m m' g :
  same_descriptors m m' -> in_groups g -> block_bitmap m' g = block_bitmap m g.
Proof. intros H Hg. unfold block_bitmap. by rewrite (proj1 (H g Hg)). Qed.

Lemma same_inode_bitmap m m' g :
  same_descriptors m m' -> in_groups g -> inode_bitmap m' g = inode_bitmap m g.
Proof. intros H Hg. unfold inode_bitmap. by rewrite (proj2 (H g Hg)). Qed.

Lemma layout_same m m' : same_descriptors m m' -> layout_ok m -> layout_ok m'.
Proof.
  intros Hs Hl.
  pose proof (fun g => same_block_bitmap m m' g Hs) as Hb.
  pose proof (fun g => same_inode_bitmap m m' g Hs) as Hi.
  split; try apply Hl.
  - intros g Hg. rewrite Hb by done. by apply lo_bbm.
  - intros g Hg. rewrite Hi by done. by apply lo_ibm.
  - intros g g' Hg Hg' Hne. rewrite !Hb by done. by apply lo_bb.
  - intros g g' Hg Hg' Hne. rewrite !Hi by done. by apply lo_ii.
  - intros g g' Hg Hg'. rewrite Hb, Hi by done. by apply lo_bi.
  - intros g Hg. unfold Group_Number. rewrite (proj1 (Hs g Hg)). by apply lo_number.
Qed.

Lemma data_block_same m m' b :
  same_descriptors m m' -> is_data_block m b -> is_data_block m' b.
Proof.
  intros Hs (H1 & H2 & H3). split_and!; [done|..]; intros g Hg.
  - rewrite (same_block_bitmap m m') by done. auto.
  - rewrite (same_inode_bitmap m m') by done. auto.
Qed.

Lemma bit_byte_range a i : layout_ok a -> 0 <= i < BLOCKS_PER_GROUP -> 0 <= i / 8 < BLOCK_SIZE.
Proof.
  intros [] Hi. split; [apply Z.div_pos; lia|apply Z.div_lt_upper_bound; lia].
Qed.

(** A group's free list depends only on its bitmap. *)
Lemma group_free_ext m m' g :
  layout_ok m -> in_groups g -> same_descriptors m m' ->
  (forall x, block_bitmap m g <= x < block_bitmap m g + BLOCK_SIZE -> m' x = m x) ->
  group_free m' g = group_free m g.
Proof.
  intros Hl Hg Hs Hx. unfold group_free, free_bits. rewrite (same_block_bitmap m m') by done.
  apply filter_bool_ext. intros i Hi%elem_of_seqZ.
  f_equal. apply test_bit_ext. simpl. apply Hx.
  pose proof (bit_byte_range m i Hl ltac:(lia)). lia.
Qed.

Lemma group_free_elem m g i : i ∈ group_free m g -> 0 <= i < BLOCKS_PER_GROUP.
Proof. intros [_ Hi%elem_of_seqZ]%list_elem_of_filter. lia. Qed.

Lemma group_free_nodup m g : NoDup (group_free m g).
Proof. apply NoDup_filter, NoDup_seqZ. Qed.

Lemma group_free_len m g : layout_ok m -> 0 <= zlen (group_free m g) <= BLOCKS_PER_GROUP.
Proof.
  intros Hl. pose proof (lo_bpg _ Hl). split; [apply zlen_nonneg|].
  unfold group_free, free_bits, zlen.
  pose proof (length_filter (fun i => negb (bitarray_test_bit m
    (bitarray_create (block_bitmap m g) BLOCK_SIZE) i) = true) (seqZ 0 BLOCKS_PER_GROUP)) as H'.
  rewrite length_seqZ in H'. lia.
Qed.

(** A write inside the descriptor table that keeps the addresses. *)
Lemma descriptor_frame m m' g :
  in_groups g ->
  (forall x, ~ (gd g + 12 <= x < gd g + 14) -> m' x = m x) -> same_descriptors m m'.
Proof.
  intros Hg Hx g' Hg'. unfold in_groups, group_descriptor, sizeof_Group_Descriptor in *.
  split; apply (load_ext 4); intros x Hx'; apply Hx; lia.
Qed.

Lemma gd_below m g : layout_ok m -> in_groups g -> GDT_START <= gd g /\ gd g + 32 <= GDT_END.
Proof.
  intros _ Hg. unfold GDT_END, group_descriptor, sizeof_Group_Descriptor, in_groups in *. lia.
Qed.

(** Writing the counter of a group. *)
Lemma set_counter_spec m g v (m' := set_UNALLOCATED_BLOCKS m (gd g) v) :
  layout_ok m -> in_groups g ->
  same_descriptors m m' /\ (mem_ok m -> mem_ok m') /\
  (forall g', in_groups g' -> group_free m' g' = group_free m g') /\
  UNALLOCATED_BLOCKS m' (gd g) = u16 v /\
  (forall g', in_groups g' -> g' <> g -> UNALLOCATED_BLOCKS m' (gd g') = UNALLOCATED_BLOCKS m (gd g')) /\
  (forall x, ~ (gd g + 12 <= x < gd g + 14) -> m' x = m x).
Proof.
  intros Hl Hg.
  assert (forall x, ~ (gd g + 12 <= x < gd g + 14) -> m' x = m x) as Hx.
  { intros x Hx. symmetry. apply store_same_outside, in_range_false. lia. }
  pose proof (gd_below m g Hl Hg). pose proof (descriptor_frame m m' g Hg Hx) as Hd.
  split_and!; [done|apply store_mem_ok| |apply load16_store16_same| |].
  - intros g' Hg'. apply group_free_ext; [done..|]. intros x Hx'. apply Hx.
    pose proof (lo_bbm m Hl g' Hg'). lia.
  - intros g' Hg' Hne. apply (load_ext 2). intros x Hx'. apply Hx.
    unfold group_descriptor, sizeof_Group_Descriptor in *. lia.
  - done.
Qed.

(** The search of one group takes the first free blocks of its list. *)
Lemma scan_group m how g l m' :
  layout_ok m -> in_groups g -> 0 <= how <= zlen (group_free m g) ->
  Get_Free_Blocks_In_Group m how (gd g) = (l, m') ->
  l = block_of g <$> take (Z.to_nat how) (group_free m g) /\
  same_descriptors m m' /\ (mem_ok m -> mem_ok m') /\
  group_free m' g = drop (Z.to_nat how) (group_free m g) /\
  (forall g', in_groups g' -> g' <> g -> group_free m' g' = group_free m g') /\
  (forall x, ~ (block_bitmap m g <= x < block_bitmap m g + BLOCK_SIZE) -> m' x = m x).
Proof.
  intros Hl Hg Hhow Hrun. unfold Get_Free_Blocks_In_Group in Hrun.
  set (bm := bitarray_create _ _) in Hrun. set (number := fun var => _) in Hrun.
  destruct (free_bits_loop _ _ _ _ _ _ _) as [got m1] eqn:Eloop.
  injection Hrun as <- <-. pose proof (lo_bpg m Hl) as Hbpg.
  apply free_bits_loop_spec in Eloop as (Hgot & Hbit & Hx & Hok).
  rewrite Z2Nat.id in Hgot, Hbit, Hx by lia. change (zlen (@nil Z)) with 0 in *.
  rewrite Z.sub_0_r in Hgot, Hbit. change (free_bits m bm 0 BLOCKS_PER_GROUP) with (group_free m g) in *.
  set (t := take (Z.to_nat how) (group_free m g)) in *.
  assert (zlen t = how) as Ht.
  { unfold t, zlen. rewrite length_take. unfold zlen in Hhow. lia. }
  assert (zlen got = how) as Hlen.
  { rewrite Hgot. unfold zlen in *. by rewrite length_app, length_fmap. }
  assert (forall x, ~ (block_bitmap m g <= x < block_bitmap m g + BLOCK_SIZE) -> m1 x = m x) as Hx'.
  { intros x Hx'. apply Hx. intros i Hi.
    pose proof (bit_byte_range m i Hl ltac:(lia)). 
    change (bitarray bm) with (block_bitmap m g). lia. }
  pose proof (lo_bbm m Hl g Hg) as Hgdt.
  assert (same_descriptors m m1) as Hd.
  { intros g' Hg'. pose proof (gd_below m g' Hl Hg').
    split; apply (load_ext 4); intros x ?; apply Hx'; lia. }
  split_and!; [|done|done| | |done].
  - rewrite Hlen, Z.sub_diag. simpl. rewrite app_nil_r, Hgot. simpl.
    apply list_fmap_ext. intros k i Hi. apply list_elem_of_lookup_2 in Hi.
    apply elem_of_take in Hi as (k' & Hi & _). apply list_elem_of_lookup_2, group_free_elem in Hi.
    unfold number, block_of. rewrite (lo_number m Hl g Hg).
    pose proof (lo_blocks m Hl). unfold in_groups in Hg.
    rewrite (u32_small (g * BLOCKS_PER_GROUP + 1)) by nia. rewrite u32_small by nia. lia.
  - unfold group_free at 1. rewrite (same_block_bitmap m m1) by done.
    apply (filter_minus_take (fun i => negb (bitarray_test_bit m bm i))); [apply NoDup_seqZ|].
    intros i _. fold bm. change (bitarray_create (block_bitmap m g) BLOCK_SIZE) with bm.
    rewrite Hbit, negb_orb. done.
  - intros g' Hg' Hne. apply group_free_ext; [done..|]. intros x Hx2. apply Hx'.
    pose proof (lo_bb m Hl g g' Hg Hg' ltac:(done)) as []; lia.
Qed.

(** ** The loop over the groups *)

(** The state between two turns of the loop; the total of the superblock is
    already decreased. *)
Record groups_ok m : Prop := {
  gr_mem : mem_ok m;
  gr_layout : layout_ok m;
  gr_counted : forall g, in_groups g -> group_counted m g
}.

(** What a turn or the whole loop leaves alone. *)
Definition only_metadata m m' : Prop :=
  same_descriptors m m' /\ forall x, ~ metadata m x -> m' x = m x.

Lemma only_metadata_refl m : only_metadata m m.
Proof. done. Qed.

Lemma only_metadata_trans m1 m2 m3 :
  only_metadata m1 m2 -> only_metadata m2 m3 -> only_metadata m1 m3.
Proof.
  intros [H1 F1] [H2 F2]. split.
  - intros g Hg. destruct (H1 g Hg), (H2 g Hg). split; congruence.
  - intros x Hx. rewrite F2, F1; [done|done|]. intros [Hm|(g & Hg & Hb)]; apply Hx; [by left|].
    right. exists g. by rewrite (same_block_bitmap m1 m2) in Hb.
Qed.

Lemma with_file_id s : with_file (file s) s = s.
Proof. by destruct s. Qed.

Lemma counted_ext m m' g :
  UNALLOCATED_BLOCKS m' (gd g) = UNALLOCATED_BLOCKS m (gd g) ->
  group_free m' g = group_free m g -> group_counted m g -> group_counted m' g.
Proof. unfold group_counted. congruence. Qed.

Lemma unallocated_frame m m' g g0 :
  layout_ok m -> in_groups g -> in_groups g0 ->
  (forall x, ~ (block_bitmap m g0 <= x < block_bitmap m g0 + BLOCK_SIZE) -> m' x = m x) ->
  UNALLOCATED_BLOCKS m' (gd g) = UNALLOCATED_BLOCKS m (gd g).
Proof.
  intros Hl Hg Hg0 Hx. apply (load_ext 2). intros x Hx'. apply Hx.
  pose proof (gd_below m g Hl Hg). pose proof (lo_bbm m Hl g0 Hg0). lia.
Qed.

(** Setting the counter of [g] to the length of its new free list after a
    search keeps the invariant: both orders of the two writes. *)
Lemma take_from_group m how g :
  groups_ok m -> in_groups g -> 0 <= how <= zlen (group_free m g) ->
  forall l m', 
  (let m1 := set_UNALLOCATED_BLOCKS m (gd g) (zlen (group_free m g) - how) in
   Get_Free_Blocks_In_Group m1 how (gd g) = (l, m')) \/
  (exists m1, Get_Free_Blocks_In_Group m how (gd g) = (l, m1) /\
     m' = set_UNALLOCATED_BLOCKS m1 (gd g) (zlen (group_free m g) - how)) ->
  l = block_of g <$> take (Z.to_nat how) (group_free m g) /\
  groups_ok m' /\ only_metadata m m' /\
  group_free m' g = drop (Z.to_nat how) (group_free m g) /\
  (forall g', in_groups g' -> g' <> g -> group_free m' g' = group_free m g').
Proof.
  intros [Hm Hl Hc] Hg Hhow l m' Hrun.
  pose proof (group_free_len m g Hl) as Hlen. pose proof (lo_u16 m Hl) as Hu.
  assert (u16 (zlen (group_free m g) - how) = zlen (drop (Z.to_nat how) (group_free m g))) as Hcount.
  { rewrite u16_small by lia. unfold zlen in *. rewrite length_drop. lia. }
  pose proof (lo_bbm m Hl g Hg) as Hbb. pose proof (lo_gdt m Hl) as Hgdt.
  destruct Hrun as [Hrun|(m1 & Hrun & ->)].
  - destruct (set_counter_spec m g (zlen (group_free m g) - how) Hl Hg)
      as (D1 & M1 & F1 & U1 & V1 & X1).
    set (m1 := set_UNALLOCATED_BLOCKS _ _ _) in *.
    pose proof (layout_same _ _ D1 Hl) as Hl1.
    apply scan_group in Hrun as (-> & D2 & M2 & G2 & F2 & X2); [|done|done|by rewrite F1].
    rewrite (F1 g Hg) in *. pose proof (layout_same _ _ D2 Hl1) as Hl2. split_and!.
    + done.
    + split; [auto|done|]. intros g' Hg'. destruct (decide (g' = g)) as [->|Hne].
      * unfold group_counted. rewrite (unallocated_frame m1 m' g g), U1, G2 by done. done.
      * apply (counted_ext m1); [by apply (unallocated_frame m1 m' g' g)|by apply F2|].
        apply (counted_ext m); auto.
    + apply (only_metadata_trans _ m1); split; [done| |done|].
      * intros x Hx. apply X1. intros H. apply Hx. left. by exists g.
      * intros x Hx. apply X2. intros H. apply Hx. right. by exists g.
    + done.
    + intros g' Hg' Hne. rewrite F2, F1 by done. done.
  - apply scan_group in Hrun as (-> & D1 & M1 & G1 & F1 & X1); [|done..].
    pose proof (layout_same _ _ D1 Hl) as Hl1.
    destruct (set_counter_spec m1 g (zlen (group_free m g) - how) Hl1 Hg)
      as (D2 & M2 & F2 & U2 & V2 & X2).
    set (m' := set_UNALLOCATED_BLOCKS _ _ _) in *. split_and!.
    + done.
    + split; [auto|by apply (layout_same m1)|]. intros g' Hg'. destruct (decide (g' = g)) as [->|Hne].
      * unfold group_counted. rewrite U2, (F2 g Hg), G1. done.
      * apply (counted_ext m1); [auto..|].
        apply (counted_ext m); [by apply (unallocated_frame m m1 g' g)|auto..].
    + apply (only_metadata_trans _ m1); split; [done| |done|].
      * intros x Hx. apply X1. intros H. apply Hx. right. by exists g.
      * intros x Hx. apply X2. intros H. apply Hx. left. by exists g.
    + by rewrite (F2 g Hg).
    + intros g' Hg' Hne. rewrite F2, F1 by done. done.
Qed.

(** One turn takes the first [how] blocks of the group, or all of them. *)
Lemma turn_spec s g how idx blocks (k := Z.min how (zlen (group_free (file s) g))) :
  groups_ok (file s) -> in_groups g -> 0 < how -> 0 <= idx <= zlen blocks ->
  idx + how < 2 ^ 32 ->
  exists m' idx',
    Get_Free_Blocks_turn g how idx blocks s =
      Ok (how - k, idx', array_write blocks idx
           (block_of g <$> take (Z.to_nat k) (group_free (file s) g)), with_file m' s) /\
    (k < how -> idx' = idx + k) /\ groups_ok m' /\ only_metadata (file s) m' /\
    group_free m' g = drop (Z.to_nat k) (group_free (file s) g) /\
    (forall g', in_groups g' -> g' <> g -> group_free m' g' = group_free (file s) g').
Proof.
  intros Hok Hg Hhow Hidx Hu. pose proof Hok as [Hm Hl Hc]. pose proof (Hc g Hg) as Hcg.
  unfold group_counted in Hcg. pose proof (group_free_len (file s) g Hl) as Hlen.
  unfold Get_Free_Blocks_turn. cbv [get_file gets mbind M_bind]. rewrite Hcg.
  destruct (zlen (group_free (file s) g) =? 0) eqn:E0; zify_bool.
  { exists (file s), idx. replace k with 0 by lia. rewrite with_file_id. split_and!; try done.
    - simpl. unfold array_write. simpl. rewrite Nat.add_0_r, take_drop, Z.sub_0_r. done.
    - lia. }
  destruct (how <=? zlen (group_free (file s) g)) eqn:E1; zify_bool.
  - replace k with how by lia.
    destruct (Get_Free_Blocks_In_Group _ _ _) as [l m'] eqn:Erun.
    destruct (take_from_group (file s) how g Hok Hg ltac:(lia) l m' (or_introl Erun))
      as (-> & Hok' & Ho & Hf & Hf').
    exists m', idx. split_and!; try done; [by rewrite Z.sub_diag|lia].
  - replace k with (zlen (group_free (file s) g)) by lia.
    destruct (Get_Free_Blocks_In_Group _ _ _) as [l m1] eqn:Erun.
    destruct (take_from_group (file s) (zlen (group_free (file s) g)) g Hok Hg ltac:(lia) l
                (set_UNALLOCATED_BLOCKS m1 (gd g) 0)) as (-> & Hok' & Ho & Hf & Hf').
    { right. exists m1. by rewrite Z.sub_diag. }
    eexists _, (u32 (idx + zlen (group_free (file s) g))). split_and!; [reflexivity|..]; try done.
    intros _. apply u32_small. lia.
Qed.

Lemma free_from_S m g n :
  0 <= n -> free_from m g (1 + n) = (block_of g <$> group_free m g) ++ free_from m (g + 1) n.
Proof.
  intros Hn. unfold free_from. rewrite seqZ_app, fmap_app, list.join_app by lia.
  change (seqZ g 1) with [0 + g]. rewrite Z.add_0_l. cbn. by rewrite app_nil_r.
Qed.

Lemma free_from_ext m m' g n :
  (forall g', g <= g' < g + n -> group_free m' g' = group_free m g') ->
  free_from m' g n = free_from m g n.
Proof.
  intros H. unfold free_from. f_equal. apply list_fmap_ext.
  intros i g' Hg'. apply lookup_seqZ in Hg'. rewrite H by lia. done.
Qed.

Lemma take_array_write blocks idx l :
  0 <= idx -> idx + zlen l <= zlen blocks ->
  take (Z.to_nat (idx + zlen l)) (array_write blocks idx l) = take (Z.to_nat idx) blocks ++ l /\
  zlen (array_write blocks idx l) = zlen blocks.
Proof.
  intros Hi Hl. unfold array_write, zlen in *. rewrite app_assoc. split.
  - apply take_app_length'. rewrite length_app, length_take. lia.
  - rewrite !length_app, length_take, length_drop. lia.
Qed.

Lemma loop_spec n s g how idx blocks :
  groups_ok (file s) -> 0 <= g -> g + Z.of_nat n = TOTAL_GROUPS ->
  0 <= how <= zlen (free_from (file s) g (Z.of_nat n)) ->
  0 <= idx -> idx + how = zlen blocks -> zlen blocks < 2 ^ 32 ->
  exists m', Get_Free_Blocks_loop n g how idx blocks s =
      Ok (take (Z.to_nat idx) blocks ++
          take (Z.to_nat how) (free_from (file s) g (Z.of_nat n)), with_file m' s) /\
    groups_ok m' /\ only_metadata (file s) m' /\
    free_from m' g (Z.of_nat n) = drop (Z.to_nat how) (free_from (file s) g (Z.of_nat n)) /\
    (forall g', in_groups g' -> g' < g -> group_free m' g' = group_free (file s) g').
Proof.
  revert s g how idx blocks. induction n as [|n IH]; intros s g how idx blocks Hok Hg0 Hg Hhow Hi Hlen Hu.
  - change (free_from (file s) g (Z.of_nat 0)) with (@nil Z) in *.
    change (zlen (@nil Z)) with 0 in Hhow. assert (how = 0) as -> by lia.
    exists (file s). rewrite with_file_id, take_nil, drop_nil, app_nil_r.
    rewrite firstn_all2 by (unfold zlen in Hlen; lia). split_and!; done.
  - cbn [Get_Free_Blocks_loop]. rewrite Z.gtb_ltb.
    replace (Z.of_nat (S n)) with (1 + Z.of_nat n) in * by lia.
    destruct (0 <? how) eqn:E; zify_bool.
    2: { assert (how = 0) as -> by lia. exists (file s).
         rewrite with_file_id, take_0, app_nil_r, drop_0.
         rewrite firstn_all2 by (unfold zlen in Hlen; lia). split_and!; done. }
    assert (in_groups g) as Hgg by (unfold in_groups; lia).
    destruct (turn_spec s g how idx blocks Hok Hgg) as (m1 & idx1 & Hrun & Hidx1 & Hok1 & Ho1 & Hf1 & Hr1);
      [lia|lia|lia|].
    erewrite bind_ok by exact Hrun. cbv beta iota.
    rewrite free_from_S in * by lia. rewrite zlen_app in Hhow.
    set (F := group_free (file s) g) in *. set (k := Z.min how (zlen F)) in *.
    assert (zlen (block_of g <$> F) = zlen F) as HF by (unfold zlen; by rewrite length_fmap).
    pose proof (zlen_nonneg F) as HF0.
    set (l := block_of g <$> take (Z.to_nat k) F) in *.
    assert (zlen l = k) as Hl.
    { unfold l, zlen in *. rewrite length_fmap, length_take. lia. }
    assert (l = take (Z.to_nat how) (block_of g <$> F)) as Hl'.
    { unfold l. rewrite fmap_take. destruct (Z.le_gt_cases how (zlen F)).
      - by replace k with how by lia.
      - replace k with (zlen F) by lia. rewrite !firstn_all2; [done|..];
          rewrite length_fmap; unfold zlen in *; lia. }
    destruct (take_array_write blocks idx l) as [Ht Hzl]; [lia|lia|]. rewrite Hl in Ht.
    assert (free_from m1 (g + 1) (Z.of_nat n) = free_from (file s) (g + 1) (Z.of_nat n)) as Hrest.
    { apply free_from_ext. intros g' Hg'. apply Hr1; [unfold in_groups|]; lia. }
    assert (exists m', Get_Free_Blocks_loop n (g + 1) (how - k) idx1 (array_write blocks idx l)
              (with_file m1 s) =
      Ok (take (Z.to_nat (idx + k)) (array_write blocks idx l) ++
          take (Z.to_nat (how - k)) (free_from (file s) (g + 1) (Z.of_nat n)), with_file m' s) /\
      groups_ok m' /\ only_metadata m1 m' /\
      free_from m' (g + 1) (Z.of_nat n) = drop (Z.to_nat (how - k)) (free_from (file s) (g + 1) (Z.of_nat n)) /\
      (forall g', in_groups g' -> g' < g + 1 -> group_free m' g' = group_free m1 g')) as Hnext.
    { destruct (decide (k < how)) as [Hk|Hk].
      - rewrite (Hidx1 Hk). rewrite <- Hrest.
        apply (IH (with_file m1 s) (g + 1) (how - k) (idx + k)); cbn [file with_file]; try done; try lia.
        rewrite Hrest. lia.
      - replace (how - k) with 0 by lia. exists m1. split_and!; [|done|done| |done].
        + destruct n; cbn [Get_Free_Blocks_loop]; (rewrite take_0, app_nil_r, firstn_all2;
            [done|unfold zlen in *; lia]).
        + by rewrite drop_0. }
    destruct Hnext as (m' & Hrun' & Hok' & Ho' & Hf' & Hr'). exists m'. split_and!.
    + rewrite Hrun', Ht, <- app_assoc, Hl', take_app. do 4 f_equal.
      rewrite length_fmap. unfold zlen in *. f_equal. lia.
    + done.
    + by apply (only_metadata_trans _ m1).
    + rewrite free_from_S by lia. rewrite Hr', Hf1, Hf', fmap_drop by (done || lia).
      rewrite drop_app, length_fmap. f_equal.
      * destruct (Z.le_gt_cases how (zlen F)); [by replace k with how by lia|].
        rewrite !drop_ge; [done|..]; rewrite length_fmap; unfold zlen in *; lia.
      * f_equal. unfold zlen in *. lia.
    + intros g' Hg' Hlt. rewrite Hr', Hr1 by (done || lia). done.
Qed.

(** ** The list of free blocks *)

Lemma free_from_bounds m g n b :
  0 <= n -> 0 < BLOCKS_PER_GROUP -> b ∈ free_from m g n ->
  g * BLOCKS_PER_GROUP + 1 <= b <= (g + n) * BLOCKS_PER_GROUP.
Proof.
  intros Hn Hb. revert n Hn g. refine (natlike_ind _ _ _); [intros g []%not_elem_of_nil|].
  intros n Hn IH g. replace (Z.succ n) with (1 + n) by lia. rewrite free_from_S by done.
  rewrite elem_of_app. intros [(i & -> & Hi)%list_elem_of_fmap|H%IH]; [|nia].
  apply group_free_elem in Hi. unfold block_of. nia.
Qed.

Lemma free_from_nodup m g n : 0 <= n -> 0 < BLOCKS_PER_GROUP -> NoDup (free_from m g n).
Proof.
  intros Hn Hb. revert n Hn g. refine (natlike_ind _ _ _); [intros; apply NoDup_nil_2|].
  intros n Hn IH g. replace (Z.succ n) with (1 + n) by lia. rewrite free_from_S by done.
  apply NoDup_app. split_and!; [|intros b (i & -> & Hi)%list_elem_of_fmap Hin|apply IH].
  - apply NoDup_fmap_2_strong; [|apply group_free_nodup]. unfold block_of. intros; lia.
  - apply free_from_bounds in Hin; [|done..]. apply group_free_elem in Hi.
    unfold block_of in Hin. lia.
Qed.

(** ** Writes that the allocator does not see *)

(** [m'] keeps the descriptors and the block bitmaps of [m]. *)
Definition same_area m m' : Prop :=
  forall x, groups_area m x -> m' x = m x.

Lemma same_area_groups m m' :
  layout_ok m -> same_area m m' ->
  same_descriptors m m' /\
  (forall g, in_groups g -> group_free m' g = group_free m g) /\
  (forall g, in_groups g -> UNALLOCATED_BLOCKS m' (gd g) = UNALLOCATED_BLOCKS m (gd g)).
Proof.
  intros Hl Hx.
  assert (same_descriptors m m') as Hd.
  { intros g Hg. pose proof (gd_below m g Hl Hg).
    split; apply (load_ext 4); intros x ?; apply Hx; left; lia. }
  split_and!; [done|..]; intros g Hg.
  - apply group_free_ext; [done..|]. intros x Hx'. apply Hx. right. by exists g.
  - pose proof (gd_below m g Hl Hg). apply (load_ext 2). intros x ?. apply Hx. left. lia.
Qed.

Lemma same_area_groups_ok m m' :
  groups_ok m -> mem_ok m' -> same_area m m' ->
  groups_ok m' /\ free_blocks m' = free_blocks m.
Proof.
  intros [Hm Hl Hc] Hm' Hs. destruct (same_area_groups m m' Hl Hs) as (Hd & Hf & Hu).
  split; [split; [done|by apply (layout_same m)|]|].
  - intros g Hg. apply (counted_ext m); auto.
  - apply free_from_ext. intros g Hg. apply Hf. unfold in_groups. lia.
Qed.

Lemma store_total_area m v :
  layout_ok m -> same_area m (store32 m SuperBlock.TOTAL_UNALLOCATED_BLOCKS v).
Proof.
  intros Hl x Hx. symmetry. apply store_same_outside, in_range_false.
  pose proof (lo_gdt m Hl). unfold SuperBlock.TOTAL_UNALLOCATED_BLOCKS, SUPERBLOCK_START.
  assert (GDT_START <= GDT_END).
  { unfold GDT_END, sizeof_Group_Descriptor. pose proof (lo_total m Hl). lia. }
  destruct Hx as [?|(g & Hg & ?)]; [lia|]. pose proof (lo_bbm m Hl g Hg). lia.
Qed.

Lemma only_metadata_total m m' :
  layout_ok m -> only_metadata m m' ->
  load32 m' SuperBlock.TOTAL_UNALLOCATED_BLOCKS = load32 m SuperBlock.TOTAL_UNALLOCATED_BLOCKS.
Proof.
  intros Hl [_ Hx]. apply (load_ext 4). intros x Hx'. apply Hx.
  pose proof (lo_gdt m Hl). unfold SuperBlock.TOTAL_UNALLOCATED_BLOCKS, SUPERBLOCK_START in Hx'.
  assert (GDT_START <= GDT_END).
  { unfold GDT_END, sizeof_Group_Descriptor. pose proof (lo_total m Hl). lia. }
  intros [(g & Hg & ?)|(g & Hg & ?)]; [pose proof (gd_below m g Hl Hg)|pose proof (lo_bbm m Hl g Hg)]; lia.
Qed.

(** ** CleanBlocks *)

Definition in_block (b x : Z) : Prop := block_addr b <= x < block_addr b + BLOCK_SIZE.

Lemma CleanBlocks_spec l m :
  Forall (fun b => b <> 0) l ->
  exists m', CleanBlocks l 0 m = Ok m' /\ (mem_ok m -> mem_ok m') /\
    (forall x, (forall b, b ∈ l -> ~ in_block b x) -> m' x = m x).
Proof.
  revert m. induction l as [|b l IH]; intros m Hl; [by exists m|].
  apply Forall_cons in Hl as [Hb Hl]. destruct l as [|next l]; [by exists m|].
  pose proof Hl as [Hn _]%Forall_cons. cbn [CleanBlocks].
  rewrite (proj2 (Z.eqb_neq next 0)) by done.
  destruct (IH (memset m (block_addr b) 0 BLOCK_SIZE) Hl) as (m' & Hrun & Hm & Hx).
  exists m'. split_and!; [done|auto with liga|]. intros x Hx'.
  rewrite Hx by (intros c Hc; apply Hx'; by right).
  symmetry. apply memset_same_outside, in_range_false. apply (Hx' b). by left.
Qed.

Lemma data_block_area m b x : is_data_block m b -> in_block b x -> ~ groups_area m x.
Proof.
  intros (H1 & H2 & _) Hx [?|(g & Hg & ?)]; unfold in_block in *; [lia|].
  destruct (H2 g Hg); lia.
Qed.

Lemma free_blocks_data_mem m : alloc_ok m -> Forall (fun b => b <> 0) (free_blocks m).
Proof.
  intros Hok. apply Forall_forall. intros b Hb. pose proof (al_layout _ Hok) as Hl.
  pose proof (lo_bpg _ Hl). pose proof (lo_total _ Hl).
  apply free_from_bounds in Hb; lia.
Qed.

(** The total is below the descriptors and the blocks. *)
Lemma total_low m : layout_ok m -> SuperBlock.TOTAL_UNALLOCATED_BLOCKS + 4 <= GDT_START /\ GDT_START <= GDT_END.
Proof.
  intros Hl. pose proof (lo_gdt m Hl). pose proof (lo_total m Hl).
  unfold SuperBlock.TOTAL_UNALLOCATED_BLOCKS, SUPERBLOCK_START, GDT_END, sizeof_Group_Descriptor in *. lia.
Qed.

(** A new total. *)
Lemma total_stored m v (m0 := store32 m SuperBlock.TOTAL_UNALLOCATED_BLOCKS v) :
  groups_ok m -> groups_ok m0 /\ free_blocks m0 = free_blocks m /\ same_descriptors m m0.
Proof.
  intros Hg. pose proof (gr_layout m Hg) as Hl.
  destruct (same_area_groups m m0 Hl (store_total_area m v Hl)) as (D0 & _ & _).
  destruct (same_area_groups_ok m m0 Hg) as [G0 F0]; [apply store_mem_ok, Hg|by apply store_total_area|].
  done.
Qed.

(** Clearing data blocks. *)
Lemma clean_taken m l :
  groups_ok m -> (forall b, b ∈ l -> b <> 0 /\ is_data_block m b) ->
  exists m', CleanBlocks l 0 m = Ok m' /\ groups_ok m' /\ free_blocks m' = free_blocks m /\
    same_descriptors m m' /\
    load32 m' SuperBlock.TOTAL_UNALLOCATED_BLOCKS = load32 m SuperBlock.TOTAL_UNALLOCATED_BLOCKS /\
    (forall x, (forall b, b ∈ l -> ~ in_block b x) -> m' x = m x).
Proof.
  intros Hg Hd. destruct (CleanBlocks_spec l m) as (m' & Hrun & Hm & Hx).
  { apply Forall_forall. intros b Hb. by apply Hd. }
  assert (same_area m m') as Hs.
  { intros x Hmx. apply Hx. intros b Hb Hin. destruct (Hd b Hb) as [_ Hdb].
    by apply (data_block_area m b x Hdb Hin). }
  destruct (same_area_groups_ok m m' Hg) as [G F]; [apply Hm, Hg|done|].
  destruct (same_area_groups m m' (gr_layout m Hg) Hs) as (D & _ & _).
  exists m'. split_and!; try done. apply (load_ext 4). intros x Hin. apply Hx. intros b Hb Hbx.
  destruct (Hd b Hb) as [_ (Hlow & _)]. pose proof (total_low m (gr_layout m Hg)). unfold in_block in Hbx. lia.
Qed.

(** From [m] the blocks [l] were taken. *)
Record took m m' (l : list Z) : Prop := {
  tk_nodup : NoDup l;
  tk_free : free_blocks m = l ++ free_blocks m';
  tk_alloc : alloc_ok m';
  tk_descriptors : same_descriptors m m';
  tk_frame : forall x, ~ metadata m x -> in_range SuperBlock.TOTAL_UNALLOCATED_BLOCKS 4 x = false ->
    (forall b, b ∈ l -> ~ in_block b x) -> m' x = m x
}.

Lemma same_descriptors_trans m1 m2 m3 :
  same_descriptors m1 m2 -> same_descriptors m2 m3 -> same_descriptors m1 m3.
Proof. intros H1 H2 g Hg. destruct (H1 g Hg), (H2 g Hg). split; congruence. Qed.

Lemma metadata_same m m' x : same_descriptors m m' -> metadata m' x -> metadata m x.
Proof.
  intros Hd [H|(g & Hg & H)]; [by left|]. right. exists g. by rewrite <- (same_block_bitmap m m').
Qed.

Lemma free_blocks_nodup m : layout_ok m -> NoDup (free_blocks m).
Proof. intros Hl. apply free_from_nodup; [apply (lo_total m Hl)|pose proof (lo_bpg m Hl); lia]. Qed.

(** The loop over the groups and the clearing, after the total was reduced. *)
Lemma took_blocks m m0 m1 m2 l :
  alloc_ok m -> l = take (length l) (free_blocks m) ->
  m0 = store32 m SuperBlock.TOTAL_UNALLOCATED_BLOCKS (zlen (free_blocks m) - zlen l) ->
  groups_ok m1 -> only_metadata m0 m1 -> free_blocks m1 = drop (length l) (free_blocks m) ->
  CleanBlocks l 0 m1 = Ok m2 -> took m m2 l.
Proof.
  intros Hok El -> G1 O1 F1 Hcl. pose proof Hok as [Hm Hl Hc Ht Hd]. rewrite Forall_forall in Hd.
  set (m0 := store32 m _ _) in *.
  destruct (total_stored m (zlen (free_blocks m) - zlen l)) as (G0 & F0 & D0); [by split|]. fold m0 in G0, F0, D0.
  assert (free_blocks m = l ++ free_blocks m1) as Esplit by (rewrite F1, El at 1; by rewrite take_drop).
  pose proof (same_descriptors_trans _ _ _ D0 (proj1 O1)) as D1.
  destruct (clean_taken m1 l G1) as (m2' & Hcl' & G2 & F2 & D2 & T2 & X2).
  { intros b Hb. assert (b ∈ free_blocks m) as Hin by (rewrite Esplit; apply elem_of_app; by left). split.
    - pose proof (free_blocks_data_mem m Hok) as Hnz. rewrite Forall_forall in Hnz. by apply Hnz.
    - apply (data_block_same m); auto. }
  assert (m2' = m2) as -> by congruence.
  pose proof (load32_range m SuperBlock.TOTAL_UNALLOCATED_BLOCKS Hm) as Hr. rewrite Ht in Hr.
  assert (zlen (free_blocks m) = zlen l + zlen (free_blocks m1)) as Hz by (by rewrite Esplit, zlen_app).
  pose proof (zlen_nonneg l). pose proof (zlen_nonneg (free_blocks m1)).
  split.
  - pose proof (free_blocks_nodup m Hl) as Hnd. rewrite Esplit in Hnd. by apply NoDup_app in Hnd as [? _].
  - by rewrite F2.
  - split; [apply G2|apply G2|apply G2| |].
    + rewrite T2, (only_metadata_total m0 m1 (gr_layout _ G0) O1). unfold m0. rewrite load32_store32_same.
      rewrite u32_small, F2 by lia. lia.
    + apply Forall_forall. intros b Hb. rewrite F2 in Hb.
      apply (data_block_same m); [by eapply same_descriptors_trans|]. apply Hd. rewrite Esplit. apply elem_of_app. by right.
  - by eapply same_descriptors_trans.
  - intros x Hx Hsb Hb. rewrite X2, (proj2 O1) by (try done; intros Hmx; by apply Hx, (metadata_same m m0)).
    symmetry. by apply store_same_outside.
Qed.

Lemma Get_Free_Blocks_ok s n :
  alloc_ok (file s) -> 0 <= n <= zlen (free_blocks (file s)) ->
  word_after_array (take (Z.to_nat n) (free_blocks (file s))) = 0 ->
  exists m', Get_Free_Blocks n s = Ok (Some (take (Z.to_nat n) (free_blocks (file s))), with_file m' s) /\
    took (file s) m' (take (Z.to_nat n) (free_blocks (file s))).
Proof.
  intros Hok Hn Hafter. pose proof Hok as [Hm Hl Hc Ht Hd].
  set (m := file s) in *. set (T := take (Z.to_nat n) (free_blocks m)) in *.
  pose proof (load32_range m SuperBlock.TOTAL_UNALLOCATED_BLOCKS Hm) as Hr. rewrite Ht in Hr.
  assert (length T = Z.to_nat n) as HT by (unfold T, zlen in *; rewrite length_take; lia).
  unfold Get_Free_Blocks. cbv [get_file gets]. erewrite bind_ok by reflexivity. fold m.
  rewrite Ht, Z.gtb_ltb, (proj2 (Z.ltb_ge _ _)) by lia.
  set (m0 := store32 m SuperBlock.TOTAL_UNALLOCATED_BLOCKS (zlen (free_blocks m) - n)).
  erewrite bind_ok by reflexivity.
  destruct (total_stored m (zlen (free_blocks m) - n)) as (G0 & F0 & _); [by split|]. fold m0 in G0, F0.
  pose proof (lo_total m Hl) as Htg.
  destruct (loop_spec (Z.to_nat TOTAL_GROUPS) (with_file m0 s) 0 n 0 (replicate (Z.to_nat n) 0))
    as (m1 & Hrun & G1 & O1 & F1 & _); cbn [file with_file]; rewrite ?Z2Nat.id by lia;
    try (unfold zlen; rewrite length_replicate); try done; try lia.
  { fold (free_blocks m0). by rewrite F0. }
  rewrite Z2Nat.id in Hrun, F1 by lia.
  change (free_from (file (with_file m0 s)) 0 TOTAL_GROUPS) with (free_blocks m0) in Hrun, F1.
  fold (free_blocks m1) in F1. rewrite F0 in Hrun, F1. cbn [file with_file] in Hrun.
  erewrite bind_ok by exact Hrun.
  change (take (Z.to_nat 0) (replicate (Z.to_nat n) 0) ++ take (Z.to_nat n) (free_blocks m)) with T.
  destruct (clean_taken m1 T G1) as (m2 & Hcl & _).
  { intros b Hb. assert (b ∈ free_blocks m) as Hin by by apply subseteq_take in Hb.
    pose proof (free_blocks_data_mem m Hok) as Hnz. rewrite Forall_forall in Hnz, Hd. split; [by apply Hnz|].
    destruct (total_stored m (zlen (free_blocks m) - n)) as (_ & _ & D0); [by split|].
    apply (data_block_same m); [|by apply Hd]. by eapply same_descriptors_trans; [exact D0|apply O1]. }
  unfold clean_blocks. cbv [get_file gets mbind M_bind]. cbn [file with_file].
  rewrite Hafter, Hcl. exists m2. split; [reflexivity|].
  apply (took_blocks m m0 m1 m2 T Hok); [by rewrite HT| |done|done|by rewrite HT|done].
  unfold m0. do 2 f_equal. unfold zlen. lia.
Qed.

(** C23: [Get_Free_Blocks] hands out the first free blocks of the image, in
    order, and removes exactly them from the list of free blocks: they were
    free, they are distinct, the counters of the groups and of the superblock
    still count, and no byte changes outside of the superblock's total, the
    counters in the descriptors, the bitmaps and the blocks themselves.  (The heap word
    behind the array is zero, or [CleanBlocks] runs out of the array.) *)
Theorem Get_Free_Blocks_takes s n :
  alloc_ok (file s) -> 0 <= n <= zlen (free_blocks (file s)) ->
  word_after_array (take (Z.to_nat n) (free_blocks (file s))) = 0 ->
  exists m', Get_Free_Blocks n s = Ok (Some (take (Z.to_nat n) (free_blocks (file s))), with_file m' s) /\
    NoDup (take (Z.to_nat n) (free_blocks (file s))) /\
    free_blocks m' = drop (Z.to_nat n) (free_blocks (file s)) /\ alloc_ok m' /\
    (forall x, ~ metadata (file s) x -> in_range SuperBlock.TOTAL_UNALLOCATED_BLOCKS 4 x = false ->
       (forall b, b ∈ take (Z.to_nat n) (free_blocks (file s)) -> ~ in_block b x) ->
       m' x = file s x).
Proof.
  intros Hok Hn Hafter. destruct (Get_Free_Blocks_ok s n Hok Hn Hafter) as (m' & Hrun & [H1 H2 H3 H4 H5]).
  exists m'. split_and!; [done|done| |done|done].
  rewrite <- (take_drop (Z.to_nat n) (free_blocks (file s))) in H2 at 1. by apply app_inv_head in H2.
Qed.

(** with fewer free blocks than asked for, [Get_Free_Blocks] answers
    NULL, sets errno to ENOSPC and changes nothing else. *)
Lemma Get_Free_Blocks_ENOSPC s n :
  alloc_ok (file s) -> zlen (free_blocks (file s)) < n ->
  Get_Free_Blocks n s = Ok (None, with_errno ENOSPC s).
Proof.
  intros Hok Hn. unfold Get_Free_Blocks. cbv [get_file gets]. erewrite bind_ok by reflexivity.
  rewrite (al_total _ Hok), Z.gtb_ltb, (proj2 (Z.ltb_lt _ _)) by lia. done.
Qed.

(** ** Release *)

Lemma free_from_app m g n k :
  0 <= n -> 0 <= k -> free_from m g (n + k) = free_from m g n ++ free_from m (g + n) k.
Proof.
  intros Hn Hk. unfold free_from. by rewrite seqZ_app, fmap_app, list.join_app by done.
Qed.

Lemma free_from_len m g n :
  layout_ok m -> 0 <= n -> zlen (free_from m g n) <= n * BLOCKS_PER_GROUP.
Proof.
  intros Hl Hn. revert n Hn g. refine (natlike_ind _ _ _); [done|].
  intros n Hn IH g. replace (Z.succ n) with (1 + n) by lia. rewrite free_from_S, zlen_app by done.
  specialize (IH (g + 1)). pose proof (group_free_len m g Hl).
  unfold zlen at 1. rewrite length_fmap. fold (zlen (group_free m g)). lia.
Qed.

(** One group changes. *)
Lemma free_blocks_one_group m m' g l :
  in_groups g ->
  (forall g', in_groups g' -> g' <> g -> group_free m' g' = group_free m g') ->
  group_free m' g ≡ₚ l ++ group_free m g ->
  free_blocks m' ≡ₚ (block_of g <$> l) ++ free_blocks m.
Proof.
  intros Hg Ho Hp. unfold free_blocks. unfold in_groups in *.
  replace TOTAL_GROUPS with (g + (1 + (TOTAL_GROUPS - g - 1))) by lia.
  rewrite !(free_from_app _ 0 g), !free_from_S by lia.
  rewrite (free_from_ext m m' 0), (free_from_ext m m' (0 + g + 1)) by (intros; apply Ho; lia).
  rewrite Z.add_0_l, Hp, fmap_app, <- !app_assoc. rewrite !app_assoc.
  do 2 f_equiv. apply Permutation_app_comm.
Qed.

(** Clearing the bit of a block in use. *)
Lemma clear_bit_group m g i (m1 := bitarray_clean_bit m (bitarray_create (block_bitmap m g) BLOCK_SIZE) i) :
  layout_ok m -> in_groups g -> 0 <= i < BLOCKS_PER_GROUP -> i ∉ group_free m g ->
  same_descriptors m m1 /\ group_free m1 g ≡ₚ [i] ++ group_free m g /\
  (forall g', in_groups g' -> g' <> g -> group_free m1 g' = group_free m g') /\
  (forall x, ~ (block_bitmap m g <= x < block_bitmap m g + BLOCK_SIZE) -> m1 x = m x).
Proof.
  intros Hl Hg Hi Hn. set (bm := bitarray_create (block_bitmap m g) BLOCK_SIZE) in *.
  assert (forall x, ~ (block_bitmap m g <= x < block_bitmap m g + BLOCK_SIZE) -> m1 x = m x) as X1.
  { intros x Hx. symmetry. apply (clean_bit_outside m bm i), in_range_false.
    pose proof (bit_byte_range m i Hl ltac:(lia)).
    change (bitarray bm) with (block_bitmap m g). lia. }
  pose proof (lo_bbm m Hl g Hg) as Hgdt.
  assert (same_descriptors m m1) as D1.
  { intros g' Hg'. pose proof (gd_below m g' Hl Hg').
    split; apply (load_ext 4); intros x ?; apply X1; lia. }
  split_and!; [done| | |done].
  - unfold group_free, free_bits. rewrite (same_block_bitmap m m1) by done. fold bm. simpl app.
    apply filter_plus_one; [apply NoDup_seqZ|by apply elem_of_seqZ| | |].
    + destruct (negb (bitarray_test_bit m bm i)) eqn:E; [|done]. exfalso. apply Hn.
      by apply list_elem_of_filter, conj, elem_of_seqZ.
    + unfold m1. rewrite test_clean_bit, bool_decide_true by done. done.
    + intros j Hj. unfold m1. rewrite test_clean_bit, bool_decide_false by done. done.
  - intros g' Hg' Hne. apply group_free_ext; [done..|]. intros x Hx. apply X1.
    pose proof (lo_bb m Hl g g' Hg Hg' ltac:(done)) as []; lia.
Qed.

(** The bit and the counter of the group. *)
Lemma release_in_group m g i (m1 := bitarray_clean_bit m (bitarray_create (block_bitmap m g) BLOCK_SIZE) i)
    (m2 := set_UNALLOCATED_BLOCKS m1 (gd g) (UNALLOCATED_BLOCKS m1 (gd g) + 1)) :
  groups_ok m -> in_groups g -> 0 <= i < BLOCKS_PER_GROUP -> i ∉ group_free m g ->
  groups_ok m2 /\ only_metadata m m2 /\ free_blocks m2 ≡ₚ block_of g i :: free_blocks m.
Proof.
  intros [Hm Hl Hc] Hg Hi Hn. destruct (clear_bit_group m g i Hl Hg Hi Hn) as (D1 & G1 & F1 & X1).
  fold m1 in D1, G1, F1, X1. pose proof (layout_same m m1 D1 Hl) as Hl1.
  assert (UNALLOCATED_BLOCKS m1 (gd g) = zlen (group_free m g)) as U1.
  { rewrite (unallocated_frame m m1 g g) by done. by apply Hc. }
  destruct (set_counter_spec m1 g (zlen (group_free m g) + 1) Hl1 Hg) as (D2 & M2 & F2 & U2 & V2 & X2).
  unfold m2. rewrite U1. clear m2. set (m2 := set_UNALLOCATED_BLOCKS m1 (gd g) (zlen (group_free m g) + 1)) in *.
  pose proof (Permutation_length G1) as Glen. rewrite length_app in Glen. cbn [length] in Glen.
  split_and!.
  - split; [by apply M2, clean_bit_mem_ok|by apply (layout_same m1)|].
    intros g' Hg'. destruct (decide (g' = g)) as [->|Hne].
    + unfold group_counted. rewrite U2, (F2 g Hg).
      pose proof (group_free_len m1 g Hl1). pose proof (lo_u16 m Hl).
      rewrite u16_small; unfold zlen in *; lia.
    + apply (counted_ext m1); [auto..|].
      apply (counted_ext m); [by apply (unallocated_frame m m1 g' g)|auto..].
  - apply (only_metadata_trans _ m1); split; [done| |done|].
    + intros x Hx. apply X1. intros H. apply Hx. right. by exists g.
    + intros x Hx. apply X2. intros H. apply Hx. left. by exists g.
  - unfold free_blocks at 1. rewrite (free_from_ext m1 m2) by (intros g' Hg'; by apply F2).
    by apply (free_blocks_one_group m m1 g [i]).
Qed.

(** The group and the index of a block. *)
Lemma block_split b :
  0 < BLOCKS_PER_GROUP -> 1 <= b <= TOTAL_GROUPS * BLOCKS_PER_GROUP ->
  let g := (b - 1) / BLOCKS_PER_GROUP in let i := (b - 1) mod BLOCKS_PER_GROUP in
  in_groups g /\ 0 <= i < BLOCKS_PER_GROUP /\ b = block_of g i.
Proof.
  intros Hbpg Hb g i. assert (BLOCKS_PER_GROUP <> 0) as Hnz by lia.
  pose proof (Z.div_mod (b - 1) BLOCKS_PER_GROUP Hnz) as Hdm. fold g i in Hdm.
  assert (0 <= i < BLOCKS_PER_GROUP) as Hi by (apply Z.mod_pos_bound; lia).
  split; [|split; [lia|unfold block_of; lia]].
  split; [apply Z.div_pos; lia|apply Z.div_lt_upper_bound; lia].
Qed.

Lemma setFreeBlockBitmap_ok s b :
  alloc_ok (file s) -> 1 <= b <= TOTAL_GROUPS * BLOCKS_PER_GROUP ->
  b ∉ free_blocks (file s) -> is_data_block (file s) b ->
  exists m', setFreeBlockBitmap b s = Ok (tt, with_file m' s) /\
    free_blocks m' ≡ₚ b :: free_blocks (file s) /\ alloc_ok m' /\ same_descriptors (file s) m' /\
    (forall x, ~ metadata (file s) x -> in_range SuperBlock.TOTAL_UNALLOCATED_BLOCKS 4 x = false ->
       m' x = file s x).
Proof.
  intros Hok Hb Hnb Hdb. pose proof Hok as [Hm Hl Hc Ht Hd]. rewrite Forall_forall in Hd.
  set (m := file s) in *. pose proof (lo_bpg m Hl) as Hbpg. pose proof (lo_blocks m Hl) as Hmax.
  destruct (block_split b ltac:(lia) Hb) as (Hg & Hi & Hbi).
  unfold setFreeBlockBitmap. cbv [get_file gets]. erewrite bind_ok by reflexivity. fold m.
  rewrite u32_small by lia. cbv zeta.
  generalize dependent ((b - 1) mod BLOCKS_PER_GROUP). generalize dependent ((b - 1) / BLOCKS_PER_GROUP).
  intros g Hg i Hi Hbi. unfold Group_Descriptor_read, deref.
  rewrite (proj2 (Z.ltb_lt _ _)) by apply Hg. erewrite bind_ok by reflexivity.
  fold (group_descriptor g). fold (block_bitmap m g).
  destruct (release_in_group m g i) as (K2 & O2 & P2); [by split|done|done| |].
  { intros Hin. apply Hnb. rewrite Hbi. apply list_elem_of_join. exists (block_of g <$> group_free m g). split.
    - by apply list_elem_of_fmap_2.
    - apply list_elem_of_fmap. exists g. split; [done|]. apply elem_of_seqZ. unfold in_groups in Hg. lia. }
  set (m2 := set_UNALLOCATED_BLOCKS _ _ _) in *.
  rewrite (only_metadata_total m m2 Hl O2), Ht.
  destruct (total_stored m2 (zlen (free_blocks m) + 1) K2) as (K3 & F3 & D3).
  set (m3 := store32 m2 _ _) in *. rewrite <- F3, <- Hbi in P2.
  pose proof (same_descriptors_trans _ _ _ (proj1 O2) D3) as D.
  pose proof (free_from_len m3 0 TOTAL_GROUPS (gr_layout _ K3) (lo_total m Hl)) as Hlen3.
  fold (free_blocks m3) in Hlen3.
  assert (zlen (free_blocks m3) = zlen (free_blocks m) + 1) as Hz.
  { unfold zlen. rewrite P2. cbn [length]. lia. }
  exists m3. split_and!; [reflexivity|done| |done|].
  - split; [apply K3..| |].
    + rewrite Hz. unfold m3. rewrite load32_store32_same. apply u32_small.
      pose proof (zlen_nonneg (free_blocks m)). lia.
    + apply Forall_forall. intros c Hc'. rewrite P2 in Hc'.
      apply (data_block_same m); [done|]. apply elem_of_cons in Hc' as [->|?]; auto.
  - intros x Hx Hsb. rewrite <- (proj2 O2 x Hx). symmetry. by apply store_same_outside.
Qed.

(** releasing a block that is in use puts it back into the list of free
    blocks and keeps the invariant of the allocator; nothing changes outside
    of the superblock's total, the counters in the descriptors and the bitmaps. *)
Lemma setFreeBlockBitmap_releases s b :
  alloc_ok (file s) -> 1 <= b <= TOTAL_GROUPS * BLOCKS_PER_GROUP ->
  b ∉ free_blocks (file s) -> is_data_block (file s) b ->
  exists m', setFreeBlockBitmap b s = Ok (tt, with_file m' s) /\
    free_blocks m' ≡ₚ b :: free_blocks (file s) /\ alloc_ok m' /\
    (forall x, ~ metadata (file s) x -> in_range SuperBlock.TOTAL_UNALLOCATED_BLOCKS 4 x = false ->
       m' x = file s x).
Proof.
  intros Hok Hb Hnb Hdb. destruct (setFreeBlockBitmap_ok s b Hok Hb Hnb Hdb) as (m' & Hrun & Hp & Hok' & _ & Hx).
  by exists m'.
Qed.
End Blocks.

(** ** Witnesses: an image of two groups of eight blocks

    Blocks 1 to 4 and 9 to 10 hold the superblock, the descriptors and the
    bitmaps; the other ten are free. *)

Definition tiny_sb : Superblock_constants := {|
  TOTAL_NUMBER_INODES_FS := 16; TOTAL_NUMBER_BLOCKS_FS := 16;
  BLOCKS_PER_GROUP := 8; INODES_PER_GROUP := 8; BLOCK_SIZE := 1024;
  TOTAL_GROUPS := 2; GDT_START := 2048 |}.

Definition tiny_image : mem :=
  let m : mem := fun _ => 0 in
  let m := store32 m SuperBlock.TOTAL_UNALLOCATED_BLOCKS 10 in
  let m := store16 (store32 (store32 m 2048 3) 2052 4) 2060 4 in
  let m := store16 (store32 (store32 m 2080 9) 2084 10) 2092 6 in
  store_byte (store_byte m 3072 15) 9216 3.

Definition tiny_server : rfs unit :=
  {| file := tiny_image; errno := 0; active_file_list := []; next_id := 0;
     fs_sleep := 0; writes_to_sync := 0; memc := tt |}.

Ltac tiny_groups :=
  intros; repeat match goal with
  | H : @in_groups tiny_sb ?g |- _ =>
      let H' := fresh in
      assert (H' : g = 0 \/ g = 1) by (cbv [in_groups TOTAL_GROUPS tiny_sb] in H; lia);
      clear H; destruct H' as [->| ->]
  end.

Lemma tiny_data_block b :
  @is_data_block tiny_sb tiny_image b <->
  2112 <= u32 (b * 1024) /\
  Forall (fun a => apart (u32 (b * 1024)) 1024 a 1024) [3072; 9216; 4096; 10240].
Proof.
  unfold is_data_block. rewrite !Forall_cons, Forall_nil. split.
  - intros (H1 & H2 & H3). split; [done|].
    pose proof (H2 0 ltac:(split; vm_compute; congruence)).
    pose proof (H2 1 ltac:(split; vm_compute; congruence)).
    pose proof (H3 0 ltac:(split; vm_compute; congruence)).
    pose proof (H3 1 ltac:(split; vm_compute; congruence)). done.
  - intros (H1 & H2 & H3 & H4 & H5 & _). split_and!; [done|..]; tiny_groups; done.
Defined.

Ltac tiny_aparts :=
  repeat first [apply Forall_nil_2 | apply Forall_cons_2 | split];
  vm_compute; congruence || (left; congruence) || (right; congruence).

Lemma tiny_alloc_ok : @alloc_ok tiny_sb tiny_image.
Proof.
  split.
  - unfold tiny_image. repeat (apply store_byte_mem_ok || apply store_mem_ok). intros a. lia.
  - split.
    1-6: try split; vm_compute; congruence.
    all: tiny_groups; try congruence;
      vm_compute; congruence || (left; congruence) || (right; congruence) || reflexivity.
  - tiny_groups; vm_compute; reflexivity.
  - vm_compute; reflexivity.
  - replace (@free_blocks tiny_sb tiny_image) with [5; 6; 7; 8; 11; 12; 13; 14; 15; 16]
      by (vm_compute; reflexivity).
    eapply Forall_impl; [|intros b; apply (proj2 (tiny_data_block b))]; simpl.
    tiny_aparts.
Defined.

#[local] Instance tiny_word_after : Word_after_array := fun _ => 0.

Lemma Get_Free_Blocks_takes_witness :
  exists m', @Get_Free_Blocks tiny_sb tiny_word_after unit 5 tiny_server =
    Ok (Some [5; 6; 7; 8; 11], with_file m' tiny_server) /\
    @free_blocks tiny_sb m' = [12; 13; 14; 15; 16].
Proof.
  destruct (@Get_Free_Blocks_takes tiny_sb tiny_word_after unit tiny_server 5 tiny_alloc_ok)
    as (m' & Hrun & _ & Hf & _).
  - vm_compute; split; congruence.
  - reflexivity.
  - exists m'. split; [exact Hrun|exact Hf].
Defined.

Lemma Get_Free_Blocks_ENOSPC_witness :
  @Get_Free_Blocks tiny_sb tiny_word_after unit 11 tiny_server =
  Ok (None, with_errno ENOSPC tiny_server).
Proof.
  exact (@Get_Free_Blocks_ENOSPC tiny_sb tiny_word_after unit tiny_server 11 tiny_alloc_ok
           ltac:(vm_compute; reflexivity)).
Defined.

(** The image with the blocks 5 and 6 in use. *)
Definition tiny_used : rfs unit :=
  match @Get_Free_Blocks tiny_sb tiny_word_after unit 2 tiny_server with
  | Ok (_, s) => s
  | Fail _ => tiny_server
  end.

Lemma setFreeBlockBitmap_releases_witness :
  exists m', @setFreeBlockBitmap tiny_sb unit 6 tiny_used = Ok (tt, with_file m' tiny_used) /\
    @free_blocks tiny_sb m' ≡ₚ 6 :: [7; 8; 11; 12; 13; 14; 15; 16].
Proof.
  destruct (@Get_Free_Blocks_ok tiny_sb tiny_word_after unit tiny_server 2 tiny_alloc_ok)
    as (m1 & Hrun & [_ Hf Hok _ _]); [vm_compute; split; congruence|reflexivity|].
  assert (tiny_used = with_file m1 tiny_server) as E by (unfold tiny_used; by rewrite Hrun).
  assert (@free_blocks tiny_sb (file tiny_used) = [7; 8; 11; 12; 13; 14; 15; 16]) as Hf'.
  { rewrite E. exact (app_inv_head [5; 6] _ _ (eq_sym Hf)). }
  destruct (@setFreeBlockBitmap_releases tiny_sb unit tiny_used 6) as (m' & Hrun' & Hp & _).
  - rewrite E. exact Hok.
  - vm_compute; split; congruence.
  - rewrite Hf'. intros H. repeat (apply elem_of_cons in H as [H|H]; [discriminate H|]).
    by apply not_elem_of_nil in H.
  - apply (@data_block_same tiny_sb tiny_image); [|apply tiny_data_block].
    + intros g Hg. tiny_groups; vm_compute; split; reflexivity.
    + tiny_aparts.
  - exists m'. split; [exact Hrun'|]. by rewrite <- Hf'.
Defined.
