(* ===== verification/InodeAlloc.v ===== *)
(** * InodeAlloc: the allocator of inodes

    The abstract state is the list of the numbers of the free inodes, in
    order.  [Get_Free_Inodes], as it is called, for one inode, takes the
    first, and [setFreeInodeBitmap] puts one back; the counters of the groups
    and of the superblock stay equal to the numbers of free inodes, and the
    allocator of blocks is not touched. *)

From S2P Require Import Prelude Memory Bitarray Ext2 Ext2Facts CString Paths Rfs Alloc AllocFacts.

Section Inodes.
Context {Super_constants : Superblock_constants} {WA : Word_after_array} {C : Type}.
Abbreviation R := (rfs C).
Abbreviation gd := group_descriptor.
Implicit Types (m : mem) (s : R) (g : Z).

(** ** The abstract state *)

Definition inode_bits m g : t_bitarray := bitarray_create (inode_bitmap m g) BLOCK_SIZE.
Definition inode_free m g : list Z := free_bits m (inode_bits m g) 0 INODES_PER_GROUP.
Definition inode_of g i : Z := g * INODES_PER_GROUP + i + 1.
Definition free_inodes_from m g n : list Z := mjoin ((fun g => inode_of g <$> inode_free m g) <$> seqZ g n).
Definition free_inodes m : list Z := free_inodes_from m 0 TOTAL_GROUPS.

(** The state while an inode is taken or given back. *)
Record inode_groups_ok m : Prop := {
  io_alloc : alloc_ok m;
  io_ipg : 0 < INODES_PER_GROUP <= 8 * BLOCK_SIZE;
  io_u16 : INODES_PER_GROUP < 2 ^ 16;
  io_max : TOTAL_GROUPS * INODES_PER_GROUP < 2 ^ 32;
  io_groups : forall g, in_groups g -> UNALLOCATED_INODES m (gd g) = zlen (inode_free m g)
}.

Record inodes_ok m : Prop := {
  io_ok : inode_groups_ok m;
  io_total : load32 m SuperBlock.TOTAL_UNALLOCATED_INODES = zlen (free_inodes m)
}.

(** The bytes that the allocation of inodes may write. *)
Definition inode_metadata m (x : Z) : Prop :=
  SuperBlock.TOTAL_UNALLOCATED_INODES <= x < SuperBlock.TOTAL_UNALLOCATED_INODES + 4 \/
  (exists g, in_groups g /\ gd g + 14 <= x < gd g + 16) \/
  (exists g, in_groups g /\ inode_bitmap m g <= x < inode_bitmap m g + BLOCK_SIZE).

(** ** What is not touched *)

Lemma inode_metadata_descriptor m g k :
  layout_ok m -> in_groups g -> 0 <= k -> k + 4 <= 14 ->
  forall x, gd g + k <= x < gd g + k + 4 -> ~ inode_metadata m x.
Proof.
  intros Hl Hg Hk Hk' x Hx H. unfold inode_metadata in H. pose proof (gd_below m g Hl Hg). pose proof (total_low m Hl).
  unfold SuperBlock.TOTAL_UNALLOCATED_INODES, SuperBlock.TOTAL_UNALLOCATED_BLOCKS, SUPERBLOCK_START in *.
  destruct H as [H|[(g' & Hg' & H)|(g' & Hg' & H)]].
  - pose proof (lo_gdt m Hl). lia.
  - unfold group_descriptor, sizeof_Group_Descriptor, in_groups in *. lia.
  - pose proof (lo_ibm m Hl g' Hg'). lia.
Qed.

(** The tables of inodes stay where they are. *)
Definition same_tables m m' : Prop :=
  forall g, in_groups g -> START_INODE_TABLE m' (gd g) = START_INODE_TABLE m (gd g).

Lemma inode_frame m m' :
  layout_ok m -> (forall x, ~ inode_metadata m x -> m' x = m x) ->
  same_descriptors m m' /\ same_tables m m' /\
  (forall g, in_groups g -> group_free m' g = group_free m g) /\
  (forall g, in_groups g -> UNALLOCATED_BLOCKS m' (gd g) = UNALLOCATED_BLOCKS m (gd g)) /\
  load32 m' SuperBlock.TOTAL_UNALLOCATED_BLOCKS = load32 m SuperBlock.TOTAL_UNALLOCATED_BLOCKS.
Proof.
  intros Hl Hx.
  assert (same_descriptors m m') as Hd.
  { intros g Hg. split; apply (load_ext 4); intros x Hr; apply Hx;
      [apply (inode_metadata_descriptor m g 0)|apply (inode_metadata_descriptor m g 4)]; try done; lia. }
  split_and!; [done| | | |].
  - intros g Hg. apply (load_ext 4). intros x Hr. apply Hx. by apply (inode_metadata_descriptor m g 8).
  - intros g Hg. apply group_free_ext; [done..|]. intros x Hr. apply Hx.
    intros [H|[(g' & Hg' & H)|(g' & Hg' & H)]].
    + pose proof (lo_bbm m Hl g Hg). pose proof (total_low m Hl).
      unfold SuperBlock.TOTAL_UNALLOCATED_INODES, SUPERBLOCK_START in H.
      pose proof (lo_gdt m Hl). lia.
    + pose proof (lo_bbm m Hl g Hg). pose proof (gd_below m g' Hl Hg'). lia.
    + destruct (lo_bi m Hl g g' Hg Hg'); lia.
  - intros g Hg. apply (load_ext 2). intros x Hr. apply Hx.
    apply (inode_metadata_descriptor m g 10); try done; lia.
  - apply (load_ext 4). intros x Hr. apply Hx. pose proof (total_low m Hl) as [Ht Hge].
    unfold SuperBlock.TOTAL_UNALLOCATED_BLOCKS, SUPERBLOCK_START in *.
    intros [H|[(g' & Hg' & H)|(g' & Hg' & H)]].
    + unfold SuperBlock.TOTAL_UNALLOCATED_INODES, SUPERBLOCK_START in *. lia.
    + pose proof (gd_below m g' Hl Hg'). lia.
    + pose proof (lo_ibm m Hl g' Hg'). lia.
Qed.

Lemma alloc_ok_frame m m' :
  alloc_ok m -> mem_ok m' -> (forall x, ~ inode_metadata m x -> m' x = m x) ->
  alloc_ok m' /\ free_blocks m' = free_blocks m.
Proof.
  intros [Hm Hl Hc Ht Hd] Hm' Hx. destruct (inode_frame m m' Hl Hx) as (D & _ & F & U & T).
  assert (free_blocks m' = free_blocks m) as E by (apply free_from_ext; intros g Hg; apply F; unfold in_groups; lia).
  split; [|done]. split; [done|by apply (layout_same m)| |by rewrite T, E|].
  - intros g Hg. apply (counted_ext m); auto.
  - rewrite E. eapply Forall_impl; [exact Hd|]. intros b. by apply data_block_same.
Qed.

(** ** The bits of a group *)

Lemma inode_bit_range m i : inode_groups_ok m -> 0 <= i < INODES_PER_GROUP -> 0 <= i / 8 < BLOCK_SIZE.
Proof.
  intros Hio Hi. pose proof (io_ipg m Hio). split; [apply Z.div_pos; lia|apply Z.div_lt_upper_bound; lia].
Qed.

Lemma inode_free_ext m m' g :
  0 < INODES_PER_GROUP <= 8 * BLOCK_SIZE -> in_groups g -> same_descriptors m m' ->
  (forall x, inode_bitmap m g <= x < inode_bitmap m g + BLOCK_SIZE -> m' x = m x) ->
  inode_free m' g = inode_free m g.
Proof.
  intros Hipg Hg Hs Hx. unfold inode_free, inode_bits, free_bits. rewrite (same_inode_bitmap m m') by done.
  apply filter_bool_ext. intros i Hi%elem_of_seqZ.
  f_equal. apply test_bit_ext. simpl. apply Hx.
  assert (0 <= i / 8 < BLOCK_SIZE) by (split; [apply Z.div_pos; lia|apply Z.div_lt_upper_bound; lia]). lia.
Qed.

Lemma free_inodes_ext m m' g n :
  (forall g', g <= g' < g + n -> inode_free m' g' = inode_free m g') ->
  free_inodes_from m' g n = free_inodes_from m g n.
Proof.
  intros H. unfold free_inodes_from. f_equal. apply list_fmap_ext.
  intros i g' Hg'. apply lookup_seqZ in Hg'. rewrite H by lia. done.
Qed.

Lemma free_inodes_app m g n k :
  0 <= n -> 0 <= k -> free_inodes_from m g (n + k) = free_inodes_from m g n ++ free_inodes_from m (g + n) k.
Proof. intros Hn Hk. unfold free_inodes_from. by rewrite seqZ_app, fmap_app, list.join_app by done. Qed.

Lemma free_inodes_S m g n :
  0 <= n -> free_inodes_from m g (1 + n) = (inode_of g <$> inode_free m g) ++ free_inodes_from m (g + 1) n.
Proof.
  intros Hn. rewrite free_inodes_app by lia. f_equal. unfold free_inodes_from.
  change (seqZ g 1) with [0 + g]. rewrite Z.add_0_l. cbn. by rewrite app_nil_r.
Qed.

Lemma inode_free_elem m g i : i ∈ inode_free m g -> 0 <= i < INODES_PER_GROUP.
Proof. intros [_ Hi%elem_of_seqZ]%list_elem_of_filter. lia. Qed.

(** The first group with a free inode. *)
Lemma first_free m n g x rest :
  free_inodes_from m g (Z.of_nat n) = x :: rest ->
  exists k i l, 0 <= k < Z.of_nat n /\ (forall g', g <= g' < g + k -> inode_free m g' = []) /\
    inode_free m (g + k) = i :: l /\ x = inode_of (g + k) i.
Proof.
  revert g. induction n as [|n IH]; intros g Hf; [done|].
  replace (Z.of_nat (S n)) with (1 + Z.of_nat n) in Hf by lia. rewrite free_inodes_S in Hf by lia.
  destruct (inode_free m g) as [|i l] eqn:E.
  - destruct (IH (g + 1) Hf) as (k & i & l & Hk & Hbefore & Hat & Hx).
    exists (1 + k), i, l. rewrite Z.add_assoc. split_and!; try lia; try done.
    intros g' Hg'. destruct (decide (g' = g)) as [->|]; [done|]. apply Hbefore. lia.
  - injection Hf as Hx _. exists 0, i, l. rewrite Z.add_0_r. split_and!; [lia|lia|lia|done|done].
Qed.

(** ** One group *)

(** The counter of a group. *)
Lemma inode_counter m g v (m' := set_UNALLOCATED_INODES m (gd g) v) :
  inode_groups_ok m -> in_groups g ->
  (mem_ok m -> mem_ok m') /\ UNALLOCATED_INODES m' (gd g) = u16 v /\
  (forall g', in_groups g' -> g' <> g -> UNALLOCATED_INODES m' (gd g') = UNALLOCATED_INODES m (gd g')) /\
  (forall g', in_groups g' -> inode_free m' g' = inode_free m g') /\
  (forall x, ~ inode_metadata m x -> m' x = m x) /\
  (forall x, ~ (gd g + 14 <= x < gd g + 16) -> m' x = m x).
Proof.
  intros Hio Hg. pose proof (al_layout m (io_alloc m Hio)) as Hl.
  assert (forall x, ~ (gd g + 14 <= x < gd g + 16) -> m' x = m x) as Hx.
  { intros x Hx. symmetry. apply store_same_outside, in_range_false. lia. }
  assert (forall x, ~ inode_metadata m x -> m' x = m x) as Hx'.
  { intros x Hn. apply Hx. intros H. apply Hn. right. left. by exists g. }
  destruct (inode_frame m m' Hl Hx') as (D & _).
  split_and!; [apply store_mem_ok|apply load16_store16_same| | |done|done].
  - intros g' Hg' Hne. apply (load_ext 2). intros x Hr. apply Hx.
    unfold group_descriptor, sizeof_Group_Descriptor in *. lia.
  - intros g' Hg'. apply inode_free_ext; [apply (io_ipg m Hio)|done|done|]. intros x Hr. apply Hx.
    pose proof (lo_ibm m Hl g' Hg'). pose proof (gd_below m g Hl Hg). lia.
Qed.

(** A change of the bitmap of a group. *)
Lemma inode_bitmap_frame m m' g :
  inode_groups_ok m -> in_groups g ->
  (forall x, ~ (inode_bitmap m g <= x < inode_bitmap m g + BLOCK_SIZE) -> m' x = m x) ->
  (forall g', in_groups g' -> UNALLOCATED_INODES m' (gd g') = UNALLOCATED_INODES m (gd g')) /\
  (forall g', in_groups g' -> g' <> g -> inode_free m' g' = inode_free m g') /\
  (forall x, ~ inode_metadata m x -> m' x = m x).
Proof.
  intros Hio Hg Hx. pose proof (al_layout m (io_alloc m Hio)) as Hl.
  assert (forall x, ~ inode_metadata m x -> m' x = m x) as Hx'.
  { intros x Hn. apply Hx. intros H. apply Hn. right. right. by exists g. }
  destruct (inode_frame m m' Hl Hx') as (D & _). split_and!; [| |done].
  - intros g' Hg'. apply (load_ext 2). intros x Hr. apply Hx.
    pose proof (lo_ibm m Hl g Hg). pose proof (gd_below m g' Hl Hg'). lia.
  - intros g' Hg' Hne. apply inode_free_ext; [apply (io_ipg m Hio)|done|done|]. intros x Hr. apply Hx.
    destruct (lo_ii m Hl g g' Hg Hg' ltac:(done)); lia.
Qed.

(** The loop that looks for one bit finds the first one. *)
Lemma free_bits_first limit n var bm number m i l :
  (n <= limit)%nat -> free_bits m bm var (Z.of_nat n) = i :: l ->
  free_bits_loop (Datatypes.S limit) var 1 bm number m [] = ([number i], bitarray_set_bit m bm i).
Proof.
  revert limit var. induction n as [|n IH]; intros limit var Hn Hf; [done|].
  destruct limit as [|limit]; [lia|].
  assert (free_bits m bm var (Z.of_nat (S n)) =
    (if negb (bitarray_test_bit m bm var) then [var] else []) ++ free_bits m bm (var + 1) (Z.of_nat n)) as E.
  { unfold free_bits. replace (Z.of_nat (S n)) with (1 + Z.of_nat n) by lia.
    rewrite seqZ_app by lia. rewrite filter_app. f_equal.
    change (seqZ var 1) with [0 + var]. rewrite Z.add_0_l, filter_cons, filter_nil. by destruct (negb _). }
  rewrite E in Hf. cbn [free_bits_loop]. change (zlen (@nil Z) <? 1) with true. cbv iota.
  destruct (negb (bitarray_test_bit m bm var)).
  - injection Hf as <- _. cbn [app]. done.
  - apply (IH limit (var + 1)); [lia|done].
Qed.

(** The group's first free inode is taken. *)
Lemma inode_turn_spec s g i l :
  inode_groups_ok (file s) -> in_groups g -> inode_free (file s) g = i :: l ->
  exists m', Get_Free_Inodes_turn g 1 0 [0] s = Ok ((0, 0, [inode_of g i]), with_file m' s) /\
    mem_ok m' /\ inode_free m' g = l /\ UNALLOCATED_INODES m' (gd g) = zlen l /\
    (forall g', in_groups g' -> g' <> g -> inode_free m' g' = inode_free (file s) g' /\
       UNALLOCATED_INODES m' (gd g') = UNALLOCATED_INODES (file s) (gd g')) /\
    (forall x, ~ inode_metadata (file s) x -> m' x = file s x) /\
    load32 m' SuperBlock.TOTAL_UNALLOCATED_INODES = load32 (file s) SuperBlock.TOTAL_UNALLOCATED_INODES.
Proof.
  intros Hio Hg Hf. set (m := file s) in *. pose proof (io_groups m Hio g Hg) as Hu.
  pose proof (al_layout m (io_alloc m Hio)) as Hl. pose proof (io_ipg m Hio) as Hipg. pose proof (io_u16 m Hio).
  assert (0 <= i < INODES_PER_GROUP) as Hi by (apply (inode_free_elem m g); rewrite Hf; by left).
  assert (zlen l < INODES_PER_GROUP) as Hlen.
  { pose proof (length_filter (fun i => negb (bitarray_test_bit m (inode_bits m g) i) = true)
      (seqZ 0 INODES_PER_GROUP)) as Hlf. rewrite length_seqZ in Hlf.
    unfold inode_free, free_bits in Hf. rewrite Hf in Hlf. unfold zlen. simpl in Hlf. lia. }
  pose proof (zlen_nonneg l) as Hpos. rewrite Hf, zlen_cons in Hu.
  destruct (inode_counter m g (zlen l) Hio Hg) as (M1 & U1 & O1 & F1 & X1 & Y1).
  set (m1 := set_UNALLOCATED_INODES m (gd g) (zlen l)) in *.
  destruct (inode_frame m m1 Hl X1) as (D1 & _).
  assert (inode_bits m1 g = inode_bits m g) as Eb by (unfold inode_bits; by rewrite (same_inode_bitmap m m1)).
  set (m2 := bitarray_set_bit m1 (inode_bits m g) i).
  assert (forall x, ~ (inode_bitmap m g <= x < inode_bitmap m g + BLOCK_SIZE) -> m2 x = m1 x) as X2.
  { intros x Hx. symmetry. apply (set_bit_outside m1 (inode_bits m g) i), in_range_false.
    pose proof (inode_bit_range m i Hio Hi). change (bitarray (inode_bits m g)) with (inode_bitmap m g). lia. }
  assert (forall x, ~ inode_metadata m x -> m2 x = m x) as X.
  { intros x Hx. rewrite X2; [by apply X1|]. intros H'. apply Hx. right. right. by exists g. }
  destruct (inode_frame m m2 Hl X) as (D2 & _).
  exists m2. split_and!.
  - unfold Get_Free_Inodes_turn. cbv [get_file gets mbind M_bind]. fold m. rewrite Hu.
    rewrite (proj2 (Z.leb_le _ _)) by lia. replace (1 + zlen l - 1) with (zlen l) by lia. fold m1.
    unfold Get_Free_Inodes_In_Group. fold (inode_bitmap m1 g) (inode_bits m1 g).
    rewrite (free_bits_first _ (Z.to_nat INODES_PER_GROUP) _ _ _ m1 i l); [|lia|].
    2: { rewrite Z2Nat.id by lia. fold (inode_free m1 g). by rewrite F1. }
    rewrite Eb. fold m2. unfold put_file, modify. cbn. unfold inode_of. rewrite u32_small; [done|].
    pose proof (io_max m Hio). unfold in_groups in Hg. nia.
  - apply set_bit_mem_ok, M1, (al_mem m (io_alloc m Hio)).
  - unfold inode_free at 1, inode_bits. rewrite (same_inode_bitmap m m2) by done. fold (inode_bits m g).
    unfold free_bits. rewrite (filter_minus_take (fun j => negb (bitarray_test_bit m1 (inode_bits m g) j)) 1).
    + rewrite <- Eb. fold (free_bits m1 (inode_bits m1 g) 0 INODES_PER_GROUP) (inode_free m1 g). by rewrite F1, Hf.
    + apply NoDup_seqZ.
    + intros j _. unfold m2. rewrite test_set_bit, negb_orb.
      rewrite <- Eb. fold (free_bits m1 (inode_bits m1 g) 0 INODES_PER_GROUP) (inode_free m1 g). rewrite F1, Hf by done.
      simpl. rewrite andb_comm. f_equal. f_equal. apply bool_decide_ext. rewrite list_elem_of_singleton. split; congruence.
  - rewrite <- (u16_small (zlen l)) by lia. rewrite <- U1. apply (load_ext 2). intros x Hx. apply X2.
    pose proof (gd_below m g Hl Hg). pose proof (lo_ibm m Hl g Hg). lia.
  - intros g' Hg' Hne. split.
    + transitivity (inode_free m1 g'); [|by apply F1].
      apply inode_free_ext; [done|done| |].
      * intros g0 Hg0. destruct (D1 g0 Hg0), (D2 g0 Hg0). split; congruence.
      * intros x Hx. apply X2. rewrite (same_inode_bitmap m m1) in Hx by done.
        destruct (lo_ii m Hl g g' Hg Hg' ltac:(done)); lia.
    + transitivity (UNALLOCATED_INODES m1 (gd g')); [|by apply O1].
      apply (load_ext 2). intros x Hx. apply X2.
      pose proof (gd_below m g' Hl Hg'). pose proof (lo_ibm m Hl g Hg). lia.
  - done.
  - pose proof (total_low m Hl) as [Ht Hge]. 
    unfold SuperBlock.TOTAL_UNALLOCATED_INODES, SuperBlock.TOTAL_UNALLOCATED_BLOCKS, SUPERBLOCK_START in *.
    pose proof (lo_gdt m Hl). pose proof (gd_below m g Hl Hg). pose proof (lo_ibm m Hl g Hg).
    transitivity (load32 m1 (1024 + 16)); apply (load_ext 4); intros x Hx; [apply X2|apply Y1]; lia.
Qed.

(** The loop over the groups stops at the first one with a free inode. *)
Lemma inode_loop_spec n g k s :
  inode_groups_ok (file s) -> (0 < n)%nat -> 0 <= g -> 0 <= k < Z.of_nat n -> g + Z.of_nat n <= TOTAL_GROUPS ->
  (forall g', g <= g' < g + k -> inode_free (file s) g' = []) ->
  forall r s', Get_Free_Inodes_turn (g + k) 1 0 [0] s = Ok ((0, 0, r), s') ->
  Get_Free_Inodes_loop n g 1 0 [0] s = Ok (r, s').
Proof.
  intros Hio. revert g k. induction n as [|n IH]; intros g k Hn Hg Hk Hend Hempty r s' Hrun; [lia|].
  cbn [Get_Free_Inodes_loop]. change (1 >? 0) with true. cbv iota.
  destruct (decide (k = 0)) as [->|Hk0].
  - rewrite Z.add_0_r in Hrun. rewrite (bind_ok _ _ _ _ _ Hrun). by destruct n.
  - rewrite (bind_ok _ _ s (1, 0, [0]) s).
    + apply (IH (g + 1) (k - 1)); [lia|lia|lia|lia| |].
      * intros g' Hg'. apply Hempty. lia.
      * replace (g + 1 + (k - 1)) with (g + k) by lia. done.
    + unfold Get_Free_Inodes_turn. rewrite (bind_ok _ _ s (file s) s) by done.
      rewrite (io_groups (file s) Hio g), (Hempty g) by (unfold in_groups; lia). done.
Qed.

(** From [m] the inode [x] was taken, or given back. *)
Record inodes_moved m m' : Prop := {
  im_ok : inodes_ok m';
  im_blocks : free_blocks m' = free_blocks m;
  im_descriptors : same_descriptors m m';
  im_tables : same_tables m m';
  im_frame : forall x, ~ inode_metadata m x -> m' x = m x
}.

Lemma inode_metadata_same m m' x : same_descriptors m m' -> inode_metadata m' x -> inode_metadata m x.
Proof.
  intros Hd [H|[H|(g & Hg & H)]]; [by left|right; by left|]. right. right. exists g.
  by rewrite <- (same_inode_bitmap m m').
Qed.

(** Everything else of the state follows from the bytes that stay. *)
Lemma inode_groups_frame m m' :
  inode_groups_ok m -> mem_ok m' -> (forall x, ~ inode_metadata m x -> m' x = m x) ->
  (forall g, in_groups g -> UNALLOCATED_INODES m' (gd g) = zlen (inode_free m' g)) -> inode_groups_ok m'.
Proof. intros [] Hm' Hx Hu. split; try done. by apply (alloc_ok_frame m m'). Qed.

Lemma inode_groups_moved m m' :
  inode_groups_ok m -> inodes_ok m' -> (forall x, ~ inode_metadata m x -> m' x = m x) -> inodes_moved m m'.
Proof.
  intros Hio Hok Hx. destruct (inode_frame m m' (al_layout m (io_alloc m Hio)) Hx) as (D & T & _).
  split; try done. apply (alloc_ok_frame m m'); [apply Hio|apply Hok|done].
Qed.

(** A new total. *)
Lemma inodes_total m v (m0 := store32 m SuperBlock.TOTAL_UNALLOCATED_INODES v) :
  inode_groups_ok m ->
  inode_groups_ok m0 /\ free_inodes m0 = free_inodes m /\
  (forall g, in_groups g -> inode_free m0 g = inode_free m g) /\
  (forall x, ~ inode_metadata m x -> m0 x = m x) /\ same_descriptors m m0.
Proof.
  intros Hio. pose proof (al_layout m (io_alloc m Hio)) as Hl.
  assert (forall x, in_range SuperBlock.TOTAL_UNALLOCATED_INODES 4 x = false -> m0 x = m x) as Y.
  { intros x Hx. symmetry. by apply store_same_outside. }
  assert (forall x, ~ inode_metadata m x -> m0 x = m x) as X.
  { intros x Hx. apply Y, in_range_false. intros Hr. apply Hx. by left. }
  destruct (inode_frame m m0 Hl X) as (D & _). pose proof (total_low m Hl) as [Ht Hge].
  assert (forall x, GDT_START <= x -> m0 x = m x) as Yg.
  { intros x Hx. apply Y, in_range_false. pose proof (lo_gdt m Hl).
    unfold SuperBlock.TOTAL_UNALLOCATED_INODES, SUPERBLOCK_START. lia. }
  assert (forall g, in_groups g -> inode_free m0 g = inode_free m g) as F.
  { intros g Hg. apply inode_free_ext; [apply (io_ipg m Hio)|done|done|].
    intros x Hx. apply Yg. pose proof (lo_ibm m Hl g Hg). lia. }
  split_and!; [|apply free_inodes_ext; intros g Hg; apply F; unfold in_groups; lia|done|done|done].
  apply (inode_groups_frame m); [done|apply store_mem_ok, (al_mem m (io_alloc m Hio))|done|].
  intros g Hg. rewrite F by done. rewrite <- (io_groups m Hio g Hg). apply (load_ext 2). intros x Hx. apply Yg.
  pose proof (gd_below m g Hl Hg). lia.
Qed.

Lemma free_inodes_none m g n :
  0 <= n -> (forall g', g <= g' < g + n -> inode_free m g' = []) -> free_inodes_from m g n = [].
Proof.
  intros Hn. revert n Hn g. refine (natlike_ind _ _ _); [done|].
  intros n Hn IH g He. replace (Z.succ n) with (1 + n) by lia.
  rewrite free_inodes_S, He, IH by (try done; try lia; intros; apply He; lia). done.
Qed.

Lemma free_inodes_len m g n :
  0 <= n -> 0 <= INODES_PER_GROUP -> zlen (free_inodes_from m g n) <= n * INODES_PER_GROUP.
Proof.
  intros Hn Hi. revert n Hn g. refine (natlike_ind _ _ _); [done|].
  intros n Hn IH g. replace (Z.succ n) with (1 + n) by lia. rewrite free_inodes_S, zlen_app by done.
  specialize (IH (g + 1)).
  assert (zlen (inode_of g <$> inode_free m g) <= INODES_PER_GROUP).
  { pose proof (length_filter (fun i => negb (bitarray_test_bit m (inode_bits m g) i) = true)
      (seqZ 0 INODES_PER_GROUP)) as Hlf. rewrite length_seqZ in Hlf.
    unfold zlen. rewrite length_fmap. unfold inode_free, free_bits. lia. }
  lia.
Qed.

Lemma free_inodes_from_range m g n x :
  0 <= n -> 0 <= INODES_PER_GROUP -> x ∈ free_inodes_from m g n ->
  g * INODES_PER_GROUP + 1 <= x <= (g + n) * INODES_PER_GROUP.
Proof.
  intros Hn Hp. revert n Hn g. refine (natlike_ind _ _ _); [by intros g []%not_elem_of_nil|].
  intros n Hn IH g. replace (Z.succ n) with (1 + n) by lia. rewrite free_inodes_S by done.
  intros [(i & -> & Hi%inode_free_elem)%list_elem_of_fmap|Hx%IH]%elem_of_app; unfold inode_of; nia.
Qed.

Lemma free_inodes_from_nodup m g n : 0 <= n -> 0 <= INODES_PER_GROUP -> NoDup (free_inodes_from m g n).
Proof.
  intros Hn Hp. revert n Hn g. refine (natlike_ind _ _ _); [intros; apply NoDup_nil_2|].
  intros n Hn IH g. replace (Z.succ n) with (1 + n) by lia. rewrite free_inodes_S by done.
  apply NoDup_app. split_and!; [|intros x (i & -> & Hi%inode_free_elem)%list_elem_of_fmap Hin|apply IH].
  - apply NoDup_fmap_2_strong; [unfold inode_of; intros; lia|apply NoDup_filter, NoDup_seqZ].
  - apply free_inodes_from_range in Hin; [|done..]. unfold inode_of in Hin. lia.
Qed.

(** The numbers of inodes are in range, and an inode is free once. *)
Lemma free_inode_range m x :
  inode_groups_ok m -> x ∈ free_inodes m -> 1 <= x <= TOTAL_GROUPS * INODES_PER_GROUP.
Proof.
  intros Hio Hx. pose proof (lo_total m (al_layout m (io_alloc m Hio))). pose proof (io_ipg m Hio).
  apply free_inodes_from_range in Hx; lia.
Qed.

Lemma free_inodes_nodup m : inode_groups_ok m -> NoDup (free_inodes m).
Proof.
  intros Hio. pose proof (lo_total m (al_layout m (io_alloc m Hio))). pose proof (io_ipg m Hio).
  apply free_inodes_from_nodup; lia.
Qed.

Lemma Get_Free_Inodes_ok s x rest :
  inodes_ok (file s) -> free_inodes (file s) = x :: rest ->
  exists m', Get_Free_Inodes 1 s = Ok (Some [x], with_file m' s) /\
    free_inodes m' = rest /\ inodes_moved (file s) m'.
Proof.
  intros [Hio Ht] Hf. set (m := file s) in *. pose proof (al_layout m (io_alloc m Hio)) as Hl.
  pose proof (lo_total m Hl) as Htg. pose proof (io_ipg m Hio) as Hipg. pose proof (io_max m Hio) as Hmax.
  pose proof (free_inodes_len m 0 TOTAL_GROUPS Htg ltac:(lia)) as Hlen. fold (free_inodes m) in Hlen.
  assert (load32 m SuperBlock.TOTAL_UNALLOCATED_INODES = 1 + zlen rest) as Ht' by (by rewrite Ht, Hf, zlen_cons).
  pose proof (zlen_nonneg rest). rewrite Hf, zlen_cons in Hlen.
  destruct (inodes_total m (zlen rest) Hio) as (Hio0 & E0 & F0 & X0 & D0).
  set (m0 := store32 m SuperBlock.TOTAL_UNALLOCATED_INODES (zlen rest)) in *.
  destruct (first_free m0 (Z.to_nat TOTAL_GROUPS) 0 x rest) as (k & i & l & Hk & Hbefore & Hat & Hx).
  { rewrite Z2Nat.id by lia. by rewrite <- Hf, <- E0. }
  rewrite Z2Nat.id in Hk by lia. rewrite !Z.add_0_l in Hat, Hx.
  destruct (inode_turn_spec (with_file m0 s) k i l Hio0 ltac:(unfold in_groups; lia) Hat)
    as (m' & Hrun & Hm' & Fk & Uk & Fo & X' & T'). cbn [file with_file] in *.
  assert (forall y, ~ inode_metadata m y -> m' y = m y) as X.
  { intros y Hy. rewrite X'; [by apply X0|]. intros Hin. apply Hy. by apply (inode_metadata_same m m0). }
  assert (free_inodes m' = rest) as Er.
  { assert (x :: free_inodes m' = x :: rest) as E; [|by injection E].
    rewrite <- Hf, <- E0. unfold free_inodes. replace TOTAL_GROUPS with (k + (1 + (TOTAL_GROUPS - k - 1))) by lia.
    rewrite !(free_inodes_app _ 0 k), !free_inodes_S, Z.add_0_l, Fk, Hat by lia.
    rewrite (free_inodes_ext m0 m' (k + 1)) by (intros g Hg; apply Fo; unfold in_groups; lia).
    rewrite !(free_inodes_none _ 0 k); [cbn [app fmap list_fmap]; by rewrite <- Hx|lia| |lia|].
    - intros g Hg. apply Hbefore. lia.
    - intros g Hg. destruct (Fo g) as [-> _]; [unfold in_groups; lia|lia|]. apply Hbefore. lia. }
  exists m'. split_and!; [|done|].
  - unfold Get_Free_Inodes. cbv [get_file gets]. erewrite bind_ok by reflexivity. fold m.
    rewrite Ht', Z.gtb_ltb, (proj2 (Z.ltb_ge _ _)) by lia.
    replace (1 + zlen rest - 1) with (zlen rest) by lia. fold m0. erewrite bind_ok by reflexivity.
    change (replicate (Z.to_nat 1) 0) with [0].
    rewrite Hx.
    rewrite (bind_ok _ _ _ _ _ (inode_loop_spec (Z.to_nat TOTAL_GROUPS) 0 k (with_file m0 s) Hio0 ltac:(lia)
               ltac:(lia) ltac:(lia) ltac:(lia) ltac:(intros g Hg; apply Hbefore; lia) _ _ Hrun)). done.
  - apply inode_groups_moved; [done| |done]. split.
    + apply (inode_groups_frame m); [done|done|done|]. intros g Hg. destruct (decide (g = k)) as [->|Hne].
      * by rewrite Fk.
      * destruct (Fo g Hg Hne) as [-> ->]. by apply (io_groups m0 Hio0).
    + rewrite T'. unfold m0. rewrite load32_store32_same, Er, u32_small by lia. done.
Qed.

Lemma Get_Free_Inodes_none s :
  inodes_ok (file s) -> free_inodes (file s) = [] -> Get_Free_Inodes 1 s = Ok (None, with_errno ENOSPC s).
Proof.
  intros Hok Hf. unfold Get_Free_Inodes. cbv [get_file gets]. erewrite bind_ok by reflexivity.
  by rewrite (io_total _ Hok), Hf.
Qed.

(** ** Giving an inode back *)

Lemma inode_split x :
  0 < INODES_PER_GROUP -> TOTAL_GROUPS * INODES_PER_GROUP < 2 ^ 32 ->
  1 <= x <= TOTAL_GROUPS * INODES_PER_GROUP ->
  let g := Inode_locateGroup x in let i := Inode_getLocalIndex x in
  in_groups g /\ 0 <= i < INODES_PER_GROUP /\ x = inode_of g i.
Proof.
  intros Hi Hmax Hx. unfold Inode_locateGroup, Inode_getLocalIndex. rewrite u32_small by lia.
  set (g := (x - 1) / INODES_PER_GROUP). set (i := (x - 1) mod INODES_PER_GROUP). cbv zeta.
  assert (INODES_PER_GROUP <> 0) as Hnz by lia.
  pose proof (Z.div_mod (x - 1) INODES_PER_GROUP Hnz) as Hdm. fold g i in Hdm.
  assert (0 <= i < INODES_PER_GROUP) as Hr by (apply Z.mod_pos_bound; lia).
  split; [|split; [lia|unfold inode_of; lia]].
  split; [apply Z.div_pos; lia|apply Z.div_lt_upper_bound; lia].
Qed.

(** Clearing the bit of an inode in use. *)
Lemma clear_inode_bit m g i (m1 := bitarray_clean_bit m (inode_bits m g) i) :
  inode_groups_ok m -> in_groups g -> 0 <= i < INODES_PER_GROUP -> i ∉ inode_free m g ->
  mem_ok m1 /\ inode_free m1 g ≡ₚ i :: inode_free m g /\
  (forall x, ~ (inode_bitmap m g <= x < inode_bitmap m g + BLOCK_SIZE) -> m1 x = m x).
Proof.
  intros Hio Hg Hi Hn. 
  assert (forall x, ~ (inode_bitmap m g <= x < inode_bitmap m g + BLOCK_SIZE) -> m1 x = m x) as X1.
  { intros x Hx. symmetry. apply (clean_bit_outside m (inode_bits m g) i), in_range_false.
    pose proof (inode_bit_range m i Hio Hi). change (bitarray (inode_bits m g)) with (inode_bitmap m g). lia. }
  destruct (inode_bitmap_frame m m1 g Hio Hg X1) as (_ & _ & X).
  destruct (inode_frame m m1 (al_layout m (io_alloc m Hio)) X) as (D & _).
  split_and!; [apply clean_bit_mem_ok, (al_mem m (io_alloc m Hio))| |done].
  unfold inode_free at 1, inode_bits. rewrite (same_inode_bitmap m m1) by done. fold (inode_bits m g).
  apply filter_plus_one; [apply NoDup_seqZ|by apply elem_of_seqZ| | |].
  - destruct (negb (bitarray_test_bit m (inode_bits m g) i)) eqn:E; [|done]. exfalso. apply Hn.
    by apply list_elem_of_filter, conj, elem_of_seqZ.
  - unfold m1. rewrite test_clean_bit, bool_decide_true by done. done.
  - intros j Hj. unfold m1. rewrite test_clean_bit, bool_decide_false by done. done.
Qed.

Lemma free_inodes_one_group m m' g i :
  in_groups g -> (forall g', in_groups g' -> g' <> g -> inode_free m' g' = inode_free m g') ->
  inode_free m' g ≡ₚ i :: inode_free m g -> free_inodes m' ≡ₚ inode_of g i :: free_inodes m.
Proof.
  intros Hg Ho Hp. unfold free_inodes. unfold in_groups in *.
  replace TOTAL_GROUPS with (g + (1 + (TOTAL_GROUPS - g - 1))) by lia.
  rewrite !(free_inodes_app _ 0 g), !free_inodes_S by lia.
  rewrite (free_inodes_ext m m' 0), (free_inodes_ext m m' (0 + g + 1)) by (intros; apply Ho; lia).
  rewrite Z.add_0_l, Hp. cbn [fmap list_fmap app]. by rewrite <- Permutation_middle.
Qed.

(** The bit and the counter of the group. *)
Lemma release_inode_in_group m g i (m1 := bitarray_clean_bit m (inode_bits m g) i)
    (m2 := set_UNALLOCATED_INODES m1 (gd g) (UNALLOCATED_INODES m1 (gd g) + 1)) :
  inode_groups_ok m -> in_groups g -> 0 <= i < INODES_PER_GROUP -> i ∉ inode_free m g ->
  inode_groups_ok m2 /\ free_inodes m2 ≡ₚ inode_of g i :: free_inodes m /\
  (forall x, ~ inode_metadata m x -> m2 x = m x) /\
  load32 m2 SuperBlock.TOTAL_UNALLOCATED_INODES = load32 m SuperBlock.TOTAL_UNALLOCATED_INODES.
Proof.
  intros Hio Hg Hi Hn. destruct (clear_inode_bit m g i Hio Hg Hi Hn) as (M1 & P1 & Y1). fold m1 in M1, P1, Y1.
  destruct (inode_bitmap_frame m m1 g Hio Hg Y1) as (U1 & F1 & X1).
  pose proof (al_layout m (io_alloc m Hio)) as Hl. destruct (inode_frame m m1 Hl X1) as (D1 & _).
  pose proof (io_ipg m Hio) as Hipg. pose proof (io_u16 m Hio).
  assert (forall x, ~ (gd g + 14 <= x < gd g + 16) -> m2 x = m1 x) as Y2.
  { intros x Hx. symmetry. apply store_same_outside, in_range_false. lia. }
  assert (forall x, ~ inode_metadata m x -> m2 x = m x) as X2.
  { intros x Hx. rewrite Y2; [by apply X1|]. intros Hr. apply Hx. right. left. by exists g. }
  destruct (inode_frame m m2 Hl X2) as (D2 & _).
  assert (forall g', in_groups g' -> inode_free m2 g' = inode_free m1 g') as F2.
  { intros g' Hg'. apply inode_free_ext; [done|done| |].
    - intros g0 Hg0. destruct (D1 g0 Hg0), (D2 g0 Hg0). split; congruence.
    - intros x Hx. apply Y2. rewrite (same_inode_bitmap m m1) in Hx by done.
      pose proof (lo_ibm m Hl g' Hg'). pose proof (gd_below m g Hl Hg). lia. }
  assert (zlen (inode_free m1 g) <= INODES_PER_GROUP) as Hlen.
  { pose proof (length_filter (fun i => negb (bitarray_test_bit m1 (inode_bits m1 g) i) = true)
      (seqZ 0 INODES_PER_GROUP)) as Hlf. rewrite length_seqZ in Hlf. unfold inode_free, free_bits, zlen. lia. }
  assert (zlen (inode_free m1 g) = zlen (inode_free m g) + 1) as Hz by (unfold zlen; rewrite P1; simpl; lia).
  pose proof (zlen_nonneg (inode_free m g)).
  split_and!; [| |done|].
  - apply (inode_groups_frame m); [done|by apply store_mem_ok|done|]. intros g' Hg'. rewrite F2 by done.
    destruct (decide (g' = g)) as [->|Hne].
    + unfold m2, UNALLOCATED_INODES at 1, set_UNALLOCATED_INODES. rewrite load16_store16_same.
      rewrite U1, (io_groups m Hio g Hg) by done. rewrite u16_small; lia.
    + rewrite F1, <- (io_groups m Hio g' Hg'), <- U1 by done. apply (load_ext 2). intros x Hx. apply Y2.
      unfold group_descriptor, sizeof_Group_Descriptor in *. lia.
  - unfold free_inodes at 1. rewrite (free_inodes_ext m1 m2) by (intros g' Hg'; apply F2; unfold in_groups; lia).
    by apply free_inodes_one_group.
  - pose proof (total_low m Hl) as [Ht Hge]. pose proof (lo_gdt m Hl).
    unfold SuperBlock.TOTAL_UNALLOCATED_INODES, SUPERBLOCK_START in *.
    pose proof (gd_below m g Hl Hg). pose proof (lo_ibm m Hl g Hg).
    transitivity (load32 m1 (1024 + 16)); apply (load_ext 4); intros x Hx; [apply Y2|apply Y1]; lia.
Qed.

Lemma setFreeInodeBitmap_ok s x :
  inodes_ok (file s) -> 1 <= x <= TOTAL_GROUPS * INODES_PER_GROUP -> x ∉ free_inodes (file s) ->
  exists m', setFreeInodeBitmap x s = Ok (tt, with_file m' s) /\
    free_inodes m' ≡ₚ x :: free_inodes (file s) /\ inodes_moved (file s) m'.
Proof.
  intros [Hio Ht] Hx Hn. set (m := file s) in *. pose proof (io_ipg m Hio) as Hipg. pose proof (io_max m Hio) as Hmax.
  destruct (inode_split x ltac:(lia) Hmax Hx) as (Hg & Hi & Ex).
  unfold setFreeInodeBitmap. cbv [get_file gets]. erewrite bind_ok by reflexivity. fold m. cbv zeta.
  generalize dependent (Inode_locateGroup x). generalize dependent (Inode_getLocalIndex x). intros i Hi g Hg Ex.
  unfold Group_Descriptor_read, deref. rewrite (proj2 (Z.ltb_lt _ _)) by apply Hg. erewrite bind_ok by reflexivity.
  fold (gd g). fold (inode_bitmap m g). fold (inode_bits m g).
  destruct (release_inode_in_group m g i Hio Hg Hi) as (Hio2 & P2 & X2 & T2).
  { intros Hin. apply Hn. rewrite Ex. apply list_elem_of_join. exists (inode_of g <$> inode_free m g). split.
    - by apply list_elem_of_fmap_2.
    - apply list_elem_of_fmap. exists g. split; [done|]. apply elem_of_seqZ. unfold in_groups in Hg. lia. }
  set (m2 := set_UNALLOCATED_INODES _ _ _) in *. rewrite T2, Ht.
  destruct (inodes_total m2 (zlen (free_inodes m) + 1) Hio2) as (Hio3 & E3 & _ & X3 & D3).
  set (m3 := store32 m2 _ _) in *. rewrite <- E3, <- Ex in P2.
  pose proof (lo_total m (al_layout m (io_alloc m Hio))) as Htg.
  pose proof (free_inodes_len m3 0 TOTAL_GROUPS Htg ltac:(lia)) as Hlen. fold (free_inodes m3) in Hlen.
  assert (zlen (free_inodes m3) = zlen (free_inodes m) + 1) as Hz by (unfold zlen; rewrite P2; simpl; lia).
  pose proof (zlen_nonneg (free_inodes m)).
  exists m3. split_and!; [reflexivity|done|]. apply inode_groups_moved; [done| |].
  - split; [done|]. rewrite Hz. unfold m3. rewrite load32_store32_same. apply u32_small. lia.
  - intros y Hy. destruct (inode_frame m m2 (al_layout m (io_alloc m Hio)) X2) as (D2 & _).
    rewrite X3; [by apply X2|]. intros Hin. apply Hy. by apply (inode_metadata_same m m2).
Qed.

(** The inodes: asked for one, [Get_Free_Inodes] hands out the first free one and removes exactly
    it from the list of free inodes; an inode in use that is given back is in the list again; the
    counters of the groups and of the superblock count in both cases, the allocator of blocks, the
    tables of inodes and every byte outside of the counters and the bitmaps of the inodes stay. *)
Lemma inodes_taken_and_returned s :
  inodes_ok (file s) ->
  (forall x rest, free_inodes (file s) = x :: rest ->
     exists m', Get_Free_Inodes 1 s = Ok (Some [x], with_file m' s) /\
       free_inodes m' = rest /\ inodes_moved (file s) m') /\
  (free_inodes (file s) = [] -> Get_Free_Inodes 1 s = Ok (None, with_errno ENOSPC s)) /\
  (forall x, 1 <= x <= TOTAL_GROUPS * INODES_PER_GROUP -> x ∉ free_inodes (file s) ->
     exists m', setFreeInodeBitmap x s = Ok (tt, with_file m' s) /\
       free_inodes m' ≡ₚ x :: free_inodes (file s) /\ inodes_moved (file s) m').
Proof.
  intros Hok. split_and!.
  - intros x rest. by apply Get_Free_Inodes_ok.
  - by apply Get_Free_Inodes_none.
  - intros x. by apply setFreeInodeBitmap_ok.
Qed.
End Inodes.

(** ** Witness: the tiny image with the inodes 1 and 2 in use *)

Definition tiny_inode_image : mem :=
  let m := store32 tiny_image SuperBlock.TOTAL_UNALLOCATED_INODES 14 in
  let m := store16 (store16 m 2062 6) 2094 8 in
  store_byte m 4096 3.

Lemma tiny_inodes_ok : @inodes_ok tiny_sb tiny_inode_image.
Proof.
  assert (mem_ok tiny_inode_image) as Hm.
  { apply store_byte_mem_ok, store_mem_ok, store_mem_ok, store_mem_ok, (al_mem _ tiny_alloc_ok). }
  split; [split|vm_compute; reflexivity].
  - apply (@alloc_ok_frame tiny_sb tiny_image tiny_inode_image tiny_alloc_ok Hm).
    intros x Hx. unfold tiny_inode_image. rewrite store_byte_other.
    + unfold store16, store32, store.
      rewrite !(proj2 (in_range_false _ _ x)); [done| | |]; intros Hr; apply Hx.
      * by left.
      * right. left. exists 0. split; [split; vm_compute; congruence|exact Hr].
      * right. left. exists 1. split; [split; vm_compute; congruence|exact Hr].
    + intros ->. apply Hx. right. right. exists 0. split; [split; vm_compute; congruence|].
      split; [vm_compute; congruence|vm_compute; reflexivity].
  - split; vm_compute; congruence.
  - vm_compute. reflexivity.
  - vm_compute. reflexivity.
  - tiny_groups; vm_compute; reflexivity.
Defined.

Definition tiny_inode_server : rfs unit := with_file tiny_inode_image tiny_server.

Lemma inodes_taken_and_returned_witness :
  (exists m', @Get_Free_Inodes tiny_sb unit 1 tiny_inode_server = Ok (Some [3], with_file m' tiny_inode_server)) /\
  (exists m', @setFreeInodeBitmap tiny_sb unit 2 tiny_inode_server = Ok (tt, with_file m' tiny_inode_server) /\
     @free_inodes tiny_sb m' ≡ₚ 2 :: [3; 4; 5; 6; 7; 8; 9; 10; 11; 12; 13; 14; 15; 16]).
Proof.
  destruct (@inodes_taken_and_returned tiny_sb unit tiny_inode_server tiny_inodes_ok) as (H1 & _ & H3).
  assert (@free_inodes tiny_sb (file tiny_inode_server) = [3; 4; 5; 6; 7; 8; 9; 10; 11; 12; 13; 14; 15; 16]) as E
    by (vm_compute; reflexivity).
  split.
  - destruct (H1 _ _ E) as (m' & Hrun & _). by exists m'.
  - destruct (H3 2) as (m' & Hrun & Hp & _); [split; vm_compute; congruence| |].
    + rewrite E. refine (bool_decide_unpack _ _). vm_compute. exact I.
    + exists m'. split; [exact Hrun|]. by rewrite <- E.
Defined.
