(* ===== verification/BlockMap.v ===== *)
(** * BlockMap: attaching blocks to inodes and removing them

    Models the private functions of [file_operations.c] that change the
    pointers of an inode: [Attach_Blocks] with its helpers for the indirect
    levels, [Remove_Block], [RemoveIndirect], [Remove_Blocks], and the
    functions that fill and clear inodes.  An inode and an indirect block are
    addresses in the image. *)

From S2P Require Import Prelude Memory Bitarray Ext2 CString Paths Rfs Alloc.

Definition EXT2_IFREG : Z := 32768.
Definition EXT2_IFDIR : Z := 16384.

Section BlockMap.
Context {Super_constants : Superblock_constants} {WA : Word_after_array}.
Context {C : Type} `{Memcached C}.
Abbreviation R := (rfs C).

Definition load_word (a : Z) : M R Z := gets (fun s => load32 (file s) a).
Definition store_word (a v : Z) : M R unit := update_file (fun m => store32 m a v).

(** for (; a[i] != 0 && i < n; ++i): the first zero of [n] words, or [n]. *)
Fixpoint leading_nonzero (n : nat) (m : mem) (a : Z) : Z :=
  match n with
  | O => 0
  | S n => if load32 m a =? 0 then 0 else 1 + leading_nonzero n m (a + 4)
  end.

(** ** Attaching *)

Definition Inode_Indirect_Attach1 (indirect_block block_offset blocks_to_attach : Z) : M R unit :=
  new_blocks ← Get_Free_Blocks blocks_to_attach;
  match new_blocks with
  | Some l => update_file (fun m => write_words m (block_addr indirect_block + 4 * block_offset) l)
  | None => e ← get_errno; if e =? ENOSPC then mret tt else fail NullDeref
  end.

(** The result of [Get_Free_Blocks] is dereferenced without a test. *)
Definition check_and_set_Ind (indirection : Z) : M R unit :=
  v ← load_word indirection;
  if negb (v =? 0) then mret tt
  else
    new_block ← Get_Free_Blocks 1;
    l ← deref new_block;
    store_word indirection (default 0 (l !! 0%nat)).

(** -1 when errno is ENOSPC, else the number of blocks attached. *)
Definition check_and_attach1 (block_number blocks_to_attach : Z) : M R Z :=
  m ← get_file;
  let sub_entries := leading_nonzero (Z.to_nat ptrs_per_block) m (block_addr block_number) in
  let slots_available := ptrs_per_block - sub_entries in
  let slots_to_copy :=
    if slots_available >? blocks_to_attach then blocks_to_attach else slots_available in
  when (slots_available >? 0)
    (Inode_Indirect_Attach1 block_number sub_entries slots_to_copy);;
  e ← get_errno;
  mret (if e =? ENOSPC then -1 else s32 slots_to_copy).

(** [n] entries of the block are left, from [entries] on. *)
Fixpoint Inode_Indirect_Attach2_loop (n : nat) (this_block entries blocks_to_attach total_attached : Z)
  : M R Z :=
  match n with
  | O => mret total_attached
  | S n =>
      check_and_set_Ind (this_block + 4 * entries);;
      b ← load_word (this_block + 4 * entries);
      attached ← check_and_attach1 b blocks_to_attach;
      if attached =? -1 then mret total_attached
      else
        let blocks_to_attach := u32 (blocks_to_attach - attached) in
        let total_attached := s32 (total_attached + attached) in
        if blocks_to_attach =? 0 then mret total_attached
        else Inode_Indirect_Attach2_loop n this_block (entries + 1) blocks_to_attach total_attached
  end.

Definition Inode_Indirect_Attach2 (indirect_block blocks_to_attach : Z) : M R Z :=
  Inode_Indirect_Attach2_loop (Z.to_nat ptrs_per_block) (block_addr indirect_block) 0
    blocks_to_attach 0.

(** The loop of the third level. *)
Fixpoint Attach_Blocks_level3 (n : nat) (entry_to_check i new_blocks_amount : Z) : M R Z :=
  match n with
  | O => mret new_blocks_amount
  | S n =>
      if new_blocks_amount >? 0 then
        check_and_set_Ind (entry_to_check + 4 * i);;
        e ← get_errno;
        if e =? ENOSPC then mret new_blocks_amount
        else
          b ← load_word (entry_to_check + 4 * i);
          attached ← Inode_Indirect_Attach2 b new_blocks_amount;
          let new_blocks_amount := u32 (new_blocks_amount - attached) in
          e ← get_errno;
          if e =? ENOSPC then mret new_blocks_amount
          else if new_blocks_amount =? 0 then mret 0
          else Attach_Blocks_level3 n entry_to_check (i + 1) new_blocks_amount
      else mret new_blocks_amount
  end.

Definition Attach_Blocks (inode new_blocks_amount : Z) : M R Z :=
  let level_0_limit := 12 in
  (* level 0 *)
  m ← get_file;
  let sub_entries := leading_nonzero 12 m (Inode.pointer_data_0 inode 0) in
  let slots_available := level_0_limit - sub_entries in
  let slots_to_copy :=
    if slots_available >? new_blocks_amount then new_blocks_amount else slots_available in
  new_entries ← (if slots_available >? 0 then Get_Free_Blocks slots_to_copy else mret (Some []));
  match new_entries with
  | None => mret slots_available
  | Some l =>
      when (slots_available >? 0)
        (update_file (fun m => write_words m (Inode.pointer_data_0 inode sub_entries) l));;
      let new_blocks_amount := u32 (new_blocks_amount - slots_to_copy) in
      if new_blocks_amount =? 0 then mret 0
      else
        (* level 1 *)
        check_and_set_Ind (Inode.pointer_data_1 inode);;
        b1 ← load_word (Inode.pointer_data_1 inode);
        attached ← check_and_attach1 b1 new_blocks_amount;
        if attached <? 0 then mret new_blocks_amount
        else
          let new_blocks_amount := u32 (new_blocks_amount - attached) in
          if new_blocks_amount =? 0 then mret 0
          else
            (* level 2 *)
            check_and_set_Ind (Inode.pointer_data_2 inode);;
            b2 ← load_word (Inode.pointer_data_2 inode);
            attached ← Inode_Indirect_Attach2 b2 new_blocks_amount;
            e ← get_errno;
            if e =? ENOSPC then mret (u32 attached)
            else
              let new_blocks_amount := u32 (new_blocks_amount - attached) in
              if new_blocks_amount =? 0 then mret 0
              else
                (* level 3 *)
                check_and_set_Ind (Inode.pointer_data_3 inode);;
                b3 ← load_word (Inode.pointer_data_3 inode);
                Attach_Blocks_level3 (Z.to_nat ptrs_per_block) (block_addr b3) 0 new_blocks_amount
  end.

(** ** The coordinates of a block *)

(** The array of four coordinates; -1 in the levels that are not used. *)
Definition find_block_coordinates (block_index : Z) : list Z :=
  let p := ptrs_per_block in
  let sq := u64 (p * p) in
  let hi0 := 11 in
  let lo1 := u32 (hi0 + 1) in let hi1 := u32 (hi0 + p) in
  let lo2 := u32 (hi1 + 1) in let hi2 := u32 (hi1 + u64 (p * p)) in
  let lo3 := u32 (hi2 + 1) in let hi3 := u32 (hi2 + u64 (u64 (p * p) * p)) in
  if (0 <=? block_index) && (block_index <=? hi0) then [block_index; -1; -1; -1]
  else if (lo1 <=? block_index) && (block_index <=? hi1) then
    [0; s32 ((block_index - lo1) mod p); -1; -1]
  else if (lo2 <=? block_index) && (block_index <=? hi2) then
    [0; s32 ((block_index - lo2) mod p); s32 ((block_index - lo2) / p); -1]
  else if (lo3 <=? block_index) && (block_index <=? hi3) then
    [0; s32 (((block_index - lo3) mod sq) mod p); s32 (((block_index - lo3) mod sq) / p);
     s32 ((block_index - lo3) / sq)]
  else [-1; -1; -1; -1].

(** for (; level < 4; level++) if (coordinates[level] == -1) break; level--; *)
Fixpoint used_levels (coordinates : list Z) : nat :=
  match coordinates with
  | [] => 0
  | c :: l => if c =? -1 then 0 else S (used_levels l)
  end.

Definition coordinate (coordinates : list Z) (level : nat) : Z := default 0 (coordinates !! level).

(** ** Removing *)

Definition block_is_zero (m : mem) (b : Z) : bool :=
  forallb (fun i => m (block_addr b + i) =? 0) (seqZ 0 BLOCK_SIZE).

Definition deleteIfEmpty (block_index : Z) : M R bool :=
  m ← get_file;
  let empty := block_is_zero m block_index in
  when empty (setFreeBlockBitmap block_index);;
  mret empty.

(** [used_levels] is [level + 1]; with no coordinates at all, [level] wraps
    around and no case applies. *)
Definition RemoveIndirect (inode block_index : Z) : M R unit :=
  let coordinates := find_block_coordinates block_index in
  match used_levels coordinates with
  | 2%nat =>
      b1 ← load_word (Inode.pointer_data_1 inode);
      e ← deleteIfEmpty b1;
      when e (store_word (Inode.pointer_data_1 inode) 0)
  | 3%nat =>
      b2 ← load_word (Inode.pointer_data_2 inode);
      let ind2 := block_addr b2 + 4 * coordinate coordinates 2 in
      b1 ← load_word ind2;
      e ← deleteIfEmpty b1;
      when e
        (store_word ind2 0;;
         b2 ← load_word (Inode.pointer_data_2 inode);
         e ← deleteIfEmpty b2;
         when e (store_word (Inode.pointer_data_2 inode) 0))
  | 4%nat =>
      b3 ← load_word (Inode.pointer_data_3 inode);
      let ind3 := block_addr b3 + 4 * coordinate coordinates 3 in
      b2 ← load_word ind3;
      let ind2 := block_addr b2 + 4 * coordinate coordinates 2 in
      b1 ← load_word ind2;
      e ← deleteIfEmpty b1;
      when e
        (store_word ind2 0;;
         b2 ← load_word ind3;
         e ← deleteIfEmpty b2;
         when e
           (store_word ind3 0;;
            b3 ← load_word (Inode.pointer_data_3 inode);
            e ← deleteIfEmpty b3;
            when e (store_word (Inode.pointer_data_3 inode) 0)))
  | _ => mret tt
  end.

(** Releases the block in the slot and clears the slot. *)
Definition clear_slot (slot : Z) : M R unit :=
  block_number ← load_word slot;
  setFreeBlockBitmap block_number;;
  store_word slot 0.

Definition Remove_Block (inode block_index : Z) : M R unit :=
  let coordinates := find_block_coordinates block_index in
  match used_levels coordinates with
  | 1%nat => clear_slot (Inode.pointer_data_0 inode (coordinate coordinates 0))
  | 2%nat =>
      b1 ← load_word (Inode.pointer_data_1 inode);
      clear_slot (block_addr b1 + 4 * coordinate coordinates 1);;
      RemoveIndirect inode block_index
  | 3%nat =>
      b2 ← load_word (Inode.pointer_data_2 inode);
      b1 ← load_word (block_addr b2 + 4 * coordinate coordinates 2);
      clear_slot (block_addr b1 + 4 * coordinate coordinates 1);;
      RemoveIndirect inode block_index
  | 4%nat =>
      b3 ← load_word (Inode.pointer_data_3 inode);
      b2 ← load_word (block_addr b3 + 4 * coordinate coordinates 3);
      b1 ← load_word (block_addr b2 + 4 * coordinate coordinates 2);
      clear_slot (block_addr b1 + 4 * coordinate coordinates 1);;
      RemoveIndirect inode block_index
  | _ => mret tt
  end.

Definition cache_delete (path : list Z) (block_number : Z) : M R unit :=
  modify (fun s => with_memc (memcached_delete (generate_key path block_number) (memc s)) s).

Fixpoint Remove_Blocks_loop (n : nat) (inode start_remotion_index : Z) (path : list Z) : M R unit :=
  match n with
  | O => mret tt
  | S n =>
      Remove_Block inode start_remotion_index;;
      cache_delete path start_remotion_index;;
      Remove_Blocks_loop n inode (start_remotion_index + 1) path
  end.

(** From the block [start_count - |block_amount_to_remove|] to the last. *)
Definition Remove_Blocks (inode block_amount_to_remove : Z) (path : list Z) : M R unit :=
  m ← get_file;
  let start_count := u32 (Size_In_Blocks (Inode.size m inode)) in
  let block_amount_to_remove :=
    if block_amount_to_remove >? 0 then - block_amount_to_remove else block_amount_to_remove in
  let start_remotion_index := u32 (start_count + block_amount_to_remove) in
  Remove_Blocks_loop (Z.to_nat (start_count - start_remotion_index)) inode start_remotion_index path.

(** ** Filling and clearing inodes *)

Definition clear_pointers (m : mem) (an_inode : Z) : mem :=
  let m := write_words m (Inode.pointer_data_0 an_inode 0) (replicate 12 0) in
  let m := store32 m (Inode.pointer_data_1 an_inode) 0 in
  let m := store32 m (Inode.pointer_data_2 an_inode) 0 in
  store32 m (Inode.pointer_data_3 an_inode) 0.

Definition setFileInode (an_inode mode : Z) : M R unit :=
  update_file (fun m =>
    let m := Inode.set_blocks m an_inode 0 in
    let m := Inode.set_links_count m an_inode 1 in
    let m := Inode.set_mode m an_inode (Z.lor mode EXT2_IFREG) in
    let m := Inode.set_size m an_inode 0 in
    clear_pointers m an_inode).

(** The group is [inode_number / INODES_PER_GROUP] here, not the group of
    [Inode_locateGroup]. *)
Definition setDirInode (an_inode mode inode_number : Z) : M R unit :=
  let group_number := inode_number / INODES_PER_GROUP in
  g_desc ← deref (Group_Descriptor_read group_number);
  update_file (fun m =>
    set_NUMBER_DIRECTORIES_GROUP m g_desc (NUMBER_DIRECTORIES_GROUP m g_desc + 1));;
  update_file (fun m =>
    let m := Inode.set_blocks m an_inode (BLOCK_SIZE / 512) in
    let m := Inode.set_links_count m an_inode 1 in
    let m := Inode.set_mode m an_inode (Z.lor mode EXT2_IFDIR) in
    let m := Inode.set_size m an_inode BLOCK_SIZE in
    clear_pointers m an_inode).

Definition Clear_Inode (m : mem) (an_inode : Z) : mem :=
  let m := Inode.set_blocks m an_inode 0 in
  let m := Inode.set_links_count m an_inode 0 in
  let m := Inode.set_mode m an_inode 0 in
  let m := Inode.set_size m an_inode 0 in
  clear_pointers m an_inode.
End BlockMap.
