(* ===== verification/Dirs.v ===== *)
(** * Dirs: directories

    Models the private functions of [file_operations.c] on directories:
    the entries of a directory block, [read_directory], [attach_entry],
    [delete_entry], and the walk from the root to a file
    ([search_in_directory], [inode_of_file]).

    An entry lies in the image at an address: inode number (4 bytes), length
    of the entry (2), length of the name (1), type (1), name.  The loops over
    a block advance by the entry's length and do not end on a length of zero:
    [BLOCK_SIZE] rounds are enough for any other block. *)

From S2P Require Import Prelude Memory Bitarray Ext2 CString Paths Rfs Alloc BlockMap.

Definition ROOT_INODE_NUMBER : Z := 2.
Definition EMPTY : Z := 0.

(** An entry on the heap. *)
Record entry_t := {
  inode_number : Z;
  entry_len : Z;
  name_len : Z;
  file_type : Z;
  file_name : list Z
}.

Definition sizeof_entry : Z := 8.

(** The fields of the entry at the address [e]. *)
Module Entry.
Definition inode_number (m : mem) (e : Z) : Z := load32 m e.
Definition entry_len (m : mem) (e : Z) : Z := load16 m (e + 4).
Definition name_len (m : mem) (e : Z) : Z := m (e + 6).
Definition file_type (m : mem) (e : Z) : Z := m (e + 7).
Definition file_name (e : Z) : Z := e + 8.
Definition set_entry_len (m : mem) (e v : Z) : mem := store16 m (e + 4) v.
End Entry.

(** name_len == strlen(name) && strncmp(file_name, name, strlen(name)) == 0 *)
Definition entry_has_name (m : mem) (e : Z) (name : list Z) : bool :=
  (Entry.name_len m e =? strlen name) &&
  bool_decide (read_bytes m (Entry.file_name e) (zlen name) = name).

Definition padded (name_len : Z) : Z :=
  let unpad_size := u32 (sizeof_entry + name_len) in
  if unpad_size mod 4 >? 0 then u32 (unpad_size + 4 - unpad_size mod 4) else unpad_size.

Definition get_padded_size (m : mem) (an_entry : Z) : Z := padded (Entry.name_len m an_entry).

Definition create_entry (name : list Z) (inode_number : Z) : entry_t :=
  {| inode_number := inode_number;
     entry_len := u16 (sizeof_entry + strlen name);
     name_len := u8 (strlen name);
     file_type := 0;
     file_name := name |}.

(** copy_entry, from the heap and inside the image. *)
Definition copy_entry (m : mem) (to : Z) (from : entry_t) : mem :=
  let m := store32 m to (inode_number from) in
  let m := store16 m (to + 4) (entry_len from) in
  let m := store_byte m (to + 6) (name_len from) in
  let m := store_byte m (to + 7) (file_type from) in
  memcpy_bytes m (Entry.file_name to) (take (Z.to_nat (name_len from)) (file_name from)).

(** The same between two entries of the image: the names must not overlap. *)
Definition copy_entry_in_file (m : mem) (to from : Z) : res mem :=
  let m := store32 m to (Entry.inode_number m from) in
  let m := store16 m (to + 4) (Entry.entry_len m from) in
  let m := store_byte m (to + 6) (Entry.name_len m from) in
  let m := store_byte m (to + 7) (Entry.file_type m from) in
  memcpy m (Entry.file_name to) (Entry.file_name from) (Entry.name_len m from).

(** The addresses before the terminating zero. *)
Fixpoint until_EMPTY (data_address : list Z) : list Z :=
  match data_address with
  | [] => []
  | b :: l => if b =? EMPTY then [] else b :: until_EMPTY l
  end.

Section Dirs.
Context {Super_constants : Superblock_constants} {WA : Word_after_array}.
Context {C : Type} `{Memcached C}.
Abbreviation R := (rfs C).

Definition block_fuel : nat := Z.to_nat BLOCK_SIZE.

(** ** Reading a directory *)

(** The entries in use of a block, from [iterate] on. *)
Fixpoint block_entries (fuel : nat) (m : mem) (end_ iterate : Z) : res (list Z) :=
  match fuel with
  | O => if iterate <? end_ then Fail OutOfFuel else Ok []
  | S n =>
      if iterate <? end_ then
        match block_entries n m end_ (iterate + Entry.entry_len m iterate) with
        | Ok l => Ok (if negb (Entry.inode_number m iterate =? 0) then iterate :: l else l)
        | Fail e => Fail e
        end
      else Ok []
  end.

Fixpoint blocks_entries (m : mem) (blocks : list Z) : res (list Z) :=
  match blocks with
  | [] => Ok []
  | b :: rest =>
      match block_entries block_fuel m (block_addr b + BLOCK_SIZE) (block_addr b) with
      | Ok l => match blocks_entries m rest with Ok r => Ok (l ++ r) | Fail e => Fail e end
      | Fail e => Fail e
      end
  end.

(** The two passes of the code (count, then fill) visit the same entries. *)
Definition read_directory (inode : Z) : M R (option (list Z)) :=
  m ← get_file;
  match Inode_Get_Data_Adressess m inode (Inode.size m inode) with
  | None => mret None
  | Some data_address =>
      match blocks_entries m (until_EMPTY data_address) with
      | Ok l => mret (Some l)
      | Fail e => fail e
      end
  end.

(** ** Adding an entry *)

(** The search of one block; the result says whether the entry was put, and
    the entry as it is then ([entry_len] is overwritten). *)
Fixpoint attach_in_block (fuel : nat) (m : mem) (end_ iterate : Z) (new_entry : entry_t)
  : res (option mem) :=
  match fuel with
  | O => if iterate <? end_ then Fail OutOfFuel else Ok None
  | S n =>
      if iterate <? end_ then
        let padded_size := get_padded_size m iterate in
        let len := Entry.entry_len m iterate in
        let free_space := len - padded_size in
        if (len >? padded_size) && (free_space >? entry_len new_entry) then
          Ok (Some (if padded_size >? 8 then
                      let m := Entry.set_entry_len m iterate padded_size in
                      copy_entry m (iterate + padded_size)
                        {| inode_number := inode_number new_entry; entry_len := u16 free_space;
                           name_len := name_len new_entry; file_type := file_type new_entry;
                           file_name := file_name new_entry |}
                    else
                      copy_entry m iterate
                        {| inode_number := inode_number new_entry; entry_len := len;
                           name_len := name_len new_entry; file_type := file_type new_entry;
                           file_name := file_name new_entry |}))
        else attach_in_block n m end_ (iterate + len) new_entry
      else Ok None
  end.

Fixpoint attach_in_blocks (m : mem) (blocks : list Z) (new_entry : entry_t) : res (option mem) :=
  match blocks with
  | [] => Ok None
  | b :: rest =>
      match attach_in_block block_fuel m (block_addr b + BLOCK_SIZE) (block_addr b) new_entry with
      | Ok None => attach_in_blocks m rest new_entry
      | r => r
      end
  end.

(** The function calls itself after it has attached a block; [fuel] bounds
    the nesting. *)
Fixpoint attach_entry (fuel : nat) (inode : option Z) (new_entry : entry_t) : M R bool :=
  match fuel with
  | O => fail OutOfFuel
  | S n =>
      inode ← deref inode;
      m ← get_file;
      match Inode_Get_Data_Adressess m inode (u32 (Inode.blocks m inode * 512)) with
      | None => mret false
      | Some data_address =>
          match attach_in_blocks m (until_EMPTY data_address) new_entry with
          | Fail e => fail e
          | Ok (Some m) => put_file m;; mret true
          | Ok None =>
              Attach_Blocks inode 1;;
              e ← get_errno;
              if e =? ENOSPC then mret false
              else
                update_file (fun m =>
                  Inode.set_blocks m inode (Inode.blocks m inode + BLOCK_SIZE / 512));;
                update_file (fun m => Inode.set_size m inode (Inode.size m inode + BLOCK_SIZE));;
                attached ← attach_entry n (Some inode) new_entry;
                if (attached : bool) then mret true else set_errno ECANCELED;; mret false
          end
      end
  end.

(** ** Deleting an entry *)

(** The loop behind the first entry of a block: the entry at [iterate] is
    stepped over, and the next one, which may lie behind the block, compared. *)
Fixpoint delete_in_block (fuel : nat) (m : mem) (end_ iterate acum_len : Z) (name : list Z)
  : res (option mem) :=
  match fuel with
  | O => if iterate <? end_ then Fail OutOfFuel else Ok None
  | S n =>
      if iterate <? end_ then
        let previous_entry := iterate in
        let acum_len := u32 (acum_len + Entry.entry_len m iterate) in
        let iterate := iterate + Entry.entry_len m iterate in
        if entry_has_name m iterate name then
          if Entry.entry_len m iterate =? u32 (BLOCK_SIZE - acum_len) then
            Ok (Some (Entry.set_entry_len m previous_entry
                        (Entry.entry_len m previous_entry + Entry.entry_len m iterate)))
          else
            let next_entry := iterate + Entry.entry_len m iterate in
            let m := Entry.set_entry_len m next_entry
                       (Entry.entry_len m next_entry + Entry.entry_len m iterate) in
            res_bind (copy_entry_in_file m iterate next_entry) (fun m => Ok (Some m))
        else delete_in_block n m end_ iterate acum_len name
      else Ok None
  end.

(** The blocks of the directory, from the block number [var] on. *)
Fixpoint delete_in_blocks (blocks : list Z) (var inode : Z) (name : list Z) : M R unit :=
  match blocks with
  | [] => mret tt
  | b :: rest =>
      m ← get_file;
      let iterate := block_addr b in
      let padded_size := get_padded_size m iterate in
      if entry_has_name m iterate name then
        if Entry.entry_len m iterate =? u32 (BLOCK_SIZE - padded_size) then
          Remove_Block inode var;;
          update_file (fun m => Inode.set_size m inode (Inode.size m inode - padded_size));;
          update_file (fun m => Inode.set_blocks m inode (Inode.blocks m inode - BLOCK_SIZE / 512))
        else
          let next_entry := iterate + Entry.entry_len m iterate in
          let m := Entry.set_entry_len m next_entry
                     (Entry.entry_len m next_entry + Entry.entry_len m iterate) in
          match copy_entry_in_file m iterate next_entry with
          | Ok m => put_file m
          | Fail e => fail e
          end
      else
        match delete_in_block block_fuel m (iterate + BLOCK_SIZE) iterate 0 name with
        | Fail e => fail e
        | Ok (Some m) => put_file m
        | Ok None => delete_in_blocks rest (var + 1) inode name
        end
  end.

Definition delete_entry (inode : option Z) (a_file : nat) : M R unit :=
  inode ← deref inode;
  m ← get_file;
  match Inode_Get_Data_Adressess m inode (u32 (Inode.blocks m inode * 512)) with
  | None => mret tt
  | Some data_address =>
      name ← active_file_get_file_name a_file;
      delete_in_blocks (until_EMPTY data_address) 0 inode name
  end.

(** ** From the root to a file *)

Fixpoint unlock_all (ids : list nat) : M R unit :=
  match ids with
  | [] => mret tt
  | id :: l => UNLOCK id;; unlock_all l
  end.

(** [previous] is *(sub_paths - 1); zero is the NULL result. *)
Fixpoint search_in_directory (previous : nat) (sub_paths : list nat) (old_entries : option (list Z))
  : M R Z :=
  match sub_paths with
  | [] => fail NullDeref
  | id :: rest =>
      name ← active_file_get_file_name id;
      entries ← deref old_entries;
      m ← get_file;
      match list_find (fun e => entry_has_name m e name = true) entries with
      | Some (_, e) =>
          match rest with
          | [] =>
              UNLOCK previous;;
              UNLOCK id;;
              mret (Entry.inode_number m e)
          | _ :: _ =>
              dir_to_list ← deref (Inode_Global_Read m (Entry.inode_number m e));
              new_entries ← read_directory dir_to_list;
              UNLOCK previous;;
              search_in_directory id rest new_entries
          end
      | None =>
          unlock_all sub_paths;;
          UNLOCK previous;;
          set_errno ENOENT;;
          mret 0
      end
  end.

(** sub_paths[var] = active_file_list_find(...); RDLOCK(...) *)
Fixpoint find_and_rdlock (paths : list (list Z)) : M R (list nat) :=
  match paths with
  | [] => mret []
  | p :: l =>
      id ← active_file_list_find p;
      RDLOCK id;;
      ids ← find_and_rdlock l;
      mret (id :: ids)
  end.

Fixpoint finished_using_all (ids : list nat) : M R unit :=
  match ids with
  | [] => mret tt
  | id :: l => active_file_finished_using id;; finished_using_all l
  end.

(** The inode, or [None] for NULL, and the value left in [inode_number]
    (zero before the call). *)
Definition inode_of_file (path : list Z) : M R (option Z * Z) :=
  match split_path path with
  | None => mret (None, 0)
  | Some splitted_path =>
      sub_paths ← find_and_rdlock splitted_path;
      m ← get_file;
      match sub_paths with
      | [] => fail OutOfBounds
      | [root] =>
          found_file ← deref (Inode_Global_Read m ROOT_INODE_NUMBER);
          UNLOCK root;;
          active_file_finished_using root;;
          mret (Some found_file, ROOT_INODE_NUMBER)
      | root :: rest =>
          root_inode ← deref (Inode_Global_Read m ROOT_INODE_NUMBER);
          root_entries ← read_directory root_inode;
          inode_number ← search_in_directory root rest root_entries;
          found_file ← (if inode_number >? 0
                        then m ← get_file; i ← deref (Inode_Global_Read m inode_number); mret (Some i)
                        else mret None);
          finished_using_all sub_paths;;
          mret (found_file, inode_number)
      end
  end.
End Dirs.
