(* ===== verification/DirFacts.v ===== *)
(** * DirFacts: the entries of a directory block

    A directory block is a sequence of entries that fills the block, each
    with room for its name.  Against this view: putting an entry into a block
    splits the first entry that has room, deleting one gives its space to a
    neighbour, and the rest of the image does not change. *)

From S2P Require Import Prelude Memory Bitarray Ext2 Ext2Facts CString Paths Rfs Alloc BlockMap Dirs.

(** ** Entries *)

Record dentry := { de_inode : Z; de_len : Z; de_type : Z; de_name : list Z }.

Definition with_len (v : Z) (d : dentry) : dentry :=
  {| de_inode := de_inode d; de_len := v; de_type := de_type d; de_name := de_name d |}.

(** The fields fit, the name has room in the entry, and the length keeps the
    entries on multiples of four. *)
Record dentry_ok (d : dentry) : Prop := {
  ok_inode : 0 <= de_inode d < 2 ^ 32;
  ok_len : padded (zlen (de_name d)) <= de_len d < 2 ^ 16;
  ok_align : de_len d mod 4 = 0;
  ok_type : 0 <= de_type d < 256;
  ok_name : zlen (de_name d) < 256 /\ bytes (de_name d)
}.

Record entry_at (m : mem) (a : Z) (d : dentry) : Prop := {
  at_inode : Entry.inode_number m a = de_inode d;
  at_len : Entry.entry_len m a = de_len d;
  at_name_len : Entry.name_len m a = zlen (de_name d);
  at_type : Entry.file_type m a = de_type d;
  at_name : read_bytes m (Entry.file_name a) (zlen (de_name d)) = de_name d
}.

(** The entries [l] fill the memory from [a] to [e]. *)
Fixpoint dir_block (m : mem) (a : Z) (l : list dentry) (e : Z) : Prop :=
  match l with
  | [] => a = e
  | d :: l => entry_at m a d /\ dentry_ok d /\ dir_block m (a + de_len d) l e
  end.

Lemma padded_bounds n : 0 <= n < 256 -> 8 + n <= padded n < 8 + n + 4 /\ (padded n <= 8 -> n = 0).
Proof.
  intros Hn. unfold padded, sizeof_entry. rewrite u32_small by lia.
  pose proof (Z.mod_pos_bound (8 + n) 4 ltac:(lia)). rewrite Z.gtb_ltb.
  case_test; zify_bool; [rewrite u32_small by lia|]; Z.to_euclidean_division_equations; lia.
Qed.

Lemma read_bytes_ext m m' a n :
  (forall x, a <= x < a + n -> m' x = m x) -> read_bytes m' a n = read_bytes m a n.
Proof.
  intros Hx. unfold read_bytes. apply list_fmap_ext. intros i o Ho.
  apply lookup_seqZ in Ho as [-> Ho]. apply Hx. lia.
Qed.

Lemma entry_at_ext m m' a d :
  (forall x, a <= x < a + 8 + zlen (de_name d) -> m' x = m x) -> entry_at m a d -> entry_at m' a d.
Proof.
  intros Hx [Hi Hl Hn Ht Hs]. pose proof (zlen_nonneg (de_name d)). split.
  - rewrite <- Hi. apply (load_ext 4). intros x Hr. apply Hx. lia.
  - rewrite <- Hl. apply (load_ext 2). intros x Hr. apply Hx. lia.
  - rewrite <- Hn. unfold Entry.name_len. rewrite Hx by lia. done.
  - rewrite <- Ht. unfold Entry.file_type. rewrite Hx by lia. done.
  - rewrite <- Hs at 2. apply read_bytes_ext. intros x Hr. apply Hx. unfold Entry.file_name in Hr. lia.
Qed.

Lemma dir_block_app m a l1 l2 e :
  dir_block m a (l1 ++ l2) e <-> exists c, dir_block m a l1 c /\ dir_block m c l2 e.
Proof.
  revert a. induction l1 as [|d l1 IH]; intros a; simpl.
  - split; [eauto|by intros (c & <- & H)].
  - rewrite IH. split; [intros (H1 & H2 & c & H3 & H4)|intros (c & (H1 & H2 & H3) & H4)]; eauto 6.
Qed.

Lemma dentry_len_pos d : dentry_ok d -> 8 + zlen (de_name d) <= de_len d.
Proof. intros [_ [Hl _] _ _ [Hn _]]. pose proof (padded_bounds (zlen (de_name d)) ltac:(pose proof (zlen_nonneg (de_name d)); lia)). lia. Qed.

Lemma dir_block_le m a l e : dir_block m a l e -> a + 8 * zlen l <= e.
Proof.
  revert a. induction l as [|d l IH]; intros a; [unfold zlen; simpl; lia|].
  intros (_ & Hok%dentry_len_pos & Hl%IH). pose proof (zlen_nonneg (de_name d)). rewrite zlen_cons. lia.
Qed.

Lemma dir_block_ext m m' a l e :
  (forall x, a <= x < e -> m' x = m x) -> dir_block m a l e -> dir_block m' a l e.
Proof.
  revert a. induction l as [|d l IH]; intros a Hx; [done|]. intros (Hd & Hok & Hl).
  pose proof (dentry_len_pos d Hok). pose proof (dir_block_le _ _ _ _ Hl). pose proof (zlen_nonneg l).
  pose proof (zlen_nonneg (de_name d)). split_and!; [|done|].
  - eapply entry_at_ext; [|exact Hd]. intros x Hr. apply Hx. lia.
  - apply IH; [|done]. intros x Hr. apply Hx. lia.
Qed.

(** ** Writing entries *)

Lemma copy_entry_outside m a from x :
  zlen (file_name from) = name_len from -> x < a \/ a + 8 + name_len from <= x -> copy_entry m a from x = m x.
Proof.
  intros Hl Hx. unfold copy_entry, memcpy_bytes, store_byte, store16, store32, store, Entry.file_name.
  assert (zlen (take (Z.to_nat (name_len from)) (file_name from)) = name_len from) as ->.
  { unfold zlen in *. rewrite length_take. lia. }
  pose proof (zlen_nonneg (file_name from)). decide_ranges.
  by rewrite !(proj2 (Z.eqb_neq _ _)) by lia.
Qed.

Lemma copy_entry_at m a from :
  0 <= inode_number from < 2 ^ 32 -> 0 <= entry_len from < 2 ^ 16 -> 0 <= file_type from < 256 ->
  zlen (file_name from) = name_len from -> name_len from < 256 ->
  entry_at (copy_entry m a from) a
    {| de_inode := inode_number from; de_len := entry_len from; de_type := file_type from;
       de_name := file_name from |}.
Proof.
  intros Hi Hl Ht Hn Hn2. pose proof (zlen_nonneg (file_name from)) as Hp.
  assert (take (Z.to_nat (name_len from)) (file_name from) = file_name from) as Htake.
  { apply take_ge. unfold zlen in *. lia. }
  unfold copy_entry. rewrite Htake. unfold Entry.file_name.
  assert (Hhead : forall mm x, x < a + 8 -> memcpy_bytes mm (a + 8) (file_name from) x = mm x).
  { intros mm x Hx. unfold memcpy_bytes. by decide_ranges. }
  split; cbn [de_inode de_len de_type de_name].
  - transitivity (load32 (store32 m a (inode_number from)) a);
      [|rewrite load32_store32_same; by apply u32_small].
    apply (load_ext 4). intros x Hx. rewrite Hhead by lia. unfold store_byte.
    rewrite !(proj2 (Z.eqb_neq _ _)) by lia. unfold store16, store at 1. by decide_ranges.
  - transitivity (load16 (store16 (store32 m a (inode_number from)) (a + 4) (entry_len from)) (a + 4));
      [|rewrite load16_store16_same; by apply u16_small].
    apply (load_ext 2). intros x Hx. rewrite Hhead by lia. unfold store_byte.
    by rewrite !(proj2 (Z.eqb_neq _ _)) by lia.
  - unfold Entry.name_len. rewrite Hhead by lia. unfold store_byte.
    rewrite (proj2 (Z.eqb_neq _ _)), Z.eqb_refl, u8_small by lia. done.
  - unfold Entry.file_type. rewrite Hhead by lia. unfold store_byte. rewrite Z.eqb_refl, u8_small by lia. done.
  - unfold Entry.file_name, read_bytes. apply list_eq. intros k. rewrite list_lookup_fmap.
    destruct (decide (Z.of_nat k < zlen (file_name from))) as [Hk|Hk].
    + rewrite lookup_seqZ_lt by lia. cbn [fmap option_fmap option_map]. unfold memcpy_bytes. decide_ranges.
      replace (Z.to_nat (a + 8 + (0 + Z.of_nat k) - (a + 8))) with k by lia.
      destruct (lookup_lt_is_Some_2 (file_name from) k) as [c Hc]; [unfold zlen in Hk; lia|]. by rewrite Hc.
    + rewrite lookup_seqZ_ge by lia. symmetry. apply lookup_ge_None. unfold zlen in Hk. lia.
Qed.

Lemma set_entry_len_at m a v d :
  entry_at m a d -> 0 <= v < 2 ^ 16 -> entry_at (Entry.set_entry_len m a v) a (with_len v d).
Proof.
  intros [Hi Hl Hn Ht Hs] Hv. unfold Entry.set_entry_len. split; cbn [de_inode de_len de_type de_name with_len].
  - rewrite <- Hi. apply (load_store_other 4 2). lia.
  - unfold Entry.entry_len. rewrite load16_store16_same. by apply u16_small.
  - rewrite <- Hn. unfold Entry.name_len, store16, store. by decide_ranges.
  - rewrite <- Ht. unfold Entry.file_type, store16, store. by decide_ranges.
  - rewrite <- Hs at 2. apply read_bytes_ext. intros x Hx. unfold Entry.file_name in Hx.
    unfold store16, store. by decide_ranges.
Qed.

Lemma set_entry_len_outside m a v x : x < a + 4 \/ a + 6 <= x -> Entry.set_entry_len m a v x = m x.
Proof. intros Hx. unfold Entry.set_entry_len, store16, store. by decide_ranges. Qed.

(** ** Reading a block *)

(** The addresses of the entries in use. *)
Fixpoint used_entries (a : Z) (l : list dentry) : list Z :=
  match l with
  | [] => []
  | d :: l => (if negb (de_inode d =? 0) then [a] else []) ++ used_entries (a + de_len d) l
  end.

Lemma block_entries_list m a l e fuel :
  dir_block m a l e -> (length l <= fuel)%nat -> block_entries fuel m e a = Ok (used_entries a l).
Proof.
  revert a fuel. induction l as [|d l IH]; intros a fuel Hb Hf.
  - simpl in Hb. subst e. destruct fuel; simpl; by rewrite Z.ltb_irrefl.
  - destruct fuel as [|fuel]; [simpl in Hf; lia|]. pose proof (dir_block_le _ _ _ _ Hb) as Hle.
    destruct Hb as ([Hi Hl _ _ _] & _ & Hb). rewrite zlen_cons in Hle. pose proof (zlen_nonneg l).
    simpl. rewrite (proj2 (Z.ltb_lt _ _)), Hl, (IH _ _ Hb), Hi by (simpl in Hf; lia). by case_test.
Qed.

(** ** Entering a name *)

Record new_ok (n : entry_t) : Prop := {
  new_inode : 0 <= inode_number n < 2 ^ 32;
  new_len : entry_len n = 8 + name_len n;
  new_type : 0 <= file_type n < 256;
  new_name : zlen (file_name n) = name_len n /\ name_len n < 256 /\ bytes (file_name n)
}.

Definition as_dentry (n : entry_t) (len : Z) : dentry :=
  {| de_inode := inode_number n; de_len := len; de_type := file_type n; de_name := file_name n |}.

Definition size_of (d : dentry) : Z := padded (zlen (de_name d)).

(** The first entry with enough space behind its name is split; one without
    a name is replaced. *)
Fixpoint put_entry (n : entry_t) (l : list dentry) : option (list dentry) :=
  match l with
  | [] => None
  | d :: l =>
      if de_len d - size_of d >? entry_len n then
        Some (if size_of d >? 8
              then with_len (size_of d) d :: as_dentry n (de_len d - size_of d) :: l
              else as_dentry n (de_len d) :: l)
      else cons d <$> put_entry n l
  end.

Lemma padded_align n : 0 <= n < 256 -> padded n mod 4 = 0.
Proof.
  intros Hn. unfold padded, sizeof_entry. rewrite u32_small by lia.
  pose proof (Z.mod_pos_bound (8 + n) 4 ltac:(lia)). rewrite Z.gtb_ltb.
  case_test; zify_bool; [rewrite u32_small by lia|]; Z.to_euclidean_division_equations; lia.
Qed.

Lemma size_of_bounds d :
  dentry_ok d -> 8 + zlen (de_name d) <= size_of d <= de_len d /\ size_of d mod 4 = 0 /\ size_of d < 2 ^ 16.
Proof.
  intros [_ [Hl Hl2] _ _ [Hn _]]. pose proof (zlen_nonneg (de_name d)). unfold size_of.
  pose proof (padded_bounds (zlen (de_name d)) ltac:(lia)). pose proof (padded_align (zlen (de_name d)) ltac:(lia)).
  lia.
Qed.

Lemma with_len_ok d v : dentry_ok d -> size_of d <= v < 2 ^ 16 -> v mod 4 = 0 -> dentry_ok (with_len v d).
Proof. intros [] Hv. by split. Qed.

Lemma as_dentry_ok n len :
  new_ok n -> entry_len n < len < 2 ^ 16 -> len mod 4 = 0 -> dentry_ok (as_dentry n len).
Proof.
  intros [Hi Hl Ht (Hz & Hn & Hb)] Hlen Hm. pose proof (zlen_nonneg (file_name n)).
  assert (padded (zlen (file_name n)) <= len).
  { pose proof (padded_bounds (zlen (file_name n)) ltac:(lia)).
    pose proof (padded_align (zlen (file_name n)) ltac:(lia)). Z.to_euclidean_division_equations; lia. }
  split; simpl; [done|lia|done|done|split; [lia|done]].
Qed.

Lemma copy_new_at m a n len :
  new_ok n -> 0 <= len < 2 ^ 16 ->
  let from := {| inode_number := inode_number n; entry_len := len; name_len := name_len n;
                 file_type := file_type n; file_name := file_name n |} in
  entry_at (copy_entry m a from) a (as_dentry n len) /\
  (forall x, x < a \/ a + entry_len n <= x -> copy_entry m a from x = m x).
Proof.
  intros [Hi Hl Ht (Hz & Hn & Hb)] Hlen from. split.
  - by apply (copy_entry_at m a from).
  - intros x Hx. apply copy_entry_outside; [done|]. simpl. lia.
Qed.

Lemma attach_here m a d l e n :
  dir_block m a (d :: l) e -> new_ok n -> de_len d - size_of d > entry_len n ->
  let l' := if size_of d >? 8 then with_len (size_of d) d :: as_dentry n (de_len d - size_of d) :: l
            else as_dentry n (de_len d) :: l in
  exists m', (forall fuel, attach_in_block (S fuel) m e a n = Ok (Some m')) /\ dir_block m' a l' e /\
    (forall x, x < a \/ e <= x -> m' x = m x).
Proof.
  intros Hb Hnew Hroom l'. pose proof (dir_block_le _ _ _ _ Hb) as Hle. rewrite zlen_cons in Hle.
  pose proof (zlen_nonneg l). destruct Hb as (Hd & Hok & Hb). pose proof Hd as [_ Hlen Hnl _ _].
  pose proof (size_of_bounds d Hok) as (Hs1 & Hs2 & Hs3). pose proof (dir_block_le _ _ _ _ Hb) as Hle2.
  pose proof Hok as [_ [_ Hd16] Hal _ _]. pose proof (zlen_nonneg (de_name d)).
  pose proof Hnew as [_ Hnl2 _ (Hz & _)]. pose proof (zlen_nonneg (file_name n)).
  eexists. split.
  { intros fuel. cbn [attach_in_block]. unfold get_padded_size. rewrite Hlen, Hnl. fold (size_of d).
    rewrite (proj2 (Z.ltb_lt _ _)), !(proj2 (Z.gtb_gt _ _)) by lia. simpl. reflexivity. }
  unfold l'. case_test; zify_bool.
  - rewrite u16_small by lia.
    destruct (copy_new_at (Entry.set_entry_len m a (size_of d)) (a + size_of d) n (de_len d - size_of d)
                Hnew ltac:(lia)) as [Hc Ho].
    split.
    + cbn [dir_block]. split_and!.
      * eapply entry_at_ext; [|apply set_entry_len_at; [done|lia]]. intros x Hx. simpl in Hx. apply Ho. lia.
      * apply with_len_ok; [done|lia|done].
      * exact Hc.
      * apply as_dentry_ok; [done|lia|]. Z.to_euclidean_division_equations; lia.
      * cbn [de_len with_len as_dentry]. replace (a + size_of d + (de_len d - size_of d)) with (a + de_len d) by lia.
        eapply dir_block_ext; [|done]. intros x Hx. rewrite Ho by lia. apply set_entry_len_outside. lia.
    + intros x Hx. rewrite Ho by lia. apply set_entry_len_outside. lia.
  - destruct (copy_new_at m a n (de_len d) Hnew ltac:(lia)) as [Hc Ho]. split.
    + cbn [dir_block]. split_and!; [exact Hc|apply as_dentry_ok; [done|lia|done]|].
      eapply dir_block_ext; [|done]. intros x Hx. cbn [de_len as_dentry] in Hx. apply Ho. lia.
    + intros x Hx. apply Ho. lia.
Qed.

Lemma attach_in_block_put m a l e fuel n :
  dir_block m a l e -> new_ok n -> (length l <= fuel)%nat ->
  match put_entry n l with
  | Some l' =>
      exists m', attach_in_block fuel m e a n = Ok (Some m') /\ dir_block m' a l' e /\
        (forall x, x < a \/ e <= x -> m' x = m x)
  | None => attach_in_block fuel m e a n = Ok None
  end.
Proof.
  revert a fuel. induction l as [|d l IH]; intros a fuel Hb Hnew Hf.
  - simpl in Hb. subst e. destruct fuel; simpl; by rewrite Z.ltb_irrefl.
  - destruct fuel as [|fuel]; [simpl in Hf; lia|]. cbn [put_entry]. case_test; zify_bool.
    { destruct (attach_here m a d l e n Hb Hnew ltac:(apply Z.gtb_gt in E; lia)) as (m' & Ha & Hr). eauto. }
    pose proof (dir_block_le _ _ _ _ Hb) as Hle. rewrite zlen_cons in Hle. pose proof (zlen_nonneg l).
    destruct Hb as (Hd & Hok & Hb). pose proof Hd as [_ Hlen Hnl _ _].
    pose proof (dir_block_le _ _ _ _ Hb) as Hle2. pose proof (size_of_bounds d Hok) as (Hs1 & _ & _).
    pose proof (zlen_nonneg (de_name d)).
    assert (Hstep : attach_in_block (S fuel) m e a n = attach_in_block fuel m e (a + de_len d) n).
    { cbn [attach_in_block]. unfold get_padded_size. rewrite Hlen, Hnl. fold (size_of d).
      rewrite (proj2 (Z.ltb_lt _ _)), E, andb_false_r by lia. done. }
    rewrite Hstep. specialize (IH (a + de_len d) fuel Hb Hnew ltac:(simpl in Hf; lia)).
    destruct (put_entry n l) as [l'|]; [|done]. destruct IH as (m' & Ha & Hb' & Ho).
    exists m'. split; [done|]. split; [|intros x Hx; apply Ho; lia]. split_and!; [|done|done].
    eapply entry_at_ext; [|done]. intros x Hx. apply Ho. lia.
Qed.

(** The names of a block with their inodes. *)
Definition named (l : list dentry) : list (Z * list Z) :=
  (fun d => (de_inode d, de_name d)) <$> filter (fun d => de_name d <> []) l.

Lemma named_app l1 l2 : named (l1 ++ l2) = named l1 ++ named l2.
Proof. unfold named. by rewrite filter_app, fmap_app. Qed.

Lemma named_cons d l :
  named (d :: l) = (if decide (de_name d = []) then [] else [(de_inode d, de_name d)]) ++ named l.
Proof. unfold named. rewrite filter_cons. repeat case_decide; try done. Qed.

Lemma size_of_empty d : dentry_ok d -> (size_of d >? 8) = bool_decide (de_name d <> []).
Proof.
  intros Hok. destruct (de_name d) as [|c s] eqn:En.
  - unfold size_of. by rewrite En.
  - rewrite bool_decide_eq_true_2 by done. pose proof (size_of_bounds d Hok) as [Hs _]. rewrite En, zlen_cons in Hs.
    pose proof (zlen_nonneg s). apply Z.gtb_gt. lia.
Qed.

Lemma put_entry_named n l l' :
  Forall dentry_ok l -> file_name n <> [] -> put_entry n l = Some l' ->
  named l' ≡ₚ (inode_number n, file_name n) :: named l.
Proof.
  intros Hl Hn. revert l'. induction Hl as [|d l Hd Hl IH]; intros l'; [done|]. cbn [put_entry].
  case_test; [intros [= <-]|].
  - rewrite size_of_empty by done. case_bool_decide as Hd0; rewrite !named_cons; cbn [de_name de_inode as_dentry with_len].
    + rewrite (decide_False (P := de_name d = [])), (decide_False (P := file_name n = [])) by done.
      simpl. by constructor.
    + rewrite (decide_False (P := file_name n = [])), (decide_True (P := de_name d = [])) by done. done.
  - destruct (put_entry n l) as [l2|]; [|done]. intros [= <-]. rewrite !named_cons, (IH _ eq_refl).
    by rewrite Permutation_middle.
Qed.

Lemma dir_block_ok m a l e : dir_block m a l e -> Forall dentry_ok l.
Proof. revert a. induction l as [|d l IH]; intros a; [constructor|]. intros (_ & Hok & Hb). constructor; eauto. Qed.

Lemma dir_block_fuel m a l e : dir_block m a l e -> 0 <= e - a -> (length l <= Z.to_nat (e - a))%nat.
Proof. intros Hb He. pose proof (dir_block_le _ _ _ _ Hb) as Hle. unfold zlen in Hle. lia. Qed.

(** ** Deleting a name *)

Lemma entry_has_name_at m a d name :
  entry_at m a d -> entry_has_name m a name = bool_decide (de_name d = name).
Proof.
  intros [_ _ Hn _ Hs]. unfold entry_has_name, strlen. rewrite Hn.
  destruct (decide (de_name d = name)) as [Hd|Hd].
  - by rewrite <- Hd, Z.eqb_refl, Hs, !bool_decide_eq_true_2 by done.
  - rewrite (bool_decide_eq_false_2 (de_name d = name)) by done.
    destruct (Z.eqb_spec (zlen (de_name d)) (zlen name)) as [Hz|Hz]; [|done].
    by rewrite <- Hz, Hs, bool_decide_eq_false_2 by done.
Qed.

Definition heap_entry (d : dentry) : entry_t :=
  {| inode_number := de_inode d; entry_len := de_len d; name_len := zlen (de_name d);
     file_type := de_type d; file_name := de_name d |}.

Lemma copy_entry_in_file_at m to from d :
  entry_at m from d -> to + 8 <= from ->
  if zlen (de_name d) <=? from - to then
    exists m', copy_entry_in_file m to from = Ok m' /\ forall x, m' x = copy_entry m to (heap_entry d) x
  else copy_entry_in_file m to from = Fail Overlap.
Proof.
  intros Hd Hto. pose proof (zlen_nonneg (de_name d)) as Hp.
  unfold copy_entry_in_file, copy_entry, heap_entry.
  cbn [inode_number entry_len name_len file_type file_name].
  rewrite (at_inode _ _ _ Hd). set (m1 := store32 m to (de_inode d)).
  assert (entry_at m1 from d) as H1.
  { eapply entry_at_ext; [|exact Hd]. intros y Hy. unfold m1, store32, store. by decide_ranges. }
  rewrite (at_len _ _ _ H1). set (m2 := store16 m1 (to + 4) (de_len d)).
  assert (entry_at m2 from d) as H2.
  { eapply entry_at_ext; [|exact H1]. intros y Hy. unfold m2, store16, store. by decide_ranges. }
  rewrite (at_name_len _ _ _ H2). set (m3 := store_byte m2 (to + 6) (zlen (de_name d))).
  assert (entry_at m3 from d) as H3.
  { eapply entry_at_ext; [|exact H2]. intros y Hy. unfold m3, store_byte.
    by rewrite (proj2 (Z.eqb_neq _ _)) by lia. }
  rewrite (at_type _ _ _ H3). set (m4 := store_byte m3 (to + 7) (de_type d)).
  assert (entry_at m4 from d) as H4.
  { eapply entry_at_ext; [|exact H3]. intros y Hy. unfold m4, store_byte.
    by rewrite (proj2 (Z.eqb_neq _ _)) by lia. }
  rewrite (at_name_len _ _ _ H4), take_ge by (unfold zlen; lia).
  destruct (Z.leb_spec (zlen (de_name d)) (from - to)); [|apply memcpy_overlap; unfold Entry.file_name; lia].
  eexists. split; [apply memcpy_apart; unfold Entry.file_name; lia|]. intros x.
  unfold moved, memcpy_bytes, Entry.file_name. case_range; [|done].
  pose proof (at_name _ _ _ H4) as Hs. unfold read_bytes, Entry.file_name in Hs.
  rewrite <- Hs. rewrite list_lookup_fmap, lookup_seqZ_lt by lia. simpl. f_equal. lia.
Qed.

(** The name of the entry behind [d] is not longer than [d]. *)
Definition name_fits (d d2 : dentry) : bool := zlen (de_name d2) <=? de_len d.

Lemma take_over_next m a d d2 l e :
  dir_block m a (d :: d2 :: l) e -> e - a < 2 ^ 16 ->
  let next := a + de_len d in
  let m1 := Entry.set_entry_len m next (Entry.entry_len m next + Entry.entry_len m a) in
  if name_fits d d2 then
    exists m', copy_entry_in_file m1 a next = Ok m' /\
      dir_block m' a (with_len (de_len d2 + de_len d) d2 :: l) e /\ (forall x, x < a \/ e <= x -> m' x = m x)
  else copy_entry_in_file m1 a next = Fail Overlap.
Proof.
  intros Hb He next m1. destruct Hb as (Hd & Hok & Hd2 & Hok2 & Hb).
  pose proof (dir_block_le _ _ _ _ Hb) as Hle. pose proof (zlen_nonneg l).
  pose proof (size_of_bounds d Hok) as (Hs & _ & _). pose proof (size_of_bounds d2 Hok2) as (Hs2 & _ & _).
  pose proof (zlen_nonneg (de_name d)). pose proof (zlen_nonneg (de_name d2)).
  set (d' := with_len (de_len d2 + de_len d) d2).
  assert (Hd' : entry_at m1 next d').
  { unfold m1, d', next. rewrite (at_len _ _ _ Hd2), (at_len _ _ _ Hd). apply set_entry_len_at; [done|lia]. }
  pose proof (copy_entry_in_file_at m1 a next d' Hd' ltac:(unfold next; lia)) as Hc. unfold name_fits.
  change (de_name d') with (de_name d2) in Hc. replace (next - a) with (de_len d) in Hc by (unfold next; lia).
  destruct (zlen (de_name d2) <=? de_len d); [|done]. destruct Hc as (m' & Hrun & Hc). exists m'. split; [done|].
  assert (dentry_ok d') as Hok'.
  { apply with_len_ok; [done|lia|]. pose proof (ok_align _ Hok). pose proof (ok_align _ Hok2).
    Z.to_euclidean_division_equations; lia. }
  assert (Ho : forall x, x < a \/ a + de_len d2 + de_len d <= x -> m' x = m x).
  { intros x Hx. rewrite Hc, copy_entry_outside; [|done|simpl; lia].
    apply set_entry_len_outside. unfold next. lia. }
  split; [|intros x Hx; apply Ho; lia]. cbn [dir_block]. split_and!; [|done|].
  - destruct Hok' as [Hi [_ Hl] _ Ht [Hn _]]. pose proof (size_of_bounds d2 Hok2).
    eapply entry_at_ext; [intros x _; apply Hc|].
    by apply (copy_entry_at m1 a (heap_entry d')); cbn [inode_number entry_len file_type file_name name_len heap_entry];
      [|simpl; lia|..].
  - unfold d'. cbn [de_len with_len]. replace (a + (de_len d2 + de_len d)) with (a + de_len d + de_len d2) by lia.
    eapply dir_block_ext; [|done]. intros x Hx. apply Ho. lia.
Qed.

(** The entry called [name] behind [p] is taken out: its space goes to the
    next entry, or to [p] when it is the last one. *)
Fixpoint take_out (name : list Z) (p : dentry) (l : list dentry) : list dentry :=
  match l with
  | [] => [p]
  | d :: rest =>
      if bool_decide (de_name d = name) then
        match rest with
        | [] => [with_len (de_len p + de_len d) p]
        | d2 :: l3 => p :: with_len (de_len d2 + de_len d) d2 :: l3
        end
      else p :: take_out name d rest
  end.

(** The same for the entry that is taken out. *)
Fixpoint names_fit_out (name : list Z) (l : list dentry) : bool :=
  match l with
  | d :: rest =>
      if bool_decide (de_name d = name) then match rest with [] => true | d2 :: _ => name_fits d d2 end
      else names_fit_out name rest
  | [] => true
  end.

Lemma delete_in_block_take_out `{Superblock_constants} m a l p fuel acum name :
  BLOCK_SIZE < 2 ^ 16 -> 0 <= acum ->
  dir_block m a (p :: l) (a + BLOCK_SIZE - acum) -> name ∈ de_name <$> l -> (length l < fuel)%nat ->
  if names_fit_out name l then
    exists m', delete_in_block fuel m (a + BLOCK_SIZE - acum) a acum name = Ok (Some m') /\
      dir_block m' a (take_out name p l) (a + BLOCK_SIZE - acum) /\
      (forall x, x < a \/ a + BLOCK_SIZE - acum <= x -> m' x = m x)
  else delete_in_block fuel m (a + BLOCK_SIZE - acum) a acum name = Fail Overlap.
Proof.
  intros HBS. revert a p fuel acum.
  induction l as [|d l IH]; intros a p fuel acum Hac Hb Hin Hf; [by apply not_elem_of_nil in Hin|].
  destruct fuel as [|fuel]; [simpl in Hf; lia|].
  remember (a + BLOCK_SIZE - acum) as e eqn:He.
  pose proof Hb as (Hp & Hokp & Hd & Hok & Hb2).
  pose proof (dir_block_le _ _ _ _ Hb2) as Hle. pose proof (zlen_nonneg l).
  pose proof (size_of_bounds p Hokp) as (Hsp & _ & _). pose proof (size_of_bounds d Hok) as (Hs & _ & _).
  pose proof (zlen_nonneg (de_name d)). pose proof (zlen_nonneg (de_name p)).
  cbn [delete_in_block take_out names_fit_out]. rewrite (proj2 (Z.ltb_lt _ _)), (at_len _ _ _ Hp) by lia.
  rewrite (entry_has_name_at _ _ _ name Hd). rewrite !(at_len _ _ _ Hd), (u32_small (acum + de_len p)) by lia.
  case_bool_decide as Hname.
  - rewrite u32_small by lia. destruct l as [|d2 l].
    + simpl in Hb2. rewrite (proj2 (Z.eqb_eq _ _)) by lia. eexists. split; [done|]. split.
      * split_and!; [apply set_entry_len_at; [done|lia]|apply with_len_ok; [done|lia|]|simpl; lia].
        pose proof (ok_align _ Hok). pose proof (ok_align _ Hokp). Z.to_euclidean_division_equations; lia.
      * intros x Hx. apply set_entry_len_outside. lia.
    + rewrite zlen_cons in Hle. pose proof (zlen_nonneg l). rewrite (proj2 (Z.eqb_neq _ _)) by lia.
      pose proof (take_over_next m (a + de_len p) d d2 l e ltac:(split_and!; apply Hb) ltac:(lia)) as Hc.
      cbv zeta in Hc. rewrite (at_len _ _ _ Hd) in Hc. destruct (name_fits d d2); [|by rewrite Hc].
      destruct Hc as (m' & -> & Ht & Ho). exists m'. split; [done|].
      split; [|intros x Hx; apply Ho; lia]. split_and!; [|done|exact Ht].
      eapply entry_at_ext; [|exact Hp]. intros x Hx. apply Ho. lia.
  - assert (name ∈ de_name <$> l) as Hin' by (apply elem_of_cons in Hin as [->|]; done).
    specialize (IH (a + de_len p) d fuel (acum + de_len p)).
    replace (a + de_len p + BLOCK_SIZE - (acum + de_len p)) with e in IH by lia.
    specialize (IH ltac:(lia) ltac:(split_and!; apply Hb) Hin' ltac:(simpl in Hf; lia)).
    destruct (names_fit_out name l); [|exact IH]. destruct IH as (m' & Hrun & Hb' & Ho).
    exists m'. split; [done|]. split; [|intros x Hx; apply Ho; lia].
    split_and!; [|done|done]. eapply entry_at_ext; [|exact Hp]. intros x Hx. apply Ho. lia.
Qed.

Lemma take_out_named name p l :
  de_name p <> name -> name ∈ de_name <$> l -> name <> [] ->
  exists l1 i l2, named (p :: l) = l1 ++ (i, name) :: l2 /\ (name ∉ l1.*2) /\
    named (take_out name p l) = l1 ++ l2.
Proof.
  intros Hp Hin Hn. revert p Hp.
  induction l as [|d l IH]; intros p Hp; [by apply not_elem_of_nil in Hin|]. cbn [take_out].
  assert (Hhead : name ∉ (named [p]).*2).
  { rewrite named_cons. case_decide; simpl; [apply not_elem_of_nil|].
    intros [->|Hx]%elem_of_cons; [done|by apply not_elem_of_nil in Hx]. }
  case_bool_decide as Hd.
  - exists (named [p]), (de_inode d), (named l). split_and!; [|done|].
    + change (named ([p] ++ [d] ++ l) = named [p] ++ (de_inode d, name) :: named l).
      rewrite !named_app. f_equal. rewrite named_cons, Hd, decide_False by done. done.
    + destruct l as [|d2 l].
      * rewrite (app_nil_r (named [p]) : named [p] ++ named [] = _). by rewrite !named_cons.
      * change (named ([p] ++ [with_len (de_len d2 + de_len d) d2] ++ l) = named [p] ++ named ([d2] ++ l)).
        rewrite !named_app. by rewrite (named_cons (with_len _ d2)), (named_cons d2).
  - apply elem_of_cons in Hin as [->|Hin]; [done|].
    destruct (IH Hin d Hd) as (l1 & i & l2 & Hl & Hl1 & Ht).
    exists (named [p] ++ l1), i, l2. split_and!.
    + change (named ([p] ++ d :: l) = (named [p] ++ l1) ++ (i, name) :: l2). by rewrite named_app, Hl, app_assoc.
    + rewrite fmap_app, not_elem_of_app. done.
    + change (named ([p] ++ take_out name d l) = (named [p] ++ l1) ++ l2). by rewrite named_app, Ht, app_assoc.
Qed.

(** ** The operations of [file_operations.c] on a block *)

Section Operations.
Context {Super_constants : Superblock_constants} {WA : Word_after_array} {C : Type} `{Memcached C}.

(** C38: Reading a directory block finds the addresses of exactly the entries
    in use, in the order of the block, and does not run out of steps.  *)
Theorem blocks_entries_used (m : mem) (b : Z) (l : list dentry) (bs : list Z) (r : list Z) :
  0 <= BLOCK_SIZE -> dir_block m (block_addr b) l (block_addr b + BLOCK_SIZE) ->
  blocks_entries m bs = Ok r ->
  blocks_entries m (b :: bs) = Ok (used_entries (block_addr b) l ++ r).
Proof.
  intros HBS Hb Hr. cbn [blocks_entries].
  rewrite (block_entries_list _ _ _ _ block_fuel Hb), Hr; [done|].
  pose proof (dir_block_fuel _ _ _ _ Hb ltac:(lia)). unfold block_fuel.
  replace (block_addr b + BLOCK_SIZE - block_addr b) with BLOCK_SIZE in * by lia. lia.
Qed.

(** Entering a name into a directory block: when an entry has more free
    space than the new one needs, the block is again a sequence of entries
    that fills it, its names are the old ones and the new one, and nothing
    outside of the block changes; when none has, the next block is tried. *)
Lemma attach_in_blocks_enters (m : mem) (b : Z) (bs : list Z) (l : list dentry) (n : entry_t) :
  0 <= BLOCK_SIZE -> dir_block m (block_addr b) l (block_addr b + BLOCK_SIZE) ->
  new_ok n -> file_name n <> [] ->
  match put_entry n l with
  | Some l' =>
      named l' ≡ₚ (inode_number n, file_name n) :: named l /\
      exists m', attach_in_blocks m (b :: bs) n = Ok (Some m') /\
        dir_block m' (block_addr b) l' (block_addr b + BLOCK_SIZE) /\
        forall x, x < block_addr b \/ block_addr b + BLOCK_SIZE <= x -> m' x = m x
  | None => attach_in_blocks m (b :: bs) n = attach_in_blocks m bs n
  end.
Proof.
  intros HBS Hb Hn Hname. cbn [attach_in_blocks].
  assert (length l <= block_fuel)%nat as Hf.
  { pose proof (dir_block_fuel _ _ _ _ Hb ltac:(lia)). unfold block_fuel.
    replace (block_addr b + BLOCK_SIZE - block_addr b) with BLOCK_SIZE in * by lia. done. }
  pose proof (attach_in_block_put _ _ _ _ _ n Hb Hn Hf) as Ha.
  destruct (put_entry n l) as [l'|] eqn:El; [|by rewrite Ha].
  split; [by apply put_entry_named; [eapply dir_block_ok|..]|].
  destruct Ha as (m' & Ha & Hr). exists m'. by rewrite Ha.
Qed.

Lemma take_out_first (m : mem) (a : Z) (p d2 : dentry) (l : list dentry) :
  0 <= BLOCK_SIZE < 2 ^ 16 -> dir_block m a (p :: d2 :: l) (a + BLOCK_SIZE) ->
  let next := a + Entry.entry_len m a in
  let m1 := Entry.set_entry_len m next (Entry.entry_len m next + Entry.entry_len m a) in
  if name_fits p d2 then
    exists m', copy_entry_in_file m1 a next = Ok m' /\
      dir_block m' a (with_len (de_len d2 + de_len p) d2 :: l) (a + BLOCK_SIZE) /\
      (forall x, x < a \/ a + BLOCK_SIZE <= x -> m' x = m x)
  else copy_entry_in_file m1 a next = Fail Overlap.
Proof.
  intros HBS Hb next m1. pose proof Hb as (Hp & _).
  pose proof (take_over_next m a p d2 l _ Hb ltac:(lia)) as Ht. unfold m1, next.
  by rewrite !(at_len _ _ _ Hp) in *.
Qed.

(** Deleting a name that is in a directory block: the first entry with
    it is taken out, its space goes to a neighbour, the other names stay in
    their order, and nothing outside of the block changes.  The first entry
    of the block must have another one behind it and not be as long as the
    block less its own padded size, which the code takes for the only entry,
    and the name behind the entry must fit in its record ([names_fit_out]),
    or the code copies between regions that overlap. *)
Lemma delete_in_blocks_takes_out (s : rfs C) (b : Z) (bs : list Z) (p : dentry) (l : list dentry)
    (var inode : Z) (name : list Z) :
  0 <= BLOCK_SIZE < 2 ^ 16 ->
  dir_block (file s) (block_addr b) (p :: l) (block_addr b + BLOCK_SIZE) ->
  name <> [] -> name ∈ de_name <$> p :: l ->
  (de_name p = name -> l <> [] /\ de_len p <> BLOCK_SIZE - size_of p) ->
  names_fit_out name (p :: l) = true ->
  exists m' l' l1 i l2,
    delete_in_blocks (b :: bs) var inode name s = Ok (tt, with_file m' s) /\
    dir_block m' (block_addr b) l' (block_addr b + BLOCK_SIZE) /\
    named (p :: l) = l1 ++ (i, name) :: l2 /\ (name ∉ l1.*2) /\ named l' = l1 ++ l2 /\
    forall x, x < block_addr b \/ block_addr b + BLOCK_SIZE <= x -> m' x = file s x.
Proof.
  intros HBS Hb Hn Hin Hfirst Hfit. set (a := block_addr b) in *. cbn [names_fit_out] in Hfit.
  pose proof Hb as (Hp & Hok & Hbl). pose proof (dir_block_le _ _ _ _ Hbl) as Hle.
  pose proof (size_of_bounds p Hok) as (Hs & _ & _). pose proof (zlen_nonneg l).
  pose proof (zlen_nonneg (de_name p)).
  cbn [delete_in_blocks]. rewrite (bind_ok _ _ s (file s) s) by done. fold a.
  rewrite (entry_has_name_at _ _ _ name Hp). unfold get_padded_size. rewrite (at_name_len _ _ _ Hp).
  fold (size_of p). rewrite u32_small by lia.
  case_bool_decide as Hd.
  - destruct (Hfirst Hd) as [Hl Hlen]. destruct l as [|d2 l]; [done|].
    pose proof (take_out_first _ _ _ _ _ HBS Hb) as Hc. cbv zeta in Hc. rewrite Hfit in Hc.
    destruct Hc as (m' & -> & Ht & Ho).
    rewrite (proj2 (Z.eqb_neq _ _)) by (rewrite (at_len _ _ _ Hp); lia).
    exists m'. eexists _, [], (de_inode p), (named (d2 :: l)).
    split; [reflexivity|]. split; [exact Ht|]. split_and!; [|apply not_elem_of_nil| |exact Ho].
    2: { rewrite app_nil_l. by rewrite (named_cons (with_len _ d2)), (named_cons d2). }
    change (named ([p] ++ d2 :: l) = [(de_inode p, name)] ++ named (d2 :: l)). rewrite named_app. f_equal.
    by rewrite named_cons, Hd, decide_False.
  - assert (name ∈ de_name <$> l) as Hin' by (apply elem_of_cons in Hin as [->|]; done).
    destruct (take_out_named name p l Hd Hin' Hn) as (l1 & i & l2 & Hl1 & Hl2 & Hl3).
    replace (a + BLOCK_SIZE) with (a + BLOCK_SIZE - 0) in Hb by lia.
    pose proof (delete_in_block_take_out (file s) a l p block_fuel 0 name (proj2 HBS) (Z.le_refl 0) Hb Hin'
      ltac:(unfold block_fuel, zlen in *; lia)) as Hc.
    rewrite Hfit in Hc. destruct Hc as (m' & Hrun & Hb' & Ho).
    rewrite Z.sub_0_r in Hrun, Hb', Ho. rewrite Hrun.
    exists m', (take_out name p l), l1, i, l2. split_and!; done.
Qed.
End Operations.

(** ** A block with three entries *)

Definition three_entries : list dentry := [
  {| de_inode := 2; de_len := 12; de_type := 0; de_name := [46] |};
  {| de_inode := 7; de_len := 12; de_type := 0; de_name := [97; 98] |};
  {| de_inode := 9; de_len := 40; de_type := 0; de_name := [99] |}].

Definition three_sb : Superblock_constants := {|
  TOTAL_NUMBER_INODES_FS := 8; TOTAL_NUMBER_BLOCKS_FS := 64; BLOCKS_PER_GROUP := 64; INODES_PER_GROUP := 8;
  BLOCK_SIZE := 64; TOTAL_GROUPS := 1; GDT_START := 0 |}.

Fixpoint lay_entries (m : mem) (a : Z) (l : list dentry) : mem :=
  match l with
  | [] => m
  | d :: l => copy_entry (lay_entries m (a + de_len d) l) a (heap_entry d)
  end.

Definition three_image : mem := lay_entries (fun _ => 0) 1024 three_entries.

Definition three_server : rfs unit :=
  {| file := three_image; errno := 0; active_file_list := []; next_id := 0; fs_sleep := 0;
     writes_to_sync := 0; memc := tt |}.

Definition new_entry : entry_t := create_entry [100; 101] 11.

Lemma lay_entries_block m a l :
  Forall dentry_ok l -> dir_block (lay_entries m a l) a l (a + foldr (fun d n => de_len d + n) 0 l).
Proof.
  intros Hl. revert a. induction Hl as [|d l Hd Hl IH]; intros a; [simpl; lia|]. cbn [lay_entries foldr dir_block].
  pose proof (size_of_bounds d Hd) as (Hs & _ & _). pose proof (zlen_nonneg (de_name d)).
  assert (entry_at (copy_entry (lay_entries m (a + de_len d) l) a (heap_entry d)) a d) as Hat.
  { pose proof Hd as [Hi [_ Hn] _ Ht [Hz _]].
    pose proof (copy_entry_at (lay_entries m (a + de_len d) l) a (heap_entry d)) as Hc. destruct d.
    apply Hc; simpl in *; [done|lia|done..]. }
  split; [exact Hat|]. split; [exact Hd|]. rewrite Z.add_assoc.
  eapply dir_block_ext; [|apply IH]. intros x Hx. apply copy_entry_outside; [done|simpl; lia].
Qed.

Lemma three_entries_ok : Forall dentry_ok three_entries.
Proof.
  repeat constructor; simpl; try lia; try reflexivity; try discriminate.
Qed.

Lemma three_block : @dir_block three_image 1024 three_entries (1024 + 64).
Proof. exact (lay_entries_block (fun _ => 0) 1024 three_entries three_entries_ok). Qed.

Lemma new_entry_ok : new_ok new_entry.
Proof.
  split; [vm_compute; split; congruence|reflexivity|vm_compute; split; congruence|].
  split; [reflexivity|split; [reflexivity|]]. refine (bool_decide_unpack _ _); vm_compute; exact I.
Qed.

Lemma three_size : 0 <= @BLOCK_SIZE three_sb < 2 ^ 16.
Proof. split; [discriminate|reflexivity]. Qed.

Lemma blocks_entries_used_witness :
  @blocks_entries three_sb three_image [16] = Ok [1024; 1036; 1048].
Proof.
  exact (@blocks_entries_used three_sb three_image 16 three_entries [] []
           (proj1 three_size) three_block eq_refl).
Defined.

(** The last entry has 28 bytes behind its name, of which the new one takes all. *)
Lemma attach_in_blocks_enters_witness :
  exists m', @attach_in_blocks three_sb three_image [16] new_entry = Ok (Some m') /\
    dir_block m' 1024 [
      {| de_inode := 2; de_len := 12; de_type := 0; de_name := [46] |};
      {| de_inode := 7; de_len := 12; de_type := 0; de_name := [97; 98] |};
      {| de_inode := 9; de_len := 12; de_type := 0; de_name := [99] |};
      {| de_inode := 11; de_len := 28; de_type := 0; de_name := [100; 101] |}] 1088.
Proof.
  destruct (@attach_in_blocks_enters three_sb three_image 16 [] three_entries new_entry
              (proj1 three_size) three_block new_entry_ok ltac:(discriminate)) as (_ & m' & Hrun & Hb & _).
  exists m'. split; [exact Hrun|exact Hb].
Defined.

(** The name in the middle goes, its space goes to the last entry. *)
Lemma delete_in_blocks_takes_out_witness :
  exists m', @delete_in_blocks three_sb unit [16] 0 2048 [97; 98] three_server =
      Ok (tt, with_file m' three_server).
Proof.
  destruct (@delete_in_blocks_takes_out three_sb unit three_server 16 []
    {| de_inode := 2; de_len := 12; de_type := 0; de_name := [46] |} (drop 1 three_entries) 0 2048 [97; 98]
    three_size three_block ltac:(discriminate)) as (m' & l' & l1 & i & l2 & Hrun & _).
  - refine (bool_decide_unpack _ _). vm_compute. exact I.
  - discriminate.
  - vm_compute. reflexivity.
  - exists m'. exact Hrun.
Defined.
