(* ===== verification/Walk.v ===== *)
(** * Walk: from a path to an inode

    [inode_of_file] of [file_operations.c] takes the table entry of every
    ancestor, locks them for reading, walks down the directories of the image
    while it unlocks them, and gives the entries back.  [resolves] is the
    meaning of a path in an image; the main theorem says that the walk
    computes it and leaves the table as it found it. *)

From S2P Require Import Prelude Memory Bitarray Ext2 CString Paths Rfs ActiveFiles Alloc BlockMap Dirs.

(** ** Locks of the table *)

Section Locks.
Context {C : Type}.
Abbreviation R := (rfs C).
Implicit Types (s : R) (refs ids : list nat) (lk : nat -> rwlock_t).

Definition set_lk (id : nat) (k : rwlock_t) (lk : nat -> rwlock_t) : nat -> rwlock_t :=
  fun j => if (j =? id)%nat then k else lk j.

(** One reader on each of [ids]. *)
Definition held ids : nat -> rwlock_t := fun id =>
  if decide (id ∈ ids) then {| readers := 1; writer := false |} else unlocked.

Lemma table_inv_ext s refs lk lk' :
  (forall id, lk id = lk' id) -> table_inv s refs lk -> table_inv s refs lk'.
Proof.
  intros E [Hp Hi Hf Hu Hl Hc Hr]. split; try done.
  - eapply Forall_impl; [exact Hu|]. simpl. intros a ->. apply E.
  - intros id Hid. rewrite <- E. by apply Hl.
Qed.

Lemma with_lock_inv s refs lk id f k :
  table_inv s refs lk -> id ∈ refs -> f (lk id) = Ok k ->
  exists s', with_lock id f s = Ok (tt, s') /\ table_inv s' refs (set_lk id k lk) /\
    (forall j, path_at s' j = path_at s j) /\ table_moved s s'.
Proof.
  intros [Hp Hi Hf Hu Hl Hc Hr] Hid Hfk.
  rewrite Forall_forall in Hr. pose proof (Hr id Hid) as (a & Hida & Ha)%list_elem_of_fmap.
  rewrite Forall_forall in Hu.
  eexists. split; [eapply with_lock_run; [done|exact Ha|done|]|].
  { rewrite (Hu a Ha), <- Hida. exact Hfk. }
  split_and!; [|intros j; by rewrite path_at_update|done].
  split; cbn [with_files active_file_list next_id].
  - by rewrite update_id_paths.
  - by rewrite update_id_ids.
  - apply Forall_forall. intros b (c & Hc' & ->)%elem_update_id.
    rewrite Forall_forall in Hf. case_match; simpl; by apply Hf.
  - apply Forall_forall. intros b (c & Hc' & ->)%elem_update_id. unfold set_lk.
    destruct (af_id c =? id)%nat eqn:E; cbn [set_lock af_id rwlock]; rewrite E; [done|by apply Hu].
  - intros j Hj. unfold set_lk. destruct (j =? id)%nat eqn:E; [|by apply Hl].
    apply Nat.eqb_eq in E as ->. rewrite Forall_forall in Hf. specialize (Hf a Ha). lia.
  - apply Forall_forall. intros b (c & Hc' & ->)%elem_update_id.
    rewrite Forall_forall in Hc. case_match; simpl; by apply Hc.
  - rewrite update_id_ids by done. by apply Forall_forall.
Qed.

Lemma held_cons id ids j :
  id ∉ ids -> held (id :: ids) j = set_lk id {| readers := 1; writer := false |} (held ids) j.
Proof.
  intros Hn. unfold held, set_lk. destruct (Nat.eqb_spec j id) as [->|Hne].
  - by rewrite decide_True by by left.
  - destruct (decide (j ∈ ids)) as [Hj|Hj].
    + by rewrite decide_True by by right.
    + rewrite decide_False; [done|]. rewrite elem_of_cons. by intros [].
Qed.

Lemma held_remove id ids j :
  id ∉ ids -> set_lk id unlocked (held (id :: ids)) j = held ids j.
Proof.
  intros Hn. unfold held, set_lk.
  destruct (Nat.eqb_spec j id) as [->|Hne]; [by rewrite decide_False|].
  destruct (decide (j ∈ ids)) as [Hj|Hj].
  - by rewrite decide_True by by right.
  - rewrite decide_False; [done|]. rewrite elem_of_cons. by intros [].
Qed.

Lemma held_perm ids ids' j : ids ≡ₚ ids' -> held ids j = held ids' j.
Proof.
  intros E. unfold held. destruct (decide (j ∈ ids)) as [Hj|Hj].
  - rewrite decide_True; [done|by rewrite <- E].
  - rewrite decide_False; [done|by rewrite <- E].
Qed.

Lemma RDLOCK_held s refs ids id :
  table_inv s refs (held ids) -> id ∈ refs -> id ∉ ids ->
  exists s', RDLOCK id s = Ok (tt, s') /\ table_inv s' refs (held (id :: ids)) /\
    (forall j, path_at s' j = path_at s j) /\ table_moved s s'.
Proof.
  intros Hok Hid Hn.
  destruct (with_lock_inv s refs _ id (fun k => if writer k then Fail Deadlock
     else Ok {| readers := S (readers k); writer := false |})
     {| readers := 1; writer := false |} Hok Hid) as (s' & Hrun & Hinv & Hrest).
  { unfold held. by rewrite decide_False. }
  exists s'. split; [exact Hrun|]. split; [|done].
  eapply table_inv_ext; [|exact Hinv]. intros j. by rewrite held_cons.
Qed.

Lemma UNLOCK_held s refs ids id :
  table_inv s refs (held (id :: ids)) -> id ∈ refs -> id ∉ ids ->
  exists s', UNLOCK id s = Ok (tt, s') /\ table_inv s' refs (held ids) /\
    (forall j, path_at s' j = path_at s j) /\ table_moved s s'.
Proof.
  intros Hok Hid Hn.
  destruct (with_lock_inv s refs _ id (fun k => if writer k then Ok unlocked
     else match readers k with O => Fail BadUnlock
          | S n => Ok {| readers := n; writer := false |} end)
     unlocked Hok Hid) as (s' & Hrun & Hinv & Hrest).
  { unfold held. by rewrite decide_True by by left. }
  exists s'. split; [exact Hrun|]. split; [|done].
  eapply table_inv_ext; [|exact Hinv]. intros j. by apply held_remove.
Qed.

(** Locks for writing. *)
Definition write_locked : rwlock_t := {| readers := 0; writer := true |}.

Lemma WRLOCK_free s refs lk id :
  table_inv s refs lk -> id ∈ refs -> lk id = unlocked ->
  exists s', WRLOCK id s = Ok (tt, s') /\ table_inv s' refs (set_lk id write_locked lk) /\
    (forall j, path_at s' j = path_at s j) /\ table_moved s s'.
Proof.
  intros Hok Hid Hlk. apply (with_lock_inv s refs lk id
    (fun k => if writer k || negb (readers k =? 0)%nat then Fail Deadlock
              else Ok {| readers := 0; writer := true |})); [done..|]. by rewrite Hlk.
Qed.

Lemma UNLOCK_writer s refs lk id :
  table_inv s refs lk -> id ∈ refs -> lk id = write_locked ->
  exists s', UNLOCK id s = Ok (tt, s') /\ table_inv s' refs (set_lk id unlocked lk) /\
    (forall j, path_at s' j = path_at s j) /\ table_moved s s'.
Proof.
  intros Hok Hid Hlk. apply (with_lock_inv s refs lk id
    (fun k => if writer k then Ok unlocked
              else match readers k with O => Fail BadUnlock
                   | S n => Ok {| readers := n; writer := false |} end)); [done..|]. by rewrite Hlk.
Qed.

Lemma set_lk_same id k lk : set_lk id k lk id = k.
Proof. unfold set_lk. by rewrite Nat.eqb_refl. Qed.

Lemma set_lk_other id j k lk : j <> id -> set_lk id k lk j = lk j.
Proof. intros Hne. unfold set_lk. by rewrite (proj2 (Nat.eqb_neq _ _)). Qed.

Lemma set_lk_undo id k k' lk j : lk id = k' -> set_lk id k' (set_lk id k lk) j = lk j.
Proof. intros <-. unfold set_lk. by destruct (Nat.eqb_spec j id) as [->|]. Qed.

(** [t] is [s] but for the image, errno, the counter and the cache. *)
Definition same_table s (t : R) : Prop :=
  active_file_list t = active_file_list s /\ next_id t = next_id s.

Lemma table_inv_same s t refs lk : same_table s t -> table_inv s refs lk -> table_inv t refs lk.
Proof. intros [E1 E2] []. split; rewrite ?E1, ?E2; done. Qed.

Lemma path_at_same s t j : same_table s t -> path_at t j = path_at s j.
Proof. intros [E1 _]. unfold path_at. by rewrite E1. Qed.

(** [s'] is [s] with another table and errno [e]. *)
Definition after (e : Z) s s' : Prop :=
  s' = with_files (active_file_list s') (next_id s') (with_errno e s).

Lemma after_moved s s' : table_moved s s' -> after (errno s) s s'.
Proof. unfold table_moved, after. intros H. rewrite H at 1. by destruct s. Qed.

Lemma after_trans e1 e2 s s1 s2 : after e1 s s1 -> after e2 s1 s2 -> after e2 s s2.
Proof. unfold after. intros H1 H2. rewrite H2 at 1. rewrite H1. done. Qed.

Lemma after_moved_trans e s s1 s2 : after e s s1 -> table_moved s1 s2 -> after e s s2.
Proof.
  intros H1 H2%after_moved. eapply after_trans; [exact H1|].
  pose proof (f_equal errno H1) as E. simpl in E. by rewrite E in H2.
Qed.

Lemma after_file e s s' : after e s s' -> file s' = file s /\ errno s' = e.
Proof. intros ->. done. Qed.
End Locks.

(** ** The steps of the walk *)

Section Walk.
Context {Super_constants : Superblock_constants} {WA : Word_after_array}.
Context {C : Type} `{Memcached C}.
Abbreviation R := (rfs C).
Implicit Types (s : R) (refs ids : list nat).

(** The path of every id is the one in the other list. *)
Definition named s ids (ps : list (list Z)) : Prop :=
  Forall2 (fun id p => path_at s id = Some p) ids ps.

Lemma named_stable s s' refs ids ps :
  (forall j, j ∈ refs -> path_at s' j = path_at s j) -> (forall j, j ∈ ids -> j ∈ refs) ->
  named s ids ps -> named s' ids ps.
Proof.
  intros Hst Hin Hn. induction Hn as [|id p ids ps Hp Hn IH]; constructor.
  - rewrite Hst; [done|]. apply Hin. by left.
  - apply IH. intros j Hj. apply Hin. by right.
Qed.

Lemma find_and_rdlock_ok ps s refs ids :
  table_inv s refs (held ids) -> (forall j, j ∈ ids -> j ∈ refs) ->
  zlen refs + zlen ps < 2 ^ 32 - 1 -> NoDup ps ->
  (forall j p, j ∈ ids -> path_at s j = Some p -> p ∉ ps) ->
  exists new s', find_and_rdlock ps s = Ok (new, s') /\
    table_inv s' (reverse new ++ refs) (held (reverse new ++ ids)) /\
    named s' new ps /\ NoDup new /\ (forall j, j ∈ new -> j ∉ ids) /\
    (forall j, j ∈ refs -> path_at s' j = path_at s j) /\ table_moved s s'.
Proof.
  revert s refs ids. induction ps as [|p ps IH]; intros s refs ids Hok Hsub Hlen Hnd Hfree.
  - exists [], s. split_and!; try done; [constructor|constructor|by intros j []%not_elem_of_nil|by destruct s].
  - apply NoDup_cons in Hnd as [Hp Hnd]. rewrite zlen_cons in Hlen.
    pose proof (zlen_nonneg ps).
    destruct (find_inv s refs _ p Hok) as (id & s1 & Hrun1 & Hok1 & Hat1 & Hlk1 & Hst1 & Hm1); [lia| |].
    { intros j Hj. unfold held. rewrite decide_False; [done|]. intros Hin.
      apply (Hfree j p Hin Hj). by left. }
    assert (id ∉ ids) as Hnin.
    { unfold held in Hlk1. intros Hin. by rewrite decide_True in Hlk1. }
    destruct (RDLOCK_held s1 (id :: refs) ids id Hok1) as (s2 & Hrun2 & Hok2 & Hst2 & Hm2);
      [by left|done|].
    destruct (IH s2 (id :: refs) (id :: ids) Hok2) as (new & s3 & Hrun3 & Hok3 & Hn3 & Hnd3 & Hd3 & Hst3 & Hm3).
    + intros j [->|Hj]%elem_of_cons; [by left|right; by apply Hsub].
    + rewrite zlen_cons. lia.
    + done.
    + intros j q [->|Hj]%elem_of_cons Hq.
      * rewrite Hst2, Hat1 in Hq. by injection Hq as <-.
      * rewrite Hst2, Hst1 in Hq by by apply Hsub. intros Hin.
        apply (Hfree j q Hj Hq). by right.
    + exists (id :: new), s3. split_and!.
      * cbn [find_and_rdlock]. rewrite (bind_ok _ _ _ _ _ Hrun1), (bind_ok _ _ _ _ _ Hrun2),
          (bind_ok _ _ _ _ _ Hrun3). done.
      * by rewrite reverse_cons, <- !app_assoc.
      * constructor; [|done]. rewrite Hst3 by by left. by rewrite Hst2.
      * constructor; [|done]. intros Hin. apply (Hd3 id Hin). by left.
      * intros j [->|Hj]%elem_of_cons; [done|]. intros Hin. apply (Hd3 j Hj). by right.
      * intros j Hj. rewrite Hst3 by by right. by rewrite Hst2, Hst1.
      * unfold table_moved in *. rewrite Hm3 at 1. rewrite Hm2, Hm1. done.
Qed.

Lemma unlock_all_ok ids s refs rest :
  table_inv s refs (held (ids ++ rest)) -> (forall j, j ∈ ids -> j ∈ refs) -> NoDup (ids ++ rest) ->
  exists s', unlock_all ids s = Ok (tt, s') /\ table_inv s' refs (held rest) /\
    (forall j, path_at s' j = path_at s j) /\ table_moved s s'.
Proof.
  revert s. induction ids as [|id ids IH]; intros s Hok Hsub Hnd.
  - exists s. split_and!; try done. by destruct s.
  - cbn [app] in Hok, Hnd. apply NoDup_cons in Hnd as [Hn Hnd].
    destruct (UNLOCK_held s refs (ids ++ rest) id Hok) as (s1 & Hrun1 & Hok1 & Hst1 & Hm1);
      [apply Hsub; by left|done|].
    destruct (IH s1 Hok1) as (s2 & Hrun2 & Hok2 & Hst2 & Hm2); [|done|].
    { intros j Hj. apply Hsub. by right. }
    exists s2. split_and!; [|done|intros j; by rewrite Hst2, Hst1|].
    + cbn [unlock_all]. by rewrite (bind_ok _ _ _ _ _ Hrun1).
    + unfold table_moved in *. rewrite Hm2 at 1. by rewrite Hm1.
Qed.

Lemma finished_using_all_ok ids s refs :
  table_ok s (ids ++ refs) -> zlen ids + zlen refs < 2 ^ 32 ->
  exists s', finished_using_all ids s = Ok (tt, s') /\ table_ok s' refs /\
    (forall j, j ∈ refs -> path_at s' j = path_at s j) /\ table_moved s s'.
Proof.
  revert s. induction ids as [|id ids IH]; intros s Hok Hlen.
  - exists s. split_and!; try done. by destruct s.
  - rewrite zlen_cons in Hlen.
    destruct (finish_inv s ((id :: ids) ++ refs) (ids ++ refs) _ id Hok)
      as (s1 & Hrun1 & Hok1 & _ & Hst1 & Hm1); [done|rewrite zlen_app, zlen_cons; lia|done|].
    destruct (IH s1 Hok1) as (s2 & Hrun2 & Hok2 & Hst2 & Hm2); [lia|].
    exists s2. split_and!; [|done| |].
    + cbn [finished_using_all]. by rewrite (bind_ok _ _ _ _ _ Hrun1).
    + intros j Hj. rewrite Hst2, Hst1; [done|set_solver|done].
    + unfold table_moved in *. rewrite Hm2 at 1. by rewrite Hm1.
Qed.

(** ** The meaning of a path *)

(** The directory with the inode [i] has the entries at [entries]. *)
Definition directory (m : mem) (i : Z) (entries : list Z) : Prop :=
  exists d, Inode_Get_Data_Adressess m i (Inode.size m i) = Some d /\
    blocks_entries m (until_EMPTY d) = Ok entries.

Definition find_entry (m : mem) (entries : list Z) (name : list Z) : option Z :=
  snd <$> list_find (fun e => entry_has_name m e name = true) entries.

(** From the directory [i], the names lead to an inode (and its number), or
    to nothing. *)
Inductive resolves (m : mem) : Z -> list (list Z) -> option (Z * Z) -> Prop :=
  | resolves_missing i entries n ns :
      directory m i entries -> find_entry m entries n = None -> resolves m i (n :: ns) None
  | resolves_last i entries n e j :
      directory m i entries -> find_entry m entries n = Some e ->
      Entry.inode_number m e > 0 -> Inode_Global_Read m (Entry.inode_number m e) = Some j ->
      resolves m i [n] (Some (j, Entry.inode_number m e))
  | resolves_step i entries n n' ns e j r :
      directory m i entries -> find_entry m entries n = Some e ->
      Inode_Global_Read m (Entry.inode_number m e) = Some j -> resolves m j (n' :: ns) r ->
      resolves m i (n :: n' :: ns) r.

Lemma read_directory_ok s i entries :
  directory (file s) i entries -> read_directory i s = Ok (Some entries, s).
Proof.
  intros (d & Hd & He). unfold read_directory. rewrite (bind_ok _ _ s (file s) s) by done.
  by rewrite Hd, He.
Qed.

Lemma file_name_ok s id p n :
  path_at s id = Some p -> active_file_get_file_name_of p = Some n ->
  active_file_get_file_name id s = Ok (n, s).
Proof.
  intros Hp Hn. unfold active_file_get_file_name, the_file.
  unfold path_at in Hp. apply fmap_Some in Hp as (a & Ha & ->).
  unfold mbind, M_bind, get_files, gets. rewrite Ha. cbn. by rewrite Hn.
Qed.

Lemma directory_fun m i e1 e2 : directory m i e1 -> directory m i e2 -> e1 = e2.
Proof. intros (d1 & Hd1 & He1) (d2 & Hd2 & He2). congruence. Qed.

Lemma find_entry_list_find m entries n :
  match find_entry m entries n with
  | Some e => exists k, list_find (fun e => entry_has_name m e n = true) entries = Some (k, e)
  | None => list_find (fun e => entry_has_name m e n = true) entries = None
  end.
Proof. unfold find_entry. destruct (list_find _ entries) as [[k e]|]; simpl; eauto. Qed.

Lemma table_ok_held s refs : table_inv s refs (held []) -> table_ok s refs.
Proof. apply table_inv_ext. intros id. unfold held. by rewrite decide_False by apply not_elem_of_nil. Qed.

Definition walk_errno (r : option (Z * Z)) (e : Z) : Z :=
  match r with Some _ => e | None => ENOENT end.

Lemma after_set_errno e s : after e s (with_errno e s).
Proof. by destruct s. Qed.

Lemma table_inv_errno s refs lk e : table_inv s refs lk -> table_inv (with_errno e s) refs lk.
Proof. intros []. by split. Qed.

Lemma search_missing s refs prev id ids p n entries :
  find_entry (file s) entries n = None ->
  table_inv s refs (held (prev :: id :: ids)) -> NoDup (prev :: id :: ids) ->
  (forall j, j ∈ prev :: id :: ids -> j ∈ refs) ->
  path_at s id = Some p -> active_file_get_file_name_of p = Some n ->
  exists s', search_in_directory prev (id :: ids) (Some entries) s = Ok (0, s') /\
    table_ok s' refs /\ (forall j, path_at s' j = path_at s j) /\ after ENOENT s s'.
Proof.
  intros Hfind Hok Hnd Hsub Hp Hn.
  assert ((id :: ids) ++ [prev] ≡ₚ prev :: id :: ids) as Hperm by by rewrite Permutation_app_comm.
  destruct (unlock_all_ok (id :: ids) s refs [prev]) as (s1 & Hrun1 & Hok1 & Hst1 & Hm1).
  { eapply table_inv_ext; [|exact Hok]. intros j. by apply held_perm. }
  { intros j Hj. apply Hsub. by right. }
  { by rewrite Hperm. }
  destruct (UNLOCK_held s1 refs [] prev Hok1) as (s2 & Hrun2 & Hok2 & Hst2 & Hm2);
    [apply Hsub; by left|apply not_elem_of_nil|].
  exists (with_errno ENOENT s2). split_and!.
  - cbn [search_in_directory]. rewrite (bind_ok _ _ _ _ _ (file_name_ok _ _ _ _ Hp Hn)).
    cbn [deref]. rewrite (bind_ok _ _ s entries s) by done.
    rewrite (bind_ok _ _ s (file s) s) by done.
    pose proof (find_entry_list_find (file s) entries n) as Hl. rewrite Hfind in Hl. rewrite Hl.
    change (unlock_all (id :: ids)) with (unlock_all (C := C) (id :: ids)) in *.
    rewrite (bind_ok _ _ _ _ _ Hrun1), (bind_ok _ _ _ _ _ Hrun2). done.
  - by apply table_inv_errno, table_ok_held.
  - intros j. change (path_at (with_errno ENOENT s2) j) with (path_at s2 j). by rewrite Hst2, Hst1.
  - eapply after_trans; [|apply after_set_errno].
    eapply after_moved_trans; [by apply after_moved|done].
Qed.

Lemma search_ok m i ns r :
  resolves m i ns r -> forall s refs prev ids ps entries,
  file s = m -> directory m i entries ->
  table_inv s refs (held (prev :: ids)) -> NoDup (prev :: ids) ->
  (forall j, j ∈ prev :: ids -> j ∈ refs) ->
  named s ids ps -> Forall2 (fun p n => active_file_get_file_name_of p = Some n) ps ns ->
  exists s', search_in_directory prev ids (Some entries) s
      = Ok (match r with Some (_, n) => n | None => 0 end, s') /\
    table_ok s' refs /\ (forall j, path_at s' j = path_at s j) /\ after (walk_errno r (errno s)) s s'.
Proof.
  induction 1 as [i e0 n ns He0 Hfind|i e0 n e j He0 Hfind Hpos Hj|i e0 n n' ns e j r He0 Hfind Hj Hr IH];
    intros s refs prev ids ps entries Hm Hdir Hok Hnd Hsub Hnamed Hnames;
    rewrite (directory_fun _ _ _ _ Hdir He0); subst m;
    inversion Hnames as [|p ? ps' ? Hp Hnames']; subst;
    inversion Hnamed as [|id ? ids' ? Hid Hnamed']; subst.
  - by apply (search_missing s refs prev id ids' p n e0).
  - inversion Hnames'; subst. inversion Hnamed'; subst.
    destruct (UNLOCK_held s refs [id] prev Hok) as (s1 & Hrun1 & Hok1 & Hst1 & Hm1);
      [apply Hsub; by left|by apply NoDup_cons in Hnd as [? _]|].
    destruct (UNLOCK_held s1 refs [] id Hok1) as (s2 & Hrun2 & Hok2 & Hst2 & Hm2);
      [apply Hsub; right; by left|apply not_elem_of_nil|].
    exists s2. split_and!; [|by apply table_ok_held|intros k; by rewrite Hst2, Hst1|].
    + cbn [search_in_directory]. rewrite (bind_ok _ _ _ _ _ (file_name_ok _ _ _ _ Hid Hp)).
      cbn [deref]. rewrite (bind_ok _ _ s e0 s), (bind_ok _ _ s (file s) s) by done.
      pose proof (find_entry_list_find (file s) e0 n) as Hl. rewrite Hfind in Hl.
      destruct Hl as (k & ->).
      by rewrite (bind_ok _ _ _ _ _ Hrun1), (bind_ok _ _ _ _ _ Hrun2).
    + eapply after_moved_trans; [by apply after_moved|done].
  - inversion Hnames' as [|p' ? ps'' ? Hp' Hnames'']; subst.
    inversion Hnamed' as [|id' ? ids'' ? Hid' Hnamed'']; subst.
    assert (exists ents, directory (file s) j ents) as (ents & Hents) by (by inversion Hr; eauto).
    destruct (UNLOCK_held s refs (id :: id' :: ids'') prev Hok) as (s1 & Hrun1 & Hok1 & Hst1 & Hm1);
      [apply Hsub; by left|by apply NoDup_cons in Hnd as [? _]|].
    apply after_moved in Hm1. destruct (after_file _ _ _ Hm1) as [Hf1 He1].
    destruct (IH s1 refs id (id' :: ids'') (p' :: ps'') ents) as (s2 & Hrun2 & Hok2 & Hst2 & Hm2).
    + done.
    + done.
    + done.
    + by apply NoDup_cons in Hnd as [_ ?].
    + intros k Hk. apply Hsub. by right.
    + constructor; [by rewrite Hst1|]. eapply Forall2_impl; [exact Hnamed''|].
      simpl. intros. by rewrite Hst1.
    + by constructor.
    + exists s2. split_and!; [|done|intros k; by rewrite Hst2, Hst1|].
      * cbn [search_in_directory]. rewrite (bind_ok _ _ _ _ _ (file_name_ok _ _ _ _ Hid Hp)).
        cbn [deref]. rewrite (bind_ok _ _ s e0 s), (bind_ok _ _ s (file s) s) by done.
        pose proof (find_entry_list_find (file s) e0 n) as Hl. rewrite Hfind in Hl.
        destruct Hl as (k & ->). rewrite Hj. cbn [deref]. rewrite (bind_ok _ _ s j s) by done.
        rewrite (bind_ok _ _ _ _ _ (read_directory_ok s j ents Hents)).
        rewrite (bind_ok _ _ _ _ _ Hrun1). exact Hrun2.
      * rewrite He1 in Hm2. by eapply after_trans.
Qed.
End Walk.

(** ** The ancestors of a path *)

Lemma file_name_dir_path ns n :
  Forall name_ok (ns ++ [n]) ->
  active_file_get_file_name_of (dir_path (ns ++ [n])) = Some n.
Proof.
  intros H. unfold active_file_get_file_name_of, dir_path, abs_path.
  rewrite (proj2 (Z.eqb_neq _ 1)).
  - change ((slash :: join slash (ns ++ [n])) ++ [slash]) with (slash :: join slash (ns ++ [n]) ++ [slash]).
    rewrite string_split_lead_join_trail by done. apply last_snoc.
  - assert (0 < length (join slash (ns ++ [n])))%nat.
    { apply join_nonempty; [done|]. by destruct ns. }
    unfold strlen, zlen. rewrite length_app. simpl. lia.
Qed.

Lemma ancestors_names pre ns :
  pre <> [] -> ns <> [] -> Forall name_ok (pre ++ ns) ->
  Forall2 (fun p n => active_file_get_file_name_of p = Some n)
    (ancestors pre ns ++ [abs_path (pre ++ ns)]) ns.
Proof.
  revert pre. induction ns as [|n ns IH]; [done|]. intros pre Hpre _ Hok.
  destruct ns as [|n' ns].
  - constructor; [by apply file_name_abs_path|constructor].
  - change (ancestors pre (n :: n' :: ns)) with (dir_path (pre ++ [n]) :: ancestors (pre ++ [n]) (n' :: ns)).
    replace (pre ++ n :: n' :: ns) with ((pre ++ [n]) ++ n' :: ns) in * by by rewrite <- app_assoc.
    cbn [app]. constructor.
    + apply file_name_dir_path. by apply Forall_app in Hok as [? _].
    + apply IH; [by destruct pre|done|done].
Qed.

Lemma ancestors_long pre ns e :
  pre <> [] -> ns <> [] -> Forall name_ok ns ->
  e ∈ ancestors pre ns ++ [abs_path (pre ++ ns)] -> (length (dir_path pre) < length e)%nat.
Proof.
  revert pre. induction ns as [|n ns IH]; [done|]. intros pre Hpre _ Hok He.
  assert (length (abs_path (pre ++ [n])) = length (dir_path pre) + length n)%nat as Hl.
  { rewrite abs_path_app by done. by rewrite length_app. }
  apply Forall_cons in Hok as [[Hn _] Hok].
  assert (0 < length n)%nat by (destruct n; [done|simpl; lia]).
  destruct ns as [|n' ns].
  - apply list_elem_of_singleton in He as ->. lia.
  - change (ancestors pre (n :: n' :: ns)) with (dir_path (pre ++ [n]) :: ancestors (pre ++ [n]) (n' :: ns)) in He.
    replace (pre ++ n :: n' :: ns) with ((pre ++ [n]) ++ n' :: ns) in He by by rewrite <- app_assoc.
    rewrite <- app_comm_cons in He.
    assert (length (dir_path (pre ++ [n])) = S (length (abs_path (pre ++ [n])))) as Hd
      by apply length_dir_path.
    apply elem_of_cons in He as [->|He]; [lia|].
    apply IH in He; [lia|by destruct pre|done|done].
Qed.

Lemma ancestors_NoDup pre ns :
  pre <> [] -> ns <> [] -> Forall name_ok ns -> NoDup (ancestors pre ns ++ [abs_path (pre ++ ns)]).
Proof.
  revert pre. induction ns as [|n ns IH]; [done|]. intros pre Hpre _ Hok.
  destruct ns as [|n' ns]; [apply NoDup_singleton|].
  change (ancestors pre (n :: n' :: ns)) with (dir_path (pre ++ [n]) :: ancestors (pre ++ [n]) (n' :: ns)).
  replace (pre ++ n :: n' :: ns) with ((pre ++ [n]) ++ n' :: ns) by by rewrite <- app_assoc.
  apply Forall_cons in Hok as [_ Hok]. rewrite <- app_comm_cons. apply NoDup_cons. split.
  - intros Hin. apply ancestors_long in Hin; [lia|by destruct pre|done|done].
  - apply IH; [by destruct pre|done|done].
Qed.

(** The table entries a walk uses: root, then one path per component, which
    carries the component's name; no two are the same. *)
Lemma split_path_names ns :
  Forall name_ok ns -> ns <> [] ->
  exists ps, split_path (abs_path ns) = Some ([slash] :: ps) /\
    Forall2 (fun p n => active_file_get_file_name_of p = Some n) ps ns /\ NoDup ([slash] :: ps).
Proof.
  intros Hok Hne. destruct ns as [|n ns]; [done|]. clear Hne.
  pose proof Hok as [[Hn Hs] Hns]%Forall_cons.
  assert (1 < length (abs_path [n]))%nat as Hlen.
  { unfold abs_path. simpl. destruct n; [done|simpl; lia]. }
  destruct (decide (ns = [])) as [->|Hne].
  - exists [abs_path [n]]. split; [by apply split_path_single|]. split.
    + constructor; [|constructor]. by apply (file_name_abs_path []).
    + apply NoDup_cons. split; [|apply NoDup_singleton].
      intros E%list_elem_of_singleton. rewrite <- E in Hlen. simpl in Hlen. lia.
  - exists (abs_path [n] :: ancestors [n] ns ++ [abs_path ([n] ++ ns)]).
    assert (length (dir_path [n]) = S (length (abs_path [n]))) as Hd by apply length_dir_path.
    split; [by apply split_path_deep|]. split.
    + constructor; [by apply (file_name_abs_path []); constructor|]. by apply ancestors_names.
    + apply NoDup_cons. split; [|apply NoDup_cons; split].
      * intros [E|E]%elem_of_cons; [rewrite <- E in Hlen; simpl in Hlen; lia|].
        apply ancestors_long in E; [|done..]. rewrite Hd in E. cbn [length] in E. lia.
      * intros E. apply ancestors_long in E; [|done..]. lia.
      * by apply ancestors_NoDup.
Qed.

(** The table entries of the walk to a directory under either spelling. *)
Lemma split_path_dir_names ns x :
  Forall name_ok ns -> name_ok x -> (1 < length ns)%nat ->
  exists ps, split_path (dir_path ns) = Some ([slash] :: ps) /\
    Forall2 (fun p n => active_file_get_file_name_of p = Some n) ps ns /\ NoDup ([slash] :: ps).
Proof.
  intros Hok Hx Hlen. destruct ns as [|n ns]; [simpl in Hlen; lia|].
  assert (ns <> []) as Hne by (destruct ns; [simpl in Hlen; lia|done]).
  pose proof Hok as [[Hn Hs] Hns]%Forall_cons.
  assert (Forall name_ok (ns ++ [x])) as Hnx by (apply Forall_app; split; [done|by apply Forall_singleton]).
  exists (abs_path [n] :: ancestors [n] (ns ++ [x])). split; [by apply split_path_dir|].
  assert (ns ++ [x] <> []) as Hne2 by by destruct ns.
  pose proof (ancestors_names [n] (ns ++ [x]) ltac:(done) Hne2 ltac:(by constructor)) as Hnames.
  pose proof (ancestors_NoDup [n] (ns ++ [x]) ltac:(done) Hne2 Hnx) as Hnd.
  pose proof (fun e => ancestors_long [n] (ns ++ [x]) e ltac:(done) Hne2 Hnx) as Hlong.
  pose proof (Forall2_length _ _ _ Hnames) as Hl. rewrite !length_app in Hl. simpl in Hl.
  apply Forall2_app_inv in Hnames as [Hnames _]; [|lia]. apply NoDup_app in Hnd as (Hnd & _).
  assert (length (dir_path [n]) = S (length (abs_path [n]))) as Hd by apply length_dir_path.
  assert (1 < length (abs_path [n]))%nat as Hl1.
  { unfold abs_path. simpl. destruct n; [done|simpl; lia]. }
  split; [constructor; [by apply (file_name_abs_path []); constructor|done]|].
  apply NoDup_cons. split; [|apply NoDup_cons; split; [|done]].
  - intros [E|E]%elem_of_cons; [rewrite <- E in Hl1; simpl in Hl1; lia|].
    specialize (Hlong [slash] ltac:(apply elem_of_app; by left)). cbn [length] in Hlong. lia.
  - intros E. specialize (Hlong (abs_path [n]) ltac:(apply elem_of_app; by left)). lia.
Qed.

(** ** inode_of_file *)

Section Inode_of_file.
Context {Super_constants : Superblock_constants} {WA : Word_after_array}.
Context {C : Type} `{Memcached C}.
Abbreviation R := (rfs C).
Implicit Types (s : R) (refs : list nat).

(** What [inode_of_file] returns: the inode, and its number. *)
Definition walk_result (r : option (Z * Z)) : option Z * Z :=
  match r with Some (i, n) => (Some i, n) | None => (None, 0) end.

Lemma resolves_inode m i ns r :
  resolves m i ns r ->
  match r with Some (j, n) => n > 0 /\ Inode_Global_Read m n = Some j | None => True end.
Proof. induction 1; [done|by split|done]. Qed.

Lemma inode_of_file_walk s refs root path ps ns r :
  table_ok s refs -> zlen refs + zlen ns + 1 < 2 ^ 32 - 1 ->
  split_path path = Some ([slash] :: ps) ->
  Forall2 (fun p n => active_file_get_file_name_of p = Some n) ps ns -> NoDup ([slash] :: ps) -> ns <> [] ->
  Inode_Global_Read (file s) ROOT_INODE_NUMBER = Some root -> resolves (file s) root ns r ->
  exists s', inode_of_file path s = Ok (walk_result r, s') /\ table_ok s' refs /\
    (forall j, j ∈ refs -> path_at s' j = path_at s j) /\ after (walk_errno r (errno s)) s s'.
Proof.
  intros Hok Hlen Hsp Hnames Hnd Hne Hroot Hres.
  pose proof (Forall2_length _ _ _ Hnames) as Hpl.
  destruct (find_and_rdlock_ok ([slash] :: ps) s refs []) as
    (new & s1 & Hrun1 & Hok1 & Hn1 & Hnd1 & _ & Hst1 & Hm1).
  { eapply table_inv_ext; [|exact Hok]. intros j. unfold held.
    by rewrite decide_False by apply not_elem_of_nil. }
  { by intros j []%not_elem_of_nil. }
  { unfold zlen in *. simpl. lia. }
  { done. }
  { by intros j p []%not_elem_of_nil. }
  inversion Hn1 as [|rid p0 ids ps0 Hr Hids]; subst.
  inversion Hnames as [|p n ps' ns' Hp Hnames']; subst; [done|].
  inversion Hids as [|id p0 ids' ps0 Hid Hids']; subst.
  apply after_moved in Hm1. destruct (after_file _ _ _ Hm1) as [Hf1 He1].
  assert (exists ents, directory (file s) root ents) as (ents & Hents) by (inversion Hres; eauto).
  set (all := rid :: id :: ids') in *.
  assert (forall j, j ∈ all -> j ∈ reverse all ++ refs) as Hin.
  { intros j Hj. apply elem_of_app. left. by apply elem_of_reverse. }
  destruct (search_ok (file s) root _ r Hres s1 (reverse all ++ refs) rid (id :: ids') (p :: ps') ents)
    as (s2 & Hrun2 & Hok2 & Hst2 & Hm2); [done|done| |done|done|done|by constructor|].
  { eapply table_inv_ext; [|exact Hok1]. intros j. apply held_perm.
    by rewrite app_nil_r, reverse_Permutation. }
  destruct (after_file _ _ _ Hm2) as [Hf2 He2].
  destruct (finished_using_all_ok all s2 refs) as (s3 & Hrun3 & Hok3 & Hst3 & Hm3).
  { unfold table_ok in *. destruct Hok2 as [Hp2 Hi2 Hf2' Hu2 Hl2 Hc2 Hr2]. split; try done.
    - eapply Forall_impl; [exact Hc2|]. simpl. intros a [Ha1 Ha2]. split; [|done].
      rewrite Ha1. apply count_refs_perm. by rewrite reverse_Permutation.
    - rewrite Forall_forall in Hr2 |- *. intros j Hj. apply Hr2.
      rewrite elem_of_app, elem_of_reverse. by apply elem_of_app. }
  { unfold all, zlen in *. apply Forall2_length in Hids', Hnames'. simpl in *. lia. }
  exists s3. split_and!; [|done| |].
  - unfold inode_of_file. rewrite Hsp. rewrite (bind_ok _ _ _ _ _ Hrun1).
    rewrite (bind_ok _ _ s1 (file s1) s1) by done. unfold all at 1.
    rewrite Hf1, Hroot. cbn [deref]. rewrite (bind_ok _ _ s1 root s1) by done.
    rewrite (bind_ok _ _ _ _ _ (read_directory_ok s1 root ents ltac:(by rewrite Hf1))).
    rewrite (bind_ok _ _ _ _ _ Hrun2).
    rewrite (bind_ok _ _ s2 (fst (walk_result r)) s2).
    + fold all. rewrite (bind_ok _ _ _ _ _ Hrun3). destruct r as [[j nn]|]; done.
    + pose proof (resolves_inode _ _ _ _ Hres) as Hr'. destruct r as [[j nn]|]; cbn [walk_result fst].
      * destruct Hr' as [Hpos Hj]. rewrite (proj2 (Z.gtb_lt nn 0)) by lia.
        rewrite (bind_ok _ _ s2 (file s2) s2) by done. rewrite Hf2, Hf1, Hj. done.
      * done.
  - intros j Hj. rewrite Hst3 by done. rewrite Hst2. by apply Hst1.
  - rewrite He1 in Hm2. eapply after_moved_trans; [|done]. by eapply after_trans.
Qed.
End Inode_of_file.
