(* ===== verification/FileOps.v ===== *)
(** * FileOps: the operations of the server

    Models the public functions of [file_operations.c], which the worker
    threads run: [delete_dir], [delete_file], [create_file_dir],
    [list_directory], [read_file], [getattr], [truncate_file], [write_file]
    and [open_file], and the functions on the cached blocks.  The buffers of
    the code are lists with the length that was allocated; an access outside
    of them is the fault [OutOfBounds]. *)

From S2P Require Import Prelude Memory Bitarray Ext2 CString Paths Rfs Alloc BlockMap Dirs.

(** params_t: what the operations use of it. *)
Record params_t := {
  p_path : list Z;
  p_mode : Z;
  p_write_buffer : list Z;
  p_file : bool;
  p_offset : Z;
  p_bytes_to_read : Z;
  p_bytes_to_write : Z;
  p_size : Z
}.

Record reduced_stat_t := {
  st_inode_number : Z;
  st_mode : Z;
  st_size : Z;
  st_links_count : Z
}.

(** What [result->data] points to. *)
Inductive result_data :=
  | Null
  | Status (v : Z)            (* uint32_t *)
  | Entries (l : list Z)      (* entry_t**, addresses in the image *)
  | Bytes (l : list Z)        (* the buffer of read_file *)
  | Stats (st : reduced_stat_t).

Record operation_result_t := {
  r_path : list Z;
  r_data : result_data;
  r_read_bytes : Z;
  r_error : Z
}.

Definition result (path : list Z) (d : result_data) : operation_result_t :=
  {| r_path := path; r_data := d; r_read_bytes := 0; r_error := 0 |}.

(** A block of a file: copied out of the cache, or in the image. *)
Inductive cache_fs_data_t :=
  | From_cache (data : list Z)
  | In_file (address : Z).

Section FileOps.
Context {Super_constants : Superblock_constants} {WA : Word_after_array}.
Context {C : Type} `{Memcached C}.
Abbreviation R := (rfs C).

(** An element of an array that has the elements [l]. *)
Definition array_get (l : list Z) (i : Z) : M R Z :=
  match l !! Z.to_nat i with
  | Some v => if i <? 0 then fail OutOfBounds else mret v
  | None => fail OutOfBounds
  end.

(** ** The cache of blocks *)

Definition cache_fs_get_set (path : list Z) (block_number : Z) (file_data : list Z)
  : M R cache_fs_data_t :=
  let key := generate_key path block_number in
  s ← get;
  let '(r, c) := memcached_get key (memc s) in
  modify (with_memc c);;
  match r with
  | Some cache_data => mret (From_cache cache_data)
  | None =>
      b ← array_get file_data block_number;
      m ← get_file;
      modify (fun s => with_memc
        (memcached_set key (read_bytes m (block_addr b) BLOCK_SIZE) (memc s)) s);;
      mret (In_file (block_addr b))
  end.

Definition cache_set (path : list Z) (block_number : Z) (file_data : list Z) : M R unit :=
  b ← array_get file_data block_number;
  m ← get_file;
  modify (fun s => with_memc
    (memcached_set (generate_key path block_number) (read_bytes m (block_addr b) BLOCK_SIZE)
       (memc s)) s).

(** The [n] bytes from [start] on of a cached block. *)
Definition block_bytes (d : cache_fs_data_t) (start n : Z) : M R (list Z) :=
  match d with
  | From_cache l =>
      if start + n <=? zlen l then mret (take (Z.to_nat n) (drop (Z.to_nat start) l))
      else fail OutOfBounds
  | In_file a => m ← get_file; mret (read_bytes m (a + start) n)
  end.

(** memcpy(&buffer[i], data, ...) *)
Definition buffer_write (buffer : list Z) (i : Z) (data : list Z) : M R (list Z) :=
  if i + zlen data <=? zlen buffer then mret (array_write buffer i data) else fail OutOfBounds.

(** ** The parent directory *)

(** The table entry of the directory that contains [path]. *)
Definition find_parent (path : list Z) : M R nat :=
  file_tree ← deref (split_path path);
  match parent_entry file_tree path with
  | Some p => active_file_list_find p
  | None => fail OutOfBounds
  end.

Definition path_of (id : nat) : M R (list Z) := a ← the_file id; mret (path a).

(** ** delete_dir *)

Definition delete_dir_finish (res : operation_result_t) (dir parent_dir : nat) : M R operation_result_t :=
  UNLOCK dir;;
  UNLOCK parent_dir;;
  active_file_finished_using dir;;
  active_file_finished_using parent_dir;;
  mret res.

(** An empty directory goes: its block, its inode, the counter of its group. *)
Definition delete_empty_dir (res : operation_result_t) (dir_inode dir_inode_number : Z) (dir parent_dir : nat)
  : M R operation_result_t :=
  Remove_Block dir_inode 0;;
  update_file (fun m => Clear_Inode m dir_inode);;
  g_desc ← deref (Group_Descriptor_read (Inode_locateGroup dir_inode_number));
  update_file (fun m =>
    set_NUMBER_DIRECTORIES_GROUP m g_desc (NUMBER_DIRECTORIES_GROUP m g_desc - 1));;
  setFreeInodeBitmap dir_inode_number;;
  delete_dir_finish res dir parent_dir.

Definition delete_dir (params : params_t) : M R operation_result_t :=
  dir ← active_file_list_find (p_path params);
  found ← inode_of_file (p_path params);
  let '(dir_inode, dir_inode_number) := found in
  let ok := result (p_path params) (Status 0) in
  let error := result (p_path params) (Status 1) in
  match dir_inode with
  | None => active_file_finished_using dir;; mret error
  | Some dir_inode =>
      m ← get_file;
      if Inode.blocks m dir_inode >? BLOCK_SIZE / 512 then
        set_errno ENOTEMPTY;;
        active_file_finished_using dir;;
        mret error
      else
        parent_dir ← find_parent (p_path params);
        parent_path ← path_of parent_dir;
        found ← inode_of_file parent_path;
        let '(parent_inode, p_inode_number) := found in
        WRLOCK parent_dir;;
        WRLOCK dir;;
        m ← get_file;
        match Inode_Get_Data_Adressess m dir_inode (Inode.size m dir_inode) with
        | None => delete_dir_finish error dir parent_dir
        | Some data_address =>
            delete_entry parent_inode dir;;
            b ← array_get data_address 0;
            m ← get_file;
            let an_entry := block_addr b in
            let first_len := get_padded_size m an_entry in
            let an_entry := an_entry + Entry.entry_len m an_entry in
            if negb (Entry.entry_len m an_entry =? u32 (BLOCK_SIZE - first_len)) then
              set_errno ENOTEMPTY;;
              delete_dir_finish error dir parent_dir
            else delete_empty_dir ok dir_inode dir_inode_number dir parent_dir
        end
  end.

(** ** delete_file *)

Definition delete_file (params : params_t) : M R operation_result_t :=
  file ← active_file_list_find (p_path params);
  found ← inode_of_file (p_path params);
  let '(file_inode, file_inode_number) := found in
  match file_inode with
  | None => active_file_finished_using file;; mret (result (p_path params) (Status 1))
  | Some file_inode =>
      parent_dir ← find_parent (p_path params);
      parent_path ← path_of parent_dir;
      found ← inode_of_file parent_path;
      let '(parent_inode, _) := found in
      WRLOCK parent_dir;;
      delete_entry parent_inode file;;
      WRLOCK file;;
      m ← get_file;
      Remove_Blocks file_inode (Size_In_Blocks (Inode.size m file_inode)) (p_path params);;
      update_file (fun m => Clear_Inode m file_inode);;
      setFreeInodeBitmap file_inode_number;;
      UNLOCK file;;
      UNLOCK parent_dir;;
      active_file_finished_using file;;
      active_file_finished_using parent_dir;;
      mret (result (p_path params) (Status 0))
  end.

(** ** create_file_dir *)

(** The nesting of [attach_entry] that the model follows: a new block of
    zeros makes the search in it run for ever, any other one ends it. *)
Definition attach_fuel : nat := 3.

(** The new directory: its block with "." and "..".  [false] when there is
    no block for it. *)
Definition create_dir_contents (file_inode inode_number parent_inode_number : Z)
    (mode : Z) : M R bool :=
  setDirInode file_inode mode inode_number;;
  Attach_Blocks file_inode 1;;
  e ← get_errno;
  if e =? ENOSPC then mret false
  else
    b ← load_word (Inode.pointer_data_0 file_inode 0);
    let base_entry := u32 (BLOCK_SIZE * b) in
    let self := create_entry (str ".") inode_number in
    update_file (fun m => copy_entry m base_entry
      {| inode_number := Dirs.inode_number self; entry_len := u16 BLOCK_SIZE;
         name_len := name_len self; file_type := file_type self; file_name := file_name self |});;
    attach_entry attach_fuel (Some file_inode) (create_entry (str "..") parent_inode_number);;
    mret true.

(** Both table entries are given back. *)
Definition create_finish (new_file parent_dir : nat) (res : operation_result_t) : M R operation_result_t :=
  active_file_finished_using new_file;;
  active_file_finished_using parent_dir;;
  mret res.

(** Once the inode is filled, or could not be. *)
Definition create_settle (params : params_t) (new_file parent_dir : nat)
    (parent_inode : option Z) (file_inode new_inode_number : Z) (created : bool) : M R operation_result_t :=
  if negb created then
    setFreeInodeBitmap new_inode_number;;
    delete_entry parent_inode new_file;;
    update_file (fun m => Clear_Inode m file_inode);;
    UNLOCK new_file;;
    UNLOCK parent_dir;;
    create_finish new_file parent_dir (result (p_path params) (Status 1))
  else
    UNLOCK new_file;;
    UNLOCK parent_dir;;
    active_file_finished_using new_file;;
    active_file_finished_using parent_dir;;
    set_errno 0;;
    mret (result (p_path params) (Status 0)).

(** From the free inode on. *)
Definition create_with_inode (params : params_t) (new_file parent_dir : nat)
    (parent_inode : option Z) (parent_inode_number new_inode_number : Z) : M R operation_result_t :=
  let error := result (p_path params) (Status 1) in
  name ← active_file_get_file_name new_file;
  WRLOCK parent_dir;;
  attached ← attach_entry attach_fuel parent_inode (create_entry name new_inode_number);
  if negb (attached : bool) then
    setFreeInodeBitmap new_inode_number;;
    UNLOCK parent_dir;;
    create_finish new_file parent_dir error
  else
    m ← get_file;
    file_inode ← deref (Inode_Global_Read m new_inode_number);
    WRLOCK new_file;;
    created ← (if p_file params
               then setFileInode file_inode (p_mode params);; mret true
               else create_dir_contents file_inode new_inode_number parent_inode_number
                      (p_mode params));
    create_settle params new_file parent_dir parent_inode file_inode new_inode_number created.

Definition create_file_dir (params : params_t) : M R operation_result_t :=
  new_file ← active_file_list_find (p_path params);
  let error := result (p_path params) (Status 1) in
  found ← inode_of_file (p_path params);
  match fst found with
  | Some _ =>
      deref (split_path (p_path params));;
      active_file_finished_using new_file;;
      set_errno EEXIST;;
      mret error
  | None =>
      set_errno 0;;
      parent_dir ← find_parent (p_path params);
      parent_path ← path_of parent_dir;
      found ← inode_of_file parent_path;
      new_inode_number ← Get_Free_Inodes 1;
      match new_inode_number with
      | None => create_finish new_file parent_dir error
      | Some l =>
          create_with_inode params new_file parent_dir (fst found) (snd found) (default 0 (l !! 0%nat))
      end
  end.

(** ** list_directory, getattr, open_file *)

Definition has_mode (mode flag : Z) : bool := negb (Z.land mode flag =? 0).

Definition list_directory (params : params_t) : M R operation_result_t :=
  dir ← active_file_list_find (p_path params);
  found ← inode_of_file (p_path params);
  RDLOCK dir;;
  m ← get_file;
  data ← match fst found with
         | None => mret Null
         | Some dir_inode =>
             if has_mode (Inode.mode m dir_inode) EXT2_IFDIR then
               entries ← read_directory dir_inode;
               mret (match entries with Some l => Entries l | None => Null end)
             else set_errno ENOTDIR;; mret Null
         end;
  UNLOCK dir;;
  active_file_finished_using dir;;
  mret (result (p_path params) data).

Definition getattr (params : params_t) : M R operation_result_t :=
  file ← active_file_list_find (p_path params);
  found ← inode_of_file (p_path params);
  let '(file_inode, inode_number) := found in
  RDLOCK file;;
  m ← get_file;
  let data := match file_inode with
              | None => Null
              | Some i => Stats {| st_inode_number := inode_number; st_mode := Inode.mode m i;
                                   st_size := Inode.size m i; st_links_count := Inode.links_count m i |}
              end in
  UNLOCK file;;
  active_file_finished_using file;;
  mret (result (p_path params) data).

Definition open_file (params : params_t) : M R operation_result_t :=
  file ← active_file_list_find (p_path params);
  found ← inode_of_file (p_path params);
  let data := match fst found with None => Status 1 | Some _ => Status 0 end in
  active_file_finished_using file;;
  mret (result (p_path params) data).

(** ** read_file *)

(** for (block_number = start_block + 1; bytes_to_read > 0; ++block_number).
    A round reads at least one byte. *)
Fixpoint read_rest (fuel : nat) (path : list Z) (file_data read_data : list Z)
    (block_number bytes_to_read read_so_far : Z) : M R (list Z) :=
  match fuel with
  | O => if bytes_to_read >? 0 then fail OutOfFuel else mret read_data
  | S n =>
      if bytes_to_read >? 0 then
        let bytes_to_copy := if bytes_to_read >? BLOCK_SIZE then BLOCK_SIZE else bytes_to_read in
        d ← cache_fs_get_set path block_number file_data;
        bytes ← block_bytes d 0 bytes_to_copy;
        read_data ← buffer_write read_data read_so_far bytes;
        read_rest n path file_data read_data (u32 (block_number + 1))
          (bytes_to_read - bytes_to_copy) (u32 (read_so_far + bytes_to_copy))
      else mret read_data
  end.

(** The blocks are read when the first one leaves more than its own rest. *)
Definition read_blocks (path : list Z) (file_data : list Z) (capacity offset bytes_to_read : Z)
  : M R (list Z) :=
  let start_block := offset / BLOCK_SIZE in
  let start_byte_in_start_block := offset mod BLOCK_SIZE in
  let read_data := replicate (Z.to_nat capacity) 0 in
  let remaining_bytes_in_start_block := u32 (BLOCK_SIZE - start_byte_in_start_block) in
  let bytes_to_copy :=
    u32 (if bytes_to_read >? remaining_bytes_in_start_block
         then remaining_bytes_in_start_block else bytes_to_read) in
  d ← cache_fs_get_set path start_block file_data;
  bytes ← block_bytes d start_byte_in_start_block bytes_to_copy;
  read_data ← buffer_write read_data 0 bytes;
  let bytes_to_read := bytes_to_read - bytes_to_copy in
  if bytes_to_read >? remaining_bytes_in_start_block then
    read_rest (Z.to_nat bytes_to_read) path file_data read_data (u32 (start_block + 1))
      bytes_to_read bytes_to_copy
  else mret read_data.

Definition read_file (params : params_t) : M R operation_result_t :=
  file ← active_file_list_find (p_path params);
  found ← inode_of_file (p_path params);
  match fst found with
  | None => active_file_finished_using file;; mret (result (p_path params) Null)
  | Some file_inode =>
      m ← get_file;
      let offset := p_offset params in
      let bytes_to_read := p_bytes_to_read params in
      if has_mode (Inode.mode m file_inode) EXT2_IFREG then
        RDLOCK file;;
        m ← get_file;
        let size := Inode.size m file_inode in
        let file_data := default [] (Inode_Get_Data_Adressess m file_inode size) in
        let bytes_to_read :=
          if size <=? offset + bytes_to_read then u32 (size - offset) else bytes_to_read in
        data ← read_blocks (p_path params) file_data (p_bytes_to_read params) offset bytes_to_read;
        UNLOCK file;;
        active_file_finished_using file;;
        mret {| r_path := p_path params; r_data := Bytes data; r_read_bytes := u32 bytes_to_read;
                r_error := 0 |}
      else
        set_errno EPERM;;
        active_file_finished_using file;;
        mret (result (p_path params) Null)
  end.

(** ** truncate_file *)

Definition truncate_file (params : params_t) : M R operation_result_t :=
  file ← active_file_list_find (p_path params);
  found ← inode_of_file (p_path params);
  match fst found with
  | None => active_file_finished_using file;; mret (result (p_path params) (Status 1))
  | Some file_inode =>
      let new_size := u32 (p_size params) in
      m ← get_file;
      if has_mode (Inode.mode m file_inode) EXT2_IFREG then
        WRLOCK file;;
        m ← get_file;
        let diff := Size_In_Blocks new_size - Size_In_Blocks (Inode.size m file_inode) in
        not_attached ← (if diff >? 0 then Attach_Blocks file_inode (u32 diff)
                        else if diff <? 0 then Remove_Blocks file_inode diff (p_path params);; mret 0
                        else mret 0);
        when (not_attached >? 0)
          (update_file (fun m => Inode.set_size m file_inode
             (Inode.size m file_inode + (diff - not_attached) * BLOCK_SIZE));;
           update_file (fun m => Inode.set_blocks m file_inode
             (Size_In_Blocks (Inode.size m file_inode) / 512));;
           UNLOCK file);;
        update_file (fun m => Inode.set_size m file_inode new_size);;
        update_file (fun m => Inode.set_blocks m file_inode (Size_In_Blocks new_size / 512));;
        UNLOCK file;;
        active_file_finished_using file;;
        mret (result (p_path params) (Status 0))
      else
        set_errno EPERM;;
        active_file_finished_using file;;
        mret (result (p_path params) (Status 1))
  end.

(** ** write_file *)

(** memcpy(dst, &write_buffer[i], n) into the image. *)
Definition copy_to_file (dst : Z) (write_buffer : list Z) (i n : Z) : M R unit :=
  if i + n <=? zlen write_buffer
  then update_file (fun m => memcpy_bytes m dst (take (Z.to_nat n) (drop (Z.to_nat i) write_buffer)))
  else fail OutOfBounds.

(** The loop over the blocks behind the first one; [inr] is the return from
    inside the loop. *)
Fixpoint write_rest (fuel : nat) (params : params_t) (file_data : list Z)
    (count block_number bytes_to_write bytes_written : Z) : M R (Z + Z) :=
  match fuel with
  | O => if bytes_to_write >? 0 then fail OutOfFuel else mret (inl bytes_written)
  | S n =>
      if bytes_to_write >? 0 then
        if block_number >? count then mret (inr bytes_written)
        else
          let bytes_to_copy := if bytes_to_write >? BLOCK_SIZE then BLOCK_SIZE else bytes_to_write in
          b ← array_get file_data block_number;
          copy_to_file (block_addr b) (p_write_buffer params) bytes_written bytes_to_copy;;
          cache_set (p_path params) block_number file_data;;
          write_rest n params file_data count (u32 (block_number + 1))
            (bytes_to_write - bytes_to_copy) (u32 (bytes_written + bytes_to_copy))
      else mret (inl bytes_written)
  end.

(** Clears the rest of the last block of a file that is written behind its
    end. *)
Definition clear_tail (params : params_t) (file_inode : Z) : M R unit :=
  m ← get_file;
  let size := Inode.size m file_inode in
  when ((p_offset params >? u32 size) && (u32 size mod BLOCK_SIZE >? 0))
    (b ← array_get (default [] (Inode_Get_Data_Adressess m file_inode size))
                   (Size_In_Blocks size - 1);
     update_file (fun m => memset m (block_addr b + u32 size mod BLOCK_SIZE) 0
                             (BLOCK_SIZE - u32 size mod BLOCK_SIZE))).

(** From the first block on; [inr] leaves the function with the data, and
    without unlocking. *)
Definition write_blocks (params : params_t) (file_inode : Z) (file_data : list Z) (count : Z)
  : M R (Z + result_data) :=
  let start_block := p_offset params / BLOCK_SIZE in
  let start_byte_in_start_block := p_offset params mod BLOCK_SIZE in
  let bytes_to_write := p_bytes_to_write params in
  if start_block >? count then mret (inr (Status 0))
  else
    last ← array_get file_data (u32 (count - 1));
    if last =? 0 then mret (inr (Status 0))
    else
      first ← array_get file_data start_block;
      let remaining_space := u32 (BLOCK_SIZE - start_byte_in_start_block) in
      let bytes_to_copy :=
        if remaining_space >? bytes_to_write then bytes_to_write else remaining_space in
      copy_to_file (block_addr first + start_byte_in_start_block) (p_write_buffer params) 0 bytes_to_copy;;
      cache_set (p_path params) start_block file_data;;
      let bytes_to_write := bytes_to_write - bytes_to_copy in
      let bytes_written := bytes_to_copy in
      if bytes_to_write >? bytes_written then
        r ← write_rest (Z.to_nat bytes_to_write) params file_data count (u32 (start_block + 1))
              bytes_to_write bytes_written;
        mret (match r with inl n => inl n | inr n => inr (Status n) end)
      else mret (inl bytes_written).

Definition write_file (params : params_t) : M R operation_result_t :=
  file ← active_file_list_find (p_path params);
  found ← inode_of_file (p_path params);
  let finish d :=
    active_file_finished_using file;;
    mret (result (p_path params) d) in
  match fst found with
  | None => finish Null
  | Some file_inode =>
      m ← get_file;
      if has_mode (Inode.mode m file_inode) EXT2_IFREG then
        WRLOCK file;;
        let end_ := p_offset params + p_bytes_to_write params in
        m ← get_file;
        let diff := end_ - Inode.size m file_inode in
        clear_tail params file_inode;;
        m ← get_file;
        (if Size_In_Blocks end_ >? Size_In_Blocks (Inode.size m file_inode)
         then Attach_Blocks file_inode (u32 (Size_In_Blocks diff));; mret tt
         else mret tt);;
        m ← get_file;
        let file_data := default []
          (Inode_Get_Data_Adressess m file_inode (u32 (Inode.size m file_inode + diff))) in
        let count := u32 (Size_In_Blocks end_) in
        r ← write_blocks params file_inode file_data count;
        match r with
        | inr d => finish d
        | inl bytes_written =>
            m ← get_file;
            (if u32 (p_offset params + bytes_written) >? u32 (Inode.size m file_inode) then
               let diff := u32 (p_offset params + bytes_written - Inode.size m file_inode) in
               update_file (fun m => Inode.set_size m file_inode (Inode.size m file_inode + diff));;
               update_file (fun m => Inode.set_blocks m file_inode
                 (Size_In_Blocks (Inode.size m file_inode) * (BLOCK_SIZE / 512)))
             else mret tt);;
            update_counter;;
            UNLOCK file;;
            finish (Status bytes_written)
        end
      else
        set_errno EPERM;;
        UNLOCK file;;
        finish Null
  end.
End FileOps.
