(* ===== verification/Serial.v ===== *)
(** * Serial: the messages between the client and the server

    Models [serializadores.c], which both programs have a copy of.  A message
    is a header of three bytes (type, length of the payload in 16 bits) and a
    payload.  The integers are copied as they lie in memory, so the format
    depends on the sizes of the C types: the class [Abi]. *)

From S2P Require Import Prelude Memory CString Dirs.

(** ** Types of messages *)

Definition CREAR_ARCHIVO : Z := 0.
Definition ABRIR_ARCHIVO : Z := 1.
Definition LEER_ARCHIVO : Z := 2.
Definition ESCRIBIR_ARCHIVO : Z := 3.
Definition ELIMINAR_ARCHIVO : Z := 4.
Definition TRUNCAR_ARCHIVO : Z := 5.
Definition CERRAR_ARCHIVO : Z := 6.
Definition CREAR_DIRECTORIO : Z := 7.
Definition LEER_DIRECTORIO : Z := 8.
Definition ELIMINAR_DIRECTORIO : Z := 9.
Definition OBTENER_ATRIBUTOS : Z := 10.
Definition HANDSHAKE_INIC : Z := 11.
Definition HANDSHAKE_OK : Z := 12.
Definition HANDSHAKE_FAIL : Z := 13.
Definition RESPUESTA_OK : Z := 14.

(** Sizes of the types, in bytes. *)
Class Abi := {
  sizeof_size_t : nat;
  sizeof_off_t : nat;
  sizeof_mode_t : nat;
  sizeof_ino_t : nat;
  sizeof_nlink_t : nat;
  sizeof_blksize_t : nat;
  sizeof_blkcnt_t : nat
}.

Definition abi_i386 : Abi := {|
  sizeof_size_t := 4; sizeof_off_t := 4; sizeof_mode_t := 4; sizeof_ino_t := 4;
  sizeof_nlink_t := 4; sizeof_blksize_t := 4; sizeof_blkcnt_t := 4 |}.

(** i386 with _FILE_OFFSET_BITS=64 *)
Definition abi_i386_lfs : Abi := {|
  sizeof_size_t := 4; sizeof_off_t := 8; sizeof_mode_t := 4; sizeof_ino_t := 8;
  sizeof_nlink_t := 4; sizeof_blksize_t := 4; sizeof_blkcnt_t := 8 |}.

Definition abi_x86_64 : Abi := {|
  sizeof_size_t := 8; sizeof_off_t := 8; sizeof_mode_t := 4; sizeof_ino_t := 8;
  sizeof_nlink_t := 8; sizeof_blksize_t := 8; sizeof_blkcnt_t := 8 |}.

(** ** Integers as bytes *)

Fixpoint le_bytes (n : nat) (v : Z) : list Z :=
  match n with
  | O => []
  | S n => v mod 256 :: le_bytes n (v / 256)
  end.

Fixpoint le_value (l : list Z) : Z :=
  match l with
  | [] => 0
  | b :: l => b + 256 * le_value l
  end.

(** The value of a signed type of that many bytes. *)
Definition signed_value (l : list Z) : Z := swrap (8 * zlen l) (le_value l).

(** ** Buffers *)

Record t_stream := { longitud : Z; data : list Z }.

(** calloc([capacity]), and the bytes [l] copied from its start on. *)
Definition filled (capacity : Z) (l : list Z) : res (list Z) :=
  if zlen l <=? capacity then Ok (l ++ replicate (Z.to_nat (capacity - zlen l)) 0)
  else Fail OutOfBounds.

Definition stream_of (length : Z) (l : list Z) : res t_stream :=
  match filled length l with
  | Ok d => Ok {| longitud := length; data := d |}
  | Fail e => Fail e
  end.

(** memcpy(dst, stream + [offset], [n]) *)
Definition bytes_at (stream : list Z) (offset n : Z) : res (list Z) :=
  if (0 <=? n) && (0 <=? offset) && (offset + n <=? zlen stream)
  then Ok (take (Z.to_nat n) (drop (Z.to_nat offset) stream))
  else Fail OutOfBounds.

(** The C string at the start of an array. *)
Fixpoint c_string (l : list Z) : res (list Z) :=
  match l with
  | [] => Fail OutOfBounds
  | c :: l => if c =? 0 then Ok []
              else match c_string l with Ok s => Ok (c :: s) | Fail e => Fail e end
  end.

Definition nul_terminated (s : list Z) : list Z := s ++ [0].

(** sizeof(int8_t) + sizeof(uint16_t) *)
Definition header_lenght : Z := 3.

(** The three bytes of a header; the length is cut to 16 bits. *)
Definition header_bytes (tipo payload_lenght : Z) : list Z := u8 tipo :: le_bytes 2 payload_lenght.

Record t_header := { tipo : Z; h_longitud : Z }.
Record t_pedido_modo_nombre := { mn_nombre : list Z; mn_modo : Z }.
Record t_pedido_leer_archivo := { la_nombre : list Z; la_size : Z; la_offset : Z }.
Record t_pedido_escribir_archivo := { ea_nombre : list Z; ea_buffer : list Z; ea_size : Z; ea_offset : Z }.
Record t_pedido_truncar_archivo := { ta_nombre : list Z; ta_size : Z }.
Record t_respuesta_leer_archivo := { rl_buffer : list Z; rl_bytes_leidos : Z }.
Record t_respuesta_obtener_atributos := {
  numero_de_inodo : Z;
  modo : Z;
  numero_de_hard_links : Z;
  at_size : Z;
  tamano_de_bloque_por_fs : Z;
  cantidad_de_bloques_de_512b : Z
}.

Section Serial.
Context {A : Abi}.

(** sizeof as an integer *)
Definition szt : Z := Z.of_nat sizeof_size_t.
Definition sot : Z := Z.of_nat sizeof_off_t.
Definition smt : Z := Z.of_nat sizeof_mode_t.

(** ** Requests *)

Definition serializar_handshake (tipo : Z) : res t_stream :=
  stream_of header_lenght (header_bytes tipo 0).

Definition deserializar_handshake (stream : list Z) : res Z :=
  res_bind (bytes_at stream 0 1) (fun l => Ok (le_value l)).

Definition serializar_pedido_modo_nombre (tipo : Z) (nombre_de_archivo : list Z) (modo : Z)
  : res t_stream :=
  let payload_lenght := u32 (smt + strlen nombre_de_archivo + 1) in
  stream_of (u32 (header_lenght + payload_lenght))
    (header_bytes tipo payload_lenght ++ le_bytes sizeof_mode_t modo
       ++ nul_terminated nombre_de_archivo).

Definition serializar_pedido_nombre (tipo : Z) (nombre_de_archivo : list Z) : res t_stream :=
  let payload_lenght := u32 (strlen nombre_de_archivo + 1) in
  stream_of (u32 (header_lenght + payload_lenght))
    (header_bytes tipo payload_lenght ++ nul_terminated nombre_de_archivo).

Definition serializar_pedido_leer_archivo (nombre_de_archivo : list Z) (size offset : Z)
  : res t_stream :=
  let payload_lenght := u32 (szt + sot + strlen nombre_de_archivo + 1) in
  stream_of (u32 (header_lenght + payload_lenght))
    (header_bytes LEER_ARCHIVO payload_lenght ++ le_bytes sizeof_size_t size
       ++ le_bytes sizeof_off_t offset ++ nul_terminated nombre_de_archivo).

(** [size] bytes are copied from the buffer. *)
Definition serializar_pedido_escribir_archivo (nombre_de_archivo buffer : list Z)
    (size desplazamiento : Z) : res t_stream :=
  let payload_lenght := u32 (szt + sot + size + strlen nombre_de_archivo + 1) in
  res_bind (bytes_at buffer 0 size) (fun b =>
  stream_of (u32 (header_lenght + payload_lenght))
    (header_bytes ESCRIBIR_ARCHIVO payload_lenght ++ le_bytes sizeof_size_t size
       ++ le_bytes sizeof_off_t desplazamiento ++ b ++ nul_terminated nombre_de_archivo)).

Definition serializar_pedido_truncar_archivo (nombre_de_archivo : list Z) (size : Z)
  : res t_stream :=
  let payload_lenght := u32 (szt + strlen nombre_de_archivo + 1) in
  stream_of (u32 (header_lenght + payload_lenght))
    (header_bytes TRUNCAR_ARCHIVO payload_lenght ++ le_bytes sizeof_size_t size
       ++ nul_terminated nombre_de_archivo).

Definition deserializar_header (stream : list Z) : res t_header :=
  res_bind (bytes_at stream 0 1) (fun t =>
  res_bind (bytes_at stream 1 2) (fun l =>
  Ok {| tipo := s8 (le_value t); h_longitud := le_value l |})).

(** The name is an array of [longitud - ...] chars, used as a C string. *)
Definition deserializar_pedido_modo_nombre (stream : list Z) (longitud : Z)
  : res t_pedido_modo_nombre :=
  res_bind (bytes_at stream 0 smt) (fun m =>
  res_bind (bytes_at stream smt (longitud - smt)) (fun n =>
  res_bind (c_string n) (fun n =>
  Ok {| mn_nombre := n; mn_modo := le_value m |}))).

Definition deserializar_pedido_nombre (stream : list Z) (longitud : Z) : res (list Z) :=
  res_bind (bytes_at stream 0 longitud) c_string.

Definition deserializar_pedido_leer_archivo (stream : list Z) (longitud : Z)
  : res t_pedido_leer_archivo :=
  res_bind (bytes_at stream 0 szt) (fun s =>
  res_bind (bytes_at stream szt sot) (fun o =>
  res_bind (bytes_at stream (szt + sot) (longitud - szt - sot)) (fun n =>
  res_bind (c_string n) (fun n =>
  Ok {| la_nombre := n; la_size := le_value s; la_offset := signed_value o |})))).

(** The copy of the client allocates four bytes less for the name than it
    copies. *)
Definition deserializar_pedido_leer_archivo_fsc (stream : list Z) (longitud : Z)
  : res t_pedido_leer_archivo :=
  res_bind (bytes_at stream 0 szt) (fun s =>
  res_bind (bytes_at stream szt sot) (fun o =>
  res_bind (bytes_at stream (szt + sot) (longitud - szt - sot)) (fun n =>
  res_bind (filled (longitud - szt - sot - 4) n) (fun n =>
  res_bind (c_string n) (fun n =>
  Ok {| la_nombre := n; la_size := le_value s; la_offset := signed_value o |}))))).

Definition deserializar_pedido_escribir_archivo (stream : list Z) (longitud : Z)
  : res t_pedido_escribir_archivo :=
  res_bind (bytes_at stream 0 szt) (fun s =>
  let size := le_value s in
  res_bind (bytes_at stream szt sot) (fun o =>
  res_bind (bytes_at stream (szt + sot) size) (fun b =>
  let offset := s32 (szt + sot + s32 size) in
  res_bind (bytes_at stream offset (longitud - offset)) (fun n =>
  res_bind (c_string n) (fun n =>
  Ok {| ea_nombre := n; ea_buffer := b; ea_size := size; ea_offset := signed_value o |}))))).

Definition deserializar_pedido_truncar_archivo (stream : list Z) (longitud : Z)
  : res t_pedido_truncar_archivo :=
  res_bind (bytes_at stream 0 szt) (fun s =>
  res_bind (bytes_at stream szt (longitud - szt)) (fun n =>
  res_bind (c_string n) (fun n =>
  Ok {| ta_nombre := n; ta_size := le_value s |}))).

(** ** Responses *)

Definition serializar_respuesta_finalizacion (tipo : Z) : res t_stream :=
  stream_of header_lenght (header_bytes tipo 0).

Definition serializar_respuesta_escribir_archivo (tipo bytes_escritos : Z) : res t_stream :=
  let payload_lenght := u16 szt in
  stream_of (header_lenght + payload_lenght)
    (header_bytes tipo payload_lenght ++ le_bytes sizeof_size_t bytes_escritos).

(** The length of the buffer that is allocated has 16 bits, the number of
    bytes copied has not. *)
Definition serializar_respuesta_leer_archivo (tipo bytes_leidos : Z) (buffer : list Z)
  : res t_stream :=
  let payload_lenght := u16 (szt + bytes_leidos) in
  res_bind (bytes_at buffer 0 bytes_leidos) (fun b =>
  stream_of (header_lenght + payload_lenght)
    (header_bytes tipo payload_lenght ++ le_bytes sizeof_size_t bytes_leidos ++ b)).

(** The size is copied as a size_t. *)
Definition serializar_respuesta_obtener_atributos (tipo : Z)
    (atributos : t_respuesta_obtener_atributos) : res t_stream :=
  let payload_lenght := u16 (Z.of_nat (sizeof_ino_t + sizeof_mode_t + sizeof_nlink_t
                              + sizeof_off_t + sizeof_blksize_t + sizeof_blkcnt_t)) in
  stream_of (header_lenght + payload_lenght)
    (header_bytes tipo payload_lenght
       ++ le_bytes sizeof_ino_t (numero_de_inodo atributos)
       ++ le_bytes sizeof_mode_t (modo atributos)
       ++ le_bytes sizeof_nlink_t (numero_de_hard_links atributos)
       ++ le_bytes sizeof_size_t (at_size atributos)
       ++ le_bytes sizeof_blksize_t (tamano_de_bloque_por_fs atributos)
       ++ le_bytes sizeof_blkcnt_t (cantidad_de_bloques_de_512b atributos)).

(** payload_lenght += name_len + 1, in 16 bits *)
Definition names_length (names : list (list Z)) : Z :=
  fold_left (fun n name => u16 (n + (zlen name + 1))) names 0.

(** The names with "#" between them. *)
Fixpoint join_names (names : list (list Z)) : list Z :=
  match names with
  | [] => []
  | [n] => n
  | n :: names => n ++ hash_sign :: join_names names
  end.

(** The names of the entries; the loop reads the first entry before it tests
    for the end of the array. *)
Definition serializar_respuesta_leer_directorio (tipo : Z) (names : list (list Z)) : res t_stream :=
  let cantidad := u32 (zlen names - 1) in
  let payload_lenght := u16 (names_length names + cantidad) in
  match names with
  | [] => Fail NullDeref
  | _ :: _ =>
      stream_of (header_lenght + payload_lenght)
        (header_bytes tipo payload_lenght ++ join_names names)
  end.

(** [longitud] bytes into an int32_t that is zero. *)
Definition deserializar_respuesta_finalizacion (stream : list Z) (longitud : Z) : res Z :=
  res_bind (bytes_at stream 0 longitud) (fun l =>
  res_bind (filled 4 l) (fun l => Ok (s32 (le_value l)))).

Definition deserializar_respuesta_leer_archivo (stream : list Z) (longitud : Z)
  : res t_respuesta_leer_archivo :=
  res_bind (bytes_at stream 0 szt) (fun s =>
  res_bind (bytes_at stream szt (u32 (le_value s))) (fun b =>
  Ok {| rl_buffer := b; rl_bytes_leidos := le_value s |})).

Definition deserializar_respuesta_obtener_atributos (stream : list Z) (longitud : Z)
  : res t_respuesta_obtener_atributos :=
  let o1 := Z.of_nat sizeof_ino_t in
  let o2 := o1 + smt in
  let o3 := o2 + Z.of_nat sizeof_nlink_t in
  let o4 := o3 + sot in
  let o5 := o4 + Z.of_nat sizeof_blksize_t in
  res_bind (bytes_at stream 0 (Z.of_nat sizeof_ino_t)) (fun b1 =>
  res_bind (bytes_at stream o1 smt) (fun b2 =>
  res_bind (bytes_at stream o2 (Z.of_nat sizeof_nlink_t)) (fun b3 =>
  res_bind (bytes_at stream o3 sot) (fun b4 =>
  res_bind (bytes_at stream o4 (Z.of_nat sizeof_blksize_t)) (fun b5 =>
  res_bind (bytes_at stream o5 (Z.of_nat sizeof_blkcnt_t)) (fun b6 =>
  Ok {| numero_de_inodo := le_value b1; modo := le_value b2;
        numero_de_hard_links := le_value b3; at_size := signed_value b4;
        tamano_de_bloque_por_fs := signed_value b5;
        cantidad_de_bloques_de_512b := signed_value b6 |})))))).

(** [longitud] bytes into a size_t that is zero. *)
Definition deserializar_respuesta_escribir_archivo (stream : list Z) (longitud : Z) : res Z :=
  res_bind (bytes_at stream 0 longitud) (fun l =>
  res_bind (filled szt l) (fun l => Ok (le_value l))).
End Serial.

(** The name of an entry of the image. *)
Definition entry_name (m : mem) (e : Z) : list Z :=
  read_bytes m (Entry.file_name e) (Entry.name_len m e).
