(* ===== verification/Sockets.v ===== *)
(** * Sockets: sending and receiving

    Models [sockete_enviar] and [sockete_recibir] of [sockete.c] and the
    functions of [manejador_de_socketes.c] on top of them.  The kernel is a
    list of the values that the successive calls of send or recv return; the
    model records what each call was asked to do. *)

From S2P Require Import Prelude Memory CString Dirs Serial.

Definition SOCKETEOK : Z := 0.
Definition SOCKETEERROR : Z := -1.
Definition EBADFD : Z := 77.

(** One call: the offset of the pointer from the start of the buffer, and
    the length that was passed. *)
Definition io_call : Type := Z * Z.

(** while (aux < longitud) { n = send(fd, p + aux, longitud, 0); aux += n; }
    and the same with recv; [results] has a value for every call made. *)
Fixpoint io_loop (results : list Z) (aux longitud : Z) : res (Z * list io_call) :=
  if u32 aux <? longitud then
    match results with
    | [] => Fail OutOfFuel
    | n :: results =>
        match io_loop results (s32 (aux + n)) longitud with
        | Ok (r, calls) => Ok (r, (aux, longitud) :: calls)
        | Fail e => Fail e
        end
    end
  else Ok (aux, []).

(** The result and the calls. *)
Definition sockete_enviar (results : list Z) (longitud : Z) : res (Z * list io_call) :=
  match results with
  | [] => Fail OutOfFuel
  | bytes_enviados :: results =>
      if bytes_enviados =? -1 then Ok (SOCKETEERROR, [(0, longitud)])
      else
        match io_loop results bytes_enviados longitud with
        | Ok (r, calls) => Ok (r, (0, longitud) :: calls)
        | Fail e => Fail e
        end
  end.

(** The result, the new errno and the calls. *)
Definition sockete_recibir (results : list Z) (longitud_retorno errno : Z)
  : res (Z * Z * list io_call) :=
  match results with
  | [] => Fail OutOfFuel
  | bytes_recibidos :: results =>
      if bytes_recibidos <=? 0 then Ok (SOCKETEERROR, EBADFD, [(0, longitud_retorno)])
      else
        match io_loop results bytes_recibidos longitud_retorno with
        | Ok (r, calls) => Ok (r, errno, (0, longitud_retorno) :: calls)
        | Fail e => Fail e
        end
  end.

Definition enviar_paquete (results : list Z) (paquete : t_stream) : res (Z * list io_call) :=
  match sockete_enviar results (longitud paquete) with
  | Ok (r, calls) => Ok (if r =? SOCKETEERROR then u8 SOCKETEERROR else SOCKETEOK, calls)
  | Fail e => Fail e
  end.

(** [received] are the bytes the buffer holds afterwards. *)
Definition recibir_header (received : list Z) : res t_header := deserializar_header received.

Definition cliente_iniciar_handshake : res (Z * t_stream) :=
  res_bind (serializar_handshake HANDSHAKE_INIC) (fun h => Ok (SOCKETEOK, h)).

(** The answer and the result, for the three bytes received. *)
Definition server_responder_handshake (received : list Z) : res (t_stream * Z) :=
  res_bind (deserializar_handshake received) (fun handshake =>
  let answer := if handshake =? HANDSHAKE_INIC then HANDSHAKE_OK else HANDSHAKE_FAIL in
  res_bind (serializar_handshake answer) (fun s => Ok (s, answer))).

Definition cliente_recibir_handshake (received : list Z) : res Z := deserializar_handshake received.

(** ** What is transmitted *)

(** Every byte of the message once, in order: each call starts where the
    last one ended and stays inside the message. *)
Fixpoint exact_calls (calls : list io_call) (results : list Z) (from longitud : Z) : Prop :=
  match calls, results with
  | [], [] => from = longitud
  | (off, len) :: calls, n :: results =>
      off = from /\ 0 <= n <= len /\ off + len <= longitud /\
      exact_calls calls results (from + n) longitud
  | _, _ => False
  end.

(** a message is transmitted exactly when the first call of send takes
    all of it: then nothing else is sent.  After a short first call the next
    one is given the whole length again, from the middle of the message, so
    it reaches behind the message's end. *)
Lemma sockete_enviar_exact longitud n rest :
  0 < longitud < 2 ^ 31 -> 0 < n <= longitud ->
  (n = longitud -> sockete_enviar (n :: rest) longitud = Ok (n, [(0, longitud)]) /\
                   exact_calls [(0, longitud)] [n] 0 longitud) /\
  (n < longitud -> forall r calls, sockete_enviar (n :: rest) longitud = Ok (r, calls) ->
     exists calls', calls = (0, longitud) :: (n, longitud) :: calls' /\
     forall results, ~ exact_calls calls results 0 longitud).
Proof.
  intros Hl Hn. unfold sockete_enviar. rewrite (proj2 (Z.eqb_neq n (-1))) by lia. split.
  - intros ->. destruct rest; cbn [io_loop]; rewrite u32_small by lia;
      (rewrite (proj2 (Z.ltb_ge _ _)) by lia); (split; [done|]); simpl; lia.
  - intros Hlt r calls. destruct rest as [|n' rest]; cbn [io_loop]; rewrite u32_small by lia;
      rewrite (proj2 (Z.ltb_lt _ _)) by lia; [done|].
    destruct (io_loop rest _ longitud) as [[r' calls']|] eqn:E; [|done].
    intros [= <- <-]. exists calls'. split; [done|].
    intros [|a [|b results]] Hx; simpl in Hx; [done|lia|]. lia.
Qed.

Lemma sockete_enviar_exact_witness :
  sockete_enviar [4; 6] 10 = Ok (10, [(0, 10); (4, 10)]) /\
  forall results, ~ exact_calls [(0, 10); (4, 10)] results 0 10.
Proof.
  split; [vm_compute; reflexivity|].
  destruct (proj2 (sockete_enviar_exact 10 4 [6] ltac:(lia) ltac:(lia)) ltac:(lia) 10
              [(0, 10); (4, 10)] ltac:(vm_compute; reflexivity)) as (calls' & _ & H).
  exact H.
Defined.

(** The two sides of the handshake agree: the server answers OK to the
    message of [cliente_iniciar_handshake] and FAIL to any other type, and the
    client reads back what the server answered. *)
Lemma handshake_agrees t :
  0 <= t < 256 ->
  (exists h, cliente_iniciar_handshake = Ok (SOCKETEOK, h) /\
     exists a, server_responder_handshake (data h) = Ok (a, HANDSHAKE_OK) /\
       cliente_recibir_handshake (data a) = Ok HANDSHAKE_OK) /\
  (t <> HANDSHAKE_INIC -> exists a, server_responder_handshake [t; 0; 0] = Ok (a, HANDSHAKE_FAIL) /\
     cliente_recibir_handshake (data a) = Ok HANDSHAKE_FAIL).
Proof.
  intros Ht. split; [by eexists; split; [reflexivity|]; eexists|].
  intros Hne. unfold server_responder_handshake, deserializar_handshake.
  assert (bytes_at [t; 0; 0] 0 1 = Ok [t]) as -> by reflexivity. cbn [res_bind le_value].
  rewrite Z.mul_0_r, Z.add_0_r, (proj2 (Z.eqb_neq t HANDSHAKE_INIC)) by done. by eexists.
Qed.

Lemma handshake_agrees_witness :
  5 <> HANDSHAKE_INIC /\ exists a, server_responder_handshake [5; 0; 0] = Ok (a, HANDSHAKE_FAIL).
Proof.
  split; [done|].
  destruct (proj2 (handshake_agrees 5 ltac:(lia)) ltac:(done)) as (a & H & _). by exists a.
Defined.
