(* ===== verification/Requests.v ===== *)
(** * Requests: from a message to a task, and from its result to the answer

    Models [procesador_de_pedidos.c]: the [generar_task_*] functions build a
    task out of a request, the [*_response] functions build the answer out of
    the result of the operation; [worker] of [server_threading.c], which runs
    a task; and the dispatch on the type of the message of [main.c].  The
    answer is the stream given to [sockete_enviar], [None] when the code
    sends nothing. *)

From S2P Require Import Prelude Memory Bitarray Ext2 CString Paths Rfs Alloc BlockMap Dirs FileOps Serial.

Section Requests.
Context {Super_constants : Superblock_constants} {WA : Word_after_array} {AB : Abi}.
Context {C : Type} `{Memcached C}.
Abbreviation R := (rfs C).

Record task_t := {
  run : params_t -> M R operation_result_t;
  params : params_t;
  deliver_response : operation_result_t -> M R (option t_stream)
}.

(** calloc(1, sizeof(params_t)) *)
Definition no_params : params_t :=
  {| p_path := []; p_mode := 0; p_write_buffer := []; p_file := false; p_offset := 0;
     p_bytes_to_read := 0; p_bytes_to_write := 0; p_size := 0 |}.

Definition with_path (path : list Z) : params_t :=
  {| p_path := path; p_mode := 0; p_write_buffer := []; p_file := false; p_offset := 0;
     p_bytes_to_read := 0; p_bytes_to_write := 0; p_size := 0 |}.

Definition lift {A} (r : res A) : M R A := fun s =>
  match r with Ok a => Ok (a, s) | Fail e => Fail e end.

(** ** Answers *)

(** active_file_list_find, RDLOCK ... UNLOCK, active_file_finished_using *)
Definition with_data_file (result : operation_result_t) (body : M R (option t_stream))
  : M R (option t_stream) :=
  data_file ← active_file_list_find (r_path result);
  RDLOCK data_file;;
  answer ← body;
  UNLOCK data_file;;
  active_file_finished_using data_file;;
  mret answer.

Definition finalizacion (tipo : Z) : M R (option t_stream) :=
  s ← lift (serializar_respuesta_finalizacion tipo); mret (Some s).

(** The tests on [result->error] that most answers share: [enoent] is what is
    sent for ENOENT; no branch sets [respuesta] for the other errors. *)
Definition error_answer (result : operation_result_t) (enoent : Z) : M R (option t_stream) :=
  if r_error result =? ENOENT then finalizacion (- enoent)
  else if r_error result =? ENAMETOOLONG then finalizacion (- ENAMETOOLONG)
  else fail Uninitialised.

Definition listar_directorio_response (result : operation_result_t) : M R (option t_stream) :=
  with_data_file result
    match r_data result with
    | Null => error_answer result ENOENT
    | Entries l =>
        m ← get_file;
        s ← lift (serializar_respuesta_leer_directorio RESPUESTA_OK (entry_name m <$> l));
        mret (Some s)
    | _ => fail OutOfBounds
    end.

(** The answers to errors are built and not sent. *)
Definition leer_archivo_response (result : operation_result_t) : M R (option t_stream) :=
  with_data_file result
    match r_data result with
    | Null =>
        if r_error result =? ENOENT then
          lift (serializar_respuesta_leer_archivo (- ENOENT) 0 []);; mret None
        else if r_error result =? ENAMETOOLONG then
          lift (serializar_respuesta_leer_archivo (- ENAMETOOLONG) 0 []);; mret None
        else fail Uninitialised
    | Bytes l =>
        s ← lift (serializar_respuesta_leer_archivo RESPUESTA_OK (r_read_bytes result) l);
        mret (Some s)
    | _ => fail OutOfBounds
    end.

Definition obtener_atributos_response (result : operation_result_t) : M R (option t_stream) :=
  with_data_file result
    match r_data result with
    | Null => error_answer result ENOENT
    | Stats atributos =>
        s ← lift (serializar_respuesta_obtener_atributos RESPUESTA_OK
              {| numero_de_inodo := st_inode_number atributos;
                 modo := st_mode atributos;
                 numero_de_hard_links := st_links_count atributos;
                 at_size := st_size atributos;
                 tamano_de_bloque_por_fs := BLOCK_SIZE;
                 cantidad_de_bloques_de_512b := Size_In_Blocks (st_size atributos) |});
        mret (Some s)
    | _ => fail OutOfBounds
    end.

(** Any result with data is an OK. *)
Definition status_answer (result : operation_result_t) (enoent : Z) : M R (option t_stream) :=
  match r_data result with
  | Null => error_answer result enoent
  | _ => finalizacion RESPUESTA_OK
  end.

Definition crear_archivo_response (result : operation_result_t) : M R (option t_stream) :=
  with_data_file result (status_answer result ENOENT).

(** The four bytes of the result are read as a size_t. *)
Definition escribir_archivo_response (result : operation_result_t) : M R (option t_stream) :=
  with_data_file result
    match r_data result with
    | Null =>
        if r_error result =? ENOENT then finalizacion (- ENOENT)
        else if r_error result =? ENOSPC then finalizacion (- ENOSPC)
        else if r_error result =? ENAMETOOLONG then finalizacion (- ENAMETOOLONG)
        else fail Uninitialised
    | Status n =>
        if szt <=? 4 then
          s ← lift (serializar_respuesta_escribir_archivo RESPUESTA_OK n);
          mret (Some s)
        else fail OutOfBounds
    | _ => fail OutOfBounds
    end.

Definition crear_directorio_response (result : operation_result_t) : M R (option t_stream) :=
  with_data_file result (status_answer result EEXIST).

Definition eliminar_archivo_response (result : operation_result_t) : M R (option t_stream) :=
  with_data_file result (status_answer result EEXIST).

Definition eliminar_directorio_response (result : operation_result_t) : M R (option t_stream) :=
  with_data_file result (status_answer result EEXIST).

(** These two look at the error only. *)
Definition truncar_archivo_response (result : operation_result_t) : M R (option t_stream) :=
  with_data_file result
    (if r_error result =? ENOENT then finalizacion (- ENOENT)
     else if r_error result =? ENAMETOOLONG then finalizacion (- ENAMETOOLONG)
     else finalizacion RESPUESTA_OK).

Definition abrir_archivo_response (result : operation_result_t) : M R (option t_stream) :=
  with_data_file result
    (if r_error result =? ENOENT then finalizacion (- ENOENT)
     else if r_error result =? ENAMETOOLONG then finalizacion (- ENAMETOOLONG)
     else finalizacion RESPUESTA_OK).

(** ** Tasks *)

Definition generar_task_listar_directorio (payload : list Z) (longitud : Z) : res task_t :=
  res_bind (deserializar_pedido_nombre payload longitud) (fun pedido =>
  Ok {| run := list_directory; params := with_path pedido;
        deliver_response := listar_directorio_response |}).

Definition generar_task_leer_archivo (payload : list Z) (longitud : Z) : res task_t :=
  res_bind (deserializar_pedido_leer_archivo payload longitud) (fun pedido =>
  Ok {| run := read_file;
        params := {| p_path := la_nombre pedido; p_mode := 0; p_write_buffer := []; p_file := false;
                     p_offset := u32 (la_offset pedido); p_bytes_to_read := u32 (la_size pedido);
                     p_bytes_to_write := 0; p_size := 0 |};
        deliver_response := leer_archivo_response |}).

Definition generar_task_obtener_atributos (payload : list Z) (longitud : Z) : res task_t :=
  res_bind (deserializar_pedido_nombre payload longitud) (fun pedido =>
  Ok {| run := getattr; params := with_path pedido;
        deliver_response := obtener_atributos_response |}).

(** The parameters of a creation. *)
Definition creation (pedido : t_pedido_modo_nombre) (file : bool) : params_t :=
  {| p_path := mn_nombre pedido; p_mode := mn_modo pedido; p_write_buffer := []; p_file := file;
     p_offset := 0; p_bytes_to_read := 0; p_bytes_to_write := 0; p_size := 0 |}.

Definition generar_task_crear_archivo (payload : list Z) (longitud : Z) : res task_t :=
  res_bind (deserializar_pedido_modo_nombre payload longitud) (fun pedido =>
  Ok {| run := create_file_dir; params := creation pedido true;
        deliver_response := crear_archivo_response |}).

Definition generar_task_escribir_archivo (payload : list Z) (longitud : Z) : res task_t :=
  res_bind (deserializar_pedido_escribir_archivo payload longitud) (fun pedido =>
  Ok {| run := write_file;
        params := {| p_path := ea_nombre pedido; p_mode := 0; p_write_buffer := ea_buffer pedido;
                     p_file := false; p_offset := u32 (ea_offset pedido); p_bytes_to_read := 0;
                     p_bytes_to_write := u32 (ea_size pedido); p_size := 0 |};
        deliver_response := escribir_archivo_response |}).

Definition generar_task_crear_directorio (payload : list Z) (longitud : Z) : res task_t :=
  res_bind (deserializar_pedido_modo_nombre payload longitud) (fun pedido =>
  Ok {| run := create_file_dir; params := creation pedido false;
        deliver_response := crear_directorio_response |}).

Definition generar_task_eliminar_archivo (payload : list Z) (longitud : Z) : res task_t :=
  res_bind (deserializar_pedido_nombre payload longitud) (fun pedido =>
  Ok {| run := delete_file; params := with_path pedido;
        deliver_response := eliminar_archivo_response |}).

Definition generar_task_eliminar_directorio (payload : list Z) (longitud : Z) : res task_t :=
  res_bind (deserializar_pedido_nombre payload longitud) (fun pedido =>
  Ok {| run := delete_dir; params := with_path pedido;
        deliver_response := eliminar_directorio_response |}).

Definition generar_task_truncar_archivo (payload : list Z) (longitud : Z) : res task_t :=
  res_bind (deserializar_pedido_truncar_archivo payload longitud) (fun pedido =>
  Ok {| run := truncate_file;
        params := {| p_path := ta_nombre pedido; p_mode := 0; p_write_buffer := []; p_file := false;
                     p_offset := 0; p_bytes_to_read := 0; p_bytes_to_write := 0;
                     p_size := ta_size pedido |};
        deliver_response := truncar_archivo_response |}).

Definition generar_task_abrir_archivo (payload : list Z) (longitud : Z) : res task_t :=
  res_bind (deserializar_pedido_nombre payload longitud) (fun pedido =>
  Ok {| run := open_file; params := with_path pedido;
        deliver_response := abrir_archivo_response |}).

(** The switch of [main]: an unknown type leaves [tarea] unset, and it is
    pushed all the same. *)
Definition generar_task (header : t_header) (payload : list Z) : res task_t :=
  let t := tipo header in
  let longitud := h_longitud header in
  if t =? CREAR_ARCHIVO then generar_task_crear_archivo payload longitud
  else if t =? CREAR_DIRECTORIO then generar_task_crear_directorio payload longitud
  else if t =? ABRIR_ARCHIVO then generar_task_abrir_archivo payload longitud
  else if t =? LEER_ARCHIVO then generar_task_leer_archivo payload longitud
  else if t =? ESCRIBIR_ARCHIVO then generar_task_escribir_archivo payload longitud
  else if t =? ELIMINAR_ARCHIVO then generar_task_eliminar_archivo payload longitud
  else if t =? ELIMINAR_DIRECTORIO then generar_task_eliminar_directorio payload longitud
  else if t =? TRUNCAR_ARCHIVO then generar_task_truncar_archivo payload longitud
  else if t =? OBTENER_ATRIBUTOS then generar_task_obtener_atributos payload longitud
  else if t =? LEER_DIRECTORIO then generar_task_listar_directorio payload longitud
  else Fail Uninitialised.

(** ** The worker *)

(** One turn of the loop of [worker]. *)
Definition worker (task : task_t) : M R (option t_stream) :=
  solved ← (if strlen (p_path (params task)) <=? 40
            then run task (params task)
            else set_errno ENAMETOOLONG;; mret (result (p_path (params task)) Null));
  e ← get_errno;
  set_errno 0;;
  deliver_response task
    {| r_path := r_path solved; r_data := r_data solved; r_read_bytes := r_read_bytes solved;
       r_error := e |}.

(** One turn of the loop of [main] for a client that has sent [bytes], and
    the worker's turn for the task: the header, as many bytes as it
    announces, the task, its answer.  A payload that is not complete is waited
    for. *)
Definition atender (bytes : list Z) : M R (option t_stream) :=
  header ← lift (deserializar_header (take 3 bytes));
  if h_longitud header <=? zlen (drop 3 bytes) then
    tarea ← lift (generar_task header (take (Z.to_nat (h_longitud header)) (drop 3 bytes)));
    worker tarea
  else fail Deadlock.
End Requests.

(** ** The clients of the server *)

(** while (i <= indice) over the file descriptors of the clients, with the
    one that accept returns: the index and the new array.  [n] bounds the
    rounds. *)
Fixpoint aceptar_cliente_loop (n : nat) (clientes : list Z) (fd : Z) (i indice : nat)
  : res (nat * list Z) :=
  match n with
  | O => Fail OutOfFuel
  | S n =>
      if (i <=? indice)%nat then
        match clientes !! i with
        | None => Fail OutOfBounds
        | Some c =>
            if c =? 0 then aceptar_cliente_loop n (<[i := fd]> clientes) fd (S i) i
            else aceptar_cliente_loop n clientes fd (S i) indice
        end
      else Ok (indice, clientes)
  end.

Definition aceptar_cliente (clientes : list Z) (fd : Z) (cantidad_clientes : nat)
  : res (nat * list Z) :=
  aceptar_cliente_loop (S (S cantidad_clientes)) clientes fd 0 cantidad_clientes.
