(* ===== verification/SerialFacts.v ===== *)
(** * SerialFacts: what is written into a message is read out of it

    Lemmas on the buffers and the integers of [Serial.v], and the round trips
    of the messages of the protocol: every request a client can build is the
    task the server runs, the answers carry the values they are built from,
    and where the 16 bits of the length make them lose some. *)

From S2P Require Import Prelude Memory Bitarray Ext2 Ext2Facts CString Paths Rfs Alloc BlockMap Dirs FileOps Serial Requests.

(** What the ABIs of the program's machines have in common. *)
Class Abi_ok `{Abi} : Prop := {
  off_t_is_size_t : sizeof_size_t = sizeof_off_t;
  size_t_size : (4 <= sizeof_size_t <= 8)%nat;
  mode_t_size : (4 <= sizeof_mode_t <= 8)%nat;
  ino_t_size : (4 <= sizeof_ino_t <= 8)%nat;
  nlink_t_size : (4 <= sizeof_nlink_t <= 8)%nat;
  blksize_t_size : (4 <= sizeof_blksize_t <= 8)%nat;
  blkcnt_t_size : (4 <= sizeof_blkcnt_t <= 8)%nat
}.

#[export] Instance abi_i386_ok : @Abi_ok abi_i386.
Proof. split; cbn; lia. Qed.
#[export] Instance abi_x86_64_ok : @Abi_ok abi_x86_64.
Proof. split; cbn; lia. Qed.

(** ** Integers *)

Lemma length_le_bytes n v : length (le_bytes n v) = n.
Proof. revert v. induction n as [|n IH]; intros v; [done|]. simpl. by rewrite IH. Qed.

Lemma zlen_le_bytes n v : zlen (le_bytes n v) = Z.of_nat n.
Proof. unfold zlen. by rewrite length_le_bytes. Qed.

Lemma le_value_le_bytes n v : le_value (le_bytes n v) = v mod 256 ^ Z.of_nat n.
Proof.
  revert v. induction n as [|n IH]; intros v.
  - simpl. by rewrite Z.mod_1_r.
  - cbn [le_bytes le_value]. rewrite IH, Nat2Z.inj_succ, Z.pow_succ_r by lia.
    assert (0 < 256 ^ Z.of_nat n) by (apply Z.pow_pos_nonneg; lia).
    rewrite (Z.rem_mul_r v 256) by lia. lia.
Qed.

Lemma le_value_small n v : 0 <= v < 256 ^ Z.of_nat n -> le_value (le_bytes n v) = v.
Proof. intros H. rewrite le_value_le_bytes. by apply Z.mod_small. Qed.

Lemma pow_256 n : 0 <= n -> 256 ^ n = 2 ^ (8 * n).
Proof. intros H. rewrite Z.pow_mul_r by lia. done. Qed.

Lemma signed_value_small n v :
  (0 < n)%nat -> - 2 ^ (8 * Z.of_nat n - 1) <= v < 2 ^ (8 * Z.of_nat n - 1) ->
  signed_value (le_bytes n v) = v.
Proof.
  intros Hn Hv. unfold signed_value. rewrite zlen_le_bytes, le_value_le_bytes, pow_256 by lia.
  unfold swrap. set (k := 8 * Z.of_nat n) in *.
  assert (2 ^ k = 2 * 2 ^ (k - 1)) as Hk.
  { rewrite <- Z.pow_succ_r by lia. f_equal. lia. }
  assert (0 < 2 ^ (k - 1)) by (apply Z.pow_pos_nonneg; lia).
  rewrite Z.add_mod_idemp_l by lia. rewrite Z.mod_small; lia.
Qed.

(** ** Buffers *)

Lemma filled_exact l : filled (zlen l) l = Ok l.
Proof.
  unfold filled. rewrite (proj2 (Z.leb_le _ _)) by lia. rewrite Z.sub_diag.
  simpl. by rewrite app_nil_r.
Qed.

Lemma filled_pad n l : zlen l <= n -> filled n l = Ok (l ++ replicate (Z.to_nat (n - zlen l)) 0).
Proof. intros H. unfold filled. by rewrite (proj2 (Z.leb_le _ _)). Qed.

Lemma stream_of_exact n l : n = zlen l -> stream_of n l = Ok {| longitud := n; data := l |}.
Proof. intros ->. unfold stream_of. by rewrite filled_exact. Qed.

Lemma stream_of_overflow n l : n < zlen l -> stream_of n l = Fail OutOfBounds.
Proof. intros H. unfold stream_of, filled. by rewrite (proj2 (Z.leb_gt _ _)). Qed.

Lemma bytes_at_middle a b c o n :
  o = zlen a -> n = zlen b -> bytes_at (a ++ b ++ c) o n = Ok b.
Proof.
  intros -> ->. unfold bytes_at. rewrite !zlen_app.
  pose proof (zlen_nonneg a). pose proof (zlen_nonneg b). pose proof (zlen_nonneg c).
  rewrite !(proj2 (Z.leb_le _ _)) by lia. cbn [andb].
  unfold zlen. rewrite !Nat2Z.id, drop_app_length, take_app_length. done.
Qed.

Lemma bytes_at_head b c n : n = zlen b -> bytes_at (b ++ c) 0 n = Ok b.
Proof. intros ->. apply (bytes_at_middle []); done. Qed.

Lemma bytes_at_tail a b o n : o = zlen a -> n = zlen b -> bytes_at (a ++ b) o n = Ok b.
Proof. intros. rewrite <- (app_nil_r b) at 1. by apply bytes_at_middle. Qed.

Lemma bytes_at_all b n : n = zlen b -> bytes_at b 0 n = Ok b.
Proof. intros ->. rewrite <- (app_nil_r b) at 1. by apply bytes_at_head. Qed.

Lemma c_string_nul s r : C_string s -> c_string (s ++ 0 :: r) = Ok s.
Proof.
  intros H. induction H as [|c s Hc _ IH]; [done|].
  cbn [app c_string]. rewrite IH, (proj2 (Z.eqb_neq c 0)) by lia. done.
Qed.

Lemma c_string_nul_terminated s : C_string s -> c_string (nul_terminated s) = Ok s.
Proof. apply c_string_nul. Qed.

Lemma zlen_nul_terminated s : zlen (nul_terminated s) = zlen s + 1.
Proof. unfold nul_terminated. by rewrite zlen_app. Qed.

Lemma zlen_header_bytes t n : zlen (header_bytes t n) = 3.
Proof. done. Qed.

Lemma deserializar_header_bytes t n rest :
  deserializar_header (header_bytes t n ++ rest) = Ok {| tipo := s8 (u8 t); h_longitud := u16 n |}.
Proof.
  unfold deserializar_header, header_bytes.
  change ((u8 t :: le_bytes 2 n) ++ rest) with ([u8 t] ++ le_bytes 2 n ++ rest).
  rewrite bytes_at_head by done. cbn [res_bind].
  rewrite bytes_at_middle by done. cbn [res_bind].
  rewrite le_value_le_bytes. cbn [le_value]. by rewrite Z.mul_0_r, Z.add_0_r.
Qed.

#[export] Hint Rewrite zlen_le_bytes zlen_nul_terminated zlen_header_bytes : liga.

(** Lengths of buffers in a goal of [lia]. *)
Ltac lengths := autorewrite with liga; unfold szt, sot, smt, strlen in *; lia.

(** ** Requests *)

(** The requests of the clients, one per function of [operaciones_fuse.c]
    that sends one. *)
Inductive pedido : Type :=
  | Crear_archivo (path : list Z) (mode : Z)
  | Crear_directorio (path : list Z) (mode : Z)
  | Abrir_archivo (path : list Z)
  | Leer_archivo (path : list Z) (size offset : Z)
  | Escribir_archivo (path buffer : list Z) (offset : Z)
  | Eliminar_archivo (path : list Z)
  | Eliminar_directorio (path : list Z)
  | Truncar_archivo (path : list Z) (size : Z)
  | Obtener_atributos (path : list Z)
  | Leer_directorio (path : list Z).

Section Requests_facts.
Context {Super_constants : Superblock_constants} {WA : Word_after_array} {AB : Abi}.
Context {C : Type} `{Memcached C}.

Definition serializar_pedido (p : pedido) : res t_stream :=
  match p with
  | Crear_archivo path mode => serializar_pedido_modo_nombre CREAR_ARCHIVO path mode
  | Crear_directorio path mode => serializar_pedido_modo_nombre CREAR_DIRECTORIO path mode
  | Abrir_archivo path => serializar_pedido_nombre ABRIR_ARCHIVO path
  | Leer_archivo path size offset => serializar_pedido_leer_archivo path size offset
  | Escribir_archivo path buffer offset =>
      serializar_pedido_escribir_archivo path buffer (zlen buffer) offset
  | Eliminar_archivo path => serializar_pedido_nombre ELIMINAR_ARCHIVO path
  | Eliminar_directorio path => serializar_pedido_nombre ELIMINAR_DIRECTORIO path
  | Truncar_archivo path size => serializar_pedido_truncar_archivo path size
  | Obtener_atributos path => serializar_pedido_nombre OBTENER_ATRIBUTOS path
  | Leer_directorio path => serializar_pedido_nombre LEER_DIRECTORIO path
  end.

(** The task a request stands for. *)
Definition task_of (p : pedido) : @task_t C :=
  match p with
  | Crear_archivo path mode =>
      {| run := create_file_dir; params := creation {| mn_nombre := path; mn_modo := mode |} true;
         deliver_response := crear_archivo_response |}
  | Crear_directorio path mode =>
      {| run := create_file_dir; params := creation {| mn_nombre := path; mn_modo := mode |} false;
         deliver_response := crear_directorio_response |}
  | Abrir_archivo path =>
      {| run := open_file; params := with_path path; deliver_response := abrir_archivo_response |}
  | Leer_archivo path size offset =>
      {| run := read_file;
         params := {| p_path := path; p_mode := 0; p_write_buffer := []; p_file := false;
                      p_offset := u32 offset; p_bytes_to_read := u32 size;
                      p_bytes_to_write := 0; p_size := 0 |};
         deliver_response := leer_archivo_response |}
  | Escribir_archivo path buffer offset =>
      {| run := write_file;
         params := {| p_path := path; p_mode := 0; p_write_buffer := buffer; p_file := false;
                      p_offset := u32 offset; p_bytes_to_read := 0;
                      p_bytes_to_write := u32 (zlen buffer); p_size := 0 |};
         deliver_response := escribir_archivo_response |}
  | Eliminar_archivo path =>
      {| run := delete_file; params := with_path path;
         deliver_response := eliminar_archivo_response |}
  | Eliminar_directorio path =>
      {| run := delete_dir; params := with_path path;
         deliver_response := eliminar_directorio_response |}
  | Truncar_archivo path size =>
      {| run := truncate_file;
         params := {| p_path := path; p_mode := 0; p_write_buffer := []; p_file := false;
                      p_offset := 0; p_bytes_to_read := 0; p_bytes_to_write := 0;
                      p_size := size |};
         deliver_response := truncar_archivo_response |}
  | Obtener_atributos path =>
      {| run := getattr; params := with_path path;
         deliver_response := obtener_atributos_response |}
  | Leer_directorio path =>
      {| run := list_directory; params := with_path path;
         deliver_response := listar_directorio_response |}
  end.

Definition pedido_path (p : pedido) : list Z :=
  match p with
  | Crear_archivo path _ | Crear_directorio path _ | Abrir_archivo path | Leer_archivo path _ _
  | Escribir_archivo path _ _ | Eliminar_archivo path | Eliminar_directorio path
  | Truncar_archivo path _ | Obtener_atributos path | Leer_directorio path => path
  end.

(** The numbers of a request fit the C types. *)
Definition pedido_numbers (p : pedido) : Prop :=
  match p with
  | Crear_archivo _ mode | Crear_directorio _ mode => 0 <= mode < 256 ^ smt
  | Leer_archivo _ size offset =>
      0 <= size < 256 ^ szt /\ - 2 ^ (8 * sot - 1) <= offset < 2 ^ (8 * sot - 1)
  | Escribir_archivo _ buffer offset =>
      zlen buffer < 256 ^ szt /\ - 2 ^ (8 * sot - 1) <= offset < 2 ^ (8 * sot - 1)
  | Truncar_archivo _ size => 0 <= size < 256 ^ szt
  | _ => True
  end.

(** The length of the payload. *)
Definition payload_size (p : pedido) : Z :=
  match p with
  | Crear_archivo path _ | Crear_directorio path _ => smt + zlen path + 1
  | Leer_archivo path _ _ => szt + sot + zlen path + 1
  | Escribir_archivo path buffer _ => szt + sot + zlen buffer + zlen path + 1
  | Truncar_archivo path _ => szt + zlen path + 1
  | Abrir_archivo path | Eliminar_archivo path | Eliminar_directorio path
  | Obtener_atributos path | Leer_directorio path => zlen path + 1
  end.

(** The payload, as the serializers lay it out. *)
Definition payload_bytes (p : pedido) : list Z :=
  match p with
  | Crear_archivo path mode | Crear_directorio path mode =>
      le_bytes sizeof_mode_t mode ++ nul_terminated path
  | Leer_archivo path size offset =>
      le_bytes sizeof_size_t size ++ le_bytes sizeof_off_t offset ++ nul_terminated path
  | Escribir_archivo path buffer offset =>
      le_bytes sizeof_size_t (zlen buffer) ++ le_bytes sizeof_off_t offset ++ buffer
        ++ nul_terminated path
  | Truncar_archivo path size => le_bytes sizeof_size_t size ++ nul_terminated path
  | Abrir_archivo path | Eliminar_archivo path | Eliminar_directorio path
  | Obtener_atributos path | Leer_directorio path => nul_terminated path
  end.

Definition pedido_tipo (p : pedido) : Z :=
  match p with
  | Crear_archivo _ _ => CREAR_ARCHIVO
  | Crear_directorio _ _ => CREAR_DIRECTORIO
  | Abrir_archivo _ => ABRIR_ARCHIVO
  | Leer_archivo _ _ _ => LEER_ARCHIVO
  | Escribir_archivo _ _ _ => ESCRIBIR_ARCHIVO
  | Eliminar_archivo _ => ELIMINAR_ARCHIVO
  | Eliminar_directorio _ => ELIMINAR_DIRECTORIO
  | Truncar_archivo _ _ => TRUNCAR_ARCHIVO
  | Obtener_atributos _ => OBTENER_ATRIBUTOS
  | Leer_directorio _ => LEER_DIRECTORIO
  end.

Lemma zlen_payload_bytes p : zlen (payload_bytes p) = payload_size p.
Proof.
  destruct p; cbn [payload_bytes payload_size]; autorewrite with liga;
    unfold szt, sot, smt; lia.
Qed.

(** What the serializers do, in one form. *)
Lemma serializar_pedido_spec p :
  payload_size p < 2 ^ 32 - 3 ->
  serializar_pedido p =
  Ok {| longitud := 3 + payload_size p;
        data := header_bytes (pedido_tipo p) (payload_size p) ++ payload_bytes p |}.
Proof.
  intros Hs.
  assert (forall l n, l = payload_bytes p -> n = payload_size p ->
    stream_of (u32 (header_lenght + u32 n)) (header_bytes (pedido_tipo p) (u32 n) ++ l)
    = Ok {| longitud := 3 + payload_size p;
            data := header_bytes (pedido_tipo p) (payload_size p) ++ payload_bytes p |}) as Hgen.
  { intros l n -> ->. pose proof (zlen_payload_bytes p) as Hl.
    pose proof (zlen_nonneg (payload_bytes p)).
    unfold header_lenght. rewrite (u32_small (payload_size p)), u32_small by lia.
    apply stream_of_exact. rewrite zlen_app, zlen_header_bytes. lia. }
  destruct p; cbn [serializar_pedido]; unfold serializar_pedido_modo_nombre,
    serializar_pedido_nombre, serializar_pedido_leer_archivo, serializar_pedido_escribir_archivo,
    serializar_pedido_truncar_archivo, strlen.
  5: rewrite bytes_at_all by done; cbn [res_bind].
  all: by apply Hgen.
Qed.

Lemma deserializar_pedido_nombre_spec path :
  C_string path ->
  deserializar_pedido_nombre (nul_terminated path) (zlen path + 1) = Ok path.
Proof.
  intros Hc. unfold deserializar_pedido_nombre. rewrite bytes_at_all by lengths.
  by apply c_string_nul_terminated.
Qed.

Lemma deserializar_pedido_modo_nombre_spec path mode :
  C_string path -> 0 <= mode < 256 ^ smt ->
  deserializar_pedido_modo_nombre (le_bytes sizeof_mode_t mode ++ nul_terminated path)
    (smt + zlen path + 1) = Ok {| mn_nombre := path; mn_modo := mode |}.
Proof.
  intros Hc Hm. unfold deserializar_pedido_modo_nombre.
  rewrite bytes_at_head by lengths. cbn [res_bind].
  rewrite bytes_at_tail by lengths. cbn [res_bind].
  rewrite c_string_nul_terminated by done. cbn [res_bind]. by rewrite le_value_small.
Qed.

Lemma deserializar_pedido_truncar_archivo_spec path size :
  C_string path -> 0 <= size < 256 ^ szt ->
  deserializar_pedido_truncar_archivo (le_bytes sizeof_size_t size ++ nul_terminated path)
    (szt + zlen path + 1) = Ok {| ta_nombre := path; ta_size := size |}.
Proof.
  intros Hc Hm. unfold deserializar_pedido_truncar_archivo.
  rewrite bytes_at_head by lengths. cbn [res_bind].
  rewrite bytes_at_tail by lengths. cbn [res_bind].
  rewrite c_string_nul_terminated by done. cbn [res_bind]. by rewrite le_value_small.
Qed.

(** The first two fields of a read and of a write. *)
Lemma size_offset_fields size offset rest :
  bytes_at (le_bytes sizeof_size_t size ++ le_bytes sizeof_off_t offset ++ rest) 0 szt
    = Ok (le_bytes sizeof_size_t size) /\
  bytes_at (le_bytes sizeof_size_t size ++ le_bytes sizeof_off_t offset ++ rest) szt sot
    = Ok (le_bytes sizeof_off_t offset).
Proof. split; [apply bytes_at_head|apply bytes_at_middle]; lengths. Qed.

Lemma third_field size offset a rest n :
  n = zlen a ->
  bytes_at (le_bytes sizeof_size_t size ++ le_bytes sizeof_off_t offset ++ a ++ rest)
    (szt + sot) n = Ok a.
Proof. intros ->. rewrite app_assoc. apply bytes_at_middle; lengths. Qed.

Lemma deserializar_pedido_leer_archivo_spec path size offset :
  C_string path -> 0 <= size < 256 ^ szt -> (0 < sizeof_off_t)%nat ->
  - 2 ^ (8 * sot - 1) <= offset < 2 ^ (8 * sot - 1) ->
  deserializar_pedido_leer_archivo
    (le_bytes sizeof_size_t size ++ le_bytes sizeof_off_t offset ++ nul_terminated path)
    (szt + sot + zlen path + 1)
  = Ok {| la_nombre := path; la_size := size; la_offset := offset |}.
Proof.
  intros Hc Hs Hp Ho. unfold deserializar_pedido_leer_archivo.
  destruct (size_offset_fields size offset (nul_terminated path)) as [-> ->]. cbn [res_bind].
  rewrite <- (app_nil_r (nul_terminated path)), third_field by lengths. cbn [res_bind].
  rewrite c_string_nul_terminated by done. cbn [res_bind].
  by rewrite le_value_small, signed_value_small.
Qed.

Lemma deserializar_pedido_escribir_archivo_spec path buffer offset :
  C_string path -> zlen buffer < 256 ^ szt -> (0 < sizeof_off_t)%nat ->
  - 2 ^ (8 * sot - 1) <= offset < 2 ^ (8 * sot - 1) ->
  szt + sot + zlen buffer < 2 ^ 31 ->
  deserializar_pedido_escribir_archivo
    (le_bytes sizeof_size_t (zlen buffer) ++ le_bytes sizeof_off_t offset ++ buffer
       ++ nul_terminated path)
    (szt + sot + zlen buffer + zlen path + 1)
  = Ok {| ea_nombre := path; ea_buffer := buffer; ea_size := zlen buffer; ea_offset := offset |}.
Proof.
  intros Hc Hs Hp Ho Hl. unfold deserializar_pedido_escribir_archivo.
  pose proof (zlen_nonneg buffer) as Hb.
  destruct (size_offset_fields (zlen buffer) offset (buffer ++ nul_terminated path)) as [-> ->].
  cbn [res_bind]. rewrite le_value_small, third_field by done. cbn [res_bind].
  assert (0 <= szt /\ 0 <= sot) as [? ?] by (unfold szt, sot; lia).
  rewrite !s32_small by (rewrite ?s32_small; lia).
  rewrite app_assoc, app_assoc, bytes_at_tail by lengths. cbn [res_bind].
  rewrite c_string_nul_terminated by done. cbn [res_bind]. by rewrite signed_value_small.
Qed.

Lemma generar_task_payload p :
  C_string (pedido_path p) -> pedido_numbers p -> (0 < sizeof_off_t)%nat ->
  payload_size p < 2 ^ 16 ->
  generar_task {| tipo := pedido_tipo p; h_longitud := payload_size p |} (payload_bytes p)
  = Ok (task_of p).
Proof.
  intros Hc Hn Hoff Hs.
  destruct p; cbn [pedido_path pedido_numbers payload_size payload_bytes pedido_tipo] in *;
    unfold generar_task; cbn [tipo h_longitud].
  all: repeat match goal with
       | |- context [?a =? ?b] => let v := eval vm_compute in (a =? b) in change (a =? b) with v; cbv iota
       end.
  - unfold generar_task_crear_archivo. by rewrite deserializar_pedido_modo_nombre_spec.
  - unfold generar_task_crear_directorio. by rewrite deserializar_pedido_modo_nombre_spec.
  - unfold generar_task_abrir_archivo. by rewrite deserializar_pedido_nombre_spec.
  - unfold generar_task_leer_archivo. destruct Hn as [? ?].
    by rewrite deserializar_pedido_leer_archivo_spec.
  - unfold generar_task_escribir_archivo. destruct Hn as [? ?].
    pose proof (zlen_nonneg path).
    by rewrite deserializar_pedido_escribir_archivo_spec by (done || lia).
  - unfold generar_task_eliminar_archivo. by rewrite deserializar_pedido_nombre_spec.
  - unfold generar_task_eliminar_directorio. by rewrite deserializar_pedido_nombre_spec.
  - unfold generar_task_truncar_archivo. by rewrite deserializar_pedido_truncar_archivo_spec.
  - unfold generar_task_obtener_atributos. by rewrite deserializar_pedido_nombre_spec.
  - unfold generar_task_listar_directorio. by rewrite deserializar_pedido_nombre_spec.
Qed.

Lemma serializar_pedido_parts p s :
  payload_size p < 2 ^ 32 - 3 -> serializar_pedido p = Ok s ->
  deserializar_header (take 3 (data s))
    = Ok {| tipo := pedido_tipo p; h_longitud := u16 (payload_size p) |} /\
  drop 3 (data s) = payload_bytes p /\ longitud s = zlen (data s).
Proof.
  intros Hs. rewrite serializar_pedido_spec by done. intros E.
  match type of E with Ok ?x = _ => assert (s = x) as -> by congruence end. clear E.
  cbn [data longitud].
  change 3%nat with (length (header_bytes (pedido_tipo p) (payload_size p))).
  split; [|split].
  - rewrite take_app_length.
    rewrite <- (app_nil_r (header_bytes _ _)), deserializar_header_bytes.
    by destruct p.
  - by rewrite drop_app_length.
  - rewrite zlen_app, zlen_header_bytes, zlen_payload_bytes. done.
Qed.

(** C26: Every request a client builds, of a path that is a C string and numbers that fit their
    types, and whose payload has less than 65536 bytes, is a message whose header announces its
    length, and the server makes exactly the task the request stands for out of it: the operation,
    its parameters and the answer. *)
Theorem requests_roundtrip p :
  C_string (pedido_path p) -> pedido_numbers p -> (0 < sizeof_off_t)%nat ->
  payload_size p < 2 ^ 16 ->
  exists s h, serializar_pedido p = Ok s /\ longitud s = zlen (data s) /\
    deserializar_header (take 3 (data s)) = Ok h /\
    h_longitud h = zlen (drop 3 (data s)) /\
    generar_task h (drop 3 (data s)) = Ok (task_of p).
Proof.
  intros Hc Hn Ho Hs. pose proof (zlen_nonneg (payload_bytes p)) as H0.
  rewrite zlen_payload_bytes in H0.
  assert (serializar_pedido p = Ok {| longitud := 3 + payload_size p;
    data := header_bytes (pedido_tipo p) (payload_size p) ++ payload_bytes p |}) as E
    by (apply serializar_pedido_spec; lia).
  eexists. exists {| tipo := pedido_tipo p; h_longitud := payload_size p |}.
  split; [exact E|].
  apply serializar_pedido_parts in E as (Eh & Ed & El); [|lia].
  rewrite u16_small in Eh by lia. rewrite Eh, Ed, El, zlen_payload_bytes.
  repeat split. by apply generar_task_payload.
Qed.

(** The part of a buffer that was received. *)
Lemma bytes_at_take k l o n :
  0 <= k <= zlen l -> 0 <= o -> 0 <= n ->
  bytes_at (take (Z.to_nat k) l) o n = if o + n <=? k then bytes_at l o n else Fail OutOfBounds.
Proof.
  intros Hk Ho Hn. unfold bytes_at.
  assert (zlen (take (Z.to_nat k) l) = k) as ->.
  { unfold zlen in *. rewrite length_take. lia. }
  rewrite !(proj2 (Z.leb_le _ _)) by lia. cbn [andb].
  destruct (Z.leb_spec (o + n) k); [|done].
  rewrite (proj2 (Z.leb_le _ _)) by lia. f_equal.
  rewrite skipn_firstn_comm, take_take. f_equal. lia.
Qed.

(** A write of 65536 bytes or more is not refused: the header announces the length modulo
    65536, the server receives that much and its deserialization reads behind the end of what it
    received. *)
Lemma long_write_overflows path buffer offset s h :
  2 ^ 16 <= zlen buffer -> zlen buffer < 256 ^ szt ->
  payload_size (Escribir_archivo path buffer offset) < 2 ^ 32 - 3 ->
  serializar_pedido (Escribir_archivo path buffer offset) = Ok s ->
  deserializar_header (take 3 (data s)) = Ok h ->
  match generar_task h (take (Z.to_nat (h_longitud h)) (drop 3 (data s))) : res (@task_t C) with
  | Ok _ => False
  | Fail e => e = OutOfBounds
  end.
Proof.
  intros Hb Hz Hs Hser Hh.
  set (p := Escribir_archivo path buffer offset) in *.
  apply serializar_pedido_parts in Hser as (Eh & Ed & _); [|done].
  rewrite Ed.
  assert (h = {| tipo := pedido_tipo p; h_longitud := u16 (payload_size p) |}) as -> by congruence.
  cbn [h_longitud].
  pose proof (u16_range (payload_size p)) as Hr. set (k := u16 (payload_size p)) in *.
  assert (k <= zlen (payload_bytes p)) as Hk.
  { rewrite zlen_payload_bytes. unfold k, u16. apply Z.mod_le; [|lia].
    unfold p. cbn [payload_size]. unfold szt, sot. pose proof (zlen_nonneg path). lia. }
  match goal with |- context [generar_task ?h ?pl] =>
    change (generar_task h pl) with (generar_task_escribir_archivo (C := C) pl k) end.
  unfold generar_task_escribir_archivo, deserializar_pedido_escribir_archivo.
  assert (0 <= szt /\ 0 <= sot) as [? ?] by (unfold szt, sot; lia).
  rewrite bytes_at_take by lia. destruct (Z.leb_spec (0 + szt) k); [|done].
  unfold p at 1. cbn [payload_bytes]. rewrite bytes_at_head by lengths. cbn [res_bind].
  rewrite bytes_at_take by lia. destruct (Z.leb_spec (szt + sot) k); [|done].
  unfold p at 1. cbn [payload_bytes]. rewrite bytes_at_middle by lengths. cbn [res_bind].
  rewrite le_value_small by (unfold szt in *; lia).
  rewrite bytes_at_take by lia. by rewrite (proj2 (Z.leb_gt _ _)) by lia.
Qed.
End Requests_facts.

(** ** Answers *)

Section Answers.
Context {AB : Abi}.

Lemma bytes_at_prefix (l : list Z) n :
  0 <= n <= zlen l -> bytes_at l 0 n = Ok (take (Z.to_nat n) l).
Proof. intros Hn. unfold bytes_at. by rewrite !(proj2 (Z.leb_le _ _)) by lia. Qed.

(** A message made of a header and a payload, read back. *)
Definition message (s : t_stream) (tipo : Z) (payload : list Z) : Prop :=
  longitud s = zlen (data s) /\
  deserializar_header (take 3 (data s)) = Ok {| tipo := tipo; h_longitud := zlen payload |} /\
  drop 3 (data s) = payload.

Lemma message_of t n payload :
  - 2 ^ 7 <= t < 2 ^ 7 -> zlen payload = n -> n < 2 ^ 16 ->
  exists s, stream_of (3 + n) (header_bytes t n ++ payload) = Ok s /\ message s t payload.
Proof.
  intros Ht Hl Hn. pose proof (zlen_nonneg payload).
  eexists. split; [apply stream_of_exact; rewrite zlen_app, zlen_header_bytes; lia|].
  unfold message. cbn [longitud data].
  change 3%nat with (length (header_bytes t n)).
  rewrite take_app_length, drop_app_length, zlen_app, zlen_header_bytes, Hl.
  split; [done|]. split; [|done].
  rewrite <- (app_nil_r (header_bytes _ _)), deserializar_header_bytes, u16_small by lia.
  do 2 f_equal. unfold s8, swrap, u8. rewrite Z.add_mod_idemp_l by lia.
  rewrite Z.mod_small; lia.
Qed.

Lemma read_answer_message buffer n :
  0 <= n <= zlen buffer -> n < 2 ^ 32 -> n < 256 ^ szt -> szt + n < 2 ^ 16 ->
  exists s payload, serializar_respuesta_leer_archivo RESPUESTA_OK n buffer = Ok s /\
    message s RESPUESTA_OK payload /\
    deserializar_respuesta_leer_archivo payload (zlen payload)
    = Ok {| rl_buffer := take (Z.to_nat n) buffer; rl_bytes_leidos := n |}.
Proof.
  intros Hn H32 Hsz Hs. unfold serializar_respuesta_leer_archivo. rewrite bytes_at_prefix by lia.
  assert (zlen (take (Z.to_nat n) buffer) = n) as Hl.
  { unfold zlen in *. rewrite length_take. lia. }
  cbn [res_bind]. assert (0 <= szt) by (unfold szt; lia).
  set (b := take (Z.to_nat n) buffer) in *. clearbody b. rewrite u16_small by lia.
  destruct (message_of RESPUESTA_OK (szt + n) (le_bytes sizeof_size_t n ++ b))
    as (s & Hs' & Hm); [done|lengths|done|].
  exists s, (le_bytes sizeof_size_t n ++ b). split; [done|]. split; [done|].
  unfold deserializar_respuesta_leer_archivo.
  rewrite bytes_at_head by lengths. cbn [res_bind].
  rewrite le_value_small, u32_small by (unfold szt in *; lia).
  by rewrite bytes_at_tail by lengths.
Qed.

Lemma write_answer_message n :
  0 <= n < 256 ^ szt -> szt < 2 ^ 16 ->
  exists s payload, serializar_respuesta_escribir_archivo RESPUESTA_OK n = Ok s /\
    message s RESPUESTA_OK payload /\ deserializar_respuesta_escribir_archivo payload (zlen payload) = Ok n.
Proof.
  intros Hn Hs. unfold serializar_respuesta_escribir_archivo. assert (0 <= szt) by (unfold szt; lia). rewrite u16_small by lia.
  destruct (message_of RESPUESTA_OK szt (le_bytes sizeof_size_t n)) as (s & Hs' & Hm); [done|lengths|done|].
  exists s, (le_bytes sizeof_size_t n). split; [done|]. split; [done|].
  unfold deserializar_respuesta_escribir_archivo. rewrite bytes_at_all by done. cbn [res_bind].
  replace szt with (zlen (le_bytes sizeof_size_t n)) by lengths. rewrite filled_exact. cbn [res_bind].
  by rewrite le_value_small by (unfold szt in *; lia).
Qed.

(** The answer to a read gives the client back the bytes read, as long as they and their number
    fit the 16 bits of the length; else the serializer writes behind the end of the buffer it
    allocated. *)
Lemma read_answer_roundtrip buffer n :
  0 <= n <= zlen buffer -> n < 2 ^ 32 -> n < 256 ^ szt ->
  (szt + n < 2 ^ 16 ->
   exists s payload, serializar_respuesta_leer_archivo RESPUESTA_OK n buffer = Ok s /\
     message s RESPUESTA_OK payload /\
     deserializar_respuesta_leer_archivo payload (zlen payload)
     = Ok {| rl_buffer := take (Z.to_nat n) buffer; rl_bytes_leidos := n |}) /\
  (2 ^ 16 <= szt + n ->
   serializar_respuesta_leer_archivo RESPUESTA_OK n buffer = Fail OutOfBounds).
Proof.
  intros Hn H32 Hsz. split; [by apply read_answer_message|]. intros Hs.
  unfold serializar_respuesta_leer_archivo. rewrite bytes_at_prefix by lia. cbn [res_bind].
  apply stream_of_overflow. pose proof (u16_range (szt + n)).
  assert (zlen (take (Z.to_nat n) buffer) = n) by (unfold zlen in *; rewrite length_take; lia).
  autorewrite with liga. fold szt. unfold header_lenght, szt in *. lia.
Qed.

(** The values of the attributes fit the types of every ABI. *)
Record attributes_ok (a : t_respuesta_obtener_atributos) : Prop := {
  ok_inodo : 0 <= numero_de_inodo a < 2 ^ 32;
  ok_modo : 0 <= modo a < 2 ^ 32;
  ok_links : 0 <= numero_de_hard_links a < 2 ^ 32;
  ok_size : - 2 ^ 31 <= at_size a < 2 ^ 31;
  ok_blksize : 0 <= tamano_de_bloque_por_fs a < 2 ^ 31;
  ok_blkcnt : 0 <= cantidad_de_bloques_de_512b a < 2 ^ 31
}.

Lemma pow_256_ge n : (4 <= n)%nat -> 2 ^ 32 <= 256 ^ Z.of_nat n.
Proof. intros H. change (2 ^ 32) with (256 ^ 4). apply Z.pow_le_mono_r; lia. Qed.

Lemma pow_2_ge n : (4 <= n)%nat -> 2 ^ 31 <= 2 ^ (8 * Z.of_nat n - 1).
Proof. intros H. apply Z.pow_le_mono_r; lia. Qed.

Lemma attributes_message a `{!Abi_ok} :
  attributes_ok a ->
  exists s payload, serializar_respuesta_obtener_atributos RESPUESTA_OK a = Ok s /\
    message s RESPUESTA_OK payload /\
    deserializar_respuesta_obtener_atributos payload (zlen payload) = Ok a.
Proof.
  intros [Hi Hm Hl Hs Hb Hc]. pose proof off_t_is_size_t as Hso.
  pose proof size_t_size. pose proof mode_t_size. pose proof ino_t_size. pose proof nlink_t_size.
  pose proof blksize_t_size. pose proof blkcnt_t_size.
  pose proof (pow_256_ge sizeof_ino_t ltac:(lia)). pose proof (pow_256_ge sizeof_mode_t ltac:(lia)).
  pose proof (pow_256_ge sizeof_nlink_t ltac:(lia)). pose proof (pow_2_ge sizeof_off_t ltac:(lia)).
  pose proof (pow_2_ge sizeof_blksize_t ltac:(lia)). pose proof (pow_2_ge sizeof_blkcnt_t ltac:(lia)).
  unfold serializar_respuesta_obtener_atributos.
  rewrite u16_small by lia. rewrite Hso. unfold header_lenght.
  match goal with |- context [stream_of (3 + ?n) (_ ++ ?p)] =>
    destruct (message_of RESPUESTA_OK n p) as (s & Hser & Hmes); [done|lengths|lia|] end.
  eexists s, _. split; [exact Hser|]. split; [exact Hmes|].
  unfold deserializar_respuesta_obtener_atributos. cbv zeta.
  rewrite bytes_at_head by lengths. cbn [res_bind].
  rewrite bytes_at_middle by lengths. cbn [res_bind].
  rewrite app_assoc, bytes_at_middle by lengths. cbn [res_bind].
  rewrite app_assoc, bytes_at_middle by lengths. cbn [res_bind].
  rewrite app_assoc, bytes_at_middle by lengths. cbn [res_bind].
  rewrite app_assoc, bytes_at_tail by lengths. cbn [res_bind].
  rewrite !le_value_small, !signed_value_small by (unfold smt, sot in *; lia).
  by destruct a.
Qed.

(** The attributes the server sends are the attributes the client reads, on the machines where a
    size_t and an off_t have the same size (the server writes the size of the file as the one, the
    client reads it as the other). *)
Lemma attributes_roundtrip a `{!Abi_ok} :
  attributes_ok a ->
  exists s, serializar_respuesta_obtener_atributos RESPUESTA_OK a = Ok s /\
    longitud s = zlen (data s) /\
    deserializar_respuesta_obtener_atributos (drop 3 (data s)) (zlen (drop 3 (data s))) = Ok a.
Proof.
  intros Ha. destruct (attributes_message a Ha) as (s & p & Hs & (Hl & _ & Hp) & Hd).
  exists s. by rewrite Hp.
Qed.

(** ** Directory listings *)

Lemma join_names_join names : join_names names = join hash_sign names.
Proof.
  induction names as [|n names IH]; [done|]. destruct names as [|n' names]; [done|].
  change (join_names (n :: n' :: names)) with (n ++ hash_sign :: join_names (n' :: names)).
  by rewrite IH.
Qed.

(** The bytes of the names, each with its end. *)
Definition names_size (names : list (list Z)) : Z :=
  Z.of_nat (sum_list_with (fun n => length n + 1)%nat names).

Lemma names_length_spec names : names_size names < 2 ^ 16 -> names_length names = names_size names.
Proof.
  unfold names_length. assert (forall acc, 0 <= acc -> acc + names_size names < 2 ^ 16 ->
    fold_left (fun n name => u16 (n + (zlen name + 1))) names acc = acc + names_size names) as H.
  { induction names as [|n names IH]; intros acc Ha Hs; [unfold names_size in *; simpl in *; lia|].
    unfold names_size in *. cbn [fold_left sum_list_with] in *. unfold zlen.
    rewrite u16_small by lia. rewrite IH by lia. lia. }
  intros Hs. rewrite H by lia. lia.
Qed.

Lemma zlen_join names :
  names <> [] -> zlen (join hash_sign names) + 1 = names_size names.
Proof.
  induction names as [|n names IH]; [done|]. intros _. unfold names_size in *.
  destruct names as [|n' names].
  - simpl. unfold zlen. lia.
  - change (join hash_sign (n :: n' :: names)) with (n ++ hash_sign :: join hash_sign (n' :: names)).
    autorewrite with liga. specialize (IH ltac:(done)). cbn [sum_list_with] in *.
    unfold zlen in *. lia.
Qed.

Lemma C_string_join names :
  Forall C_string names -> C_string (join hash_sign names).
Proof.
  induction 1 as [|n names Hn Hns IH]; [constructor|].
  destruct names as [|n' names]; [done|].
  change (join hash_sign (n :: n' :: names)) with (n ++ hash_sign :: join hash_sign (n' :: names)).
  apply Forall_app. split; [done|]. constructor; [unfold hash_sign; lia|done].
Qed.

Lemma listing_message names :
  names <> [] -> Forall C_string names -> Forall (token_ok hash_sign) names ->
  names_size names + zlen names < 2 ^ 16 ->
  exists s payload text, serializar_respuesta_leer_directorio RESPUESTA_OK names = Ok s /\
    message s RESPUESTA_OK payload /\
    c_string payload = Ok text /\ string_split text [hash_sign] = names.
Proof.
  intros Hne Hc Ht Hs. unfold serializar_respuesta_leer_directorio.
  assert (0 < zlen names) by (destruct names; [done|unfold zlen; simpl; lia]).
  assert (0 <= names_size names) by (unfold names_size; lia).
  rewrite names_length_spec, u32_small, u16_small, join_names_join by lia.
  set (n := names_size names + (zlen names - 1)).
  set (rest := replicate (Z.to_nat (n - zlen (join hash_sign names) - 1)) 0).
  set (payload := join hash_sign names ++ 0 :: rest).
  pose proof (zlen_join names Hne) as Hj.
  assert (zlen payload = n) as Hp.
  { unfold payload, rest. autorewrite with liga. unfold zlen at 2. rewrite length_replicate. lia. }
  destruct (message_of RESPUESTA_OK n payload) as (s & Hser & Hm); [done|done|lia|].
  exists s, payload, (join hash_sign names).
  split; [|split; [done|split; [|by apply string_split_join_eq]]].
  - destruct names as [|n0 names]; [done|]. rewrite <- Hser. unfold header_lenght, stream_of.
    rewrite !filled_pad by (autorewrite with liga; lia).
    assert (forall x y : list Z, x = y -> Ok {| longitud := 3 + n; data := x |}
      = Ok {| longitud := 3 + n; data := y |}) as Hd by by intros ? ? ->.
    apply Hd. autorewrite with liga. rewrite Hp, Z.sub_diag. cbn [replicate Z.to_nat].
    rewrite app_nil_r, <- !app_assoc. unfold payload, rest. do 2 f_equal.
    match goal with |- replicate ?k 0 = _ =>
      replace k with (S (Z.to_nat (n - zlen (join hash_sign (n0 :: names)) - 1))) by lia end.
    done.
  - by apply c_string_nul, C_string_join.
Qed.
End Answers.

(** ** Witnesses *)

Abbreviation sample_cache := (gmap (list Z) (list Z)).

Lemma requests_roundtrip_witness :
  C_string (str "/a") /\
  exists s h, @serializar_pedido abi_i386 (Leer_archivo (str "/a") 100 5) = Ok s /\
    longitud s = zlen (data s) /\ deserializar_header (take 3 (data s)) = Ok h /\
    h_longitud h = zlen (drop 3 (data s)) /\
    @generar_task sample_sb (fun _ => 0) abi_i386 sample_cache _ h (drop 3 (data s))
    = Ok (@task_of sample_sb (fun _ => 0) abi_i386 sample_cache _ (Leer_archivo (str "/a") 100 5)).
Proof.
  assert (C_string (str "/a")) as Hc by (repeat constructor).
  split; [exact Hc|].
  apply (@requests_roundtrip sample_sb (fun _ => 0) abi_i386 sample_cache _
           (Leer_archivo (str "/a") 100 5) Hc).
  - vm_compute. repeat split; congruence.
  - cbn. lia.
  - vm_compute. congruence.
Defined.

Lemma long_write_overflows_witness :
  exists s h, @serializar_pedido abi_i386 (Escribir_archivo (str "/a") (replicate (Z.to_nat 65536) 1) 0)
    = Ok s /\ deserializar_header (take 3 (data s)) = Ok h /\
  match @generar_task sample_sb (fun _ => 0) abi_i386 sample_cache _ h
          (take (Z.to_nat (h_longitud h)) (drop 3 (data s))) with
  | Ok _ => False
  | Fail e => e = OutOfBounds
  end.
Proof.
  set (b := replicate (Z.to_nat 65536) 1).
  assert (zlen b = 65536) as Hb by (unfold zlen, b; rewrite length_replicate; lia).
  assert (@payload_size abi_i386 (Escribir_archivo (str "/a") b 0) < 2 ^ 32 - 3) as Hs.
  { cbn [payload_size]. rewrite Hb. vm_compute. congruence. }
  destruct (serializar_pedido_parts _ _ Hs (serializar_pedido_spec _ Hs)) as (Eh & _).
  eexists _, _. split; [exact (serializar_pedido_spec _ Hs)|]. split; [exact Eh|].
  apply (@long_write_overflows sample_sb (fun _ => 0) abi_i386 sample_cache _ (str "/a") b 0); [..|exact Eh].
  - by rewrite Hb.
  - rewrite Hb. vm_compute. congruence.
  - exact Hs.
  - exact (serializar_pedido_spec _ Hs).
Defined.

Lemma read_answer_roundtrip_witness :
  (exists s payload, @serializar_respuesta_leer_archivo abi_i386 RESPUESTA_OK 2 [7; 8; 9] = Ok s /\
     message s RESPUESTA_OK payload /\
     @deserializar_respuesta_leer_archivo abi_i386 payload (zlen payload)
     = Ok {| rl_buffer := [7; 8]; rl_bytes_leidos := 2 |}).
Proof.
  assert (0 <= 2 <= zlen [7; 8; 9]) as H1 by (vm_compute; split; congruence).
  assert (2 < 256 ^ @szt abi_i386) as H2 by (vm_compute; congruence).
  apply (proj1 (@read_answer_roundtrip abi_i386 [7; 8; 9] 2 H1 ltac:(lia) H2)).
  vm_compute. congruence.
Defined.

Lemma attributes_roundtrip_witness :
  let a := {| numero_de_inodo := 12; modo := 33188; numero_de_hard_links := 1; at_size := 5000;
              tamano_de_bloque_por_fs := 1024; cantidad_de_bloques_de_512b := 5 |} in
  attributes_ok a /\
  exists s, @serializar_respuesta_obtener_atributos abi_i386 RESPUESTA_OK a = Ok s /\
    longitud s = zlen (data s) /\
    @deserializar_respuesta_obtener_atributos abi_i386 (drop 3 (data s)) (zlen (drop 3 (data s))) = Ok a.
Proof.
  intros a. assert (attributes_ok a) as Ha by (split; cbn; lia).
  split; [exact Ha|]. apply (@attributes_roundtrip abi_i386 a abi_i386_ok Ha).
Defined.
