(* ===== verification/Lookups.v ===== *)
(** * Lookups: the operations that only read directories

    [getattr], [open_file] and [list_directory] of [file_operations.c], alone
    and behind a message of a client: what they answer is what the path
    resolves to in the image, and they leave the table of files in use, the
    locks and the image as they found them. *)

From S2P Require Import Prelude Memory Bitarray Ext2 Ext2Facts CString Paths Rfs ActiveFiles Alloc BlockMap Dirs Walk FileOps Serial Requests SerialFacts.

Section Lookups.
Context {Super_constants : Superblock_constants} {WA : Word_after_array} {AB : Abi}.
Context {C : Type} `{Memcached C}.
Abbreviation R := (rfs C).
Implicit Types (s : R) (refs : list nat).

(** The path with the components [ns] resolves to [r]. *)
Definition path_resolves (m : mem) (ns : list (list Z)) (r : option (Z * Z)) : Prop :=
  exists root, Inode_Global_Read m ROOT_INODE_NUMBER = Some root /\
    match ns with
    | [] => r = Some (root, ROOT_INODE_NUMBER)
    | _ => resolves m root ns r
    end.

(** The states in which an operation can start: fewer than 2^32 references
    are in use. *)
Definition ready s refs (ns : list (list Z)) : Prop :=
  table_ok s refs /\ zlen refs + zlen ns + 2 < 2 ^ 32 - 1 /\ Forall name_ok ns.

Lemma lock_unlock_ok s refs id :
  table_ok s refs -> id ∈ refs ->
  exists s1 s2, RDLOCK id s = Ok (tt, s1) /\ table_moved s s1 /\
    UNLOCK id s1 = Ok (tt, s2) /\ table_ok s2 refs /\ table_moved s1 s2 /\
    (forall j, path_at s2 j = path_at s j).
Proof.
  intros Hok Hid.
  destruct (RDLOCK_held s refs [] id) as (s1 & Hr1 & Hok1 & Hst1 & Hm1); [|done|apply not_elem_of_nil|].
  { eapply table_inv_ext; [|exact Hok]. intros j. unfold held.
    by rewrite decide_False by apply not_elem_of_nil. }
  destruct (UNLOCK_held s1 refs [] id Hok1 Hid) as (s2 & Hr2 & Hok2 & Hst2 & Hm2);
    [apply not_elem_of_nil|].
  exists s1, s2. split_and!; try done. intros j. by rewrite Hst2, Hst1.
Qed.

Lemma inode_of_file_ok s refs ns r :
  table_ok s refs -> zlen refs + zlen ns + 1 < 2 ^ 32 - 1 -> Forall name_ok ns ->
  path_resolves (file s) ns r ->
  exists s', inode_of_file (abs_path ns) s = Ok (walk_result r, s') /\ table_ok s' refs /\
    (forall j, j ∈ refs -> path_at s' j = path_at s j) /\ after (walk_errno r (errno s)) s s'.
Proof.
  intros Hok Hlen Hns (root & Hroot & Hres).
  destruct ns as [|n ns].
  2: { destruct (split_path_names (n :: ns) Hns ltac:(done)) as (ps & Hsp & Hnames & Hnd).
       by apply (inode_of_file_walk s refs root _ ps (n :: ns)). }
  subst r. cbn [walk_errno walk_result].
  destruct (find_inv s refs _ [slash] Hok) as (id & s1 & Hr1 & Hok1 & Hat1 & _ & Hst1 & Hm1);
    [unfold zlen in *; simpl in *; lia|done|].
  destruct (lock_unlock_ok s1 (id :: refs) id Hok1) as (s2 & s3 & Hr2 & Hm2 & Hr3 & Hok3 & Hm3 & Hst3);
    [by left|].
  destruct (finish_inv s3 (id :: refs) refs _ id Hok3) as (s4 & Hr4 & Hok4 & _ & Hst4 & Hm4);
    [done|rewrite zlen_cons; unfold zlen in *; simpl in *; lia|done|].
  exists s4. split_and!; [|done| |].
  - unfold inode_of_file. change (split_path (abs_path [])) with (Some [[slash]]). cbv beta iota.
    rewrite (bind_ok _ _ s [id] s2).
    + rewrite (bind_ok _ _ s2 (file s2) s2) by done.
      assert (file s2 = file s) as -> by (rewrite Hm2, Hm1; done).
      rewrite Hroot. cbn [deref]. rewrite (bind_ok _ _ s2 root s2) by done.
      by rewrite (bind_ok _ _ _ _ _ Hr3), (bind_ok _ _ _ _ _ Hr4).
    + cbn [find_and_rdlock]. by rewrite (bind_ok _ _ _ _ _ Hr1), (bind_ok _ _ _ _ _ Hr2).
  - intros j Hj. rewrite Hst4 by done. rewrite Hst3. by apply Hst1.
  - apply after_moved in Hm1. do 3 (eapply after_moved_trans; [|done]). done.
Qed.

(** The walk to a directory under the name that its entries know it by. *)
Lemma inode_of_parent_ok s refs ns x r :
  table_ok s refs -> zlen refs + zlen ns + 1 < 2 ^ 32 - 1 -> Forall name_ok (ns ++ [x]) ->
  path_resolves (file s) ns r ->
  exists s', inode_of_file (parent_spelling ns) s = Ok (walk_result r, s') /\ table_ok s' refs /\
    (forall j, j ∈ refs -> path_at s' j = path_at s j) /\ after (walk_errno r (errno s)) s s'.
Proof.
  intros Hok Hlen [Hns Hx]%Forall_app Hres. apply Forall_cons in Hx as [Hx _].
  destruct ns as [|n [|n' ns]].
  - by apply (inode_of_file_ok s refs [] r).
  - by apply (inode_of_file_ok s refs [n] r).
  - destruct Hres as (root & Hroot & Hres).
    destruct (split_path_dir_names (n :: n' :: ns) x Hns Hx) as (ps & Hsp & Hnames & Hnd); [simpl; lia|].
    by apply (inode_of_file_walk s refs root _ ps (n :: n' :: ns)).
Qed.

(** find and walk: the start of every operation. *)
Lemma open_bracket s refs ns r :
  ready s refs ns -> path_resolves (file s) ns r ->
  exists id s1 s2, active_file_list_find (abs_path ns) s = Ok (id, s1) /\
    inode_of_file (abs_path ns) s1 = Ok (walk_result r, s2) /\
    table_ok s2 (id :: refs) /\ path_at s2 id = Some (abs_path ns) /\
    (forall j, j ∈ refs -> path_at s2 j = path_at s j) /\ after (walk_errno r (errno s)) s s2.
Proof.
  intros (Hok & Hlen & Hns) Hres. pose proof (zlen_nonneg ns).
  destruct (find_inv s refs _ (abs_path ns) Hok) as (id & s1 & Hr1 & Hok1 & Hat1 & _ & Hst1 & Hm1);
    [lia|done|].
  apply after_moved in Hm1. destruct (after_file _ _ _ Hm1) as [Hf1 He1].
  destruct (inode_of_file_ok s1 (id :: refs) ns r Hok1) as (s2 & Hr2 & Hok2 & Hst2 & Hm2);
    [rewrite zlen_cons; lia|done|by rewrite Hf1|]. rewrite He1 in Hm2.
  exists id, s1, s2. split_and!; try done.
  - rewrite Hst2; [done|by left].
  - intros j Hj. rewrite Hst2, Hst1; [done|done|by right].
  - by eapply after_trans.
Qed.

(** find, walk, RDLOCK, UNLOCK, finished_using: the bracket of a lookup. *)
Lemma lookup_bracket s refs ns r :
  ready s refs ns -> path_resolves (file s) ns r ->
  exists id s1 s2 s3 s4 s5, active_file_list_find (abs_path ns) s = Ok (id, s1) /\
    inode_of_file (abs_path ns) s1 = Ok (walk_result r, s2) /\
    RDLOCK id s2 = Ok (tt, s3) /\ after (walk_errno r (errno s)) s s3 /\
    UNLOCK id s3 = Ok (tt, s4) /\
    active_file_finished_using id s4 = Ok (tt, s5) /\ table_ok s5 refs /\
    (forall j, j ∈ refs -> path_at s5 j = path_at s j) /\ after (walk_errno r (errno s)) s s5.
Proof.
  intros Hready Hres. pose proof Hready as (_ & Hlen & _). pose proof (zlen_nonneg ns).
  destruct (open_bracket s refs ns r Hready Hres) as (id & s1 & s2 & Hr1 & Hr2 & Hok2 & _ & Hst2 & Hm2).
  destruct (lock_unlock_ok s2 (id :: refs) id Hok2) as (s3 & s4 & Hr3 & Hm3 & Hr4 & Hok4 & Hm4 & Hst4);
    [by left|].
  destruct (finish_inv s4 (id :: refs) refs _ id Hok4) as (s5 & Hr5 & Hok5 & _ & Hst5 & Hm5);
    [done|rewrite zlen_cons; lia|done|].
  exists id, s1, s2, s3, s4, s5. split_and!; try done.
  - by eapply after_moved_trans.
  - intros j Hj. rewrite Hst5, Hst4, Hst2; done.
  - do 3 (eapply after_moved_trans; [|done]). done.
Qed.

(** ** The operations *)

(** After an operation: the table as before, only errno is new. *)
Definition restored (e : Z) s s' refs : Prop :=
  table_ok s' refs /\ after e s s' /\ (forall j, j ∈ refs -> path_at s' j = path_at s j).

Definition stats_of (m : mem) (r : option (Z * Z)) : result_data :=
  match r with
  | Some (i, n) => Stats {| st_inode_number := n; st_mode := Inode.mode m i;
                            st_size := Inode.size m i; st_links_count := Inode.links_count m i |}
  | None => Null
  end.

Lemma getattr_ok s refs ns r params :
  ready s refs ns -> path_resolves (file s) ns r -> p_path params = abs_path ns ->
  exists s', getattr params s = Ok (result (abs_path ns) (stats_of (file s) r), s') /\
    restored (walk_errno r (errno s)) s s' refs.
Proof.
  intros Hs Hres Hp.
  destruct (lookup_bracket s refs ns r Hs Hres)
    as (id & s1 & s2 & s3 & s4 & s5 & H1 & H2 & H3 & Ha3 & H4 & H5 & Hok & Hst & Ha).
  exists s5. split; [|done]. unfold getattr. rewrite Hp.
  rewrite (bind_ok _ _ _ _ _ H1), (bind_ok _ _ _ _ _ H2).
  destruct (after_file _ _ _ Ha3) as [Hf3 _].
  destruct r as [[i n]|]; cbn [walk_result fst].
  - rewrite (bind_ok _ _ _ _ _ H3). rewrite (bind_ok _ _ s3 (file s3) s3) by done.
    cbv zeta. rewrite (bind_ok _ _ _ _ _ H4), (bind_ok _ _ _ _ _ H5).
    rewrite Hf3. done.
  - rewrite (bind_ok _ _ _ _ _ H3). rewrite (bind_ok _ _ s3 (file s3) s3) by done.
    cbv zeta. rewrite (bind_ok _ _ _ _ _ H4), (bind_ok _ _ _ _ _ H5). done.
Qed.

(** [list_directory] on a directory, on another file and on nothing. *)
Lemma list_directory_ok s refs ns r params entries :
  ready s refs ns -> path_resolves (file s) ns r -> p_path params = abs_path ns ->
  match r with
  | Some (i, _) => has_mode (Inode.mode (file s) i) EXT2_IFDIR = true /\ directory (file s) i entries
  | None => True
  end ->
  exists s', list_directory params s
    = Ok (result (abs_path ns) (match r with Some _ => Entries entries | None => Null end), s') /\
    restored (walk_errno r (errno s)) s s' refs.
Proof.
  intros Hs Hres Hp Hdir.
  destruct (lookup_bracket s refs ns r Hs Hres)
    as (id & s1 & s2 & s3 & s4 & s5 & H1 & H2 & H3 & Ha3 & H4 & H5 & Hok & Hst & Ha).
  exists s5. split; [|done]. unfold list_directory. rewrite Hp.
  rewrite (bind_ok _ _ _ _ _ H1), (bind_ok _ _ _ _ _ H2), (bind_ok _ _ _ _ _ H3).
  rewrite (bind_ok _ _ s3 (file s3) s3) by done.
  destruct (after_file _ _ _ Ha3) as [Hf3 _]. rewrite Hf3.
  rewrite (bind_ok _ _ s3 (match r with Some _ => Entries entries | None => Null end) s3).
  - by rewrite (bind_ok _ _ _ _ _ H4), (bind_ok _ _ _ _ _ H5).
  - destruct r as [[i n]|]; [|done]. cbn [walk_result fst]. destruct Hdir as [-> Hd].
    rewrite (bind_ok _ _ s3 (Some entries) s3); [done|]. apply read_directory_ok. by rewrite Hf3.
Qed.

Lemma open_file_ok s refs ns r params :
  ready s refs ns -> path_resolves (file s) ns r -> p_path params = abs_path ns ->
  exists s', open_file params s
    = Ok (result (abs_path ns) (Status (match r with Some _ => 0 | None => 1 end)), s') /\
    restored (walk_errno r (errno s)) s s' refs.
Proof.
  intros (Hok & Hlen & Hns) Hres Hp. pose proof (zlen_nonneg ns).
  destruct (find_inv s refs _ (abs_path ns) Hok) as (id & s1 & Hr1 & Hok1 & Hat1 & _ & Hst1 & Hm1);
    [lia|done|].
  apply after_moved in Hm1. destruct (after_file _ _ _ Hm1) as [Hf1 He1].
  destruct (inode_of_file_ok s1 (id :: refs) ns r Hok1) as (s2 & Hr2 & Hok2 & Hst2 & Hm2);
    [rewrite zlen_cons; lia|done|by rewrite Hf1|]. rewrite He1 in Hm2.
  destruct (finish_inv s2 (id :: refs) refs _ id Hok2) as (s3 & Hr3 & Hok3 & _ & Hst3 & Hm3);
    [done|rewrite zlen_cons; lia|done|].
  exists s3. split.
  - unfold open_file. rewrite Hp, (bind_ok _ _ _ _ _ Hr1), (bind_ok _ _ _ _ _ Hr2).
    cbv zeta. rewrite (bind_ok _ _ _ _ _ Hr3). by destruct r as [[]|].
  - split_and!; [done| |].
    + eapply after_moved_trans; [|done]. by eapply after_trans.
    + intros j Hj. rewrite Hst3, Hst2, Hst1; [done|done|by right|done].
Qed.

(** ** The answers *)

Lemma with_data_file_ok s refs (res : operation_result_t) body ans :
  table_ok s refs -> zlen refs < 2 ^ 32 - 2 ->
  (forall s1, after (errno s) s s1 -> body s1 = Ok (ans, s1)) ->
  exists s', with_data_file res body s = Ok (ans, s') /\ restored (errno s) s s' refs.
Proof.
  intros Hok Hlen Hbody.
  destruct (find_inv s refs _ (r_path res) Hok) as (id & s1 & Hr1 & Hok1 & Hat1 & _ & Hst1 & Hm1);
    [lia|done|].
  destruct (lock_unlock_ok s1 (id :: refs) id Hok1) as (s2 & s3 & Hr2 & Hm2 & Hr3 & Hok3 & Hm3 & Hst3);
    [by left|].
  destruct (finish_inv s3 (id :: refs) refs _ id Hok3) as (s4 & Hr4 & Hok4 & _ & Hst4 & Hm4);
    [done|rewrite zlen_cons; lia|done|].
  apply after_moved in Hm1.
  assert (after (errno s) s s2) as Ha2 by by eapply after_moved_trans.
  exists s4. split; [|split_and!].
  - unfold with_data_file. rewrite (bind_ok _ _ _ _ _ Hr1), (bind_ok _ _ _ _ _ Hr2).
    rewrite (bind_ok _ _ _ _ _ (Hbody s2 Ha2)).
    by rewrite (bind_ok _ _ _ _ _ Hr3), (bind_ok _ _ _ _ _ Hr4).
  - done.
  - do 2 (eapply after_moved_trans; [|done]). done.
  - intros j Hj. rewrite Hst4, Hst3, Hst1; done.
Qed.

(** The state an operation is answered in. *)
Lemma restored_ready e s s' refs ns :
  ready s refs ns -> restored e s s' refs ->
  table_ok (with_errno 0 s') refs /\ zlen refs < 2 ^ 32 - 2 /\ file (with_errno 0 s') = file s.
Proof.
  intros (_ & Hlen & _) (Hok & Ha & _). pose proof (zlen_nonneg ns).
  split_and!; [by apply table_inv_errno|lia|].
  destruct (after_file _ _ _ Ha) as [Hf _]. exact Hf.
Qed.

Lemma restored_trans e s s' s'' refs :
  restored e s s' refs -> restored 0 (with_errno 0 s') s'' refs -> restored 0 s s'' refs.
Proof.
  intros (_ & Ha & Hst) (Hok & Ha' & Hst'). split_and!; [done| |].
  - eapply after_trans; [exact Ha|]. unfold after in *. by rewrite Ha' at 1.
  - intros j Hj. rewrite Hst' by done. by apply Hst.
Qed.

(** A request that the server reads runs its task. *)
Lemma atender_task p req s :
  C_string (pedido_path p) -> pedido_numbers p -> (0 < sizeof_off_t)%nat ->
  payload_size p < 2 ^ 16 -> serializar_pedido p = Ok req ->
  atender (data req) s = worker (task_of p) s.
Proof.
  intros Hc Hn Ho Hs Hreq. pose proof (zlen_nonneg (payload_bytes p)) as H0.
  rewrite zlen_payload_bytes in H0.
  apply serializar_pedido_parts in Hreq as (Eh & Ed & _); [|lia].
  unfold atender. rewrite Eh, Ed.
  rewrite (bind_ok _ _ s {| tipo := pedido_tipo p; h_longitud := u16 (payload_size p) |} s) by done.
  cbn [h_longitud]. rewrite u16_small, zlen_payload_bytes by lia.
  rewrite (proj2 (Z.leb_le _ _)) by lia.
  assert (take (Z.to_nat (payload_size p)) (payload_bytes p) = payload_bytes p) as ->.
  { apply take_ge. pose proof (zlen_payload_bytes p). unfold zlen in *. lia. }
  rewrite generar_task_payload by done. by rewrite (bind_ok _ _ s (task_of p) s).
Qed.

(** A worker's turn, when the path is short enough. *)
Lemma worker_run (t : task_t) s r s1 :
  strlen (p_path (params t)) <= 40 -> run t (params t) s = Ok (r, s1) ->
  worker t s = deliver_response t
    {| r_path := r_path r; r_data := r_data r; r_read_bytes := r_read_bytes r; r_error := errno s1 |}
    (with_errno 0 s1).
Proof.
  intros Hp Hr. unfold worker. rewrite (proj2 (Z.leb_le _ _)) by done.
  rewrite (bind_ok _ _ _ _ _ Hr). rewrite (bind_ok _ _ s1 (errno s1) s1) by done.
  by rewrite (bind_ok _ _ s1 tt (with_errno 0 s1)).
Qed.

Lemma finalizacion_message t :
  - 2 ^ 7 <= t < 2 ^ 7 ->
  exists a, message a t [] /\ forall s, finalizacion (C := C) t s = Ok (Some a, s).
Proof.
  intros Ht. destruct (message_of t 0 [] Ht) as (a & Ha & Hm); [done|done|].
  exists a. split; [done|]. intros s. unfold finalizacion, serializar_respuesta_finalizacion.
  rewrite app_nil_r in Ha. change header_lenght with (3 + 0). by rewrite Ha.
Qed.

(** ** Behind a message *)

(** A client asks for the path [abs_path ns]: the server is between two
    operations, and the path is one the server accepts. *)
Definition asked s refs (ns : list (list Z)) : Prop :=
  ready s refs ns /\ C_string (abs_path ns) /\ strlen (abs_path ns) <= 40.

Lemma path_resolves_number m ns r :
  mem_ok m -> path_resolves m ns r ->
  match r with Some (_, n) => 0 <= n < 2 ^ 32 | None => True end.
Proof.
  intros Hm (root & Hroot & Hres). destruct ns as [|n ns]; [subst r; unfold ROOT_INODE_NUMBER; lia|].
  clear Hroot. induction Hres; [done| |done]. by apply load32_range.
Qed.

(** A request for a path alone, answered by its task. *)
Lemma named_request p req s r s1 refs ns :
  pedido_path p = abs_path ns -> payload_size p = zlen (abs_path ns) + 1 -> pedido_numbers p ->
  p_path (params (task_of (C := C) p)) = abs_path ns ->
  asked s refs ns -> (0 < sizeof_off_t)%nat ->
  serializar_pedido p = Ok req -> run (task_of p) (params (task_of p)) s = Ok (r, s1) ->
  atender (data req) s = deliver_response (task_of p)
    {| r_path := r_path r; r_data := r_data r; r_read_bytes := r_read_bytes r; r_error := errno s1 |}
    (with_errno 0 s1).
Proof.
  intros Hp Hsz Hn Hpp (_ & Hc & Hl) Ho Hreq Hrun. unfold strlen in *.
  rewrite (atender_task p req s); [|by rewrite Hp|done|done|lia|done].
  apply worker_run; [by rewrite Hpp|done].
Qed.

(** The serializers never refuse a path of the server's length. *)
Lemma named_request_exists p s refs ns :
  payload_size p = zlen (abs_path ns) + 1 -> asked s refs ns ->
  exists req, serializar_pedido p = Ok req.
Proof.
  intros Hsz (_ & _ & Hl). unfold strlen in *. eexists. apply serializar_pedido_spec. lia.
Qed.

(** End to end, getattr: for every path the server accepts, the message of
    [obtener_atributos] is answered with a message from which the client reads the attributes of
    the inode the path resolves to in the image, or with -ENOENT when it resolves to nothing; the
    table of files in use, its locks and the image are as before. *)
Lemma stat_served `{!Superblock_ok} `{!Abi_ok} s refs ns r :
  asked s refs ns -> mem_ok (file s) -> path_resolves (file s) ns r ->
  exists req ans s', serializar_pedido (Obtener_atributos (abs_path ns)) = Ok req /\
    atender (data req) s = Ok (Some ans, s') /\ restored 0 s s' refs /\
    match r with
    | None => message ans (- ENOENT) []
    | Some (i, n) => exists payload, message ans RESPUESTA_OK payload /\
        deserializar_respuesta_obtener_atributos payload (zlen payload)
        = Ok {| numero_de_inodo := n; modo := Inode.mode (file s) i;
                numero_de_hard_links := Inode.links_count (file s) i;
                at_size := Inode.size (file s) i; tamano_de_bloque_por_fs := BLOCK_SIZE;
                cantidad_de_bloques_de_512b := Size_In_Blocks (Inode.size (file s) i) |}
    end.
Proof.
  intros Hask Hm Hres. pose proof Hask as (Hs & _ & _).
  pose proof off_t_is_size_t. pose proof size_t_size.
  destruct (named_request_exists (Obtener_atributos (abs_path ns)) s refs ns eq_refl Hask) as (req & Hreq).
  destruct (getattr_ok s refs ns r (with_path (abs_path ns)) Hs Hres eq_refl) as (s1 & Hrun & Hrest).
  destruct (restored_ready _ _ _ _ _ Hs Hrest) as (Hok1 & Hlen1 & Hf1).
  pose proof (named_request (Obtener_atributos (abs_path ns)) req s _ s1 refs ns eq_refl eq_refl I eq_refl
    Hask ltac:(lia) Hreq Hrun) as Hat.
  exists req. cbn [task_of deliver_response r_path r_data r_read_bytes result] in Hat.
  assert (errno s1 = walk_errno r (errno s)) as He by (destruct Hrest as (_ & Ha & _); by destruct (after_file _ _ _ Ha)).
  set (a := fun i n => {| numero_de_inodo := n; modo := Inode.mode (file s) i;
                numero_de_hard_links := Inode.links_count (file s) i;
                at_size := Inode.size (file s) i; tamano_de_bloque_por_fs := BLOCK_SIZE;
                cantidad_de_bloques_de_512b := Size_In_Blocks (Inode.size (file s) i) |}).
  destruct r as [[i n]|]; cbn [stats_of walk_errno] in *.
  - assert (attributes_ok (a i n)) as Ha.
    { pose proof (path_resolves_number _ _ _ Hm Hres) as Hn. cbv beta iota in Hn.
      pose proof (load16_range (file s) i Hm). pose proof (load16_range (file s) (i + 26) Hm).
      split; cbn [a numero_de_inodo modo numero_de_hard_links at_size tamano_de_bloque_por_fs
                  cantidad_de_bloques_de_512b]; unfold Inode.mode, Inode.links_count; try lia.
      - apply s32_range.
      - destruct block_size_cases as [-> | [-> | ->]]; lia.
      - pose proof (Size_In_Blocks_bounds _ (u32_range (Inode.size (file s) i))) as Hb.
        unfold Size_In_Blocks in Hb. rewrite u32_idem in Hb. unfold Size_In_Blocks. lia. }
    destruct (attributes_message (a i n) Ha) as (ans & payload & Hser & Hmes & Hdes).
    destruct (with_data_file_ok (with_errno 0 s1) refs
      {| r_path := abs_path ns; r_data := stats_of (file s) (Some (i, n)); r_read_bytes := 0;
         r_error := errno s1 |}
      (s ← lift (serializar_respuesta_obtener_atributos RESPUESTA_OK (a i n)); mret (Some s)) (Some ans))
      as (s2 & Hrun2 & Hrest2); [done|lia| |].
    { intros sx _. rewrite Hser. done. }
    exists ans, s2. split; [done|]. split; [by rewrite Hat|]. split; [by eapply restored_trans|].
    by exists payload.
  - destruct (finalizacion_message (- ENOENT) ltac:(unfold ENOENT; lia)) as (ans & Hmes & Hfin).
    destruct (with_data_file_ok (with_errno 0 s1) refs
      {| r_path := abs_path ns; r_data := Null; r_read_bytes := 0; r_error := errno s1 |}
      (error_answer {| r_path := abs_path ns; r_data := Null; r_read_bytes := 0; r_error := errno s1 |} ENOENT)
      (Some ans)) as (s2 & Hrun2 & Hrest2); [done|lia| |].
    { intros sx _. unfold error_answer. cbn [r_error]. rewrite He. apply Hfin. }
    exists ans, s2. split; [done|]. split; [by rewrite Hat|]. split; [by eapply restored_trans|]. done.
Qed.

(** End to end, open: the message of [abrir_archivo] is answered OK when the path resolves to an
    inode of the image and -ENOENT when it does not, with everything as before. *)
Lemma open_served `{!Abi_ok} s refs ns r :
  asked s refs ns -> errno s = 0 -> path_resolves (file s) ns r ->
  exists req ans s', serializar_pedido (Abrir_archivo (abs_path ns)) = Ok req /\
    atender (data req) s = Ok (Some ans, s') /\ restored 0 s s' refs /\
    message ans (match r with Some _ => RESPUESTA_OK | None => - ENOENT end) [].
Proof.
  intros Hask He0 Hres. pose proof Hask as (Hs & _ & _).
  pose proof off_t_is_size_t. pose proof size_t_size.
  destruct (named_request_exists (Abrir_archivo (abs_path ns)) s refs ns eq_refl Hask) as (req & Hreq).
  destruct (open_file_ok s refs ns r (with_path (abs_path ns)) Hs Hres eq_refl) as (s1 & Hrun & Hrest).
  destruct (restored_ready _ _ _ _ _ Hs Hrest) as (Hok1 & Hlen1 & Hf1).
  pose proof (named_request (Abrir_archivo (abs_path ns)) req s _ s1 refs ns eq_refl eq_refl I eq_refl
    Hask ltac:(lia) Hreq Hrun) as Hat.
  assert (errno s1 = walk_errno r 0) as He.
  { destruct Hrest as (_ & Ha & _). destruct (after_file _ _ _ Ha) as [_ ->]. by rewrite He0. }
  destruct (finalizacion_message (match r with Some _ => RESPUESTA_OK | None => - ENOENT end))
    as (ans & Hmes & Hfin); [destruct r; unfold RESPUESTA_OK, ENOENT; lia|].
  cbn [task_of deliver_response r_path r_data r_read_bytes result] in Hat.
  match type of Hat with _ = abrir_archivo_response ?res _ =>
    destruct (with_data_file_ok (with_errno 0 s1) refs res
      (finalizacion (match r with Some _ => RESPUESTA_OK | None => - ENOENT end)) (Some ans))
      as (s2 & Hrun2 & Hrest2); [done|lia|intros sx _; apply Hfin|] end.
  exists req, ans, s2. split; [done|]. split; [|split; [by eapply restored_trans|done]].
  rewrite Hat. unfold abrir_archivo_response. cbn [r_error]. rewrite He. by destruct r.
Qed.

(** End to end, readdir: for a directory whose entries have the names [names] (not empty, without
    '#', fitting a message), the client splits the answer to the message of [leer_directorio] into
    exactly these names, with everything as before. *)
Lemma listing_served `{!Abi_ok} s refs ns i n entries names :
  asked s refs ns -> path_resolves (file s) ns (Some (i, n)) ->
  has_mode (Inode.mode (file s) i) EXT2_IFDIR = true -> directory (file s) i entries ->
  names = entry_name (file s) <$> entries ->
  names <> [] -> Forall C_string names -> Forall (token_ok hash_sign) names ->
  names_size names + zlen names < 2 ^ 16 ->
  exists req ans payload text s', serializar_pedido (Leer_directorio (abs_path ns)) = Ok req /\
    atender (data req) s = Ok (Some ans, s') /\ restored 0 s s' refs /\
    message ans RESPUESTA_OK payload /\ c_string payload = Ok text /\
    string_split text [hash_sign] = names.
Proof.
  intros Hask Hres Hmode Hdir Hnames Hne Hc Ht Hsz. pose proof Hask as (Hs & _ & _).
  pose proof off_t_is_size_t. pose proof size_t_size.
  destruct (named_request_exists (Leer_directorio (abs_path ns)) s refs ns eq_refl Hask) as (req & Hreq).
  destruct (list_directory_ok s refs ns (Some (i, n)) (with_path (abs_path ns)) entries Hs Hres eq_refl
              (conj Hmode Hdir)) as (s1 & Hrun & Hrest).
  destruct (restored_ready _ _ _ _ _ Hs Hrest) as (Hok1 & Hlen1 & Hf1).
  pose proof (named_request (Leer_directorio (abs_path ns)) req s _ s1 refs ns eq_refl eq_refl I eq_refl
    Hask ltac:(lia) Hreq Hrun) as Hat.
  destruct (listing_message names Hne Hc Ht Hsz) as (ans & payload & text & Hser & Hmes & Htext & Hsplit).
  cbn [task_of deliver_response r_path r_data r_read_bytes result] in Hat.
  match type of Hat with _ = listar_directorio_response ?res _ =>
    destruct (with_data_file_ok (with_errno 0 s1) refs res
      (m ← get_file;
       s ← lift (serializar_respuesta_leer_directorio RESPUESTA_OK (entry_name m <$> entries));
       mret (Some s)) (Some ans))
      as (s2 & Hrun2 & Hrest2); [done|lia| |] end.
  { intros sx Hx. rewrite (bind_ok _ _ sx (file sx) sx) by done.
    destruct (after_file _ _ _ Hx) as [-> _]. by rewrite Hf1, <- Hnames, Hser. }
  exists req, ans, payload, text, s2.
  split; [done|]. split; [by rewrite Hat|]. split; [by eapply restored_trans|done].
Qed.

Lemma listing_missing `{!Abi_ok} s refs ns :
  asked s refs ns -> path_resolves (file s) ns None ->
  exists req ans s', serializar_pedido (Leer_directorio (abs_path ns)) = Ok req /\
    atender (data req) s = Ok (Some ans, s') /\ restored 0 s s' refs /\ message ans (- ENOENT) [].
Proof.
  intros Hask Hres. pose proof Hask as (Hs & _ & _). pose proof off_t_is_size_t. pose proof size_t_size.
  destruct (named_request_exists (Leer_directorio (abs_path ns)) s refs ns eq_refl Hask) as (req & Hreq).
  destruct (list_directory_ok s refs ns None (with_path (abs_path ns)) [] Hs Hres eq_refl I) as (s1 & Hrun & Hrest).
  destruct (restored_ready _ _ _ _ _ Hs Hrest) as (Hok1 & Hlen1 & Hf1).
  pose proof (named_request (Leer_directorio (abs_path ns)) req s _ s1 refs ns eq_refl eq_refl I eq_refl
    Hask ltac:(lia) Hreq Hrun) as Hat.
  destruct (finalizacion_message (- ENOENT)) as (ans & Hmes & Hfin); [unfold ENOENT; lia|].
  assert (errno s1 = ENOENT) as He by (destruct Hrest as (_ & Ha & _); by destruct (after_file _ _ _ Ha)).
  cbn [task_of deliver_response r_path r_data r_read_bytes result] in Hat.
  match type of Hat with _ = listar_directorio_response ?res _ =>
    destruct (with_data_file_ok (with_errno 0 s1) refs res (error_answer res ENOENT) (Some ans))
      as (s2 & Hrun2 & Hrest2); [done|lia| |] end.
  { intros sx _. unfold error_answer. cbn [r_error]. rewrite He. apply Hfin. }
  exists req, ans, s2. split; [done|]. split; [by rewrite Hat|]. split; [by eapply restored_trans|done].
Qed.

(** A path of more than 40 characters is refused with -ENAMETOOLONG, before the operation runs and
    with everything as before; but to a read nothing is sent, and the client waits for ever. *)
Lemma long_paths_answered `{!Abi_ok} p s refs :
  table_ok s refs -> zlen refs < 2 ^ 32 - 2 -> 40 < strlen (pedido_path p) ->
  exists s', restored 0 s s' refs /\
    match p with
    | Leer_archivo _ _ _ => worker (task_of p) s = Ok (None, s')
    | _ => exists ans, message ans (- ENAMETOOLONG) [] /\ worker (task_of p) s = Ok (Some ans, s')
    end.
Proof.
  intros Hok Hlen Hp. pose proof size_t_size.
  destruct (finalizacion_message (- ENAMETOOLONG)) as (ans & Hmes & Hfin); [unfold ENAMETOOLONG; lia|].
  set (res := {| r_path := pedido_path p; r_data := Null; r_read_bytes := 0; r_error := ENAMETOOLONG |}).
  assert (worker (task_of (C := C) p) s = deliver_response (task_of p) res (with_errno 0 s)) as Hw.
  { unfold worker. replace (p_path (params (task_of p))) with (pedido_path p) by by destruct p.
    rewrite (proj2 (Z.leb_gt _ _)) by done. done. }
  assert (Hrest : forall s', restored (errno (with_errno 0 s)) (with_errno 0 s) s' refs ->
                             restored 0 s s' refs).
  { intros s' (Ht & Ha & Hst). split_and!; [done| |done]. unfold after in *. by rewrite Ha at 1. }
  destruct p as [| | |path size offset| | | | | |] eqn:Ep.
  4: { destruct (with_data_file_ok (with_errno 0 s) refs res
         (lift (serializar_respuesta_leer_archivo (- ENAMETOOLONG) 0 []);; mret None) None)
         as (s' & Hr & Hre); [by apply table_inv_errno|done| |exists s'; split; [by apply Hrest|by rewrite Hw]].
       intros sx _. unfold serializar_respuesta_leer_archivo.
       rewrite bytes_at_all by done. cbn [res_bind].
       destruct (message_of (- ENAMETOOLONG) (szt + 0) (le_bytes sizeof_size_t 0 ++ [])) as (a & Ha & _);
         [unfold ENAMETOOLONG; lia|lengths|unfold szt; lia|].
       rewrite u16_small by (unfold szt; lia). change header_lenght with 3. by rewrite Ha. }
  all: destruct (with_data_file_ok (with_errno 0 s) refs res (finalizacion (- ENAMETOOLONG)) (Some ans))
         as (s' & Hr & Hre); [by apply table_inv_errno|done|intros; apply Hfin|];
       exists s'; (split; [by apply Hrest|]); exists ans; (split; [done|]); by rewrite Hw.
Qed.
End Lookups.

(** ** Witnesses: a root directory with one file

    The inode table of the only group starts at block 5; the root directory
    has block 6 with ".", ".." and "a", the file "a" has the inode 3. *)

Definition demo_sb : Superblock_constants := {|
  TOTAL_NUMBER_INODES_FS := 8; TOTAL_NUMBER_BLOCKS_FS := 16;
  BLOCKS_PER_GROUP := 16; INODES_PER_GROUP := 8; BLOCK_SIZE := 1024;
  TOTAL_GROUPS := 1; GDT_START := 2048 |}.

Definition demo_entry (n len : Z) (name : list Z) : entry_t :=
  {| inode_number := n; entry_len := len; name_len := zlen name; file_type := 0; file_name := name |}.

Definition demo_image : mem :=
  let m : mem := fun _ => 0 in
  let m := store32 (store32 (store32 m 2048 3) 2052 4) 2056 5 in
  let m := store32 (store32 (store16 m 5248 16877) 5252 1024) 5288 6 in
  let m := store32 (store16 (store32 (store16 m 5376 33188) 5380 5) 5402 1) 5416 7 in
  let m := memcpy_bytes m 7168 (str "hola!") in
  let m := copy_entry m 6144 (demo_entry 2 12 (str ".")) in
  let m := copy_entry m 6156 (demo_entry 2 12 (str "..")) in
  copy_entry m 6168 (demo_entry 3 1000 (str "a")).

Definition demo_server : rfs sample_cache :=
  {| file := demo_image; errno := 0; active_file_list := []; next_id := 0;
     fs_sleep := 0; writes_to_sync := 0; memc := ∅ |}.

Lemma demo_sb_ok : @Superblock_ok demo_sb.
Proof. split; cbn; [by left|lia|lia]. Defined.

Lemma demo_image_ok : mem_ok demo_image.
Proof.
  assert (forall m a e, mem_ok m -> bytes (file_name e) -> mem_ok (copy_entry m a e)) as Hc.
  { intros m a e Hm He. unfold copy_entry. apply memcpy_bytes_mem_ok.
    - by repeat (apply store_byte_mem_ok || apply store_mem_ok).
    - by apply Forall_take. }
  unfold demo_image.
  repeat (apply Hc || apply store_mem_ok || apply memcpy_bytes_mem_ok); first [intros a; lia | refine (bool_decide_unpack _ _); vm_compute; exact I].
Defined.

Lemma demo_table : table_ok demo_server [].
Proof. split; simpl; constructor. Defined.

Lemma demo_directory : @directory demo_sb demo_image 5248 [6144; 6156; 6168].
Proof. exists [6; 0]. split; vm_compute; reflexivity. Defined.

Lemma demo_resolves : @path_resolves demo_sb demo_image [str "a"] (Some (5376, 3)).
Proof.
  exists 5248. split; [vm_compute; reflexivity|].
  apply (@resolves_last demo_sb demo_image 5248 [6144; 6156; 6168] (str "a") 6168 5376).
  - exact demo_directory.
  - vm_compute. reflexivity.
  - vm_compute. reflexivity.
  - vm_compute. reflexivity.
Defined.

Lemma demo_asked ns :
  Forall name_ok ns -> C_string (abs_path ns) -> strlen (abs_path ns) <= 40 -> zlen ns <= 40 ->
  asked demo_server [] ns.
Proof.
  intros Hn Hc Hl Hz. split_and!; [split_and!|done|done].
  - exact demo_table.
  - unfold zlen in *. simpl. lia.
  - done.
Defined.

Ltac demo_path :=
  apply demo_asked;
    [refine (bool_decide_unpack _ _); vm_compute; exact I
    |refine (bool_decide_unpack _ _); vm_compute; exact I
    |vm_compute; congruence|vm_compute; congruence].

Lemma demo_asked_a : asked demo_server [] [str "a"].
Proof. demo_path. Defined.

Lemma demo_asked_root : asked demo_server [] [].
Proof. demo_path. Defined.

#[local] Instance demo_word_after : Word_after_array := fun _ => 0.
#[local] Instance demo_superblock : Superblock_constants := demo_sb.
#[local] Instance demo_abi : Abi := abi_i386.

Lemma long_paths_answered_witness :
  let path := slash :: replicate 40 97 in
  exists s', worker (task_of (Leer_archivo path 10 0)) demo_server = Ok (None, s').
Proof.
  intros path.
  destruct (@long_paths_answered demo_sb _ abi_i386 sample_cache _ abi_i386_ok (Leer_archivo path 10 0)
              demo_server [] demo_table ltac:(vm_compute; reflexivity) ltac:(vm_compute; reflexivity))
    as (s' & _ & H).
  exists s'. exact H.
Defined.
