(* ===== verification/Tree.v ===== *)
(** * Tree: the file system as a tree of nodes

    An abstract view of the image: a finite map from inode numbers to files
    and directories.  [holds m fs] says that the image [m] holds the tree
    [fs], with the allocator of inodes, the tables of inodes and the blocks
    of the directories where none disturbs another.  In such an image the
    walk of the server ([path_resolves]) is the walk of the tree. *)

From S2P Require Import Prelude Memory Bitarray Ext2 Ext2Facts CString Paths Rfs ActiveFiles Alloc AllocFacts InodeAlloc BlockMap Dirs DirFacts Walk FileOps Serial Requests SerialFacts Lookups.

(** ** The tree *)

Record istat := { i_mode : Z; i_links : Z; i_size : Z }.

(** The blocks of a directory have their numbers and entries; [indirect] are
    the blocks that hold only pointers.  A link or a device is [Other], with
    the blocks it owns. *)
Inductive node :=
  | Dir (st : istat) (blocks : list (Z * list dentry)) (indirect : list Z)
  | File (st : istat) (blocks : list Z) (indirect : list Z)
  | Other (st : istat) (blocks : list Z).

Definition node_stat (nd : node) : istat :=
  match nd with Dir st _ _ | File st _ _ | Other st _ => st end.
Definition node_blocks (nd : node) : list Z :=
  match nd with Dir _ bs ind => bs.*1 ++ ind | File _ bl ind => bl ++ ind | Other _ bl => bl end.
Definition entries_of (bs : list (Z * list dentry)) : list dentry := mjoin (bs.*2).

(** The inode of the first entry in use with the name. *)
Fixpoint dir_find (name : list Z) (l : list dentry) : option Z :=
  match l with
  | [] => None
  | d :: l =>
      if negb (de_inode d =? 0) && bool_decide (de_name d = name) then Some (de_inode d)
      else dir_find name l
  end.

(** Where the names lead from the node [n]: to a node, to nothing ([Some
    None]), or through something that is not a directory ([None]), which the
    program reads as if it were one. *)
Fixpoint tree_walk (fs : gmap Z node) (n : Z) (ns : list (list Z)) : option (option Z) :=
  match ns with
  | [] => Some (Some n)
  | name :: ns =>
      match fs !! n with
      | Some (Dir _ bs _) =>
          match dir_find name (entries_of bs) with
          | Some k => tree_walk fs k ns
          | None => Some None
          end
      | _ => None
      end
  end.

(** Every entry names a node, and no two nodes share a block. *)
Record tree_ok (fs : gmap Z node) : Prop := {
  to_root : exists st bs ind, fs !! ROOT_INODE_NUMBER = Some (Dir st bs ind);
  to_closed : forall n st bs ind e, fs !! n = Some (Dir st bs ind) ->
    e ∈ entries_of bs -> de_inode e <> 0 -> is_Some (fs !! de_inode e);
  to_nodup : forall n nd, fs !! n = Some nd -> NoDup (node_blocks nd);
  to_apart : forall n n' nd nd' b, fs !! n = Some nd -> fs !! n' = Some nd' -> n <> n' ->
    b ∈ node_blocks nd -> b ∉ node_blocks nd'
}.

Lemma dir_find_app name l1 l2 :
  dir_find name (l1 ++ l2) = match dir_find name l1 with Some k => Some k | None => dir_find name l2 end.
Proof. induction l1 as [|d l1 IH]; [done|]. simpl. by destruct (_ && _). Qed.

Lemma dir_find_elem name l k : dir_find name l = Some k -> k <> 0 /\ exists d, d ∈ l /\ de_inode d = k /\ de_name d = name.
Proof.
  induction l as [|d l IH]; [done|]. simpl. destruct (Z.eqb_spec (de_inode d) 0) as [Hz|Hz]; cbn [negb andb].
  - intros [Hk (d' & Hd & H)]%IH. split; [done|]. exists d'. split; [by right|done].
  - case_bool_decide as Hn.
    + intros [= <-]. split; [done|]. exists d. split; [by left|done].
    + intros [Hk (d' & Hd & H)]%IH. split; [done|]. exists d'. split; [by right|done].
Qed.

(** ** The image that holds it *)

Section Tree.
Context {Super_constants : Superblock_constants} {SO : Superblock_ok}.
Abbreviation gd := group_descriptor.
Implicit Types (m : mem) (n i b : Z) (fs : gmap Z node) (bs : list (Z * list dentry)).

Definition inode_table m g : Z := u32 (START_INODE_TABLE m (gd g) * BLOCK_SIZE).
Definition table_size : Z := sizeof_inode * INODES_PER_GROUP.

(** The inode tables lie behind the descriptors, apart from the bitmaps and
    from each other. *)
Record tables_ok m : Prop := {
  ta_low : forall g, in_groups g -> GDT_END <= inode_table m g;
  ta_bb : forall g g', in_groups g -> in_groups g' -> apart (inode_table m g) table_size (block_bitmap m g') BLOCK_SIZE;
  ta_ib : forall g g', in_groups g -> in_groups g' -> apart (inode_table m g) table_size (inode_bitmap m g') BLOCK_SIZE;
  ta_apart : forall g g', in_groups g -> in_groups g' -> g <> g' ->
    apart (inode_table m g) table_size (inode_table m g') table_size
}.

(** The bytes that are not data: superblock and descriptors, bitmaps, tables. *)
Definition system m (x : Z) : Prop :=
  x < GDT_END \/
  (exists g, in_groups g /\ block_bitmap m g <= x < block_bitmap m g + BLOCK_SIZE) \/
  (exists g, in_groups g /\ inode_bitmap m g <= x < inode_bitmap m g + BLOCK_SIZE) \/
  (exists g, in_groups g /\ inode_table m g <= x < inode_table m g + table_size).

Definition in_inode i (x : Z) : Prop := i <= x < i + sizeof_inode.

(** A block of data that is in use. *)
Record taken_block m b : Prop := {
  tb_number : 1 <= b <= TOTAL_GROUPS * BLOCKS_PER_GROUP /\ (b + 1) * BLOCK_SIZE <= 2 ^ 32;
  tb_data : forall x, in_block b x -> ~ system m x;
  tb_used : b ∉ free_blocks m
}.

(** The pointers of the inode, and of the blocks [indirect], give [bl]. *)
Definition pointers_at m i (bl indirect : list Z) : Prop :=
  forall m', (forall x, in_inode i x \/ (exists b, b ∈ indirect /\ in_block b x) -> m' x = m x) ->
  forall k b, bl !! k = Some b -> block_pointer m' i (Z.of_nat k) = b.

Record dir_at m i bs (indirect : list Z) : Prop := {
  da_some : 0 < zlen bs;
  da_small : zlen bs * BLOCK_SIZE < 2 ^ 31;
  da_count : Inode.blocks m i = zlen bs * (BLOCK_SIZE / 512);
  da_size : Inode.size m i = zlen bs * BLOCK_SIZE;
  da_mode : has_mode (Inode.mode m i) EXT2_IFDIR = true;
  da_pointers : pointers_at m i (bs.*1) indirect;
  da_blocks : forall b es, (b, es) ∈ bs -> dir_block m (block_addr b) es (block_addr b + BLOCK_SIZE)
}.

Record file_at m i (bl indirect : list Z) : Prop := {
  fa_mode : has_mode (Inode.mode m i) EXT2_IFREG = true;
  fa_size : 0 <= Inode.size m i;
  fa_blocks : zlen bl = Size_In_Blocks (Inode.size m i);
  fa_pointers : pointers_at m i bl indirect;
  fa_tail : forall k, zlen bl <= k < 12 -> load32 m (Inode.pointer_data_0 i k) = 0
}.

Record stat_at m i (st : istat) : Prop := {
  sa_mode : Inode.mode m i = i_mode st;
  sa_links : Inode.links_count m i = i_links st;
  sa_size : Inode.size m i = i_size st
}.

(** The place of an inode in its table. *)
Definition inode_place m n : Z :=
  inode_table m (Inode_locateGroup n) + sizeof_inode * Inode_getLocalIndex n.

Definition node_at m i (nd : node) : Prop :=
  stat_at m i (node_stat nd) /\
  match nd with Dir _ bs ind => dir_at m i bs ind | File _ bl ind => file_at m i bl ind | Other _ _ => True end.

Record holds m fs : Prop := {
  ho_inodes : inodes_ok m;
  ho_tables : tables_ok m;
  ho_number : forall n nd, fs !! n = Some nd -> 1 <= n <= TOTAL_GROUPS * INODES_PER_GROUP;
  ho_used : forall n nd, fs !! n = Some nd -> n ∉ free_inodes m;
  ho_node : forall n nd, fs !! n = Some nd -> node_at m (inode_place m n) nd;
  ho_taken : forall n nd b, fs !! n = Some nd -> b ∈ node_blocks nd -> taken_block m b
}.

(** ** Places *)

Lemma place_range n :
  0 < INODES_PER_GROUP -> TOTAL_GROUPS * INODES_PER_GROUP < 2 ^ 32 -> 1 <= n <= TOTAL_GROUPS * INODES_PER_GROUP ->
  in_groups (Inode_locateGroup n) /\ 0 <= sizeof_inode * Inode_getLocalIndex n <= table_size - sizeof_inode.
Proof.
  intros Hp Hmax Hn. destruct (inode_split n Hp Hmax Hn) as (Hg & Hi & _). split; [done|].
  unfold table_size, sizeof_inode. lia.
Qed.

Lemma place_read m n : in_groups (Inode_locateGroup n) -> Inode_Global_Read m n = Some (inode_place m n).
Proof.
  intros [_ Hg]. unfold Inode_Global_Read, Inode_Local_Read, Inode_readTable, Group_Descriptor_read.
  by rewrite (proj2 (Z.ltb_lt _ _)).
Qed.

Lemma in_groups_number m fs n nd :
  holds m fs -> fs !! n = Some nd -> in_groups (Inode_locateGroup n).
Proof.
  intros Hh Hn. pose proof (io_ok m (ho_inodes m fs Hh)) as Hio.
  apply (place_range n); [apply Hio|apply Hio|by apply (ho_number m fs Hh n nd)].
Qed.

(** Inodes with different numbers lie apart. *)
Lemma places_apart m n n' x :
  inode_groups_ok m -> tables_ok m ->
  1 <= n <= TOTAL_GROUPS * INODES_PER_GROUP -> 1 <= n' <= TOTAL_GROUPS * INODES_PER_GROUP -> n <> n' ->
  in_inode (inode_place m n) x -> ~ in_inode (inode_place m n') x.
Proof.
  intros Hio Ht Hn Hn' Hne. pose proof (io_ipg m Hio) as Hi. pose proof (io_max m Hio) as Hm.
  destruct (place_range n ltac:(lia) Hm Hn) as [Hg Hl]. destruct (place_range n' ltac:(lia) Hm Hn') as [Hg' Hl'].
  destruct Hi as [Hi _]. destruct (inode_split n Hi Hm Hn) as (_ & _ & E).
  destruct (inode_split n' Hi Hm Hn') as (_ & _ & E').
  unfold in_inode, inode_place. destruct (decide (Inode_locateGroup n = Inode_locateGroup n')) as [Hgg|Hgg].
  - rewrite Hgg in *. unfold inode_of, sizeof_inode in *.
    assert (Inode_getLocalIndex n <> Inode_getLocalIndex n') by congruence. lia.
  - pose proof (ta_apart m Ht _ _ Hg Hg' Hgg) as Ha. unfold apart, sizeof_inode in *. lia.
Qed.

Lemma place_system m n x :
  inode_groups_ok m -> 1 <= n <= TOTAL_GROUPS * INODES_PER_GROUP -> in_inode (inode_place m n) x ->
  exists g, in_groups g /\ inode_table m g <= x < inode_table m g + table_size.
Proof.
  intros Hio Hn Hx. destruct (place_range n) as [Hg Hl]; [apply Hio|apply Hio|done|].
  exists (Inode_locateGroup n). split; [done|]. unfold in_inode, inode_place, sizeof_inode in *. lia.
Qed.

(** ** Reading a directory *)

Lemma dir_addresses m i bs ind size :
  dir_at m i bs ind -> size = zlen bs * BLOCK_SIZE ->
  Inode_Get_Data_Adressess m i size = Some (bs.*1 ++ [0]).
Proof.
  intros Hd ->. pose proof (da_some _ _ _ _ Hd). pose proof (da_small _ _ _ _ Hd). pose proof block_size_pos.
  assert (0 <= zlen bs * BLOCK_SIZE < 2 ^ 32) as Hr by nia. rewrite Inode_addresses_spec by done.
  assert (Size_In_Blocks (zlen bs * BLOCK_SIZE) = zlen bs) as ->.
  { pose proof (Size_In_Blocks_bounds _ Hr) as [Hb _]. clear Hr. nia. }
  rewrite Z.max_r by lia. do 2 f_equal. apply list_eq. intros k. rewrite !list_lookup_fmap.
  destruct (bs !! k) as [[b es]|] eqn:Ek.
  - pose proof (lookup_lt_Some _ _ _ Ek). rewrite lookup_seqZ_lt by (unfold zlen; lia). simpl. f_equal.
    apply (da_pointers _ _ _ _ Hd m); [done|]. by rewrite list_lookup_fmap, Ek.
  - apply lookup_ge_None in Ek. by rewrite lookup_seqZ_ge by (unfold zlen; lia).
Qed.

(** The counter of blocks gives the same list. *)
Lemma dir_blocks_size m i bs ind : dir_at m i bs ind -> u32 (Inode.blocks m i * 512) = zlen bs * BLOCK_SIZE.
Proof.
  intros Hd. pose proof (da_some _ _ _ _ Hd). pose proof (da_small _ _ _ _ Hd). pose proof block_size_pos.
  rewrite (da_count _ _ _ _ Hd). assert (BLOCK_SIZE / 512 * 512 = BLOCK_SIZE) as E.
  { by destruct block_size_cases as [->|[->| ->]]. }
  rewrite <- Z.mul_assoc, E. apply u32_small. nia.
Qed.

Lemma until_EMPTY_all l : (forall b, b ∈ l -> b <> 0) -> until_EMPTY (l ++ [0]) = l.
Proof.
  induction l as [|b l IH]; intros Hl; [done|]. simpl. unfold EMPTY.
  rewrite (proj2 (Z.eqb_neq b 0)), IH; [done| |apply Hl; by left]. intros c Hc. apply Hl. by right.
Qed.

(** The addresses of the entries in use. *)
Definition used_in bs : list Z := mjoin ((fun p => used_entries (block_addr p.1) p.2) <$> bs).

Lemma blocks_entries_dir m bs :
  (forall b es, (b, es) ∈ bs -> dir_block m (block_addr b) es (block_addr b + BLOCK_SIZE)) ->
  blocks_entries m (bs.*1) = Ok (used_in bs).
Proof.
  induction bs as [|[b es] bs IH]; intros Hb; [done|].
  cbn [blocks_entries fmap list_fmap fst]. pose proof (Hb b es ltac:(by left)) as H.
  pose proof block_size_pos. pose proof (dir_block_fuel _ _ _ _ H ltac:(lia)) as Hf.
  replace (block_addr b + BLOCK_SIZE - block_addr b) with BLOCK_SIZE in Hf by lia.
  rewrite (block_entries_list _ _ _ _ block_fuel H) by done. rewrite IH; [done|].
  intros b' es' Hin. apply Hb. by right.
Qed.

Lemma find_entry_cons m a l name :
  find_entry m (a :: l) name = if entry_has_name m a name then Some a else find_entry m l name.
Proof.
  unfold find_entry. cbn [list_find]. destruct (entry_has_name m a name).
  - by rewrite decide_True.
  - rewrite decide_False by done. by destruct (list_find _ l) as [[]|].
Qed.

Lemma find_entry_used m a l e name rest :
  dir_block m a l e ->
  match dir_find name l with
  | Some k => exists x, find_entry m (used_entries a l ++ rest) name = Some x /\ Entry.inode_number m x = k
  | None => find_entry m (used_entries a l ++ rest) name = find_entry m rest name
  end.
Proof.
  revert a. induction l as [|d l IH]; intros a Hb; [done|]. destruct Hb as (Hd & _ & Hb).
  cbn [dir_find used_entries]. specialize (IH _ Hb). rewrite <- app_assoc.
  destruct (negb (de_inode d =? 0)); [|done]. cbn [andb app]. rewrite find_entry_cons, (entry_has_name_at _ _ _ _ Hd).
  case_bool_decide; [|done]. exists a. split; [done|]. apply Hd.
Qed.

Lemma find_entry_blocks m bs name :
  (forall b es, (b, es) ∈ bs -> dir_block m (block_addr b) es (block_addr b + BLOCK_SIZE)) ->
  match dir_find name (entries_of bs) with
  | Some k => exists x, find_entry m (used_in bs) name = Some x /\ Entry.inode_number m x = k
  | None => find_entry m (used_in bs) name = None
  end.
Proof.
  induction bs as [|[b es] bs IH]; intros Hb; [done|].
  change (entries_of ((b, es) :: bs)) with (es ++ entries_of bs). rewrite dir_find_app.
  change (used_in ((b, es) :: bs)) with (used_entries (block_addr b) es ++ used_in bs).
  pose proof (find_entry_used m _ _ _ name (used_in bs) (Hb b es ltac:(by left))) as H.
  destruct (dir_find name es); [done|]. rewrite H. apply IH. intros b' es' Hin. apply Hb. by right.
Qed.

Lemma holds_directory m fs n st bs ind :
  holds m fs -> fs !! n = Some (Dir st bs ind) ->
  directory m (inode_place m n) (used_in bs).
Proof.
  intros Hh Hn. destruct (ho_node m fs Hh n _ Hn) as [_ Hd]. exists (bs.*1 ++ [0]). split.
  - eapply dir_addresses; [exact Hd|apply (da_size _ _ _ _ Hd)].
  - rewrite until_EMPTY_all.
    + apply blocks_entries_dir, Hd.
    + intros b Hb. assert (b ∈ node_blocks (Dir st bs ind)) as Hin by (apply elem_of_app; by left).
      pose proof (tb_number m b (ho_taken m fs Hh n _ b Hn Hin)). lia.
Qed.

(** ** The walk *)

(** The result of the walk in the image. *)
Definition place_of m (r : option Z) : option (Z * Z) := (fun n => (inode_place m n, n)) <$> r.

Lemma walk_resolves m fs n ns r :
  holds m fs -> tree_ok fs -> ns <> [] -> tree_walk fs n ns = Some r ->
  resolves m (inode_place m n) ns (place_of m r).
Proof.
  intros Hh Hok. revert n. induction ns as [|name ns IH]; [done|]. intros n _ Hw.
  cbn [tree_walk] in Hw. destruct (fs !! n) as [[st bs ind|st bl ind|st bl]|] eqn:En; [|done..].
  pose proof (holds_directory m fs n st bs ind Hh En) as Hdir.
  destruct (ho_node m fs Hh n _ En) as [_ Hd].
  pose proof (find_entry_blocks m bs name (da_blocks _ _ _ _ Hd)) as Hf.
  destruct (dir_find name (entries_of bs)) as [k|] eqn:Ek.
  2: { injection Hw as <-. by eapply resolves_missing. }
  destruct Hf as (e & Hf & He). apply dir_find_elem in Ek as (Hk & d & Hin & Hdk & _).
  destruct (to_closed fs Hok n st bs ind d En Hin ltac:(by rewrite Hdk)) as [nd Hnd]. rewrite Hdk in Hnd.
  pose proof (ho_number m fs Hh k nd Hnd) as Hrange.
  pose proof (place_read m k (in_groups_number m fs k nd Hh Hnd)) as Hread.
  destruct ns as [|name' ns].
  - injection Hw as <-. cbn [place_of fmap option_fmap option_map].
    rewrite <- He. rewrite <- He in Hread. eapply resolves_last; [done..| |done]. lia.
  - eapply resolves_step; [done|done|by rewrite He|]. by apply IH.
Qed.

Lemma tree_path_resolves m fs ns r :
  holds m fs -> tree_ok fs -> tree_walk fs ROOT_INODE_NUMBER ns = Some r -> path_resolves m ns (place_of m r).
Proof.
  intros Hh Hok Hw. destruct (to_root fs Hok) as (st & bs & ind & Hroot).
  exists (inode_place m ROOT_INODE_NUMBER). split; [apply place_read, (in_groups_number m fs _ _ Hh Hroot)|].
  destruct ns as [|n ns]; [by injection Hw as <-|]. by apply (walk_resolves m fs).
Qed.
End Tree.
