(* ===== verification/TreeSteps.v ===== *)
(** * TreeSteps: what a write to the image does to the tree

    The three kinds of write that change an image that holds a tree, each
    with the tree that it holds afterwards: the allocator of inodes moves an
    inode, a block of a directory gets other entries, an inode is filled.
    Everything else of the image is framed. *)

From S2P Require Import Prelude Memory Bitarray Ext2 Ext2Facts CString Paths Rfs ActiveFiles Alloc AllocFacts InodeAlloc BlockMap Dirs DirFacts Walk FileOps Serial Requests SerialFacts Lookups Tree.

Section Steps.
Context {Super_constants : Superblock_constants} {SO : Superblock_ok}.
Abbreviation gd := group_descriptor.
Implicit Types (m : mem) (n i b : Z) (fs : gmap Z node) (bs : list (Z * list dentry)).

(** ** The bytes that decide what is free *)

Definition control m (x : Z) : Prop :=
  x < GDT_END \/
  (exists g, in_groups g /\ block_bitmap m g <= x < block_bitmap m g + BLOCK_SIZE) \/
  (exists g, in_groups g /\ inode_bitmap m g <= x < inode_bitmap m g + BLOCK_SIZE).

(** The counter of directories of a group, and what follows it. *)
Definition spare (x : Z) : Prop := exists g, in_groups g /\ gd g + 16 <= x < gd g + sizeof_Group_Descriptor.

Lemma control_descriptors m m' :
  layout_ok m -> (forall x, control m x -> ~ spare x -> m' x = m x) ->
  same_descriptors m m' /\ same_tables m m' /\
  (forall g, in_groups g -> UNALLOCATED_BLOCKS m' (gd g) = UNALLOCATED_BLOCKS m (gd g)) /\
  (forall g, in_groups g -> UNALLOCATED_INODES m' (gd g) = UNALLOCATED_INODES m (gd g)).
Proof.
  intros Hl Hx.
  assert (forall (w : nat) g k, in_groups g -> 0 <= k -> k + Z.of_nat w <= 16 ->
            load w m' (gd g + k) = load w m (gd g + k)) as Hload.
  { intros w g k Hg Hk Hk'. apply load_ext. intros x Hr. pose proof (gd_below m g Hl Hg).
    apply Hx; [left; lia|]. intros (g' & Hg' & H'). unfold group_descriptor, sizeof_Group_Descriptor in *. lia. }
  split_and!; intros g Hg; [split| | |].
  - unfold BITMAP_BLOCK_ADDRESS, load32. rewrite <- (Z.add_0_r (gd g)). apply Hload; [done|lia..].
  - apply (Hload 4%nat); [done|lia..].
  - apply (Hload 4%nat); [done|lia..].
  - apply (Hload 2%nat); [done|lia..].
  - apply (Hload 2%nat); [done|lia..].
Qed.

Lemma control_frame_spare m m' :
  inodes_ok m -> mem_ok m' -> (forall x, control m x -> ~ spare x -> m' x = m x) ->
  inodes_ok m' /\ free_inodes m' = free_inodes m /\ free_blocks m' = free_blocks m /\
  same_descriptors m m' /\ same_tables m m'.
Proof.
  intros [Hio Ht] Hm' Hx. pose proof Hio as [Hal Hipg Hu16 Hmax Hg]. pose proof Hal as [Hm Hl Hc Htb Hd].
  destruct (control_descriptors m m' Hl Hx) as (D & T & UB & UI).
  assert (forall x, spare x -> 2048 <= x < GDT_END) as Hsp.
  { intros x (g & Hg' & Hr). pose proof (gd_below m g Hl Hg'). pose proof (total_low m Hl) as [_ Hge]. pose proof (lo_gdt m Hl).
    destruct Hg'. unfold group_descriptor, sizeof_Group_Descriptor in *. lia. }
  assert (forall g, in_groups g -> group_free m' g = group_free m g) as FB.
  { intros g Hg'. apply group_free_ext; [done..|]. intros x Hr. pose proof (lo_bbm m Hl g Hg').
    apply Hx; [right; left; by exists g|intros ?%Hsp; lia]. }
  assert (forall g, in_groups g -> inode_free m' g = inode_free m g) as FI.
  { intros g Hg'. apply inode_free_ext; [done..|]. intros x Hr. pose proof (lo_ibm m Hl g Hg').
    apply Hx; [right; right; by exists g|intros ?%Hsp; lia]. }
  assert (free_blocks m' = free_blocks m) as EB by (apply free_from_ext; intros g Hg'; apply FB; unfold in_groups; lia).
  assert (free_inodes m' = free_inodes m) as EI by (apply free_inodes_ext; intros g Hg'; apply FI; unfold in_groups; lia).
  assert (forall a, 1024 <= a -> a + 4 <= 2048 -> load32 m' a = load32 m a) as Hlow.
  { intros a Ha Ha'. apply (load_ext 4). intros x Hr. pose proof (total_low m Hl) as [_ Hge]. pose proof (lo_gdt m Hl).
    apply Hx; [left; lia|intros ?%Hsp; lia]. }
  assert (alloc_ok m') as Hal'.
  { split; [done|by apply (layout_same m)| | |].
    - intros g Hg'. apply (counted_ext m); auto.
    - rewrite EB, <- Htb. apply Hlow; unfold SuperBlock.TOTAL_UNALLOCATED_BLOCKS, SUPERBLOCK_START; lia.
    - rewrite EB. eapply Forall_impl; [exact Hd|]. intros b. by apply data_block_same. }
  split_and!; [split; [split|]|done..].
  - done.
  - done.
  - done.
  - done.
  - intros g Hg'. rewrite UI, FI by done. auto.
  - rewrite EI, <- Ht. apply Hlow; unfold SuperBlock.TOTAL_UNALLOCATED_INODES, SUPERBLOCK_START; lia.
Qed.

Lemma control_frame m m' :
  inodes_ok m -> mem_ok m' -> (forall x, control m x -> m' x = m x) ->
  inodes_ok m' /\ free_inodes m' = free_inodes m /\ free_blocks m' = free_blocks m /\
  same_descriptors m m' /\ same_tables m m'.
Proof. intros Hio Hm' Hx. apply control_frame_spare; auto. Qed.

(** ** What does not move *)

Lemma same_tables_trans m1 m2 m3 : same_tables m1 m2 -> same_tables m2 m3 -> same_tables m1 m3.
Proof. intros T1 T2 g Hg. by rewrite (T2 g Hg), (T1 g Hg). Qed.

Lemma inode_table_same m m' g : same_tables m m' -> in_groups g -> inode_table m' g = inode_table m g.
Proof. intros T Hg. unfold inode_table. by rewrite T. Qed.

Lemma tables_same m m' : same_descriptors m m' -> same_tables m m' -> tables_ok m -> tables_ok m'.
Proof.
  intros D T [H1 H2 H3 H4].
  split; intros; rewrite ?(inode_table_same m m'), ?(same_block_bitmap m m'), ?(same_inode_bitmap m m') by done; auto.
Qed.

Lemma place_same m m' n : same_tables m m' -> in_groups (Inode_locateGroup n) -> inode_place m' n = inode_place m n.
Proof. intros T Hg. unfold inode_place. by rewrite (inode_table_same m m'). Qed.

Lemma system_same m m' x : same_descriptors m m' -> same_tables m m' -> system m' x -> system m x.
Proof.
  intros D T [H|[(g & Hg & H)|[(g & Hg & H)|(g & Hg & H)]]]; [by left|right; left|right; right; left|right; right; right];
    exists g; rewrite ?(inode_table_same m m'), ?(same_block_bitmap m m'), ?(same_inode_bitmap m m') in H by done; done.
Qed.

Lemma taken_same m m' b :
  same_descriptors m m' -> same_tables m m' -> free_blocks m' = free_blocks m -> taken_block m b -> taken_block m' b.
Proof.
  intros D T E [H1 H2 H3]. split; [done| |by rewrite E]. intros x Hx Hs. apply (H2 x Hx). by apply (system_same m m').
Qed.

Lemma control_system m x : control m x -> system m x.
Proof. intros [H|[H|H]]; [by left|right; by left|right; right; by left]. Qed.

Lemma control_same m m' x : same_descriptors m m' -> control m' x -> control m x.
Proof.
  intros D [H|[(g & Hg & H)|(g & Hg & H)]]; [by left|right; left|right; right]; exists g;
    rewrite ?(same_block_bitmap m m'), ?(same_inode_bitmap m m') in H by done; done.
Qed.

Lemma inode_metadata_control m x : layout_ok m -> inode_metadata m x -> control m x.
Proof.
  intros Hl [H|[(g & Hg & H)|H]]; [left|left|by right; right].
  - pose proof (total_low m Hl) as [_ Hge]. pose proof (lo_gdt m Hl).
    unfold SuperBlock.TOTAL_UNALLOCATED_INODES, SUPERBLOCK_START in H. lia.
  - pose proof (gd_below m g Hl Hg). lia.
Qed.

(** The tables of inodes are none of the control bytes. *)
Lemma table_control m g x :
  tables_ok m -> in_groups g -> inode_table m g <= x < inode_table m g + table_size -> ~ control m x.
Proof.
  intros Ht Hg Hx [H|[(g' & Hg' & H)|(g' & Hg' & H)]].
  - pose proof (ta_low m Ht g Hg). lia.
  - pose proof (ta_bb m Ht g g' Hg Hg') as Ha. unfold apart in Ha. lia.
  - pose proof (ta_ib m Ht g g' Hg Hg') as Ha. unfold apart in Ha. lia.
Qed.

Lemma blocks_apart m b b' x : taken_block m b -> taken_block m b' -> b <> b' -> in_block b x -> ~ in_block b' x.
Proof.
  intros [H1 _ _] [H2 _ _] Hne. pose proof block_size_pos. unfold in_block, block_addr. rewrite !u32_small by nia. nia.
Qed.

(** ** Nodes *)

Lemma block_ext m m' b es :
  (forall x, in_block b x -> m' x = m x) ->
  dir_block m (block_addr b) es (block_addr b + BLOCK_SIZE) -> dir_block m' (block_addr b) es (block_addr b + BLOCK_SIZE).
Proof. intros Hx. apply dir_block_ext. exact Hx. Qed.

Lemma inode_fields m m' i :
  (forall x, in_inode i x -> m' x = m x) ->
  Inode.mode m' i = Inode.mode m i /\ Inode.size m' i = Inode.size m i /\
  Inode.links_count m' i = Inode.links_count m i /\ Inode.blocks m' i = Inode.blocks m i.
Proof.
  intros Hx. unfold in_inode, sizeof_inode in Hx.
  split_and!; [apply (load_ext 2)|unfold Inode.size; f_equal; apply (load_ext 4)|apply (load_ext 2)|apply (load_ext 4)];
    intros x Hr; apply Hx; lia.
Qed.

Lemma stat_ext m m' i st : (forall x, in_inode i x -> m' x = m x) -> stat_at m i st -> stat_at m' i st.
Proof. intros Hx [H1 H2 H3]. destruct (inode_fields m m' i Hx) as (E1 & E2 & E3 & _). split; congruence. Qed.

Lemma pointers_ext m m' i bl ind :
  (forall x, in_inode i x -> m' x = m x) -> (forall b x, b ∈ ind -> in_block b x -> m' x = m x) ->
  pointers_at m i bl ind -> pointers_at m' i bl ind.
Proof.
  intros Hi Hind Hp m2 Hm2. apply Hp. intros x Hx. rewrite Hm2 by done. destruct Hx as [Hx|(b & Hb & Hx)]; eauto.
Qed.

(** A directory with its inode and its pointers as before. *)
Lemma dir_ext m m' i bs bs' ind :
  (forall x, in_inode i x -> m' x = m x) -> (forall b x, b ∈ ind -> in_block b x -> m' x = m x) ->
  bs'.*1 = bs.*1 -> (forall b es, (b, es) ∈ bs' -> dir_block m' (block_addr b) es (block_addr b + BLOCK_SIZE)) ->
  dir_at m i bs ind -> dir_at m' i bs' ind.
Proof.
  intros Hi Hind Hbs Hb [H1 H2 H3 H4 H5 H6 _]. destruct (inode_fields m m' i Hi) as (E1 & E2 & _ & E4).
  assert (zlen bs' = zlen bs) as Hz.
  { unfold zlen. rewrite <- (length_fmap fst bs), <- (length_fmap fst bs'), Hbs. done. }
  split; rewrite ?Hz, ?E1, ?E2, ?E4, ?Hbs; try done. by apply (pointers_ext m).
Qed.

Lemma file_ext m m' i bl ind :
  (forall x, in_inode i x -> m' x = m x) -> (forall b x, b ∈ ind -> in_block b x -> m' x = m x) ->
  file_at m i bl ind -> file_at m' i bl ind.
Proof.
  intros Hi Hind [H1 H2 H3 H4 H5]. destruct (inode_fields m m' i Hi) as (E1 & E2 & _).
  split; rewrite ?E1, ?E2; try done; [by apply (pointers_ext m)|].
  intros k Hk. rewrite <- (H5 k Hk). apply (load_ext 4). intros x Hx. apply Hi.
  pose proof (zlen_nonneg bl). unfold in_inode, sizeof_inode, Inode.pointer_data_0 in *. lia.
Qed.

Lemma node_ext m m' i nd :
  (forall x, in_inode i x \/ (exists b, b ∈ node_blocks nd /\ in_block b x) -> m' x = m x) ->
  node_at m i nd -> node_at m' i nd.
Proof.
  intros Hx [Hs Hd]. assert (forall x, in_inode i x -> m' x = m x) as Hi by (intros x Hr; apply Hx; by left).
  assert (forall b x, b ∈ node_blocks nd -> in_block b x -> m' x = m x) as Hb by (intros b x Hb Hr; apply Hx; eauto).
  split; [by eapply stat_ext|]. destruct nd as [st bs ind|st bl ind|st bl]; [|apply (file_ext m); try done|done].
  - apply (dir_ext m m' i bs bs ind); [done| |done| |done].
    + intros b x Hin. apply Hb. apply elem_of_app. by right.
    + intros b es Hin. apply (block_ext m); [|by apply (da_blocks _ _ _ _ Hd)].
      intros x. apply Hb. apply elem_of_app. left. apply list_elem_of_fmap. by exists (b, es).
  - intros b x Hin. apply Hb. apply elem_of_app. by right.
Qed.

(** ** The steps *)

(** Inodes are taken or given back, none of a node. *)
Lemma holds_inodes_moved m m' fs :
  holds m fs -> inodes_moved m m' -> (forall n nd, fs !! n = Some nd -> n ∉ free_inodes m') -> holds m' fs.
Proof.
  intros [Hio Ht Hn Hu Hnd Htk] [Hok Hfb D T X] Hfree.
  pose proof (al_layout m (io_alloc m (io_ok m Hio))) as Hl.
  split; [done|by apply (tables_same m)|done|done| |].
  - intros n nd Hin. pose proof (Hn n nd Hin) as Hr. pose proof (io_ok m Hio) as Hgo.
    destruct (place_range n) as [Hg _]; [apply Hgo|apply Hgo|done|].
    rewrite (place_same m m') by done. apply (node_ext m); [|by apply Hnd].
    intros x Hx. apply X. intros Hmeta%inode_metadata_control; [|done]. destruct Hx as [Hx|(b & Hb & Hx)].
    + destruct (place_system m n x Hgo Hr Hx) as (g & Hg' & Hx'). by apply (table_control m g x).
    + apply (tb_data m b (Htk n nd b Hin Hb) x Hx). by apply control_system.
  - intros n nd b Hin Hb. apply (taken_same m); [done..|by eapply Htk].
Qed.

(** A block of the directory [d] is written. *)
Lemma holds_dir_written m m' fs d st bs bs' ind b :
  holds m fs -> tree_ok fs -> fs !! d = Some (Dir st bs ind) -> mem_ok m' ->
  b ∈ bs.*1 -> (forall x, ~ in_block b x -> m' x = m x) -> bs'.*1 = bs.*1 ->
  (forall b es, (b, es) ∈ bs' -> dir_block m' (block_addr b) es (block_addr b + BLOCK_SIZE)) ->
  holds m' (<[d := Dir st bs' ind]> fs).
Proof.
  intros Hh Hok Hd Hm' Hb X Hbs Hblocks. pose proof Hh as [Hio Ht Hn Hu Hnd Htk]. pose proof (io_ok m Hio) as Hgo.
  assert (b ∈ node_blocks (Dir st bs ind)) as Hbd by (apply elem_of_app; by left).
  pose proof (Htk d _ b Hd Hbd) as Htb.
  assert (forall x, system m x -> m' x = m x) as Hsys.
  { intros x Hx. apply X. intros Hbx. by apply (tb_data m b Htb x). }
  destruct (control_frame m m' Hio Hm') as (Hio' & EI & EB & D & T).
  { intros x Hx. by apply Hsys, control_system. }
  assert (forall n nd, fs !! n = Some nd -> in_groups (Inode_locateGroup n) /\
            forall x, in_inode (inode_place m n) x -> m' x = m x) as Hplace.
  { intros n nd Hin. destruct (place_range n) as [Hg _]; [apply Hgo|apply Hgo|by eapply Hn|]. split; [done|].
    intros x Hx. apply Hsys. do 3 right. by apply (place_system m n x Hgo (Hn n nd Hin)). }
  assert (node_blocks (Dir st bs' ind) = node_blocks (Dir st bs ind)) as Enb by (cbn; by rewrite Hbs).
  split; [done|by apply (tables_same m)|..].
  - intros n nd. rewrite lookup_insert_Some. intros [[<- _]|[_ Hin]]; by eapply Hn.
  - intros n nd. rewrite EI, lookup_insert_Some. intros [[<- _]|[_ Hin]]; by eapply Hu.
  - intros n nd. rewrite lookup_insert_Some. intros [[<- <-]|[Hne Hin]].
    + destruct (Hplace d _ Hd) as [Hg Hx]. rewrite (place_same m m') by done. destruct (Hnd d _ Hd) as [Hs Hdir].
      split; [by apply (stat_ext m)|]. apply (dir_ext m m' _ bs); try done.
      intros b2 x Hb2 Hx2. apply X. pose proof (to_nodup fs Hok d _ Hd) as Hnodup. cbn in Hnodup.
      assert (b2 ∈ node_blocks (Dir st bs ind)) as Hb2d by (apply elem_of_app; by right).
      apply (blocks_apart m b2 b); [by eapply Htk|done| |done].
      intros ->. apply NoDup_app in Hnodup as (_ & Hdis & _). by apply (Hdis b).
    + destruct (Hplace n nd Hin) as [Hg Hx]. rewrite (place_same m m') by done.
      apply (node_ext m); [|by apply Hnd]. intros x [Hr|(b2 & Hb2 & Hr)]; [by apply Hx|].
      apply X. apply (blocks_apart m b2 b); [by eapply Htk|done| |done].
      intros ->. by apply (to_apart fs Hok d n _ nd b Hd Hin Hne Hbd).
  - intros n nd b2. rewrite lookup_insert_Some. intros [[<- <-]|[_ Hin]] Hb2; (apply (taken_same m); [done..|]).
    + rewrite Enb in Hb2. by eapply Htk.
    + by eapply Htk.
Qed.

(** Fewer nodes, and one more. *)
Lemma holds_delete m fs n : holds m fs -> holds m (delete n fs).
Proof.
  intros [H1 H2 H3 H4 H5 H6]. split; [done|done|..]; intros k nd.
  4: intros b. all: rewrite lookup_delete_Some; intros [_ Hin]; eauto.
Qed.

Lemma holds_insert m fs n nd :
  holds m fs -> 1 <= n <= TOTAL_GROUPS * INODES_PER_GROUP -> n ∉ free_inodes m ->
  node_at m (inode_place m n) nd -> (forall b, b ∈ node_blocks nd -> taken_block m b) -> holds m (<[n := nd]> fs).
Proof.
  intros [H1 H2 H3 H4 H5 H6] Hr Hf Hn Hb. split; [done|done|..]; intros k nd'.
  4: intros b. all: rewrite lookup_insert_Some; intros [[<- <-]|[_ Hin]]; eauto.
Qed.

(** An inode that is no node is written. *)
Lemma holds_spare_inode m m' fs n :
  holds m fs -> 1 <= n <= TOTAL_GROUPS * INODES_PER_GROUP -> fs !! n = None -> mem_ok m' ->
  (forall x, ~ in_inode (inode_place m n) x -> m' x = m x) ->
  holds m' fs /\ free_inodes m' = free_inodes m /\ free_blocks m' = free_blocks m /\
  inode_place m' n = inode_place m n /\ same_descriptors m m' /\ same_tables m m'.
Proof.
  intros Hh Hr Hnone Hm' X. pose proof Hh as [Hio Ht Hn Hu Hnd Htk]. pose proof (io_ok m Hio) as Hgo.
  destruct (control_frame m m' Hio Hm') as (Hio' & EI & EB & D & T).
  { intros x Hx. apply X. intros Hi. destruct (place_system m n x Hgo Hr Hi) as (g & Hg & Hx').
    by apply (table_control m g x). }
  assert (forall n, 1 <= n <= TOTAL_GROUPS * INODES_PER_GROUP -> inode_place m' n = inode_place m n) as Hplace.
  { intros k Hk. destruct (place_range k) as [Hg _]; [apply Hgo|apply Hgo|done|]. by apply place_same. }
  split_and!; [|done|done|by apply Hplace|done|done].
  split; [done|by apply (tables_same m)|done| | |].
  - intros k nd. rewrite EI. apply Hu.
  - intros k nd Hin. rewrite Hplace by by eapply Hn. apply (node_ext m); [|by apply Hnd].
    intros x [Hx|(b & Hb & Hx)]; apply X.
    + apply (places_apart m k n x Hgo Ht); [by eapply Hn|done|congruence|done].
    + intros Hi. apply (tb_data m b (Htk k nd b Hin Hb) x Hx). do 3 right. by apply (place_system m n x).
  - intros k nd b Hin Hb. apply (taken_same m); [done..|by eapply Htk].
Qed.

(** The counter of directories of a group is written. *)
Lemma spare_control m x : layout_ok m -> spare x -> control m x.
Proof.
  intros Hl (g & Hg & Hx). left. pose proof (gd_below m g Hl Hg). unfold sizeof_Group_Descriptor in Hx. lia.
Qed.

Lemma spare_not_block_counters m x :
  layout_ok m -> spare x -> ~ metadata m x /\ in_range SuperBlock.TOTAL_UNALLOCATED_BLOCKS 4 x = false.
Proof.
  intros Hl (g & Hg & Hx). pose proof (gd_below m g Hl Hg). pose proof (total_low m Hl) as [Ht _].
  unfold sizeof_Group_Descriptor in *. split; [|apply in_range_false; lia].
  intros [(g' & Hg' & H')|(g' & Hg' & H')].
  - unfold group_descriptor, sizeof_Group_Descriptor in *. lia.
  - pose proof (lo_bbm m Hl g' Hg'). lia.
Qed.

Lemma spare_not_inode_counters m x : layout_ok m -> spare x -> ~ inode_metadata m x.
Proof.
  intros Hl (g & Hg & Hx). pose proof (gd_below m g Hl Hg). pose proof (total_low m Hl) as [Ht _].
  unfold sizeof_Group_Descriptor in *. intros [H'|[(g' & Hg' & H')|(g' & Hg' & H')]].
  - unfold SuperBlock.TOTAL_UNALLOCATED_INODES, SuperBlock.TOTAL_UNALLOCATED_BLOCKS in *. lia.
  - unfold group_descriptor, sizeof_Group_Descriptor in *. lia.
  - pose proof (lo_ibm m Hl g' Hg'). lia.
Qed.

Lemma holds_directories_counted m m' fs :
  holds m fs -> mem_ok m' -> (forall x, ~ spare x -> m' x = m x) ->
  holds m' fs /\ free_inodes m' = free_inodes m /\ free_blocks m' = free_blocks m /\
  same_descriptors m m' /\ same_tables m m'.
Proof.
  intros Hh Hm' X. pose proof Hh as [Hio Ht Hn Hu Hnd Htk]. pose proof (io_ok m Hio) as Hgo.
  pose proof (al_layout m (io_alloc m Hgo)) as Hl.
  destruct (control_frame_spare m m' Hio Hm') as (Hio' & EI & EB & D & T); [by auto|].
  split_and!; [|done..]. split; [done|by apply (tables_same m)|done|by intros k nd; rewrite EI; apply Hu| |].
  - intros k nd Hin. pose proof (Hn k nd Hin) as Hr. destruct (place_range k) as [Hg _]; [apply Hgo|apply Hgo|done|].
    rewrite (place_same m m') by done. apply (node_ext m); [|by apply Hnd].
    intros x [Hx|(b & Hb & Hx)]; apply X; intros Hs%(spare_control m); try done.
    + destruct (place_system m k x Hgo Hr Hx) as (g & Hg' & Hx'). by apply (table_control m g x).
    + apply (tb_data m b (Htk k nd b Hin Hb) x Hx). by apply control_system.
  - intros k nd b Hin Hb. apply (taken_same m); [done..|by eapply Htk].
Qed.

(** An inode is filled with a node without blocks. *)
Lemma holds_inode_written m m' fs n nd :
  holds m fs -> 1 <= n <= TOTAL_GROUPS * INODES_PER_GROUP -> n ∉ free_inodes m -> fs !! n = None -> mem_ok m' ->
  (forall x, ~ in_inode (inode_place m n) x -> m' x = m x) -> node_at m' (inode_place m n) nd ->
  node_blocks nd = [] -> holds m' (<[n := nd]> fs).
Proof.
  intros Hh Hr Hfree Hnone Hm' X Hst Hnb.
  destruct (holds_spare_inode m m' fs n Hh Hr Hnone Hm' X) as (Hh' & Ef & _ & Ep & _).
  apply holds_insert; [done|done|by rewrite Ef|by rewrite Ep|]. rewrite Hnb. by intros b ?%not_elem_of_nil.
Qed.

(** ** Blocks that are given back *)

(** The allocator of blocks moves: the inodes stay. *)
Lemma blocks_moved m m' :
  inodes_ok m -> alloc_ok m' -> same_descriptors m m' ->
  (forall x, control m x -> ~ metadata m x -> in_range SuperBlock.TOTAL_UNALLOCATED_BLOCKS 4 x = false -> m' x = m x) ->
  inodes_ok m' /\ free_inodes m' = free_inodes m /\ same_tables m m'.
Proof.
  intros [Hio Ht] Hal' D X. pose proof Hio as [Hal Hipg Hu16 Hmax Hg]. pose proof (al_layout m Hal) as Hl.
  pose proof (total_low m Hl) as [Hlow Hge]. pose proof (lo_gdt m Hl) as Hgdt.
  unfold SuperBlock.TOTAL_UNALLOCATED_BLOCKS, SUPERBLOCK_START in *.
  assert (forall g k x, in_groups g -> k <= x - gd g < k + 4 -> k = 8 \/ k = 14 -> x < gd g + 16 -> m' x = m x) as Hdesc.
  { intros g k x Hgg Hx Hk Hx'. pose proof (gd_below m g Hl Hgg). apply X; [left; lia| |apply in_range_false; lia].
    intros [(g' & Hg' & Hmd)|(g' & Hg' & Hmd)]; [|pose proof (lo_bbm m Hl g' Hg'); lia].
    unfold group_descriptor, sizeof_Group_Descriptor in *. lia. }
  assert (same_tables m m') as T.
  { intros g Hgg. apply (load_ext 4). intros x Hx. apply (Hdesc g 8); [done|lia|by left|lia]. }
  assert (forall g, in_groups g -> inode_free m' g = inode_free m g) as FI.
  { intros g Hgg. apply inode_free_ext; [done..|]. intros x Hx. pose proof (lo_ibm m Hl g Hgg).
    apply X; [right; right; by exists g| |apply in_range_false; lia].
    intros [(g' & Hg' & H')|(g' & Hg' & H')]; [pose proof (gd_below m g' Hl Hg'); lia|].
    destruct (lo_bi m Hl g' g Hg' Hgg); lia. }
  assert (free_inodes m' = free_inodes m) as EI by (apply free_inodes_ext; intros g Hg'; apply FI; unfold in_groups; lia).
  split_and!; [|done|done]. split; [split; [done..|]|].
  - intros g Hgg. rewrite FI, <- Hg by done. apply (load_ext 2). intros x Hx. apply (Hdesc g 14); [done|lia|by right|lia].
  - rewrite EI, <- Ht. apply (load_ext 4). intros x Hx. unfold SuperBlock.TOTAL_UNALLOCATED_INODES, SUPERBLOCK_START in Hx.
    apply X; [left; lia| |apply in_range_false; lia].
    intros [(g' & Hg' & H')|(g' & Hg' & H')]; [pose proof (gd_below m g' Hl Hg')|pose proof (lo_bbm m Hl g' Hg')]; lia.
Qed.

Lemma metadata_control m x : layout_ok m -> metadata m x -> control m x.
Proof.
  intros Hl [(g & Hg & H)|H]; [left; pose proof (gd_below m g Hl Hg); lia|right; by left].
Qed.

(** A block of no node is given back. *)
Lemma holds_block_released m m' fs b :
  holds m fs -> alloc_ok m' -> same_descriptors m m' ->
  (forall x, ~ metadata m x -> in_range SuperBlock.TOTAL_UNALLOCATED_BLOCKS 4 x = false -> m' x = m x) ->
  free_blocks m' ≡ₚ b :: free_blocks m -> (forall n nd, fs !! n = Some nd -> b ∉ node_blocks nd) ->
  holds m' fs /\ free_inodes m' = free_inodes m /\ same_tables m m' /\ (forall x, ~ control m x -> m' x = m x).
Proof.
  intros [Hio Ht Hn Hu Hnd Htk] Hal' D X Hfb Hb.
  destruct (blocks_moved m m' Hio Hal' D ltac:(auto)) as (Hio' & EI & T).
  pose proof (al_layout m (io_alloc m (io_ok m Hio))) as Hl. pose proof (io_ok m Hio) as Hgo.
  assert (forall x, ~ control m x -> m' x = m x) as X'.
  { intros x Hx. apply X; [intros Hm; apply Hx; by apply metadata_control|]. apply in_range_false. intros Hr.
    apply Hx. left. pose proof (total_low m Hl). lia. }
  split_and!; [|done|done|done]. split; [done|by apply (tables_same m)|done|by intros n nd; rewrite EI; apply Hu| |].
  - intros n nd Hin. pose proof (Hn n nd Hin) as Hr. destruct (place_range n) as [Hg _]; [apply Hgo|apply Hgo|done|].
    rewrite (place_same m m') by done. apply (node_ext m); [|by apply Hnd].
    intros x [Hx|(c & Hc & Hx)]; apply X'.
    + destruct (place_system m n x Hgo Hr Hx) as (g & Hg' & Hx'). by apply (table_control m g x).
    + intros Hctl. apply (tb_data m c (Htk n nd c Hin Hc) x Hx). by apply control_system.
  - intros n nd c Hin Hc. destruct (Htk n nd c Hin Hc) as [H1 H2 H3]. split; [done| |].
    + intros x Hx Hs. apply (H2 x Hx). by apply (system_same m m').
    + rewrite Hfb. intros [->|Hf]%elem_of_cons; [by apply (Hb n nd)|done].
Qed.

(** ** Blocks that are taken *)

(** Where a block of data can be. *)
Definition data_place m b : Prop :=
  (1 <= b <= TOTAL_GROUPS * BLOCKS_PER_GROUP /\ (b + 1) * BLOCK_SIZE <= 2 ^ 32) /\
  forall x, in_block b x -> ~ system m x.

(** The blocks that are free are blocks of data. *)
Definition free_ok m : Prop := forall b, b ∈ free_blocks m -> data_place m b.

Lemma data_place_same m m' b : same_descriptors m m' -> same_tables m m' -> data_place m b -> data_place m' b.
Proof. intros D T [H1 H2]. split; [done|]. intros x Hx Hs. apply (H2 x Hx). by apply (system_same m m'). Qed.

Lemma free_ok_same m m' :
  same_descriptors m m' -> same_tables m m' -> (forall b, b ∈ free_blocks m' -> data_place m b) -> free_ok m'.
Proof. intros D T Hf b Hb. apply (data_place_same m); auto. Qed.

Lemma taken_place m b : taken_block m b -> data_place m b.
Proof. by intros [H1 H2 _]. Qed.

Lemma free_ok_released m m' bl :
  same_descriptors m m' -> same_tables m m' -> free_ok m -> (forall b, b ∈ bl -> data_place m b) ->
  free_blocks m' ≡ₚ bl ++ free_blocks m -> free_ok m'.
Proof.
  intros D T Hfo Hbl E. apply (free_ok_same m); [done..|]. intros b. rewrite E. intros [Hb|Hb]%elem_of_app; auto.
Qed.

Lemma places_disjoint m b b' x : data_place m b -> data_place m b' -> b <> b' -> in_block b x -> ~ in_block b' x.
Proof.
  intros [H1 _] [H2 _] Hne. pose proof block_size_pos. unfold in_block, block_addr. rewrite !u32_small by nia. nia.
Qed.

(** Bytes of data that no node has: free blocks are taken, or a block of no
    node is written. *)
Lemma holds_outside m m' fs (l : list Z) :
  holds m fs -> (forall b, b ∈ l -> data_place m b) -> (forall b n nd, b ∈ l -> fs !! n = Some nd -> b ∉ node_blocks nd) ->
  inodes_ok m' -> free_inodes m' = free_inodes m -> (forall c, c ∈ free_blocks m' -> c ∈ free_blocks m) ->
  same_descriptors m m' -> same_tables m m' ->
  (forall x, ~ control m x -> (forall b, b ∈ l -> ~ in_block b x) -> m' x = m x) -> holds m' fs.
Proof.
  intros [Hio Ht Hn Hu Hnd Htk] Hb Hnb Hio' EI Hf D T X. pose proof (io_ok m Hio) as Hgo.
  split; [done|by apply (tables_same m)|done|by intros n nd; rewrite EI; apply Hu| |].
  - intros n nd Hin. pose proof (Hn n nd Hin) as Hr. destruct (place_range n) as [Hg _]; [apply Hgo|apply Hgo|done|].
    rewrite (place_same m m') by done. apply (node_ext m); [|by apply Hnd].
    intros x [Hx|(c & Hc & Hx)]; apply X.
    + destruct (place_system m n x Hgo Hr Hx) as (g & Hg' & Hx'). by apply (table_control m g x).
    + intros b Hbl Hbx. apply (proj2 (Hb b Hbl) x Hbx). do 3 right. by apply (place_system m n x).
    + intros Hctl. apply (tb_data m c (Htk n nd c Hin Hc) x Hx). by apply control_system.
    + intros b Hbl. apply (places_disjoint m c b); [by eapply taken_place, Htk|by apply Hb| |done].
      intros ->. by apply (Hnb b n nd).
  - intros n nd c Hin Hc. destruct (Htk n nd c Hin Hc) as [H1 H2 H3]. split; [done| |by intros ?%Hf].
    intros x Hx Hs. apply (H2 x Hx). by apply (system_same m m').
Qed.

Lemma holds_spare_block m m' fs b :
  holds m fs -> data_place m b -> (forall n nd, fs !! n = Some nd -> b ∉ node_blocks nd) ->
  mem_ok m' -> (forall x, ~ in_block b x -> m' x = m x) ->
  holds m' fs /\ free_inodes m' = free_inodes m /\ free_blocks m' = free_blocks m /\
  same_descriptors m m' /\ same_tables m m'.
Proof.
  intros Hh Hdp Hnb Hm' X.
  destruct (control_frame m m' (ho_inodes _ _ Hh) Hm') as (Hio' & EI & EB & D & T).
  { intros x Hx. apply X. intros Hbx. apply (proj2 Hdp x Hbx). by apply control_system. }
  split_and!; try done. apply (holds_outside m m' fs [b]); try done.
  - by intros c ->%list_elem_of_singleton.
  - intros c n nd ->%list_elem_of_singleton. apply Hnb.
  - by intros c; rewrite EB.
  - intros x _ Hx. apply X, Hx. by left.
Qed.

Lemma holds_blocks_taken m m' fs l :
  holds m fs -> free_ok m -> took m m' l ->
  holds m' fs /\ free_ok m' /\ free_inodes m' = free_inodes m /\
  (forall b, b ∈ l -> taken_block m' b /\ data_place m b) /\ same_descriptors m m' /\ same_tables m m' /\
  (forall x, spare x \/ ~ control m x /\ (forall b, b ∈ l -> ~ in_block b x) -> m' x = m x).
Proof.
  intros Hh Hfo [_ Ef Hal' D X]. pose proof Hh as [Hio Ht Hn Hu Hnd Htk].
  pose proof (al_layout m (io_alloc m (io_ok m Hio))) as Hl.
  assert (forall b, b ∈ l -> b ∈ free_blocks m) as Hlf by (intros b Hb; rewrite Ef; apply elem_of_app; by left).
  assert (forall b, b ∈ l -> data_place m b) as Hdp by (intros b Hb; by apply Hfo, Hlf).
  assert (forall x, control m x -> forall b, b ∈ l -> ~ in_block b x) as Hcb.
  { intros x Hx b Hb Hbx. apply (proj2 (Hdp b Hb) x Hbx). by apply control_system. }
  destruct (blocks_moved m m' Hio Hal' D) as (Hio' & EI & T); [by eauto|].
  assert (NoDup (free_blocks m)) as Hndf by apply (free_blocks_nodup m Hl).
  rewrite Ef in Hndf. apply NoDup_app in Hndf as (_ & Hbf & _).
  assert (forall x, ~ control m x -> (forall b, b ∈ l -> ~ in_block b x) -> m' x = m x) as X'.
  { intros x Hx Hbx. apply X; [intros Hm; apply Hx; by apply metadata_control| |done].
    apply in_range_false. intros Hr. apply Hx. left. pose proof (total_low m Hl). lia. }
  assert (forall c, c ∈ free_blocks m' -> c ∈ free_blocks m) as Hsub by (intros c Hc; rewrite Ef; apply elem_of_app; by right).
  split_and!; try done.
  - apply (holds_outside m m' fs l); try done. intros b n nd Hb Hin Hbn. by apply (tb_used m b (Htk n nd b Hin Hbn)), Hlf.
  - apply (free_ok_same m m' D T). auto.
  - intros b Hb. split; [|by apply Hdp]. destruct (data_place_same m m' b D T (Hdp b Hb)) as [H1 H2]. split; auto.
  - intros x [Hx|[Hx Hbx]]; [|by apply X'].
    destruct (spare_not_block_counters m x Hl Hx). apply X; [done..|]. by apply Hcb, spare_control.
Qed.

Lemma holds_block_taken m m' fs b :
  holds m fs -> free_ok m -> took m m' [b] ->
  holds m' fs /\ free_ok m' /\ free_inodes m' = free_inodes m /\ taken_block m' b /\ data_place m b /\
  same_descriptors m m' /\ same_tables m m' /\
  (forall x, spare x \/ ~ control m x /\ ~ in_block b x -> m' x = m x).
Proof.
  intros Hh Hfo Ht. destruct (holds_blocks_taken m m' fs [b] Hh Hfo Ht) as (H1 & H2 & H3 & H4 & H5 & H6 & H7).
  destruct (H4 b ltac:(by left)) as [H4a H4b]. split_and!; try done; try apply H4b.
  intros x [Hx|[Hx Hb]]; apply H7; [by left|right]. split; [done|]. by intros c ->%list_elem_of_singleton.
Qed.

Lemma taken_data_block m b : layout_ok m -> taken_block m b -> is_data_block m b.
Proof.
  intros Hl [_ Hd _]. pose proof block_size_pos.
  assert (forall a, (forall x, a <= x < a + BLOCK_SIZE -> system m x) -> apart (block_addr b) BLOCK_SIZE a BLOCK_SIZE) as Hap.
  { intros a Ha. unfold apart. destruct (decide (block_addr b + BLOCK_SIZE <= a)) as [|H1]; [by left|right].
    destruct (decide (a + BLOCK_SIZE <= block_addr b)) as [|H2]; [done|exfalso].
    apply (Hd (Z.max a (block_addr b))); [unfold in_block; lia|]. apply Ha. lia. }
  split_and!.
  - destruct (decide (GDT_END <= block_addr b)) as [|Hn]; [done|exfalso].
    apply (Hd (block_addr b)); [unfold in_block; lia|left; lia].
  - intros g Hg. apply Hap. intros x Hx. right. left. by exists g.
  - intros g Hg. apply Hap. intros x Hx. right. right. left. by exists g.
Qed.
End Steps.
