(* ===== verification/Enters.v ===== *)
(** * Enters: a new entry and a new inode

    The parts of a creation: where a name is entered in the blocks of a
    directory, what it does to the tree, and the writes of the code that do
    it: [attach_in_blocks] and [setFileInode]. *)

From S2P Require Import Prelude Memory Bitarray Ext2 Ext2Facts CString Paths Rfs ActiveFiles Alloc AllocFacts InodeAlloc BlockMap Dirs DirFacts Walk FileOps Serial Requests SerialFacts Lookups Tree TreeSteps.

(** ** A new entry in the blocks of a directory *)

(** The entry goes to the first block with room. *)
Fixpoint enter_blocks (e : entry_t) (bs : list (Z * list dentry)) : option (list (Z * list dentry)) :=
  match bs with
  | [] => None
  | (b, es) :: bs =>
      match put_entry e es with
      | Some es' => Some ((b, es') :: bs)
      | None => cons (b, es) <$> enter_blocks e bs
      end
  end.

Section Entering.
Implicit Types (e : entry_t) (l : list dentry) (bs : list (Z * list dentry)).

(** The result of entering [e] where [l] was. *)
Record entered e l l' : Prop := {
  en_other : forall name, name <> [] -> name <> file_name e -> dir_find name l' = dir_find name l;
  en_new : file_name e <> [] -> dir_find (file_name e) l = None -> inode_number e <> 0 ->
    dir_find (file_name e) l' = Some (inode_number e);
  en_inodes : forall d, d ∈ l' -> de_inode d = inode_number e \/ exists d0, d0 ∈ l /\ de_inode d0 = de_inode d
}.

Lemma entered_app e l0 l l' l1 : entered e l l' -> entered e (l0 ++ l ++ l1) (l0 ++ l' ++ l1).
Proof.
  intros [H1 H2 H3]. split.
  - intros name Hn Hne. by rewrite !dir_find_app, (H1 name Hn Hne).
  - intros Hn Hf Hi. rewrite !dir_find_app in *. destruct (dir_find (file_name e) l0); [done|].
    destruct (dir_find (file_name e) l); [done|]. by rewrite (H2 Hn eq_refl Hi).
  - intros d Hd. rewrite !elem_of_app in Hd. destruct Hd as [Hd|[Hd|Hd]].
    + right. exists d. rewrite elem_of_app. eauto.
    + destruct (H3 d Hd) as [|(d0 & Hd0 & E)]; [by left|right]. exists d0. rewrite !elem_of_app. eauto.
    + right. exists d. rewrite !elem_of_app. eauto.
Qed.

Lemma dir_find_one d name :
  dir_find name [d] = if negb (de_inode d =? 0) && bool_decide (de_name d = name) then Some (de_inode d) else None.
Proof. done. Qed.

Lemma put_entry_entered e l l' : Forall dentry_ok l -> put_entry e l = Some l' -> entered e l l'.
Proof.
  intros Hl. revert l'. induction Hl as [|d l Hd Hl IH]; intros l'; [done|]. cbn [put_entry].
  case_test; [intros [= <-]|].
  - rewrite (size_of_empty d Hd). case_bool_decide as Hn.
    + change (entered e ([d] ++ l) ([with_len (size_of d) d; as_dentry e (de_len d - size_of d)] ++ l)).
      apply (entered_app e [] [d] [with_len (size_of d) d; as_dentry e (de_len d - size_of d)] l). split.
      * intros name Hne Hnn. cbn [dir_find with_len as_dentry de_inode de_name].
        rewrite (bool_decide_eq_false_2 (file_name e = name)) by congruence. by rewrite andb_false_r.
      * intros Hne Hf Hi. rewrite dir_find_one in Hf. cbn [dir_find with_len as_dentry de_inode de_name].
        destruct (negb (de_inode d =? 0) && bool_decide (de_name d = file_name e)); [done|].
        by rewrite (proj2 (Z.eqb_neq _ _)), bool_decide_eq_true_2 by done.
      * intros x. rewrite elem_of_cons, list_elem_of_singleton. intros [->| ->]; [right|by left].
        exists d. split; [by left|done].
    + change (entered e ([d] ++ l) ([as_dentry e (de_len d)] ++ l)).
      assert (de_name d = []) as En by (destruct (decide (de_name d = [])); [done|by destruct Hn]).
      apply (entered_app e [] [d] [as_dentry e (de_len d)] l). split.
      * intros name Hne Hnn. rewrite !dir_find_one. cbn [as_dentry de_inode de_name]. rewrite En.
        rewrite !bool_decide_eq_false_2 by congruence. by rewrite !andb_false_r.
      * intros Hne Hf Hi. rewrite dir_find_one. cbn [as_dentry de_inode de_name].
        by rewrite (proj2 (Z.eqb_neq _ _)), bool_decide_eq_true_2 by done.
      * intros x. rewrite list_elem_of_singleton. intros ->. by left.
  - destruct (put_entry e l) as [l2|]; [|done]. intros [= <-].
    pose proof (entered_app e [d] l l2 [] (IH _ eq_refl)) as He. by rewrite !app_nil_r in He.
Qed.

Lemma enter_blocks_entered e bs bs' :
  (forall b es, (b, es) ∈ bs -> Forall dentry_ok es) -> enter_blocks e bs = Some bs' ->
  entered e (entries_of bs) (entries_of bs').
Proof.
  revert bs'. induction bs as [|[b es] bs IH]; intros bs' Hok; [done|]. cbn [enter_blocks].
  destruct (put_entry e es) as [es'|] eqn:Ep.
  - intros [= <-]. apply (entered_app e [] es es' (entries_of bs)). apply put_entry_entered; [|done]. apply (Hok b). by left.
  - destruct (enter_blocks e bs) as [bs2|] eqn:Eb; [|done]. intros [= <-].
    pose proof (entered_app e es _ _ [] (IH bs2 ltac:(intros b' es' Hin; apply (Hok b'); by right) eq_refl)) as He.
    by rewrite !app_nil_r in He.
Qed.

Lemma enter_blocks_numbers e bs bs' : enter_blocks e bs = Some bs' -> bs'.*1 = bs.*1.
Proof.
  revert bs'. induction bs as [|[b es] bs IH]; intros bs'; [done|]. cbn [enter_blocks].
  destruct (put_entry e es); [by intros [= <-]|]. destruct (enter_blocks e bs) as [bs2|]; [|done].
  intros [= <-]. cbn [fmap list_fmap fst]. by rewrite (IH bs2).
Qed.
End Entering.

(** ** The tree with a new node *)

Section New_file.
Implicit Types (fs : gmap Z node) (e : entry_t) (bs : list (Z * list dentry)).

Definition create_in fs (d x : Z) st bs' ind (nd : node) : gmap Z node :=
  <[x := nd]> (<[d := Dir st bs' ind]> fs).

Lemma create_in_lookup fs d x st bs bs' ind nx n nd :
  fs !! d = Some (Dir st bs ind) -> fs !! x = None -> create_in fs d x st bs' ind nx !! n = Some nd ->
  n = x /\ nd = nx \/ n = d /\ nd = Dir st bs' ind \/ n <> x /\ n <> d /\ fs !! n = Some nd.
Proof.
  intros Hd Hx. unfold create_in. rewrite lookup_insert_Some. intros [[<- <-]|[Hne Hn]]; [by left|right].
  apply lookup_insert_Some in Hn as [[<- <-]|[Hne' Hn]]; [by left|right]. done.
Qed.

Lemma create_in_keeps fs d x st bs bs' ind nx n nd :
  fs !! d = Some (Dir st bs ind) -> fs !! x = None -> fs !! n = Some nd ->
  create_in fs d x st bs' ind nx !! n = Some (if decide (n = d) then Dir st bs' ind else nd).
Proof.
  intros Hd Hx Hn. unfold create_in. rewrite lookup_insert_ne by congruence.
  case_decide as E; [by rewrite E, lookup_insert_eq|by rewrite lookup_insert_ne by done].
Qed.

(** The new node shares no block, and its entries name it or nodes that are there. *)
Record new_node fs (x : Z) (nx : node) : Prop := {
  nn_nodup : NoDup (node_blocks nx);
  nn_apart : forall n nd b, fs !! n = Some nd -> b ∈ node_blocks nx -> b ∉ node_blocks nd;
  nn_entries : forall st bs ind (e : dentry), nx = Dir st bs ind -> e ∈ entries_of bs -> de_inode e <> 0 ->
    de_inode e = x \/ is_Some (fs !! de_inode e)
}.

Lemma new_file_ok fs x nst : new_node fs x (File nst [] []).
Proof. split; [constructor|by intros n nd b _ ?%not_elem_of_nil|done]. Qed.

Lemma tree_created fs d x st bs bs' ind nx e :
  tree_ok fs -> fs !! d = Some (Dir st bs ind) -> fs !! x = None -> bs'.*1 = bs.*1 ->
  entered e (entries_of bs) (entries_of bs') -> inode_number e = x -> new_node fs x nx ->
  tree_ok (create_in fs d x st bs' ind nx).
Proof.
  intros [Hroot Hclosed Hnodup Hapart] Hd Hx Hbs Hen He [Nnd Nap Nen].
  assert (forall n nd, create_in fs d x st bs' ind nx !! n = Some nd -> n = x /\ nd = nx \/
            n <> x /\ exists nd0, fs !! n = Some nd0 /\ node_blocks nd0 = node_blocks nd) as Hback.
  { intros n nd Hn. destruct (create_in_lookup _ _ _ _ _ _ _ _ _ _ Hd Hx Hn)
      as [H|[[-> ->]|(Hnx & _ & Hn')]]; [by left|right..]; [|split; [done|by exists nd]].
    split; [congruence|]. exists (Dir st bs ind). split; [done|]. cbn. by rewrite Hbs. }
  assert (forall n, is_Some (fs !! n) -> is_Some (create_in fs d x st bs' ind nx !! n)) as Hkept.
  { intros n [nd Hn]. rewrite (create_in_keeps _ _ _ _ _ _ _ _ _ _ Hd Hx Hn). done. }
  assert (is_Some (create_in fs d x st bs' ind nx !! x)) as Hnew by (unfold create_in; rewrite lookup_insert_eq; eauto).
  split.
  - destruct Hroot as (st0 & bs0 & ind0 & Hr). rewrite (create_in_keeps _ _ _ _ _ _ _ _ _ _ Hd Hx Hr).
    case_decide; eauto.
  - intros n st0 bs0 ind0 de Hn Hde Hz.
    destruct (create_in_lookup _ _ _ _ _ _ _ _ _ _ Hd Hx Hn) as [[-> Enx]|[[-> [= -> -> ->]]|(_ & _ & Hn')]].
    + destruct (Nen _ _ _ de (eq_sym Enx) Hde Hz) as [->|H]; [done|by apply Hkept].
    + destruct (en_inodes _ _ _ Hen de Hde) as [E|(d0 & Hd0 & E)]; [by rewrite E, He|].
      rewrite <- E in *. apply Hkept. by apply (Hclosed d st bs ind d0).
    + apply Hkept. by apply (Hclosed n st0 bs0 ind0 de).
  - intros n nd Hn. destruct (Hback n nd Hn) as [[_ ->]|(_ & nd0 & Hn0 & <-)]; [done|by apply (Hnodup n)].
  - intros n n' nd nd' b Hn Hn' Hne Hb Hb'.
    destruct (Hback n nd Hn) as [[-> ->]|(_ & nd0 & Hn0 & E0)]; destruct (Hback n' nd' Hn') as [[-> ->]|(_ & nd1 & Hn1 & E1)];
      rewrite <- ?E0, <- ?E1 in *.
    + done.
    + by apply (Nap n' nd1 b).
    + by apply (Nap n nd0 b).
    + by apply (Hapart n n' nd0 nd1 b Hn0 Hn1 Hne).
Qed.

(** Every path leads where it led, and the new name to the new file. *)
Lemma walk_kept fs d x st bs bs' ind nx e :
  fs !! d = Some (Dir st bs ind) -> fs !! x = None ->
  entered e (entries_of bs) (entries_of bs') -> dir_find (file_name e) (entries_of bs) = None ->
  forall ns n k, Forall name_ok ns -> tree_walk fs n ns = Some (Some k) ->
    tree_walk (create_in fs d x st bs' ind nx) n ns = Some (Some k).
Proof.
  intros Hd Hx Hen Hnew ns. induction ns as [|name ns IH]; intros n k Hns; [done|].
  apply Forall_cons in Hns as [[Hne _] Hns]. cbn [tree_walk].
  destruct (fs !! n) as [nd|] eqn:En; [|done]. rewrite (create_in_keeps _ _ _ _ _ _ _ _ _ _ Hd Hx En).
  case_decide as E.
  - rewrite E, Hd in En. injection En as <-. destruct (decide (name = file_name e)) as [->|Hnn].
    + by rewrite Hnew.
    + rewrite (en_other _ _ _ Hen) by done. destruct (dir_find name (entries_of bs)); [by apply IH|done].
  - destruct nd as [st0 bs0 ind0| |]; [|done..]. destruct (dir_find name (entries_of bs0)); [by apply IH|done].
Qed.

Lemma tree_walk_app fs n ns ns' :
  tree_walk fs n (ns ++ ns') =
  match tree_walk fs n ns with Some (Some k) => tree_walk fs k ns' | r => r end.
Proof.
  revert n. induction ns as [|name ns IH]; intros n; [done|]. cbn [app tree_walk].
  destruct (fs !! n) as [[st bs ind| |]|]; [|done..]. by destruct (dir_find name (entries_of bs)).
Qed.

Lemma walk_new fs d x st bs bs' ind nx e ns n :
  fs !! d = Some (Dir st bs ind) -> fs !! x = None ->
  entered e (entries_of bs) (entries_of bs') -> dir_find (file_name e) (entries_of bs) = None ->
  inode_number e = x -> x <> 0 -> file_name e <> [] ->
  Forall name_ok ns -> tree_walk fs n ns = Some (Some d) ->
  tree_walk (create_in fs d x st bs' ind nx) n (ns ++ [file_name e]) = Some (Some x).
Proof.
  intros Hd Hx Hen Hnew He Hx0 Hne Hns Hw. rewrite tree_walk_app, (walk_kept fs d x st bs bs' ind nx e) with (k := d) by done.
  cbn [tree_walk]. rewrite (create_in_keeps _ _ _ _ _ _ _ _ _ _ Hd Hx Hd), decide_True by done.
  rewrite (en_new _ _ _ Hen Hne Hnew) by congruence. by rewrite He.
Qed.
End New_file.

(** ** The writes of the code *)

Section Writing.
Context {Super_constants : Superblock_constants} {SO : Superblock_ok}.
Implicit Types (m : mem) (i b : Z) (e : entry_t) (bs : list (Z * list dentry)).

Lemma copy_entry_mem_ok m a e : mem_ok m -> bytes (file_name e) -> mem_ok (copy_entry m a e).
Proof.
  intros Hm He. unfold copy_entry. apply memcpy_bytes_mem_ok; [|by apply Forall_take].
  by repeat (apply store_byte_mem_ok || apply store_mem_ok).
Qed.

Lemma attach_in_block_mem_ok fuel m end_ a e m' :
  mem_ok m -> bytes (file_name e) -> attach_in_block fuel m end_ a e = Ok (Some m') -> mem_ok m'.
Proof.
  intros Hm He. revert a. induction fuel as [|fuel IH]; intros a; cbn [attach_in_block]; [by case_match|].
  destruct (a <? end_); [|done]. case_match; [|apply IH].
  intros [= <-]. case_match; apply copy_entry_mem_ok; try done. by apply store_mem_ok.
Qed.

Lemma attach_in_blocks_dir m e bs bs' :
  mem_ok m -> NoDup (bs.*1) ->
  (forall b b' x, b ∈ bs.*1 -> b' ∈ bs.*1 -> b <> b' -> in_block b' x -> ~ in_block b x) ->
  (forall b es, (b, es) ∈ bs -> dir_block m (block_addr b) es (block_addr b + BLOCK_SIZE)) ->
  new_ok e -> enter_blocks e bs = Some bs' ->
  exists m' b, attach_in_blocks m (bs.*1) e = Ok (Some m') /\ b ∈ bs.*1 /\ mem_ok m' /\
    (forall x, ~ in_block b x -> m' x = m x) /\ bs'.*1 = bs.*1 /\
    (forall b es, (b, es) ∈ bs' -> dir_block m' (block_addr b) es (block_addr b + BLOCK_SIZE)).
Proof.
  intros Hm Hnd Hap Hb He. revert bs'. induction bs as [|[b es] bs IH]; intros bs' Hen; [done|].
  cbn [enter_blocks fmap list_fmap fst] in *. apply NoDup_cons in Hnd as [Hni Hnd].
  pose proof (Hb b es ltac:(by left)) as Hbk. pose proof block_size_pos.
  pose proof (dir_block_fuel _ _ _ _ Hbk ltac:(lia)) as Hf.
  replace (block_addr b + BLOCK_SIZE - block_addr b) with BLOCK_SIZE in Hf by lia. fold block_fuel in Hf.
  pose proof (attach_in_block_put _ _ _ _ _ e Hbk He Hf) as Ha. cbn [attach_in_blocks].
  destruct (put_entry e es) as [es'|].
  - injection Hen as <-. destruct Ha as (m' & Ha & Hb' & Ho). exists m', b. rewrite Ha.
    split_and!; [done|by left| | |done|].
    + eapply attach_in_block_mem_ok; [exact Hm|apply He|exact Ha].
    + intros x Hx. apply Ho. unfold in_block in Hx. lia.
    + intros b2 es2 [[= -> ->]|Hin]%elem_of_cons; [done|].
      apply (block_ext m); [|apply Hb; by right]. intros x Hx. apply Ho.
      assert (b2 ∈ bs.*1) as Hin2 by (apply list_elem_of_fmap; by exists (b2, es2)).
      assert (~ in_block b x) as Hnot; [|unfold in_block in Hnot; lia].
      apply (Hap b b2); [by left|by right|congruence|done].
  - rewrite Ha. destruct (enter_blocks e bs) as [bs2|] eqn:Eb; [|done]. injection Hen as <-.
    destruct (IH Hnd) with (bs' := bs2) as (m' & c & Hat & Hc & Hm' & Ho & Ef & Hb'); [..|done|].
    { intros b1 b2 x H1 H2. apply Hap; by right. }
    { intros b2 es2 Hin. apply Hb. by right. }
    exists m', c. cbn [fmap list_fmap fst]. split_and!; [done|by right|done|done|by rewrite Ef|].
    intros b2 es2 [[= -> ->]|Hin]%elem_of_cons; [|by apply Hb'].
    apply (block_ext m); [|done]. intros x Hx. apply Ho. apply (Hap c b); [by right|by left|congruence|done].
Qed.

(** What setFileInode, setDirInode and Clear_Inode write. *)
Definition filled_inode m i (blocks links mode size : Z) : mem :=
  clear_pointers (Inode.set_size (Inode.set_mode (Inode.set_links_count (Inode.set_blocks m i blocks) i links) i mode) i size) i.

Definition new_file_inode m i (mode : Z) : mem := filled_inode m i 0 1 (Z.lor mode EXT2_IFREG) 0.

Definition new_file_stat (mode : Z) : istat :=
  {| i_mode := u16 (Z.lor mode EXT2_IFREG); i_links := 1; i_size := 0 |}.

Lemma clear_pointers_outside m i x : x < i + 40 \/ i + 100 <= x -> clear_pointers m i x = m x.
Proof.
  intros Hx. unfold clear_pointers, store32, store, write_words, Inode.pointer_data_0, Inode.pointer_data_1,
    Inode.pointer_data_2, Inode.pointer_data_3.
  change (zlen (replicate 12 0)) with 12. by decide_ranges.
Qed.

Lemma clear_pointers_load w m i a :
  a + Z.of_nat w <= i + 40 -> load w (clear_pointers m i) a = load w m a.
Proof. intros Ha. apply load_ext. intros x Hx. apply clear_pointers_outside. lia. Qed.

Lemma filled_outside m i blocks links mode size x : ~ in_inode i x -> filled_inode m i blocks links mode size x = m x.
Proof.
  intros Hx. unfold in_inode, sizeof_inode in Hx. unfold filled_inode. rewrite clear_pointers_outside by lia.
  unfold Inode.set_size, Inode.set_mode, Inode.set_links_count, Inode.set_blocks, store32, store16, store.
  by decide_ranges.
Qed.

Lemma filled_mem_ok m i blocks links mode size : mem_ok m -> mem_ok (filled_inode m i blocks links mode size).
Proof. intros Hm. unfold filled_inode, clear_pointers. by repeat (apply store_mem_ok || apply write_words_mem_ok). Qed.

Lemma filled_fields m i blocks links mode size :
  stat_at (filled_inode m i blocks links mode size) i {| i_mode := u16 mode; i_links := u16 links; i_size := s32 (u32 size) |} /\
  Inode.blocks (filled_inode m i blocks links mode size) i = u32 blocks.
Proof.
  unfold filled_inode. split; [split|]; cbn [i_mode i_links i_size];
    unfold Inode.mode, Inode.links_count, Inode.size, Inode.blocks, Inode.set_size, Inode.set_mode,
      Inode.set_links_count, Inode.set_blocks, load16, load32, store16, store32; rewrite clear_pointers_load by lia.
  - rewrite (load_store_other 2 4) by lia. apply load16_store16_same.
  - rewrite (load_store_other 2 4), (load_store_other 2 2) by lia. apply load16_store16_same.
  - f_equal. apply load32_store32_same.
  - rewrite (load_store_other 4 4), (load_store_other 4 2), (load_store_other 4 2) by lia. apply load32_store32_same.
Qed.

Lemma regular_mode mode : has_mode (u16 (Z.lor mode EXT2_IFREG)) EXT2_IFREG = true.
Proof.
  unfold has_mode. apply negb_true_iff, Z.eqb_neq. intros E.
  apply (f_equal (fun z => Z.testbit z 15)) in E. rewrite Z.bits_0, Z.land_spec in E.
  unfold u16 in E. rewrite Z.mod_pow2_bits_low, Z.lor_spec, andb_comm in E by lia.
  change (Z.testbit EXT2_IFREG 15) with true in E. by rewrite orb_true_r in E.
Qed.

(** No pointer is left. *)
Lemma filled_pointers m i blocks links mode size k :
  0 <= k < 15 -> load32 (filled_inode m i blocks links mode size) (i + 40 + 4 * k) = 0.
Proof.
  intros Hk. unfold filled_inode. set (m1 := Inode.set_size _ _ _). unfold clear_pointers.
  set (m2 := write_words _ _ _). unfold Inode.pointer_data_1, Inode.pointer_data_2, Inode.pointer_data_3.
  destruct (decide (k = 14)) as [->|].
  { replace (i + 40 + 4 * 14) with (i + 96) by lia. apply load32_store32_same. }
  unfold load32 at 1, store32 at 1. rewrite (load_store_other 4 4) by lia.
  destruct (decide (k = 13)) as [->|].
  { replace (i + 40 + 4 * 13) with (i + 92) by lia. apply load32_store32_same. }
  unfold store32 at 1. rewrite (load_store_other 4 4) by lia.
  destruct (decide (k = 12)) as [->|].
  { replace (i + 40 + 4 * 12) with (i + 88) by lia. apply load32_store32_same. }
  unfold store32. rewrite (load_store_other 4 4) by lia.
  unfold m2. change (load 4 ?m ?a) with (load32 m a).
  unfold Inode.pointer_data_0. rewrite Z.add_0_r. apply (load32_write_words _ _ _ _ 0); [lia|].
  apply lookup_replicate. split; [done|lia].
Qed.

Lemma new_file_node m i mode : node_at (new_file_inode m i mode) i (File (new_file_stat mode) [] []).
Proof.
  destruct (filled_fields m i 0 1 (Z.lor mode EXT2_IFREG) 0) as [Hst _]. split; [exact Hst|]. destruct Hst as [H1 _ H3].
  fold (new_file_inode m i mode) in H1, H3.
  split; [|by rewrite H3|by rewrite H3|by intros m' _ [|k] b|].
  - rewrite H1. apply regular_mode.
  - intros k Hk. change (zlen []) with 0 in Hk. apply filled_pointers. lia.
Qed.

(** No pointer is left in a new file, and no block is counted. *)
Lemma new_file_empty m i mode :
  Inode.blocks (new_file_inode m i mode) i = 0 /\
  (forall k, 0 <= k < 15 -> load32 (new_file_inode m i mode) (i + 40 + 4 * k) = 0).
Proof. split; [apply (filled_fields m i 0)|intros k Hk; by apply filled_pointers]. Qed.
End Writing.
