(* ===== verification/Creates.v ===== *)
(** * Creates: a new file, end to end on the tree

    [create_file_dir] of [file_operations.c] for a regular file, against the
    tree of [Tree]: the image that held a tree holds it with one more file in
    the directory, and every path leads where it led. *)

From S2P Require Import Prelude Memory Bitarray Ext2 Ext2Facts CString Paths Rfs ActiveFiles Alloc AllocFacts InodeAlloc BlockMap Dirs DirFacts Walk FileOps Serial Requests SerialFacts Lookups Tree TreeSteps Enters.

(** ** The operation *)

Section Operation.
Context {Super_constants : Superblock_constants} {SO : Superblock_ok} {WA : Word_after_array}.
Context {C : Type} `{Memcached C}.
Abbreviation R := (rfs C).
Implicit Types (s : R) (m : mem) (refs : list nat) (fs : gmap Z node).

Lemma parent_shorter ns nm :
  Forall name_ok (ns ++ [nm]) -> (length (parent_spelling ns) < length (abs_path (ns ++ [nm])))%nat.
Proof.
  intros Hok. apply Forall_app in Hok as [Hns Hnm]. pose proof (join_nonempty [nm] Hnm ltac:(done)) as Hl.
  destruct ns as [|n [|n' ns]].
  - unfold abs_path. simpl in *. lia.
  - rewrite abs_path_app, length_app, length_dir_path by done. simpl in *. lia.
  - rewrite abs_path_app, length_app by done. unfold parent_spelling. lia.
Qed.

(** The table entry of the parent, and the walk to it. *)
Lemma parent_bracket s refs id ns nm r :
  table_ok s (id :: refs) -> path_at s id = Some (abs_path (ns ++ [nm])) ->
  zlen refs + zlen ns + 3 < 2 ^ 32 - 1 -> Forall name_ok (ns ++ [nm]) -> path_resolves (file s) ns r ->
  exists par s1 s2, find_parent (abs_path (ns ++ [nm])) s = Ok (par, s1) /\
    path_of par s1 = Ok (parent_spelling ns, s1) /\
    inode_of_file (parent_spelling ns) s1 = Ok (walk_result r, s2) /\
    table_ok s2 (par :: id :: refs) /\ par <> id /\
    (forall j, j ∈ id :: refs -> path_at s2 j = path_at s j) /\ after (walk_errno r (errno s)) s s2.
Proof.
  intros Hok Hat Hlen Hns Hres. pose proof (zlen_nonneg ns).
  destruct (split_path_names (ns ++ [nm]) Hns ltac:(by destruct ns)) as (ps & Hsp & _).
  pose proof (parent_entry_spelling ns nm _ Hns Hsp) as Hpar.
  destruct (find_inv s (id :: refs) _ (parent_spelling ns) Hok) as (par & s1 & Hr1 & Hok1 & Hat1 & _ & Hst1 & Hm1);
    [rewrite zlen_cons; lia|done|].
  apply after_moved in Hm1. destruct (after_file _ _ _ Hm1) as [Hf1 He1].
  destruct (inode_of_parent_ok s1 (par :: id :: refs) ns nm r Hok1) as (s2 & Hr2 & Hok2 & Hst2 & Hm2);
    [rewrite !zlen_cons; lia|done|by rewrite Hf1|]. rewrite He1 in Hm2.
  exists par, s1, s2. split_and!; try done.
  - unfold find_parent. rewrite Hsp. rewrite (bind_ok _ _ s ([slash] :: ps) s) by done. by rewrite Hpar.
  - unfold path_of, the_file. unfold path_at in Hat1. apply fmap_Some in Hat1 as (a & Ha & ->).
    unfold mbind, M_bind, get_files, gets. by rewrite Ha.
  - intros ->. assert (Some (parent_spelling ns) = Some (abs_path (ns ++ [nm]))) as E.
    { rewrite <- Hat1, <- Hat. apply Hst1. by left. }
    pose proof (parent_shorter ns nm Hns) as Hs. injection E as E. rewrite E in Hs. lia.
  - intros j Hj. rewrite Hst2, Hst1; [done|done|by right].
  - by eapply after_trans.
Qed.

(** With the lock of the parent's spelling held for writing. *)
Lemma parent_lock_excludes s refs lk par ns :
  table_inv s refs lk -> par ∈ refs -> path_at s par = Some (parent_spelling ns) -> lk par = write_locked ->
  (forall j, j <> par -> lk j = unlocked) -> zlen refs < 2 ^ 32 - 1 ->
  ((1 < length ns)%nat ->
     exists id s1 s2, active_file_list_find (abs_path ns) s = Ok (id, s1) /\ id <> par /\ RDLOCK id s1 = Ok (tt, s2)) /\
  ((length ns <= 1)%nat -> active_file_list_find (abs_path ns) s = Fail Deadlock).
Proof.
  intros Hok Hpar Hat Hlk Hothers Hlen. split.
  - intros Hns. assert (parent_spelling ns <> abs_path ns) as Hne.
    { intros E. apply (f_equal length) in E. destruct ns as [|n [|n' ns]]; [simpl in Hns; lia..|].
      unfold parent_spelling in E. rewrite length_dir_path in E. lia. }
    destruct (find_inv s refs lk (abs_path ns) Hok Hlen) as (id & s1 & Hrun & Hok1 & Hat1 & Hlk1 & Hst1 & _).
    { intros j Hj. apply Hothers. intros ->. congruence. }
    exists id, s1. pose proof Hat1 as Hid. rewrite <- (Hst1 par Hpar) in Hat.
    destruct (with_lock_inv s1 (id :: refs) lk id (fun k => if writer k then Fail Deadlock
      else Ok {| readers := S (readers k); writer := false |}) {| readers := 1; writer := false |} Hok1)
      as (s2 & Hrd & _); [by left|by rewrite Hlk1|].
    exists s2. split_and!; [done| |exact Hrd]. intros ->. congruence.
  - intros Hns. assert (parent_spelling ns = abs_path ns) as E by by destruct ns as [|n [|]]; [..|simpl in Hns; lia].
    rewrite E in Hat. unfold active_file_list_find. rewrite (bind_ok _ _ s (active_file_list s) s) by done.
    destruct Hok as [Hp Hi Hf Hu Hl Hc Hr].
    apply fmap_Some in Hat as (a & Ha & Hpa). apply find_id_Some in Ha as [Hin Haid].
    destruct (list_find _ (active_file_list s)) as [[k b]|] eqn:Ef.
    + apply list_find_Some in Ef as (Hk & Hb & _). apply cmp_str_spec in Hb.
      assert (b = a) as ->.
      { apply list_elem_of_lookup in Hin as [ka Hka].
        assert (k = ka) as -> by (eapply (NoDup_lookup _ k ka (abs_path ns) Hp); rewrite list_lookup_fmap;
          [rewrite Hk|rewrite Hka]; simpl; congruence). congruence. }
      unfold mbind at 1, M_bind at 1, WRLOCK. rewrite (with_lock_fails s (af_id a) _ a Deadlock Hi Hin eq_refl); [done|].
      rewrite Forall_forall in Hu. by rewrite (Hu a Hin), Haid, Hlk.
    + exfalso. apply list_find_None in Ef. rewrite Forall_forall in Ef. apply (Ef a Hin). by apply cmp_str_spec.
Qed.

(** C36: A directory below the first level has two locks: when an operation on the path of [nm] in it has found
    the directory as the parent and locked it for writing, as creations and deletions do, the directory
    itself is found under another entry of the table, and its lock for reading is taken at once: [split_path]
    spells the parent with a trailing '/'.  The root and the directories in it have one lock, and finding
    them waits. *)
Theorem directories_have_two_locks s refs ns nm :
  table_ok s refs -> Forall name_ok (ns ++ [nm]) -> zlen refs + 1 < 2 ^ 32 - 1 ->
  exists par s1 s2, find_parent (abs_path (ns ++ [nm])) s = Ok (par, s1) /\ WRLOCK par s1 = Ok (tt, s2) /\
    ((1 < length ns)%nat ->
       exists id s3 s4, active_file_list_find (abs_path ns) s2 = Ok (id, s3) /\ id <> par /\ RDLOCK id s3 = Ok (tt, s4)) /\
    ((length ns <= 1)%nat -> active_file_list_find (abs_path ns) s2 = Fail Deadlock).
Proof.
  intros Hok Hns Hlen. destruct (split_path_names (ns ++ [nm]) Hns ltac:(by destruct ns)) as (ps & Hsp & _).
  pose proof (parent_entry_spelling ns nm _ Hns Hsp) as Hpar.
  destruct (find_inv s refs _ (parent_spelling ns) Hok) as (par & s1 & Hr1 & Hok1 & Hat1 & _); [lia|done|].
  destruct (WRLOCK_free s1 (par :: refs) _ par Hok1) as (s2 & Hr2 & Hok2 & Hst2 & _); [by left|done|].
  exists par, s1, s2. split.
  { unfold find_parent. rewrite Hsp, (bind_ok _ _ s ([slash] :: ps) s) by done. by rewrite Hpar. }
  split; [done|]. eapply (parent_lock_excludes s2 (par :: refs) _ par ns Hok2).
  - by left.
  - by rewrite Hst2.
  - apply set_lk_same.
  - intros j Hj. by rewrite set_lk_other.
  - rewrite zlen_cons. lia.
Qed.

(** Both write locks, and the way back; the states in between may differ in
    the image, errno and the cache. *)
Lemma pair_locks s refs par id :
  table_ok s (par :: id :: refs) -> par <> id -> zlen refs + 2 < 2 ^ 32 ->
  exists s1, WRLOCK par s = Ok (tt, s1) /\ table_moved s s1 /\ (forall j, path_at s1 j = path_at s j) /\
    forall t, same_table s1 t -> exists t1, WRLOCK id t = Ok (tt, t1) /\ table_moved t t1 /\
      (forall j, path_at t1 j = path_at s j) /\
      forall u, same_table t1 u -> exists u1 u2 u3 u4,
        UNLOCK id u = Ok (tt, u1) /\ UNLOCK par u1 = Ok (tt, u2) /\
        active_file_finished_using id u2 = Ok (tt, u3) /\ active_file_finished_using par u3 = Ok (tt, u4) /\
        table_ok u4 refs /\ table_moved u u4 /\ (forall j, j ∈ refs -> path_at u4 j = path_at s j).
Proof.
  intros Hok Hne Hlen. set (all := par :: id :: refs) in *.
  assert (par ∈ all) as Hpar by by left. assert (id ∈ all) as Hid by (right; by left).
  destruct (WRLOCK_free s all _ par Hok Hpar eq_refl) as (s1 & H1 & Hok1 & Hst1 & Hm1).
  exists s1. split_and!; [done..|]. intros t Ht. apply (table_inv_same _ _ _ _ Ht) in Hok1.
  destruct (WRLOCK_free t all _ id Hok1 Hid) as (t1 & H2 & Hok2 & Hst2 & Hm2); [by rewrite set_lk_other by done|].
  exists t1. split_and!; [done|done|intros j; by rewrite Hst2, (path_at_same _ _ _ Ht), Hst1|].
  intros u Hu. apply (table_inv_same _ _ _ _ Hu) in Hok2.
  destruct (UNLOCK_writer u all _ id Hok2 Hid) as (u1 & H3 & Hok3 & Hst3 & Hm3); [apply set_lk_same|].
  apply table_inv_ext with (lk' := set_lk par write_locked (fun _ => unlocked)) in Hok3;
    [|intros j; apply set_lk_undo; by rewrite set_lk_other by done].
  destruct (UNLOCK_writer u1 all _ par Hok3 Hpar) as (u2 & H4 & Hok4 & Hst4 & Hm4); [apply set_lk_same|].
  apply table_inv_ext with (lk' := fun _ => unlocked) in Hok4; [|intros j; by apply set_lk_undo].
  destruct (finish_inv u2 all (par :: refs) _ id Hok4) as (u3 & H5 & Hok5 & _ & Hst5 & Hm5);
    [apply Permutation_swap|unfold all; rewrite !zlen_cons; lia|done|].
  destruct (finish_inv u3 (par :: refs) refs _ par Hok5) as (u4 & H6 & Hok6 & _ & Hst6 & Hm6);
    [done|rewrite zlen_cons; lia|done|].
  exists u1, u2, u3, u4. split_and!; try done.
  - unfold table_moved in *. rewrite Hm6 at 1. rewrite Hm5 at 1. rewrite Hm4 at 1. rewrite Hm3 at 1. done.
  - intros j Hj. rewrite Hst6, Hst5, Hst4, Hst3, (path_at_same _ _ _ Hu), Hst2, (path_at_same _ _ _ Ht), Hst1;
      [done|by right|done].
Qed.

Lemma attach_entry_ok s i e bs ind fuel m' :
  dir_at (file s) i bs ind -> (forall b, b ∈ bs.*1 -> b <> 0) ->
  attach_in_blocks (file s) (bs.*1) e = Ok (Some m') -> attach_entry (S fuel) (Some i) e s = Ok (true, with_file m' s).
Proof.
  intros Hd Hz Hat. cbn [attach_entry]. rewrite (bind_ok _ _ s i s) by done.
  rewrite (bind_ok _ _ s (file s) s) by done. pose proof (dir_blocks_size _ _ _ _ Hd) as Hsize.
  by rewrite (dir_addresses _ _ _ _ _ Hd Hsize), until_EMPTY_all, Hat.
Qed.

Lemma create_entry_ok nm x :
  zlen nm < 256 -> bytes nm -> 0 <= x < 2 ^ 32 -> new_ok (create_entry nm x).
Proof.
  intros Hl Hb Hx. pose proof (zlen_nonneg nm). unfold create_entry, strlen, sizeof_entry.
  split; cbn [inode_number entry_len file_type file_name name_len]; rewrite ?u16_small, ?u8_small by lia; try done.
Qed.

(** The image with the new entry. *)
Lemma entry_attached m1 fs d st bs bs' ind x nm :
  holds m1 fs -> tree_ok fs -> fs !! d = Some (Dir st bs ind) ->
  1 <= x <= TOTAL_GROUPS * INODES_PER_GROUP ->
  nm <> [] -> zlen nm < 256 -> bytes nm -> enter_blocks (create_entry nm x) bs = Some bs' ->
  exists m2 b, attach_in_blocks m1 (bs.*1) (create_entry nm x) = Ok (Some m2) /\ b ∈ bs.*1 /\
    (forall y, ~ in_block b y -> m2 y = m1 y) /\ holds m2 (<[d := Dir st bs' ind]> fs) /\
    free_inodes m2 = free_inodes m1 /\ free_blocks m2 = free_blocks m1 /\
    same_descriptors m1 m2 /\ same_tables m1 m2.
Proof.
  intros Hh Hok Hd Hrange Hne Hlen Hby Hen.
  pose proof Hh as [Hio Ht _ _ Hnode Htk]. pose proof (io_ok m1 Hio) as Hgo. pose proof (io_max m1 Hgo).
  pose proof (Hnode d _ Hd) as [_ Hdir].
  assert (forall b, b ∈ bs.*1 -> taken_block m1 b) as Htb.
  { intros b Hb. apply (Htk d _ b Hd). apply elem_of_app. by left. }
  destruct (attach_in_blocks_dir m1 (create_entry nm x) bs bs') as (m2 & b & Hat & Hb & Hm2 & X2 & Ef & Hblocks).
  - apply (al_mem m1 (io_alloc m1 Hgo)).
  - pose proof (to_nodup fs Hok d _ Hd) as Hnd. by apply NoDup_app in Hnd as [? _].
  - intros b b' y Hb Hb' Hbb. apply (blocks_apart m1 b' b); auto.
  - apply (da_blocks _ _ _ _ Hdir).
  - apply create_entry_ok; [done..|lia].
  - done.
  - exists m2, b. split; [done|]. split; [done|]. split; [done|].
    split; [by apply (holds_dir_written m1 m2 fs d st bs bs' ind b)|].
    destruct (control_frame m1 m2 Hio Hm2) as (_ & E2 & E3 & D2 & T2); [|done].
    intros y Hy. apply X2. intros Hyb. apply (tb_data m1 b (Htb b Hb) y Hyb). by apply control_system.
Qed.

(** The image after the three writes of a creation, and the tree it holds. *)
Lemma created_image m1 fs d st bs bs' ind x nm mode :
  holds m1 fs -> tree_ok fs -> fs !! d = Some (Dir st bs ind) -> fs !! x = None ->
  1 <= x <= TOTAL_GROUPS * INODES_PER_GROUP -> x ∉ free_inodes m1 ->
  nm <> [] -> zlen nm < 256 -> bytes nm -> enter_blocks (create_entry nm x) bs = Some bs' ->
  exists m2 b, attach_in_blocks m1 (bs.*1) (create_entry nm x) = Ok (Some m2) /\ b ∈ bs.*1 /\
    (forall y, ~ in_block b y -> m2 y = m1 y) /\
    inode_place m2 x = inode_place m1 x /\
    let m3 := new_file_inode m2 (inode_place m1 x) mode in
    holds m3 (create_in fs d x st bs' ind (File (new_file_stat mode) [] [])) /\ free_inodes m3 = free_inodes m1 /\
    free_blocks m3 = free_blocks m1 /\ inode_place m3 x = inode_place m1 x /\
    same_descriptors m1 m3 /\ same_tables m1 m3.
Proof.
  intros Hh Hok Hd Hx Hrange Hfree Hne Hlen Hby Hen. pose proof (io_ok m1 (ho_inodes _ _ Hh)) as Hgo.
  destruct (entry_attached m1 fs d st bs bs' ind x nm) as (m2 & b & Hat & Hb & X2 & Hh2 & E2 & B2 & D2 & T2); [done..|].
  exists m2, b. split; [done|]. split; [done|]. split; [done|].
  assert (inode_place m2 x = inode_place m1 x) as Ep.
  { apply place_same; [done|]. apply (place_range x); [apply Hgo|apply Hgo|done]. }
  split; [done|]. cbv zeta. rewrite <- Ep.
  set (m3 := new_file_inode m2 (inode_place m2 x) mode).
  assert (mem_ok m3) as Hm3 by (apply filled_mem_ok, (al_mem m2 (io_alloc m2 (io_ok m2 (ho_inodes _ _ Hh2))))).
  assert (forall y, ~ in_inode (inode_place m2 x) y -> m3 y = m2 y) as X3 by (intros; by apply filled_outside).
  assert (<[d := Dir st bs' ind]> fs !! x = None) as Hx' by (rewrite lookup_insert_ne; [done|congruence]).
  destruct (holds_spare_inode m2 m3 _ x Hh2 Hrange Hx' Hm3 X3) as (_ & E3 & B3 & E4 & D3 & T3).
  split_and!; [|congruence|congruence|congruence|by eapply same_descriptors_trans|by eapply same_tables_trans].
  apply (holds_inode_written m2); try done; [by rewrite E2|apply new_file_node].
Qed.

(** setFileInode in one step. *)
Lemma setFileInode_run s i mode : setFileInode i mode s = Ok (tt, with_file (new_file_inode (file s) i mode) s).
Proof. done. Qed.

Lemma after_with_file e m s s' : after e s s' -> after e (with_file m s) (with_file m s').
Proof. unfold after. intros ->. done. Qed.

(** What a creation of [nm] in the directory [ns] starts from: the directory
    is there, the name is not, an inode is free, and a block of the directory
    has room for the entry. *)
Record can_create s refs fs ns nm d st bs bs' ind x rest : Prop := {
  cc_ready : ready s refs (ns ++ [nm]);
  cc_holds : holds (file s) fs;
  cc_tree : tree_ok fs;
  cc_parent : tree_walk fs ROOT_INODE_NUMBER ns = Some (Some d);
  cc_dir : fs !! d = Some (Dir st bs ind);
  cc_new : dir_find nm (entries_of bs) = None;
  cc_free : free_inodes (file s) = x :: rest;
  cc_room : enter_blocks (create_entry nm x) bs = Some bs';
  cc_name : zlen nm < 256 /\ bytes nm
}.

Lemma can_create_facts s refs fs ns nm d st bs bs' ind x rest :
  can_create s refs fs ns nm d st bs bs' ind x rest ->
  path_resolves (file s) (ns ++ [nm]) None /\ path_resolves (file s) ns (Some (inode_place (file s) d, d)) /\
  1 <= x <= TOTAL_GROUPS * INODES_PER_GROUP /\ in_groups (Inode_locateGroup x) /\ fs !! x = None /\
  (x ∉ rest) /\ nm <> [] /\ (forall b, b ∈ bs.*1 -> b <> 0).
Proof.
  intros [(_ & _ & Hns) Hh Hok Hw Hd Hnew Hfree _ _]. pose proof (io_ok _ (ho_inodes _ _ Hh)) as Hgo.
  assert (x ∈ free_inodes (file s)) as Hxf by (rewrite Hfree; by left).
  pose proof (free_inode_range _ x Hgo Hxf) as Hrange.
  destruct (proj1 (Forall_app _ _ _) Hns) as [_ [[Hne _] _]%Forall_cons]. split_and!; try done; try apply Hrange.
  - apply (tree_path_resolves _ fs _ None); [done..|]. rewrite tree_walk_app, Hw. cbn [tree_walk]. by rewrite Hd, Hnew.
  - by apply (tree_path_resolves _ fs _ (Some d)).
  - apply (place_range x); [apply Hgo|apply Hgo|done].
  - apply eq_None_not_Some. intros [nd Hin]. by apply (ho_used _ _ Hh x nd Hin).
  - pose proof (free_inodes_nodup _ Hgo) as Hnd. rewrite Hfree in Hnd. by apply NoDup_cons in Hnd as [? _].
  - intros c Hc. assert (c ∈ node_blocks (Dir st bs ind)) as Hc' by (apply elem_of_app; by left).
    pose proof (tb_number _ _ (ho_taken _ _ Hh d _ c Hd Hc')). lia.
Qed.

(** The images of a creation: with the inode taken, with the entry, and with
    the inode filled. *)
Record creation s fs d st bs bs' ind x rest nm mode m1 m2 m3 : Prop := {
  cr_dir : dir_at m1 (inode_place (file s) d) bs ind;
  cr_attach : attach_in_blocks m1 (bs.*1) (create_entry nm x) = Ok (Some m2);
  cr_place : Inode_Global_Read m2 x = Some (inode_place (file s) x);
  cr_inode : m3 = new_file_inode m2 (inode_place (file s) x) mode;
  cr_place3 : inode_place m3 x = inode_place (file s) x;
  cr_holds : holds m3 (create_in fs d x st bs' ind (File (new_file_stat mode) [] []));
  cr_free : free_inodes m3 = rest;
  cr_blocks : free_blocks m3 = free_blocks (file s);
  cr_data : free_ok (file s) -> free_ok m3;
  cr_frame : forall y, ~ inode_metadata (file s) y -> (forall b, b ∈ bs.*1 -> ~ in_block b y) ->
    ~ in_inode (inode_place (file s) x) y -> m3 y = file s y
}.

Lemma creation_images s (t : R) refs fs ns nm d st bs bs' ind x rest mode :
  can_create s refs fs ns nm d st bs bs' ind x rest -> file t = file s ->
  exists m1 m2 m3, Get_Free_Inodes 1 t = Ok (Some [x], with_file m1 t) /\
    creation s fs d st bs bs' ind x rest nm mode m1 m2 m3.
Proof.
  intros Hcc Ht. destruct (can_create_facts _ _ _ _ _ _ _ _ _ _ _ _ Hcc) as (_ & _ & Hrange & Hgx & Hx & Hxr & Hne & _).
  destruct Hcc as [_ Hh Hok _ Hd _ Hfree Hroom [Hlen Hby]].
  destruct (Get_Free_Inodes_ok t x rest) as (m1 & G & Hrest & Hmoved); [rewrite Ht; apply Hh|by rewrite Ht|].
  rewrite Ht in Hmoved. rewrite <- Hrest in Hxr.
  assert (holds m1 fs) as Hh1.
  { apply (holds_inodes_moved (file s)); [done..|]. intros n nd Hin Hn. rewrite Hrest in Hn.
    apply (ho_used _ _ Hh n nd Hin). rewrite Hfree. by right. }
  destruct (created_image m1 fs d st bs bs' ind x nm mode) as (m2 & b & Hat & Hb & X2 & Ep & Hh3 & Ef & Eb & Ep3 & D3 & T3);
    [done..|]. cbv zeta in Hh3, Ef, Eb, Ep3, D3, T3.
  assert (forall n, in_groups (Inode_locateGroup n) -> inode_place m1 n = inode_place (file s) n) as Hplace
    by (intros n Hn; apply place_same; [apply Hmoved|done]).
  rewrite (Hplace x Hgx) in Hh3, Ef, Eb, Ep, Ep3, D3, T3. rewrite (im_blocks _ _ Hmoved) in Eb.
  exists m1, m2, (new_file_inode m2 (inode_place (file s) x) mode). split; [done|]. split; try done.
  - rewrite <- Hplace by by apply (in_groups_number (file s) fs d _ Hh Hd). apply (ho_node _ _ Hh1 d _ Hd).
  - by rewrite place_read, Ep.
  - by rewrite Ef.
  - intros Hfo. apply (free_ok_same (file s)); [eapply same_descriptors_trans; [apply Hmoved|done]|
      eapply same_tables_trans; [apply Hmoved|done]|intros c; rewrite Eb; apply Hfo].
  - intros y H1 H2 H3. unfold new_file_inode. rewrite filled_outside, X2 by auto. by apply (im_frame _ _ Hmoved).
Qed.

(** Up to the request for an inode: the name is new. *)
Lemma create_starts s refs ns nm r params :
  ready s refs (ns ++ [nm]) -> p_path params = abs_path (ns ++ [nm]) ->
  path_resolves (file s) (ns ++ [nm]) None -> path_resolves (file s) ns r ->
  exists new par s5, after (walk_errno r 0) s s5 /\ table_ok s5 (par :: new :: refs) /\ par <> new /\
    path_at s5 new = Some (abs_path (ns ++ [nm])) /\ (forall j, j ∈ refs -> path_at s5 j = path_at s j) /\
    create_file_dir params s =
      (n ← Get_Free_Inodes 1;
       match n with
       | None => create_finish new par (result (p_path params) (Status 1))
       | Some l => create_with_inode params new par (fst (walk_result r)) (snd (walk_result r)) (default 0 (l !! 0%nat))
       end) s5.
Proof.
  intros Hready Hp Hres1 Hres2. pose proof Hready as (_ & Hrefs & Hns).
  rewrite zlen_app in Hrefs. change (zlen [nm]) with 1 in Hrefs. pose proof (zlen_nonneg ns).
  destruct (open_bracket s refs _ None Hready Hres1) as (new & s1 & s2 & G1 & G2 & Hok2 & Hat2 & Hst2 & Ha2).
  set (s3 := with_errno 0 s2).
  assert (after 0 s s3) as Ha3 by (eapply after_trans; [exact Ha2|apply after_set_errno]).
  destruct (after_file _ _ _ Ha3) as [Hf3 _].
  destruct (parent_bracket s3 refs new ns nm r)
    as (par & s4 & s5 & G3 & G4 & G5 & Hok5 & Hpi & Hst5 & Ha5);
    [by apply table_inv_errno|done|lia|done|by rewrite Hf3|].
  exists new, par, s5. split_and!; [by eapply after_trans|done|done|rewrite Hst5; [done|by left]| |].
  - intros j Hj. rewrite Hst5 by by right. by apply Hst2.
  - unfold create_file_dir. rewrite Hp, (bind_ok _ _ _ _ _ G1), (bind_ok _ _ _ _ _ G2). cbn [walk_result fst].
    by rewrite (bind_ok _ _ s2 tt s3), (bind_ok _ _ _ _ _ G3), (bind_ok _ _ _ _ _ G4), (bind_ok _ _ _ _ _ G5) by done.
Qed.

Lemma create_with_inode_run s s5 fs d st bs bs' ind x rest ns nm params m1 m2 m3 new par refs :
  creation s fs d st bs bs' ind x rest nm (p_mode params) m1 m2 m3 ->
  after 0 s s5 -> table_ok s5 (par :: new :: refs) -> par <> new -> zlen refs + 2 < 2 ^ 32 ->
  path_at s5 new = Some (abs_path (ns ++ [nm])) -> Forall name_ok (ns ++ [nm]) ->
  (forall j, j ∈ refs -> path_at s5 j = path_at s j) -> (forall b, b ∈ bs.*1 -> b <> 0) ->
  p_file params = true ->
  exists s', create_with_inode params new par (Some (inode_place (file s) d)) d x (with_file m1 s5)
      = Ok (result (p_path params) (Status 0), s') /\ restored 0 (with_file m3 s) s' refs.
Proof.
  intros [Hdir Hat Hread Em3 _ _ _ _ _ _] Ha Hok5 Hpi Hrefs Hid Hns Hst5 Hnz Hreg.
  set (s6 := with_file m1 s5) in *.
  destruct (pair_locks s6 refs par new) as (s7 & G7 & Hm7 & Hst7 & Hcont); [by apply (table_inv_same s5)|done|lia|].
  destruct (Hcont (with_file m2 s7)) as (s8 & G8 & Hm8 & _ & Hcont8); [done|].
  destruct (Hcont8 (with_file m3 s8)) as (u1 & u2 & u3 & u4 & G9 & G10 & G11 & G12 & Hok12 & Hm12 & Hst12); [done|].
  assert (after 0 (with_file m1 s) s7) as Ha7 by (eapply after_moved_trans; [by apply (after_with_file 0 m1)|done]).
  assert (after 0 (with_file m2 s) s8) as Ha8 by (eapply after_moved_trans; [by apply (after_with_file 0 m2 _ _ Ha7)|done]).
  assert (after 0 (with_file m3 s) u4) as Ha12 by (eapply after_moved_trans; [by apply (after_with_file 0 m3 _ _ Ha8)|done]).
  assert (file s7 = m1) as Hf7 by by destruct (after_file _ _ _ Ha7).
  exists (with_errno 0 u4). split; [|split_and!].
  - unfold create_with_inode.
    rewrite (bind_ok _ _ _ _ _ (file_name_ok s6 new _ nm Hid (file_name_abs_path ns nm Hns))).
    rewrite (bind_ok _ _ _ _ _ G7), (bind_ok _ _ s7 true (with_file m2 s7)).
    2: { apply attach_entry_ok with (bs := bs) (ind := ind); rewrite ?Hf7; [exact Hdir|exact Hnz|exact Hat]. }
    cbn [negb]. rewrite (bind_ok _ _ (with_file m2 s7) m2 (with_file m2 s7)), Hread by done. cbn [deref].
    rewrite (bind_ok _ _ (with_file m2 s7) (inode_place (file s) x) (with_file m2 s7)) by done.
    rewrite (bind_ok _ _ _ _ _ G8), Hreg, (bind_ok _ _ s8 true (with_file m3 s8)).
    2: { rewrite (bind_ok _ _ _ _ _ (setFileInode_run s8 _ _)), Em3. by destruct (after_file _ _ _ Ha8) as [-> _]. }
    unfold create_settle. cbn [negb]. by rewrite (bind_ok _ _ _ _ _ G9), (bind_ok _ _ _ _ _ G10), (bind_ok _ _ _ _ _ G11), (bind_ok _ _ _ _ _ G12).
  - by apply table_inv_errno.
  - eapply after_trans; [exact Ha12|apply after_set_errno].
  - intros j Hj. change (path_at u4 j = path_at s j). rewrite Hst12 by done. by apply Hst5.
Qed.

Lemma create_file_run s refs fs ns nm d st bs bs' ind x rest params :
  can_create s refs fs ns nm d st bs bs' ind x rest ->
  p_path params = abs_path (ns ++ [nm]) -> p_file params = true ->
  exists m1 m2 m3 s', create_file_dir params s = Ok (result (p_path params) (Status 0), s') /\
    restored 0 (with_file m3 s) s' refs /\ creation s fs d st bs bs' ind x rest nm (p_mode params) m1 m2 m3.
Proof.
  intros Hcc Hp Hreg. pose proof (cc_ready _ _ _ _ _ _ _ _ _ _ _ _ Hcc) as Hready.
  pose proof Hready as (_ & Hrefs & Hns).
  destruct (can_create_facts _ _ _ _ _ _ _ _ _ _ _ _ Hcc) as (Hres1 & Hres2 & _ & _ & _ & _ & _ & Hnz).
  destruct (create_starts s refs ns nm _ params Hready Hp Hres1 Hres2)
    as (new & par & s5 & Ha & Hok5 & Hpi & Hid & Hst5 & Hrun). cbn [walk_errno walk_result fst snd] in Ha, Hrun.
  destruct (creation_images s s5 refs fs ns nm d st bs bs' ind x rest (p_mode params) Hcc)
    as (m1 & m2 & m3 & G & Hcr); [by destruct (after_file _ _ _ Ha)|].
  pose proof (zlen_nonneg (ns ++ [nm])).
  destruct (create_with_inode_run s s5 fs d st bs bs' ind x rest ns nm params m1 m2 m3 new par refs Hcr Ha Hok5 Hpi)
    as (s' & G2 & Hrest); [lia|done..|].
  exists m1, m2, m3, s'. split; [|done]. by rewrite Hrun, (bind_ok _ _ _ _ _ G).
Qed.

Lemma create_finish_ok s refs new par res :
  table_ok s (par :: new :: refs) -> zlen refs + 2 < 2 ^ 32 ->
  exists s', create_finish new par res s = Ok (res, s') /\ table_ok s' refs /\
    (forall j, j ∈ refs -> path_at s' j = path_at s j) /\ table_moved s s'.
Proof.
  intros Hok Hlen.
  destruct (finish_inv s (par :: new :: refs) (par :: refs) _ new Hok) as (s1 & G1 & Hok1 & _ & Hst1 & Hm1);
    [apply Permutation_swap|rewrite !zlen_cons; lia|done|].
  destruct (finish_inv s1 (par :: refs) refs _ par Hok1) as (s2 & G2 & Hok2 & _ & Hst2 & Hm2);
    [done|rewrite zlen_cons; lia|done|].
  exists s2. split_and!; [|done| |].
  - unfold create_finish. by rewrite (bind_ok _ _ _ _ _ G1), (bind_ok _ _ _ _ _ G2).
  - intros j Hj. rewrite Hst2, Hst1; [done|by right|done].
  - unfold table_moved in *. rewrite Hm2 at 1. by rewrite Hm1.
Qed.

(** The entry among those of the directory. *)
Lemma room_entered s refs fs ns nm d st bs bs' ind x rest :
  can_create s refs fs ns nm d st bs bs' ind x rest ->
  entered (create_entry nm x) (entries_of bs) (entries_of bs') /\ bs'.*1 = bs.*1.
Proof.
  intros [_ Hh _ _ Hd _ _ Hroom _]. split; [|by eapply enter_blocks_numbers].
  apply enter_blocks_entered; [|done]. intros b es Hin. eapply dir_block_ok.
  by apply (da_blocks _ _ _ _ (proj2 (ho_node _ _ Hh d _ Hd))).
Qed.

Lemma created_file_tree s refs fs ns nm d st bs bs' ind x rest mode :
  can_create s refs fs ns nm d st bs bs' ind x rest ->
  tree_ok (create_in fs d x st bs' ind (File (new_file_stat mode) [] [])).
Proof.
  intros Hcc. destruct (can_create_facts _ _ _ _ _ _ _ _ _ _ _ _ Hcc) as (_ & _ & _ & _ & Hx & _).
  destruct (room_entered _ _ _ _ _ _ _ _ _ _ _ _ Hcc) as [Hen Hbs]. destruct Hcc.
  eapply tree_created; try done. apply new_file_ok.
Qed.

(** C8: Creating a file: on an image that holds a tree, when the directory is there, the name is new,
    an inode is free and a block of the directory has room, [create_file_dir] answers 0, with the table,
    the locks and errno as they should be, and the image then holds the tree with the new file: it has
    the first free inode, with the mode asked for, no byte and no block; its path leads to it and every
    other path leads where it led; all bytes but the counters and bitmaps of the inodes, the blocks of the
    directory and the new inode stay. *)
Theorem create_file_enters s refs fs ns nm d st bs bs' ind x rest params :
  can_create s refs fs ns nm d st bs bs' ind x rest ->
  p_path params = abs_path (ns ++ [nm]) -> p_file params = true ->
  exists m' s', create_file_dir params s = Ok (result (p_path params) (Status 0), s') /\
    restored 0 (with_file m' s) s' refs /\
    (let fs' := create_in fs d x st bs' ind (File (new_file_stat (p_mode params)) [] []) in holds m' fs' /\ tree_ok fs') /\
    free_inodes m' = rest /\
    (let i := inode_place m' x in
     path_resolves m' (ns ++ [nm]) (Some (i, x)) /\
     Inode.blocks m' i = 0 /\ forall k, 0 <= k < 15 -> load32 m' (i + 40 + 4 * k) = 0) /\
    (forall ns' k, Forall name_ok ns' -> tree_walk fs ROOT_INODE_NUMBER ns' = Some (Some k) ->
       path_resolves m' ns' (Some (inode_place m' k, k))) /\
    (forall y, ~ inode_metadata (file s) y -> (forall b, b ∈ bs.*1 -> ~ in_block b y) ->
       ~ in_inode (inode_place m' x) y -> m' y = file s y).
Proof.
  intros Hcc Hp Hreg.
  destruct (create_file_run s refs fs ns nm d st bs bs' ind x rest params Hcc Hp Hreg)
    as (m1 & m2 & m3 & s' & Hrun & Hrest & [_ _ _ Em3 Ep3 Hh3 Ef _ _ Hframe]).
  destruct (can_create_facts _ _ _ _ _ _ _ _ _ _ _ _ Hcc) as (_ & _ & Hrange & _ & Hx & _ & Hne & _).
  destruct (room_entered _ _ _ _ _ _ _ _ _ _ _ _ Hcc) as [Hen Hbs].
  pose proof (created_file_tree _ _ _ _ _ _ _ _ _ _ _ _ (p_mode params) Hcc) as Hok'.
  destruct Hcc as [(_ & _ & Hns) Hh Hok Hw Hd Hnew _ Hroom _].
  set (fs' := create_in fs d x st bs' ind (File (new_file_stat (p_mode params)) [] [])) in *.
  pose proof (proj1 (proj1 (Forall_app _ _ _) Hns)) as Hns'.
  exists m3, s'. cbv zeta. rewrite Ep3. split_and!; try done.
  - rewrite <- Ep3 at 1. apply (tree_path_resolves m3 fs' _ (Some x)); [done..|].
    apply (walk_new fs d x st bs bs' ind _ (create_entry nm x)); try done. lia.
  - rewrite Em3. apply new_file_empty.
  - rewrite Em3. apply new_file_empty.
  - intros ns' k Hns2 Hk. apply (tree_path_resolves m3 fs' _ (Some k)); [done..|].
    by eapply (walk_kept fs d x st bs bs' ind _ (create_entry nm x)).
Qed.

(** ** Refused creations *)

Lemma create_exists s refs ns nm params r :
  ready s refs (ns ++ [nm]) -> p_path params = abs_path (ns ++ [nm]) ->
  path_resolves (file s) (ns ++ [nm]) (Some r) ->
  exists s', create_file_dir params s = Ok (result (p_path params) (Status 1), s') /\ restored EEXIST s s' refs.
Proof.
  intros Hready Hp Hres. pose proof Hready as (_ & Hrefs & Hns). pose proof (zlen_nonneg (ns ++ [nm])). destruct r as [i n].
  destruct (open_bracket s refs _ _ Hready Hres) as (id & s1 & s2 & G1 & G2 & Hok2 & _ & Hst2 & Ha2).
  destruct (finish_inv s2 (id :: refs) refs _ id Hok2) as (s3 & G3 & Hok3 & _ & Hst3 & Hm3);
    [done|rewrite zlen_cons; lia|done|].
  destruct (split_path_names (ns ++ [nm]) Hns ltac:(by destruct ns)) as (ps & Hsp & _).
  exists (with_errno EEXIST s3). split; [|split_and!].
  - unfold create_file_dir. rewrite Hp, (bind_ok _ _ _ _ _ G1), (bind_ok _ _ _ _ _ G2), Hsp.
    cbn [walk_result fst deref]. by rewrite (bind_ok _ _ s2 ([slash] :: ps) s2), (bind_ok _ _ _ _ _ G3) by done.
  - by apply table_inv_errno.
  - eapply after_trans; [eapply after_moved_trans; [exact Ha2|done]|apply after_set_errno].
  - intros j Hj. change (path_at s3 j = path_at s j). by rewrite Hst3, Hst2.
Qed.

Lemma create_without_inode s refs ns nm params r :
  ready s refs (ns ++ [nm]) -> p_path params = abs_path (ns ++ [nm]) -> inodes_ok (file s) ->
  path_resolves (file s) (ns ++ [nm]) None -> path_resolves (file s) ns (Some r) -> free_inodes (file s) = [] ->
  exists s', create_file_dir params s = Ok (result (p_path params) (Status 1), s') /\ restored ENOSPC s s' refs.
Proof.
  intros Hready Hp Hio Hres1 Hres2 Hfree. pose proof Hready as (_ & Hrefs & _). pose proof (zlen_nonneg (ns ++ [nm])).
  destruct r as [i n]. destruct (create_starts s refs ns nm _ params Hready Hp Hres1 Hres2)
    as (new & par & s5 & Ha & Hok5 & Hpi & Hid & Hst5 & ->). destruct (after_file _ _ _ Ha) as [Hf5 _].
  rewrite (bind_ok _ _ _ _ _ (Get_Free_Inodes_none s5 ltac:(by rewrite Hf5) ltac:(by rewrite Hf5))).
  destruct (create_finish_ok (with_errno ENOSPC s5) refs new par (result (p_path params) (Status 1)))
    as (s' & G & Hok' & Hst' & Hm'); [by apply table_inv_errno|lia|].
  exists s'. split; [exact G|]. split_and!; [done| |].
  - eapply after_moved_trans; [eapply after_trans; [exact Ha|apply after_set_errno]|done].
  - intros j Hj. rewrite Hst' by done. by apply Hst5.
Qed.

(** C40: Refused creations: a name that is there is answered 1 with EEXIST, and without a free inode the
    answer is 1 with ENOSPC, with everything as before; in a directory that is not there the server
    dereferences NULL, after it has taken an inode. *)
Theorem create_refused s refs ns nm params :
  ready s refs (ns ++ [nm]) -> p_path params = abs_path (ns ++ [nm]) ->
  let error := result (p_path params) (Status 1) in
  (forall r, path_resolves (file s) (ns ++ [nm]) (Some r) ->
     exists s', create_file_dir params s = Ok (error, s') /\ restored EEXIST s s' refs) /\
  (path_resolves (file s) (ns ++ [nm]) None -> inodes_ok (file s) ->
     (forall r, path_resolves (file s) ns (Some r) -> free_inodes (file s) = [] ->
        exists s', create_file_dir params s = Ok (error, s') /\ restored ENOSPC s s' refs) /\
     (path_resolves (file s) ns None -> free_inodes (file s) <> [] ->
        create_file_dir params s = Fail NullDeref)).
Proof.
  intros Hready Hp error. pose proof Hready as (_ & _ & Hns). split; [intros r; by apply create_exists|].
  intros Hres1 Hio. split; [intros r; by apply (create_without_inode s refs ns nm)|].
  intros Hres2 Hfree.
  destruct (create_starts s refs ns nm _ params Hready Hp Hres1 Hres2)
    as (new & par & s5 & Ha & Hok5 & Hpi & Hid & Hst5 & ->). destruct (after_file _ _ _ Ha) as [Hf5 _].
  destruct (free_inodes (file s)) as [|x rest] eqn:Ef; [done|].
  destruct (Get_Free_Inodes_ok s5 x rest) as (m1 & G & _); [by rewrite Hf5|by rewrite Hf5|].
  rewrite (bind_ok _ _ _ _ _ G). unfold create_with_inode.
  rewrite (bind_ok _ _ _ _ _ (file_name_ok (with_file m1 s5) new _ nm Hid (file_name_abs_path ns nm Hns))).
  destruct (WRLOCK_free (with_file m1 s5) (par :: new :: refs) (fun _ => unlocked) par) as (s7 & G7 & _);
    [by apply (table_inv_same s5)|by left|done|].
  rewrite (bind_ok _ _ _ _ _ G7). done.
Qed.
End Operation.

(** ** Witnesses: the demo image with bitmaps, and a new file "b" in its root *)

Definition create_image : mem :=
  let m := store32 demo_image SuperBlock.TOTAL_UNALLOCATED_INODES 5 in
  let m := store32 (store16 m 2062 5) 5276 2 in
  store_byte (store16 m 3072 65535) 4096 7.

Definition create_server : rfs sample_cache := with_file create_image demo_server.

Definition demo_dentry (n len : Z) (name : list Z) : dentry :=
  {| de_inode := n; de_len := len; de_type := 0; de_name := name |}.

Definition root_entries : list dentry :=
  [demo_dentry 2 12 (str "."); demo_dentry 2 12 (str ".."); demo_dentry 3 1000 (str "a")].

Definition root_node : node := Dir {| i_mode := 16877; i_links := 0; i_size := 1024 |} [(6, root_entries)] [].

Definition a_node : node := File {| i_mode := 33188; i_links := 1; i_size := 5 |} [7] [].

Definition demo_tree : gmap Z node :=
  <[2 := root_node]> {[3 := a_node]}.

Lemma demo_tree_lookup n nd :
  demo_tree !! n = Some nd ->
  n = 2 /\ nd = root_node \/ n = 3 /\ nd = a_node.
Proof.
  unfold demo_tree. rewrite lookup_insert_Some. intros [[<- <-]|[_ H]]; [by left|right].
  by apply lookup_singleton_Some in H as [<- <-].
Defined.

Ltac demo_group :=
  intros; repeat match goal with
  | H : @in_groups demo_sb ?g |- _ =>
      assert (g = 0) as -> by (cbv [in_groups TOTAL_GROUPS demo_sb] in H; lia); clear H
  end.

(** The allocator's invariants of a demo image, by computation. *)
Ltac demo_inodes_ok Hm :=
  split; [split; [split|..]|vm_compute; reflexivity];
  [exact Hm
  |split; [try split; vm_compute; congruence..| | | | | |];
   demo_group; try congruence; vm_compute; congruence || (left; congruence) || (right; congruence) || reflexivity
  |demo_group; vm_compute; reflexivity
  |vm_compute; reflexivity
  |
  |split; vm_compute; congruence
  |vm_compute; reflexivity
  |vm_compute; reflexivity
  |demo_group; vm_compute; reflexivity].

Ltac demo_tables_ok :=
  split; demo_group; try congruence; vm_compute; congruence || (left; congruence) || (right; congruence).

Lemma create_image_mem_ok : mem_ok create_image.
Proof. unfold create_image. repeat (apply store_byte_mem_ok || apply store_mem_ok). apply demo_image_ok. Defined.

Lemma create_image_inodes : @inodes_ok demo_sb create_image.
Proof.
  demo_inodes_ok create_image_mem_ok.
  replace (@free_blocks demo_sb create_image) with (@nil Z) by (vm_compute; reflexivity). constructor.
Defined.

Lemma create_image_tables : @tables_ok demo_sb create_image.
Proof. demo_tables_ok. Defined.

Lemma demo_tree_ok : tree_ok demo_tree.
Proof.
  split.
  - by eexists _, _, _.
  - intros n st bs ind e Hn He Hz. apply demo_tree_lookup in Hn as [[-> [= -> -> ->]]|[_ ?]]; [|discriminate].
    change (e ∈ root_entries) in He. unfold root_entries in He.
    repeat (apply elem_of_cons in He as [->|He]; [eexists; reflexivity|]). by apply not_elem_of_nil in He.
  - intros n nd Hn. apply demo_tree_lookup in Hn as [[-> ->]|[-> ->]]; apply NoDup_singleton.
  - intros n n' nd nd' b Hn Hn' Hne Hb. apply demo_tree_lookup in Hn as [[-> ->]|[-> ->]];
      apply demo_tree_lookup in Hn' as [[-> ->]|[-> ->]]; try done;
      apply list_elem_of_singleton in Hb as ->; by intros ?%list_elem_of_singleton.
Defined.

Ltac demo_dentry :=
  split; cbn [demo_dentry de_inode de_len de_type de_name];
    [lia|split; vm_compute; congruence|reflexivity|lia|split; [reflexivity|]];
    refine (bool_decide_unpack _ _); vm_compute; exact I.

(** A directory of one direct block, from what its fields and entries read. *)
Lemma demo_dir_at m i b es :
  Inode.blocks m i = 2 -> Inode.size m i = 1024 -> Inode.mode m i = 16877 -> load32 m (i + 40) = b ->
  @dir_block m (@block_addr demo_sb b) es (@block_addr demo_sb b + 1024) -> @dir_at demo_sb m i [(b, es)] [].
Proof.
  intros H1 H2 H3 H4 H5. split; [vm_compute; congruence|vm_compute; congruence|done|done|rewrite H3; reflexivity| |].
  - intros m' Hm' k c Hk. destruct k as [|k]; [|by destruct k]. injection Hk as <-. rewrite <- H4.
    change (load32 m' (i + 40 + 4 * 0) = load32 m (i + 40)). rewrite Z.add_0_r.
    apply (load_ext 4). intros x Hx. apply Hm'. left. unfold in_inode, sizeof_inode. lia.
  - intros c es' Hin. apply list_elem_of_singleton in Hin as [= -> ->]. exact H5.
Defined.

Lemma demo_file_at m :
  Inode.mode m 5376 = 33188 -> Inode.size m 5376 = 5 -> load32 m 5416 = 7 ->
  forallb (fun k => load32 m (5416 + 4 * k) =? 0) (seqZ 1 11) = true -> @file_at demo_sb m 5376 [7] [].
Proof.
  intros H1 H2 H3 H4. split; [rewrite H1; reflexivity|rewrite H2; vm_compute; congruence|rewrite H2; vm_compute; reflexivity|..].
  - intros m' Hm' k b Hk. destruct k as [|k]; [|by destruct k]. injection Hk as <-. rewrite <- H3.
    change (load32 m' 5416 = load32 m 5416).
    apply (load_ext 4). intros x Hx. apply Hm'. left. unfold in_inode, sizeof_inode. lia.
  - intros k Hk. change (zlen [7]) with 1 in Hk. rewrite forallb_forall in H4. apply Z.eqb_eq, (H4 k).
    apply list_elem_of_In, elem_of_seqZ. lia.
Defined.

Ltac demo_block := cbn [dir_block];
  repeat (split; [split; vm_compute; reflexivity|split; [demo_dentry|]]); vm_compute; reflexivity.

(** The blocks behind the table of inodes hold data. *)
Lemma demo_data_place m b :
  @block_bitmap demo_sb m 0 = 3072 -> @inode_bitmap demo_sb m 0 = 4096 -> @inode_table demo_sb m 0 = 5120 ->
  6 <= b <= 15 -> @data_place demo_sb m b.
Proof.
  intros H1 H2 H3 Hb. split.
  - change (@BLOCK_SIZE demo_sb) with 1024. change (@TOTAL_GROUPS demo_sb * @BLOCKS_PER_GROUP demo_sb) with 16. lia.
  - intros x Hx. assert (6144 <= x) as Hr.
    { unfold in_block, block_addr in Hx. change (@BLOCK_SIZE demo_sb) with 1024 in Hx.
      rewrite u32_small in Hx by lia. lia. }
    clear Hx. change (@BLOCK_SIZE demo_sb) with 1024.
    intros [H|[(g & Hg & H)|[(g & Hg & H)|(g & Hg & H)]]]; [|demo_group..].
    + assert (x < 2080) as H' by exact H. lia.
    + rewrite H1 in H. change (@BLOCK_SIZE demo_sb) with 1024 in H. lia.
    + rewrite H2 in H. change (@BLOCK_SIZE demo_sb) with 1024 in H. lia.
    + rewrite H3 in H. change (@table_size demo_sb) with 1024 in H. lia.
Defined.

Lemma demo_taken m b :
  @block_bitmap demo_sb m 0 = 3072 -> @inode_bitmap demo_sb m 0 = 4096 -> @inode_table demo_sb m 0 = 5120 ->
  6 <= b <= 15 -> b ∉ @free_blocks demo_sb m -> @taken_block demo_sb m b.
Proof. intros H1 H2 H3 Hb Hf. destruct (demo_data_place m b H1 H2 H3 Hb) as [Hn Hd]. by split. Defined.

Lemma create_root_node : @node_at demo_sb create_image 5248 root_node.
Proof.
  split; [split; vm_compute; reflexivity|].
  apply demo_dir_at; [vm_compute; reflexivity..|unfold root_entries; demo_block].
Defined.

Lemma create_file_node : @node_at demo_sb create_image 5376 a_node.
Proof. split; [split; vm_compute; reflexivity|]. apply demo_file_at; vm_compute; reflexivity. Defined.

(** An image that keeps the demo's root and file holds the demo tree. *)
Lemma demo_holds m :
  @inodes_ok demo_sb m -> @tables_ok demo_sb m ->
  @block_bitmap demo_sb m 0 = 3072 -> @inode_bitmap demo_sb m 0 = 4096 -> @inode_table demo_sb m 0 = 5120 ->
  ((2 ∉ @free_inodes demo_sb m) /\ (3 ∉ @free_inodes demo_sb m)) ->
  ((6 ∉ @free_blocks demo_sb m) /\ (7 ∉ @free_blocks demo_sb m)) ->
  (forall x, 5248 <= x < 8192 -> m x = create_image x) -> @holds demo_sb m demo_tree.
Proof.
  intros Hio Ht H1 H2 H3 [Hi2 Hi3] [Hb6 Hb7] Hx. split; [exact Hio|exact Ht|..].
  - intros n nd Hn. apply demo_tree_lookup in Hn as [[-> _]|[-> _]]; split; vm_compute; congruence.
  - intros n nd Hn. apply demo_tree_lookup in Hn as [[-> _]|[-> _]]; [exact Hi2|exact Hi3].
  - intros n nd Hn. apply demo_tree_lookup in Hn as [[-> ->]|[-> ->]].
    + assert (@inode_place demo_sb m 2 = 5248) as ->.
      { unfold inode_place. change (@Inode_locateGroup demo_sb 2) with 0. by rewrite H3. }
      apply (@node_ext demo_sb create_image m 5248 root_node); [|exact create_root_node]. intros x [Hr|(c & Hc & Hr)]; apply Hx.
      * unfold in_inode, sizeof_inode in Hr. lia.
      * change (c ∈ [6]) in Hc. apply list_elem_of_singleton in Hc as ->. unfold in_block in Hr.
        change (@block_addr demo_sb 6) with 6144 in Hr. change (@BLOCK_SIZE demo_sb) with 1024 in Hr. lia.
    + assert (@inode_place demo_sb m 3 = 5376) as ->.
      { unfold inode_place. change (@Inode_locateGroup demo_sb 3) with 0. by rewrite H3. }
      apply (@node_ext demo_sb create_image m 5376 a_node); [|exact create_file_node]. intros x [Hr|(c & Hc & Hr)]; apply Hx.
      * unfold in_inode, sizeof_inode in Hr. lia.
      * change (c ∈ [7]) in Hc. apply list_elem_of_singleton in Hc as ->. unfold in_block in Hr.
        change (@block_addr demo_sb 7) with 7168 in Hr. change (@BLOCK_SIZE demo_sb) with 1024 in Hr. lia.
  - intros n nd b Hn Hb. apply demo_tree_lookup in Hn as [[-> ->]|[-> ->]];
      [change (b ∈ [6]) in Hb|change (b ∈ [7]) in Hb]; apply list_elem_of_singleton in Hb as ->;
      (apply demo_taken; [done..|lia|done]).
Defined.

Lemma create_image_holds : @holds demo_sb create_image demo_tree.
Proof.
  apply demo_holds; [exact create_image_inodes|exact create_image_tables|vm_compute; reflexivity..| | |done];
    split; refine (bool_decide_unpack _ _); vm_compute; exact I.
Defined.

#[local] Instance create_superblock : Superblock_constants := demo_sb.
#[local] Instance create_word_after : Word_after_array := fun _ => 0.

Definition entered_entries : list dentry :=
  [demo_dentry 2 12 (str "."); demo_dentry 2 12 (str ".."); demo_dentry 3 12 (str "a"); demo_dentry 4 988 (str "b")].

Lemma create_ready nm : name_ok nm -> ready create_server [] [nm].
Proof.
  intros Hn. split_and!; [split; constructor|vm_compute; reflexivity|by apply Forall_cons].
Defined.

Lemma demo_can_create :
  can_create create_server [] demo_tree [] (str "b") 2 {| i_mode := 16877; i_links := 0; i_size := 1024 |}
    [(6, root_entries)] [(6, entered_entries)] [] 4 [5; 6; 7; 8].
Proof.
  split.
  - apply create_ready. split; [discriminate|]. refine (bool_decide_unpack _ _). vm_compute. exact I.
  - exact create_image_holds.
  - exact demo_tree_ok.
  - reflexivity.
  - reflexivity.
  - vm_compute. reflexivity.
  - vm_compute. reflexivity.
  - vm_compute. reflexivity.
  - split; [reflexivity|]. refine (bool_decide_unpack _ _). vm_compute. exact I.
Defined.

(** What the client asks for to create "b". *)
Definition demo_create (file_ : bool) (nm : list Z) : params_t :=
  {| p_path := abs_path [nm]; p_mode := 420; p_write_buffer := []; p_file := file_; p_offset := 0;
     p_bytes_to_read := 0; p_bytes_to_write := 0; p_size := 0 |}.

Lemma create_file_enters_witness :
  exists m' s', create_file_dir (demo_create true (str "b")) create_server = Ok (result (str "/b") (Status 0), s') /\
    path_resolves m' [str "b"] (Some (inode_place m' 4, 4)) /\
    path_resolves m' [str "a"] (Some (inode_place m' 3, 3)).
Proof.
  destruct (@create_file_enters demo_sb demo_sb_ok create_word_after sample_cache create_server [] demo_tree [] (str "b")
    2 _ _ _ _ 4 _ (demo_create true (str "b")) demo_can_create eq_refl eq_refl)
    as (m' & s' & Hrun & _ & _ & _ & (Hres & _) & Hothers & _).
  exists m', s'. split; [exact Hrun|]. split; [exact Hres|]. apply (Hothers [str "a"] 3); [|reflexivity].
  apply Forall_cons; split; [|constructor]. split; [discriminate|]. refine (bool_decide_unpack _ _). vm_compute. exact I.
Defined.

Lemma create_refused_witness :
  exists s', create_file_dir (demo_create true (str "a")) create_server = Ok (result (str "/a") (Status 1), s') /\
    errno s' = EEXIST.
Proof.
  assert (name_ok (str "a")) as Hn.
  { split; [discriminate|]. refine (bool_decide_unpack _ _). vm_compute. exact I. }
  destruct (@create_refused demo_sb create_word_after sample_cache create_server [] [] (str "a")
    (demo_create true (str "a")) (create_ready _ Hn) eq_refl) as [H _].
  destruct (H (5376, 3)) as (s' & Hrun & _ & Ha & _).
  - exact (@tree_path_resolves demo_sb demo_sb_ok create_image demo_tree [str "a"] (Some 3) create_image_holds
             demo_tree_ok eq_refl).
  - exists s'. split; [exact Hrun|]. exact (proj2 (after_file _ _ _ Ha)).
Defined.

(** An operation on "/a/b/c", and one on "/a/c". *)
Lemma directories_have_two_locks_witness :
  (exists par s1 s2, find_parent (str "/a/b/c") demo_server = Ok (par, s1) /\ WRLOCK par s1 = Ok (tt, s2) /\
     exists id s3 s4, active_file_list_find (str "/a/b") s2 = Ok (id, s3) /\ id <> par /\ RDLOCK id s3 = Ok (tt, s4)) /\
  (exists par s1 s2, find_parent (str "/a/c") demo_server = Ok (par, s1) /\ WRLOCK par s1 = Ok (tt, s2) /\
     active_file_list_find (str "/a") s2 = Fail Deadlock).
Proof.
  assert (table_ok demo_server []) as Hok by (split; constructor).
  assert (forall c, c ∈ [str "a"; str "b"; str "c"] -> name_ok c) as Hn.
  { intros c Hc. repeat (apply elem_of_cons in Hc as [->|Hc]; [split; [discriminate|]; refine (bool_decide_unpack _ _);
      vm_compute; exact I|]). by apply not_elem_of_nil in Hc. }
  split.
  - destruct (directories_have_two_locks demo_server [] [str "a"; str "b"] (str "c") Hok) as (par & s1 & s2 & H1 & H2 & H3 & _).
    + apply Forall_forall. intros c Hc. by apply Hn.
    + reflexivity.
    + exists par, s1, s2. split; [exact H1|]. split; [exact H2|]. apply H3. simpl. lia.
  - destruct (directories_have_two_locks demo_server [] [str "a"] (str "c") Hok) as (par & s1 & s2 & H1 & H2 & _ & H3).
    + apply Forall_forall. intros c Hc. apply Hn. apply elem_of_cons in Hc as [->|Hc]; [by left|]. right. by right.
    + reflexivity.
    + exists par, s1, s2. split; [exact H1|]. split; [exact H2|]. apply H3. simpl. lia.
Defined.
