(* ===== verification/Mkdirs.v ===== *)
(** * Mkdirs: a new directory, end to end on the tree

    [create_file_dir] of [file_operations.c] for a directory, against the
    tree of [Tree]: the inode, the block with "." and "..", and the counter of
    directories; and the inode numbers for which the group of the counter is
    the wrong one, or none. *)

From S2P Require Import Prelude Memory Bitarray Ext2 Ext2Facts CString Paths Rfs ActiveFiles Alloc AllocFacts InodeAlloc BlockMap Dirs DirFacts Walk FileOps Serial Requests SerialFacts Lookups Tree TreeSteps Enters Creates.

Section Contents.
Context {Super_constants : Superblock_constants} {SO : Superblock_ok} {WA : Word_after_array}.
Context {C : Type} `{Memcached C}.
Abbreviation R := (rfs C).
Implicit Types (s : R) (m : mem) (refs : list nat) (fs : gmap Z node) (i b d x : Z).

(** ** The entries of a new directory *)

Definition dot x (len : Z) : dentry := as_dentry (create_entry (str ".") x) len.
Definition dot_dot d (len : Z) : dentry := as_dentry (create_entry (str "..") d) len.

Definition new_dir_entries x d : list dentry := [dot x 12; dot_dot d (BLOCK_SIZE - 12)].

Definition new_dir_stat (mode : Z) : istat :=
  {| i_mode := u16 (Z.lor mode EXT2_IFDIR); i_links := 1; i_size := BLOCK_SIZE |}.

Definition new_dir (mode b x d : Z) : node := Dir (new_dir_stat mode) [(b, new_dir_entries x d)] [].

Lemma directory_mode mode : has_mode (u16 (Z.lor mode EXT2_IFDIR)) EXT2_IFDIR = true.
Proof.
  unfold has_mode. apply negb_true_iff, Z.eqb_neq. intros E.
  apply (f_equal (fun z => Z.testbit z 14)) in E. rewrite Z.bits_0, Z.land_spec in E.
  unfold u16 in E. rewrite Z.mod_pow2_bits_low, Z.lor_spec, andb_comm in E by lia.
  change (Z.testbit EXT2_IFDIR 14) with true in E. by rewrite orb_true_r in E.
Qed.

Lemma dots_new_ok x d : 0 <= x < 2 ^ 32 -> 0 <= d < 2 ^ 32 ->
  new_ok (create_entry (str ".") x) /\ new_ok (create_entry (str "..") d).
Proof.
  intros Hx Hd. split; apply create_entry_ok; try done; refine (bool_decide_unpack _ _); vm_compute; exact I.
Qed.

(** ".." goes behind "." in its block. *)
Lemma enter_dot_dot b x d :
  enter_blocks (create_entry (str "..") d) [(b, [dot x BLOCK_SIZE])] = Some [(b, new_dir_entries x d)].
Proof. unfold new_dir_entries. destruct block_size_cases as [E|[E|E]]; rewrite E; reflexivity. Qed.

(** ** Attaching the first block *)

Lemma Attach_Blocks_first s i b rest :
  alloc_ok (file s) -> free_blocks (file s) = b :: rest -> word_after_array [b] = 0 ->
  load32 (file s) (i + 40) = 0 ->
  exists m', took (file s) m' [b] /\
    Attach_Blocks i 1 s = Ok (0, with_file (write_words m' (Inode.pointer_data_0 i 0) [b]) s).
Proof.
  intros Hok Hf Hw Hz. destruct (Get_Free_Blocks_ok s 1 Hok) as (m' & Hrun & Htook).
  - rewrite Hf, zlen_cons. pose proof (zlen_nonneg rest). lia.
  - by rewrite Hf.
  - rewrite Hf in Hrun, Htook. change (take (Z.to_nat 1) (b :: rest)) with [b] in Hrun, Htook.
    exists m'. split; [done|]. unfold Attach_Blocks. rewrite (bind_ok _ _ s (file s) s) by done. cbn [leading_nonzero].
    replace (i + 40) with (Inode.pointer_data_0 i 0) in Hz by (unfold Inode.pointer_data_0; lia).
    rewrite Hz. cbn [Z.eqb]. change (12 - 0 >? 1) with true. change (12 - 0 >? 0) with true. cbv iota.
    rewrite (bind_ok _ _ _ _ _ Hrun). change (u32 (1 - 1) =? 0) with true. cbn [when].
    by rewrite (bind_ok _ _ _ tt (with_file (write_words m' (Inode.pointer_data_0 i 0) [b]) s)).
Qed.

(** ** The writes *)

(** setDirInode in one step: the counter of the group and the inode. *)
Definition counted_directory m (g : Z) : mem :=
  set_NUMBER_DIRECTORIES_GROUP m (group_descriptor g) (NUMBER_DIRECTORIES_GROUP m (group_descriptor g) + 1).

Lemma setDirInode_run s i mode x :
  x / INODES_PER_GROUP < TOTAL_GROUPS ->
  setDirInode i mode x s =
    Ok (tt, with_file (filled_inode (counted_directory (file s) (x / INODES_PER_GROUP)) i (BLOCK_SIZE / 512) 1
                         (Z.lor mode EXT2_IFDIR) BLOCK_SIZE) s).
Proof.
  intros Hg. unfold setDirInode, Group_Descriptor_read. by rewrite (proj2 (Z.ltb_lt _ _)) by done.
Qed.

(** The directory once its block is there: as the code leaves it, "." first. *)
Lemma new_dir_at m i b es mode :
  stat_at m i (new_dir_stat mode) -> Inode.blocks m i = BLOCK_SIZE / 512 -> load32 m (i + 40) = b ->
  dir_block m (block_addr b) es (block_addr b + BLOCK_SIZE) -> node_at m i (Dir (new_dir_stat mode) [(b, es)] []).
Proof.
  intros Hst Hb Hp Hblk. split; [done|]. destruct Hst as [H1 _ H3]. cbn [i_mode i_size new_dir_stat] in H1, H3.
  assert (BLOCK_SIZE < 2 ^ 31) as Hbs by (destruct block_size_cases as [->|[->| ->]]; lia).
  split; change (zlen [(b, es)]) with 1; [lia|lia|by rewrite Hb, Z.mul_1_l|by rewrite H3, Z.mul_1_l|rewrite H1; apply directory_mode| |].
  - intros m' Hm' k c Hk. destruct k as [|k]; [|by destruct k]. injection Hk as <-. rewrite <- Hp.
    change (load32 m' (Inode.pointer_data_0 i 0) = load32 m (i + 40)).
    replace (Inode.pointer_data_0 i 0) with (i + 40) by (unfold Inode.pointer_data_0; lia).
    apply (load_ext 4). intros y Hy. apply Hm'. left. unfold in_inode, sizeof_inode. lia.
  - intros c es' Hin. by apply list_elem_of_singleton in Hin as [= -> ->].
Qed.

(** "." alone fills the block. *)
Lemma dot_written m b x :
  mem_ok m -> 0 <= x < 2 ^ 32 ->
  let m' := copy_entry m (block_addr b)
    {| inode_number := x; entry_len := BLOCK_SIZE; name_len := 1; file_type := 0; file_name := str "." |} in
  mem_ok m' /\ dir_block m' (block_addr b) [dot x BLOCK_SIZE] (block_addr b + BLOCK_SIZE) /\
  (forall y, ~ in_block b y -> m' y = m y).
Proof.
  intros Hm Hx m'. destruct (dots_new_ok x 0 Hx ltac:(lia)) as [Hnew _].
  assert (12 < BLOCK_SIZE < 2 ^ 16 /\ BLOCK_SIZE mod 4 = 0) as [Hbs Hbs4] by (by destruct block_size_cases as [->|[->| ->]]).
  assert (0 <= BLOCK_SIZE < 2 ^ 16) as Hbs' by lia.
  destruct (copy_new_at m (block_addr b) _ BLOCK_SIZE Hnew Hbs') as [Hat Ho]. split_and!.
  - apply copy_entry_mem_ok; [done|]. apply Hnew.
  - split; [exact Hat|]. split; [|done]. apply as_dentry_ok; [done| |done]. change (entry_len _) with 9. lia.
  - intros y Hy. apply Ho. unfold in_block in Hy. change (entry_len _) with 9. lia.
Qed.

(** Up to the block: the counter, the inode and its pointer. *)
Lemma dir_inode_made (t : R) fs x b rest mode :
  holds (file t) fs -> free_ok (file t) -> free_blocks (file t) = b :: rest -> word_after_array [b] = 0 ->
  1 <= x <= TOTAL_GROUPS * INODES_PER_GROUP -> x / INODES_PER_GROUP < TOTAL_GROUPS -> fs !! x = None ->
  let i := inode_place (file t) x in
  exists m4 m6, setDirInode i mode x t = Ok (tt, with_file m4 t) /\
    Attach_Blocks i 1 (with_file m4 t) = Ok (0, with_file m6 t) /\ holds m6 fs /\ free_ok m6 /\
    free_inodes m6 = free_inodes (file t) /\ free_blocks m6 = rest /\ taken_block m6 b /\
    (forall n nd, fs !! n = Some nd -> b ∉ node_blocks nd) /\
    same_descriptors (file t) m6 /\ same_tables (file t) m6 /\
    stat_at m6 i (new_dir_stat mode) /\ Inode.blocks m6 i = BLOCK_SIZE / 512 /\ load32 m6 (i + 40) = b /\
    (forall y, spare y -> m6 y = counted_directory (file t) (x / INODES_PER_GROUP) y) /\
    (forall y, ~ control (file t) y -> ~ in_block b y -> ~ in_inode i y -> m6 y = file t y).
Proof.
  intros Hh Hfo Hfb Hw Hr Hg Hx i. set (m := file t) in *. set (g := x / INODES_PER_GROUP) in *.
  pose proof (io_ok m (ho_inodes _ _ Hh)) as Hgo. pose proof (al_layout m (io_alloc m Hgo)) as Hl.
  assert (in_groups (Inode_locateGroup x)) as Hgx by (apply (place_range x); [apply Hgo|apply Hgo|done]).
  assert (in_groups g) as Hgg by (split; [apply Z.div_pos; [lia|apply Hgo]|done]).
  set (m3 := counted_directory m g).
  assert (forall y, ~ spare y -> m3 y = m y) as X3.
  { intros y Hy. symmetry. apply store_same_outside, in_range_false. intros Hr'. apply Hy. exists g.
    unfold sizeof_Group_Descriptor. split; [done|lia]. }
  destruct (holds_directories_counted m m3 fs Hh) as (Hh3 & Ei3 & Eb3 & D3 & T3); [|done|].
  { apply store_mem_ok, (al_mem m (io_alloc m Hgo)). }
  assert (inode_place m3 x = i) as Ep3 by by apply place_same.
  set (m4 := filled_inode m3 i (BLOCK_SIZE / 512) 1 (Z.lor mode EXT2_IFDIR) BLOCK_SIZE).
  destruct (holds_spare_inode m3 m4 fs x Hh3 Hr Hx) as (Hh4 & Ei4 & Eb4 & Ep4 & D4 & T4).
  { apply filled_mem_ok, (al_mem m3 (io_alloc m3 (io_ok m3 (ho_inodes _ _ Hh3)))). }
  { intros y Hy. apply filled_outside. by rewrite <- Ep3. }
  pose proof (same_descriptors_trans _ _ _ D3 D4) as D34. pose proof (same_tables_trans _ _ _ T3 T4) as T34.
  assert (free_ok m4) as Hfo4.
  { apply (free_ok_same m m4); [done..|]. intros c. rewrite Eb4, Eb3. apply Hfo. }
  destruct (Attach_Blocks_first (with_file m4 t) i b rest) as (m5 & Htook & Hrun).
  { apply (io_alloc m4 (io_ok m4 (ho_inodes _ _ Hh4))). } { change (free_blocks m4 = b :: rest). by rewrite Eb4, Eb3. }
  { done. } { rewrite <- (Z.add_0_r (i + 40)). apply (filled_pointers m3 i _ _ _ _ 0). lia. }
  change (file (with_file m4 t)) with m4 in Htook.
  destruct (holds_block_taken m4 m5 fs b Hh4 Hfo4 Htook) as (Hh5 & Hfo5 & Ei5 & Htb5 & Hdp & D5 & T5 & X5).
  set (m6 := write_words m5 (Inode.pointer_data_0 i 0) [b]) in *.
  assert (inode_place m5 x = i) as Ep5 by (rewrite <- Ep3, <- Ep4; by apply place_same).
  assert (forall y, ~ (i + 40 <= y < i + 44) -> m6 y = m5 y) as X6.
  { intros y Hy. unfold m6, write_words, Inode.pointer_data_0. change (zlen [b]) with 1. by decide_ranges. }
  destruct (holds_spare_inode m5 m6 fs x Hh5 Hr Hx) as (Hh6 & Ei6 & Eb6 & Ep6 & D6 & T6).
  { apply write_words_mem_ok, (al_mem m5 (io_alloc m5 (io_ok m5 (ho_inodes _ _ Hh5)))). }
  { intros y Hy. apply X6. rewrite Ep5 in Hy. unfold in_inode, sizeof_inode in Hy. lia. }
  assert (forall y, in_inode i y -> ~ control m4 y /\ ~ in_block b y) as Hiny.
  { intros y Hy. rewrite <- Ep3, <- Ep4 in Hy.
    destruct (place_system m4 x y (io_ok m4 (ho_inodes _ _ Hh4)) Hr Hy) as (g' & Hg' & Hy').
    split; [by apply (table_control m4 g' y (ho_tables _ _ Hh4))|]. intros Hb. apply (proj2 Hdp y Hb). do 3 right. by exists g'. }
  assert (forall (w : nat) k, 0 <= k -> k + Z.of_nat w <= 40 -> load w m6 (i + k) = load w m4 (i + k)) as Hload.
  { intros w k Hk Hw'. apply load_ext. intros y Hy. rewrite X6 by lia. apply X5. right. apply Hiny.
    unfold in_inode, sizeof_inode. lia. }
  destruct (filled_fields m3 i (BLOCK_SIZE / 512) 1 (Z.lor mode EXT2_IFDIR) BLOCK_SIZE) as [[F1 F2 F3] F4].
  fold m4 in F1, F2, F3, F4. cbn [i_mode i_links i_size] in F1, F2, F3.
  pose proof (tk_free _ _ _ Htook) as Ef5. rewrite Eb4, Eb3, Hfb in Ef5. injection Ef5 as Ef5.
  exists m4, m6. split_and!; try done.
  - by apply setDirInode_run.
  - apply (free_ok_same m5 m6); [done..|]. intros c. rewrite Eb6. apply Hfo5.
  - congruence.
  - congruence.
  - by apply (taken_same m5 m6).
  - intros n nd Hn Hb. apply (tb_used m b (ho_taken _ _ Hh n nd b Hn Hb)). rewrite Hfb. by left.
  - eapply same_descriptors_trans; [exact D34|]. by eapply same_descriptors_trans.
  - eapply same_tables_trans; [exact T34|]. by eapply same_tables_trans.
  - split; cbn [new_dir_stat i_mode i_links i_size].
    + rewrite <- F1. unfold Inode.mode, load16. rewrite <- (Z.add_0_r i). apply Hload; lia.
    + transitivity (Inode.links_count m4 i); [apply (Hload 2%nat 26); lia|done].
    + transitivity (Inode.size m4 i); [unfold Inode.size; f_equal; apply (Hload 4%nat 4); lia|rewrite F3].
      destruct block_size_cases as [->|[->| ->]]; reflexivity.
  - transitivity (Inode.blocks m4 i); [apply (Hload 4%nat 28); lia|rewrite F4].
    destruct block_size_cases as [->|[->| ->]]; reflexivity.
  - transitivity (load32 m6 (Inode.pointer_data_0 i 0 + 4 * 0)); [unfold Inode.pointer_data_0; f_equal; lia|].
    unfold m6. rewrite (load32_write_words m5 _ [b] 0 b) by (done || lia).
    pose proof (tb_number _ _ Htb5). pose proof block_size_pos. apply u32_small. nia.
  - intros y Hy. assert (~ in_inode i y) as Hi.
    { intros Hi. apply (proj1 (Hiny y Hi)). by apply (spare_control m4); [apply (al_layout m4 (io_alloc m4 (io_ok m4 (ho_inodes _ _ Hh4))))|]. }
    rewrite X6, X5 by (try (by left); unfold in_inode, sizeof_inode in Hi; lia). by apply filled_outside.
  - intros y Hc Hb Hi. rewrite X6 by (unfold in_inode, sizeof_inode in Hi; lia).
    rewrite X5 by (right; split; [intros Hc'; apply Hc; by apply (control_same m m4)|done]).
    unfold m4. rewrite filled_outside by done. apply X3. intros Hs. apply Hc. by apply spare_control.
Qed.

Lemma create_dir_contents_ok (t : R) fs x d b rest mode :
  holds (file t) fs -> free_ok (file t) -> free_blocks (file t) = b :: rest -> word_after_array [b] = 0 ->
  1 <= x <= TOTAL_GROUPS * INODES_PER_GROUP -> x / INODES_PER_GROUP < TOTAL_GROUPS -> fs !! x = None ->
  x ∉ free_inodes (file t) -> 0 <= d < 2 ^ 32 -> errno t = 0 ->
  let i := inode_place (file t) x in
  exists m', create_dir_contents i x d mode t = Ok (true, with_file m' t) /\
    holds m' (<[x := new_dir mode b x d]> fs) /\ free_ok m' /\ free_inodes m' = free_inodes (file t) /\
    free_blocks m' = rest /\ inode_place m' x = i /\ (forall n nd, fs !! n = Some nd -> b ∉ node_blocks nd) /\
    same_descriptors (file t) m' /\
    (forall y, spare y -> m' y = counted_directory (file t) (x / INODES_PER_GROUP) y) /\
    (forall y, ~ control (file t) y -> ~ in_block b y -> ~ in_inode i y -> m' y = file t y).
Proof.
  intros Hh Hfo Hfb Hw Hr Hg Hx Hused Hd He i. set (m := file t) in *.
  pose proof (io_ok m (ho_inodes _ _ Hh)) as Hgo. pose proof (io_max m Hgo) as Hmax.
  destruct (dir_inode_made t fs x b rest mode Hh Hfo Hfb Hw Hr Hg Hx)
    as (m4 & m6 & G4 & G6 & Hh6 & Hfo6 & Ei6 & Eb6 & Htb6 & Hnb & D6 & T6 & Hst & Hblk & Hptr & S6 & X6).
  fold m i in G4, G6, Hst, Hblk, Hptr, X6, D6, T6, S6, Ei6.
  pose proof (taken_place _ _ Htb6) as Hdp6.
  assert (forall y, in_inode i y -> ~ in_block b y) as Hib.
  { intros y Hy Hby. apply (proj2 (data_place_same m6 m b
      ltac:(intros g Hg'; destruct (D6 g Hg'); split; congruence) ltac:(intros g Hg'; symmetry; by apply T6) Hdp6) y Hby).
    do 3 right. by apply (place_system m x). }
  destruct (dot_written m6 b x) as (Hm7 & Hdot & X7); [apply (al_mem m6 (io_alloc m6 (io_ok m6 (ho_inodes _ _ Hh6))))|lia|].
  set (m7 := copy_entry m6 (block_addr b) _) in *.
  destruct (holds_spare_block m6 m7 fs b Hh6 Hdp6 Hnb Hm7 X7) as (Hh7 & Ei7 & Eb7 & D7 & T7).
  assert (forall (w : nat) k (mm : mem), (forall y, ~ in_block b y -> mm y = m6 y) -> 0 <= k -> k + Z.of_nat w <= 128 ->
            load w mm (i + k) = load w m6 (i + k)) as Hload.
  { intros w k mm Hmm Hk Hw'. apply load_ext. intros y Hy. apply Hmm, Hib. unfold in_inode, sizeof_inode. lia. }
  assert (forall mm es, (forall y, ~ in_block b y -> mm y = m6 y) ->
            dir_block mm (block_addr b) es (block_addr b + BLOCK_SIZE) ->
            node_at mm i (Dir (new_dir_stat mode) [(b, es)] [])) as Hnode.
  { intros mm es Hmm Hes. apply new_dir_at; [|rewrite <- Hblk; apply (Hload 4%nat 28); [done|lia..]|
      rewrite <- Hptr; apply (Hload 4%nat 40); [done|lia..]|done].
    apply (stat_ext m6); [|done]. intros y Hy. by apply Hmm, Hib. }
  destruct (dots_new_ok x d ltac:(lia) Hd) as [_ Hdd].
  destruct (attach_in_blocks_dir m7 (create_entry (str "..") d) [(b, [dot x BLOCK_SIZE])] [(b, new_dir_entries x d)])
    as (m8 & c & Hat & Hc & Hm8 & X8 & _ & Hblk8); [done|apply NoDup_singleton| | |done|apply enter_dot_dot|].
  { intros c c' y ->%list_elem_of_singleton ->%list_elem_of_singleton. done. }
  { intros c es [= -> ->]%list_elem_of_singleton. exact Hdot. }
  apply list_elem_of_singleton in Hc as ->.
  destruct (holds_spare_block m7 m8 fs b Hh7) as (Hh8 & Ei8 & Eb8 & D8 & T8); [by apply (data_place_same m6)|done..|].
  pose proof (same_descriptors_trans _ _ _ D7 D8) as D78. pose proof (same_tables_trans _ _ _ T7 T8) as T78.
  assert (forall y, ~ in_block b y -> m8 y = m6 y) as X78 by (intros y Hy; by rewrite X8, X7).
  assert (inode_place m8 x = i) as Ep8.
  { apply place_same; [by eapply same_tables_trans|]. apply (place_range x); [apply Hgo|apply Hgo|done]. }
  exists m8. split_and!; try done.
  - unfold create_dir_contents. rewrite (bind_ok _ _ _ _ _ G4), (bind_ok _ _ _ _ _ G6).
    rewrite (bind_ok _ _ (with_file m6 t) 0 (with_file m6 t)) by (unfold get_errno, gets; simpl; by rewrite He).
    change (0 =? ENOSPC) with false. cbv iota.
    rewrite (bind_ok _ _ (with_file m6 t) b (with_file m6 t)).
    2: { unfold load_word, gets. cbn [file with_file]. replace (Inode.pointer_data_0 i 0) with (i + 40) by (unfold Inode.pointer_data_0; lia). by rewrite Hptr. }
    rewrite (bind_ok _ _ (with_file m6 t) tt (with_file m7 t)).
    2: { unfold m7, block_addr, update_file, modify. rewrite (Z.mul_comm b). cbn [file with_file].
         replace (u16 BLOCK_SIZE) with BLOCK_SIZE by (destruct block_size_cases as [->|[->| ->]]; reflexivity). done. }
    rewrite (bind_ok _ _ (with_file m7 t) true (with_file m8 t)); [done|].
    apply (attach_entry_ok (with_file m7 t) i _ [(b, [dot x BLOCK_SIZE])] []).
    + by apply (Hnode m7 [dot x BLOCK_SIZE]).
    + intros c ->%list_elem_of_singleton. pose proof (tb_number _ _ Htb6). cbn. lia.
    + exact Hat.
  - apply holds_insert; [done|done|by rewrite Ei8, Ei7, Ei6| |].
    + rewrite Ep8. apply Hnode; [done|]. apply (Hblk8 b). by left.
    + intros c ->%list_elem_of_singleton. apply (taken_same m6); [done|done|congruence|done].
  - apply (free_ok_same m6 m8); [done..|]. intros c. rewrite Eb8, Eb7. apply Hfo6.
  - congruence.
  - congruence.
  - by eapply same_descriptors_trans.
  - intros y Hy. rewrite X78; [by apply S6|]. intros Hby. apply (proj2 Hdp6 y Hby). apply control_system.
    apply (spare_control m6); [|done]. apply (al_layout m6 (io_alloc m6 (io_ok m6 (ho_inodes _ _ Hh6)))).
  - intros y H1 H2 H3. rewrite X78 by done. by apply X6.
Qed.

(** ** The operation *)

(** What a new directory needs besides: a free block, the word behind the
    array that [CleanBlocks] reads, and a group whose number is that of the
    inode divided. *)
Record can_make_dir s refs fs ns nm d st bs bs' ind x rest b restb : Prop := {
  mk_create : can_create s refs fs ns nm d st bs bs' ind x rest;
  mk_data : free_ok (file s);
  mk_block : free_blocks (file s) = b :: restb;
  mk_word : word_after_array [b] = 0
}.

(** Up to the contents. *)
Lemma create_dir_starts s refs fs ns nm d st bs bs' ind x rest params :
  can_create s refs fs ns nm d st bs bs' ind x rest -> free_ok (file s) ->
  p_path params = abs_path (ns ++ [nm]) -> p_file params = false ->
  exists new par m2 s8, after 0 (with_file m2 s) s8 /\ file s8 = m2 /\
    holds m2 (<[d := Dir st bs' ind]> fs) /\ free_ok m2 /\ free_inodes m2 = rest /\
    free_blocks m2 = free_blocks (file s) /\ inode_place m2 x = inode_place (file s) x /\
    same_descriptors (file s) m2 /\ (forall y, spare y -> m2 y = file s y) /\
    (forall y, ~ control (file s) y -> (forall b, b ∈ bs.*1 -> ~ in_block b y) -> m2 y = file s y) /\
    create_file_dir params s =
      (created ← create_dir_contents (inode_place (file s) x) x d (p_mode params);
       create_settle params new par (Some (inode_place (file s) d)) (inode_place (file s) x) x created) s8 /\
    forall u, same_table s8 u -> exists s',
      create_settle params new par (Some (inode_place (file s) d)) (inode_place (file s) x) x true u
        = Ok (result (p_path params) (Status 0), s') /\
      table_ok s' refs /\ after 0 u s' /\ (forall j, j ∈ refs -> path_at s' j = path_at s j).
Proof.
  intros Hcc Hfo Hp Hreg. pose proof (cc_ready _ _ _ _ _ _ _ _ _ _ _ _ Hcc) as Hready.
  pose proof Hready as (_ & Hrefs & Hns). pose proof (zlen_nonneg (ns ++ [nm])).
  destruct (can_create_facts _ _ _ _ _ _ _ _ _ _ _ _ Hcc) as (Hres1 & Hres2 & Hr & Hgx & Hx & Hxr & Hne & Hnz).
  destruct (create_starts s refs ns nm _ params Hready Hp Hres1 Hres2)
    as (new & par & s5 & Ha & Hok5 & Hpi & Hid & Hst5 & Hrun). cbn [walk_errno walk_result fst snd] in Ha, Hrun.
  destruct (after_file _ _ _ Ha) as [Hf5 _].
  destruct Hcc as [_ Hh Hok _ Hd _ Hfree Hroom [Hlen Hby]].
  destruct (Get_Free_Inodes_ok s5 x rest) as (m1 & G & Hrest & Hmv); [rewrite Hf5; apply Hh|by rewrite Hf5|].
  rewrite Hf5 in Hmv.
  assert (holds m1 fs) as Hh1.
  { apply (holds_inodes_moved (file s)); [done..|]. intros n nd Hin Hn. rewrite Hrest in Hn.
    apply (ho_used _ _ Hh n nd Hin). rewrite Hfree. by right. }
  destruct (entry_attached m1 fs d st bs bs' ind x nm) as (m2 & b & Hat & Hb & X2 & Hh2 & E2 & B2 & D2 & T2); [done..|].
  pose proof (im_descriptors _ _ Hmv) as D1. pose proof (im_tables _ _ Hmv) as T1.
  pose proof (same_descriptors_trans _ _ _ D1 D2) as D12. pose proof (same_tables_trans _ _ _ T1 T2) as T12.
  assert (inode_place m2 x = inode_place (file s) x) as Ep2 by by apply place_same.
  assert (inode_place m1 d = inode_place (file s) d) as Epd.
  { apply place_same; [done|]. by apply (in_groups_number (file s) fs d _ Hh Hd). }
  pose proof (ho_node _ _ Hh1 d _ Hd) as [_ Hdir]. rewrite Epd in Hdir.
  destruct (pair_locks (with_file m1 s5) refs par new) as (s7 & G7 & Hm7 & Hst7 & Hcont); [by apply (table_inv_same s5)|done|lia|].
  destruct (Hcont (with_file m2 s7)) as (s8 & G8 & Hm8 & _ & Hcont8); [done|].
  assert (after 0 (with_file m1 s) s7) as Ha7 by (eapply after_moved_trans; [by apply (after_with_file 0 m1)|done]).
  assert (after 0 (with_file m2 s) s8) as Ha8 by (eapply after_moved_trans; [by apply (after_with_file 0 m2 _ _ Ha7)|done]).
  assert (file s7 = m1) as Hf7 by by destruct (after_file _ _ _ Ha7).
  pose proof (al_layout _ (io_alloc _ (io_ok _ (ho_inodes _ _ Hh)))) as Hl.
  exists new, par, m2, s8. split_and!; try done.
  - by destruct (after_file _ _ _ Ha8).
  - apply (free_ok_same (file s) m2); [done..|]. intros c. rewrite B2, (im_blocks _ _ Hmv). apply Hfo.
  - by rewrite E2.
  - by rewrite B2, (im_blocks _ _ Hmv).
  - intros y Hy. rewrite X2.
    + apply (im_frame _ _ Hmv). by apply spare_not_inode_counters.
    + intros Hyb. apply (tb_data m1 b) with (x := y); [|done|].
      * apply (ho_taken _ _ Hh1 d _ b Hd). apply elem_of_app. by left.
      * apply control_system, spare_control; [|done]. apply (al_layout m1 (io_alloc m1 (io_ok m1 (ho_inodes _ _ Hh1)))).
  - intros y Hy Hyb. rewrite X2 by by apply Hyb. apply (im_frame _ _ Hmv). by intros Hc%inode_metadata_control.
  - rewrite Hrun, (bind_ok _ _ _ _ _ G). unfold create_with_inode. change (default 0 ([x] !! 0%nat)) with x.
    rewrite (bind_ok _ _ _ _ _ (file_name_ok (with_file m1 s5) new _ nm Hid (file_name_abs_path ns nm Hns))).
    rewrite (bind_ok _ _ _ _ _ G7), (bind_ok _ _ s7 true (with_file m2 s7)).
    2: { apply attach_entry_ok with (bs := bs) (ind := ind); rewrite ?Hf7; [exact Hdir|exact Hnz|exact Hat]. }
    cbn [negb]. rewrite (bind_ok _ _ (with_file m2 s7) m2 (with_file m2 s7)) by done.
    rewrite place_read, Ep2 by done. cbn [deref].
    rewrite (bind_ok _ _ (with_file m2 s7) (inode_place (file s) x) (with_file m2 s7)) by done.
    by rewrite (bind_ok _ _ _ _ _ G8), Hreg.
  - intros u Hu. destruct (Hcont8 u Hu) as (u1 & u2 & u3 & u4 & G9 & G10 & G11 & G12 & Hok12 & Hm12 & Hst12).
    exists (with_errno 0 u4). split_and!.
    + unfold create_settle. cbn [negb].
      by rewrite (bind_ok _ _ _ _ _ G9), (bind_ok _ _ _ _ _ G10), (bind_ok _ _ _ _ _ G11), (bind_ok _ _ _ _ _ G12).
    + by apply table_inv_errno.
    + eapply after_trans; [by apply after_moved|apply after_set_errno].
    + intros j Hj. change (path_at u4 j = path_at s j). rewrite Hst12 by done. by apply Hst5.
Qed.

Lemma tree_with_dir fs d x st bs bs' ind e mode b :
  tree_ok fs -> fs !! d = Some (Dir st bs ind) -> fs !! x = None -> bs'.*1 = bs.*1 ->
  entered e (entries_of bs) (entries_of bs') -> inode_number e = x ->
  (forall n nd, fs !! n = Some nd -> b ∉ node_blocks nd) ->
  tree_ok (create_in fs d x st bs' ind (new_dir mode b x d)).
Proof.
  intros Hok Hd Hx Hbs Hen He Hnb. eapply tree_created; try done. split.
  - apply NoDup_singleton.
  - intros n nd c Hn ->%list_elem_of_singleton. by apply (Hnb n).
  - intros st' bs0 ind' de [= <- <- <-] Hde _. change (de ∈ new_dir_entries x d) in Hde.
    apply elem_of_cons in Hde as [->|Hde]; [by left|right]. apply list_elem_of_singleton in Hde as ->.
    cbn [dot_dot as_dentry de_inode create_entry inode_number]. eauto.
Qed.

(** The operation, and what the image holds afterwards. *)
Lemma create_dir_run s refs fs ns nm d st bs bs' ind x rest b restb params :
  can_make_dir s refs fs ns nm d st bs bs' ind x rest b restb -> x / INODES_PER_GROUP < TOTAL_GROUPS ->
  p_path params = abs_path (ns ++ [nm]) -> p_file params = false ->
  let fs' := create_in fs d x st bs' ind (new_dir (p_mode params) b x d) in
  exists m' s', create_file_dir params s = Ok (result (p_path params) (Status 0), s') /\
    restored 0 (with_file m' s) s' refs /\ (holds m' fs' /\ tree_ok fs') /\
    (free_ok m' /\ free_inodes m' = rest /\ free_blocks m' = restb) /\
    (let g := group_descriptor (x / INODES_PER_GROUP) in
     NUMBER_DIRECTORIES_GROUP m' g = u16 (NUMBER_DIRECTORIES_GROUP (file s) g + 1)) /\
    (forall y, ~ control (file s) y -> (forall c, c ∈ b :: bs.*1 -> ~ in_block c y) ->
       ~ in_inode (inode_place (file s) x) y -> m' y = file s y).
Proof.
  intros [Hcc Hfo Hfb Hw] Hg Hp Hreg fs'.
  destruct (can_create_facts _ _ _ _ _ _ _ _ _ _ _ _ Hcc) as (_ & _ & Hr & _ & Hx & Hxr & Hne & _).
  destruct (create_dir_starts s refs fs ns nm d st bs bs' ind x rest params Hcc Hfo Hp Hreg)
    as (new & par & m2 & s8 & Ha8 & Hf8 & Hh2 & Hfo2 & Ei2 & Eb2 & Ep2 & D2 & S2 & X2 & Hrun & Hfin).
  destruct (room_entered _ _ _ _ _ _ _ _ _ _ _ _ Hcc) as [Hen Hbs].
  destruct Hcc as [(_ & _ & Hns) Hh Hok Hwk Hd Hnew Hfree Hroom _].
  pose proof (ho_number _ _ Hh d _ Hd) as Hdr. pose proof (io_max _ (io_ok _ (ho_inodes _ _ Hh))).
  subst m2. destruct (create_dir_contents_ok s8 (<[d := Dir st bs' ind]> fs) x d b restb (p_mode params))
    as (m3 & G & Hh3 & Hfo3 & Ei3 & Eb3 & Ep3 & Hnb & D3 & S3 & X3); rewrite ?Eb2; try done.
  { rewrite lookup_insert_ne; [done|congruence]. } { by rewrite Ei2. } { lia. }
  { by destruct (after_file _ _ _ Ha8). }
  rewrite Ep2 in G, Ep3, X3.
  destruct (Hfin (with_file m3 s8)) as (s' & G' & Hok' & Ha' & Hst'); [done|].
  assert (tree_ok fs') as Hok3.
  { apply (tree_with_dir fs d x st bs bs' ind (create_entry nm x)); try done. intros n nd Hn Hb.
    apply (tb_used _ _ (ho_taken _ _ Hh n nd b Hn Hb)). rewrite Hfb. by left. }
  exists m3, s'. split_and!; try done.
  - by rewrite Hrun, (bind_ok _ _ _ _ _ G).
  - split_and!; [done| |done]. eapply after_trans; [by apply (after_with_file 0 m3 _ _ Ha8)|exact Ha'].
  - by rewrite Ei3.
  - cbv zeta. set (g := x / INODES_PER_GROUP) in *.
    assert (in_groups g) as Hgg by (split; [apply Z.div_pos; [lia|apply (io_ok _ (ho_inodes _ _ Hh))]|done]).
    assert (forall y, group_descriptor g + 16 <= y < group_descriptor g + 16 + Z.of_nat 2 -> spare y) as Hsp
      by (intros y Hy; exists g; unfold sizeof_Group_Descriptor; split; [done|lia]).
    transitivity (NUMBER_DIRECTORIES_GROUP (counted_directory (file s8) g) (group_descriptor g)).
    { apply (load_ext 2). intros y Hy. by apply S3, Hsp. }
    unfold counted_directory. etransitivity; [apply load16_store16_same|]. do 2 f_equal.
    apply (load_ext 2). intros y Hy. by apply S2, Hsp.
  - intros y H1 H2 H3. rewrite X3, X2; [done|done| |intros Hc; apply H1; by apply (control_same (file s) (file s8))| |done].
    + intros c Hc. apply H2. by right.
    + apply H2. by left.
Qed.

(** C9: Creating a directory: on an image that holds a tree, when the parent is there, the name is new, an
    inode and a block are free and a block of the parent has room, [create_file_dir] answers 0, with the
    table, the locks and errno as they should be, and the image then holds the tree with the new
    directory: its path leads to it, as does "." in it, ".." leads to the parent, every other path leads
    where it led; the first free inode and the first free block are taken; the counter that goes up is that
    of the group [x / INODES_PER_GROUP]; all bytes but the counters and bitmaps, the blocks of the parent,
    the new block and the inode stay. *)
Theorem create_dir_enters s refs fs ns nm d st bs bs' ind x rest b restb params :
  can_make_dir s refs fs ns nm d st bs bs' ind x rest b restb -> x / INODES_PER_GROUP < TOTAL_GROUPS ->
  p_path params = abs_path (ns ++ [nm]) -> p_file params = false ->
  exists m' s', create_file_dir params s = Ok (result (p_path params) (Status 0), s') /\
    restored 0 (with_file m' s) s' refs /\
    (let fs' := create_in fs d x st bs' ind (new_dir (p_mode params) b x d) in holds m' fs' /\ tree_ok fs') /\
    (free_ok m' /\ free_inodes m' = rest /\ free_blocks m' = restb) /\
    (let here := Some (inode_place m' x, x) in
     path_resolves m' (ns ++ [nm]) here /\ path_resolves m' ((ns ++ [nm]) ++ [str "."]) here /\
     path_resolves m' ((ns ++ [nm]) ++ [str ".."]) (Some (inode_place m' d, d))) /\
    (forall ns' k, Forall name_ok ns' -> tree_walk fs ROOT_INODE_NUMBER ns' = Some (Some k) ->
       path_resolves m' ns' (Some (inode_place m' k, k))) /\
    (let g := group_descriptor (x / INODES_PER_GROUP) in
     NUMBER_DIRECTORIES_GROUP m' g = u16 (NUMBER_DIRECTORIES_GROUP (file s) g + 1)) /\
    (forall y, ~ control (file s) y -> (forall c, c ∈ b :: bs.*1 -> ~ in_block c y) ->
       ~ in_inode (inode_place (file s) x) y -> m' y = file s y).
Proof.
  intros Hmk Hg Hp Hreg. pose proof Hmk as [Hcc _ _ _].
  destruct (can_create_facts _ _ _ _ _ _ _ _ _ _ _ _ Hcc) as (_ & _ & Hr & _ & Hx & Hxr & Hne & _).
  destruct (room_entered _ _ _ _ _ _ _ _ _ _ _ _ Hcc) as [Hen Hbs].
  destruct (create_dir_run s refs fs ns nm d st bs bs' ind x rest b restb params Hmk Hg Hp Hreg)
    as (m3 & s' & Hrun & Hrest & [Hh3 Hok3] & Hfree & Hcount & X).
  destruct Hcc as [(_ & _ & Hns) Hh _ Hwk Hd Hnew _ _ _].
  pose proof (ho_number _ _ Hh d _ Hd) as Hdr. pose proof (proj1 (proj1 (Forall_app _ _ _) Hns)) as Hns'.
  set (fs' := create_in fs d x st bs' ind (new_dir (p_mode params) b x d)) in *.
  assert (tree_walk fs' ROOT_INODE_NUMBER (ns ++ [nm]) = Some (Some x)) as Hwx.
  { apply (walk_new fs d x st bs bs' ind _ (create_entry nm x)); try done. lia. }
  assert (forall dots k, tree_walk fs' x dots = Some (Some k) ->
    path_resolves m3 ((ns ++ [nm]) ++ dots) (Some (inode_place m3 k, k))) as Hdots.
  { intros dots k Hk. apply (tree_path_resolves m3 fs' _ (Some k)); [done..|]. by rewrite tree_walk_app, Hwx. }
  assert (fs' !! x = Some (new_dir (p_mode params) b x d)) as Hfx by apply lookup_insert_eq.
  exists m3, s'. split_and!; try done; try apply Hfree.
  - cbv zeta. split_and!.
    + pose proof (Hdots [] x eq_refl) as H1. by rewrite app_nil_r in H1.
    + apply Hdots. cbn [tree_walk]. rewrite Hfx. cbn. by rewrite (proj2 (Z.eqb_neq x 0)) by lia.
    + apply Hdots. cbn [tree_walk]. rewrite Hfx. cbn. rewrite andb_false_r. by rewrite (proj2 (Z.eqb_neq d 0)) by lia.
  - intros ns' k Hns2 Hk. apply (tree_path_resolves m3 fs' _ (Some k)); [done..|].
    by eapply (walk_kept fs d x st bs bs' ind _ (create_entry nm x)).
Qed.

(** A directory is counted in the wrong group: when the new inode is the last of its group, the group
    is [x / INODES_PER_GROUP - 1], and [setDirInode] counts the directory in the next one; behind the last
    group there is none, and the server dereferences NULL, with the inode taken and the name entered. *)
Lemma create_dir_last_inode s refs fs ns nm d st bs bs' ind x rest params :
  can_create s refs fs ns nm d st bs bs' ind x rest -> free_ok (file s) ->
  p_path params = abs_path (ns ++ [nm]) -> p_file params = false -> x mod INODES_PER_GROUP = 0 ->
  Inode_locateGroup x = x / INODES_PER_GROUP - 1 /\
  (x = TOTAL_GROUPS * INODES_PER_GROUP -> create_file_dir params s = Fail NullDeref).
Proof.
  intros Hcc Hfo Hp Hreg Hmod.
  destruct (can_create_facts _ _ _ _ _ _ _ _ _ _ _ _ Hcc) as (_ & _ & Hr & _).
  pose proof (io_ok _ (ho_inodes _ _ (cc_holds _ _ _ _ _ _ _ _ _ _ _ _ Hcc))) as Hgo.
  pose proof (io_ipg _ Hgo) as [Hipg _]. pose proof (io_max _ Hgo). split.
  - destruct (inode_split x Hipg ltac:(done) Hr) as ([Hg0 Hg1] & Hi & E). unfold inode_of in E.
    assert (x = (x / INODES_PER_GROUP) * INODES_PER_GROUP) as Ex by (pose proof (Z.div_mod x INODES_PER_GROUP); lia).
    set (q := x / INODES_PER_GROUP) in *. set (g := Inode_locateGroup x) in *. set (k := Inode_getLocalIndex x) in *.
    assert (0 < (q - g) * INODES_PER_GROUP < 2 * INODES_PER_GROUP) by lia. nia.
  - intros ->.
    destruct (create_dir_starts s refs fs ns nm d st bs bs' ind _ rest params Hcc Hfo Hp Hreg)
      as (new & par & m2 & s8 & _ & _ & _ & _ & _ & _ & _ & _ & _ & _ & -> & _).
    unfold create_dir_contents, setDirInode, Group_Descriptor_read.
    rewrite Z.div_mul by lia. by rewrite Z.ltb_irrefl.
Qed.
End Contents.

(** ** Witnesses: the demo image with a free block, and with only its last
    inode free *)

Definition mkdir_image : mem :=
  store32 (store16 (store16 create_image 3072 65023) 2060 1) SuperBlock.TOTAL_UNALLOCATED_BLOCKS 1.
Definition last_image : mem :=
  store_byte (store16 (store32 create_image SuperBlock.TOTAL_UNALLOCATED_INODES 1) 2062 1) 4096 127.

Lemma store_range w (m : mem) a v x : ~ (a <= x < a + w) -> store w m a v x = m x.
Proof. intros Hx. symmetry. apply store_same_outside, in_range_false. exact Hx. Defined.

Lemma mkdir_image_inodes : @inodes_ok demo_sb mkdir_image.
Proof.
  assert (mem_ok mkdir_image) as Hm by (repeat apply store_mem_ok; exact create_image_mem_ok).
  demo_inodes_ok Hm.
  replace (@free_blocks demo_sb mkdir_image) with [10] by (vm_compute; reflexivity).
  apply Forall_cons; split; [|constructor]. split_and!; [vm_compute; congruence|..];
    demo_group; right; vm_compute; congruence.
Defined.

Lemma mkdir_image_holds : @holds demo_sb mkdir_image demo_tree.
Proof.
  apply demo_holds; [exact mkdir_image_inodes|demo_tables_ok|vm_compute; reflexivity..| | |].
  1-2: split; refine (bool_decide_unpack _ _); vm_compute; exact I.
  intros x Hx. unfold mkdir_image, store32, store16, SuperBlock.TOTAL_UNALLOCATED_BLOCKS, SUPERBLOCK_START.
  rewrite !store_range by lia. done.
Defined.

Lemma mkdir_image_data : @free_ok demo_sb mkdir_image.
Proof.
  intros b Hb. replace (@free_blocks demo_sb mkdir_image) with [10] in Hb by (vm_compute; reflexivity).
  apply list_elem_of_singleton in Hb as ->. apply demo_data_place; [vm_compute; reflexivity..|lia].
Defined.

Lemma last_image_inodes : @inodes_ok demo_sb last_image.
Proof.
  assert (mem_ok last_image) as Hm by (apply store_byte_mem_ok; repeat apply store_mem_ok; exact create_image_mem_ok).
  demo_inodes_ok Hm.
  replace (@free_blocks demo_sb last_image) with (@nil Z) by (vm_compute; reflexivity). constructor.
Defined.

Lemma last_image_holds : @holds demo_sb last_image demo_tree.
Proof.
  apply demo_holds; [exact last_image_inodes|demo_tables_ok|vm_compute; reflexivity..| | |].
  1-2: split; refine (bool_decide_unpack _ _); vm_compute; exact I.
  intros x Hx. unfold last_image, store_byte, store32, store16, SuperBlock.TOTAL_UNALLOCATED_INODES, SUPERBLOCK_START.
  rewrite (proj2 (Z.eqb_neq _ _)) by lia. rewrite !store_range by lia. done.
Defined.

#[local] Instance mkdir_superblock : Superblock_constants := demo_sb.
#[local] Instance mkdir_word_after : Word_after_array := fun _ => 0.

Definition mkdir_server : rfs sample_cache := with_file mkdir_image demo_server.
Definition last_server : rfs sample_cache := with_file last_image demo_server.

Definition root_with_b (x : Z) : list dentry :=
  [demo_dentry 2 12 (str "."); demo_dentry 2 12 (str ".."); demo_dentry 3 12 (str "a"); demo_dentry x 988 (str "b")].

Lemma mkdir_can_create m x rest :
  m = mkdir_image /\ x = 4 /\ rest = [5; 6; 7; 8] \/ m = last_image /\ x = 8 /\ rest = [] ->
  can_create (with_file m demo_server : rfs sample_cache) [] demo_tree [] (str "b") 2
    {| i_mode := 16877; i_links := 0; i_size := 1024 |} [(6, root_entries)] [(6, root_with_b x)] [] x rest.
Proof.
  intros Hm. split.
  - split_and!; [split; constructor|vm_compute; reflexivity|]. apply Forall_cons; split; [|constructor].
    split; [discriminate|]. refine (bool_decide_unpack _ _). vm_compute. exact I.
  - destruct Hm as [[-> _]|[-> _]]; [exact mkdir_image_holds|exact last_image_holds].
  - exact demo_tree_ok.
  - reflexivity.
  - reflexivity.
  - vm_compute. reflexivity.
  - destruct Hm as [(-> & -> & ->)|(-> & -> & ->)]; vm_compute; reflexivity.
  - destruct Hm as [(_ & -> & _)|(_ & -> & _)]; vm_compute; reflexivity.
  - split; [reflexivity|]. refine (bool_decide_unpack _ _). vm_compute. exact I.
Defined.

Lemma create_dir_enters_witness :
  exists m' s', create_file_dir (demo_create false (str "b")) mkdir_server = Ok (result (str "/b") (Status 0), s') /\
    path_resolves m' [str "b"; str "."] (Some (inode_place m' 4, 4)) /\
    path_resolves m' [str "b"; str ".."] (Some (inode_place m' 2, 2)) /\ free_blocks m' = [].
Proof.
  destruct (@create_dir_enters demo_sb demo_sb_ok mkdir_word_after sample_cache mkdir_server [] demo_tree [] (str "b")
    2 {| i_mode := 16877; i_links := 0; i_size := 1024 |} [(6, root_entries)] [(6, root_with_b 4)] [] 4 [5; 6; 7; 8]
    10 [] (demo_create false (str "b"))) as (m' & s' & Hrun & _ & _ & (_ & _ & Hb) & (_ & Hdot & Hdots) & _).
  - split; [apply mkdir_can_create; left; split_and!; reflexivity|exact mkdir_image_data|vm_compute; reflexivity|reflexivity].
  - vm_compute. reflexivity.
  - reflexivity.
  - reflexivity.
  - exists m', s'. split; [exact Hrun|]. split; [exact Hdot|]. split; [exact Hdots|exact Hb].
Defined.

Lemma create_dir_last_inode_witness :
  create_file_dir (demo_create false (str "b")) last_server = Fail NullDeref.
Proof.
  destruct (@create_dir_last_inode demo_sb demo_sb_ok mkdir_word_after sample_cache last_server [] demo_tree []
    (str "b") 2 _ _ _ _ 8 _ (demo_create false (str "b"))
    (mkdir_can_create last_image 8 [] (or_intror (conj eq_refl (conj eq_refl eq_refl))))) as [_ H].
  - intros b Hb. replace (@free_blocks demo_sb (file last_server)) with (@nil Z) in Hb by (vm_compute; reflexivity).
    by apply not_elem_of_nil in Hb.
  - reflexivity.
  - reflexivity.
  - reflexivity.
  - apply H. reflexivity.
Defined.
