(* ===== verification/Removes.v ===== *)
(** * Removes: an entry taken out, and a file's blocks given back

    The parts of a deletion: what the tree is without a file and its entry,
    and the writes of the code that do it: [delete_entry], [Remove_Blocks] on
    the direct blocks, [Clear_Inode]. *)

From S2P Require Import Prelude Memory Bitarray Ext2 Ext2Facts CString Paths Rfs ActiveFiles Alloc AllocFacts InodeAlloc BlockMap Dirs DirFacts Walk FileOps Serial Requests SerialFacts Lookups Tree TreeSteps Enters.

(** ** An entry less *)

(** What the names of a directory depend on. *)
Definition entry_key (d : dentry) : Z * list Z := (de_inode d, de_name d).

Section Entries.
Implicit Types (l : list dentry) (d p t : dentry) (name : list Z).

Lemma dir_find_keys l l' name : entry_key <$> l = entry_key <$> l' -> dir_find name l = dir_find name l'.
Proof.
  revert l'. induction l as [|d l IH]; intros [|d' l']; [done..|]. intros [= Ei En El]. cbn [dir_find].
  by rewrite Ei, En, (IH l' El).
Qed.

Lemma keys_elem l l' d :
  entry_key <$> l = entry_key <$> l' -> d ∈ l -> exists d', d' ∈ l' /\ de_inode d' = de_inode d /\ de_name d' = de_name d.
Proof.
  intros E Hd. apply (list_elem_of_fmap_2 entry_key) in Hd. rewrite E in Hd.
  apply list_elem_of_fmap in Hd as (d' & Hk & Hd'). exists d'. unfold entry_key in Hk. split; [done|]. by injection Hk as -> ->.
Qed.

(** The entry behind [p :: l1] goes, its space to a neighbour. *)
Lemma take_out_keys name p l1 t l2 :
  name ∉ de_name <$> l1 -> de_name t = name ->
  entry_key <$> take_out name p (l1 ++ t :: l2) = entry_key <$> p :: l1 ++ l2.
Proof.
  intros Hl1 Ht. revert p. induction l1 as [|d l1 IH]; intros p; cbn [app take_out].
  - rewrite bool_decide_eq_true_2 by done. by destruct l2.
  - cbn [fmap list_fmap] in Hl1. apply not_elem_of_cons in Hl1 as [Hd Hl1].
    rewrite bool_decide_eq_false_2 by done. change ((d :: l1) ++ t :: l2) with (d :: l1 ++ t :: l2).
    rewrite !fmap_cons. f_equal. by rewrite (IH Hl1 d).
Qed.

Lemma dir_find_none name l : name ∉ de_name <$> l -> dir_find name l = None.
Proof.
  induction l as [|d l IH]; [done|]. cbn [fmap list_fmap]. intros [Hd Hl]%not_elem_of_cons. cbn [dir_find].
  rewrite bool_decide_eq_false_2 by done. rewrite andb_false_r. by apply IH.
Qed.

(** [l'] is [l] without the entries called [name]. *)
Record removed name l l' : Prop := {
  rm_other : forall nm, nm <> name -> dir_find nm l' = dir_find nm l;
  rm_gone : name ∉ de_name <$> l';
  rm_entries : forall d, d ∈ l' -> exists d0, d0 ∈ l /\ de_inode d0 = de_inode d /\ de_name d0 = de_name d
}.

Lemma take_out_removed name p l1 t l2 l3 :
  de_name t = name -> name ∉ de_name <$> (p :: l1 ++ l2) ++ l3 ->
  removed name ((p :: l1 ++ t :: l2) ++ l3) (take_out name p (l1 ++ t :: l2) ++ l3).
Proof.
  intros Ht Hn.
  assert (name ∉ de_name <$> l1) as Hl1.
  { intros Hin. apply Hn. rewrite fmap_app, fmap_cons, fmap_app. apply elem_of_app. left. right. apply elem_of_app. by left. }
  assert (entry_key <$> take_out name p (l1 ++ t :: l2) ++ l3 = entry_key <$> (p :: l1 ++ l2) ++ l3) as E.
  { rewrite !fmap_app, take_out_keys by done. by rewrite fmap_cons, fmap_app. }
  split.
  - intros nm Hne. rewrite (dir_find_keys _ _ nm E).
    change (p :: l1 ++ l2) with ([p] ++ l1 ++ l2). change (p :: l1 ++ t :: l2) with ([p] ++ l1 ++ [t] ++ l2).
    rewrite !dir_find_app. cbn [dir_find]. rewrite (bool_decide_eq_false_2 (de_name t = nm)) by congruence.
    by rewrite andb_false_r.
  - intros Hin. apply Hn. apply list_elem_of_fmap in Hin as (d & -> & Hd).
    destruct (keys_elem _ _ d E Hd) as (d' & Hd' & _ & <-). by apply list_elem_of_fmap_2.
  - intros d Hd. destruct (keys_elem _ _ d E Hd) as (d' & Hd' & Hi & Hnm). exists d'. split; [|done].
    revert Hd'. rewrite !elem_of_app, !elem_of_cons, !elem_of_app, !elem_of_cons. tauto.
Qed.
End Entries.

(** ** The tree without the file *)

Section Without.
Implicit Types (fs : gmap Z node) (bs : list (Z * list dentry)).

Definition delete_in fs (d f : Z) st bs' ind : gmap Z node := delete f (<[d := Dir st bs' ind]> fs).

(** No other entry names the inode, but for those it has itself. *)
Definition one_link fs (d f : Z) (name : list Z) : Prop :=
  forall n st bs ind e, n <> f -> fs !! n = Some (Dir st bs ind) -> e ∈ entries_of bs -> de_inode e = f ->
  n = d /\ de_name e = name.

(** The walk does not come to the node. *)
Definition avoids fs (f n : Z) (ns : list (list Z)) : Prop :=
  forall ns1 ns2, ns = ns1 ++ ns2 -> tree_walk fs n ns1 <> Some (Some f).

Lemma delete_in_lookup fs d f st bs' ind n nd :
  delete_in fs d f st bs' ind !! n = Some nd ->
  n <> f /\ (n = d /\ nd = Dir st bs' ind \/ n <> d /\ fs !! n = Some nd).
Proof.
  unfold delete_in. rewrite lookup_delete_Some, lookup_insert_Some. intros [Hf [[<- <-]|[Hd Hn]]]; [|eauto].
  split; [done|]. by left.
Qed.

Lemma delete_in_keeps fs d f st bs' ind n nd :
  n <> f -> fs !! n = Some nd -> delete_in fs d f st bs' ind !! n = Some (if decide (n = d) then Dir st bs' ind else nd).
Proof.
  intros Hf Hn. unfold delete_in. rewrite lookup_delete_ne by done.
  case_decide as E; [by rewrite E, lookup_insert_eq|by rewrite lookup_insert_ne by done].
Qed.

Lemma tree_deleted fs d f st bs bs' ind name :
  tree_ok fs -> fs !! d = Some (Dir st bs ind) -> ROOT_INODE_NUMBER <> f ->
  one_link fs d f name -> bs'.*1 = bs.*1 -> removed name (entries_of bs) (entries_of bs') ->
  tree_ok (delete_in fs d f st bs' ind).
Proof.
  intros [Hroot Hclosed Hnodup Hapart] Hd Hne Hone Hbs Hrm.
  assert (forall n nd, delete_in fs d f st bs' ind !! n = Some nd ->
            exists nd0, fs !! n = Some nd0 /\ node_blocks nd0 = node_blocks nd) as Hback.
  { intros n nd Hn. apply delete_in_lookup in Hn as [_ [[-> ->]|[_ Hn]]]; [|by exists nd].
    exists (Dir st bs ind). split; [done|]. cbn. by rewrite Hbs. }
  split.
  - destruct Hroot as (st0 & bs0 & ind0 & Hr).
    rewrite (delete_in_keeps _ _ _ _ _ _ _ _ Hne Hr). case_decide; eauto.
  - intros n st0 bs0 ind0 e Hn He Hz. apply delete_in_lookup in Hn as [Hnf Hn].
    assert (de_inode e <> f /\ is_Some (fs !! de_inode e)) as [Hef [nd Hnd]].
    { destruct Hn as [[-> [= -> -> ->]]|[Hnd Hn]].
      - destruct (rm_entries _ _ _ Hrm e He) as (e0 & He0 & Ei & En). rewrite <- Ei in *. split.
        + intros Ef. destruct (Hone d st bs ind e0 Hnf Hd He0 Ef) as [_ E].
          apply (rm_gone _ _ _ Hrm). apply list_elem_of_fmap. exists e. split; [congruence|done].
        + by apply (Hclosed d st bs ind e0).
      - split; [|by apply (Hclosed n st0 bs0 ind0 e)]. intros Ef. by destruct (Hone n st0 bs0 ind0 e Hnf Hn He Ef). }
    by rewrite (delete_in_keeps _ _ _ _ _ _ _ _ Hef Hnd).
  - intros n nd Hn. destruct (Hback n nd Hn) as (nd0 & Hn0 & <-). by apply (Hnodup n).
  - intros n n' nd nd' b Hn Hn' Hnn Hb Hb'.
    destruct (Hback n nd Hn) as (nd0 & Hn0 & E0). destruct (Hback n' nd' Hn') as (nd1 & Hn1 & E1).
    apply (Hapart n n' nd0 nd1 b Hn0 Hn1 Hnn); congruence.
Qed.

(** A path that does not come to the node leads where it led. *)
Lemma walk_kept_without fs d f st bs bs' ind name :
  fs !! d = Some (Dir st bs ind) -> removed name (entries_of bs) (entries_of bs') ->
  dir_find name (entries_of bs) = Some f ->
  forall ns n k, avoids fs f n ns -> tree_walk fs n ns = Some (Some k) ->
    tree_walk (delete_in fs d f st bs' ind) n ns = Some (Some k).
Proof.
  intros Hd Hrm Hname ns. induction ns as [|nm ns IH]; intros n k Hav; [done|]. cbn [tree_walk].
  destruct (fs !! n) as [nd|] eqn:En; [|done].
  assert (n <> f) as Hnf by (intros ->; by apply (Hav [] (nm :: ns))).
  destruct nd as [st0 bs0 ind0| |]; [|done..]. destruct (dir_find nm (entries_of bs0)) as [k'|] eqn:Ek; [|done].
  intros Hw. assert (avoids fs f k' ns) as Hav'.
  { intros ns1 ns2 ->. specialize (Hav (nm :: ns1) ns2 eq_refl). cbn [tree_walk] in Hav. by rewrite En, Ek in Hav. }
  rewrite (delete_in_keeps _ _ _ _ _ _ _ _ Hnf En). case_decide as E; [|rewrite Ek; by apply IH].
  rewrite E, Hd in En. injection En as <- <- <-. rewrite (rm_other _ _ _ Hrm), Ek; [by apply IH|].
  intros ->. rewrite Hname in Ek. injection Ek as <-. by apply (Hav' [] ns).
Qed.

(** The name leads nowhere. *)
Lemma walk_gone fs d f st bs bs' ind name ns n :
  fs !! d = Some (Dir st bs ind) -> d <> f -> removed name (entries_of bs) (entries_of bs') ->
  dir_find name (entries_of bs) = Some f -> avoids fs f n ns ->
  tree_walk fs n ns = Some (Some d) -> tree_walk (delete_in fs d f st bs' ind) n (ns ++ [name]) = Some None.
Proof.
  intros Hd Hne Hrm Hname Hav Hw.
  rewrite tree_walk_app, (walk_kept_without fs d f st bs bs' ind name) with (k := d) by done.
  cbn [tree_walk]. rewrite (delete_in_keeps _ _ _ _ _ _ _ _ Hne Hd), decide_True by done.
  by rewrite (dir_find_none _ _ (rm_gone _ _ _ Hrm)).
Qed.

(** No path leads through what is not a directory. *)
Lemma file_avoided fs f st bl ind n ns k :
  fs !! f = Some (File st bl ind) -> tree_walk fs n ns = Some (Some k) -> k <> f -> avoids fs f n ns.
Proof.
  intros Hf Hw Hk ns1 ns2 -> Hw1. rewrite tree_walk_app, Hw1 in Hw. destruct ns2 as [|nm ns2].
  - injection Hw as <-. done.
  - cbn [tree_walk] in Hw. by rewrite Hf in Hw.
Qed.
End Without.

(** ** The writes of the code *)

Section Writing.
Context {Super_constants : Superblock_constants} {SO : Superblock_ok} {WA : Word_after_array}.
Context {C : Type} `{Memcached C}.
Abbreviation R := (rfs C).
Implicit Types (s : R) (m : mem) (i b f : Z) (fs : gmap Z node).

Lemma copy_in_file_mem_ok m to from m' : mem_ok m -> copy_entry_in_file m to from = Ok m' -> mem_ok m'.
Proof.
  intros Hm. unfold copy_entry_in_file. apply memcpy_mem_ok. by repeat (apply store_byte_mem_ok || apply store_mem_ok).
Qed.

Lemma delete_in_block_mem_ok fuel m end_ a acum name m' :
  mem_ok m -> delete_in_block fuel m end_ a acum name = Ok (Some m') -> mem_ok m'.
Proof.
  intros Hm. revert a acum. induction fuel as [|fuel IH]; intros a acum; cbn [delete_in_block]; [by case_match|].
  destruct (a <? end_); [|done]. cbv zeta. case_match; [|apply IH]. case_match.
  - intros [= <-]. by apply store_mem_ok.
  - destruct (copy_entry_in_file _ _ _) as [m1|] eqn:E; [intros [= <-]|done].
    eapply copy_in_file_mem_ok; [|exact E]. by apply store_mem_ok.
Qed.

(** The name behind the entry that goes, if any, is not longer than its
    record: what [copy_entry] moves does not overlap. *)
Definition next_fits (t : dentry) (l : list dentry) : bool :=
  match l with [] => true | d2 :: _ => name_fits t d2 end.

Lemma names_fit_out_at name l1 t l2 :
  name ∉ de_name <$> l1 -> de_name t = name -> names_fit_out name (l1 ++ t :: l2) = next_fits t l2.
Proof.
  intros Hn Ht. induction l1 as [|d l1 IH]; cbn [app names_fit_out].
  - by rewrite bool_decide_eq_true_2.
  - rewrite fmap_cons, not_elem_of_cons in Hn. destruct Hn as [Hd Hn].
    rewrite bool_decide_eq_false_2 by congruence. by apply IH.
Qed.

Lemma delete_entry_ok s i fid path name b p l1 t l2 rest ind :
  mem_ok (file s) -> dir_at (file s) i ((b, p :: l1 ++ t :: l2) :: rest) ind ->
  (forall c, c ∈ b :: rest.*1 -> c <> 0) ->
  path_at s fid = Some path -> active_file_get_file_name_of path = Some name ->
  de_name t = name -> de_name p <> name -> name ∉ de_name <$> l1 ->
  if next_fits t l2 then
    exists m', delete_entry (Some i) fid s = Ok (tt, with_file m' s) /\ mem_ok m' /\
      dir_block m' (block_addr b) (take_out name p (l1 ++ t :: l2)) (block_addr b + BLOCK_SIZE) /\
      (forall x, ~ in_block b x -> m' x = file s x)
  else delete_entry (Some i) fid s = Fail Overlap.
Proof.
  intros Hm Hd Hz Hp Hn Ht Hpn Hl1. pose proof (da_blocks _ _ _ _ Hd b _ ltac:(by left)) as Hb.
  pose proof block_size_pos as Hbs.
  assert (Inode_Get_Data_Adressess (file s) i (u32 (Inode.blocks (file s) i * 512)) = Some ((b :: rest.*1) ++ [0])) as Ha.
  { apply (dir_addresses _ _ _ _ _ Hd). by apply dir_blocks_size with (ind := ind). }
  assert (exists r0, delete_entry (Some i) fid s =
    match delete_in_block block_fuel (file s) (block_addr b + BLOCK_SIZE) (block_addr b) 0 name with
    | Fail f => fail f s | Ok (Some m) => put_file m s | Ok None => r0
    end) as [r0 ->].
  { eexists. unfold delete_entry. cbn [deref]. rewrite (bind_ok _ _ s i s), (bind_ok _ _ s (file s) s), Ha by done.
    rewrite (bind_ok _ _ _ _ _ (file_name_ok s fid path name Hp Hn)), until_EMPTY_all by done.
    cbn [delete_in_blocks]. rewrite (bind_ok _ _ s (file s) s) by done.
    destruct Hb as (Hat & _). rewrite (entry_has_name_at _ _ _ _ Hat), bool_decide_eq_false_2 by done.
    instantiate (1 := delete_in_blocks rest.*1 (0 + 1) i name s).
    by destruct (delete_in_block _ _ _ _ _ _) as [[m1|]|]. }
  assert (BLOCK_SIZE < 2 ^ 16) as Hbs2 by (destruct block_size_cases as [->|[->| ->]]; lia).
  assert (length (l1 ++ t :: l2) < block_fuel)%nat as Hf.
  { pose proof (dir_block_fuel _ _ _ _ Hb ltac:(lia)) as Hf. unfold block_fuel.
    replace (block_addr b + BLOCK_SIZE - block_addr b) with BLOCK_SIZE in Hf by lia. exact Hf. }
  pose proof (delete_in_block_take_out (file s) (block_addr b) (l1 ++ t :: l2) p block_fuel 0 name Hbs2 (Z.le_refl 0)) as Hc.
  rewrite Z.sub_0_r, names_fit_out_at in Hc by done. specialize (Hc Hb). destruct (next_fits t l2).
  - destruct Hc as (m' & Hrun & Hb' & Ho); [|done|].
    { rewrite fmap_app, fmap_cons, Ht. apply elem_of_app. right. by left. }
    exists m'. rewrite Hrun. split_and!; [done|by eapply delete_in_block_mem_ok|done|].
    intros x Hx. apply Ho. unfold in_block in Hx. lia.
  - rewrite Hc; [done| |done]. rewrite fmap_app, fmap_cons, Ht. apply elem_of_app. right. by left.
Qed.

(** ** The direct blocks of a file *)

Lemma coordinates_direct k : 0 <= k < 12 -> find_block_coordinates k = [k; -1; -1; -1].
Proof. intros Hk. unfold find_block_coordinates. by rewrite (proj2 (Z.leb_le 0 k)), (proj2 (Z.leb_le k 11)) by lia. Qed.

Lemma Remove_Block_direct i k :
  0 <= k < 12 -> Remove_Block (C := C) i k = clear_slot (Inode.pointer_data_0 i k).
Proof.
  intros Hk. unfold Remove_Block. rewrite coordinates_direct by done. cbn [used_levels].
  by rewrite (proj2 (Z.eqb_neq k (-1))) by lia.
Qed.

(** What is left of the blocks [bl] of the inode at [i] from the [k]-th on. *)
Record left_blocks m i k (bl : list Z) : Prop := {
  lb_few : 0 <= k /\ k + zlen bl <= 12;
  lb_nodup : NoDup bl;
  lb_taken : forall b, b ∈ bl -> taken_block m b;
  lb_pointers : forall j b, bl !! j = Some b -> load32 m (Inode.pointer_data_0 i (k + Z.of_nat j)) = b
}.

Lemma place_not_control m fs f x :
  holds m fs -> 1 <= f <= TOTAL_GROUPS * INODES_PER_GROUP -> in_inode (inode_place m f) x -> ~ control m x.
Proof.
  intros Hh Hr Hx. destruct (place_system m f x (io_ok m (ho_inodes _ _ Hh)) Hr Hx) as (g & Hg & Hx').
  by apply (table_control m g x (ho_tables _ _ Hh)).
Qed.

(** [n] pointers of the inode from the [k]-th on are zero, and no other byte
    is written but those of the counters and bitmaps. *)
Record cleared m m' i k (n : Z) : Prop := {
  cl_zero : forall j, k <= j < k + n -> load32 m' (Inode.pointer_data_0 i j) = 0;
  cl_frame : forall x, ~ control m x -> ~ (i + 40 + 4 * k <= x < i + 40 + 4 * (k + n)) -> m' x = m x
}.

Lemma cleared_outside m m' i k n x :
  cleared m m' i k n -> 0 <= k -> k + n <= 12 -> ~ control m x -> ~ in_inode i x -> m' x = m x.
Proof. intros Hc Hk Hn Hx Hi. apply (cl_frame _ _ _ _ _ Hc); [done|]. unfold in_inode, sizeof_inode in Hi. lia. Qed.

Lemma Remove_Block_ok s fs f k b bl :
  holds (file s) fs -> 1 <= f <= TOTAL_GROUPS * INODES_PER_GROUP -> fs !! f = None ->
  left_blocks (file s) (inode_place (file s) f) k (b :: bl) ->
  (forall n nd c, fs !! n = Some nd -> c ∈ b :: bl -> c ∉ node_blocks nd) ->
  exists m', Remove_Block (inode_place (file s) f) k s = Ok (tt, with_file m' s) /\
    holds m' fs /\ free_inodes m' = free_inodes (file s) /\ free_blocks m' ≡ₚ b :: free_blocks (file s) /\
    inode_place m' f = inode_place (file s) f /\ left_blocks m' (inode_place (file s) f) (k + 1) bl /\
    same_descriptors (file s) m' /\ same_tables (file s) m' /\ (forall x, spare x -> m' x = file s x) /\
    cleared (file s) m' (inode_place (file s) f) k 1.
Proof.
  intros Hh Hr Hf [[Hk0 Hk] Hnd Htk Hptr] Hnb. set (m := file s) in *. set (i := inode_place m f) in *.
  rewrite zlen_cons in Hk. pose proof (zlen_nonneg bl).
  pose proof (Hptr 0%nat b eq_refl) as Hb. rewrite Z.add_0_r in Hb. apply NoDup_cons in Hnd as [Hni Hnd].
  pose proof (Htk b ltac:(by left)) as Htb. pose proof Hh as [Hio Ht _ _ _ _]. pose proof (io_ok m Hio) as Hgo.
  pose proof (al_layout m (io_alloc m Hgo)) as Hl.
  destruct (setFreeBlockBitmap_ok s b (io_alloc m Hgo) (proj1 (tb_number m b Htb)) (tb_used m b Htb)
    (taken_data_block m b Hl Htb)) as (m1 & Hrun & Hfb & Hal & D & X). fold m in Hfb, D, X.
  destruct (holds_block_released m m1 fs b Hh Hal D X Hfb) as (Hh1 & Ef1 & T & X1).
  { intros n nd Hn. apply (Hnb n nd b Hn). by left. }
  assert (inode_place m1 f = i) as Ei.
  { apply place_same; [done|]. apply (place_range f); [apply Hgo|apply Hgo|done]. }
  set (m2 := store32 m1 (Inode.pointer_data_0 i k) 0).
  assert (forall x, ~ (i + 40 + 4 * k <= x < i + 40 + 4 * k + 4) -> m2 x = m1 x) as X2.
  { intros x Hx. symmetry. apply store_same_outside, in_range_false. exact Hx. }
  assert (forall x, in_inode i x -> ~ control m x) as Hctl.
  { intros x Hx. destruct (place_system m f x Hgo Hr Hx) as (g & Hg & Hx'). by apply (table_control m g x). }
  destruct (holds_spare_inode m1 m2 fs f Hh1 Hr Hf) as (Hh2 & Ef2 & Eb2 & Ep2 & D2 & T2).
  { apply store_mem_ok, (al_mem m1 Hal). }
  { intros x Hx. apply X2. rewrite Ei in Hx. unfold in_inode, sizeof_inode in Hx. lia. }
  exists m2. split_and!; [|done|congruence|by rewrite Eb2|by rewrite Ep2| | | | |].
  - rewrite Remove_Block_direct by lia. unfold clear_slot.
    rewrite (bind_ok _ _ s b s) by (unfold load_word, gets; by rewrite <- Hb). by rewrite (bind_ok _ _ _ _ _ Hrun).
  - split; [lia|done|..].
    + intros c Hc. destruct (Htk c ltac:(by right)) as [H1 H2 H3]. split; [done| |].
      * intros x Hx Hs. apply (H2 x Hx). apply (system_same m m1); [done..|]. by apply (system_same m1 m2).
      * rewrite Eb2, Hfb. intros [->|Hin]%elem_of_cons; done.
    + intros j c Hj. rewrite <- (Hptr (S j) c Hj). pose proof (lookup_lt_Some _ _ _ Hj).
      replace (k + 1 + Z.of_nat j) with (k + Z.of_nat (S j)) by lia. unfold zlen in Hk.
      transitivity (load32 m1 (Inode.pointer_data_0 i (k + Z.of_nat (S j)))); apply (load_ext 4); intros x Hx;
        unfold Inode.pointer_data_0 in Hx.
      * apply X2. lia.
      * apply X1, Hctl. unfold in_inode, sizeof_inode. lia.
  - by apply (same_descriptors_trans m m1).
  - by apply (same_tables_trans m m1).
  - intros x Hx. rewrite X2.
    + by apply X; apply (spare_not_block_counters m x Hl).
    + intros Hi. apply (Hctl x); [unfold in_inode, sizeof_inode; lia|by apply spare_control].
  - split.
    + intros j Hj. replace j with k by lia. apply load32_store32_same.
    + intros x Hx1 Hx2. rewrite X2, X1; [done|done|lia].
Qed.

(** The entries of the cache for [n] blocks from [k] on, deleted in turn. *)
Fixpoint uncache (path : list Z) (k : Z) (n : nat) (c : C) : C :=
  match n with
  | O => c
  | S n => uncache path (k + 1) n (memcached_delete (generate_key path k) c)
  end.

Lemma uncache_kept `{!MemcachedLaws C} path key n k c : cached c key = None -> cached (uncache path k n c) key = None.
Proof.
  revert k c. induction n as [|n IH]; intros k c Hc; [done|]. apply IH.
  destruct (decide (generate_key path k = key)) as [<-|Hne]; [apply cached_delete_same|].
  destruct (cached_delete_other c _ _ Hne) as [E|E]; congruence.
Qed.

Lemma uncache_others `{!MemcachedLaws C} path n k c key : kept (cached (uncache path k n c) key) (cached c key).
Proof.
  revert k c. induction n as [|n IH]; intros k c; [by left|]. cbn [uncache].
  destruct (IH (k + 1) (memcached_delete (generate_key path k) c)) as [->|E]; [|by right].
  destruct (decide (generate_key path k = key)) as [<-|Hne]; [right; apply cached_delete_same|by apply cached_delete_other].
Qed.

Lemma uncache_gone `{!MemcachedLaws C} path n k c j :
  k <= j < k + Z.of_nat n -> cached (uncache path k n c) (generate_key path j) = None.
Proof.
  revert k c. induction n as [|n IH]; intros k c Hj; [lia|]. cbn [uncache].
  destruct (decide (j = k)) as [->|]; [|apply IH; lia]. apply uncache_kept, cached_delete_same.
Qed.

Lemma Remove_Blocks_loop_ok path f fs bl : forall s k,
  holds (file s) fs -> 1 <= f <= TOTAL_GROUPS * INODES_PER_GROUP -> fs !! f = None ->
  left_blocks (file s) (inode_place (file s) f) k bl ->
  (forall n nd c, fs !! n = Some nd -> c ∈ bl -> c ∉ node_blocks nd) ->
  exists m', Remove_Blocks_loop (length bl) (inode_place (file s) f) k path s =
      Ok (tt, with_memc (uncache path k (length bl) (memc s)) (with_file m' s)) /\
    holds m' fs /\ free_inodes m' = free_inodes (file s) /\ free_blocks m' ≡ₚ bl ++ free_blocks (file s) /\
    inode_place m' f = inode_place (file s) f /\ same_descriptors (file s) m' /\ same_tables (file s) m' /\
    cleared (file s) m' (inode_place (file s) f) k (zlen bl).
Proof.
  induction bl as [|b bl IH]; intros s k Hh Hr Hf Hl Hnb.
  - exists (file s). split_and!; try done; [by destruct s|]. split; [|done]. change (zlen []) with 0. lia.
  - destruct (Remove_Block_ok s fs f k b bl Hh Hr Hf Hl Hnb) as (m1 & G & Hh1 & Ei1 & Eb1 & Ep1 & Hl1 & D1 & T1 & _ & X1).
    set (s1 := with_memc (memcached_delete (generate_key path k) (memc s)) (with_file m1 s)).
    destruct (IH s1 (k + 1)) as (m2 & G2 & Hh2 & Ei2 & Eb2 & Ep2 & D2 & T2 & X2); [done|done|done|change (file s1) with m1; by rewrite Ep1| |].
    { intros n nd c Hn Hc. apply (Hnb n nd c Hn). by right. }
    change (file s1) with m1 in *. exists m2. split_and!; [|done|congruence| |congruence|by eapply same_descriptors_trans|by eapply same_tables_trans|].
    + cbn [length Remove_Blocks_loop]. rewrite (bind_ok _ _ _ _ _ G), (bind_ok _ _ _ tt s1) by done.
      rewrite <- Ep1, G2. done.
    + rewrite Eb2, Eb1. symmetry. apply Permutation_middle.
    + rewrite Ep1 in X2. pose proof (lb_few _ _ _ _ Hl) as [Hk0 Hk12]. rewrite zlen_cons in *. pose proof (zlen_nonneg bl). split.
      * intros j Hj. destruct (decide (j = k)) as [->|]; [|apply (cl_zero _ _ _ _ _ X2); lia].
        rewrite <- (cl_zero _ _ _ _ _ X1 k ltac:(lia)). apply (load_ext 4). unfold Inode.pointer_data_0. intros x Hx.
        apply X2; [|lia]. apply (place_not_control m1 fs f); [done|done|rewrite Ep1]. unfold in_inode, sizeof_inode. lia.
      * intros x Hx Hi. rewrite (cl_frame _ _ _ _ _ X2), (cl_frame _ _ _ _ _ X1); try done; try lia.
        intros Hc. apply Hx. by apply (control_same _ m1).
Qed.
End Writing.
