(* ===== verification/Deletes.v ===== *)
(** * Deletes: a file deleted, end to end on the tree

    [delete_file] of [file_operations.c] for a file without indirect blocks,
    against the tree of [Tree]: the image that held a tree holds the tree
    without the file and its entry, with its blocks and its inode free and
    its blocks gone from the cache. *)

From S2P Require Import Prelude Memory Bitarray Ext2 Ext2Facts CString Paths Rfs ActiveFiles Alloc AllocFacts InodeAlloc BlockMap Dirs DirFacts Walk FileOps Serial Requests SerialFacts Lookups Tree TreeSteps Enters Creates Removes.

Section Operation.
Context {Super_constants : Superblock_constants} {SO : Superblock_ok} {WA : Word_after_array}.
Context {C : Type} `{Memcached C}.
Abbreviation R := (rfs C).
Implicit Types (s : R) (m : mem) (refs : list nat) (fs : gmap Z node) (i f b d : Z).

(** ** The writes, in their order *)

Lemma Clear_Inode_filled m i : Clear_Inode m i = filled_inode m i 0 0 0 0.
Proof. done. Qed.

Lemma Clear_Inode_outside m i x : ~ in_inode i x -> Clear_Inode m i x = m x.
Proof. rewrite Clear_Inode_filled. apply filled_outside. Qed.

Lemma file_left m fs f st bl :
  holds m fs -> NoDup bl -> fs !! f = Some (File st bl []) -> zlen bl <= 12 ->
  left_blocks m (inode_place m f) 0 bl.
Proof.
  intros Hh Hnd Hf Hl. destruct (ho_node _ _ Hh f _ Hf) as [_ Hat]. split; [lia|done|..].
  - intros b Hb. apply (ho_taken _ _ Hh f _ b Hf). cbn. by rewrite app_nil_r.
  - intros j b Hj. pose proof (lookup_lt_Some _ _ _ Hj). unfold zlen in Hl.
    rewrite <- (fa_pointers _ _ _ _ Hat m ltac:(done) j b Hj). unfold block_pointer.
    by rewrite (proj2 (Z.ltb_lt _ _)) by lia.
Qed.

Lemma Remove_Blocks_all s i (bl : list Z) path :
  zlen bl = Size_In_Blocks (Inode.size (file s) i) -> zlen bl <= 12 ->
  Remove_Blocks i (Size_In_Blocks (Inode.size (file s) i)) path s = Remove_Blocks_loop (length bl) i 0 path s.
Proof.
  intros E Hl. pose proof (zlen_nonneg bl). unfold Remove_Blocks.
  rewrite (bind_ok _ _ s (file s) s) by done. cbv zeta. rewrite <- E, (u32_small (zlen bl)) by lia.
  assert (u32 (zlen bl + (if zlen bl >? 0 then - zlen bl else zlen bl)) = 0) as ->.
  { destruct (Z.gtb_spec (zlen bl) 0); rewrite u32_small by lia; lia. }
  unfold zlen. by rewrite Z.sub_0_r, Nat2Z.id.
Qed.

(** ** An entry to take out *)

(** Where the entry is: in the block [sp_block] of the directory [sp_dir],
    not as its first entry. *)
Record spot := {
  sp_dir : Z; sp_stat : istat; sp_indirect : list Z; sp_block : Z;
  sp_first : dentry; sp_before : list dentry; sp_entry : dentry; sp_after : list dentry;
  sp_rest : list (Z * list dentry)
}.
Implicit Types (e : spot).

Definition sp_inode e : Z := de_inode (sp_entry e).
Definition sp_name e : list Z := de_name (sp_entry e).
Definition sp_blocks e : list (Z * list dentry) :=
  (sp_block e, sp_first e :: sp_before e ++ sp_entry e :: sp_after e) :: sp_rest e.
Definition left_blocks_of e : list (Z * list dentry) :=
  (sp_block e, take_out (sp_name e) (sp_first e) (sp_before e ++ sp_entry e :: sp_after e)) :: sp_rest e.

(** The bytes that move up for the entry behind do not overlap where they
    come from. *)
Definition copies_apart e : bool := next_fits (sp_entry e) (sp_after e).

(** The tree without the entry, and without what it names. *)
Definition unlink fs e : gmap Z node := <[sp_dir e := Dir (sp_stat e) (left_blocks_of e) (sp_indirect e)]> fs.
Definition without fs e : gmap Z node :=
  delete_in fs (sp_dir e) (sp_inode e) (sp_stat e) (left_blocks_of e) (sp_indirect e).

(** The directory [ns] has the entry, no other has its name or its inode, and
    the path to the directory does not come through what the entry names. *)
Record can_unlink s refs fs ns e : Prop := {
  cu_ready : ready s refs (ns ++ [sp_name e]);
  cu_holds : holds (file s) fs;
  cu_tree : tree_ok fs;
  cu_parent : tree_walk fs ROOT_INODE_NUMBER ns = Some (Some (sp_dir e));
  cu_avoids : avoids fs (sp_inode e) ROOT_INODE_NUMBER ns;
  cu_dir : fs !! sp_dir e = Some (Dir (sp_stat e) (sp_blocks e) (sp_indirect e));
  cu_others : sp_name e ∉ de_name <$> (sp_first e :: sp_before e ++ sp_after e) ++ entries_of (sp_rest e);
  cu_one_link : one_link fs (sp_dir e) (sp_inode e) (sp_name e);
  cu_used : sp_inode e <> 0
}.

Lemma can_unlink_facts s refs fs ns e :
  can_unlink s refs fs ns e ->
  dir_find (sp_name e) (entries_of (sp_blocks e)) = Some (sp_inode e) /\
  removed (sp_name e) (entries_of (sp_blocks e)) (entries_of (left_blocks_of e)) /\
  path_resolves (file s) (ns ++ [sp_name e]) (Some (inode_place (file s) (sp_inode e), sp_inode e)) /\
  path_resolves (file s) ns (Some (inode_place (file s) (sp_dir e), sp_dir e)) /\
  (1 <= sp_inode e <= TOTAL_GROUPS * INODES_PER_GROUP) /\ is_Some (fs !! sp_inode e) /\
  sp_dir e <> sp_inode e /\ ROOT_INODE_NUMBER <> sp_inode e /\
  (forall c, c ∈ (sp_blocks e).*1 -> taken_block (file s) c).
Proof.
  intros [(_ & _ & Hns) Hh Hok Hw Hav Hd Ho _ Hz]. pose proof (proj1 (proj1 (Forall_app _ _ _) Hns)) as Hns'.
  assert (dir_find (sp_name e) (entries_of (sp_blocks e)) = Some (sp_inode e)) as Hfind.
  { change (entries_of (sp_blocks e))
      with (([sp_first e] ++ sp_before e ++ [sp_entry e] ++ sp_after e) ++ entries_of (sp_rest e)).
    change (sp_first e :: sp_before e ++ sp_after e) with ([sp_first e] ++ sp_before e ++ sp_after e) in Ho.
    rewrite !dir_find_app. rewrite !fmap_app, !elem_of_app in Ho. rewrite !dir_find_none by tauto. cbn [dir_find].
    unfold sp_name. rewrite bool_decide_eq_true_2 by done. by rewrite (proj2 (Z.eqb_neq _ 0)) by done. }
  assert (is_Some (fs !! sp_inode e)) as [nd Hf].
  { destruct (dir_find_elem _ _ _ Hfind) as (_ & d & Hd' & E & _). rewrite <- E in Hz |- *.
    by apply (to_closed fs Hok _ _ _ _ d Hd). }
  pose proof (ho_number _ _ Hh _ _ Hf).
  split_and!; try done.
  - by apply take_out_removed.
  - apply (tree_path_resolves _ fs _ (Some (sp_inode e))); [done..|]. rewrite tree_walk_app, Hw. cbn [tree_walk].
    by rewrite Hd, Hfind.
  - by apply (tree_path_resolves _ fs _ (Some (sp_dir e))).
  - lia.
  - lia.
  - intros E. apply (Hav ns []); [by rewrite app_nil_r|by rewrite <- E].
  - intros E. apply (Hav [] ns); [done|by rewrite <- E].
  - intros c Hc. apply (ho_taken _ _ Hh (sp_dir e) _ c Hd). apply elem_of_app. by left.
Qed.

(** Both trees are well-formed, and the name leads nowhere in either. *)
Lemma unlinked_tree s refs fs ns e :
  can_unlink s refs fs ns e ->
  tree_ok (without fs e) /\ tree_walk (without fs e) ROOT_INODE_NUMBER (ns ++ [sp_name e]) = Some None /\
  (forall ns' k, avoids fs (sp_inode e) ROOT_INODE_NUMBER ns' ->
     tree_walk fs ROOT_INODE_NUMBER ns' = Some (Some k) -> tree_walk (without fs e) ROOT_INODE_NUMBER ns' = Some (Some k)).
Proof.
  intros Hcu. destruct (can_unlink_facts _ _ _ _ _ Hcu) as (Hfind & Hrm & _ & _ & _ & _ & Hdf & Hroot & _).
  destruct Hcu as [_ _ Hok Hw Hav Hd _ Hone _]. split_and!.
  - by apply (tree_deleted fs _ _ _ (sp_blocks e) _ _ (sp_name e)).
  - by apply (walk_gone fs _ _ _ (sp_blocks e) _ _ (sp_name e)).
  - intros ns' k Hav' Hk. by apply (walk_kept_without fs _ _ _ (sp_blocks e) _ _ (sp_name e)).
Qed.

(** Fewer nodes only take paths away. *)
Lemma walk_more fs f ns : forall n r, tree_walk (delete f fs) n ns = Some r -> tree_walk fs n ns = Some r.
Proof.
  induction ns as [|nm ns IH]; intros n r; [done|]. cbn [tree_walk].
  destruct (delete f fs !! n) as [nd|] eqn:E; [|done]. apply lookup_delete_Some in E as [_ ->].
  destruct nd as [st bs ind| |]; [|done..]. destruct (dir_find nm (entries_of bs)); [apply IH|done].
Qed.

Lemma unlink_ok s refs fs ns e : can_unlink s refs fs ns e -> tree_ok (unlink fs e).
Proof.
  intros Hcu. destruct (can_unlink_facts _ _ _ _ _ Hcu) as (_ & Hrm & _).
  destruct Hcu as [_ _ [Hroot Hclosed Hnodup Hapart] _ _ Hd _ _ _].
  assert (forall n nd, unlink fs e !! n = Some nd ->
            exists nd0, fs !! n = Some nd0 /\ node_blocks nd0 = node_blocks nd) as Hback.
  { intros n nd. unfold unlink. rewrite lookup_insert_Some. intros [[<- <-]|[_ Hn]]; [|by exists nd].
    by exists (Dir (sp_stat e) (sp_blocks e) (sp_indirect e)). }
  assert (forall n, is_Some (fs !! n) -> is_Some (unlink fs e !! n)) as Hkeep
    by (intros n Hn; apply lookup_insert_is_Some'; by right).
  split.
  - destruct Hroot as (st & bs & ind & Hr). unfold unlink. destruct (decide (sp_dir e = ROOT_INODE_NUMBER)) as [->|Hne].
    + rewrite lookup_insert_eq. eauto.
    + rewrite lookup_insert_ne by done. eauto.
  - intros n st bs ind d Hn Hin Hz. apply Hkeep. unfold unlink in Hn.
    apply lookup_insert_Some in Hn as [[_ [= _ <- _]]|[_ Hn]]; [|by apply (Hclosed n st bs ind d)].
    destruct (rm_entries _ _ _ Hrm d Hin) as (d0 & Hd0 & Ei & _). rewrite <- Ei in *. by apply (Hclosed _ _ _ _ d0 Hd).
  - intros n nd Hn. destruct (Hback n nd Hn) as (nd0 & Hn0 & <-). by apply (Hnodup n).
  - intros n n' nd nd' b Hn Hn' Hnn Hb Hb'.
    destruct (Hback n nd Hn) as (nd0 & Hn0 & E0). destruct (Hback n' nd' Hn') as (nd1 & Hn1 & E1).
    apply (Hapart n n' nd0 nd1 b Hn0 Hn1 Hnn); congruence.
Qed.

(** The image once the entry is out. *)
Record unlinked m m1 fs e : Prop := {
  ul_holds : holds m1 (unlink fs e);
  ul_place : forall n nd, fs !! n = Some nd -> inode_place m1 n = inode_place m n;
  ul_inodes : free_inodes m1 = free_inodes m;
  ul_blocks : free_blocks m1 = free_blocks m;
  ul_descriptors : same_descriptors m m1;
  ul_tables : same_tables m m1;
  ul_frame : forall x, ~ in_block (sp_block e) x -> m1 x = m x
}.

Lemma entry_deleted s (t : R) refs fs ns e fid :
  can_unlink s refs fs ns e -> file t = file s -> path_at t fid = Some (abs_path (ns ++ [sp_name e])) ->
  if copies_apart e then
    exists m1, delete_entry (Some (inode_place (file s) (sp_dir e))) fid t = Ok (tt, with_file m1 t) /\
      unlinked (file s) m1 fs e
  else delete_entry (Some (inode_place (file s) (sp_dir e))) fid t = Fail Overlap.
Proof.
  intros Hcu Ht Hid. destruct (can_unlink_facts _ _ _ _ _ Hcu) as (_ & _ & _ & _ & _ & _ & Hdf & _ & Htk).
  destruct Hcu as [(_ & _ & Hns) Hh Hok _ _ Hd Ho _ _]. set (m := file s) in *.
  pose proof Hh as [Hio _ _ _ Hnode _]. pose proof (io_ok m Hio) as Hgo.
  destruct (Hnode _ _ Hd) as [_ Hdir]. assert (sp_block e ∈ (sp_blocks e).*1) as Hb by by left.
  assert (forall c, c ∈ (sp_blocks e).*1 -> c <> 0) as Hz by (intros c Hc; pose proof (tb_number _ _ (Htk c Hc)); lia).
  assert (de_name (sp_first e) <> sp_name e) as Hfi by (intros E; apply Ho; rewrite <- E; by left).
  assert (sp_name e ∉ de_name <$> sp_before e) as Hbe.
  { intros E. apply Ho. rewrite fmap_app, fmap_cons, fmap_app, !elem_of_app, elem_of_cons, elem_of_app. tauto. }
  pose proof (al_mem m (io_alloc m Hgo)) as Hm.
  pose proof (delete_entry_ok t (inode_place m (sp_dir e)) fid (abs_path (ns ++ [sp_name e])) (sp_name e) (sp_block e)
    (sp_first e) (sp_before e) (sp_entry e) (sp_after e) (sp_rest e) (sp_indirect e)) as G.
  rewrite Ht in G. specialize (G Hm Hdir Hz Hid (file_name_abs_path _ _ Hns) eq_refl Hfi Hbe).
  unfold copies_apart. destruct (next_fits (sp_entry e) (sp_after e)); [|exact G].
  destruct G as (m1 & G & Hm1 & Hb1 & X1). exists m1. split; [done|].
  assert (holds m1 (unlink fs e)) as Hh1.
  { apply (holds_dir_written m m1 fs _ _ (sp_blocks e) _ _ (sp_block e)); try done. intros c es Hin.
    apply elem_of_cons in Hin as [[= -> ->]|Hin]; [done|].
    apply (block_ext m); [|apply (da_blocks _ _ _ _ Hdir); by right]. intros x Hx. apply X1.
    pose proof (to_nodup fs Hok _ _ Hd) as Hnd. apply NoDup_app in Hnd as [[Hni _]%NoDup_cons _].
    assert (c ∈ (sp_rest e).*1) as Hc by (apply list_elem_of_fmap; by exists (c, es)).
    apply (blocks_apart m c (sp_block e)); [apply Htk; by right|by apply Htk|by intros ->|done]. }
  destruct (control_frame m m1 Hio Hm1) as (_ & Ei & Eb & D & T).
  { intros x Hx. apply X1. intros Hbx. apply (tb_data m _ (Htk _ Hb) x Hbx). by apply control_system. }
  split; try done. intros n nd Hn. apply place_same; [done|]. by apply (in_groups_number m fs n nd Hh).
Qed.

(** Up to the lock of the parent. *)
Lemma unlink_starts s refs fs ns e :
  can_unlink s refs fs ns e ->
  let path := abs_path (ns ++ [sp_name e]) in
  exists id par s1 s2 s4 s5, active_file_list_find path s = Ok (id, s1) /\
    inode_of_file path s1 = Ok ((Some (inode_place (file s) (sp_inode e)), sp_inode e), s2) /\ file s2 = file s /\
    find_parent path s2 = Ok (par, s4) /\ path_of par s4 = Ok (parent_spelling ns, s4) /\
    inode_of_file (parent_spelling ns) s4 = Ok ((Some (inode_place (file s) (sp_dir e)), sp_dir e), s5) /\
    table_ok s5 (par :: id :: refs) /\ par <> id /\ path_at s5 id = Some path /\
    (forall j, j ∈ refs -> path_at s5 j = path_at s j) /\ after (errno s) s s5 /\ zlen refs + 2 < 2 ^ 32.
Proof.
  intros Hcu path. destruct (can_unlink_facts _ _ _ _ _ Hcu) as (_ & _ & Hres1 & Hres2 & _).
  pose proof (cu_ready _ _ _ _ _ Hcu) as Hready. pose proof Hready as (_ & Hrefs & Hns).
  rewrite zlen_app in Hrefs. change (zlen [sp_name e]) with 1 in Hrefs. pose proof (zlen_nonneg ns).
  destruct (open_bracket s refs _ _ Hready Hres1) as (id & s1 & s2 & G1 & G2 & Hok2 & Hat2 & Hst2 & Ha2).
  destruct (after_file _ _ _ Ha2) as [Hf2 He2].
  destruct (parent_bracket s2 refs id ns (sp_name e) (Some (inode_place (file s) (sp_dir e), sp_dir e)))
    as (par & s4 & s5 & G3 & G4 & G5 & Hok5 & Hpi & Hst5 & Ha5); [done|done|lia|done|by rewrite Hf2|].
  cbn [walk_errno] in Ha2, Ha5, He2. rewrite He2 in Ha5.
  exists id, par, s1, s2, s4, s5. split_and!; try done.
  - rewrite Hst5; [done|by left].
  - intros j Hj. rewrite Hst5 by by right. by apply Hst2.
  - by eapply after_trans.
  - lia.
Qed.

(** The blocks and the inode of a node go back, in any state with such an image. *)
Lemma inode_cleared m2 fs f :
  holds m2 fs -> 1 <= f <= TOTAL_GROUPS * INODES_PER_GROUP -> fs !! f = None ->
  let m3 := Clear_Inode m2 (inode_place m2 f) in
  holds m3 fs /\ free_inodes m3 = free_inodes m2 /\ free_blocks m3 = free_blocks m2 /\
  same_descriptors m2 m3 /\ same_tables m2 m3.
Proof.
  intros Hh Hr Hf m3. destruct (holds_spare_inode m2 m3 fs f Hh Hr Hf) as (Hh3 & Ei3 & Eb3 & _ & D3 & T3); [| |by split_and!].
  - apply filled_mem_ok, (al_mem m2 (io_alloc m2 (io_ok m2 (ho_inodes _ _ Hh)))).
  - intros x Hx. by apply Clear_Inode_outside.
Qed.

Lemma inode_returned (v : R) fs f :
  holds (file v) fs -> 1 <= f <= TOTAL_GROUPS * INODES_PER_GROUP -> fs !! f = None -> f ∉ free_inodes (file v) ->
  exists m4, setFreeInodeBitmap f v = Ok (tt, with_file m4 v) /\ holds m4 fs /\
    free_blocks m4 = free_blocks (file v) /\ free_inodes m4 ≡ₚ f :: free_inodes (file v) /\
    same_descriptors (file v) m4 /\ same_tables (file v) m4 /\
    (forall x, spare x \/ ~ control (file v) x -> m4 x = file v x).
Proof.
  intros Hh Hr Hf Hn. destruct (setFreeInodeBitmap_ok v f (ho_inodes _ _ Hh) Hr Hn) as (m4 & G & Ei & Hm).
  exists m4. split_and!; [done| |by apply Hm|done|by apply Hm|by apply Hm|].
  - apply (holds_inodes_moved (file v)); [done|done|]. intros n nd Hin. rewrite Ei. apply not_elem_of_cons.
    split; [congruence|by apply (ho_used _ _ Hh n nd)].
  - pose proof (al_layout _ (io_alloc _ (io_ok _ (ho_inodes _ _ Hh)))) as Hl. intros x [Hx|Hx]; apply (im_frame _ _ Hm).
    + by apply spare_not_inode_counters.
    + by intros Hc%inode_metadata_control.
Qed.

(** ** delete_file *)

(** A path that leads nowhere: the start of both deletions. *)
Lemma missing_bracket s refs ns :
  ready s refs ns -> path_resolves (file s) ns None ->
  exists id s1 s2 s3, active_file_list_find (abs_path ns) s = Ok (id, s1) /\
    inode_of_file (abs_path ns) s1 = Ok ((None, 0), s2) /\
    active_file_finished_using id s2 = Ok (tt, s3) /\ restored ENOENT s s3 refs.
Proof.
  intros Hready Hres. pose proof Hready as (_ & Hrefs & _). pose proof (zlen_nonneg ns).
  destruct (open_bracket s refs ns None Hready Hres) as (id & s1 & s2 & G1 & G2 & Hok2 & _ & Hst2 & Ha2).
  destruct (finish_inv s2 (id :: refs) refs _ id Hok2) as (s3 & G3 & Hok3 & _ & Hst3 & Hm3);
    [done|rewrite zlen_cons; lia|done|].
  exists id, s1, s2, s3. split_and!; try done. split_and!; [done|by eapply after_moved_trans|].
  intros j Hj. by rewrite Hst3, Hst2.
Qed.

Lemma delete_file_missing s refs ns params :
  ready s refs ns -> path_resolves (file s) ns None -> p_path params = abs_path ns ->
  exists s', delete_file params s = Ok (result (p_path params) (Status 1), s') /\ restored ENOENT s s' refs.
Proof.
  intros Hready Hres Hp. destruct (missing_bracket s refs ns Hready Hres) as (id & s1 & s2 & s3 & G1 & G2 & G3 & Hrest).
  exists s3. split; [|done]. unfold delete_file.
  by rewrite Hp, (bind_ok _ _ _ _ _ G1), (bind_ok _ _ _ _ _ G2), (bind_ok _ _ _ _ _ G3).
Qed.

(** The entry names a file without indirect blocks. *)
Record can_delete s refs fs ns e st bl : Prop := {
  cd_unlink : can_unlink s refs fs ns e;
  cd_file : fs !! sp_inode e = Some (File st bl []);
  cd_few : zlen bl <= 12
}.

Lemma without_apart fs e nd bs n nd' c :
  tree_ok fs -> fs !! sp_dir e = Some (Dir (sp_stat e) (sp_blocks e) (sp_indirect e)) ->
  fs !! sp_inode e = Some nd -> node_blocks nd = bs ->
  without fs e !! n = Some nd' -> c ∈ bs -> c ∉ node_blocks nd'.
Proof.
  intros Hok Hd Hf <- Hn Hc Hin. apply delete_in_lookup in Hn as [Hnf Hn].
  assert (exists nd0, fs !! n = Some nd0 /\ c ∈ node_blocks nd0) as (nd0 & Hn0 & Hc0).
  { destruct Hn as [[-> ->]|[_ Hn]]; [|by exists nd'].
    by exists (Dir (sp_stat e) (sp_blocks e) (sp_indirect e)). }
  by apply (to_apart fs Hok _ n _ nd0 c Hf Hn0 ltac:(congruence)).
Qed.

Lemma file_released s fs refs ns e st bl m1 (u : R) path :
  can_delete s refs fs ns e st bl -> unlinked (file s) m1 fs e -> file u = m1 ->
  let i := inode_place (file s) (sp_inode e) in
  let c := uncache path 0 (length bl) (memc u) in
  exists m2 m4, Remove_Blocks i (Size_In_Blocks (Inode.size m1 i)) path u = Ok (tt, with_memc c (with_file m2 u)) /\
    setFreeInodeBitmap (sp_inode e) (with_memc c (with_file (Clear_Inode m2 i) u))
      = Ok (tt, with_memc c (with_file m4 u)) /\
    holds m4 (without fs e) /\ (free_ok (file s) -> free_ok m4) /\ free_blocks m4 ≡ₚ bl ++ free_blocks (file s) /\
    free_inodes m4 ≡ₚ sp_inode e :: free_inodes (file s) /\
    (forall x, ~ control (file s) x -> ~ in_block (sp_block e) x -> ~ in_inode i x -> m4 x = file s x).
Proof.
  intros [Hcu Hf Hfew] [Hh1 Hp1 Ei1 Eb1 D1 T1 X1] Hu i c. subst m1. pose proof Hcu as [_ _ Hok _ _ Hd _ _ _].
  destruct (can_unlink_facts _ _ _ _ _ Hcu) as (_ & _ & _ & _ & Hr & _ & Hdf & _). set (f := sp_inode e) in *.
  assert (unlink fs e !! f = Some (File st bl [])) as Hf1 by by (unfold unlink; rewrite lookup_insert_ne).
  assert (without fs e !! f = None) as Hf2 by apply lookup_delete_eq.
  pose proof (to_nodup fs Hok _ _ Hf) as Hnd. cbn in Hnd. rewrite app_nil_r in Hnd.
  assert (inode_place (file u) f = i) as Ep1 by by apply (Hp1 f _ Hf).
  pose proof (file_left _ _ _ _ _ Hh1 Hnd Hf1 Hfew) as Hl1.
  destruct (Remove_Blocks_loop_ok path f (without fs e) bl u 0) as (m2 & G2 & Hh2 & Ei2 & Eb2 & Ep2 & D2 & T2 & X2);
    [by apply holds_delete|done|done|done| |].
  { intros n nd c' Hn Hc. apply (without_apart fs e _ bl n nd c' Hok Hd Hf); [cbn; by rewrite app_nil_r|done..]. }
  rewrite Ep1 in G2, Ep2, X2.
  destruct (inode_cleared m2 (without fs e) f Hh2 Hr Hf2) as (Hh3 & Ei3 & Eb3 & D3 & T3). rewrite Ep2 in *.
  destruct (inode_returned (with_memc c (with_file (Clear_Inode m2 i) u)) (without fs e) f Hh3 Hr Hf2)
    as (m4 & G4 & Hh4 & Eb4 & Ei4 & D4 & T4 & X4); cbn [file with_memc with_file] in *.
  { rewrite Ei3, Ei2. by apply (ho_used _ _ Hh1 f _ Hf1). }
  exists m2, m4. split_and!; [|exact G4|done| | | |].
  - destruct (ho_node _ _ Hh1 f _ Hf1) as [_ [_ _ Hsz _]]. rewrite Ep1 in Hsz. by rewrite (Remove_Blocks_all u i bl path).
  - intros Hfo. apply (free_ok_released (file s) m4 bl); [| |done| |by rewrite Eb4, Eb3, Eb2, Eb1].
    + do 3 (eapply same_descriptors_trans; [done|]). done.
    + do 3 (eapply same_tables_trans; [done|]). done.
    + intros b Hb. apply (taken_place _ b), (ho_taken _ _ (cu_holds _ _ _ _ _ Hcu) f _ b Hf). cbn. by rewrite app_nil_r.
  - by rewrite Eb4, Eb3, Eb2, Eb1.
  - by rewrite Ei4, Ei3, Ei2, Ei1.
  - intros x Hx Hb Hi. pose proof (same_descriptors_trans _ _ _ D1 D2) as D12.
    rewrite X4 by (right; intros Hc; apply Hx; eapply control_same; [exact D12|]; by eapply control_same).
    assert (~ control (file u) x) as Hxu by (intros Hc; apply Hx; by apply (control_same _ (file u))).
    pose proof (zlen_nonneg bl). rewrite Clear_Inode_outside, (cleared_outside _ _ _ _ _ x X2) by (done || lia). by apply X1.
Qed.

Lemma after_with_memc x (c : C) s s' : after x s s' -> after x (with_memc c s) (with_memc c s').
Proof. unfold after. intros ->. done. Qed.

Lemma delete_file_run s refs fs ns e st bl params :
  can_delete s refs fs ns e st bl -> copies_apart e = true -> p_path params = abs_path (ns ++ [sp_name e]) ->
  exists m' s', delete_file params s = Ok (result (p_path params) (Status 0), s') /\
    restored (errno s) (with_memc (uncache (p_path params) 0 (length bl) (memc s)) (with_file m' s)) s' refs /\
    holds m' (without fs e) /\ (free_ok (file s) -> free_ok m') /\ free_blocks m' ≡ₚ bl ++ free_blocks (file s) /\
    free_inodes m' ≡ₚ sp_inode e :: free_inodes (file s) /\
    (forall x, ~ control (file s) x -> ~ in_block (sp_block e) x -> ~ in_inode (inode_place (file s) (sp_inode e)) x ->
       m' x = file s x).
Proof.
  intros Hcd Hap Hp. pose proof (cd_unlink _ _ _ _ _ _ _ Hcd) as Hcu.
  destruct (unlink_starts s refs fs ns e Hcu)
    as (id & par & s1 & s2 & s4 & s5 & G1 & G2 & Hf2 & G3 & G4 & G5 & Hok5 & Hpi & Hat5 & Hst5 & Ha & Hlen).
  rewrite <- Hp in *.
  destruct (pair_locks s5 refs par id Hok5 Hpi Hlen) as (s7 & G7 & Hm7 & Hst7 & Hcont).
  assert (after (errno s) s s7) as Ha7 by (eapply after_moved_trans; [exact Ha|exact Hm7]).
  destruct (after_file _ _ _ Ha7) as [Hf7 _].
  pose proof (entry_deleted s s7 refs fs ns e id Hcu Hf7 ltac:(by rewrite Hst7, Hat5, Hp)) as G8.
  rewrite Hap in G8. destruct G8 as (m1 & G8 & Hun).
  destruct (Hcont (with_file m1 s7)) as (s8 & G9 & Hm8 & _ & Hcont8); [done|].
  assert (after (errno s) (with_file m1 s) s8) as Ha8
    by (eapply after_moved_trans; [by apply (after_with_file _ m1 _ _ Ha7)|exact Hm8]).
  destruct (after_file _ _ _ Ha8) as [Hf8 _]. cbn in Hf8.
  destruct (file_released s fs refs ns e st bl m1 s8 (p_path params) Hcd Hun Hf8)
    as (m2 & m4 & G10 & G11 & Hh4 & Hfo4 & Hb4 & Hi4 & X4).
  set (c := uncache (p_path params) 0 (length bl) (memc s8)) in *.
  destruct (Hcont8 (with_memc c (with_file m4 s8))) as (u1 & u2 & u3 & u4 & G12 & G13 & G14 & G15 & Hok12 & Hm12 & Hst12);
    [done|].
  assert (memc s8 = memc s) as Hc8 by (rewrite Ha8; done).
  exists m4, u4. split; [|split; [split_and!|by split_and!]].
  - unfold delete_file. rewrite (bind_ok _ _ _ _ _ G1), (bind_ok _ _ _ _ _ G2).
    rewrite (bind_ok _ _ _ _ _ G3), (bind_ok _ _ _ _ _ G4), (bind_ok _ _ _ _ _ G5).
    rewrite (bind_ok _ _ _ _ _ G7), (bind_ok _ _ _ _ _ G8), (bind_ok _ _ _ _ _ G9), (bind_ok _ _ s8 m1 s8)
      by (unfold get_file, gets; by rewrite Hf8).
    rewrite (bind_ok _ _ _ _ _ G10).
    rewrite (bind_ok _ _ _ tt (with_memc c (with_file (Clear_Inode m2 (inode_place (file s) (sp_inode e))) s8))) by done.
    rewrite (bind_ok _ _ _ _ _ G11), (bind_ok _ _ _ _ _ G12), (bind_ok _ _ _ _ _ G13).
    by rewrite (bind_ok _ _ _ _ _ G14), (bind_ok _ _ _ _ _ G15).
  - done.
  - rewrite <- Hc8. fold c. eapply after_moved_trans; [|exact Hm12].
    apply (after_with_memc _ c), (after_with_file _ m4 _ _ Ha8).
  - intros j Hj. rewrite Hst12 by done. by apply Hst5.
Qed.

(** When the name behind the entry is longer than the record of the entry, the
    copy overlaps, whatever the entry names. *)
Lemma delete_file_faults s refs fs ns e params :
  can_unlink s refs fs ns e -> copies_apart e = false -> p_path params = abs_path (ns ++ [sp_name e]) ->
  delete_file params s = Fail Overlap.
Proof.
  intros Hcu Hap Hp.
  destruct (unlink_starts s refs fs ns e Hcu)
    as (id & par & s1 & s2 & s4 & s5 & G1 & G2 & Hf2 & G3 & G4 & G5 & Hok5 & Hpi & Hat5 & Hst5 & Ha & Hlen).
  rewrite <- Hp in *.
  destruct (pair_locks s5 refs par id Hok5 Hpi Hlen) as (s7 & G7 & Hm7 & Hst7 & _).
  assert (after (errno s) s s7) as Ha7 by (eapply after_moved_trans; [exact Ha|exact Hm7]).
  destruct (after_file _ _ _ Ha7) as [Hf7 _].
  pose proof (entry_deleted s s7 refs fs ns e id Hcu Hf7 ltac:(by rewrite Hst7, Hat5, Hp)) as G8. rewrite Hap in G8.
  unfold delete_file. rewrite (bind_ok _ _ _ _ _ G1), (bind_ok _ _ _ _ _ G2).
  rewrite (bind_ok _ _ _ _ _ G3), (bind_ok _ _ _ _ _ G4), (bind_ok _ _ _ _ _ G5).
  by rewrite (bind_ok _ _ _ _ _ G7), (bind_fail _ _ _ _ G8).
Qed.

(** C10: Deleting a file: on an image that holds a tree, when the path leads to a file without indirect
    blocks that no other entry names, and the name of the next entry of the block is not longer than the
    record of this one, [delete_file] answers 0, with the table, the locks and errno as they
    should be, and the image then holds the tree without the file and its entry: the path leads nowhere,
    every other path leads where it led, the blocks and the inode of the file are free, none of its blocks
    is left in the cache, and all bytes but the counters and bitmaps, the block of the entry and the
    inode stay.  When the next name is longer, [copy_entry] calls memcpy on regions that overlap. *)
Theorem delete_file_leaves `{!MemcachedLaws C} s refs fs ns e st bl params :
  can_delete s refs fs ns e st bl -> p_path params = abs_path (ns ++ [sp_name e]) ->
  if copies_apart e then
    exists m' c' s', delete_file params s = Ok (result (p_path params) (Status 0), s') /\
      restored (errno s) (with_memc c' (with_file m' s)) s' refs /\
      (holds m' (without fs e) /\ tree_ok (without fs e)) /\
      path_resolves m' (ns ++ [sp_name e]) None /\
      (forall ns' k, Forall name_ok ns' -> k <> sp_inode e -> tree_walk fs ROOT_INODE_NUMBER ns' = Some (Some k) ->
         path_resolves m' ns' (Some (inode_place m' k, k))) /\
      free_blocks m' ≡ₚ bl ++ free_blocks (file s) /\ free_inodes m' ≡ₚ sp_inode e :: free_inodes (file s) /\
      (forall k, 0 <= k < zlen bl -> cached c' (generate_key (p_path params) k) = None) /\
      (forall x, ~ control (file s) x -> ~ in_block (sp_block e) x -> ~ in_inode (inode_place (file s) (sp_inode e)) x ->
         m' x = file s x)
  else delete_file params s = Fail Overlap.
Proof.
  intros Hcd Hp. pose proof Hcd as [Hcu Hf _]. destruct (copies_apart e) eqn:Hap; [|by eapply delete_file_faults].
  destruct (unlinked_tree _ _ _ _ _ Hcu) as (Hok' & Hgone & Hkept).
  destruct (delete_file_run s refs fs ns e st bl params Hcd Hap Hp) as (m' & s' & Hrun & Hrest & Hh & _ & Hfb & Hfi & X).
  pose proof (cu_ready _ _ _ _ _ Hcu) as (_ & _ & Hns).
  eexists m', _, s'. split_and!; try done.
  - by apply (tree_path_resolves m' (without fs e) _ None).
  - intros ns' k Hns' Hk Hw. apply (tree_path_resolves m' (without fs e) _ (Some k)); [done..|].
    apply Hkept; [|done]. by eapply file_avoided.
  - intros k Hk. by apply uncache_gone.
Qed.
End Operation.

(** ** Witness: "a" deleted from the root of the demo image *)

#[local] Instance delete_superblock : Superblock_constants := demo_sb.

Lemma demo_one_link : one_link demo_tree 2 3 (str "a").
Proof.
  intros n st bs ind e _ Hn He Hi. apply demo_tree_lookup in Hn as [[-> [= -> -> ->]]|[_ ?]]; [|discriminate].
  split; [done|]. change (e ∈ root_entries) in He. unfold root_entries in He.
  repeat (apply elem_of_cons in He as [->|He]; [try reflexivity; vm_compute in Hi; congruence|]).
  by apply not_elem_of_nil in He.
Defined.

Definition demo_spot : spot := {|
  sp_dir := 2; sp_stat := {| i_mode := 16877; i_links := 0; i_size := 1024 |}; sp_indirect := []; sp_block := 6;
  sp_first := demo_dentry 2 12 (str "."); sp_before := [demo_dentry 2 12 (str "..")];
  sp_entry := demo_dentry 3 1000 (str "a"); sp_after := []; sp_rest := []
|}.

Lemma demo_can_delete :
  can_delete create_server [] demo_tree [] demo_spot {| i_mode := 33188; i_links := 1; i_size := 5 |} [7].
Proof.
  split; [split|reflexivity|vm_compute; congruence].
  - apply create_ready. split; [discriminate|]. refine (bool_decide_unpack _ _). vm_compute. exact I.
  - exact create_image_holds.
  - exact demo_tree_ok.
  - reflexivity.
  - intros [|? ?] ns2 E; [vm_compute; congruence|discriminate].
  - reflexivity.
  - refine (bool_decide_unpack _ _). vm_compute. exact I.
  - exact demo_one_link.
  - discriminate.
Defined.

Lemma delete_file_leaves_witness :
  exists m' s', delete_file (demo_create true (str "a")) create_server = Ok (result (str "/a") (Status 0), s') /\
    path_resolves m' [str "a"] None /\ free_blocks m' ≡ₚ [7] /\ free_inodes m' ≡ₚ [3; 4; 5; 6; 7; 8].
Proof.
  destruct (@delete_file_leaves demo_sb demo_sb_ok sample_cache _ _ create_server [] demo_tree []
    demo_spot _ _ (demo_create true (str "a")) demo_can_delete eq_refl)
    as (m' & c' & s' & Hrun & _ & _ & Hres & _ & Hb & Hi & _).
  exists m', s'. split; [exact Hrun|]. split; [exact Hres|]. split; [exact Hb|exact Hi].
Defined.
