(* ===== verification/Rmdirs.v ===== *)
(** * Rmdirs: a directory deleted, end to end on the tree

    [delete_dir] of [file_operations.c] for a directory of one block, against
    the tree of [Tree]: an empty directory goes with its entry, its block and
    its inode; of one that is not empty only the entry goes, although the
    answer is ENOTEMPTY. *)

From S2P Require Import Prelude Memory Bitarray Ext2 Ext2Facts CString Paths Rfs ActiveFiles Alloc AllocFacts InodeAlloc BlockMap Dirs DirFacts Walk FileOps Serial Requests SerialFacts Lookups Tree TreeSteps Enters Creates Removes Deletes.

Section Operation.
Context {Super_constants : Superblock_constants} {SO : Superblock_ok} {WA : Word_after_array}.
Context {C : Type} `{Memcached C}.
Abbreviation R := (rfs C).
Implicit Types (s : R) (m : mem) (refs : list nat) (fs : gmap Z node) (i f b d : Z) (e : spot).

(** The entry names a directory of one block, whose first entry is as short
    as it can be, as "." is. *)
Record can_delete_dir s refs fs ns e st b p1 p2 (l : list dentry) ind : Prop := {
  cm_unlink : can_unlink s refs fs ns e;
  cm_dir : fs !! sp_inode e = Some (Dir st [(b, p1 :: p2 :: l)] ind);
  cm_first : de_len p1 = size_of p1
}.

Lemma one_block_dir m i b es ind :
  dir_at m i [(b, es)] ind ->
  Inode.blocks m i = BLOCK_SIZE / 512 /\ Inode_Get_Data_Adressess m i (Inode.size m i) = Some [b; 0].
Proof.
  intros Hd. pose proof (da_count _ _ _ _ Hd) as Hc. pose proof (da_size _ _ _ _ Hd) as Hs.
  change (zlen [(b, es)]) with 1 in *. split; [lia|]. by rewrite (dir_addresses _ _ _ _ _ Hd Hs).
Qed.

(** The test of the second entry: it ends with the block exactly when there
    are no more. *)
Lemma second_entry_last m a p1 p2 l :
  dir_block m a (p1 :: p2 :: l) (a + BLOCK_SIZE) -> de_len p1 = size_of p1 ->
  Entry.entry_len m (a + Entry.entry_len m a) = de_len p2 /\
  u32 (BLOCK_SIZE - get_padded_size m a) = BLOCK_SIZE - de_len p1 /\ (de_len p2 = BLOCK_SIZE - de_len p1 <-> l = []).
Proof.
  intros (Ha1 & Hok1 & Ha2 & Hok2 & Hl) Hf. pose proof block_size_pos as Hbs.
  assert (BLOCK_SIZE < 2 ^ 32) as Hbs' by (destruct block_size_cases as [->|[->| ->]]; lia).
  pose proof (dir_block_le _ _ _ _ Hl) as Hle. pose proof (zlen_nonneg l).
  pose proof (dentry_len_pos p1 Hok1). pose proof (dentry_len_pos p2 Hok2).
  pose proof (zlen_nonneg (de_name p1)). pose proof (zlen_nonneg (de_name p2)).
  rewrite (at_len _ _ _ Ha1), (at_len _ _ _ Ha2).
  assert (get_padded_size m a = de_len p1) as Ep by (unfold get_padded_size; by rewrite (at_name_len _ _ _ Ha1), Hf).
  split; [done|]. split; [rewrite Ep, u32_small; lia|]. split.
  - intros E. destruct l as [|d l]; [done|]. rewrite zlen_cons in Hle. pose proof (zlen_nonneg l). lia.
  - intros ->. cbn [dir_block] in Hl. lia.
Qed.

Lemma finish_run (res : operation_result_t) par id (u u1 u2 u3 u4 : R) :
  UNLOCK id u = Ok (tt, u1) -> UNLOCK par u1 = Ok (tt, u2) ->
  active_file_finished_using id u2 = Ok (tt, u3) -> active_file_finished_using par u3 = Ok (tt, u4) ->
  delete_dir_finish res id par u = Ok (res, u4).
Proof.
  intros G1 G2 G3 G4. unfold delete_dir_finish.
  by rewrite (bind_ok _ _ _ _ _ G1), (bind_ok _ _ _ _ _ G2), (bind_ok _ _ _ _ _ G3), (bind_ok _ _ _ _ _ G4).
Qed.

Lemma delete_dir_missing s refs ns params :
  ready s refs ns -> path_resolves (file s) ns None -> p_path params = abs_path ns ->
  exists s', delete_dir params s = Ok (result (p_path params) (Status 1), s') /\ restored ENOENT s s' refs.
Proof.
  intros Hready Hres Hp. destruct (missing_bracket s refs ns Hready Hres) as (id & s1 & s2 & s3 & G1 & G2 & G3 & Hrest).
  exists s3. split; [|done]. unfold delete_dir.
  by rewrite Hp, (bind_ok _ _ _ _ _ G1), (bind_ok _ _ _ _ _ G2), (bind_ok _ _ _ _ _ G3).
Qed.

(** What is left of the operation when the entry is out: the test of the
    second entry of the directory. *)
Definition second_entry_test path i f id par (data_address : list Z) : M R operation_result_t :=
  b ← array_get data_address 0;
  m ← get_file;
  let an_entry := block_addr b in
  let first_len := get_padded_size m an_entry in
  let an_entry := an_entry + Entry.entry_len m an_entry in
  if negb (Entry.entry_len m an_entry =? u32 (BLOCK_SIZE - first_len)) then
    set_errno ENOTEMPTY;; delete_dir_finish (result path (Status 1)) id par
  else delete_empty_dir (result path (Status 0)) i f id par.

(** Up to the deletion of the entry of the parent, which is that of [delete_entry]. *)
Lemma delete_dir_starts s refs fs ns e st b p1 p2 l ind params :
  can_delete_dir s refs fs ns e st b p1 p2 l ind -> p_path params = abs_path (ns ++ [sp_name e]) ->
  exists id par s8, after (errno s) s s8 /\ path_at s8 id = Some (abs_path (ns ++ [sp_name e])) /\
    delete_dir params s =
      (delete_entry (Some (inode_place (file s) (sp_dir e))) id;;
       second_entry_test (p_path params) (inode_place (file s) (sp_inode e)) (sp_inode e) id par [b; 0]) s8 /\
    forall u res, same_table s8 u -> exists u4, delete_dir_finish res id par u = Ok (res, u4) /\
      table_ok u4 refs /\ table_moved u u4 /\ (forall j, j ∈ refs -> path_at u4 j = path_at s j).
Proof.
  intros [Hcu Hf Hfirst] Hp. pose proof Hcu as [_ Hh _ _ _ _ _ _ _]. set (f := sp_inode e) in *.
  destruct (unlink_starts s refs fs ns e Hcu)
    as (id & par & s1 & s2 & s4 & s5 & G1 & G2 & Hf2 & G3 & G4 & G5 & Hok5 & Hpi & Hat5 & Hst5 & Ha & Hlen).
  rewrite <- Hp in *. fold f in G2.
  destruct (pair_locks s5 refs par id Hok5 Hpi Hlen) as (s7 & G7 & Hm7 & Hst7 & Hcont).
  destruct (Hcont s7) as (s8 & G8 & Hm8 & Hst8 & Hcont8); [done|].
  assert (after (errno s) s s8) as Ha8 by (eapply after_moved_trans; [eapply after_moved_trans; [exact Ha|exact Hm7]|done]).
  destruct (after_file _ _ _ Ha8) as [Hf8 _].
  destruct (ho_node _ _ Hh f _ Hf) as [_ Hdir]. destruct (one_block_dir _ _ _ _ _ Hdir) as [Hblocks Haddr].
  exists id, par, s8. split_and!; [done|by rewrite Hst8, Hat5| |].
  - unfold delete_dir. rewrite (bind_ok _ _ _ _ _ G1), (bind_ok _ _ _ _ _ G2). rewrite (bind_ok _ _ s2 (file s2) s2) by done.
    rewrite Hf2, Hblocks, Z.gtb_ltb, Z.ltb_irrefl.
    rewrite (bind_ok _ _ _ _ _ G3), (bind_ok _ _ _ _ _ G4), (bind_ok _ _ _ _ _ G5), (bind_ok _ _ _ _ _ G7), (bind_ok _ _ _ _ _ G8).
    by rewrite (bind_ok _ _ s8 (file s8) s8), Hf8, Haddr by done.
  - intros u res Hu. destruct (Hcont8 u) as (u1 & u2 & u3 & u4 & G12 & G13 & G14 & G15 & Hok12 & Hm12 & Hst12); [done|].
    exists u4. split_and!; [by eapply finish_run|done|done|]. intros j Hj. rewrite Hst12 by done. by apply Hst5.
Qed.

(** With the entry out the second entry tells whether the directory is empty. *)
Lemma delete_dir_unlinks s refs fs ns e st b p1 p2 l ind params :
  can_delete_dir s refs fs ns e st b p1 p2 l ind -> copies_apart e = true -> p_path params = abs_path (ns ++ [sp_name e]) ->
  exists id par m1 s9, unlinked (file s) m1 fs e /\ after (errno s) (with_file m1 s) s9 /\ file s9 = m1 /\
    delete_dir params s =
      (if bool_decide (l = [])
       then delete_empty_dir (result (p_path params) (Status 0)) (inode_place (file s) (sp_inode e)) (sp_inode e) id par
       else set_errno ENOTEMPTY;; delete_dir_finish (result (p_path params) (Status 1)) id par) s9 /\
    forall u res, same_table s9 u -> exists u4, delete_dir_finish res id par u = Ok (res, u4) /\
      table_ok u4 refs /\ table_moved u u4 /\ (forall j, j ∈ refs -> path_at u4 j = path_at s j).
Proof.
  intros Hcd Hap Hp. destruct (delete_dir_starts s refs fs ns e st b p1 p2 l ind params Hcd Hp)
    as (id & par & s8 & Ha8 & Hat8 & Hrun & Hfin). destruct Hcd as [Hcu Hf Hfirst].
  destruct (can_unlink_facts _ _ _ _ _ Hcu) as (_ & _ & _ & _ & _ & _ & Hdf & _). set (f := sp_inode e) in *.
  destruct (after_file _ _ _ Ha8) as [Hf8 _].
  pose proof (entry_deleted s s8 refs fs ns e id Hcu Hf8 Hat8) as G9. rewrite Hap in G9. destruct G9 as (m1 & G9 & Hun).
  assert (unlink fs e !! f = Some (Dir st [(b, p1 :: p2 :: l)] ind)) as Hf1
    by by (unfold unlink; rewrite lookup_insert_ne).
  destruct (ho_node _ _ (ul_holds _ _ _ _ Hun) f _ Hf1) as [_ Hdir1].
  destruct (second_entry_last m1 (block_addr b) p1 p2 l) as (E1 & E2 & E3); [apply (da_blocks _ _ _ _ Hdir1); by left|done|].
  exists id, par, m1, (with_file m1 s8). split_and!; [done|by apply after_with_file|done| |done].
  rewrite Hrun, (bind_ok _ _ _ _ _ G9). unfold second_entry_test.
  rewrite (bind_ok _ _ (with_file m1 s8) b (with_file m1 s8)), (bind_ok _ _ (with_file m1 s8) m1 (with_file m1 s8)) by done.
  cbv zeta. rewrite E1, E2. destruct (Z.eqb_spec (de_len p2) (BLOCK_SIZE - de_len p1)) as [E|E]; cbn [negb].
  - by rewrite bool_decide_eq_true_2 by by apply E3.
  - rewrite bool_decide_eq_false_2 by (intros El; by apply E, E3). done.
Qed.

(** The block, the inode and the counter, in any state with that image. *)
Lemma empty_dir_released s refs fs ns e st b p1 p2 m1 (u : R) id par res :
  can_delete_dir s refs fs ns e st b p1 p2 [] [] -> unlinked (file s) m1 fs e -> file u = m1 ->
  let i := inode_place (file s) (sp_inode e) in
  exists m5, delete_empty_dir res i (sp_inode e) id par u = delete_dir_finish res id par (with_file m5 u) /\
    holds m5 (without fs e) /\ (free_ok (file s) -> free_ok m5) /\ free_blocks m5 ≡ₚ b :: free_blocks (file s) /\
    free_inodes m5 ≡ₚ sp_inode e :: free_inodes (file s) /\
    (let g := group_descriptor (Inode_locateGroup (sp_inode e)) in
     NUMBER_DIRECTORIES_GROUP m5 g = u16 (NUMBER_DIRECTORIES_GROUP (file s) g - 1)) /\
    (forall x, ~ control (file s) x -> ~ in_block (sp_block e) x -> ~ in_inode i x -> m5 x = file s x).
Proof.
  intros [Hcu Hf _] [Hh1 Hp1 Ei1 Eb1 D1 T1 X1] Hu i. subst m1. pose proof Hcu as [_ Hh Hok _ _ Hd _ _ _].
  destruct (can_unlink_facts _ _ _ _ _ Hcu) as (_ & _ & _ & _ & Hr & _ & Hdf & _ & Htk). set (f := sp_inode e) in *.
  assert (unlink fs e !! f = Some (Dir st [(b, [p1; p2])] [])) as Hf1 by by (unfold unlink; rewrite lookup_insert_ne).
  assert (without fs e !! f = None) as Hf2 by apply lookup_delete_eq.
  assert (inode_place (file u) f = i) as Ep1 by by apply (Hp1 f _ Hf).
  destruct (ho_node _ _ Hh1 f _ Hf1) as [_ Hdir].
  assert (left_blocks (file u) (inode_place (file u) f) 0 [b]) as Hl1.
  { split; [vm_compute; split; congruence|apply NoDup_singleton|..].
    - intros c Hc. exact (ho_taken _ _ Hh1 f _ c Hf1 Hc).
    - intros j c Hj. destruct j as [|j]; [|by destruct j]. injection Hj as <-.
      exact (da_pointers _ _ _ _ Hdir (file u) ltac:(done) 0%nat b eq_refl). }
  destruct (Remove_Block_ok u (without fs e) f 0 b [] ltac:(by apply holds_delete) Hr Hf2 Hl1)
    as (m2 & G2 & Hh2 & Ei2 & Eb2 & Ep2 & _ & D2 & T2 & S2 & X2).
  { intros n nd c Hn Hc. by apply (without_apart fs e _ [b] n nd c Hok Hd Hf). }
  rewrite Ep1 in G2, Ep2, X2.
  destruct (inode_cleared m2 (without fs e) f Hh2 Hr Hf2) as (Hh3 & Ei3 & Eb3 & D3 & T3). rewrite Ep2 in *.
  set (m3 := Clear_Inode m2 i) in *. set (g := Inode_locateGroup f).
  assert (in_groups g) as Hg by by apply (in_groups_number (file s) fs f _ Hh Hf).
  set (gd := group_descriptor g).
  set (m4 := set_NUMBER_DIRECTORIES_GROUP m3 gd (NUMBER_DIRECTORIES_GROUP m3 gd - 1)).
  assert (forall x, ~ spare x -> m4 x = m3 x) as X4.
  { intros x Hx. symmetry. apply store_same_outside, in_range_false. intros Hr'. apply Hx. exists g.
    unfold sizeof_Group_Descriptor. fold gd. split; [done|lia]. }
  destruct (holds_directories_counted m3 m4 (without fs e) Hh3) as (Hh4 & Ei4 & Eb4 & D4 & T4); [|done|].
  { apply store_mem_ok, (al_mem m3 (io_alloc m3 (io_ok m3 (ho_inodes _ _ Hh3)))). }
  destruct (inode_returned (with_file m4 u) (without fs e) f Hh4 Hr Hf2) as (m5 & G5 & Hh5 & Eb5 & Ei5 & D5 & T5 & X5);
    cbn [file with_file] in *.
  { rewrite Ei4, Ei3, Ei2. by apply (ho_used _ _ Hh1 f _ Hf1). }
  pose proof (same_descriptors_trans _ _ _ D1 D2) as D12. pose proof (same_descriptors_trans _ _ _ D12 D3) as D13.
  pose proof (same_descriptors_trans _ _ _ D13 D4) as D14.
  pose proof (al_layout _ (io_alloc _ (io_ok _ (ho_inodes _ _ Hh)))) as Hl.
  exists m5. split_and!; [|done| | | | |].
  - unfold delete_empty_dir. rewrite (bind_ok _ _ _ _ _ G2).
    rewrite (bind_ok _ _ (with_file m2 u) tt (with_file m3 u)) by done.
    rewrite (bind_ok _ _ (with_file m3 u) gd (with_file m3 u)).
    2: { unfold Group_Descriptor_read. fold g. by rewrite (proj2 (Z.ltb_lt _ _)) by apply Hg. }
    rewrite (bind_ok _ _ (with_file m3 u) tt (with_file m4 u)) by done. by rewrite (bind_ok _ _ _ _ _ G5).
  - intros Hfo. apply (free_ok_released (file s) m5 [b]); [|by do 4 (eapply same_tables_trans; [done|])|done| |by rewrite Eb5, Eb4, Eb3, Eb2, Eb1].
    + by apply (same_descriptors_trans _ m4).
    + intros c ->%list_elem_of_singleton. apply taken_place, (ho_taken _ _ Hh f _ b Hf). by left.
  - by rewrite Eb5, Eb4, Eb3, Eb2, Eb1.
  - by rewrite Ei5, Ei4, Ei3, Ei2, Ei1.
  - cbv zeta. fold g gd.
    assert (forall x, gd + 16 <= x < gd + 16 + Z.of_nat 2 -> spare x) as Hsp.
    { intros x Hx. exists g. unfold sizeof_Group_Descriptor. fold gd. split; [done|lia]. }
    assert (NUMBER_DIRECTORIES_GROUP m3 gd = NUMBER_DIRECTORIES_GROUP (file s) gd) as <-.
    { apply (load_ext 2). intros x Hx. pose proof (spare_control (file s) x Hl (Hsp x Hx)) as Hc.
      unfold m3. rewrite Clear_Inode_outside, S2, X1; [done| |by apply Hsp|].
      - intros Hb. apply (tb_data _ _ (Htk (sp_block e) ltac:(by left)) x Hb). by apply control_system.
      - intros Hi. destruct (place_system (file s) f x (io_ok _ (ho_inodes _ _ Hh)) Hr Hi) as (g' & Hg' & Hx').
        by apply (table_control (file s) g' x (ho_tables _ _ Hh)). }
    transitivity (NUMBER_DIRECTORIES_GROUP m4 gd); [|apply load16_store16_same].
    apply (load_ext 2). intros x Hx. apply X5. left. by apply Hsp.
  - intros x Hx Hb Hi.
    rewrite X5 by (right; intros Hc; apply Hx; by apply (control_same _ m4)).
    rewrite X4 by (intros Hs; apply Hx; by apply spare_control).
    assert (~ control (file u) x) as Hxu by (intros Hc; apply Hx; by apply (control_same _ (file u))).
    unfold m3. rewrite Clear_Inode_outside, (cleared_outside _ _ _ _ _ x X2) by (done || lia). by apply X1.
Qed.

(** An empty directory: the operation, and what the image holds afterwards. *)
Lemma delete_dir_run s refs fs ns e st b p1 p2 params :
  can_delete_dir s refs fs ns e st b p1 p2 [] [] -> copies_apart e = true -> p_path params = abs_path (ns ++ [sp_name e]) ->
  exists m' s', delete_dir params s = Ok (result (p_path params) (Status 0), s') /\
    restored (errno s) (with_file m' s) s' refs /\ holds m' (without fs e) /\
    (free_ok (file s) -> free_ok m') /\
    free_blocks m' ≡ₚ b :: free_blocks (file s) /\ free_inodes m' ≡ₚ sp_inode e :: free_inodes (file s) /\
    (let g := group_descriptor (Inode_locateGroup (sp_inode e)) in
     NUMBER_DIRECTORIES_GROUP m' g = u16 (NUMBER_DIRECTORIES_GROUP (file s) g - 1)) /\
    (forall x, ~ control (file s) x -> ~ in_block (sp_block e) x -> ~ in_inode (inode_place (file s) (sp_inode e)) x ->
       m' x = file s x).
Proof.
  intros Hcd Hap Hp. destruct (delete_dir_unlinks s refs fs ns e st b p1 p2 [] [] params Hcd Hap Hp)
    as (id & par & m1 & s9 & Hun & Ha9 & Hf9 & Hrun & Hfin). rewrite bool_decide_eq_true_2 in Hrun by done.
  destruct (empty_dir_released s refs fs ns e st b p1 p2 m1 s9 id par (result (p_path params) (Status 0)) Hcd Hun Hf9)
    as (m5 & G & Hh & Hfo & Hfb & Hfi & Hcount & X).
  destruct (Hfin (with_file m5 s9) (result (p_path params) (Status 0))) as (s' & G' & Hok4 & Hm4 & Hst4); [done|].
  exists m5, s'. split_and!; try done.
  - by rewrite Hrun, G.
  - split_and!; [done| |done]. eapply after_moved_trans; [|exact Hm4]. by apply (after_with_file _ m5 _ _ Ha9).
Qed.

(** When the name behind the entry is longer than its record, the copy overlaps. *)
Lemma delete_dir_faults s refs fs ns e st b p1 p2 l ind params :
  can_delete_dir s refs fs ns e st b p1 p2 l ind -> copies_apart e = false ->
  p_path params = abs_path (ns ++ [sp_name e]) -> delete_dir params s = Fail Overlap.
Proof.
  intros Hcd Hap Hp.
  destruct (delete_dir_starts s refs fs ns e st b p1 p2 l ind params Hcd Hp) as (id & par & s8 & Ha8 & Hat8 & -> & _).
  destruct (after_file _ _ _ Ha8) as [Hf8 _].
  pose proof (entry_deleted s s8 refs fs ns e id (cm_unlink _ _ _ _ _ _ _ _ _ _ _ Hcd) Hf8 Hat8) as G9. rewrite Hap in G9.
  by rewrite (bind_fail _ _ _ _ G9).
Qed.

(** C11: Deleting a directory: on an image that holds a tree, when the path leads to a directory of one
    block with only "." and ".." that no other directory names, and the name of the next entry of the
    parent's block is not longer than the record of this one, [delete_dir] answers 0, with the table, the
    locks and errno as they should be, and the image then holds the tree without the directory and its
    entry: its path leads nowhere, every path that did not come through it leads where it led, its block
    and its inode are free, its group counts one directory less, and all bytes but the counters and
    bitmaps, the block of the entry and the inode stay.  When the next name is longer, [copy_entry] calls
    memcpy on regions that overlap. *)
Theorem delete_dir_leaves s refs fs ns e st b p1 p2 params :
  can_delete_dir s refs fs ns e st b p1 p2 [] [] -> p_path params = abs_path (ns ++ [sp_name e]) ->
  if copies_apart e then
    exists m' s', delete_dir params s = Ok (result (p_path params) (Status 0), s') /\
      restored (errno s) (with_file m' s) s' refs /\
      (holds m' (without fs e) /\ tree_ok (without fs e)) /\
      path_resolves m' (ns ++ [sp_name e]) None /\
      (forall ns' k, Forall name_ok ns' -> avoids fs (sp_inode e) ROOT_INODE_NUMBER ns' ->
         tree_walk fs ROOT_INODE_NUMBER ns' = Some (Some k) -> path_resolves m' ns' (Some (inode_place m' k, k))) /\
      free_blocks m' ≡ₚ b :: free_blocks (file s) /\ free_inodes m' ≡ₚ sp_inode e :: free_inodes (file s) /\
      (let g := group_descriptor (Inode_locateGroup (sp_inode e)) in
       NUMBER_DIRECTORIES_GROUP m' g = u16 (NUMBER_DIRECTORIES_GROUP (file s) g - 1)) /\
      (forall x, ~ control (file s) x -> ~ in_block (sp_block e) x -> ~ in_inode (inode_place (file s) (sp_inode e)) x ->
         m' x = file s x)
  else delete_dir params s = Fail Overlap.
Proof.
  intros Hcd Hp. pose proof (cm_unlink _ _ _ _ _ _ _ _ _ _ _ Hcd) as Hcu.
  destruct (copies_apart e) eqn:Hap; [|by eapply delete_dir_faults].
  destruct (unlinked_tree _ _ _ _ _ Hcu) as (Hok' & Hgone & Hkept).
  pose proof (cu_ready _ _ _ _ _ Hcu) as (_ & _ & Hns).
  destruct (delete_dir_run s refs fs ns e st b p1 p2 params Hcd Hap Hp)
    as (m5 & s' & Hrun & Hrest & Hh & _ & Hfb & Hfi & Hcount & X).
  exists m5, s'. split_and!; try done.
  - by apply (tree_path_resolves m5 (without fs e) _ None).
  - intros ns' k Hns' Hav Hw. apply (tree_path_resolves m5 (without fs e) _ (Some k)); [done..|]. by apply Hkept.
Qed.

(** A directory that is not empty: only the entry goes. *)
Lemma delete_dir_refused s refs fs ns e st b p1 p2 l ind params :
  can_delete_dir s refs fs ns e st b p1 p2 l ind -> copies_apart e = true -> l <> [] -> p_path params = abs_path (ns ++ [sp_name e]) ->
  exists m' s', delete_dir params s = Ok (result (p_path params) (Status 1), s') /\
    restored ENOTEMPTY (with_file m' s) s' refs /\ unlinked (file s) m' fs e.
Proof.
  intros Hcd Hap Hl Hp. destruct (delete_dir_unlinks s refs fs ns e st b p1 p2 l ind params Hcd Hap Hp)
    as (id & par & m1 & s9 & Hun & Ha9 & Hf9 & Hrun & Hfin). rewrite bool_decide_eq_false_2 in Hrun by done.
  destruct (Hfin (with_errno ENOTEMPTY s9) (result (p_path params) (Status 1))) as (s' & G' & Hok4 & Hm4 & Hst4); [done|].
  exists m1, s'. split_and!; [|split_and!|done]; try done.
  - by rewrite Hrun, (bind_ok _ _ s9 tt (with_errno ENOTEMPTY s9)) by done.
  - eapply after_moved_trans; [|exact Hm4]. eapply after_trans; [exact Ha9|apply after_set_errno].
Qed.

(** C14: A directory that is not empty is lost: when the path leads to a directory of one block with more
    entries than "." and "..", and the name of the next entry of the parent's block is not longer than the
    record of this one, [delete_dir] answers 1 with ENOTEMPTY, but it has taken the entry out of
    the parent before it looked: the path leads nowhere, while the inode and the blocks of the directory
    stay in use and the image holds the node, which no path of its parent names any more. *)
Theorem delete_dir_orphans s refs fs ns e st b p1 p2 l ind params :
  can_delete_dir s refs fs ns e st b p1 p2 l ind -> copies_apart e = true -> l <> [] -> p_path params = abs_path (ns ++ [sp_name e]) ->
  exists m' s', delete_dir params s = Ok (result (p_path params) (Status 1), s') /\
    restored ENOTEMPTY (with_file m' s) s' refs /\
    (holds m' (unlink fs e) /\ tree_ok (unlink fs e)) /\
    path_resolves m' (ns ++ [sp_name e]) None /\
    unlink fs e !! sp_inode e = Some (Dir st [(b, p1 :: p2 :: l)] ind) /\
    free_blocks m' = free_blocks (file s) /\ free_inodes m' = free_inodes (file s).
Proof.
  intros Hcd Hap Hl Hp. pose proof (cm_unlink _ _ _ _ _ _ _ _ _ _ _ Hcd) as Hcu.
  destruct (unlinked_tree _ _ _ _ _ Hcu) as (_ & Hgone & _).
  pose proof (cu_ready _ _ _ _ _ Hcu) as (_ & _ & Hns).
  destruct (can_unlink_facts _ _ _ _ _ Hcu) as (_ & _ & _ & _ & _ & _ & Hdf & _).
  destruct (delete_dir_refused s refs fs ns e st b p1 p2 l ind params Hcd Hap Hl Hp) as (m1 & s' & Hrun & Hrest & Hun).
  pose proof (unlink_ok _ _ _ _ _ Hcu) as Hok'.
  exists m1, s'. split_and!; try apply Hun; try done.
  - apply (tree_path_resolves m1 (unlink fs e) _ None); [apply Hun|done|]. by eapply walk_more.
  - unfold unlink. rewrite lookup_insert_ne by done. apply Hcd.
Qed.

End Operation.

(** ** Witnesses: the demo image with an empty directory "c" and one that
    holds another entry of the file "a", called "d" or longer than the record of "c" *)

Definition long_name : list Z := str "un_nombre_largo".
Definition last_name (nm : list Z) : Prop := nm = str "d" \/ nm = long_name.

Definition dirs_image (nm : list Z) : mem :=
  let m := store16 (store32 create_image SuperBlock.TOTAL_UNALLOCATED_INODES 3) 2062 3 in
  let m := store_byte (store16 m 2064 3) 4096 31 in
  let m := copy_entry m 6168 (demo_entry 3 12 (str "a")) in
  let m := copy_entry m 6180 (demo_entry 4 12 (str "c")) in
  let m := copy_entry m 6192 (demo_entry 5 976 nm) in
  let m := store32 (store32 (store32 (store16 m 5504 16877) 5508 1024) 5532 2) 5544 8 in
  let m := store32 (store32 (store32 (store16 m 5632 16877) 5636 1024) 5660 2) 5672 9 in
  let m := copy_entry m 8192 (demo_entry 4 12 (str ".")) in
  let m := copy_entry m 8204 (demo_entry 2 1012 (str "..")) in
  let m := copy_entry m 9216 (demo_entry 5 12 (str ".")) in
  let m := copy_entry m 9228 (demo_entry 2 12 (str "..")) in
  copy_entry m 9240 (demo_entry 3 1000 (str "x")).

Definition dirs_server (nm : list Z) : rfs sample_cache := with_file (dirs_image nm) demo_server.

Definition dirs_stat : istat := {| i_mode := 16877; i_links := 0; i_size := 1024 |}.
Definition dirs_root (nm : list Z) : list dentry :=
  [demo_dentry 2 12 (str "."); demo_dentry 2 12 (str ".."); demo_dentry 3 12 (str "a");
   demo_dentry 4 12 (str "c"); demo_dentry 5 976 nm].
Definition dirs_c : list dentry := [demo_dentry 4 12 (str "."); demo_dentry 2 1012 (str "..")].
Definition dirs_d : list dentry :=
  [demo_dentry 5 12 (str "."); demo_dentry 2 12 (str ".."); demo_dentry 3 1000 (str "x")].

Definition dir_node (b : Z) (es : list dentry) : node := Dir dirs_stat [(b, es)] [].

Definition dirs_tree (nm : list Z) : gmap Z node :=
  <[2 := dir_node 6 (dirs_root nm)]> (<[3 := a_node]> (<[4 := dir_node 8 dirs_c]> {[5 := dir_node 9 dirs_d]})).

Lemma dirs_tree_lookup nm n nd :
  dirs_tree nm !! n = Some nd ->
  n = 2 /\ nd = dir_node 6 (dirs_root nm) \/ n = 3 /\ nd = a_node \/
  n = 4 /\ nd = dir_node 8 dirs_c \/ n = 5 /\ nd = dir_node 9 dirs_d.
Proof.
  unfold dirs_tree. rewrite !lookup_insert_Some, lookup_singleton_Some.
  intros [[<- <-]|[_ [[<- <-]|[_ [[<- <-]|[_ [<- <-]]]]]]]; tauto.
Defined.

Ltac dirs_cases Hn := apply dirs_tree_lookup in Hn as [[-> ->]|[[-> ->]|[[-> ->]|[-> ->]]]].

Ltac each_entry He :=
  repeat (apply elem_of_cons in He as [->|He]; [|]); try (by apply not_elem_of_nil in He).

Lemma dirs_tree_ok nm : tree_ok (dirs_tree nm).
Proof.
  split.
  - by eexists _, _, _.
  - intros n st bs ind d Hn He Hz.
    assert (d ∈ dirs_root nm \/ d ∈ dirs_c \/ d ∈ dirs_d) as Hd.
    { apply dirs_tree_lookup in Hn as [[-> [= -> -> ->]]|[[_ ?]|[[-> [= -> -> ->]]|[-> [= -> -> ->]]]]]; [|discriminate|..];
        [left|right; left|right; right]; exact He. }
    destruct Hd as [Hd|[Hd|Hd]]; each_entry Hd; eexists; reflexivity.
  - intros n nd Hn. dirs_cases Hn; apply NoDup_singleton.
  - intros n n' nd nd' b Hn Hn' Hne Hb. dirs_cases Hn; dirs_cases Hn'; try done;
      apply list_elem_of_singleton in Hb as ->; by intros ?%list_elem_of_singleton.
Defined.

Lemma dirs_image_mem_ok nm : last_name nm -> mem_ok (dirs_image nm).
Proof.
  intros Hnm.
  pose proof create_image_mem_ok as Hci.
  unfold dirs_image. repeat (exact Hci || apply copy_entry_mem_ok || apply store_byte_mem_ok || apply store_mem_ok);
    destruct Hnm as [-> | ->]; refine (bool_decide_unpack _ _); vm_compute; exact I.
Defined.

Lemma dirs_image_inodes nm : last_name nm -> @inodes_ok demo_sb (dirs_image nm).
Proof.
  intros Hnm. pose proof (dirs_image_mem_ok nm Hnm) as Hm. destruct Hnm as [-> | ->]; demo_inodes_ok Hm;
  (match goal with |- context [@free_blocks _ ?m] => replace (@free_blocks demo_sb m) with (@nil Z) by (vm_compute; reflexivity) end); constructor.
Defined.

Lemma dirs_image_tables nm : last_name nm -> @tables_ok demo_sb (dirs_image nm).
Proof. intros [-> | ->]; demo_tables_ok. Defined.

Lemma dirs_image_holds nm : last_name nm -> @holds demo_sb (dirs_image nm) (dirs_tree nm).
Proof.
  intros Hnm. pose proof (dirs_image_inodes nm Hnm) as Hi. pose proof (dirs_image_tables nm Hnm) as Ht.
  assert (@free_inodes demo_sb (dirs_image nm) = [6; 7; 8]) as Ef by (destruct Hnm as [-> | ->]; vm_compute; reflexivity).
  assert (@free_blocks demo_sb (dirs_image nm) = []) as Eb by (destruct Hnm as [-> | ->]; vm_compute; reflexivity).
  split; [exact Hi|exact Ht|..].
  - intros n nd Hn. dirs_cases Hn; split; vm_compute; congruence.
  - intros n nd Hn. rewrite Ef. dirs_cases Hn; refine (bool_decide_unpack _ _); vm_compute; exact I.
  - assert (@inode_place demo_sb (dirs_image nm) 2 = 5248 /\ @inode_place demo_sb (dirs_image nm) 3 = 5376 /\
      @inode_place demo_sb (dirs_image nm) 4 = 5504 /\ @inode_place demo_sb (dirs_image nm) 5 = 5632) as (E2 & E3 & E4 & E5)
      by (destruct Hnm as [-> | ->]; split_and!; vm_compute; reflexivity).
    intros n nd Hn. dirs_cases Hn; [rewrite E2|rewrite E3|rewrite E4|rewrite E5]; destruct Hnm as [-> | ->];
      (split; [split; vm_compute; reflexivity|]).
    3-4: apply demo_file_at; vm_compute; reflexivity.
    all: apply demo_dir_at; [vm_compute; reflexivity..|unfold dirs_root, dirs_c, dirs_d; demo_block].
  - intros n nd b Hn Hb.
    apply demo_taken; [destruct Hnm as [-> | ->]; vm_compute; reflexivity..| |rewrite Eb; apply not_elem_of_nil].
    dirs_cases Hn; cbn in Hb; apply list_elem_of_singleton in Hb as ->; lia.
Defined.

#[local] Instance rmdir_superblock : Superblock_constants := demo_sb.

Definition c_spot (nm : list Z) : spot := {|
  sp_dir := 2; sp_stat := dirs_stat; sp_indirect := []; sp_block := 6;
  sp_first := demo_dentry 2 12 (str "."); sp_before := [demo_dentry 2 12 (str ".."); demo_dentry 3 12 (str "a")];
  sp_entry := demo_dentry 4 12 (str "c"); sp_after := [demo_dentry 5 976 nm]; sp_rest := []
|}.
Definition d_spot (nm : list Z) : spot := {|
  sp_dir := 2; sp_stat := dirs_stat; sp_indirect := []; sp_block := 6;
  sp_first := demo_dentry 2 12 (str ".");
  sp_before := [demo_dentry 2 12 (str ".."); demo_dentry 3 12 (str "a"); demo_dentry 4 12 (str "c")];
  sp_entry := demo_dentry 5 976 nm; sp_after := []; sp_rest := []
|}.

Lemma dirs_one_link nm e :
  last_name nm -> e = c_spot nm \/ e = d_spot nm -> one_link (dirs_tree nm) 2 (sp_inode e) (sp_name e).
Proof.
  intros Hnm Hf n st bs ind x Hnf Hn He Hi.
  assert (n = 2 /\ x ∈ dirs_root nm \/ n = 4 /\ x ∈ dirs_c \/ n = 5 /\ x ∈ dirs_d) as Hx.
  { apply dirs_tree_lookup in Hn as [[-> [= -> -> ->]]|[[_ ?]|[[-> [= -> -> ->]]|[-> [= -> -> ->]]]]]; [|discriminate|..];
      [left|right; left|right; right]; split; try reflexivity; exact He. }
  destruct Hx as [[-> Hx]|[[-> Hx]|[-> Hx]]]; each_entry Hx; destruct Hf as [-> | ->];
    vm_compute in Hi; try congruence; first [by destruct Hnf|split; reflexivity].
Defined.

Lemma dirs_can_unlink nm e :
  last_name nm -> e = c_spot nm \/ e = d_spot nm -> can_unlink (dirs_server nm) [] (dirs_tree nm) [] e.
Proof.
  intros Hnm He. split.
  - split_and!; [split; constructor|vm_compute; reflexivity|]. apply Forall_cons; split; [|constructor].
    destruct He as [-> | ->], Hnm as [-> | ->]; (split; [discriminate|]); refine (bool_decide_unpack _ _); vm_compute; exact I.
  - exact (dirs_image_holds nm Hnm).
  - exact (dirs_tree_ok nm).
  - destruct He as [-> | ->]; reflexivity.
  - intros [|? ?] ns2 E; [|discriminate]. destruct He as [-> | ->]; vm_compute; congruence.
  - destruct He as [-> | ->]; reflexivity.
  - destruct He as [-> | ->], Hnm as [-> | ->]; refine (bool_decide_unpack _ _); vm_compute; exact I.
  - replace (sp_dir e) with 2 by (by destruct He as [-> | ->]). by apply dirs_one_link.
  - destruct He as [-> | ->]; discriminate.
Defined.

(** "c" has a record of 12 bytes: it goes when the entry behind it is "d", and not when that is [long_name]. *)
Lemma delete_dir_leaves_witness :
  (exists m' s', delete_dir (demo_create false (str "c")) (dirs_server (str "d")) = Ok (result (str "/c") (Status 0), s') /\
    path_resolves m' [str "c"] None /\ path_resolves m' [str "a"] (Some (inode_place m' 3, 3)) /\
    free_blocks m' ≡ₚ [8] /\ NUMBER_DIRECTORIES_GROUP m' 2048 = 2) /\
  delete_dir (demo_create false (str "c")) (dirs_server long_name) = Fail Overlap.
Proof.
  assert (forall nm, last_name nm -> can_delete_dir (dirs_server nm) [] (dirs_tree nm) [] (c_spot nm) dirs_stat 8
    (demo_dentry 4 12 (str ".")) (demo_dentry 2 1012 (str "..")) [] []) as Hcd.
  { intros nm Hnm. split; [apply dirs_can_unlink; [exact Hnm|by left]|reflexivity|reflexivity]. }
  split.
  - pose proof (@delete_dir_leaves demo_sb demo_sb_ok sample_cache (dirs_server (str "d")) [] (dirs_tree (str "d")) []
      (c_spot (str "d")) _ _ _ _ (demo_create false (str "c")) (Hcd _ (or_introl eq_refl)) eq_refl) as H.
    replace (copies_apart (c_spot (str "d"))) with true in H by (vm_compute; reflexivity).
    destruct H as (m' & s' & Hrun & _ & _ & Hres & Hkept & Hb & _ & Hc & _).
    exists m', s'. split; [exact Hrun|]. split; [exact Hres|]. split; [|split; [exact Hb|exact Hc]].
    apply Hkept.
    + apply Forall_cons; split; [|constructor]. split; [discriminate|]. refine (bool_decide_unpack _ _). vm_compute. exact I.
    + intros [|n1 [|? ?]] ns2 E; [vm_compute; congruence| |discriminate]. injection E as <- <-. vm_compute. congruence.
    + reflexivity.
  - pose proof (@delete_dir_leaves demo_sb demo_sb_ok sample_cache (dirs_server long_name) [] (dirs_tree long_name) []
      (c_spot long_name) _ _ _ _ (demo_create false (str "c")) (Hcd _ (or_intror eq_refl)) eq_refl) as H.
    replace (copies_apart (c_spot long_name)) with false in H by (vm_compute; reflexivity). exact H.
Defined.

Lemma delete_dir_orphans_witness :
  exists m' s', delete_dir (demo_create false (str "d")) (dirs_server (str "d")) = Ok (result (str "/d") (Status 1), s') /\
    path_resolves m' [str "d"] None /\ 5 ∉ free_inodes m'.
Proof.
  destruct (@delete_dir_orphans demo_sb demo_sb_ok sample_cache (dirs_server (str "d")) [] (dirs_tree (str "d")) []
    (d_spot (str "d")) dirs_stat 9
    (demo_dentry 5 12 (str ".")) (demo_dentry 2 12 (str "..")) [demo_dentry 3 1000 (str "x")] []
    (demo_create false (str "d"))) as (m' & s' & Hrun & _ & _ & Hres & _ & _ & Hi).
  - split; [apply dirs_can_unlink; [by left|by right]|reflexivity|reflexivity].
  - reflexivity.
  - discriminate.
  - reflexivity.
  - exists m', s'. split; [exact Hrun|]. split; [exact Hres|]. change (5 ∉ @free_inodes demo_sb m'). rewrite Hi.
    replace (@free_inodes demo_sb (file (dirs_server (str "d")))) with [6; 7; 8] by (vm_compute; reflexivity).
    refine (bool_decide_unpack _ _). vm_compute. exact I.
Defined.
