(* ===== verification/Reads.v ===== *)
(** * Reads: read_file and the cache of blocks

    The bytes of a file are the bytes of the blocks its inode points to; the
    cache of blocks is coherent when what it has for a path and a block is
    that block of the file.  [read_file] of [file_operations.c], alone and
    behind a message of a client, answers the bytes of the file and keeps the
    cache coherent, except that the last block of a read is lost when the
    rest of the read fits what was read of the first block. *)

From S2P Require Import Prelude Memory Bitarray Ext2 Ext2Facts CString Paths Rfs ActiveFiles Alloc BlockMap Dirs Walk FileOps Serial Requests SerialFacts Lookups.

Section Reads.
Context {Super_constants : Superblock_constants} {WA : Word_after_array} {AB : Abi}.
Context {C : Type} `{MemcachedLaws C}.
Abbreviation R := (rfs C).
Implicit Types (s : R) (m : mem) (refs : list nat).

(** ** The bytes of a file *)

Definition file_byte m (i k : Z) : Z :=
  m (block_addr (block_pointer m i (k / BLOCK_SIZE)) + k mod BLOCK_SIZE).

(** [n] bytes of the file with the inode [i], from [off] on. *)
Definition contents m (i off n : Z) : list Z := file_byte m i <$> seqZ off n.

Definition file_block m (i b : Z) : list Z :=
  read_bytes m (block_addr (block_pointer m i b)) BLOCK_SIZE.

Lemma zlen_contents m i off n : 0 <= n -> zlen (contents m i off n) = n.
Proof. intros Hn. unfold zlen, contents. rewrite length_fmap, length_seqZ. lia. Qed.

Lemma contents_app m i off a b :
  0 <= a -> 0 <= b -> contents m i off (a + b) = contents m i off a ++ contents m i (off + a) b.
Proof. intros Ha Hb. unfold contents. by rewrite seqZ_app, fmap_app. Qed.

Lemma zlen_read_bytes m a n : 0 <= n -> zlen (read_bytes m a n) = n.
Proof. intros Hn. unfold zlen, read_bytes. rewrite length_fmap, length_seqZ. lia. Qed.

(** A part of a file that lies in one block. *)
Lemma contents_in_block `{!Superblock_ok} m i b start n :
  0 <= start -> 0 <= n -> start + n <= BLOCK_SIZE ->
  contents m i (b * BLOCK_SIZE + start) n = read_bytes m (block_addr (block_pointer m i b) + start) n.
Proof.
  intros Hs Hn Hb. unfold contents, read_bytes. apply fmap_seqZ_shift. intros k Hk.
  unfold file_byte. replace (b * BLOCK_SIZE + start + k) with (start + k + b * BLOCK_SIZE) by lia.
  pose proof block_size_pos. rewrite Z.div_add, Z.mod_add, Z.div_small, Z.mod_small by lia.
  f_equal. rewrite Z.add_0_l. lia.
Qed.

Lemma read_bytes_slice m a len start n :
  0 <= start -> 0 <= n -> start + n <= len ->
  take (Z.to_nat n) (drop (Z.to_nat start) (read_bytes m a len)) = read_bytes m (a + start) n.
Proof.
  intros Hs Hn Hl. unfold read_bytes. rewrite <- fmap_drop, <- fmap_take.
  replace len with (start + (n + (len - start - n))) by lia.
  rewrite seqZ_app, drop_app_length' by (rewrite ?length_seqZ; lia).
  rewrite seqZ_app, take_app_length' by (rewrite ?length_seqZ; lia).
  apply list_eq. intros k. rewrite !list_lookup_fmap.
  destruct (decide (Z.of_nat k < n)).
  - rewrite !lookup_seqZ_lt by lia. simpl. do 2 f_equal. lia.
  - by rewrite !lookup_seqZ_ge by lia.
Qed.

(** ** Coherence of the cache *)

(** What the cache has for the path [p] are the blocks of the inode [i]. *)
Definition coherent_upto m (c : C) (p : list Z) (i k : Z) : Prop :=
  forall b l, 0 <= b < k -> cached c (generate_key p b) = Some l -> l = file_block m i b.

Definition coherent m (c : C) (p : list Z) (i : Z) : Prop := coherent_upto m c p i (Size_In_Blocks (Inode.size m i)).

Lemma coherent_kept m c c' p i :
  (forall k, kept (cached c' k) (cached c k)) -> coherent m c p i -> coherent m c' p i.
Proof.
  intros Hk Hc b l Hb Hl. destruct (Hk (generate_key p b)) as [E|E].
  - rewrite E in Hl. by eapply Hc.
  - congruence.
Qed.

Lemma Size_In_Blocks_size_range `{!Superblock_ok} m i : 0 <= Size_In_Blocks (Inode.size m i) < 2 ^ 32.
Proof.
  pose proof (Size_In_Blocks_bounds _ (u32_range (Inode.size m i))) as Hs.
  unfold Size_In_Blocks in *. rewrite u32_idem in Hs. lia.
Qed.

Lemma coherent_set `{!Superblock_ok} m c p i b :
  0 <= b < 2 ^ 32 -> coherent m c p i ->
  coherent m (memcached_set (generate_key p b) (file_block m i b) c) p i.
Proof.
  intros Hb Hc b' l Hb' Hl. pose proof (Size_In_Blocks_size_range m i).
  destruct (decide (generate_key p b = generate_key p b')) as [E|E].
  - pose proof (generate_key_injective p p b b' Hb ltac:(lia) E) as [_ <-].
    destruct (cached_set_same c (generate_key p b) (file_block m i b)) as [E'|E']; congruence.
  - destruct (cached_set_other c _ _ (file_block m i b) E) as [E'|E'].
    + rewrite E' in Hl. by eapply Hc.
    + congruence.
Qed.

(** Only what the cache has for the first [n] blocks at the path has changed. *)
Definition kept_but (p : list Z) (n : Z) (c c' : C) : Prop :=
  forall key, (forall b, 0 <= b < n -> key <> generate_key p b) -> kept (cached c' key) (cached c key).

Lemma kept_but_refl p n c : kept_but p n c c.
Proof. intros key _. by left. Qed.

Lemma kept_but_trans p n c1 c2 c3 : kept_but p n c1 c2 -> kept_but p n c2 c3 -> kept_but p n c1 c3.
Proof. intros H1 H2 key Hk. destruct (H2 key Hk) as [->|E]; [by apply H1|by right]. Qed.

Lemma kept_but_get p n c key : kept_but p n c (snd (memcached_get key c)).
Proof. intros k' _. apply cached_get. Qed.

Lemma kept_but_set p n c b l : 0 <= b < n -> kept_but p n c (memcached_set (generate_key p b) l c).
Proof. intros Hb key Hk. apply cached_set_other. symmetry. by apply Hk. Qed.

(** ** Blocks through the cache *)

(** The addresses of the [k] blocks of a file, with the final zero. *)
Definition addresses m (i k : Z) : list Z := (block_pointer m i <$> seqZ 0 k) ++ [0].

Lemma array_get_address m i k b s :
  0 <= b < k -> array_get (C := C) (addresses m i k) b s = Ok (block_pointer m i b, s).
Proof.
  intros Hb. unfold array_get, addresses.
  rewrite lookup_app_l by (rewrite length_fmap, length_seqZ; lia).
  rewrite list_lookup_fmap, lookup_seqZ_lt by lia. cbn [fmap option_fmap option_map].
  rewrite (proj2 (Z.ltb_ge _ _)) by lia. unfold mret, M_ret. do 3 f_equal. lia.
Qed.

(** What [cache_fs_get_set] gives holds the bytes of the block. *)
Definition holds_block m (i b : Z) (d : cache_fs_data_t) : Prop :=
  d = From_cache (file_block m i b) \/ d = In_file (block_addr (block_pointer m i b)).

Lemma block_bytes_ok `{!Superblock_ok} m i b d start n s :
  file s = m -> holds_block m i b d -> 0 <= start -> 0 <= n -> start + n <= BLOCK_SIZE ->
  block_bytes d start n s = Ok (contents m i (b * BLOCK_SIZE + start) n, s).
Proof.
  intros Hm Hd Hs Hn Hb. rewrite contents_in_block by done. pose proof block_size_pos.
  destruct Hd as [-> | ->]; unfold block_bytes.
  - unfold file_block. rewrite zlen_read_bytes by lia. rewrite (proj2 (Z.leb_le _ _)) by lia.
    by rewrite read_bytes_slice.
  - rewrite (bind_ok _ _ s (file s) s) by done. by rewrite Hm.
Qed.

Lemma cache_fs_get_set_ok `{!Superblock_ok} s p i k b :
  0 <= b < k -> k <= Size_In_Blocks (Inode.size (file s) i) ->
  coherent (file s) (memc s) p i ->
  exists d c, cache_fs_get_set p b (addresses (file s) i k) s = Ok (d, with_memc c s) /\
    holds_block (file s) i b d /\ coherent (file s) c p i /\ kept_but p k (memc s) c.
Proof.
  intros Hb Hk Hc. unfold cache_fs_get_set. rewrite (bind_ok _ _ s s s) by done.
  destruct (memcached_get (generate_key p b) (memc s)) as [r c] eqn:Eg.
  assert (coherent (file s) c p i) as Hc'.
  { replace c with (snd (memcached_get (generate_key p b) (memc s))) by by rewrite Eg.
    eapply coherent_kept; [|exact Hc]. intros k'. apply cached_get. }
  assert (kept_but p k (memc s) c) as Ho.
  { replace c with (snd (memcached_get (generate_key p b) (memc s))) by by rewrite Eg. apply kept_but_get. }
  rewrite (bind_ok _ _ s tt (with_memc c s)) by done. destruct r as [l|].
  - exists (From_cache l), c. split_and!; [done|left; f_equal|done|done].
    eapply Hc; [lia|]. unfold cached. by rewrite Eg.
  - rewrite (bind_ok _ _ _ _ _ (array_get_address _ _ _ _ _ Hb)).
    exists (In_file (block_addr (block_pointer (file s) i b))),
      (memcached_set (generate_key p b) (file_block (file s) i b) c).
    split_and!; [done|by right| |by eapply kept_but_trans, kept_but_set]. apply coherent_set; [|done].
    pose proof (Size_In_Blocks_size_range (file s) i). lia.
Qed.

(** ** The buffer *)

Lemma buffer_write_end (data l : list Z) (k : nat) i s :
  i = zlen data -> (length l <= k)%nat ->
  buffer_write (C := C) (data ++ replicate k 0) i l s
  = Ok ((data ++ l) ++ replicate (k - length l) 0, s).
Proof.
  intros -> Hl. unfold buffer_write. autorewrite with liga. unfold zlen. rewrite length_replicate.
  rewrite (proj2 (Z.leb_le _ _)) by lia. unfold mret, M_ret, array_write. rewrite Nat2Z.id.
  rewrite take_app_length, <- app_assoc. do 4 f_equal.
  rewrite drop_app_ge by lia. rewrite Nat.add_comm, Nat.add_sub. by rewrite drop_replicate.
Qed.

(** ** read_file *)

(** What [read_file] copies of the [n] bytes at [off]: all of them, or only
    those of the first block. *)
Definition copied (off n : Z) : Z :=
  let room := BLOCK_SIZE - off mod BLOCK_SIZE in
  if n - Z.min n room >? room then n else Z.min n room.

(** The buffer that is answered. *)
Definition read_buffer m (i off n capacity : Z) : list Z :=
  contents m i off (copied off n) ++ replicate (Z.to_nat (capacity - copied off n)) 0.

Lemma read_rest_ok `{!Superblock_ok} fuel s p i k off bn left_ so_far (free : nat) :
  k = Size_In_Blocks (Inode.size (file s) i) -> coherent (file s) (memc s) p i ->
  0 <= left_ -> (Z.to_nat left_ <= fuel)%nat -> (Z.to_nat left_ <= free)%nat ->
  0 <= off -> 0 <= so_far -> 0 <= bn ->
  (0 < left_ -> bn * BLOCK_SIZE = off + so_far) -> off + so_far + left_ <= k * BLOCK_SIZE ->
  so_far + left_ < 2 ^ 32 -> off + so_far + left_ < 2 ^ 32 ->
  exists c, read_rest fuel p (addresses (file s) i k)
      (contents (file s) i off so_far ++ replicate free 0) bn left_ so_far s
    = Ok (contents (file s) i off (so_far + left_) ++ replicate (free - Z.to_nat left_) 0, with_memc c s) /\
    coherent (file s) c p i /\ kept_but p k (memc s) c.
Proof.
  intros Hk. pose proof block_size_pos as Hbs.
  revert s bn left_ so_far free Hk. induction fuel as [|fuel IH];
    intros s bn left_ so_far free Hk Hc Hl Hf Hfree Ho Hs Hbn Hpos Hend H32 H32'; cbn [read_rest].
  - rewrite Z.gtb_ltb, (proj2 (Z.ltb_ge _ _)) by lia. exists (memc s).
    replace left_ with 0 by lia. rewrite Z.add_0_r, Nat.sub_0_r. split_and!; [by destruct s|done|apply kept_but_refl].
  - rewrite Z.gtb_ltb. case_test; zify_bool.
    2: { exists (memc s). replace left_ with 0 by lia. rewrite Z.add_0_r, Nat.sub_0_r.
         split_and!; [by destruct s|done|apply kept_but_refl]. }
    specialize (Hpos E). set (chunk := if left_ >? BLOCK_SIZE then BLOCK_SIZE else left_).
    assert (chunk = Z.min left_ BLOCK_SIZE) as Ech by (unfold chunk; rewrite Z.gtb_ltb; case_test; zify_bool; lia).
    clearbody chunk.
    destruct (cache_fs_get_set_ok s p i k bn) as (d & c & Hg & Hd & Hc' & Hk1); [nia|lia|done|].
    rewrite (bind_ok _ _ _ _ _ Hg).
    rewrite (bind_ok _ _ _ _ _ (block_bytes_ok (file s) i bn d 0 chunk (with_memc c s) eq_refl Hd
               ltac:(lia) ltac:(lia) ltac:(lia))).
    replace (bn * BLOCK_SIZE + 0) with (off + so_far) by lia.
    set (l := contents (file s) i (off + so_far) chunk).
    assert (length l = Z.to_nat chunk) as Hlen.
    { pose proof (zlen_contents (file s) i (off + so_far) chunk ltac:(lia)) as Hz.
      fold l in Hz. unfold zlen in Hz. lia. }
    assert (so_far = zlen (contents (file s) i off so_far)) as Ez by by rewrite zlen_contents.
    rewrite (bind_ok _ _ _ _ _ (buffer_write_end _ l free _ _ Ez ltac:(lia))).
    unfold l at 1. rewrite <- contents_app by lia. rewrite !u32_small by nia.
    destruct (IH (with_memc c s) (bn + 1) (left_ - chunk) (so_far + chunk) (free - length l)%nat)
      as (c' & Hrun & Hc'' & Hk2); try done; try nia.
    exists c'. split; [|split; [done|by eapply kept_but_trans]].
    replace (so_far + left_) with (so_far + chunk + (left_ - chunk)) by lia.
    replace (free - Z.to_nat left_)%nat with (free - length l - Z.to_nat (left_ - chunk))%nat by lia.
    exact Hrun.
Qed.

Lemma Size_In_Blocks_size_bounds `{!Superblock_ok} m i :
  0 <= Inode.size m i -> 
  Inode.size m i <= Size_In_Blocks (Inode.size m i) * BLOCK_SIZE < Inode.size m i + BLOCK_SIZE.
Proof.
  intros Hs. assert (Inode.size m i < 2 ^ 31) by (apply s32_range).
  pose proof (Size_In_Blocks_bounds (Inode.size m i) ltac:(lia)). lia.
Qed.

Lemma room_bounds `{!Superblock_ok} off : 0 < BLOCK_SIZE - off mod BLOCK_SIZE <= BLOCK_SIZE.
Proof. pose proof (Z.mod_pos_bound off BLOCK_SIZE block_size_pos). lia. Qed.

Lemma copied_bounds `{!Superblock_ok} off n : 0 <= n -> 0 <= copied off n <= n.
Proof. intros Hn. unfold copied. pose proof (room_bounds off). case_test; lia. Qed.

Lemma read_blocks_ok `{!Superblock_ok} s p i off len capacity :
  coherent (file s) (memc s) p i ->
  0 <= off -> 0 < len <= capacity -> off + len <= Inode.size (file s) i ->
  exists c, read_blocks p (addresses (file s) i (Size_In_Blocks (Inode.size (file s) i)))
      capacity off len s
    = Ok (read_buffer (file s) i off len capacity, with_memc c s) /\ coherent (file s) c p i /\
    kept_but p (Size_In_Blocks (Inode.size (file s) i)) (memc s) c.
Proof.
  intros Hc Ho Hl Hend. set (k := Size_In_Blocks _).
  pose proof block_size_pos as Hbs. pose proof (room_bounds off) as Hroom.
  pose proof (Size_In_Blocks_size_bounds (file s) i ltac:(lia)) as Hk. fold k in Hk.
  assert (BLOCK_SIZE <> 0) as Hnz by lia. pose proof (Z.div_mod off BLOCK_SIZE Hnz) as Hdm.
  pose proof (Z.div_pos off BLOCK_SIZE Ho Hbs).
  assert (Inode.size (file s) i < 2 ^ 31) as H31 by (apply s32_range).
  assert (BLOCK_SIZE <= 4096) as H4k by (destruct block_size_cases as [->|[->| ->]]; lia).
  unfold read_blocks. rewrite (u32_small (BLOCK_SIZE - _)) by lia.
  set (room := BLOCK_SIZE - off mod BLOCK_SIZE) in *.
  assert (room = BLOCK_SIZE - off mod BLOCK_SIZE) as Eroom by done.
  assert (u32 (if len >? room then room else len) = Z.min len room) as ->.
  { rewrite Z.gtb_ltb, u32_small; case_test; zify_bool; lia. }
  destruct (cache_fs_get_set_ok s p i k (off / BLOCK_SIZE)) as (d & c & Hg & Hd & Hc' & Hk1);
    [nia|done|done|].
  rewrite (bind_ok _ _ _ _ _ Hg).
  pose proof (block_bytes_ok (file s) i (off / BLOCK_SIZE) d (off mod BLOCK_SIZE)
             (Z.min len room) (with_memc c s) eq_refl Hd) as Hbytes.
  rewrite (bind_ok _ _ _ _ _ (Hbytes ltac:(lia) ltac:(lia) ltac:(lia))).
  replace (off / BLOCK_SIZE * BLOCK_SIZE + off mod BLOCK_SIZE) with off by lia.
  set (first := contents (file s) i off (Z.min len room)).
  assert (length first = Z.to_nat (Z.min len room)) as Hlen.
  { pose proof (zlen_contents (file s) i off (Z.min len room) ltac:(lia)) as Hz.
    fold first in Hz. unfold zlen in Hz. lia. }
  pose proof (buffer_write_end [] first (Z.to_nat capacity) 0 (with_memc c s) eq_refl ltac:(lia)) as Hw.
  rewrite (bind_ok _ _ _ _ _ Hw). unfold read_buffer, copied. fold room.
  simpl app. rewrite Hlen. case_test; zify_bool.
  - rewrite u32_small by nia.
    replace (Z.to_nat (capacity - len))
      with (Z.to_nat capacity - Z.to_nat (Z.min len room) - Z.to_nat (len - Z.min len room))%nat by lia.
    destruct (read_rest_ok (Z.to_nat (len - Z.min len room)) (with_memc c s) p i k off
                (off / BLOCK_SIZE + 1) (len - Z.min len room) (Z.min len room)
                (Z.to_nat capacity - Z.to_nat (Z.min len room))) as (c' & Hrun & Hc'' & Hk2);
      try done; try lia; try (rewrite Z.gtb_lt in E; lia).
    exists c'. split; [|split; [done|by eapply kept_but_trans]].
    replace (Z.min len room + (len - Z.min len room)) with len in Hrun by lia. exact Hrun.
  - exists c. split; [|done]. unfold mret, M_ret. fold first. repeat f_equal. lia.
Qed.

(** ** The cache does not concern the locks *)

Definition ignores_cache {A} (f : M R A) : Prop := forall s a s' c,
  f s = Ok (a, s') -> f (with_memc c s) = Ok (a, with_memc c s').

Lemma ignores_cache_bind {A B} (f : M R A) (g : A -> M R B) :
  ignores_cache f -> (forall a, ignores_cache (g a)) -> ignores_cache (f ≫= g).
Proof.
  intros Hf Hg s b s'' c (a & s' & H1 & H2)%bind_inv.
  rewrite (bind_ok _ _ _ _ _ (Hf _ _ _ c H1)). by apply Hg.
Qed.

Lemma with_lock_ignores_cache id f : ignores_cache (with_lock id f).
Proof.
  intros s a s' c. unfold with_lock, the_file, mbind, M_bind, get_files, gets. cbn [active_file_list with_memc].
  destruct (find_id id (active_file_list s)) as [x|]; [|done].
  unfold mret, M_ret. destruct (f (rwlock x)); [|done].
  unfold put_files, modify. by intros [= <- <-].
Qed.

Lemma with_lock_file id f s s' : with_lock id f s = Ok (tt, s') -> file s' = file s.
Proof.
  unfold with_lock, the_file, mbind, M_bind, get_files, gets.
  destruct (find_id id (active_file_list s)) as [x|]; [|done].
  unfold mret, M_ret. destruct (f (rwlock x)); [|done].
  unfold put_files, modify. by intros [= <-].
Qed.

Lemma finished_using_ignores_cache id : ignores_cache (active_file_finished_using id).
Proof.
  unfold active_file_finished_using. apply ignores_cache_bind; [apply with_lock_ignores_cache|intros _].
  apply ignores_cache_bind; [by intros s a s' c [= <- <-]|intros l].
  apply ignores_cache_bind; [by intros s a s' c [= <- <-]|intros _].
  apply ignores_cache_bind; [apply with_lock_ignores_cache|intros _].
  apply ignores_cache_bind.
  - intros s a s' c. unfold the_file, mbind, M_bind, get_files, gets. cbn [active_file_list with_memc].
    destruct (find_id id (active_file_list s)); [|done]. by intros [= <- <-].
  - intros a. destruct (is_working a =? 0); [|by intros s b s' c [= <- <-]].
    intros s b s' c. unfold active_file_list_remove_and_destroy_element, mbind, M_bind, get_files, gets.
    cbn [active_file_list with_memc]. destruct (list_find _ _) as [[]|]; [|done]. by intros [= <- <-].
Qed.

Lemma restored_memc e s s' refs c :
  restored e s s' refs -> restored e (with_memc c s) (with_memc c s') refs.
Proof.
  intros ([] & Ha & Hst). split_and!; [by split| |done].
  unfold after in *. by rewrite Ha at 1.
Qed.

Lemma Inode_addresses `{!Superblock_ok} m i :
  0 < Inode.size m i ->
  default [] (Inode_Get_Data_Adressess m i (Inode.size m i))
  = addresses m i (Size_In_Blocks (Inode.size m i)).
Proof.
  intros Hs. pose proof block_size_pos. pose proof (Size_In_Blocks_size_bounds m i ltac:(lia)).
  assert (Inode.size m i < 2 ^ 31) by (apply s32_range).
  rewrite Inode_addresses_spec by lia. cbn [default]. by rewrite Z.max_r by nia.
Qed.

(** The number of bytes that a read of [len] bytes at [off] answers. *)
Definition bytes_read m (i off len : Z) : Z :=
  if Inode.size m i <=? off + len then u32 (Inode.size m i - off) else len.

Lemma read_file_ok `{!Superblock_ok} s refs ns i n params :
  ready s refs ns -> path_resolves (file s) ns (Some (i, n)) ->
  has_mode (Inode.mode (file s) i) EXT2_IFREG = true -> coherent (file s) (memc s) (abs_path ns) i ->
  p_path params = abs_path ns -> 0 <= p_offset params < Inode.size (file s) i ->
  0 < p_bytes_to_read params ->
  let len := bytes_read (file s) i (p_offset params) (p_bytes_to_read params) in
  exists s' c, read_file params s
    = Ok ({| r_path := abs_path ns; r_read_bytes := u32 len; r_error := 0;
             r_data := Bytes (read_buffer (file s) i (p_offset params) len (p_bytes_to_read params)) |}, s') /\
    restored (errno s) (with_memc c s) s' refs /\ coherent (file s) c (abs_path ns) i /\
    kept_but (abs_path ns) (Size_In_Blocks (Inode.size (file s) i)) (memc s) c.
Proof.
  intros Hs Hr Hmode Hc Hp Ho Hl len.
  destruct (lookup_bracket s refs ns _ Hs Hr)
    as (id & s1 & s2 & s3 & s4 & s5 & G1 & G2 & G3 & Ha3 & G4 & G5 & Hok & Hst & Ha).
  cbn [walk_errno] in *. destruct (after_file _ _ _ Ha3) as [Hf3 _].
  assert (memc s3 = memc s) as Hc3 by by rewrite Ha3.
  assert (file s2 = file s) as Hf2.
  { pose proof G3 as G3'. unfold RDLOCK in G3'. apply with_lock_file in G3'. congruence. }
  assert (Inode.size (file s) i < 2 ^ 31) as H31 by (apply s32_range).
  assert (0 < len <= p_bytes_to_read params /\ p_offset params + len <= Inode.size (file s) i) as [Hlen Hend].
  { subst len. unfold bytes_read in *. case_test; zify_bool; [rewrite u32_small by lia|]; lia. }
  destruct (read_blocks_ok s3 (abs_path ns) i (p_offset params) len (p_bytes_to_read params)) as (c & Hrun & Hc' & Hk);
    [by rewrite Hf3, Hc3|lia|done|by rewrite Hf3|]. rewrite Hc3 in Hk.
  exists (with_memc c s5), c. split; [|split; [by apply restored_memc|by rewrite <- Hf3]].
  unfold read_file. rewrite Hp, (bind_ok _ _ _ _ _ G1), (bind_ok _ _ _ _ _ G2).
  cbn [walk_result fst]. rewrite (bind_ok _ _ s2 (file s2) s2) by done.
  cbv zeta. rewrite Hf2, Hmode, (bind_ok _ _ _ _ _ G3), (bind_ok _ _ s3 (file s3) s3) by done.
  rewrite Hf3 in *. rewrite Inode_addresses by lia. change (if _ <=? _ then _ else _) with len.
  rewrite (bind_ok _ _ _ _ _ Hrun).
  assert (UNLOCK id (with_memc c s3) = Ok (tt, with_memc c s4)) as G4' by by apply with_lock_ignores_cache.
  rewrite (bind_ok _ _ _ _ _ G4').
  by rewrite (bind_ok _ _ _ _ _ (finished_using_ignores_cache _ _ _ _ c G5)).
Qed.

Lemma zlen_read_buffer `{!Superblock_ok} m i off n capacity :
  0 <= n <= capacity -> zlen (read_buffer m i off n capacity) = capacity.
Proof.
  intros Hn. pose proof (copied_bounds off n ltac:(lia)). unfold read_buffer.
  rewrite zlen_app, zlen_contents by lia. unfold zlen. rewrite length_replicate. lia.
Qed.

Lemma take_read_buffer `{!Superblock_ok} m i off n capacity :
  0 <= n <= capacity -> take (Z.to_nat n) (read_buffer m i off n capacity) = read_buffer m i off n n.
Proof.
  intros Hn. pose proof (copied_bounds off n ltac:(lia)). unfold read_buffer.
  pose proof (zlen_contents m i off (copied off n) ltac:(lia)) as Hl. unfold zlen in Hl.
  rewrite take_app_ge by lia. f_equal. rewrite take_replicate. f_equal. lia.
Qed.

(** End to end, read: the message of [leer_archivo] for [len] bytes at an offset inside a regular
    file is answered with a message from which the client reads as many bytes as the file has there,
    at most [len]: the bytes of the blocks that the inode points to, whether they come from the image
    or from the cache; but when what is left behind the first block is not more than what was read
    room for in it, zeros come in its place ([copied]).  The cache stays coherent, the image, the
    table and the locks are as before. *)
Lemma read_served `{!Superblock_ok} `{!Abi_ok} s refs ns i n off len :
  asked s refs ns -> errno s = 0 -> coherent (file s) (memc s) (abs_path ns) i ->
  path_resolves (file s) ns (Some (i, n)) ->
  has_mode (Inode.mode (file s) i) EXT2_IFREG = true ->
  0 <= off < Inode.size (file s) i -> 0 < len -> szt + len < 2 ^ 16 ->
  exists req ans payload s' c, serializar_pedido (Leer_archivo (abs_path ns) len off) = Ok req /\
    atender (data req) s = Ok (Some ans, s') /\
    restored 0 (with_memc c s) s' refs /\ coherent (file s) c (abs_path ns) i /\
    kept_but (abs_path ns) (Size_In_Blocks (Inode.size (file s) i)) (memc s) c /\
    message ans RESPUESTA_OK payload /\
    let count := Z.min len (Inode.size (file s) i - off) in
    deserializar_respuesta_leer_archivo payload (zlen payload)
    = Ok {| rl_buffer := contents (file s) i off (copied off count)
                           ++ replicate (Z.to_nat (count - copied off count)) 0;
            rl_bytes_leidos := count |}.
Proof.
  intros Hask He0 Hc Hr Hmode Ho Hl Hsz. pose proof Hask as (Hs & Hcs & Hl40).
  pose proof off_t_is_size_t as Hos. pose proof size_t_size as Hs4.
  assert (Inode.size (file s) i < 2 ^ 31) as H31 by (apply s32_range).
  pose proof (pow_256_ge sizeof_size_t ltac:(lia)) as Hp256.
  pose proof (pow_2_ge sizeof_off_t ltac:(lia)) as Hp2.
  assert (0 <= szt) by (unfold szt; lia).
  set (p := Leer_archivo (abs_path ns) len off).
  assert (payload_size p < 2 ^ 16) as Hps.
  { cbn [p payload_size]. unfold szt, sot, strlen in *. lia. }
  assert (exists req, serializar_pedido p = Ok req) as [req Hreq].
  { eexists. apply serializar_pedido_spec. lia. }
  set (m := file s) in *. set (count := Z.min len (Inode.size m i - off)).
  assert (bytes_read m i off len = count) as Hcount.
  { unfold bytes_read, count. case_test; zify_bool; [rewrite u32_small by lia|]; lia. }
  assert (p_offset (params (task_of (C := C) p)) = off) as Eo by (apply u32_small; lia).
  assert (p_bytes_to_read (params (task_of (C := C) p)) = len) as El by (apply u32_small; lia).
  destruct (read_file_ok s refs ns i n (params (task_of p)) Hs Hr Hmode Hc eq_refl)
    as (s1 & c & Hrun & Hrest & Hc' & Hk); [by rewrite Eo|by rewrite El|].
  rewrite Eo, El in Hrun. fold m in Hrun. rewrite Hcount, (u32_small count) in Hrun by (unfold count; lia).
  destruct (read_answer_message (read_buffer m i off count len) count) as (ans & payload & Hser & Hmes & Hdes);
    [rewrite zlen_read_buffer by (unfold count; lia); unfold count; lia|unfold szt, count in *; lia..|].
  rewrite take_read_buffer in Hdes by (unfold count; lia).
  destruct Hrest as (Hok1 & Ha1 & Hst1). rewrite He0 in Ha1. pose proof (after_file _ _ _ Ha1) as [Hf1 He1].
  assert (atender (data req) s = worker (task_of p) s) as Hat.
  { apply atender_task; try done; try lia. cbn [p pedido_numbers]. unfold szt, sot in *. lia. }
  rewrite (worker_run (task_of p) s _ s1 Hl40 Hrun) in Hat. cbn [r_path r_data r_read_bytes] in Hat.
  rewrite He1 in Hat.
  match type of Hat with _ = deliver_response (task_of p) ?res _ =>
    destruct (with_data_file_ok (with_errno 0 s1) refs res
      (t ← lift (serializar_respuesta_leer_archivo RESPUESTA_OK (r_read_bytes res) (read_buffer m i off count len));
       mret (Some t)) (Some ans)) as (s2 & Hrun2 & Hrest2) end.
  { by apply table_inv_errno. }
  { destruct Hs as (_ & Hlen & _). pose proof (zlen_nonneg ns). lia. }
  { intros sx _. cbn [r_read_bytes]. by rewrite Hser. }
  exists req, ans, payload, s2, c. split_and!; try done; [by rewrite Hat|].
  eapply restored_trans; [|exact Hrest2]. by split_and!.
Qed.

(** ** Reads behind the end *)

Lemma cache_fs_get_set_cases p b l s :
  (exists d s', cache_fs_get_set p b l s = Ok (d, s')) \/ cache_fs_get_set p b l s = Fail OutOfBounds.
Proof.
  unfold cache_fs_get_set. rewrite (bind_ok _ _ s s s) by done.
  destruct (memcached_get _ _) as [[v|] c]; rewrite (bind_ok _ _ s tt (with_memc c s)) by done.
  - left. eauto.
  - unfold array_get. destruct (l !! _); [destruct (b <? 0)|]; try (by right). left. eauto.
Qed.

Lemma block_bytes_cases d start n s :
  0 <= start -> 0 <= n ->
  (exists l, block_bytes (C := C) d start n s = Ok (l, s) /\ zlen l = n) \/
  block_bytes (C := C) d start n s = Fail OutOfBounds.
Proof.
  intros Hs Hn. destruct d as [l|a]; unfold block_bytes.
  - destruct (Z.leb_spec (start + n) (zlen l)); [left|by right].
    eexists. split; [done|]. unfold zlen in *. rewrite length_take, length_drop. lia.
  - left. eexists. split; [done|]. by rewrite zlen_read_bytes.
Qed.

Lemma buffer_write_cases buf i l s :
  0 <= i ->
  (exists buf', buffer_write (C := C) buf i l s = Ok (buf', s) /\ zlen buf' = zlen buf /\
     i + zlen l <= zlen buf) \/
  buffer_write (C := C) buf i l s = Fail OutOfBounds.
Proof.
  intros Hi. unfold buffer_write. destruct (Z.leb_spec (i + zlen l) (zlen buf)); [left|by right].
  eexists. split; [done|]. split; [|done]. unfold array_write, zlen in *.
  rewrite !length_app, length_take, length_drop. lia.
Qed.

(** More bytes than the buffer holds end in a write behind it, or a read of
    an address behind the last one. *)
Lemma read_rest_overflow `{!Superblock_ok} fuel p l buf bn left_ so_far s :
  (Z.to_nat left_ <= fuel)%nat -> 0 <= so_far -> so_far + left_ < 2 ^ 32 ->
  so_far <= zlen buf < so_far + left_ ->
  read_rest fuel p l buf bn left_ so_far s = Fail OutOfBounds.
Proof.
  pose proof block_size_pos as Hbs.
  revert buf bn left_ so_far s. induction fuel as [|fuel IH]; intros buf bn left_ so_far s Hf Hs H32 Hb; [lia|].
  cbn [read_rest]. rewrite Z.gtb_ltb, (proj2 (Z.ltb_lt _ _)) by lia.
  set (chunk := if left_ >? BLOCK_SIZE then BLOCK_SIZE else left_).
  assert (0 < chunk <= left_) as Hch by (unfold chunk; rewrite Z.gtb_ltb; case_test; zify_bool; lia).
  clearbody chunk.
  destruct (cache_fs_get_set_cases p bn l s) as [(d & s1 & Hg)|Hg];
    [rewrite (bind_ok _ _ _ _ _ Hg)|by rewrite (bind_fail _ _ _ _ Hg)].
  destruct (block_bytes_cases d 0 chunk s1) as [(bs & Hbb & Hlen)|Hbb]; [lia..| |];
    [rewrite (bind_ok _ _ _ _ _ Hbb)|by rewrite (bind_fail _ _ _ _ Hbb)].
  destruct (buffer_write_cases buf so_far bs s1) as [(buf' & Hw & Hl & Hfit)|Hw]; [lia| |];
    [rewrite (bind_ok _ _ _ _ _ Hw)|by rewrite (bind_fail _ _ _ _ Hw)].
  rewrite (u32_small (so_far + chunk)) by lia. apply IH; lia.
Qed.

Lemma read_blocks_overflow `{!Superblock_ok} p l capacity off n s :
  0 <= off -> 0 <= capacity < n -> n < 2 ^ 32 -> 2 * BLOCK_SIZE < n ->
  read_blocks p l capacity off n s = Fail OutOfBounds.
Proof.
  intros Ho Hc Hn H2. pose proof (room_bounds off) as Hroom. pose proof block_size_pos.
  assert (BLOCK_SIZE <= 4096) as H4k by (destruct block_size_cases as [->|[->| ->]]; lia).
  assert (0 <= off mod BLOCK_SIZE) as Hmod by (apply Z.mod_pos_bound; lia).
  unfold read_blocks. rewrite (u32_small (BLOCK_SIZE - _)) by lia.
  set (room := BLOCK_SIZE - off mod BLOCK_SIZE) in *. clearbody room.
  rewrite (Z.gtb_ltb n room), (proj2 (Z.ltb_lt room n)), (u32_small room) by lia.
  destruct (cache_fs_get_set_cases p (off / BLOCK_SIZE) l s) as [(d & s1 & Hg)|Hg];
    [rewrite (bind_ok _ _ _ _ _ Hg)|by rewrite (bind_fail _ _ _ _ Hg)].
  destruct (block_bytes_cases d (off mod BLOCK_SIZE) room s1) as [(bs & Hbb & Hlen)|Hbb]; [lia..| |];
    [rewrite (bind_ok _ _ _ _ _ Hbb)|by rewrite (bind_fail _ _ _ _ Hbb)].
  destruct (buffer_write_cases (replicate (Z.to_nat capacity) 0) 0 bs s1) as [(buf & Hw & Hl & Hfit)|Hw]; [lia| |];
    [rewrite (bind_ok _ _ _ _ _ Hw)|by rewrite (bind_fail _ _ _ _ Hw)].
  rewrite Z.gtb_ltb, (proj2 (Z.ltb_lt _ _)) by lia.
  unfold zlen at 2 in Hl. rewrite length_replicate in Hl. unfold zlen in Hfit at 2.
  rewrite length_replicate in Hfit. apply read_rest_overflow; lia.
Qed.

(** C37: A read that starts behind the end of a file is not refused: the number of bytes left wraps
    around, and [read_file] runs out of the arrays it works on. *)
Theorem read_behind_end_overflows `{!Superblock_ok} s refs ns i n params :
  ready s refs ns -> path_resolves (file s) ns (Some (i, n)) ->
  has_mode (Inode.mode (file s) i) EXT2_IFREG = true -> p_path params = abs_path ns ->
  0 <= Inode.size (file s) i < p_offset params -> p_offset params < 2 ^ 31 ->
  0 <= p_bytes_to_read params < 2 ^ 31 ->
  read_file params s = Fail OutOfBounds.
Proof.
  intros Hs Hr Hmode Hp Ho H31 Hl.
  destruct (lookup_bracket s refs ns _ Hs Hr)
    as (id & s1 & s2 & s3 & s4 & s5 & G1 & G2 & G3 & Ha3 & G4 & G5 & Hok & Hst & Ha).
  destruct (after_file _ _ _ Ha3) as [Hf3 _].
  assert (file s2 = file s) as Hf2.
  { pose proof G3 as G3'. unfold RDLOCK in G3'. apply with_lock_file in G3'. congruence. }
  unfold read_file. rewrite Hp, (bind_ok _ _ _ _ _ G1), (bind_ok _ _ _ _ _ G2).
  cbn [walk_result fst]. rewrite (bind_ok _ _ s2 (file s2) s2) by done.
  cbv zeta. rewrite Hf2, Hmode, (bind_ok _ _ _ _ _ G3), (bind_ok _ _ s3 (file s3) s3) by done.
  rewrite Hf3, (proj2 (Z.leb_le _ _)) by lia. apply bind_fail.
  assert (BLOCK_SIZE <= 4096) as H4k by (destruct block_size_cases as [->|[->| ->]]; lia).
  assert (u32 (Inode.size (file s) i - p_offset params)
          = Inode.size (file s) i - p_offset params + 2 ^ 32) as ->.
  { unfold u32. symmetry. apply Z.mod_unique with (-1); lia. }
  apply read_blocks_overflow; lia.
Qed.
End Reads.

(** ** Witnesses: the file "a" of the demonstration image *)

Lemma demo_coherent p i : @coherent demo_sb sample_cache _ demo_image ∅ p i.
Proof. intros b l _ Hl. unfold cached in Hl. simpl in Hl. by rewrite lookup_empty in Hl. Defined.

Lemma demo_ready_a : ready demo_server [] [str "a"].
Proof. exact (proj1 demo_asked_a). Defined.

Lemma read_behind_end_overflows_witness :
  let SB := demo_sb in let WA : Word_after_array := fun _ => 0 in
  read_file {| p_path := str "/a"; p_mode := 0; p_write_buffer := []; p_file := false; p_offset := 9;
               p_bytes_to_read := 4; p_bytes_to_write := 0; p_size := 0 |} demo_server = Fail OutOfBounds.
Proof.
  intros SB WA.
  apply (@read_behind_end_overflows demo_sb sample_cache _ demo_sb_ok
           demo_server [] [str "a"] 5376 3); [exact demo_ready_a|exact demo_resolves|vm_compute; reflexivity
           |reflexivity|vm_compute; split; congruence|reflexivity|vm_compute; split; congruence].
Defined.
