(* ===== verification/Writes.v ===== *)
(** * Writes: write_file inside a file

    [write_file] of [file_operations.c] on bytes that the file already has:
    the bytes change as asked, block by block, in the image and in the cache,
    and nothing else does; the number it answers is the number of bytes it has
    written, which is less than asked for when what is left behind the first
    block is not more than what was written of it. *)

From S2P Require Import Prelude Memory Bitarray Ext2 Ext2Facts CString Paths Rfs ActiveFiles Alloc BlockMap Dirs Walk FileOps Serial Requests SerialFacts Lookups Reads.

Section Writes.
Context {Super_constants : Superblock_constants} {WA : Word_after_array}.
Context {C : Type} `{MemcachedLaws C}.
Abbreviation R := (rfs C).
Implicit Types (s : R) (m : mem) (refs : list nat).

(** ** The lock for writing *)

(** find, walk, WRLOCK, then UNLOCK and finished_using in any state with the
    same table. *)
Lemma write_bracket s refs ns r :
  ready s refs ns -> path_resolves (file s) ns r ->
  exists id s1 s2 s3, active_file_list_find (abs_path ns) s = Ok (id, s1) /\
    inode_of_file (abs_path ns) s1 = Ok (walk_result r, s2) /\
    after (walk_errno r (errno s)) s s2 /\
    WRLOCK id s2 = Ok (tt, s3) /\ after (walk_errno r (errno s)) s s3 /\
    forall t, same_table s3 t ->
      exists t1, UNLOCK id t = Ok (tt, t1) /\ table_ok t1 (id :: refs) /\ table_moved t t1 /\
      exists t2, active_file_finished_using id t1 = Ok (tt, t2) /\
        table_ok t2 refs /\ table_moved t t2 /\ (forall j, j ∈ refs -> path_at t2 j = path_at s j).
Proof.
  intros Hready Hres. pose proof Hready as (_ & Hlen & _). pose proof (zlen_nonneg ns).
  destruct (open_bracket s refs ns r Hready Hres) as (id & s1 & s2 & Hr1 & Hr2 & Hok2 & _ & Hst2 & Ha2).
  destruct (WRLOCK_free s2 (id :: refs) _ id Hok2) as (s3 & Hr3 & Hok3 & Hst3 & Hm3); [by left|done|].
  exists id, s1, s2, s3. split_and!; try done; [by eapply after_moved_trans|].
  intros t Ht. apply (table_inv_same _ _ _ _ Ht) in Hok3.
  destruct (UNLOCK_writer t (id :: refs) _ id Hok3) as (t1 & Hr4 & Hok4 & Hst4 & Hm4); [by left|apply set_lk_same|].
  assert (table_ok t1 (id :: refs)) as Hok4'.
  { eapply table_inv_ext; [|exact Hok4]. intros j. by apply set_lk_undo. }
  destruct (finish_inv t1 (id :: refs) refs _ id Hok4') as (t2 & Hr5 & Hok5 & _ & Hst5 & Hm5);
    [done|rewrite zlen_cons; lia|done|].
  exists t1. split_and!; try done. exists t2. split_and!; try done.
  - unfold table_moved in *. rewrite Hm5 at 1. by rewrite Hm4.
  - intros j Hj. rewrite Hst5, Hst4, (path_at_same _ _ _ Ht), Hst3, Hst2; done.
Qed.

(** ** A file apart from the rest of the image *)

(** The byte at [x] lies in one of the first [k] blocks of the file. *)
Definition in_data m (i k x : Z) : Prop :=
  exists b, 0 <= b < k /\ in_range (block_addr (block_pointer m i b)) BLOCK_SIZE x = true.

(** The data blocks of the inode [i] are allocated, do not overlap, and hold
    neither the inode nor its blocks of pointers. *)
Record apart m (i k : Z) : Prop := {
  ap_allocated : forall b, 0 <= b < k -> block_pointer m i b <> 0;
  ap_disjoint : forall a b, 0 <= a < k -> 0 <= b < k -> a <> b ->
    block_addr (block_pointer m i a) + BLOCK_SIZE <= block_addr (block_pointer m i b) \/
    block_addr (block_pointer m i b) + BLOCK_SIZE <= block_addr (block_pointer m i a);
  ap_metadata : forall m', (forall x, ~ in_data m i k x -> m' x = m x) ->
    Inode.size m' i = Inode.size m i /\
    forall b, 0 <= b < k -> block_pointer m' i b = block_pointer m i b
}.

Definition blocks_of m (i : Z) : Z := Size_In_Blocks (Inode.size m i).

Lemma apart_same m m' i k :
  apart m i k -> (forall x, ~ in_data m i k x -> m' x = m x) -> apart m' i k.
Proof.
  intros [Hal Hdis Hmeta] Hm. destruct (Hmeta m' Hm) as [Hs Hb].
  assert (Hin : forall x, in_data m i k x -> in_data m' i k x).
  { intros x (b & Hbk & Hx). exists b. split; [done|]. by rewrite Hb. }
  split.
  - intros b Hbk. rewrite Hb by done. by apply Hal.
  - intros a b Ha Hbk Hne. rewrite !Hb by done. by apply Hdis.
  - intros m'' Hm''. destruct (Hmeta m'') as [Hs'' Hb''].
    { intros x Hx. rewrite Hm''; [by apply Hm|]. intros (b & Hbk & Hx').
      apply Hx. exists b. split; [done|]. by rewrite <- Hb. }
    split; [congruence|]. intros b Hbk. rewrite Hb'', Hb by done. done.
Qed.

(** ** What a write does *)

(** The bytes of the file in [m'] are those in [m], with [d] at [off]. *)
Definition overwritten m m' (i k off : Z) (d : list Z) : Prop :=
  forall o, 0 <= o < k * BLOCK_SIZE ->
    file_byte m' i o = if in_range off (zlen d) o then default 0 (d !! Z.to_nat (o - off)) else file_byte m i o.

(** [d] is at [off] of the file, within its first [k] blocks. *)
Record wrote_in (k : Z) s (s' : R) (p : list Z) (i off : Z) (d : list Z) : Prop := {
  wr_state : s' = with_memc (memc s') (with_file (file s') s);
  wr_bytes : overwritten (file s) (file s') i k off d;
  wr_rest : forall x, ~ in_data (file s) i k x -> file s' x = file s x;
  wr_apart : apart (file s') i k;
  wr_size : Inode.size (file s') i = Inode.size (file s) i;
  wr_pointers : forall b, 0 <= b < k -> block_pointer (file s') i b = block_pointer (file s) i b;
  wr_coherent : coherent_upto (file s') (memc s') p i k;
  wr_others : kept_but p k (memc s) (memc s')
}.

(** ... within the blocks of its size. *)
Definition wrote s (s' : R) (p : list Z) (i off : Z) (d : list Z) : Prop :=
  wrote_in (blocks_of (file s) i) s s' p i off d.

Lemma overwritten_trans m1 m2 m3 i k off d1 d2 :
  overwritten m1 m2 i k off d1 -> overwritten m2 m3 i k (off + zlen d1) d2 ->
  overwritten m1 m3 i k off (d1 ++ d2).
Proof.
  intros H1 H2 o Ho. rewrite (H2 o Ho), (H1 o Ho), zlen_app.
  pose proof (zlen_nonneg d1). pose proof (zlen_nonneg d2). unfold zlen in *.
  destruct (in_range (off + Z.of_nat (length d1)) (Z.of_nat (length d2)) o) eqn:E2.
  - apply in_range_true in E2. rewrite (proj2 (in_range_true off _ o)) by lia.
    rewrite lookup_app_r by lia. do 2 f_equal. lia.
  - apply in_range_false in E2. destruct (in_range off (Z.of_nat (length d1)) o) eqn:E1.
    + apply in_range_true in E1. rewrite (proj2 (in_range_true off _ o)) by lia.
      by rewrite lookup_app_l by lia.
    + apply in_range_false in E1. by rewrite (proj2 (in_range_false off _ o)) by lia.
Qed.

Lemma wrote_trans k s1 s2 s3 p i off d1 d2 :
  wrote_in k s1 s2 p i off d1 -> wrote_in k s2 s3 p i (off + zlen d1) d2 -> wrote_in k s1 s3 p i off (d1 ++ d2).
Proof.
  intros [E1 B1 R1 A1 S1 P1 C1 O1] [E2 B2 R2 A2 S2 P2 C2 O2]. split; try done.
  - rewrite E2 at 1. by rewrite E1.
  - by eapply overwritten_trans.
  - intros x Hx. rewrite R2; [by apply R1|]. intros (b & Hb & Hxb). apply Hx. exists b.
    split; [done|]. by rewrite <- P1.
  - congruence.
  - intros b Hb. rewrite P2 by done. by apply P1.
  - by eapply kept_but_trans.
Qed.

Section Chunk.
Context `{!Superblock_ok}.
Variables (m : mem) (i k b start : Z) (d : list Z).
Hypotheses (Happ : apart m i k) (Hb : 0 <= b < k) (Hs : 0 <= start) (Hd : start + zlen d <= BLOCK_SIZE).

Definition chunk_written : mem := memcpy_bytes m (block_addr (block_pointer m i b) + start) d.

Lemma chunk_rest x : ~ in_data m i k x -> chunk_written x = m x.
Proof using Hb Hs Hd.
  intros Hx. unfold chunk_written, memcpy_bytes. rewrite (proj2 (in_range_false _ _ x)); [done|].
  intros Hr. apply Hx. exists b. split; [done|]. apply in_range_true. lia.
Qed.

Lemma chunk_pointer a : 0 <= a < k -> block_pointer chunk_written i a = block_pointer m i a.
Proof using Happ Hb Hs Hd. intros Ha. destruct (ap_metadata m i k Happ _ chunk_rest) as [_ Hp]. by apply Hp. Qed.

Lemma chunk_size_same : Inode.size chunk_written i = Inode.size m i.
Proof using Happ Hb Hs Hd. by destruct (ap_metadata m i k Happ _ chunk_rest). Qed.

Lemma chunk_bytes : overwritten m chunk_written i k (b * BLOCK_SIZE + start) d.
Proof using All.
  intros o Ho. pose proof block_size_pos as Hbs. pose proof (zlen_nonneg d) as Hdn.
  assert (BLOCK_SIZE <> 0) as Hnz by lia.
  pose proof (Z.div_mod o BLOCK_SIZE Hnz) as Hdm. pose proof (Z.mod_pos_bound o BLOCK_SIZE Hbs) as Hr.
  assert (0 <= o / BLOCK_SIZE < k) as Hq by (split; [apply Z.div_pos; lia|apply Z.div_lt_upper_bound; lia]).
  set (q := o / BLOCK_SIZE) in *. set (r := o mod BLOCK_SIZE) in *.
  unfold file_byte. fold q r. rewrite chunk_pointer by done. unfold chunk_written, memcpy_bytes.
  destruct (decide (q = b)) as [->|Hne].
  - destruct (in_range (b * BLOCK_SIZE + start) (zlen d) o) eqn:E.
    + apply in_range_true in E. rewrite (proj2 (in_range_true _ _ _)) by lia. do 2 f_equal. lia.
    + apply in_range_false in E. by rewrite (proj2 (in_range_false _ _ _)) by lia.
  - pose proof (ap_disjoint m i k Happ q b Hq Hb Hne) as Hdis.
    rewrite (proj2 (in_range_false _ _ _)) by lia. rewrite (proj2 (in_range_false _ _ o)); [done|].
    intros E. apply Hne. nia.
Qed.

(** The block as it is in the image after the write. *)
Lemma chunk_other_block a : 0 <= a < k -> a <> b -> file_block chunk_written i a = file_block m i a.
Proof using All.
  intros Ha Hne. unfold file_block. rewrite chunk_pointer by done.
  unfold read_bytes. apply list_fmap_ext. intros j o Ho. apply lookup_seqZ in Ho as [-> Ho].
  unfold chunk_written, memcpy_bytes. rewrite (proj2 (in_range_false _ _ _)); [done|].
  pose proof (ap_disjoint m i k Happ a b Ha Hb Hne). lia.
Qed.
End Chunk.

Lemma array_get_same m m' i k b s :
  0 <= b < k -> block_pointer m' i b = block_pointer m i b ->
  array_get (C := C) (addresses m i k) b s = Ok (block_pointer m' i b, s).
Proof. intros Hb ->. by apply array_get_address. Qed.

Lemma write_chunk `{!Superblock_ok} k s0 s p i kk b start buf j n :
  k < 2 ^ 32 -> apart (file s) i k -> coherent_upto (file s) (memc s) p i k -> block_pointer (file s) i b = block_pointer (file s0) i b ->
  0 <= b < kk -> kk <= k -> 0 <= start -> 0 <= n -> start + n <= BLOCK_SIZE -> 0 <= j ->
  j + n <= zlen buf ->
  exists s1 s2, copy_to_file (block_addr (block_pointer (file s0) i b) + start) buf j n s = Ok (tt, s1) /\
    cache_set p b (addresses (file s0) i kk) s1 = Ok (tt, s2) /\
    wrote_in k s s2 p i (b * BLOCK_SIZE + start) (take (Z.to_nat n) (drop (Z.to_nat j) buf)).
Proof.
  intros Hk32 Happ Hc Hptr Hbk Hkk Hs Hn Hsn Hj Hjn. assert (0 <= b < k) as Hb by lia.
  set (d := take (Z.to_nat n) (drop (Z.to_nat j) buf)).
  assert (zlen d = n) as Hd by (unfold d, zlen in *; rewrite length_take, length_drop; lia).
  set (m' := chunk_written (file s) i b start d).
  assert (start + zlen d <= BLOCK_SIZE) as Hsd by lia.
  pose proof (chunk_pointer (file s) i k b start d Happ Hb Hs Hsd) as Hp'.
  set (c := memcached_set (generate_key p b) (file_block m' i b) (memc s)).
  exists (with_file m' s), (with_memc c (with_file m' s)). split_and!.
  - unfold copy_to_file. rewrite (proj2 (Z.leb_le _ _)) by done. unfold update_file, modify.
    do 2 f_equal. unfold m', chunk_written. by rewrite Hptr.
  - unfold cache_set. erewrite bind_ok.
    2: { apply (array_get_same (file s0) m' i kk b); [done|]. rewrite <- Hptr. by apply Hp'. }
    rewrite (bind_ok _ _ (with_file m' s) m' (with_file m' s)) by done. done.
  - assert (Inode.size m' i = Inode.size (file s) i) as Hsz
      by exact (chunk_size_same (file s) i k b start d Happ Hb Hs Hsd).
    assert (forall x, ~ in_data (file s) i k x -> m' x = file s x) as Hrest
      by exact (chunk_rest (file s) i k b start d Hb Hs Hsd).
    split; cbn [file memc with_memc with_file]; try done.
    + by apply chunk_bytes.
    + by eapply apart_same.
    + intros a l Ha Hl.
      destruct (decide (a = b)) as [->|Hne].
      * destruct (cached_set_same (memc s) (generate_key p b) (file_block m' i b)) as [E|E];
          unfold c in Hl; congruence.
      * assert (generate_key p b <> generate_key p a) as Hkey.
        { intros E. apply generate_key_injective in E as [_ E]; [congruence|lia..]. }
        unfold m'. rewrite (chunk_other_block (file s) i k) by done. apply Hc; [done|].
        destruct (cached_set_other (memc s) _ _ (file_block m' i b) Hkey) as [E|E]; unfold c in Hl; congruence.
    + by apply kept_but_set.
Qed.

Lemma wrote_nothing k s p i off :
  apart (file s) i k -> coherent_upto (file s) (memc s) p i k -> wrote_in k s s p i off [].
Proof.
  intros Ha Hc. split; try done; [by destruct s| |apply kept_but_refl]. intros o Ho.
  by rewrite (proj2 (in_range_false off (zlen []) o)) by (rewrite zlen_nil; lia).
Qed.

(** One chunk more. *)
Lemma write_more `{!Superblock_ok} k s0 s p i off buf done_ kk b n :
  k < 2 ^ 32 -> wrote_in k s0 s p i off (take (Z.to_nat done_) buf) -> 0 <= done_ -> 0 <= n -> done_ + n <= zlen buf ->
  0 <= b < kk -> kk <= k ->
  b * BLOCK_SIZE <= off + done_ -> off + done_ + n <= (b + 1) * BLOCK_SIZE ->
  exists s1 s2,
    copy_to_file (block_addr (block_pointer (file s0) i b) + (off + done_ - b * BLOCK_SIZE)) buf done_ n s
      = Ok (tt, s1) /\
    cache_set p b (addresses (file s0) i kk) s1 = Ok (tt, s2) /\
    wrote_in k s0 s2 p i off (take (Z.to_nat (done_ + n)) buf).
Proof.
  intros Hk Hw Hd Hn Hlen Hb Hkk Hlo Hhi. pose proof Hw as [E B Rr A S P Cc _].
  destruct (write_chunk k s0 s p i kk b (off + done_ - b * BLOCK_SIZE) buf done_ n) as (s1 & s2 & G1 & G2 & G3);
    try done; try lia; [apply P; lia|].
  exists s1, s2. split_and!; try done.
  replace (take (Z.to_nat (done_ + n)) buf)
    with (take (Z.to_nat done_) buf ++ take (Z.to_nat n) (drop (Z.to_nat done_) buf)).
  - eapply wrote_trans; [exact Hw|].
    assert (zlen (take (Z.to_nat done_) buf) = done_) as -> by (unfold zlen in *; rewrite length_take; lia).
    by replace (b * BLOCK_SIZE + (off + done_ - b * BLOCK_SIZE)) with (off + done_) in G3 by lia.
  - rewrite Z2Nat.inj_add by done. apply take_take_drop.
Qed.

Lemma write_rest_ok `{!Superblock_ok} fuel k s0 s params p i off kk count bn left_ so_far :
  p_path params = p -> k < 2 ^ 32 -> wrote_in k s0 s p i off (take (Z.to_nat so_far) (p_write_buffer params)) ->
  0 <= left_ -> (Z.to_nat left_ <= fuel)%nat -> 0 <= off -> 0 <= so_far -> 0 <= bn ->
  so_far + left_ <= zlen (p_write_buffer params) ->
  (0 < left_ -> bn * BLOCK_SIZE = off + so_far) -> off + so_far + left_ <= kk * BLOCK_SIZE ->
  kk <= k -> kk <= count -> off + so_far + left_ < 2 ^ 31 ->
  exists s', write_rest fuel params (addresses (file s0) i kk) count bn left_ so_far s
    = Ok (inl (so_far + left_), s') /\
    wrote_in k s0 s' p i off (take (Z.to_nat (so_far + left_)) (p_write_buffer params)).
Proof.
  intros Hp Hk32. pose proof block_size_pos as Hbs.
  revert s bn left_ so_far. induction fuel as [|fuel IH];
    intros s bn left_ so_far Hw Hl Hf Ho Hs Hbn Hlen Hpos Hend Hkk Hcount H31; cbn [write_rest].
  - rewrite Z.gtb_ltb, (proj2 (Z.ltb_ge _ _)) by lia. exists s. replace left_ with 0 by lia. by rewrite Z.add_0_r.
  - rewrite Z.gtb_ltb. case_test; zify_bool.
    2: { exists s. replace left_ with 0 by lia. by rewrite Z.add_0_r. }
    specialize (Hpos E). rewrite Z.gtb_ltb, (proj2 (Z.ltb_ge _ _)) by nia.
    set (chunk := if left_ >? BLOCK_SIZE then BLOCK_SIZE else left_).
    assert (chunk = Z.min left_ BLOCK_SIZE) as Ech by (unfold chunk; rewrite Z.gtb_ltb; case_test; zify_bool; lia).
    clearbody chunk. assert (0 <= bn < kk) as Hbk by nia.
    rewrite (bind_ok _ _ _ _ _ (array_get_address (file s0) i kk bn s Hbk)).
    destruct (write_more k s0 s p i off (p_write_buffer params) so_far kk bn chunk Hk32 Hw Hs)
      as (s1 & s2 & G1 & G2 & G3); try lia.
    replace (off + so_far - bn * BLOCK_SIZE) with 0 in G1 by lia. rewrite Z.add_0_r in G1.
    rewrite (bind_ok _ _ _ _ _ G1), Hp, (bind_ok _ _ _ _ _ G2). rewrite !u32_small by nia.
    destruct (IH s2 (bn + 1) (left_ - chunk) (so_far + chunk) G3) as (s' & Hrun & Hw'); try lia; try nia.
    exists s'. replace (so_far + left_) with (so_far + chunk + (left_ - chunk)) by lia. done.
Qed.

(** How much [write_file] writes of [n] bytes at [off]. *)
Definition written (off n : Z) : Z :=
  let first := Z.min n (BLOCK_SIZE - off mod BLOCK_SIZE) in
  if n - first >? first then n else first.

Lemma write_blocks_ok `{!Superblock_ok} k s params p i kk :
  p_path params = p -> k < 2 ^ 32 -> coherent_upto (file s) (memc s) p i k -> apart (file s) i k ->
  let off := p_offset params in let n := p_bytes_to_write params in
  0 <= off -> 0 < n -> off + n < 2 ^ 31 -> n <= zlen (p_write_buffer params) ->
  kk = Size_In_Blocks (off + n) -> kk <= k ->
  exists s', write_blocks params i (addresses (file s) i kk) kk s = Ok (inl (written off n), s') /\
    wrote_in k s s' p i off (take (Z.to_nat (written off n)) (p_write_buffer params)).
Proof.
  intros Hp Hk32 Hc Happ off n Ho Hn H31 Hlen Hkk Hkb. pose proof block_size_pos as Hbs.
  pose proof (room_bounds off) as Hroom. assert (BLOCK_SIZE <> 0) as Hnz by lia.
  pose proof (Z.div_mod off BLOCK_SIZE Hnz) as Hdm. pose proof (Z.div_pos off BLOCK_SIZE Ho Hbs) as Hq.
  pose proof (Size_In_Blocks_bounds (off + n) ltac:(lia)) as [Hk1 Hk2]. rewrite <- Hkk in Hk1, Hk2.
  assert (0 <= off / BLOCK_SIZE < kk) as Hsb by nia.
  unfold write_blocks. fold off n. rewrite Z.gtb_ltb, (proj2 (Z.ltb_ge _ _)) by lia.
  rewrite (u32_small (kk - 1)) by lia.
  rewrite (bind_ok _ _ _ _ _ (array_get_address (file s) i kk (kk - 1) s ltac:(lia))).
  rewrite (proj2 (Z.eqb_neq _ _)) by (apply (ap_allocated _ _ _ Happ); lia).
  rewrite (bind_ok _ _ _ _ _ (array_get_address (file s) i kk _ s Hsb)).
  assert (BLOCK_SIZE <= 4096) as H4k by (destruct block_size_cases as [->|[->| ->]]; lia).
  rewrite (u32_small (BLOCK_SIZE - _)) by lia.
  unfold written. set (room := BLOCK_SIZE - off mod BLOCK_SIZE) in *.
  assert (room = BLOCK_SIZE - off mod BLOCK_SIZE) as Eroom by done.
  assert ((if room >? n then n else room) = Z.min n room) as ->.
  { rewrite Z.gtb_ltb. case_test; zify_bool; lia. }
  set (first := Z.min n room) in *. assert (0 < first <= n /\ first <= room) as Hfirst by (unfold first; lia).
  assert (first = n \/ first = room) as Hcase by (unfold first; lia). clearbody first.
  destruct (write_more k s s p i off (p_write_buffer params) 0 kk (off / BLOCK_SIZE) first)
    as (s1 & s2 & G1 & G2 & G3); try lia; [by apply wrote_nothing|].
  replace (off + 0 - off / BLOCK_SIZE * BLOCK_SIZE) with (off mod BLOCK_SIZE) in G1 by lia.
  rewrite (bind_ok _ _ _ _ _ G1), Hp, (bind_ok _ _ _ _ _ G2). rewrite Z.add_0_l in G3.
  case_test; zify_bool; [|by exists s2].
  rewrite u32_small by nia. rewrite Z.gtb_lt in E.
  destruct (write_rest_ok (Z.to_nat (n - first)) k s s2 params p i off kk kk (off / BLOCK_SIZE + 1) (n - first) first)
    as (s' & Hrun & Hw); try done; try lia.
  exists s'. rewrite (bind_ok _ _ _ _ _ Hrun). by replace (first + (n - first)) with n in * by lia.
Qed.

Lemma Inode_addresses_upto `{!Superblock_ok} m i n :
  0 < n < 2 ^ 32 -> default [] (Inode_Get_Data_Adressess m i n) = addresses m i (Size_In_Blocks n).
Proof.
  intros Hn. pose proof block_size_pos. pose proof (Size_In_Blocks_bounds n ltac:(lia)) as [Hk _].
  rewrite Inode_addresses_spec by lia. cbn [default]. by rewrite Z.max_r by nia.
Qed.

Lemma Size_In_Blocks_mono `{!Superblock_ok} a b :
  0 <= a <= b -> b < 2 ^ 32 -> Size_In_Blocks a <= Size_In_Blocks b.
Proof.
  intros Ha Hb. pose proof (Size_In_Blocks_bounds a ltac:(lia)). pose proof (Size_In_Blocks_bounds b ltac:(lia)).
  pose proof block_size_pos. nia.
Qed.

Lemma written_bounds `{!Superblock_ok} off n : 0 < n -> 0 < written off n <= n.
Proof. intros Hn. unfold written. pose proof (room_bounds off). case_test; lia. Qed.

(** C7: Writing inside a regular file: [write_file] changes exactly the [written off n] bytes at the
    offset to the bytes of the request (all [n] of them, or only those of the first block) and answers
    their number; the other bytes of the file, its inode and everything outside of its blocks stay, the
    cache has the new bytes, the write is counted for the next synchronisation, and the table and the
    locks are as before. *)
Theorem write_file_overwrites `{!Superblock_ok} s refs ns i num params :
  ready s refs ns -> path_resolves (file s) ns (Some (i, num)) ->
  has_mode (Inode.mode (file s) i) EXT2_IFREG = true ->
  coherent (file s) (memc s) (abs_path ns) i -> apart (file s) i (blocks_of (file s) i) ->
  p_path params = abs_path ns -> 0 <= p_offset params -> 0 < p_bytes_to_write params ->
  p_bytes_to_write params <= zlen (p_write_buffer params) ->
  p_offset params + p_bytes_to_write params <= Inode.size (file s) i ->
  let n := written (p_offset params) (p_bytes_to_write params) in
  exists s' t, write_file params s = Ok (result (abs_path ns) (Status n), s') /\
    wrote s t (abs_path ns) i (p_offset params) (take (Z.to_nat n) (p_write_buffer params)) /\
    restored (errno s) (with_counter (u64 (writes_to_sync s + 1)) t) s' refs.
Proof.
  intros Hs Hr Hmode Hc Happ Hp Ho Hn Hlen Hend n.
  destruct (write_bracket s refs ns _ Hs Hr) as (id & s1 & s2 & s3 & G1 & G2 & Ha2 & G3 & Ha3 & Hunlock).
  cbn [walk_errno] in *. destruct (after_file _ _ _ Ha2) as [Hf2 _]. destruct (after_file _ _ _ Ha3) as [Hf3 _].
  assert (memc s3 = memc s) as Hc3 by by rewrite Ha3.
  assert (Inode.size (file s) i < 2 ^ 31) as H31 by (apply s32_range).
  set (off := p_offset params) in *. set (len := p_bytes_to_write params) in *.
  set (kk := Size_In_Blocks (off + len)).
  pose proof (Size_In_Blocks_size_range (file s) i) as [_ Hk32].
  destruct (write_blocks_ok (blocks_of (file s) i) s3 params (abs_path ns) i kk Hp Hk32) as (s4 & Hrun & Hw);
    rewrite ?Hf3, ?Hc3; try done. { lia. } { apply Size_In_Blocks_mono; lia. }
  fold off len n in Hrun, Hw. rewrite Hf3 in Hrun.
  pose proof Hw as [E4 _ _ _ Sz4 _ _ _].
  set (t3 := with_counter (u64 (writes_to_sync s4 + 1)) s4).
  destruct (Hunlock t3) as (t4 & G4 & _ & _ & s' & G5 & Hok & Hm & Hst); [by unfold t3; rewrite E4|].
  assert (s3 = with_files (active_file_list s3) (next_id s3) s) as E3
    by (pose proof Ha3 as E; unfold after in E; rewrite E at 1; by destruct s).
  exists s', (with_memc (memc s4) (with_file (file s4) s)). split_and!.
  - unfold write_file. rewrite Hp, (bind_ok _ _ _ _ _ G1), (bind_ok _ _ _ _ _ G2). cbn [walk_result fst].
    rewrite (bind_ok _ _ s2 (file s2) s2) by done. rewrite Hf2, Hmode.
    rewrite (bind_ok _ _ _ _ _ G3), (bind_ok _ _ s3 (file s3) s3) by done. cbv zeta. rewrite Hf3. fold off len.
    rewrite (bind_ok _ _ s3 tt s3).
    2: { unfold clear_tail. rewrite (bind_ok _ _ s3 (file s3) s3) by done. rewrite Hf3. fold off.
         rewrite Z.gtb_ltb, (u32_small (Inode.size _ _)), (proj2 (Z.ltb_ge _ _)) by lia. done. }
    rewrite (bind_ok _ _ s3 (file s3) s3) by done. rewrite Hf3.
    rewrite (bind_ok _ _ s3 tt s3).
    2: { rewrite Z.gtb_ltb, (proj2 (Z.ltb_ge _ _)); [done|]. apply Size_In_Blocks_mono; lia. }
    rewrite (bind_ok _ _ s3 (file s3) s3) by done. rewrite Hf3.
    replace (Inode.size (file s) i + (off + len - Inode.size (file s) i)) with (off + len) by lia.
    rewrite (u32_small (off + len)) by lia. rewrite Inode_addresses_upto by lia. fold kk.
    rewrite (u32_small kk) by (pose proof (Size_In_Blocks_bounds (off + len) ltac:(lia)); unfold kk; lia).
    rewrite (bind_ok _ _ _ _ _ Hrun), (bind_ok _ _ s4 (file s4) s4) by done.
    rewrite Sz4, Hf3, (u32_small (Inode.size _ _)) by lia.
    pose proof (written_bounds off len ltac:(lia)) as Hwr. fold n in Hwr.
    rewrite u32_small, Z.gtb_ltb, (proj2 (Z.ltb_ge _ _)) by lia.
    rewrite (bind_ok _ _ s4 tt s4) by done. rewrite (bind_ok _ _ s4 tt t3) by done.
    by rewrite (bind_ok _ _ _ _ _ G4), (bind_ok _ _ _ _ _ G5).
  - unfold wrote. rewrite E3 in Hw. destruct Hw. by split.
  - split_and!; [done| |done].
    unfold after. unfold table_moved in Hm. rewrite Hm at 1. unfold t3. rewrite E4, E3. by destruct s.
Qed.
End Writes.

(** ** Witness: two bytes of the file "a" *)

Lemma demo_apart : @apart demo_sb demo_image 5376 1.
Proof.
  assert (Hone : forall b, 0 <= b < 1 -> b = 0) by (intros; lia).
  split.
  - intros b ->%Hone. vm_compute. discriminate.
  - intros a b ->%Hone ->%Hone Hne. by destruct Hne.
  - intros m' Hm'.
    assert (Hlow : forall x, x < 7168 -> m' x = demo_image x).
    { intros x Hx. apply Hm'. intros (b & ->%Hone & Hin). apply in_range_true in Hin.
      change (7168 <= x < 7168 + 1024) in Hin. lia. }
    split.
    + unfold Inode.size. f_equal. apply load_ext. intros x Hx. apply Hlow. lia.
    + intros b ->%Hone. apply (load_ext 4). intros x Hx. apply Hlow.
      change (5416 <= x < 5416 + Z.of_nat 4) in Hx. lia.
Defined.

Definition demo_write : params_t :=
  {| p_path := str "/a"; p_mode := 0; p_write_buffer := str "XY"; p_file := false; p_offset := 1;
     p_bytes_to_read := 0; p_bytes_to_write := 2; p_size := 0 |}.

Lemma write_file_overwrites_witness :
  let SB := demo_sb in let WA : Word_after_array := fun _ => 0 in
  exists s' (t : rfs sample_cache), write_file demo_write demo_server = Ok (result (str "/a") (Status 2), s') /\
    file s' = file t /\ contents (file t) 5376 0 5 = str "hXYa!" /\ writes_to_sync s' = 1.
Proof.
  intros SB WA.
  destruct (@write_file_overwrites demo_sb _ sample_cache _ gmap_memcached_laws demo_sb_ok demo_server []
              [str "a"] 5376 3 demo_write demo_ready_a demo_resolves) as (s' & t & H1 & H2 & _ & Hafter & _);
    [vm_compute; reflexivity|exact (demo_coherent _ _)|exact demo_apart|reflexivity|vm_compute; discriminate
    |vm_compute; reflexivity|vm_compute; discriminate|vm_compute; discriminate|].
  exists s', t. split; [exact H1|].
  assert (forall o, 0 <= o < 1024 -> file_byte (file t) 5376 o
    = if in_range 1 2 o then default 0 (str "XY" !! Z.to_nat (o - 1)) else file_byte demo_image 5376 o) as Hb.
  { intros o Ho. exact (wr_bytes _ _ _ _ _ _ _ H2 o Ho). }
  split; [exact (f_equal file Hafter)|]. split; [|exact (f_equal writes_to_sync Hafter)].
  unfold contents. change (seqZ 0 5) with [0; 1; 2; 3; 4]. cbn [fmap list_fmap].
  rewrite !Hb by lia. vm_compute. reflexivity.
Defined.
