(* ===== verification/Truncates.v ===== *)
(** * Truncates: a file cut or grown, end to end on the tree

    [truncate_file] of [file_operations.c] for a file in direct blocks,
    against the tree of [Tree]: the image that held a tree holds the tree with
    the file at its new size, with the blocks behind it free again or with the
    first free blocks behind its own; and what happens when there are not
    enough of them. *)

From S2P Require Import Prelude Memory Bitarray Ext2 Ext2Facts CString Paths Rfs ActiveFiles Alloc AllocFacts InodeAlloc BlockMap Dirs DirFacts Walk FileOps Serial Requests SerialFacts Lookups Tree TreeSteps Enters Creates Mkdirs Removes Deletes Reads Writes.

Section Truncates.
Context {Super_constants : Superblock_constants} {SO : Superblock_ok} {WA : Word_after_array}.
Context {C : Type} `{Memcached C}.
Abbreviation R := (rfs C).
Implicit Types (s t : R) (m : mem) (refs : list nat) (fs : gmap Z node) (i f b n : Z) (bl : list Z).

(** ** The file at its new size *)

Definition with_size n (st : istat) : istat := {| i_mode := i_mode st; i_links := i_links st; i_size := n |}.

(** [k] is what the inode counts as its blocks. *)
Definition resized m i n (k : Z) : mem := Inode.set_blocks (Inode.set_size m i n) i k.

Lemma resized_outside m i n k x : ~ in_inode i x -> resized m i n k x = m x.
Proof.
  intros Hx. unfold in_inode, sizeof_inode in Hx. unfold resized, Inode.set_blocks, Inode.set_size, store32, store.
  by decide_ranges.
Qed.

(** The fields before and behind the two that are written. *)
Lemma resized_load (w : nat) m i n c k :
  0 <= k -> (k + Z.of_nat w <= 4 \/ 8 <= k /\ k + Z.of_nat w <= 28 \/ 32 <= k) ->
  load w (resized m i n c) (i + k) = load w m (i + k).
Proof.
  intros Hk Hw. unfold resized, Inode.set_blocks, Inode.set_size, store32. by rewrite !load_store_other by lia.
Qed.

(** A file with its blocks in direct pointers. *)
Lemma direct_file m i st bl :
  stat_at m i st -> has_mode (i_mode st) EXT2_IFREG = true -> 0 <= i_size st ->
  zlen bl = Size_In_Blocks (i_size st) -> zlen bl <= 12 ->
  (forall k b, bl !! k = Some b -> load32 m (Inode.pointer_data_0 i (Z.of_nat k)) = b) ->
  (forall k, zlen bl <= k < 12 -> load32 m (Inode.pointer_data_0 i k) = 0) ->
  node_at m i (File st bl []).
Proof.
  intros Hst Hreg Hn Hbl Hfew Hptr Htail. pose proof Hst as [E1 _ E3]. split; [done|split; rewrite ?E1, ?E3; try done].
  intros m' Hm' k b Hk. pose proof (lookup_lt_Some _ _ _ Hk). unfold zlen in Hfew. unfold block_pointer.
  rewrite (proj2 (Z.ltb_lt _ _)) by lia. rewrite <- (Hptr k b Hk). apply (load_ext 4).
  intros x Hx. apply Hm'. left. unfold in_inode, sizeof_inode, Inode.pointer_data_0 in *. lia.
Qed.

Lemma resized_node m i st bl n c :
  has_mode (i_mode st) EXT2_IFREG = true -> Inode.mode m i = i_mode st -> Inode.links_count m i = i_links st ->
  0 <= n < 2 ^ 31 -> zlen bl = Size_In_Blocks n -> zlen bl <= 12 ->
  (forall k b, bl !! k = Some b -> load32 m (Inode.pointer_data_0 i (Z.of_nat k)) = b) ->
  (forall k, zlen bl <= k < 12 -> load32 m (Inode.pointer_data_0 i k) = 0) ->
  node_at (resized m i n c) i (File (with_size n st) bl []).
Proof.
  intros Hreg Hmode Hlinks Hn Hbl Hfew Hptr Htail.
  assert (forall k, 0 <= k -> load32 (resized m i n c) (Inode.pointer_data_0 i k) = load32 m (Inode.pointer_data_0 i k)) as Hp.
  { intros k Hk. unfold Inode.pointer_data_0. rewrite <- Z.add_assoc. apply (resized_load 4); lia. }
  apply direct_file; try done; cbn [with_size i_mode i_size]; [split; cbn [with_size i_mode i_links i_size]|lia|..].
  - rewrite <- Hmode. pose proof (resized_load 2 m i n c 0 ltac:(lia) ltac:(lia)) as E. by rewrite Z.add_0_r in E.
  - transitivity (Inode.links_count m i); [|done]. apply (resized_load 2); lia.
  - unfold Inode.size, resized, Inode.set_blocks, Inode.set_size, load32, store32. rewrite (load_store_other 4 4) by lia.
    rewrite load32_store32_same, u32_small, s32_small by lia. done.
  - intros k b Hk. rewrite Hp by lia. by apply Hptr.
  - intros k Hk. pose proof (zlen_nonneg bl). rewrite Hp by lia. by apply Htail.
Qed.

(** ** The blocks of the new size *)

(** The image [m1] once the file's blocks, [bl] in [m], are [bl']; [l] are
    the blocks that are new. *)
Record fitted m m1 fs f bl' (l : list Z) : Prop := {
  ft_holds : holds m1 (delete f fs);
  ft_place : inode_place m1 f = inode_place m f;
  ft_inodes : free_inodes m1 = free_inodes m;
  ft_descriptors : same_descriptors m m1;
  ft_tables : same_tables m m1;
  ft_pointers : forall k b, bl' !! k = Some b -> load32 m1 (Inode.pointer_data_0 (inode_place m f) (Z.of_nat k)) = b;
  ft_tail : forall k, zlen bl' <= k < 12 -> load32 m1 (Inode.pointer_data_0 (inode_place m f) k) = 0;
  ft_fields : forall (w : nat) k, 0 <= k -> k + Z.of_nat w <= 40 ->
    load w m1 (inode_place m f + k) = load w m (inode_place m f + k);
  ft_taken : forall b, b ∈ bl' -> taken_block m1 b;
  ft_frame : forall x, ~ control m x -> ~ in_inode (inode_place m f) x -> (forall b, b ∈ l -> ~ in_block b x) -> m1 x = m x
}.

Lemma file_pointer m fs f st bl k b :
  holds m fs -> fs !! f = Some (File st bl []) -> zlen bl <= 12 -> bl !! k = Some b ->
  load32 m (Inode.pointer_data_0 (inode_place m f) (Z.of_nat k)) = b.
Proof.
  intros Hh Hf Hfew Hk. destruct (ho_node _ _ Hh f _ Hf) as [_ Hat]. pose proof (lookup_lt_Some _ _ _ Hk).
  unfold zlen in Hfew. rewrite <- (fa_pointers _ _ _ _ Hat m ltac:(done) k b Hk). unfold block_pointer.
  by rewrite (proj2 (Z.ltb_lt _ _)) by lia.
Qed.

(** The loads of the inode's bytes that a frame keeps. *)
Lemma inode_load_kept (w : nat) m m1 fs f (P : Z -> Prop) k :
  holds m fs -> 1 <= f <= TOTAL_GROUPS * INODES_PER_GROUP ->
  (forall x, ~ control m x -> P x -> m1 x = m x) ->
  0 <= k -> k + Z.of_nat w <= sizeof_inode ->
  (forall x, inode_place m f + k <= x < inode_place m f + k + Z.of_nat w -> P x) ->
  load w m1 (inode_place m f + k) = load w m (inode_place m f + k).
Proof.
  intros Hh Hr X Hk Hw HP. apply load_ext. intros x Hx. apply X; [|by apply HP].
  apply (place_not_control m fs f); [done|done|]. unfold in_inode. lia.
Qed.

Lemma blocks_cut s fs f st bl (k : nat) path :
  holds (file s) fs -> tree_ok fs -> fs !! f = Some (File st bl []) -> zlen bl <= 12 -> (k <= length bl)%nat ->
  exists m1, Remove_Blocks_loop (length bl - k) (inode_place (file s) f) (Z.of_nat k) path s =
      Ok (tt, with_memc (uncache path (Z.of_nat k) (length bl - k) (memc s)) (with_file m1 s)) /\
    fitted (file s) m1 fs f (take k bl) [] /\ free_blocks m1 ≡ₚ drop k bl ++ free_blocks (file s).
Proof.
  intros Hh Hok Hf Hfew Hk. set (m := file s) in *. set (i := inode_place m f).
  pose proof (ho_number _ _ Hh f _ Hf) as Hr. pose proof (to_nodup fs Hok f _ Hf) as Hnd. cbn in Hnd. rewrite app_nil_r in Hnd.
  assert (zlen (drop k bl) = zlen bl - Z.of_nat k) as Hz by (unfold zlen; rewrite length_drop; lia).
  assert (left_blocks m i (Z.of_nat k) (drop k bl)) as Hleft.
  { rewrite <- (take_drop k bl) in Hnd. apply NoDup_app in Hnd as (_ & _ & Hnd'). split; [rewrite Hz; lia|done|..].
    - intros b Hb. apply (ho_taken _ _ Hh f _ b Hf). cbn. rewrite app_nil_r. by apply (subseteq_drop k).
    - intros j b Hj. rewrite lookup_drop in Hj. rewrite <- (file_pointer m fs f st bl (k + j) b) by done.
      by rewrite Nat2Z.inj_add. }
  destruct (Remove_Blocks_loop_ok path f (delete f fs) (drop k bl) s (Z.of_nat k)) as (m1 & G & Hh1 & Ei & Eb & Ep & D & T & X);
    [by apply holds_delete|done|apply lookup_delete_eq|done| |].
  { intros n nd c [Hne Hn]%lookup_delete_Some Hc. apply (to_apart fs Hok f n _ nd c Hf Hn Hne).
    cbn. rewrite app_nil_r. by apply (subseteq_drop k). }
  rewrite length_drop in G. fold m i in G, Ei, Eb, Ep, D, T, X. exists m1. split_and!; [done| |done].
  pose proof (zlen_nonneg (drop k bl)).
  assert (forall (w : nat) j, 0 <= j -> j + Z.of_nat w <= 40 + 4 * Z.of_nat k -> load w m1 (i + j) = load w m (i + j)) as Hload.
  { intros w j Hj Hw. apply (inode_load_kept w m m1 fs f (fun x => x < i + 40 + 4 * Z.of_nat k)); [done|done| |done| |].
    - intros x Hx Hlt. apply X; [done|lia].
    - unfold sizeof_inode. lia.
    - fold i. lia. }
  split; try done.
  - intros j b Hj. apply lookup_take_Some in Hj as [Hj Hlt]. rewrite <- (file_pointer m fs f st bl j b) by done.
    unfold Inode.pointer_data_0. fold i. rewrite <- Z.add_assoc. apply (Hload 4%nat); lia.
  - intros j Hj. assert (zlen (take k bl) = Z.of_nat k) as Et by (unfold zlen; rewrite length_take; lia).
    destruct (decide (j < zlen bl)); [apply (cl_zero _ _ _ _ _ X); lia|].
    destruct (ho_node _ _ Hh f _ Hf) as [_ Hat]. rewrite <- (fa_tail _ _ _ _ Hat j) by lia.
    unfold Inode.pointer_data_0. fold m i. rewrite <- Z.add_assoc.
    apply (inode_load_kept 4 m m1 fs f (fun x => i + 40 + 4 * zlen bl <= x)); [done|done| |lia| |].
    + intros x Hx Hlt. apply X; [done|lia].
    + unfold sizeof_inode. lia.
    + fold i. lia.
  - intros w j Hj Hw. apply Hload; lia.
  - intros b Hb. apply elem_of_take in Hb as (j & Hj & Hlt).
    destruct (ho_taken _ _ Hh f _ b Hf) as [H1 H2 H3]; [cbn; rewrite app_nil_r; by eapply list_elem_of_lookup_2|].
    split; [done| |].
    + intros x Hx Hs. apply (H2 x Hx). by apply (system_same m m1).
    + rewrite Eb. intros [Hin|Hin]%elem_of_app; [|done]. apply list_elem_of_lookup in Hin as [j' Hj'].
      rewrite lookup_drop in Hj'. pose proof (NoDup_lookup _ _ _ _ Hnd Hj Hj'). lia.
  - intros x Hx Hi _. apply (cleared_outside _ _ _ _ _ x X); [lia|lia|done|done].
Qed.
(** ** More blocks *)

Lemma leading_nonzero_count (w : nat) m a N :
  0 <= N <= Z.of_nat w -> (forall k, 0 <= k < N -> load32 m (a + 4 * k) <> 0) ->
  (N < Z.of_nat w -> load32 m (a + 4 * N) = 0) -> leading_nonzero w m a = N.
Proof.
  revert a N. induction w as [|w IH]; intros a N HN Hnz Hz; cbn [leading_nonzero]; [lia|].
  destruct (decide (N = 0)) as [->|].
  - rewrite Z.mul_0_r, Z.add_0_r in Hz. by rewrite Hz by lia.
  - pose proof (Hnz 0 ltac:(lia)) as H0. rewrite Z.mul_0_r, Z.add_0_r in H0. rewrite (proj2 (Z.eqb_neq _ 0)) by done.
    rewrite (IH (a + 4) (N - 1)); [lia|lia|..].
    + intros k Hk. replace (a + 4 + 4 * k) with (a + 4 * (k + 1)) by lia. apply Hnz. lia.
    + intros Hlt. replace (a + 4 + 4 * (N - 1)) with (a + 4 * N) by lia. apply Hz. lia.
Qed.

Lemma file_slots m fs f st bl :
  holds m fs -> fs !! f = Some (File st bl []) -> zlen bl <= 12 ->
  leading_nonzero 12 m (Inode.pointer_data_0 (inode_place m f) 0) = zlen bl.
Proof.
  intros Hh Hf Hfew. apply leading_nonzero_count; [pose proof (zlen_nonneg bl); lia|..].
  - intros k Hk. destruct (lookup_lt_is_Some_2 bl (Z.to_nat k)) as [b Hb]; [unfold zlen in Hk; lia|].
    pose proof (file_pointer m fs f st bl _ b Hh Hf Hfew Hb) as E. rewrite Z2Nat.id in E by lia.
    unfold Inode.pointer_data_0 in *. rewrite Z.add_0_r, E.
    destruct (ho_taken _ _ Hh f _ b Hf) as [Hn _ _]; [cbn; rewrite app_nil_r; by eapply list_elem_of_lookup_2|]. lia.
  - intros Hlt. destruct (ho_node _ _ Hh f _ Hf) as [_ Hat]. pose proof (fa_tail _ _ _ _ Hat (zlen bl) ltac:(lia)) as E.
    unfold Inode.pointer_data_0 in *. by rewrite Z.add_0_r.
Qed.

Lemma Attach_Blocks_direct s i N d l m1 :
  leading_nonzero 12 (file s) (Inode.pointer_data_0 i 0) = N -> 0 < d -> N + d <= 12 ->
  Get_Free_Blocks d s = Ok (Some l, with_file m1 s) ->
  Attach_Blocks i d s = Ok (0, with_file (write_words m1 (Inode.pointer_data_0 i N) l) s).
Proof.
  intros HN Hd Hfit Hrun. unfold Attach_Blocks. rewrite (bind_ok _ _ s (file s) s) by done. rewrite HN. cbv zeta.
  assert ((if 12 - N >? d then d else 12 - N) = d) as -> by (destruct (Z.gtb_spec (12 - N) d); lia).
  rewrite (proj2 (Z.gtb_lt (12 - N) 0)) by lia. rewrite (bind_ok _ _ _ _ _ Hrun), Z.sub_diag. cbn [when].
  by rewrite (bind_ok _ _ _ tt (with_file (write_words m1 (Inode.pointer_data_0 i N) l) s)).
Qed.

(** Without enough free blocks the answer is the number of pointers that are
    left in the inode. *)
Lemma Attach_Blocks_short s i N d :
  alloc_ok (file s) -> leading_nonzero 12 (file s) (Inode.pointer_data_0 i 0) = N -> N < 12 ->
  zlen (free_blocks (file s)) < Z.min d (12 - N) ->
  Attach_Blocks i d s = Ok (12 - N, with_errno ENOSPC s).
Proof.
  intros Hal HN Hfew Hshort. unfold Attach_Blocks. rewrite (bind_ok _ _ s (file s) s) by done. rewrite HN. cbv zeta.
  assert ((if 12 - N >? d then d else 12 - N) = Z.min d (12 - N)) as -> by (destruct (Z.gtb_spec (12 - N) d); lia).
  rewrite (proj2 (Z.gtb_lt (12 - N) 0)) by lia.
  by rewrite (bind_ok _ _ _ _ _ (Get_Free_Blocks_ENOSPC s _ Hal Hshort)).
Qed.

Lemma place_not_taken m fs f b x :
  holds m fs -> 1 <= f <= TOTAL_GROUPS * INODES_PER_GROUP -> data_place m b -> in_inode (inode_place m f) x -> ~ in_block b x.
Proof.
  intros Hh Hr Hb Hx Hbx. apply (proj2 Hb x Hbx). do 3 right.
  by apply (place_system m f x (io_ok m (ho_inodes _ _ Hh)) Hr).
Qed.

Lemma blocks_grown s fs f st bl d :
  holds (file s) fs -> tree_ok fs -> free_ok (file s) -> fs !! f = Some (File st bl []) -> 0 < d -> zlen bl + d <= 12 ->
  d <= zlen (free_blocks (file s)) -> (forall l, word_after_array l = 0) ->
  let l := take (Z.to_nat d) (free_blocks (file s)) in
  exists m1, Attach_Blocks (inode_place (file s) f) d s = Ok (0, with_file m1 s) /\
    fitted (file s) m1 fs f (bl ++ l) l /\ free_blocks (file s) = l ++ free_blocks m1 /\ free_ok m1.
Proof.
  intros Hh Hok Hfo Hf Hd Hfit Henough Hword l. set (m := file s) in *. set (i := inode_place m f).
  pose proof (ho_number _ _ Hh f _ Hf) as Hr. pose proof (io_ok m (ho_inodes _ _ Hh)) as Hgo. pose proof (zlen_nonneg bl).
  assert (zlen l = d) as Hl by (unfold l, zlen in *; rewrite length_take; lia).
  assert (0 <= d <= zlen (free_blocks m)) as Hd' by lia.
  destruct (Get_Free_Blocks_ok s d (io_alloc m Hgo) Hd' (Hword _)) as (m0 & Hrun & Htook). fold m l in Hrun, Htook.
  destruct (holds_blocks_taken m m0 fs l Hh Hfo Htook) as (Hh0 & Hfo0 & Ei0 & Hl0 & D0 & T0 & X0).
  assert (inode_place m0 f = i) as Ep0 by (apply place_same; [done|apply (place_range f); [apply Hgo|apply Hgo|done]]).
  set (m1 := write_words m0 (Inode.pointer_data_0 i (zlen bl)) l).
  assert (forall x, ~ (i + 40 + 4 * zlen bl <= x < i + 40 + 4 * (zlen bl + d)) -> m1 x = m0 x) as X1.
  { intros x Hx. unfold m1, write_words, Inode.pointer_data_0. rewrite Hl. by decide_ranges. }
  destruct (holds_spare_inode m0 m1 (delete f fs) f) as (Hh1 & Ei1 & Eb1 & Ep1 & D1 & T1);
    [by apply holds_delete|done|apply lookup_delete_eq| | |].
  { apply write_words_mem_ok, (al_mem m0 (io_alloc m0 (io_ok m0 (ho_inodes _ _ Hh0)))). }
  { intros x Hx. apply X1. rewrite Ep0 in Hx. unfold in_inode, sizeof_inode in Hx. lia. }
  assert (forall x, in_inode i x -> m0 x = m x) as Xi.
  { intros x Hx. apply X0. right. split; [by apply (place_not_control m fs f)|].
    intros b Hb. apply (place_not_taken m fs f); [done|done|by apply Hl0|done]. }
  exists m1. split_and!.
  - apply Attach_Blocks_direct; [apply (file_slots m fs f st); (done || lia)|done|lia|done].
  - split; fold i.
    + done.
    + by rewrite Ep1.
    + by rewrite Ei1.
    + by eapply same_descriptors_trans.
    + by eapply same_tables_trans.
    + intros k b Hk. apply lookup_app_Some in Hk as [Hk|[Hge Hk]].
      * pose proof (lookup_lt_Some _ _ _ Hk). rewrite <- (file_pointer m fs f st bl k b) by (done || lia). apply (load_ext 4).
        intros x Hx. unfold Inode.pointer_data_0, zlen in *. fold i in Hx.
        rewrite X1 by lia. apply Xi. unfold in_inode, sizeof_inode. lia.
      * replace (Inode.pointer_data_0 i (Z.of_nat k))
          with (Inode.pointer_data_0 i (zlen bl) + 4 * (Z.of_nat k - zlen bl)) by (unfold Inode.pointer_data_0; lia).
        unfold zlen in *. unfold m1. rewrite (load32_write_words _ _ _ _ b); [|lia|].
        -- destruct (Hl0 b) as [[Hn _ _] _]; [by eapply list_elem_of_lookup_2|]. pose proof block_size_pos. apply u32_small. nia.
        -- by replace (Z.to_nat (Z.of_nat k - Z.of_nat (length bl))) with (k - length bl)%nat by lia.
    + intros k Hk. rewrite zlen_app, Hl in Hk. destruct (ho_node _ _ Hh f _ Hf) as [_ Hat].
      rewrite <- (fa_tail _ _ _ _ Hat k) by lia. apply (load_ext 4). intros x Hx.
      unfold Inode.pointer_data_0 in *. fold m i in Hx. rewrite X1 by lia. apply Xi. unfold in_inode, sizeof_inode. lia.
    + intros w k Hk Hw. apply load_ext. intros x Hx. rewrite X1 by lia. apply Xi. unfold in_inode, sizeof_inode. lia.
    + intros b Hb. apply (taken_same m0 m1); [done|done|done|]. apply elem_of_app in Hb as [Hb|Hb]; [|by apply Hl0].
      apply (ho_taken _ _ Hh0 f _ b Hf). cbn. by rewrite app_nil_r.
    + intros x Hx Hi Hb. rewrite X1 by (unfold in_inode, sizeof_inode in Hi; lia). apply X0. by right.
  - rewrite Eb1. apply (tk_free _ _ _ Htook).
  - apply (free_ok_same m0 m1); [done|done|]. intros b. rewrite Eb1. apply Hfo0.
Qed.
(** ** The change of the blocks *)

(** The blocks of a file that had [bl] and is to have [k]. *)
Definition fit bl (free : list Z) (k : Z) : list Z :=
  take (Z.to_nat k) bl ++ take (Z.to_nat (k - zlen bl)) free.

(** The file [f] at the path [ns] can have [n] bytes. *)
Record can_truncate s refs fs ns f st bl n : Prop := {
  ct_ready : ready s refs ns;
  ct_holds : holds (file s) fs;
  ct_tree : tree_ok fs;
  ct_data : free_ok (file s);
  ct_walk : tree_walk fs ROOT_INODE_NUMBER ns = Some (Some f);
  ct_file : fs !! f = Some (File st bl []);
  ct_few : zlen bl <= 12;
  ct_size : 0 <= n < 2 ^ 31
}.

(** ... within the direct pointers and the free blocks. *)
Definition has_room m bl n : Prop :=
  Size_In_Blocks n <= 12 /\ Size_In_Blocks n - zlen bl <= zlen (free_blocks m).

Definition change_blocks (i diff : Z) (path : list Z) : M R Z :=
  if diff >? 0 then Attach_Blocks i (u32 diff)
  else if diff <? 0 then Remove_Blocks i diff path;; mret 0
  else mret 0.

Lemma Remove_Blocks_tail s i bl (k : Z) path :
  zlen bl = Size_In_Blocks (Inode.size (file s) i) -> zlen bl <= 12 -> 0 <= k < zlen bl ->
  Remove_Blocks i (k - zlen bl) path s = Remove_Blocks_loop (length bl - Z.to_nat k) i k path s.
Proof.
  intros E Hl Hk. unfold Remove_Blocks. rewrite (bind_ok _ _ s (file s) s) by done. cbv zeta.
  rewrite <- E, (u32_small (zlen bl)), Z.gtb_ltb, (proj2 (Z.ltb_ge _ _)) by lia.
  replace (zlen bl + (k - zlen bl)) with k by lia. rewrite (u32_small k) by lia.
  replace (Z.to_nat (zlen bl - k)) with (length bl - Z.to_nat k)%nat by (unfold zlen in *; lia). done.
Qed.

Lemma blocks_changed s fs f st bl (k : Z) path :
  holds (file s) fs -> tree_ok fs -> free_ok (file s) -> fs !! f = Some (File st bl []) -> zlen bl <= 12 -> 0 <= k <= 12 ->
  k - zlen bl <= zlen (free_blocks (file s)) -> (forall l, word_after_array l = 0) ->
  let i := inode_place (file s) f in let free := free_blocks (file s) in
  exists m1, change_blocks i (k - Size_In_Blocks (Inode.size (file s) i)) path s =
      Ok (0, with_memc (uncache path k (length bl - Z.to_nat k) (memc s)) (with_file m1 s)) /\
    fitted (file s) m1 fs f (fit bl free k) (take (Z.to_nat (k - zlen bl)) free) /\
    free_blocks m1 ≡ₚ drop (Z.to_nat k) bl ++ drop (Z.to_nat (k - zlen bl)) free /\ free_ok m1.
Proof.
  intros Hh Hok Hfo Hf Hfew Hk Henough Hword i free. destruct (ho_node _ _ Hh f _ Hf) as [_ Hat].
  pose proof (fa_blocks _ _ _ _ Hat) as Hsz. fold i in Hsz. rewrite <- Hsz. unfold change_blocks, fit.
  pose proof (zlen_nonneg bl).
  destruct (decide (zlen bl < k)) as [Hgt|Hle].
  - destruct (blocks_grown s fs f st bl (k - zlen bl) Hh Hok Hfo Hf ltac:(lia) ltac:(lia) Henough Hword)
      as (m1 & G & Hfit & Hb & Hfo1). fold i free in G, Hfit, Hb. exists m1.
    rewrite (proj2 (Z.gtb_lt _ 0)), u32_small by lia.
    replace (length bl - Z.to_nat k)%nat with 0%nat by (unfold zlen in Hgt; lia).
    rewrite take_ge, drop_ge by (unfold zlen in Hgt; lia). split_and!; [by rewrite G|done| |done].
    cbn [app]. rewrite <- (take_drop (Z.to_nat (k - zlen bl)) free) in Hb at 1. apply app_inv_head in Hb. by rewrite Hb.
  - destruct (blocks_cut s fs f st bl (Z.to_nat k) path Hh Hok Hf Hfew ltac:(unfold zlen in Hle; lia)) as (m1 & G & Hfit & Hb).
    rewrite Z2Nat.id in G by lia. fold i in G. exists m1.
    replace (Z.to_nat (k - zlen bl)) with 0%nat by lia. cbn [take drop]. rewrite app_nil_r.
    split_and!; [|done|done|].
    + rewrite Z.gtb_ltb, (proj2 (Z.ltb_ge 0 _)) by lia. destruct (Z.ltb_spec (k - zlen bl) 0) as [Hlt|Heq].
      * by rewrite (bind_ok _ _ _ _ _ (eq_trans (Remove_Blocks_tail s i bl k path Hsz Hfew ltac:(lia)) G)).
      * assert (length bl - Z.to_nat k = 0)%nat as E by (unfold zlen in *; lia). rewrite E in *.
        cbn [Remove_Blocks_loop uncache] in *. injection G as <-. done.
    + apply (free_ok_released (file s) m1 (drop (Z.to_nat k) bl)); [apply Hfit|apply Hfit|done| |done].
      intros b Hb'. apply taken_place, (ho_taken _ _ Hh f _ b Hf). cbn. rewrite app_nil_r. by apply (subseteq_drop (Z.to_nat k)).
Qed.

(** ** The tree *)

Definition truncated fs f st bl n : gmap Z node := <[f := File (with_size n st) bl []]> fs.

Lemma tree_truncated fs f st bl bl' n :
  tree_ok fs -> fs !! f = Some (File st bl []) -> NoDup bl' ->
  (forall b k nd, b ∈ bl' -> k <> f -> fs !! k = Some nd -> b ∉ node_blocks nd) -> tree_ok (truncated fs f st bl' n).
Proof.
  intros [(st0 & bs0 & ind0 & Hroot) Hclosed Hnodup Hapart] Hf Hnd Hap. unfold truncated. split.
  - exists st0, bs0, ind0. rewrite lookup_insert_ne; [done|]. intros E. by rewrite <- E, Hf in Hroot.
  - intros k st' bs ind e Hk He Hz. apply lookup_insert_is_Some'. right.
    apply lookup_insert_Some in Hk as [[_ Hk]|[_ Hk]]; [done|by apply (Hclosed k st' bs ind e)].
  - intros k nd [[<- <-]|[_ Hk]]%lookup_insert_Some; [cbn; by rewrite app_nil_r|by apply (Hnodup k)].
  - intros k k' nd nd' b [[<- <-]|[Hk Hn]]%lookup_insert_Some [[<- <-]|[Hk' Hn']]%lookup_insert_Some Hne Hb; [done|..].
    + cbn in Hb. rewrite app_nil_r in Hb. by apply (Hap b k').
    + cbn. rewrite app_nil_r. intros Hb'. by apply (Hap b k nd Hb').
    + by apply (Hapart k k' nd).
Qed.

Lemma walk_truncated fs f st bl bl' n ns k :
  fs !! f = Some (File st bl []) -> tree_walk (truncated fs f st bl' n) k ns = tree_walk fs k ns.
Proof.
  intros Hf. revert k. induction ns as [|nm ns IH]; intros k; [done|]. cbn [tree_walk]. unfold truncated.
  destruct (decide (k = f)) as [->|]; [by rewrite lookup_insert_eq, Hf|]. rewrite lookup_insert_ne by done.
  destruct (fs !! k) as [[st0 bs ind| |]|]; [|done..]. destruct (dir_find nm (entries_of bs)); [apply IH|done].
Qed.

Lemma zlen_fit bl free k : 0 <= k -> k - zlen bl <= zlen free -> zlen (fit bl free k) = k.
Proof. intros Hk Hf. unfold fit, zlen in *. rewrite length_app, !length_take. lia. Qed.

Lemma fit_elem bl free k b : b ∈ fit bl free k -> b ∈ bl \/ b ∈ free.
Proof. unfold fit. intros [Hb|Hb]%elem_of_app; [left|right]; by eapply subseteq_take. Qed.

(** The image at the new size. *)
Lemma size_written m m1 fs f st bl bl' l n k :
  holds m fs -> fs !! f = Some (File st bl []) -> fitted m m1 fs f bl' l -> 0 <= n < 2 ^ 31 ->
  zlen bl' = Size_In_Blocks n -> zlen bl' <= 12 ->
  let m2 := resized m1 (inode_place m f) n k in
  holds m2 (truncated fs f st bl' n) /\ free_inodes m2 = free_inodes m /\ free_blocks m2 = free_blocks m1 /\
  (free_ok m1 -> free_ok m2) /\
  (forall x, ~ control m x -> ~ in_inode (inode_place m f) x -> (forall b, b ∈ l -> ~ in_block b x) -> m2 x = m x).
Proof.
  intros Hh Hf Hfit Hn Hbl Hfew m2. pose proof Hfit as [Hh1 Ep1 Ei1 D1 T1 Hptr Htail Hfields Htk X1].
  pose proof (ho_number _ _ Hh f _ Hf) as Hr. destruct (ho_node _ _ Hh f _ Hf) as [[Hm1 Hm2 Hm3] Hat].
  destruct (holds_spare_inode m1 m2 (delete f fs) f Hh1 Hr (lookup_delete_eq _ _)) as (Hh2 & Ei2 & Eb2 & Ep2 & D2 & T2).
  { do 2 apply store_mem_ok. apply (al_mem m1 (io_alloc m1 (io_ok m1 (ho_inodes _ _ Hh1)))). }
  { intros x Hx. rewrite Ep1 in Hx. by apply resized_outside. }
  assert (node_at m2 (inode_place m f) (File (with_size n st) bl' [])) as Hnode.
  { apply resized_node; try done; cbn [node_stat] in *.
    - rewrite <- Hm1. apply Hat.
    - pose proof (Hfields 2%nat 0 ltac:(lia) ltac:(lia)) as E. rewrite Z.add_0_r in E. by rewrite <- Hm1.
    - rewrite <- Hm2. apply (Hfields 2%nat); lia. }
  split_and!.
  - unfold truncated. rewrite <- insert_delete_eq. apply holds_insert; [done|done| | |].
    + rewrite Ei2, Ei1. by apply (ho_used _ _ Hh f _ Hf).
    + by rewrite Ep2, Ep1.
    + intros b Hb. cbn in Hb. rewrite app_nil_r in Hb. apply (taken_same m1 m2); auto.
  - congruence.
  - done.
  - intros Hfo. apply (free_ok_same m1 m2); [done|done|]. intros b. rewrite Eb2. apply Hfo.
  - intros x Hx Hi Hb. unfold m2. rewrite resized_outside by done. by apply X1.
Qed.
(** ** truncate_file *)

Lemma truncate_resolves s refs fs ns f st bl n :
  can_truncate s refs fs ns f st bl n -> path_resolves (file s) ns (Some (inode_place (file s) f, f)).
Proof. intros [Hs Hh Hok _ Hw _ _ _]. by apply (tree_path_resolves _ fs _ (Some f)). Qed.

Lemma truncate_run s refs fs ns f st bl n params :
  can_truncate s refs fs ns f st bl n -> has_room (file s) bl n -> (forall l, word_after_array l = 0) ->
  p_path params = abs_path ns -> u32 (p_size params) = n ->
  let k := Size_In_Blocks n in let free := free_blocks (file s) in
  exists m' s', truncate_file params s = Ok (result (abs_path ns) (Status 0), s') /\
    restored (errno s)
      (with_memc (uncache (abs_path ns) k (length bl - Z.to_nat k) (memc s)) (with_file m' s)) s' refs /\
    holds m' (truncated fs f st (fit bl free k) n) /\ free_ok m' /\ free_inodes m' = free_inodes (file s) /\
    free_blocks m' ≡ₚ drop (Z.to_nat k) bl ++ drop (Z.to_nat (k - zlen bl)) free /\
    (forall x, ~ control (file s) x -> ~ in_inode (inode_place (file s) f) x ->
       (forall b, b ∈ take (Z.to_nat (k - zlen bl)) free -> ~ in_block b x) -> m' x = file s x).
Proof.
  intros Hct [Hk Henough] Hword Hp Hn k free. pose proof (truncate_resolves _ _ _ _ _ _ _ _ Hct) as Hres.
  destruct Hct as [Hready Hh Hok Hfo Hw Hf Hfew Hsize]. set (i := inode_place (file s) f) in *.
  destruct (Size_In_Blocks_bounds n ltac:(lia)) as [_ [Hk0 _]].
  destruct (write_bracket s refs ns _ Hready Hres) as (id & s1 & s2 & s3 & G1 & G2 & Ha2 & G3 & Ha3 & Hunlock).
  cbn [walk_errno] in *. destruct (after_file _ _ _ Ha2) as [Hf2 _]. destruct (after_file _ _ _ Ha3) as [Hf3 _].
  assert (memc s3 = memc s) as Hc3 by by rewrite Ha3.
  destruct (blocks_changed s3 fs f st bl k (abs_path ns)) as (m1 & G4 & Hfit & Hb & Hfo1);
    rewrite ?Hf3; try done. rewrite Hf3 in G4, Hfit, Hb. rewrite Hc3 in G4. fold i free in G4, Hfit, Hb.
  destruct (size_written _ _ _ _ _ _ _ _ n (Size_In_Blocks n / 512) Hh Hf Hfit Hsize) as (Hh2 & Ei2 & Eb2 & Hfo2 & X2);
    [by rewrite zlen_fit|by rewrite zlen_fit|]. fold i in Hh2, Ei2, Eb2, Hfo2, X2.
  set (c := uncache (abs_path ns) k (length bl - Z.to_nat k) (memc s)) in *. fold k in Hh2, Ei2, Eb2, Hfo2, X2. set (m2 := resized m1 i n (k / 512)) in *.
  destruct (Hunlock (with_memc c (with_file m2 s3))) as (t1 & G5 & _ & _ & s' & G6 & Hok' & Hm & Hst); [done|].
  destruct (ho_node _ _ Hh f _ Hf) as [_ Hat]. fold i in Hat.
  exists m2, s'. split; [|split; [split_and!|]].
  - unfold truncate_file. rewrite Hp, (bind_ok _ _ _ _ _ G1), (bind_ok _ _ _ _ _ G2). cbn [walk_result fst].
    rewrite (bind_ok _ _ s2 (file s2) s2) by done. rewrite Hf2, (fa_mode _ _ _ _ Hat), Hn.
    rewrite (bind_ok _ _ _ _ _ G3), (bind_ok _ _ s3 (file s3) s3) by done. cbv zeta. rewrite Hf3. fold i.
    unfold change_blocks in G4. rewrite (bind_ok _ _ _ _ _ G4). change (0 >? 0) with false. cbn [when].
    rewrite (bind_ok _ _ _ tt (with_memc c (with_file m1 s3))) by done.
    rewrite (bind_ok _ _ _ tt (with_memc c (with_file (Inode.set_size m1 i n) s3))) by done.
    rewrite (bind_ok _ _ _ tt (with_memc c (with_file m2 s3))) by done.
    by rewrite (bind_ok _ _ _ _ _ G5), (bind_ok _ _ _ _ _ G6).
  - done.
  - eapply after_moved_trans; [|exact Hm]. by apply (after_with_memc _ c), (after_with_file _ m2).
  - done.
  - split_and!; try done; [by apply Hfo2|by rewrite Eb2].
Qed.

Lemma truncated_tree s refs fs ns f st bl n :
  can_truncate s refs fs ns f st bl n ->
  tree_ok (truncated fs f st (fit bl (free_blocks (file s)) (Size_In_Blocks n)) n).
Proof.
  intros [_ Hh Hok _ _ Hf _ _]. pose proof (to_nodup fs Hok f _ Hf) as Hnd. cbn in Hnd. rewrite app_nil_r in Hnd.
  set (k := Size_In_Blocks n). set (free := free_blocks (file s)).
  pose proof (free_blocks_nodup _ (al_layout _ (io_alloc _ (io_ok _ (ho_inodes _ _ Hh))))) as Hndf. fold free in Hndf.
  assert (forall b j nd, b ∈ free -> fs !! j = Some nd -> b ∉ node_blocks nd) as Hfree.
  { intros b j nd Hb Hj Hbj. by apply (tb_used _ b (ho_taken _ _ Hh j nd b Hj Hbj)). }
  apply (tree_truncated fs f st bl); [done|done|..].
  - apply NoDup_app. split_and!.
    + rewrite <- (take_drop (Z.to_nat k) bl) in Hnd. by apply NoDup_app in Hnd as [? _].
    + intros b Hb Hb'. apply (Hfree b f _ (subseteq_take _ _ _ Hb') Hf). cbn. rewrite app_nil_r. by eapply subseteq_take.
    + rewrite <- (take_drop (Z.to_nat (k - zlen bl)) free) in Hndf. by apply NoDup_app in Hndf as [? _].
  - intros b j nd Hb Hj Hn. destruct (fit_elem _ _ _ _ Hb) as [Hb'|Hb']; [|by eapply Hfree].
    apply (to_apart fs Hok f j _ nd b Hf Hn); [done|]. cbn. by rewrite app_nil_r.
Qed.

Lemma truncate_missing s refs ns params :
  ready s refs ns -> path_resolves (file s) ns None -> p_path params = abs_path ns ->
  exists s', truncate_file params s = Ok (result (abs_path ns) (Status 1), s') /\ restored ENOENT s s' refs.
Proof.
  intros Hready Hres Hp. destruct (missing_bracket s refs ns Hready Hres) as (id & s1 & s2 & s3 & G1 & G2 & G3 & Hrest).
  exists s3. split; [|done]. unfold truncate_file.
  rewrite Hp, (bind_ok _ _ _ _ _ G1), (bind_ok _ _ _ _ _ G2). cbn [walk_result fst].
  by rewrite (bind_ok _ _ _ _ _ G3).
Qed.

(** Nobody holds the lock of a file of a quiet table. *)
Lemma UNLOCK_unheld s refs id : table_ok s refs -> id ∈ refs -> UNLOCK id s = Fail BadUnlock.
Proof.
  intros [Hp Hi Hf Hu Hl Hc Hr] Hid. rewrite Forall_forall in Hr. rewrite Forall_forall in Hu.
  pose proof (Hr id Hid) as (a & -> & Ha)%list_elem_of_fmap.
  eapply with_lock_fails; [done|exact Ha|done|]. by rewrite (Hu a Ha).
Qed.


(** C12: Truncating a file refines the change of its size in the tree: on an image that holds a tree, for a
    file in direct blocks, with a new size that the direct pointers and the free blocks have room for,
    [truncate_file] answers 0 with the table, the locks and errno as they should be.  The image then holds
    the tree with the file at its new size, which has its first blocks, and the first free ones where it
    has grown; the blocks behind the new end are free again and gone from the cache; every path leads where
    it led, and all bytes but the counters and bitmaps, the inode and the new blocks stay. *)
Theorem truncate_file_resizes `{!MemcachedLaws C} s refs fs ns f st bl n params :
  can_truncate s refs fs ns f st bl n -> has_room (file s) bl n -> (forall l, word_after_array l = 0) ->
  p_path params = abs_path ns -> u32 (p_size params) = n ->
  let k := Size_In_Blocks n in let free := free_blocks (file s) in
  exists m' c' s', truncate_file params s = Ok (result (abs_path ns) (Status 0), s') /\
    restored (errno s) (with_memc c' (with_file m' s)) s' refs /\
    (let fs' := truncated fs f st (fit bl free k) n in holds m' fs' /\ tree_ok fs') /\
    (forall ns' r, tree_walk fs ROOT_INODE_NUMBER ns' = Some r ->
       path_resolves m' ns' (place_of m' r)) /\
    free_inodes m' = free_inodes (file s) /\
    free_blocks m' ≡ₚ drop (Z.to_nat k) bl ++ drop (Z.to_nat (k - zlen bl)) free /\
    (forall j, k <= j < zlen bl -> cached c' (generate_key (abs_path ns) j) = None) /\
    (forall x, ~ control (file s) x -> ~ in_inode (inode_place (file s) f) x ->
       (forall b, b ∈ take (Z.to_nat (k - zlen bl)) free -> ~ in_block b x) -> m' x = file s x).
Proof.
  intros Hct Hroom Hword Hp Hn k free. pose proof (truncated_tree _ _ _ _ _ _ _ _ Hct) as Hok'.
  destruct (truncate_run s refs fs ns f st bl n params Hct Hroom Hword Hp Hn)
    as (m' & s' & Hrun & Hrest & Hh & _ & Hi & Hb & X). fold k free in Hrest, Hh, Hb, X, Hok'.
  eexists m', _, s'. split_and!; try done.
  - intros ns' r Hw. apply (tree_path_resolves m' _ _ r Hh Hok').
    by rewrite (walk_truncated fs f st bl) by apply Hct.
  - intros j Hj. apply uncache_gone. destruct (Size_In_Blocks_bounds n ltac:(pose proof (ct_size _ _ _ _ _ _ _ _ Hct); lia)).
    unfold zlen in *. lia.
Qed.
End Truncates.

(** ** Witnesses: the file "a" at 1500 bytes takes the one free block, and
    there is none left for 3000 bytes *)

#[local] Instance truncate_superblock : Superblock_constants := demo_sb.
#[local] Instance truncate_word_after : Word_after_array := fun _ => 0.

Definition demo_truncate (n : Z) : params_t :=
  {| p_path := str "/a"; p_mode := 0; p_write_buffer := []; p_file := true; p_offset := 0;
     p_bytes_to_read := 0; p_bytes_to_write := 0; p_size := n |}.

Definition demo_stat : istat := {| i_mode := 33188; i_links := 1; i_size := 5 |}.

Lemma demo_can_truncate n :
  0 <= n < 2 ^ 31 -> can_truncate mkdir_server [] demo_tree [str "a"] 3 demo_stat [7] n.
Proof.
  intros Hn. split.
  - destruct demo_ready_a as ([Hp Hi Hf Hu Hl Hc Hr] & Hlen & Hns). split_and!; [by split|exact Hlen|exact Hns].
  - exact mkdir_image_holds.
  - exact demo_tree_ok.
  - exact mkdir_image_data.
  - vm_compute. reflexivity.
  - vm_compute. reflexivity.
  - vm_compute. discriminate.
  - exact Hn.
Defined.

Lemma truncate_file_resizes_witness :
  exists m' s', truncate_file (demo_truncate 1500) mkdir_server = Ok (result (str "/a") (Status 0), s') /\
    holds m' (truncated demo_tree 3 demo_stat [7; 10] 1500) /\ free_blocks m' = [] /\ free_inodes m' = [4; 5; 6; 7; 8].
Proof.
  destruct (@truncate_file_resizes demo_sb demo_sb_ok truncate_word_after sample_cache _ _ mkdir_server [] demo_tree
    [str "a"] 3 demo_stat [7] 1500 (demo_truncate 1500)) as (m' & c' & s' & Hrun & _ & [Hh _] & _ & Hi & Hb & _).
  - apply demo_can_truncate. lia.
  - split; vm_compute; discriminate.
  - reflexivity.
  - reflexivity.
  - reflexivity.
  - exists m', s'. split; [exact Hrun|]. split; [|split].
    + replace [7; 10] with (fit [7] (free_blocks mkdir_image) (Size_In_Blocks 1500)) by (vm_compute; reflexivity). exact Hh.
    + replace (drop _ [7] ++ _) with (@nil Z) in Hb by (vm_compute; reflexivity). by apply Permutation_nil_r in Hb.
    + transitivity (@free_inodes demo_sb mkdir_image); [exact Hi|vm_compute; reflexivity].
Defined.

