(* ===== verification/Contents.v ===== *)
(** * Contents: the bytes of a file, end to end on the tree

    [write_file] of [file_operations.c] for a file in direct blocks, against
    the tree of [Tree]: inside the file, and from a place in it on behind its
    end, where the file gets its first free blocks; and the bytes that
    [read_file] answers, as bytes of the blocks of the tree. *)

From S2P Require Import Prelude Memory Bitarray Ext2 Ext2Facts CString Paths Rfs ActiveFiles Alloc AllocFacts InodeAlloc BlockMap Dirs DirFacts Walk FileOps Serial Requests SerialFacts Lookups Tree TreeSteps Enters Creates Mkdirs Removes Deletes Reads Writes Truncates.

Section Contents.
Context {Super_constants : Superblock_constants} {SO : Superblock_ok} {WA : Word_after_array}.
Context {C : Type} `{Memcached C}.
Abbreviation R := (rfs C).
Implicit Types (s t : R) (m : mem) (refs : list nat) (fs : gmap Z node) (i f b n o : Z) (bl : list Z).

(** ** Bytes of the tree *)

Definition block_at bl o : option Z := bl !! Z.to_nat (o / BLOCK_SIZE).

(** The byte at [o] of a file with the blocks [bl]. *)
Definition tree_byte m bl o : option Z := (fun b => m (block_addr b + o mod BLOCK_SIZE)) <$> block_at bl o.

(** ** The blocks of a file that is being written *)

Lemma fitted_refl m fs f st bl :
  holds m fs -> fs !! f = Some (File st bl []) -> zlen bl <= 12 -> fitted m m fs f bl [].
Proof.
  intros Hh Hf Hfew. destruct (ho_node _ _ Hh f _ Hf) as [_ Hat]. split; try done.
  - by apply holds_delete.
  - intros k b Hk. by apply (file_pointer m fs f st bl).
  - apply (fa_tail _ _ _ _ Hat).
  - intros b Hb. apply (ho_taken _ _ Hh f _ b Hf). cbn. by rewrite app_nil_r.
Qed.

Section Fitted.
Variables (m m1 : mem) (fs : gmap Z node) (f : Z) (bl l : list Z).
Hypotheses (Hfit : fitted m m1 fs f bl l) (Hr : 1 <= f <= TOTAL_GROUPS * INODES_PER_GROUP) (Hnd : NoDup bl) (Hfew : zlen bl <= 12).
Let i := inode_place m f.

Lemma fitted_pointer k b : bl !! k = Some b -> block_pointer m1 i (Z.of_nat k) = b.
Proof using Hfit Hfew.
  intros Hk. pose proof (lookup_lt_Some _ _ _ Hk). unfold zlen in Hfew. unfold block_pointer.
  rewrite (proj2 (Z.ltb_lt _ _)) by lia. by apply (ft_pointers _ _ _ _ _ _ Hfit).
Qed.

Lemma fitted_in_data x : in_data m1 i (zlen bl) x <-> exists b, b ∈ bl /\ in_block b x.
Proof using Hfit Hfew.
  split.
  - intros (k & Hk & Hx%in_range_true). destruct (lookup_lt_is_Some_2 bl (Z.to_nat k)) as [b Hb]; [unfold zlen in Hk; lia|].
    pose proof (fitted_pointer _ _ Hb) as E. rewrite Z2Nat.id in E by lia. rewrite E in Hx.
    exists b. split; [by eapply list_elem_of_lookup_2|exact Hx].
  - intros (b & [k Hk]%list_elem_of_lookup & Hx). exists (Z.of_nat k). pose proof (lookup_lt_Some _ _ _ Hk).
    split; [unfold zlen; lia|]. rewrite (fitted_pointer k b Hk). by apply in_range_true.
Qed.

(** The inode lies in no block of data. *)
Lemma fitted_inode x : in_inode i x -> ~ in_data m1 i (zlen bl) x.
Proof using Hfit Hr Hfew.
  intros Hi (b & Hb & Hx)%fitted_in_data. apply (tb_data m1 b (ft_taken _ _ _ _ _ _ Hfit b Hb) x Hx).
  do 3 right. unfold i in Hi. rewrite <- (ft_place _ _ _ _ _ _ Hfit) in Hi.
  apply (place_system m1 f); [|done|done]. apply (ho_inodes _ _ (ft_holds _ _ _ _ _ _ Hfit)).
Qed.

Lemma fitted_apart : Writes.apart m1 i (zlen bl).
Proof using All.
  split.
  - intros k Hk. destruct (lookup_lt_is_Some_2 bl (Z.to_nat k)) as [b Hb]; [unfold zlen in Hk; lia|].
    pose proof (fitted_pointer _ _ Hb) as E. rewrite Z2Nat.id in E by lia. rewrite E.
    pose proof (tb_number _ _ (ft_taken _ _ _ _ _ _ Hfit b ltac:(by eapply list_elem_of_lookup_2))). lia.
  - intros k k' Hk Hk' Hne. destruct (lookup_lt_is_Some_2 bl (Z.to_nat k)) as [b Hb]; [unfold zlen in Hk; lia|].
    destruct (lookup_lt_is_Some_2 bl (Z.to_nat k')) as [b' Hb']; [unfold zlen in Hk'; lia|].
    pose proof (fitted_pointer _ _ Hb) as E. pose proof (fitted_pointer _ _ Hb') as E'. rewrite Z2Nat.id in E, E' by lia.
    rewrite E, E'. assert (b <> b') as Hbb.
    { intros ->. apply Hne. pose proof (NoDup_lookup _ _ _ _ Hnd Hb Hb'). lia. }
    pose proof (tb_number _ _ (ft_taken _ _ _ _ _ _ Hfit b ltac:(by eapply list_elem_of_lookup_2))) as [H1 H2].
    pose proof (tb_number _ _ (ft_taken _ _ _ _ _ _ Hfit b' ltac:(by eapply list_elem_of_lookup_2))) as [H3 H4].
    pose proof block_size_pos. unfold block_addr. rewrite !u32_small by nia. nia.
  - intros m' Hm'. assert (forall x, in_inode i x -> m' x = m1 x) as Hi by (intros x Hx; by apply Hm', fitted_inode).
    split; [by apply inode_fields|]. intros k Hk. unfold block_pointer. rewrite (proj2 (Z.ltb_lt _ _)) by lia.
    apply (load_ext 4). intros x Hx. apply Hi. unfold in_inode, sizeof_inode, Inode.pointer_data_0 in *. lia.
Qed.

(** The image with other bytes in the blocks. *)
Lemma fitted_written m2 :
  mem_ok m2 -> (forall b k nd, b ∈ bl -> k <> f -> fs !! k = Some nd -> b ∉ node_blocks nd) ->
  (forall b, b ∈ l -> b ∈ bl) -> (forall x, ~ in_data m1 i (zlen bl) x -> m2 x = m1 x) ->
  fitted m m2 fs f bl bl /\ free_blocks m2 = free_blocks m1 /\ (free_ok m1 -> free_ok m2).
Proof using All.
  intros Hm2 Hap Hl X. pose proof Hfit as [Hh1 Ep1 Ei1 D1 T1 Hptr Htail Hfields Htk X1].
  assert (forall x, (forall b, b ∈ bl -> ~ in_block b x) -> m2 x = m1 x) as X'.
  { intros x Hx. apply X. intros (b & Hb & Hbx)%fitted_in_data. by apply (Hx b). }
  destruct (control_frame m1 m2 (ho_inodes _ _ Hh1) Hm2) as (Hio & EI & EB & D & T).
  { intros x Hx. apply X'. intros b Hb Hbx. apply (tb_data m1 b (Htk b Hb) x Hbx). by apply control_system. }
  assert (forall x, in_inode i x -> m2 x = m1 x) as Hi by (intros x Hx; by apply X, fitted_inode).
  assert (forall (w : nat) k, 0 <= k -> k + Z.of_nat w <= sizeof_inode -> load w m2 (i + k) = load w m1 (i + k)) as Hload.
  { intros w k Hk Hw. apply load_ext. intros x Hx. apply Hi. unfold in_inode. lia. }
  split; [split|split]; try done.
  - apply (holds_outside m1 m2 (delete f fs) bl); try done.
    + intros b Hb. by apply taken_place, Htk.
    + intros b n nd Hb [Hne Hn]%lookup_delete_Some. by apply (Hap b n).
    + intros c. by rewrite EB.
    + intros x _ Hx. by apply X'.
  - rewrite <- Ep1. apply place_same; [done|].
    pose proof (io_ok m1 (ho_inodes _ _ Hh1)) as Hgo. apply (place_range f); [apply Hgo|apply Hgo|done].
  - congruence.
  - by eapply same_descriptors_trans.
  - by eapply same_tables_trans.
  - intros k b Hk. rewrite <- (Hptr k b Hk). pose proof (lookup_lt_Some _ _ _ Hk). unfold zlen in Hfew.
    unfold Inode.pointer_data_0. fold i. rewrite <- Z.add_assoc. apply (Hload 4%nat); unfold sizeof_inode; lia.
  - intros k Hk. rewrite <- (Htail k Hk). pose proof (zlen_nonneg bl).
    unfold Inode.pointer_data_0. fold i. rewrite <- Z.add_assoc. apply (Hload 4%nat); unfold sizeof_inode; lia.
  - intros w k Hk Hw. rewrite <- (Hfields w k Hk Hw). apply Hload; [done|unfold sizeof_inode; lia].
  - intros b Hb. apply (taken_same m1 m2); auto.
  - intros x Hc Hx Hb. rewrite X' by done. apply X1; auto.
  - intros Hfo. apply (free_ok_same m1 m2); [done|done|]. intros b. rewrite EB. apply Hfo.
Qed.
End Fitted.

(** The fields before the pointers are those of the file. *)
Lemma fitted_stat m m1 fs f st bl bl' l :
  holds m fs -> fs !! f = Some (File st bl []) -> fitted m m1 fs f bl' l -> stat_at m1 (inode_place m f) st.
Proof.
  intros Hh Hf Hfit. destruct (ho_node _ _ Hh f _ Hf) as [[E1 E2 E3] _]. change (node_stat (File st bl [])) with st in E1, E2, E3.
  pose proof (ft_fields _ _ _ _ _ _ Hfit) as Hfields. split.
  - pose proof (Hfields 2%nat 0 ltac:(lia) ltac:(lia)) as E. rewrite Z.add_0_r in E. by rewrite <- E1.
  - rewrite <- E2. apply (Hfields 2%nat); lia.
  - rewrite <- E3. unfold Inode.size. f_equal. apply (Hfields 4%nat); lia.
Qed.

(** The file with its size as it was. *)
Lemma fitted_holds m m1 fs f st bl bl' l :
  holds m fs -> fs !! f = Some (File st bl []) -> fitted m m1 fs f bl' l ->
  zlen bl' = Size_In_Blocks (i_size st) -> zlen bl' <= 12 -> holds m1 (<[f := File st bl' []]> fs).
Proof.
  intros Hh Hf Hfit Hbl Hfew. pose proof (fitted_stat _ _ _ _ _ _ _ _ Hh Hf Hfit) as Hst.
  destruct (ho_node _ _ Hh f _ Hf) as [[E1 E2 E3] Hat]. change (node_stat (File st bl [])) with st in E1, E2, E3.
  rewrite <- insert_delete_eq. apply holds_insert; [apply Hfit|by eapply ho_number| | |].
  - rewrite (ft_inodes _ _ _ _ _ _ Hfit). by apply (ho_used _ _ Hh f _ Hf).
  - rewrite (ft_place _ _ _ _ _ _ Hfit). apply direct_file; try done; [rewrite <- E1; apply Hat|rewrite <- E3; apply Hat|..].
    + apply (ft_pointers _ _ _ _ _ _ Hfit).
    + apply (ft_tail _ _ _ _ _ _ Hfit).
  - intros b Hb. cbn in Hb. rewrite app_nil_r in Hb. by apply (ft_taken _ _ _ _ _ _ Hfit).
Qed.

(** ** The blocks of a write *)

(** The blocks that a write up to [end_] attaches to a file of [size] bytes. *)
Definition attached size end_ : Z :=
  if Size_In_Blocks end_ >? Size_In_Blocks size then Size_In_Blocks (end_ - size) else 0.

Lemma attached_nonneg size end_ : 0 <= attached size end_.
Proof.
  unfold attached. case_test; [|done]. pose proof (Size_In_Blocks_bounds _ (u32_range (end_ - size))) as [_ H0].
  unfold Size_In_Blocks in *. rewrite u32_idem in H0. lia.
Qed.

(** They are enough, with those of the file. *)
Lemma attached_enough size end_ :
  0 <= size < 2 ^ 31 -> 0 <= end_ < 2 ^ 31 -> Size_In_Blocks end_ <= Size_In_Blocks size + attached size end_.
Proof.
  intros Hs He. unfold attached. destruct (Z.gtb_spec (Size_In_Blocks end_) (Size_In_Blocks size)) as [Hlt|]; [|lia].
  assert (size < end_) as Hse.
  { destruct (decide (size < end_)); [done|exfalso]. pose proof (Size_In_Blocks_mono end_ size). lia. }
  pose proof (proj1 (Size_In_Blocks_bounds end_ ltac:(lia))). pose proof (proj1 (Size_In_Blocks_bounds size ltac:(lia))).
  pose proof (proj1 (Size_In_Blocks_bounds (end_ - size) ltac:(lia))). pose proof block_size_pos.
  generalize dependent (Size_In_Blocks end_). generalize dependent (Size_In_Blocks size).
  generalize dependent (Size_In_Blocks (end_ - size)). intros. nia.
Qed.

Lemma with_file_same s : with_file (file s) s = s.
Proof. by destruct s. Qed.

Definition attach_for i end_ : M R unit :=
  m ← get_file;
  (if Size_In_Blocks end_ >? Size_In_Blocks (Inode.size m i)
   then Attach_Blocks i (u32 (Size_In_Blocks (end_ - Inode.size m i)));; mret tt
   else mret tt).

Lemma attach_for_ok s fs f st bl end_ :
  holds (file s) fs -> tree_ok fs -> free_ok (file s) -> fs !! f = Some (File st bl []) ->
  0 <= end_ < 2 ^ 31 -> let d := attached (i_size st) end_ in zlen bl + d <= 12 ->
  d <= zlen (free_blocks (file s)) -> (forall l, word_after_array l = 0) ->
  let l := take (Z.to_nat d) (free_blocks (file s)) in
  exists m1, attach_for (inode_place (file s) f) end_ s = Ok (tt, with_file m1 s) /\
    fitted (file s) m1 fs f (bl ++ l) l /\ free_blocks (file s) = l ++ free_blocks m1 /\ free_ok m1.
Proof.
  intros Hh Hok Hfo Hf Hend d Hfew Henough Hword l. destruct (ho_node _ _ Hh f _ Hf) as [[_ _ Es] Hat].
  set (i := inode_place (file s) f) in *. cbn [node_stat] in Es. pose proof (zlen_nonneg bl).
  pose proof (fa_size _ _ _ _ Hat) as Hsz. rewrite Es in Hsz.
  unfold attach_for. rewrite (bind_ok _ _ s (file s) s), Es by done. unfold l, d, attached in *.
  destruct (Size_In_Blocks end_ >? Size_In_Blocks (i_size st)) eqn:E.
  - pose proof E as E'. rewrite Z.gtb_lt in E'. assert (i_size st < end_) as Hlt.
    { destruct (decide (i_size st < end_)); [done|exfalso]. pose proof (Size_In_Blocks_mono end_ (i_size st)).
      assert (i_size st < 2 ^ 31) by (rewrite <- Es; apply s32_range).
      lia. }
    pose proof (Size_In_Blocks_bounds (end_ - i_size st) ltac:(lia)) as [Hd1 Hd2].
    assert (0 < Size_In_Blocks (end_ - i_size st)) as Hd0.
    { pose proof block_size_pos as Hbs. revert Hd1. generalize (Size_In_Blocks (end_ - i_size st)) as k. intros k Hk. nia. }
    destruct (blocks_grown s fs f st bl (Size_In_Blocks (end_ - i_size st)) Hh Hok Hfo Hf Hd0 Hfew Henough Hword)
      as (m1 & G & Hfit & Hb & Hfo1). fold i in G. exists m1. rewrite u32_small by lia.
    by rewrite (bind_ok _ _ _ _ _ G).
  - exists (file s). cbn [take]. rewrite app_nil_r, with_file_same. split_and!; [done| |done|done].
    apply (fitted_refl _ _ _ st); [done|done|lia].
Qed.

(** The size after [w] bytes at [off], and the image with it. *)
Definition size_after size off (w : Z) : Z := Z.max size (off + w).

Definition with_size_after m i off (w : Z) : mem :=
  if off + w >? Inode.size m i
  then resized m i (off + w) (Size_In_Blocks (off + w) * (BLOCK_SIZE / 512)) else m.

Definition grow_to i off (w : Z) : M R unit :=
  m ← get_file;
  (if u32 (off + w) >? u32 (Inode.size m i) then
     let diff := u32 (off + w - Inode.size m i) in
     update_file (fun m => Inode.set_size m i (Inode.size m i + diff));;
     update_file (fun m => Inode.set_blocks m i (Size_In_Blocks (Inode.size m i) * (BLOCK_SIZE / 512)))
   else mret tt).

Lemma size_set m i n : 0 <= n < 2 ^ 31 -> Inode.size (Inode.set_size m i n) i = n.
Proof.
  intros Hn. unfold Inode.size, Inode.set_size. rewrite load32_store32_same, u32_small, s32_small by lia. done.
Qed.

Lemma grow_to_ok s i off (w : Z) :
  0 <= Inode.size (file s) i -> 0 <= off -> 0 <= w -> off + w < 2 ^ 31 ->
  grow_to i off w s = Ok (tt, with_file (with_size_after (file s) i off w) s).
Proof.
  intros Hs Ho Hw H31. assert (Inode.size (file s) i < 2 ^ 31) by (apply s32_range).
  unfold grow_to. rewrite (bind_ok _ _ s (file s) s) by done. rewrite !u32_small by lia. unfold with_size_after.
  destruct (Z.gtb_spec (off + w) (Inode.size (file s) i)) as [Hlt|Hle]; [|by rewrite with_file_same].
  cbv zeta. rewrite u32_small by lia. set (m := file s) in *.
  rewrite (bind_ok _ _ s tt (with_file (Inode.set_size m i (Inode.size m i + (off + w - Inode.size m i))) s)) by done.
  replace (Inode.size m i + (off + w - Inode.size m i)) with (off + w) by lia.
  unfold update_file, modify, resized. cbn [file with_file]. rewrite size_set by lia. by destruct s.
Qed.

Lemma size_after_holds m m1 fs f st bl bl' l off (w : Z) :
  holds m fs -> fs !! f = Some (File st bl []) -> fitted m m1 fs f bl' l -> 0 <= off -> 0 <= w -> off + w < 2 ^ 31 ->
  let n := size_after (i_size st) off w in zlen bl' = Size_In_Blocks n -> zlen bl' <= 12 ->
  let m2 := with_size_after m1 (inode_place m f) off w in
  holds m2 (truncated fs f st bl' n) /\ free_inodes m2 = free_inodes m /\ free_blocks m2 = free_blocks m1 /\
  (free_ok m1 -> free_ok m2) /\ (forall x, ~ in_inode (inode_place m f) x -> m2 x = m1 x).
Proof.
  intros Hh Hf Hfit Ho Hw H31 n Hbl Hfew m2. pose proof (fitted_stat _ _ _ _ _ _ _ _ Hh Hf Hfit) as [_ _ Es].
  destruct (ho_node _ _ Hh f _ Hf) as [[_ _ Es0] Hat]. pose proof (fa_size _ _ _ _ Hat) as Hsz.
  change (node_stat (File st bl [])) with st in Es0. rewrite Es0 in Hsz.
  unfold m2, with_size_after, n, size_after in *. rewrite Es.
  destruct (Z.gtb_spec (off + w) (i_size st)) as [Hlt|Hle].
  - rewrite Z.max_r in Hbl |- * by lia.
    destruct (size_written m m1 fs f st bl bl' l (off + w) (Size_In_Blocks (off + w) * (BLOCK_SIZE / 512)) Hh Hf Hfit)
      as (Hh2 & Ei & Eb & Hfo & _); [lia|done|done|]. split_and!; try done. intros x Hx. by apply resized_outside.
  - rewrite Z.max_l in Hbl |- * by lia. split_and!; [|by rewrite (ft_inodes _ _ _ _ _ _ Hfit)|done..].
    unfold truncated, with_size. replace {| i_mode := _ |} with st by by destruct st.
    by apply (fitted_holds m m1 fs f st bl bl' l).
Qed.

(** ** What the cache has of a file *)

(** What is cached for the path are blocks of [bl], as the image has them. *)
Definition cached_blocks m (c : C) (p : list Z) bl : Prop :=
  forall k l, 0 <= k < 2 ^ 32 -> cached c (generate_key p k) = Some l ->
    exists b, bl !! Z.to_nat k = Some b /\ l = read_bytes m (block_addr b) BLOCK_SIZE.

Lemma read_bytes_same m m' a n : (forall x, a <= x < a + n -> m' x = m x) -> read_bytes m' a n = read_bytes m a n.
Proof.
  intros Hx. unfold read_bytes. apply list_fmap_ext. intros j o Ho. apply lookup_seqZ in Ho as [-> Ho]. apply Hx. lia.
Qed.

(** The blocks that the file had are as they were. *)
Lemma fitted_old m m1 fs f st bl l b x :
  holds m fs -> fs !! f = Some (File st bl []) -> fitted m m1 fs f (bl ++ l) l -> NoDup (bl ++ l) ->
  b ∈ bl -> in_block b x -> m1 x = m x.
Proof.
  intros Hh Hf Hfit Hnd Hb Hx. pose proof (ho_number _ _ Hh f _ Hf) as Hr.
  assert (taken_block m b) as Htb by (apply (ho_taken _ _ Hh f _ b Hf); cbn; by rewrite app_nil_r).
  apply (ft_frame _ _ _ _ _ _ Hfit).
  - intros Hc. apply (tb_data _ _ Htb x Hx). by apply control_system.
  - intros Hi. by apply (place_not_taken m fs f b x Hh Hr (taken_place _ _ Htb) Hi).
  - intros b' Hb' Hx'. assert (b' <> b) as Hne.
    { intros ->. apply NoDup_app in Hnd as (_ & Hdis & _). by apply (Hdis b). }
    assert (forall y, y ∈ bl ++ l -> taken_block m1 y) as Htk by apply Hfit.
    apply (blocks_apart m1 b' b x); [apply Htk, elem_of_app; by right|apply Htk, elem_of_app; by left|done|done|done].
Qed.

Lemma fitted_old_byte m m1 fs f st bl l o :
  holds m fs -> fs !! f = Some (File st bl []) -> fitted m m1 fs f (bl ++ l) l -> NoDup (bl ++ l) ->
  0 <= o < zlen bl * BLOCK_SIZE -> tree_byte m1 (bl ++ l) o = tree_byte m bl o.
Proof.
  intros Hh Hf Hfit Hnd Ho. pose proof block_size_pos as Hbs.
  assert (0 <= o / BLOCK_SIZE < zlen bl) as Hq by (split; [apply Z.div_pos; lia|apply Z.div_lt_upper_bound; lia]).
  destruct (lookup_lt_is_Some_2 bl (Z.to_nat (o / BLOCK_SIZE))) as [b Hb]; [unfold zlen in Hq; lia|].
  unfold tree_byte, block_at. rewrite lookup_app_l by (unfold zlen in Hq; lia). rewrite Hb. cbn. f_equal.
  apply (fitted_old m m1 fs f st bl l b); try done; [by eapply list_elem_of_lookup_2|].
  pose proof (Z.mod_pos_bound o BLOCK_SIZE Hbs). unfold in_block. lia.
Qed.

Lemma fitted_coherent m m1 fs f st bl l c p :
  holds m fs -> fs !! f = Some (File st bl []) -> fitted m m1 fs f (bl ++ l) l -> zlen (bl ++ l) <= 12 ->
  NoDup (bl ++ l) -> cached_blocks m c p bl -> coherent_upto m1 c p (inode_place m f) (zlen (bl ++ l)).
Proof.
  intros Hh Hf Hfit Hfew Hnd Hc k v Hk Hv. destruct (Hc k v ltac:(lia) Hv) as (b & Hb & ->).
  pose proof (lookup_lt_Some _ _ _ Hb).
  assert ((bl ++ l) !! Z.to_nat k = Some b) as Hb' by by rewrite lookup_app_l.
  pose proof (fitted_pointer _ _ _ _ _ _ Hfit Hfew _ _ Hb') as E. rewrite Z2Nat.id in E by lia.
  unfold file_block. rewrite E. symmetry. apply read_bytes_same. intros x Hx.
  apply (fitted_old m m1 fs f st bl l b); try done. by eapply list_elem_of_lookup_2.
Qed.

Lemma coherent_blocks m m2 fs f bl l c1 c2 p bl0 :
  fitted m m2 fs f bl l -> zlen bl <= 12 -> coherent_upto m2 c2 p (inode_place m f) (zlen bl) ->
  kept_but p (zlen bl) c1 c2 -> cached_blocks m c1 p bl0 -> (length bl0 <= length bl)%nat -> cached_blocks m2 c2 p bl.
Proof.
  intros Hfit Hfew Hco Hk Hc Hlen k v Hkr Hv. destruct (decide (k < zlen bl)) as [Hlt|Hge].
  - destruct (lookup_lt_is_Some_2 bl (Z.to_nat k)) as [b Hb]; [unfold zlen in Hlt; lia|]. exists b. split; [done|].
    rewrite (Hco k v ltac:(lia) Hv). unfold file_block.
    pose proof (fitted_pointer _ _ _ _ _ _ Hfit Hfew _ _ Hb) as E. rewrite Z2Nat.id in E by lia. by rewrite E.
  - exfalso. destruct (Hk (generate_key p k)) as [E|E]; [| |congruence].
    + intros b Hb E. apply generate_key_injective in E as [_ E]; lia.
    + rewrite E in Hv. destruct (Hc k v Hkr Hv) as (b & Hb & _). apply lookup_lt_Some in Hb. unfold zlen in *. lia.
Qed.

(** ** Bytes written *)

Lemma fitted_byte m m1 fs f bl l o :
  fitted m m1 fs f bl l -> zlen bl <= 12 -> 0 <= o < zlen bl * BLOCK_SIZE ->
  tree_byte m1 bl o = Some (file_byte m1 (inode_place m f) o).
Proof.
  intros Hfit Hfew Ho. pose proof block_size_pos as Hbs.
  assert (0 <= o / BLOCK_SIZE < zlen bl) as Hq by (split; [apply Z.div_pos; lia|apply Z.div_lt_upper_bound; lia]).
  unfold tree_byte, block_at, file_byte. destruct (lookup_lt_is_Some_2 bl (Z.to_nat (o / BLOCK_SIZE))) as [b Hb];
    [unfold zlen in Hq; lia|]. rewrite Hb. cbn. pose proof (fitted_pointer _ _ _ _ _ _ Hfit Hfew _ _ Hb) as E.
  rewrite Z2Nat.id in E by lia. by rewrite E.
Qed.

Lemma wrote_mem_ok k s t p i off (d : list Z) :
  mem_ok (file s) -> Forall (fun x => 0 <= x < 256) d -> wrote_in k s t p i off d -> mem_ok (file t).
Proof.
  intros Hm Hd Hw x.
  destruct (decide (Exists (fun b => in_range (block_addr (block_pointer (file s) i b)) BLOCK_SIZE x = true) (seqZ 0 k))) as [Hin|Hout].
  - apply Exists_exists in Hin as (b & Hb%elem_of_seqZ & Hx%in_range_true). pose proof block_size_pos as Hbs.
    set (a := block_addr (block_pointer (file s) i b)) in *. set (o := b * BLOCK_SIZE + (x - a)).
    assert (file_byte (file t) i o = file t x) as <-.
    { unfold file_byte. replace (o / BLOCK_SIZE) with b by (apply Z.div_unique with (x - a); lia).
      replace (o mod BLOCK_SIZE) with (x - a) by (apply Z.mod_unique with b; lia).
      rewrite (wr_pointers _ _ _ _ _ _ _ Hw) by lia. fold a. f_equal. lia. }
    rewrite (wr_bytes _ _ _ _ _ _ _ Hw o) by (unfold o; nia). case_test; [|apply Hm].
    destruct (d !! Z.to_nat (o - off)) as [y|] eqn:Ey; cbn; [|lia].
    rewrite Forall_forall in Hd. by eapply Hd, list_elem_of_lookup_2.
  - rewrite (wr_rest _ _ _ _ _ _ _ Hw); [apply Hm|]. intros (b & Hb & Hx). apply Hout, Exists_exists.
    exists b. split; [apply elem_of_seqZ; lia|done].
Qed.

(** ** write_file *)

(** The file [f], known as [p] to the cache, can take [buf] from [off] on,
    which is not behind its end. *)
Record writable s fs f st bl (p : list Z) off (buf : list Z) : Prop := {
  wb_holds : holds (file s) fs;
  wb_tree : tree_ok fs;
  wb_data : free_ok (file s);
  wb_file : fs !! f = Some (File st bl []);
  wb_cache : cached_blocks (file s) (memc s) p bl;
  wb_offset : 0 <= off <= i_size st;
  wb_some : 0 < zlen buf;
  wb_end : off + zlen buf < 2 ^ 31;
  wb_bytes : Forall (fun x => 0 <= x < 256) buf
}.

(** The blocks that are attached are there, and are those of the new size. *)
Definition write_fits (free : list Z) bl size off n : Prop :=
  let d := attached size (off + n) in
  zlen bl + d <= 12 /\ d <= zlen free /\ Size_In_Blocks (size_after size off (written off n)) = zlen bl + d.

(** The bytes in [m'] of a file that had the blocks [bl] in [m]. *)
Definition bytes_after m m' bl bl' off (d : list Z) : Prop :=
  (forall o, off <= o < off + zlen d -> tree_byte m' bl' o = d !! Z.to_nat (o - off)) /\
  (forall o, 0 <= o < zlen bl * BLOCK_SIZE -> ~ off <= o < off + zlen d -> tree_byte m' bl' o = tree_byte m bl o).

(** The new blocks of a file are not those of other nodes. *)
Lemma new_blocks_apart m fs f st bl l :
  holds m fs -> tree_ok fs -> fs !! f = Some (File st bl []) -> NoDup l -> (forall b, b ∈ l -> b ∈ free_blocks m) ->
  NoDup (bl ++ l) /\ forall b k nd, b ∈ bl ++ l -> k <> f -> fs !! k = Some nd -> b ∉ node_blocks nd.
Proof.
  intros Hh Hok Hf Hl Hfree. pose proof (to_nodup fs Hok f _ Hf) as Hnd. cbn in Hnd. rewrite app_nil_r in Hnd.
  assert (forall b k nd, b ∈ l -> fs !! k = Some nd -> b ∉ node_blocks nd) as Hno.
  { intros b k nd Hb Hk Hn. by apply (tb_used _ _ (ho_taken _ _ Hh k nd b Hk Hn)), Hfree. }
  split.
  - apply NoDup_app. split_and!; [done| |done]. intros b Hb Hb'. apply (Hno b f _ Hb' Hf). cbn. by rewrite app_nil_r.
  - intros b k nd [Hb|Hb]%elem_of_app Hk Hn; [|by eapply Hno].
    apply (to_apart fs Hok f k _ nd b Hf Hn); [congruence|]. cbn. by rewrite app_nil_r.
Qed.

Lemma blocks_written `{!MemcachedLaws C} m s fs f st bl l p params :
  holds m fs -> tree_ok fs -> fs !! f = Some (File st bl []) -> fitted m (file s) fs f (bl ++ l) l ->
  zlen (bl ++ l) <= 12 -> NoDup l -> (forall b, b ∈ l -> b ∈ free_blocks m) -> cached_blocks m (memc s) p bl ->
  p_path params = p -> let off := p_offset params in let n := p_bytes_to_write params in let buf := p_write_buffer params in
  0 <= off -> 0 < n -> off + n < 2 ^ 31 -> n <= zlen buf -> Forall (fun x => 0 <= x < 256) buf ->
  let kk := Size_In_Blocks (off + n) in kk <= zlen (bl ++ l) -> let i := inode_place m f in
  exists s2, write_blocks params i (addresses (file s) i kk) kk s = Ok (inl (written off n), s2) /\
    s2 = with_memc (memc s2) (with_file (file s2) s) /\
    fitted m (file s2) fs f (bl ++ l) (bl ++ l) /\ free_blocks (file s2) = free_blocks (file s) /\
    (free_ok (file s) -> free_ok (file s2)) /\ cached_blocks (file s2) (memc s2) p (bl ++ l) /\
    kept_but p (zlen (bl ++ l)) (memc s) (memc s2) /\
    bytes_after m (file s2) bl (bl ++ l) off (take (Z.to_nat (written off n)) buf).
Proof.
  intros Hh Hok Hf Hfit Hfew Hl Hfree Hc Hp off n buf Ho Hn H31 Hlen Hbytes kk Hkk i.
  pose proof (ho_number _ _ Hh f _ Hf) as Hr. destruct (new_blocks_apart m fs f st bl l Hh Hok Hf Hl Hfree) as [Hnd Hap].
  pose proof (fitted_coherent _ _ _ _ _ _ _ _ _ Hh Hf Hfit Hfew Hnd Hc) as Hco.
  pose proof (fitted_apart _ _ _ _ _ _ Hfit Hr Hnd Hfew) as Happ. fold i in Hco, Happ.
  destruct (write_blocks_ok (zlen (bl ++ l)) s params p i kk Hp ltac:(lia) Hco Happ Ho Hn H31 Hlen eq_refl Hkk)
    as (s2 & Hrun & Hw). fold off n buf in Hrun, Hw. set (d := take (Z.to_nat (written off n)) buf) in *.
  pose proof (written_bounds off n Hn) as Hwr.
  assert (zlen d = written off n) as Hd by (unfold d, zlen in *; rewrite length_take; lia).
  destruct (fitted_written m (file s) fs f (bl ++ l) l Hfit Hr Hnd Hfew (file s2)) as (Hfit2 & Eb & Hfo); [|done| |by apply Hw|].
  { eapply wrote_mem_ok; [apply (al_mem _ (io_alloc _ (io_ok _ (ho_inodes _ _ (ft_holds _ _ _ _ _ _ Hfit)))))| |exact Hw].
    by apply Forall_take. }
  { intros b Hb. apply elem_of_app. by right. }
  exists s2. split_and!; try done; [apply Hw| |apply Hw|split].
  - eapply coherent_blocks; [exact Hfit2|done|apply Hw|apply Hw|exact Hc|rewrite length_app; lia].
  - intros o Hor. pose proof (proj1 (Size_In_Blocks_bounds (off + n) ltac:(lia))) as Hkb. fold kk in Hkb.
    pose proof block_size_pos. assert (0 <= o < zlen (bl ++ l) * BLOCK_SIZE) as Hob by nia.
    rewrite (fitted_byte _ _ _ _ _ _ o Hfit2 Hfew Hob). fold i. rewrite (wr_bytes _ _ _ _ _ _ _ Hw o Hob).
    rewrite (proj2 (in_range_true _ _ _)) by lia.
    destruct (lookup_lt_is_Some_2 d (Z.to_nat (o - off))) as [y Hy]; [unfold zlen in Hd, Hor; lia|]. by rewrite Hy.
  - intros o Hor Hout. pose proof block_size_pos. pose proof (zlen_nonneg l).
    assert (0 <= o < zlen (bl ++ l) * BLOCK_SIZE) as Hob by (rewrite zlen_app; nia).
    rewrite (fitted_byte _ _ _ _ _ _ o Hfit2 Hfew Hob). fold i. rewrite (wr_bytes _ _ _ _ _ _ _ Hw o Hob).
    rewrite (proj2 (in_range_false _ _ _)) by lia. unfold i.
    rewrite <- (fitted_byte _ _ _ _ _ _ o Hfit Hfew Hob).
    by apply (fitted_old_byte m (file s) fs f st bl l).
Qed.

(** The bytes are those of the blocks: the inode is apart. *)
Lemma bytes_resized m m2 m3 fs f bl bl' l off (d : list Z) :
  fitted m m2 fs f bl' l -> 1 <= f <= TOTAL_GROUPS * INODES_PER_GROUP -> zlen bl' <= 12 ->
  (forall x, ~ in_inode (inode_place m f) x -> m3 x = m2 x) ->
  (forall b x, b ∈ bl' -> in_block b x -> m3 x = m2 x) /\
  (bytes_after m m2 bl bl' off d -> bytes_after m m3 bl bl' off d) /\
  forall (c : C) p, cached_blocks m2 c p bl' -> cached_blocks m3 c p bl'.
Proof.
  intros Hfit Hr Hfew X.
  assert (forall b x, b ∈ bl' -> in_block b x -> m3 x = m2 x) as Hb.
  { intros b x Hb Hx. apply X. intros Hi. apply (fitted_inode m m2 fs f bl' l Hfit Hr Hfew x Hi).
    apply (fitted_in_data m m2 fs f bl' l Hfit Hfew). by exists b. }
  assert (forall o, tree_byte m3 bl' o = tree_byte m2 bl' o) as Ht.
  { intros o. unfold tree_byte. destruct (block_at bl' o) as [b|] eqn:E; [|done]. cbn. f_equal.
    apply (Hb b); [by eapply list_elem_of_lookup_2|]. pose proof (Z.mod_pos_bound o BLOCK_SIZE block_size_pos).
    unfold in_block. lia. }
  split_and!; [done|intros [H1 H2]; split; intros o; rewrite Ht; auto|].
  intros c p Hc k v Hk Hv. destruct (Hc k v Hk Hv) as (b & Hkb & ->). exists b. split; [done|]. symmetry.
  apply read_bytes_same. intros x Hx. apply (Hb b); [by eapply list_elem_of_lookup_2|done].
Qed.

(** What [write_file] leaves behind: the file with the blocks [bl'] and the
    size [size]. *)
Record file_written s m' (c' : C) fs f st bl bl' (free : list Z) size (p : list Z) off (d : list Z) : Prop := {
  fw_holds : holds m' (truncated fs f st bl' size);
  fw_data : free_ok m';
  fw_inodes : free_inodes m' = free_inodes (file s);
  fw_blocks : free_blocks m' = free;
  fw_bytes : bytes_after (file s) m' bl bl' off d;
  fw_cache : cached_blocks m' c' p bl';
  fw_others : kept_but p (zlen bl') (memc s) c';
  fw_frame : forall x, ~ control (file s) x -> ~ in_inode (inode_place (file s) f) x ->
    (forall b, b ∈ bl' -> ~ in_block b x) -> m' x = file s x
}.

Lemma write_images `{!MemcachedLaws C} s fs f st bl params :
  let off := p_offset params in let buf := p_write_buffer params in let n := zlen buf in let p := p_path params in
  writable s fs f st bl p off buf -> let free := free_blocks (file s) in
  write_fits free bl (i_size st) off n -> (forall l, word_after_array l = 0) -> p_bytes_to_write params = n ->
  let w := written off n in let d := attached (i_size st) (off + n) in let bl' := bl ++ take (Z.to_nat d) free in
  let i := inode_place (file s) f in let kk := Size_In_Blocks (off + n) in
  exists m1 t m3, attach_for i (off + n) s = Ok (tt, with_file m1 s) /\
    write_blocks params i (addresses m1 i kk) kk (with_file m1 s) = Ok (inl w, t) /\
    grow_to i off w t = Ok (tt, with_file m3 t) /\ t = with_memc (memc t) (with_file (file t) s) /\
    Inode.size m1 i = i_size st /\
    file_written s m3 (memc t) fs f st bl bl' (drop (Z.to_nat d) free) (size_after (i_size st) off w) p
      off (take (Z.to_nat w) buf).
Proof.
  intros off buf n p [Hh Hok Hfo Hf Hc Ho H0 H31 Hbytes] free (Hfew & Henough & Hsize) Hword Hn w d bl' i kk.
  fold d w in Hfew, Henough, Hsize. pose proof (written_bounds off n H0) as Hwr. fold w in Hwr.
  pose proof (io_ok _ (ho_inodes _ _ Hh)) as Hgo. pose proof (ho_number _ _ Hh f _ Hf) as Hr.
  destruct (ho_node _ _ Hh f _ Hf) as [[_ _ Es] Hat]. change (node_stat (File st bl [])) with st in Es. fold i in Es, Hat.
  assert (i_size st < 2 ^ 31) as Hz31 by (rewrite <- Es; apply s32_range).
  assert (0 <= d) as Hd0 by apply attached_nonneg.
  set (l := take (Z.to_nat d) free) in *. assert (zlen l = d) as Hl by (unfold l, zlen in *; rewrite length_take; lia).
  destruct (attach_for_ok s fs f st bl (off + n)) as (m1 & GA & Hfit & Hb1 & Hfo1); try done; [lia|].
  fold i d free l in GA, Hfit, Hb1.
  destruct (blocks_written (file s) (with_file m1 s) fs f st bl l p params)
    as (t & GB & Et & Hfit2 & Eb2 & Hfo2 & Hc4 & Hk4 & Hby4); cbn [file memc with_file]; rewrite ?Hn; try done; try lia.
  { rewrite zlen_app, Hl. done. }
  { apply (sublist_NoDup _ free); [|apply sublist_take]. apply free_blocks_nodup, (al_layout _ (io_alloc _ Hgo)). }
  { intros b. by apply subseteq_take. }
  { rewrite zlen_app, Hl, (fa_blocks _ _ _ _ Hat), Es. apply attached_enough; lia. }
  rewrite Hn in GB, Hby4. fold off buf i in GB, Hby4. fold w kk in GB, Hby4. fold bl' in Hfit2, Hc4, Hk4, Hby4.
  change (file (with_file m1 s)) with m1 in *. change (memc (with_file m1 s)) with (memc s) in Hk4.
  assert (zlen bl' = zlen bl + d) as Hbl' by (unfold bl'; rewrite zlen_app; lia).
  pose proof (fitted_stat _ _ _ _ _ _ _ _ Hh Hf Hfit) as [_ _ Es1]. pose proof (fitted_stat _ _ _ _ _ _ _ _ Hh Hf Hfit2) as [_ _ Es4].
  fold i in Es1, Es4. pose proof (grow_to_ok t i off w) as GC. rewrite Es4 in GC.
  specialize (GC ltac:(lia) ltac:(lia) ltac:(lia) ltac:(lia)).
  destruct (size_after_holds (file s) (file t) fs f st bl bl' bl' off w Hh Hf Hfit2) as (Hh3 & Ei3 & Eb3 & Hfo3 & X3);
    try lia. fold i in Hh3, Ei3, Eb3, Hfo3, X3. set (m3 := with_size_after (file t) i off w) in *.
  destruct (bytes_resized (file s) (file t) m3 fs f bl bl' bl' off (take (Z.to_nat w) buf) Hfit2 Hr ltac:(lia) X3)
    as (Xb & Hby & Hca).
  exists m1, t, m3. split_and!; try done. split; try done.
  - by apply Hfo3, Hfo2.
  - rewrite Eb3, Eb2. apply (app_inv_head l). rewrite <- Hb1. unfold l. by rewrite take_drop.
  - by apply Hby.
  - by apply Hca.
  - intros x H1 H2 H3. rewrite X3 by done. by apply (ft_frame _ _ _ _ _ _ Hfit2).
Qed.

Lemma write_run `{!MemcachedLaws C} s refs fs ns f st bl params :
  let off := p_offset params in let buf := p_write_buffer params in let n := zlen buf in
  ready s refs ns -> tree_walk fs ROOT_INODE_NUMBER ns = Some (Some f) -> p_path params = abs_path ns ->
  writable s fs f st bl (abs_path ns) off buf -> let free := free_blocks (file s) in
  write_fits free bl (i_size st) off n -> (forall l, word_after_array l = 0) -> p_bytes_to_write params = n ->
  let w := written off n in let d := attached (i_size st) (off + n) in let bl' := bl ++ take (Z.to_nat d) free in
  exists m' c' s', write_file params s = Ok (result (abs_path ns) (Status w), s') /\
    restored (errno s) (with_counter (u64 (writes_to_sync s + 1)) (with_memc c' (with_file m' s))) s' refs /\
    file_written s m' c' fs f st bl bl' (drop (Z.to_nat d) free) (size_after (i_size st) off w) (abs_path ns)
      off (take (Z.to_nat w) buf).
Proof.
  intros off buf n Hready Hwk Hp Hwb free Hfits Hword Hn w d bl'. pose proof (wb_holds _ _ _ _ _ _ _ _ Hwb) as Hh.
  pose proof (tree_path_resolves _ _ _ _ Hh (wb_tree _ _ _ _ _ _ _ _ Hwb) Hwk) as Hres. cbn in Hres.
  set (i := inode_place (file s) f) in *.
  destruct (ho_node _ _ Hh f _ (wb_file _ _ _ _ _ _ _ _ Hwb)) as [[_ _ Es] Hat].
  change (node_stat (File st bl [])) with st in Es. fold i in Es, Hat.
  destruct (write_bracket s refs ns _ Hready Hres) as (id & s1 & s2 & s3 & G1 & G2 & Ha2 & G3 & Ha3 & Hunlock).
  cbn [walk_errno] in *. destruct (after_file _ _ _ Ha2) as [Hf2 _]. destruct (after_file _ _ _ Ha3) as [Hf3 _].
  assert (memc s3 = memc s) as Hc3 by by rewrite Ha3.
  assert (writes_to_sync s3 = writes_to_sync s) as Hw3 by by rewrite Ha3.
  destruct (write_images s3 fs f st bl params) as (m1 & t & m3 & GA & GB & GC & Et & E1 & Hfw);
    rewrite ?Hf3, ?Hp; try done.
  { destruct Hwb. split; rewrite ?Hf3, ?Hc3; done. }
  fold off buf n i in GA, GB, GC, Hfw. rewrite Hp, Hf3 in Hfw. rewrite Hf3 in GA, GB, GC, E1. fold i in GA, GB, GC, E1.
  unfold attach_for in GA. unfold grow_to in GC. rewrite (bind_ok _ _ s3 (file s3) s3), Hf3 in GA by done.
  rewrite (bind_ok _ _ t (file t) t) in GC by done.
  pose proof (wb_offset _ _ _ _ _ _ _ _ Hwb) as Ho. pose proof (wb_some _ _ _ _ _ _ _ _ Hwb) as H0. fold n in H0.
  pose proof (wb_end _ _ _ _ _ _ _ _ Hwb) as H31. fold n in H31.
  assert (i_size st < 2 ^ 31) as Hz31 by (rewrite <- Es; apply s32_range).
  pose proof (Size_In_Blocks_bounds (off + n) ltac:(lia)) as [_ Hkk].
  set (t' := with_counter (u64 (writes_to_sync t + 1)) (with_file m3 t)).
  destruct (Hunlock t') as (t1 & G5 & _ & _ & s' & G6 & Hok' & Hm & Hst); [by unfold t'; rewrite Et|].
  exists m3, (memc t), s'. split; [|split].
  - unfold write_file. rewrite Hp, (bind_ok _ _ _ _ _ G1), (bind_ok _ _ _ _ _ G2). cbn [walk_result fst].
    rewrite (bind_ok _ _ s2 (file s2) s2) by done. rewrite Hf2, (fa_mode _ _ _ _ Hat).
    rewrite (bind_ok _ _ _ _ _ G3), (bind_ok _ _ s3 (file s3) s3) by done. cbv zeta. fold off. rewrite Hn, Hf3.
    rewrite (bind_ok _ _ s3 tt s3).
    2: { unfold clear_tail. rewrite (bind_ok _ _ s3 (file s3) s3), Hf3 by done. fold off i.
         rewrite Es, Z.gtb_ltb, (u32_small (i_size st)), (proj2 (Z.ltb_ge _ _)) by lia. done. }
    rewrite (bind_ok _ _ s3 (file s3) s3), Hf3, (bind_ok _ _ _ _ _ GA) by done. fold i.
    rewrite (bind_ok _ _ (with_file m1 s3) m1 (with_file m1 s3)), E1, Es by done.
    replace (i_size st + (off + n - i_size st)) with (off + n) by lia.
    rewrite (u32_small (off + n)), Inode_addresses_upto, (u32_small (Size_In_Blocks _)), (bind_ok _ _ _ _ _ GB) by lia.
    rewrite (bind_ok _ _ t (file t) t), (bind_ok _ _ _ _ _ GC), (bind_ok _ _ _ tt t') by done.
    by rewrite (bind_ok _ _ _ _ _ G5), (bind_ok _ _ _ _ _ G6).
  - split_and!; [done| |done]. eapply after_moved_trans; [|exact Hm]. unfold t'. rewrite Et. cbn [writes_to_sync with_memc with_file].
    rewrite Hw3. unfold after in *. rewrite Ha3 at 1. done.
  - destruct Hfw. by split; rewrite <- ?Hf3, <- ?Hc3.
Qed.

Lemma write_missing s refs ns params :
  ready s refs ns -> path_resolves (file s) ns None -> p_path params = abs_path ns ->
  exists s', write_file params s = Ok (result (abs_path ns) Null, s') /\ restored ENOENT s s' refs.
Proof.
  intros Hready Hres Hp. destruct (missing_bracket s refs ns Hready Hres) as (id & s1 & s2 & s3 & G1 & G2 & G3 & Hrest).
  exists s3. split; [|done]. unfold write_file.
  rewrite Hp, (bind_ok _ _ _ _ _ G1), (bind_ok _ _ _ _ _ G2). cbn [walk_result fst].
  by rewrite (bind_ok _ _ _ _ _ G3).
Qed.
End Contents.
