(* ===== verification/Volume.v ===== *)
(** * Volume: what the server promises about names

    The abstract specification of the requests: a volume is a tree of nodes
    with the numbers of the free inodes and blocks in order and the bytes of
    the files as far as they are known, and [paso] is one request as a
    function on volumes.  It has no image, no table of files in use, no
    messages and no caches.  The bytes of a file are known when they were
    written; the blocks that a file grows by have the bytes that they had.

    [None] is what the specification says nothing about: a request with a path
    that the server refuses, a directory without room, a block that is not in
    a direct pointer, bytes that are not known, and what makes the program
    fail, as the deletion of an entry in front of a name that is longer than
    the entry's record does.  The server's cache has blocks under the path that was used, and
    forgets those of the path of a request alone; so the volume has the paths
    that were read or written ([v_seen]), and a request that changes a file
    that another of them leads to, or where one of them leads, has no
    specification either. *)

From Stdlib Require Import Sorted.
From stdpp Require Import sorting.
From S2P Require Import Prelude Memory Bitarray Ext2 Ext2Facts CString Paths Rfs ActiveFiles Alloc AllocFacts InodeAlloc BlockMap Dirs DirFacts Walk FileOps Serial Requests SerialFacts Lookups Tree TreeSteps Enters Creates Mkdirs Removes Deletes Rmdirs Reads Writes Truncates Contents.

(** ** Free numbers, in order *)

Fixpoint put_back (n : Z) (l : list Z) : list Z :=
  match l with
  | [] => [n]
  | k :: l => if n <=? k then n :: k :: l else k :: put_back n l
  end.

Definition increasing (l : list Z) : Prop := StronglySorted Z.lt l.

Lemma put_back_perm n l : put_back n l ≡ₚ n :: l.
Proof.
  induction l as [|k l IH]; [done|]. cbn [put_back]. destruct (n <=? k); [done|]. rewrite IH. apply Permutation_swap.
Qed.

Lemma put_back_increasing n l : n ∉ l -> increasing l -> increasing (put_back n l).
Proof.
  unfold increasing. intros Hn Hl. induction Hl as [|k l Hl IH Hk]; [by repeat constructor|].
  apply not_elem_of_cons in Hn as [Hnk Hn]. cbn [put_back]. destruct (Z.leb_spec n k).
  - constructor; [by constructor|]. constructor; [lia|]. eapply Forall_impl; [exact Hk|]. cbn. lia.
  - constructor; [by apply IH|]. rewrite put_back_perm. constructor; [lia|done].
Qed.

(** The order and the numbers determine the list. *)
Lemma increasing_unique l1 l2 : increasing l1 -> increasing l2 -> l1 ≡ₚ l2 -> l1 = l2.
Proof.
  intros H1 H2. assert (forall l, increasing l -> StronglySorted Z.le l) as Hle.
  { intros l Hl. induction Hl as [|k l _ IH Hk]; constructor; [done|]. eapply Forall_impl; [exact Hk|]. cbn. lia. }
  apply (StronglySorted_unique Z.le); by apply Hle.
Qed.

Lemma increasing_drop k l : increasing l -> increasing (drop k l).
Proof.
  intros Hl. revert k. induction Hl as [|n l Hl IH Hn]; intros [|k]; try (by constructor). apply IH.
Qed.

Lemma increasing_nodup l : increasing l -> NoDup l.
Proof.
  intros Hl. induction Hl as [|k l _ IH Hk]; constructor; [|done]. intros Hin.
  rewrite Forall_forall in Hk. specialize (Hk k Hin). lia.
Qed.

Lemma put_all_perm l ns : foldr put_back l ns ≡ₚ ns ++ l.
Proof. induction ns as [|n ns IH]; [done|]. cbn [foldr app]. by rewrite put_back_perm, IH. Qed.

Lemma put_all_increasing l ns : NoDup (ns ++ l) -> increasing l -> increasing (foldr put_back l ns).
Proof.
  induction ns as [|n ns IH]; [done|]. cbn [foldr app]. intros [Hn Hnd]%NoDup_cons Hl.
  apply put_back_increasing; [|by apply IH]. by rewrite put_all_perm.
Qed.

(** Numbers that are found free in order are in order. *)
Lemma increasing_app l1 l2 :
  increasing l1 -> increasing l2 -> (forall a b, a ∈ l1 -> b ∈ l2 -> a < b) -> increasing (l1 ++ l2).
Proof.
  intros H1 H2 Hlt. induction H1 as [|k l1 _ IH Hk]; [done|]. cbn [app]. constructor.
  - apply IH. intros a b Ha. apply Hlt. by right.
  - apply Forall_app. split; [done|]. apply Forall_forall. intros b Hb. apply Hlt; [by left|done].
Qed.

Lemma increasing_seqZ a n : increasing (seqZ a n).
Proof.
  destruct (decide (0 <= n)) as [Hn|]; [|rewrite seqZ_nil by lia; constructor]. revert n Hn a.
  refine (natlike_ind _ _ _); [constructor|]. intros n Hn IH a. rewrite seqZ_cons, Z.pred_succ by lia.
  constructor; [apply IH|]. apply Forall_forall. intros x [??]%elem_of_seqZ. lia.
Qed.

Lemma increasing_filter (P : Z -> Prop) `{!forall x, Decision (P x)} l : increasing l -> increasing (filter P l).
Proof.
  intros Hl. induction Hl as [|k l _ IH Hk]; [constructor|]. rewrite filter_cons. case_decide; [|done].
  constructor; [done|]. apply Forall_forall. intros x [_ Hx]%list_elem_of_filter. rewrite Forall_forall in Hk. auto.
Qed.

Lemma increasing_fmap (f : Z -> Z) l : (forall a b, a < b -> f a < f b) -> increasing l -> increasing (f <$> l).
Proof.
  intros Hf Hl. induction Hl as [|k l _ IH Hk]; constructor; [done|]. apply Forall_fmap.
  eapply Forall_impl; [exact Hk|]. cbn. auto.
Qed.

Section Free_lists.
Context {Super_constants : Superblock_constants} {SO : Superblock_ok} {WA : Word_after_array} {C : Type}.
Implicit Types (m : mem) (g n : Z).

Lemma free_bits_increasing m bm lo n : increasing (free_bits m bm lo n).
Proof. apply increasing_filter, increasing_seqZ. Qed.

Lemma free_blocks_increasing m : layout_ok m -> increasing (free_blocks m).
Proof.
  intros Hl. pose proof (lo_total m Hl) as Ht. pose proof (lo_bpg m Hl) as Hb. unfold free_blocks.
  generalize 0 as g. revert Ht. generalize TOTAL_GROUPS as n. refine (natlike_ind _ _ _); [intros; constructor|].
  intros n Hn IH g. replace (Z.succ n) with (1 + n) by lia. rewrite free_from_S by done. apply increasing_app; [|apply IH|].
  - apply increasing_fmap; [unfold block_of; lia|apply free_bits_increasing].
  - intros a b (i & -> & Hi%group_free_elem)%list_elem_of_fmap Hin. apply free_from_bounds in Hin; [|done|lia].
    unfold block_of in *. lia.
Qed.

Lemma free_inodes_increasing m : inode_groups_ok m -> increasing (free_inodes m).
Proof.
  intros Hio. pose proof (lo_total m (al_layout m (io_alloc m Hio))) as Ht. pose proof (io_ipg m Hio). unfold free_inodes.
  generalize 0 as g. revert Ht. generalize TOTAL_GROUPS as n. refine (natlike_ind _ _ _); [intros; constructor|].
  intros n Hn IH g. replace (Z.succ n) with (1 + n) by lia. rewrite free_inodes_S by done. apply increasing_app; [|apply IH|].
  - apply increasing_fmap; [unfold inode_of; lia|apply free_bits_increasing].
  - intros a b (i & -> & Hi%inode_free_elem)%list_elem_of_fmap Hin. apply free_inodes_from_range in Hin; [|done|lia].
    unfold inode_of in *. lia.
Qed.
End Free_lists.

(** ** Requests and answers *)

(** A request about the path [ns], or about the name [nm] in [ns]: with the
    size of a file, or bytes of it at an offset. *)
Inductive peticion :=
  | Creacion (es_archivo : bool) (ns : list (list Z)) (nm : list Z) (mode : Z)
  | Borrado (ns : list (list Z)) (nm : list Z)
  | Borrado_dir (ns : list (list Z)) (nm : list Z)
  | Apertura (ns : list (list Z))
  | Atributos (ns : list (list Z))
  | Listado (ns : list (list Z))
  | Truncado (ns : list (list Z)) (size : Z)
  | Lectura (ns : list (list Z)) (size offset : Z)
  | Escritura (ns : list (list Z)) (buffer : list Z) (offset : Z).

Definition names_of_request (p : peticion) : list (list Z) :=
  match p with
  | Creacion _ ns nm _ | Borrado ns nm | Borrado_dir ns nm => ns ++ [nm]
  | Apertura ns | Atributos ns | Listado ns | Truncado ns _ | Lectura ns _ _ | Escritura ns _ _ => ns
  end.

(** The message of the client. *)
Definition pedido_of (p : peticion) : pedido :=
  let path := abs_path (names_of_request p) in
  match p with
  | Creacion true _ _ mode => Crear_archivo path mode
  | Creacion false _ _ mode => Crear_directorio path mode
  | Borrado _ _ => Eliminar_archivo path
  | Borrado_dir _ _ => Eliminar_directorio path
  | Apertura _ => Abrir_archivo path
  | Atributos _ => Obtener_atributos path
  | Listado _ => Leer_directorio path
  | Truncado _ size => Truncar_archivo path size
  | Lectura _ size offset => Leer_archivo path size offset
  | Escritura _ buffer offset => Escribir_archivo path buffer offset
  end.

Inductive contents :=
  | Nothing
  | Attributes (a : t_respuesta_obtener_atributos)
  | Names (l : list (list Z))
  | Read (l : list Z)
  | Count (n : Z).

(** [v_bytes] has the known byte at an offset of an inode's file, [v_seen] the
    paths that were read or written. *)
Record volume := {
  v_tree : gmap Z node;
  v_inodes : list Z;
  v_blocks : list Z;
  v_bytes : gmap (Z * Z) Z;
  v_seen : list (list (list Z))
}.

(** The names of the entries in use. *)
Definition names_in (bs : list (Z * list dentry)) : list (list Z) :=
  de_name <$> filter (fun d => de_inode d <> 0) (entries_of bs).

Lemma entries_names m a l e :
  dir_block m a l e -> entry_name m <$> used_entries a l = de_name <$> filter (fun d => de_inode d <> 0) l.
Proof.
  revert a. induction l as [|d l IH]; intros a Hb; [done|]. destruct Hb as (Hd & Hok & Hb).
  cbn [used_entries]. rewrite filter_cons, fmap_app, (IH _ Hb). destruct (Z.eqb_spec (de_inode d) 0) as [Hz|Hz]; cbn [negb].
  - by rewrite decide_False by auto.
  - rewrite decide_True by done. cbn [fmap list_fmap app]. f_equal. unfold entry_name.
    rewrite (at_name_len _ _ _ Hd). apply (at_name _ _ _ Hd).
Qed.

Lemma names_used {SC : Superblock_constants} m bs :
  (forall b es, (b, es) ∈ bs -> dir_block m (block_addr b) es (block_addr b + BLOCK_SIZE)) ->
  entry_name m <$> used_in bs = names_in bs.
Proof.
  induction bs as [|[b es] bs IH]; intros Hb; [done|].
  change (used_in ((b, es) :: bs)) with (used_entries (block_addr b) es ++ used_in bs).
  unfold names_in. change (entries_of ((b, es) :: bs)) with (es ++ entries_of bs).
  rewrite filter_app, !fmap_app. f_equal; [by eapply entries_names, Hb; left|].
  apply IH. intros b' es' Hin. apply Hb. by right.
Qed.

Section Spec.
Context {Super_constants : Superblock_constants} {AB : Abi}.
Implicit Types (v : volume) (fs : gmap Z node) (ns : list (list Z)) (nm : list Z).

Definition request_ok (p : peticion) : Prop :=
  Forall name_ok (names_of_request p) /\ C_string (abs_path (names_of_request p)) /\
  strlen (abs_path (names_of_request p)) <= 40 /\ pedido_numbers (pedido_of p) /\ payload_size (pedido_of p) < 2 ^ 16.

#[export] Instance request_ok_dec p : Decision (request_ok p).
Proof. destruct p as [[]| | | | | | | |]; unfold request_ok, name_ok, token_ok; apply _. Defined.

(** The path does not come through the node [f]. *)
Fixpoint avoidsb fs (f n : Z) ns : bool :=
  negb (n =? f) &&
  match ns with
  | [] => true
  | nm :: ns =>
      match fs !! n with
      | Some (Dir _ bs _) =>
          match dir_find nm (entries_of bs) with Some k => avoidsb fs f k ns | None => true end
      | _ => true
      end
  end.

(** No node but [d] has an entry of [f], and [d] only one called [nm]. *)
Definition links_ok (d f : Z) nm (n : Z) (nd : node) : bool :=
  match nd with
  | Dir _ bs _ => forallb (fun e => negb (de_inode e =? f) || (n =? d) && bool_decide (de_name e = nm)) (entries_of bs)
  | _ => true
  end.
Definition one_linkb fs (d f : Z) nm : bool :=
  forallb (fun p => (p.1 =? f) || links_ok d f nm p.1 p.2) (map_to_list fs).

(** The first entry with the name: what is before and behind it. *)
Fixpoint entry_split nm (l : list dentry) : option (list dentry * dentry * list dentry) :=
  match l with
  | [] => None
  | d :: l =>
      if bool_decide (de_name d = nm) then Some ([], d, l)
      else match entry_split nm l with Some (l1, t, l2) => Some (d :: l1, t, l2) | None => None end
  end.

(** The entry to take out, behind the first of the first block of its
    directory, when it is the only one of its name and of its inode and the
    name behind it is not longer than its record. *)
Definition spot_of fs ns nm : option spot :=
  match tree_walk fs ROOT_INODE_NUMBER ns with
  | Some (Some d) =>
      match fs !! d with
      | Some (Dir st ((b, first :: es) :: rest) ind) =>
          match entry_split nm es with
          | Some (l1, t, l2) =>
              if avoidsb fs (de_inode t) ROOT_INODE_NUMBER ns && negb (de_inode t =? 0) &&
                 bool_decide (nm ∉ de_name <$> (first :: l1 ++ l2) ++ entries_of rest) && one_linkb fs d (de_inode t) nm
                 && next_fits t l2
              then Some {| sp_dir := d; sp_stat := st; sp_indirect := ind; sp_block := b; sp_first := first;
                           sp_before := l1; sp_entry := t; sp_after := l2; sp_rest := rest |}
              else None
          | None => None
          end
      | _ => None
      end
  | _ => None
  end.

(** ** What the server's cache may have *)

(** No other path that was used leads to the file [f]. *)
Definition sole v ns (f : Z) : bool :=
  forallb (fun ns' => bool_decide (ns' = ns) || negb (bool_decide (tree_walk (v_tree v) ROOT_INODE_NUMBER ns' = Some (Some f))))
          (v_seen v).

(** The paths that were used lead where they led. *)
Definition steady v v' : bool :=
  forallb (fun ns => bool_decide (tree_walk (v_tree v') ROOT_INODE_NUMBER ns = tree_walk (v_tree v) ROOT_INODE_NUMBER ns))
          (v_seen v').

Definition add_seen ns (l : list (list (list Z))) : list (list (list Z)) := if decide (ns ∈ l) then l else ns :: l.

(** ** The bytes of a file *)

Fixpoint put_bytes (f o : Z) (l : list Z) (M : gmap (Z * Z) Z) : gmap (Z * Z) Z :=
  match l with [] => M | x :: l => <[(f, o) := x]> (put_bytes f (o + 1) l M) end.

Definition known v (f off n : Z) : option (list Z) := mapM (fun o => v_bytes v !! (f, o)) (seqZ off n).

(** ** A request *)

Definition stat_answer (n : Z) (st : istat) : contents :=
  Attributes {| numero_de_inodo := n; modo := i_mode st; numero_de_hard_links := i_links st; at_size := i_size st;
                tamano_de_bloque_por_fs := BLOCK_SIZE; cantidad_de_bloques_de_512b := Size_In_Blocks (i_size st) |}.

(** The new node in the directory [d]: the first free inode, for a directory
    also the first free block. *)
Definition paso_creacion v (es_archivo : bool) (d : Z) nm (mode : Z) : option volume :=
  match v_tree v !! d, v_inodes v with
  | Some (Dir st bs ind), x :: rest =>
      match enter_blocks (create_entry nm x) bs with
      | Some bs' =>
          if es_archivo then
            Some {| v_tree := create_in (v_tree v) d x st bs' ind (File (new_file_stat mode) [] []);
                    v_inodes := rest; v_blocks := v_blocks v; v_bytes := v_bytes v; v_seen := v_seen v |}
          else
            match v_blocks v with
            | b :: restb =>
                if x / INODES_PER_GROUP <? TOTAL_GROUPS then
                  Some {| v_tree := create_in (v_tree v) d x st bs' ind (new_dir mode b x d);
                          v_inodes := rest; v_blocks := restb; v_bytes := v_bytes v; v_seen := v_seen v |}
                else None
            | [] => None
            end
      | None => None
      end
  | _, _ => None
  end.

(** What the entry names goes, with its path, its blocks, its bytes and its
    inode. *)
Definition released v ns e (bl : list Z) : volume :=
  {| v_tree := without (v_tree v) e; v_inodes := put_back (sp_inode e) (v_inodes v);
     v_blocks := foldr put_back (v_blocks v) bl;
     v_bytes := filter (fun p => p.1.1 <> sp_inode e) (v_bytes v);
     v_seen := filter (fun ns' => ns' <> ns) (v_seen v) |}.

Definition paso_borrado v ns e : option volume :=
  match v_tree v !! sp_inode e with
  | Some (File _ bl []) => if (zlen bl <=? 12) && sole v ns (sp_inode e) then Some (released v ns e bl) else None
  | _ => None
  end.

(** A directory that is not empty is only taken out of its parent. *)
Definition paso_borrado_dir v ns e : option volume :=
  match v_tree v !! sp_inode e with
  | Some (Dir _ [(b, p1 :: p2 :: l)] ind) =>
      if de_len p1 =? size_of p1 then
        match l, ind with
        | [], [] => Some (released v ns e [b])
        | _ :: _, _ => Some {| v_tree := unlink (v_tree v) e; v_inodes := v_inodes v; v_blocks := v_blocks v;
                               v_bytes := v_bytes v; v_seen := v_seen v |}
        | _, _ => None
        end
      else None
  | _ => None
  end.

Definition listable (names : list (list Z)) : Prop :=
  names <> [] /\ Forall C_string names /\ Forall (token_ok hash_sign) names /\
  names_size names + zlen names < 2 ^ 16.

#[export] Instance listable_dec names : Decision (listable names).
Proof. unfold listable, token_ok. apply _. Defined.

Definition respuesta v (status : Z) (c : contents) : option (Z * contents * volume) := Some (status, c, v).

(** A change of names. *)
Definition cambio v (o : option volume) : option (Z * contents * volume) :=
  v' ← o; if steady v v' then respuesta v' RESPUESTA_OK Nothing else None.

(** The file [f] at its new size: its first blocks, and the first free ones
    behind them; the other blocks are free. *)
Definition paso_truncado v ns (f n : Z) : option volume :=
  match v_tree v !! f with
  | Some (File st bl []) =>
      let k := Size_In_Blocks n in
      if bool_decide (zlen bl <= 12 /\ n < 2 ^ 31 /\ k <= 12 /\ k - zlen bl <= zlen (v_blocks v)) && sole v ns f then
        Some {| v_tree := truncated (v_tree v) f st (fit bl (v_blocks v) k) n; v_inodes := v_inodes v;
                v_blocks := foldr put_back (drop (Z.to_nat (k - zlen bl)) (v_blocks v)) (drop (Z.to_nat k) bl);
                v_bytes := filter (fun p => p.1.1 = f -> p.1.2 < n) (v_bytes v); v_seen := v_seen v |}
      else None
  | _ => None
  end.

(** The bytes that the file has at [off], at most [len]; those that the server
    does not copy are answered as zeros ([copied]). *)
Definition paso_lectura v ns (f len off : Z) : option (Z * contents * volume) :=
  match v_tree v !! f with
  | Some (File st bl []) =>
      if bool_decide (zlen bl <= 12 /\ 0 <= off < i_size st /\ 0 < len /\ szt + len < 2 ^ 16) then
        let n := Z.min len (i_size st - off) in
        l ← known v f off (copied off n);
        respuesta {| v_tree := v_tree v; v_inodes := v_inodes v; v_blocks := v_blocks v; v_bytes := v_bytes v;
                     v_seen := add_seen ns (v_seen v) |}
          RESPUESTA_OK (Read (l ++ replicate (Z.to_nat (n - copied off n)) 0))
      else None
  | _ => None
  end.

(** [buf] from [off] on, which is not behind the end, as far as the server
    writes it ([written]); the file gets the blocks and the size that it
    needs. *)
Definition paso_escritura v ns (f : Z) (buf : list Z) (off : Z) : option (Z * contents * volume) :=
  match v_tree v !! f with
  | Some (File st bl []) =>
      let n := zlen buf in
      if bool_decide (0 <= off <= i_size st /\ 0 < n /\ off + n < 2 ^ 31 /\ Forall (fun x => 0 <= x < 256) buf /\ szt <= 4 /\
                      write_fits (v_blocks v) bl (i_size st) off n) && sole v ns f then
        let w := written off n in
        let d := Z.to_nat (attached (i_size st) (off + n)) in
        respuesta {| v_tree := truncated (v_tree v) f st (bl ++ take d (v_blocks v)) (size_after (i_size st) off w);
                     v_inodes := v_inodes v; v_blocks := drop d (v_blocks v);
                     v_bytes := put_bytes f off (take (Z.to_nat w) buf) (v_bytes v); v_seen := add_seen ns (v_seen v) |}
          RESPUESTA_OK (Count w)
      else None
  | _ => None
  end.

(** The failures of creations and deletions are answered OK. *)
Definition paso_ok v (p : peticion) : option (Z * contents * volume) :=
  let fs := v_tree v in
  match p, tree_walk fs ROOT_INODE_NUMBER (names_of_request p) with
  | Creacion _ _ _ _, Some (Some _) => respuesta v RESPUESTA_OK Nothing
  | Creacion es_archivo ns nm mode, Some None =>
      match tree_walk fs ROOT_INODE_NUMBER ns with
      | Some (Some d) =>
          if bool_decide (v_inodes v = []) then respuesta v RESPUESTA_OK Nothing
          else cambio v (paso_creacion v es_archivo d nm mode)
      | _ => None
      end
  | Borrado _ _, Some None | Borrado_dir _ _, Some None => respuesta v RESPUESTA_OK Nothing
  | Borrado ns nm, Some (Some _) =>
      e ← spot_of fs ns nm; cambio v (paso_borrado v (ns ++ [nm]) e)
  | Borrado_dir ns nm, Some (Some _) =>
      e ← spot_of fs ns nm; cambio v (paso_borrado_dir v (ns ++ [nm]) e)
  | Apertura _, Some (Some _) => respuesta v RESPUESTA_OK Nothing
  | Atributos _, Some (Some n) => nd ← fs !! n; respuesta v RESPUESTA_OK (stat_answer n (node_stat nd))
  | Listado _, Some (Some n) =>
      match fs !! n with
      | Some (Dir _ bs _) =>
          if bool_decide (listable (names_in bs)) then respuesta v RESPUESTA_OK (Names (names_in bs)) else None
      | _ => None
      end
  | Apertura _, Some None | Atributos _, Some None | Listado _, Some None | Truncado _ _, Some None | Escritura _ _ _, Some None =>
      respuesta v (- ENOENT) Nothing
  | Truncado ns n, Some (Some f) => v' ← paso_truncado v ns f n; respuesta v' RESPUESTA_OK Nothing
  | Lectura ns len off, Some (Some f) => paso_lectura v ns f len off
  | Escritura ns buf off, Some (Some f) => paso_escritura v ns f buf off
  | _, _ => None
  end.

Definition paso v (p : peticion) : option (Z * contents * volume) :=
  if bool_decide (request_ok p) then paso_ok v p else None.

Fixpoint pasos v (ps : list peticion) : option (list (Z * contents) * volume) :=
  match ps with
  | [] => Some ([], v)
  | p :: ps => '(status, c, v') ← paso v p; '(l, v'') ← pasos v' ps; Some ((status, c) :: l, v'')
  end.

(** ** The tests decide what they test *)

Lemma avoidsb_ok fs f ns : forall n, avoidsb fs f n ns = true -> avoids fs f n ns.
Proof.
  induction ns as [|nm ns IH]; intros n; cbn [avoidsb]; intros [Hn Hns]%andb_prop;
    apply negb_true_iff, Z.eqb_neq in Hn; intros [|nm' ns1] ns2 E; cbn [tree_walk]; try congruence; [done|].
  injection E as -> E. destruct (fs !! n) as [[st bs ind| |]|]; [|done..].
  destruct (dir_find nm' (entries_of bs)) as [k|]; [|done]. by apply (IH k Hns ns1 ns2).
Qed.

Lemma one_linkb_ok fs d f nm : one_linkb fs d f nm = true -> one_link fs d f nm.
Proof.
  intros Hall n st bs ind e Hnf Hn He Hf. unfold one_linkb in Hall. rewrite forallb_forall in Hall.
  specialize (Hall (n, Dir st bs ind) ltac:(by apply list_elem_of_In, elem_of_map_to_list)).
  apply orb_true_iff in Hall as [E|E]; cbn [fst snd] in *.
  - by apply Z.eqb_eq in E.
  - cbn [links_ok] in E. rewrite forallb_forall in E. specialize (E e ltac:(by apply list_elem_of_In)).
    apply orb_true_iff in E as [E|[En%Z.eqb_eq Enm%bool_decide_eq_true]%andb_prop]; [|done].
    apply negb_true_iff, Z.eqb_neq in E. congruence.
Qed.

Lemma entry_split_ok nm l l1 t l2 : entry_split nm l = Some (l1, t, l2) -> l = l1 ++ t :: l2 /\ de_name t = nm.
Proof.
  revert l1. induction l as [|d l IH]; intros l1; [done|]. cbn [entry_split]. case_bool_decide as Hd; [by intros [= <- <- <-]|].
  destruct (entry_split nm l) as [[[l1' t'] l2']|]; [|done]. intros [= <- <- <-].
  by destruct (IH l1' eq_refl) as [-> Ht].
Qed.

(** What [spot_of] finds can be taken out. *)
Record spot_ok fs ns nm e : Prop := {
  so_name : sp_name e = nm;
  so_parent : tree_walk fs ROOT_INODE_NUMBER ns = Some (Some (sp_dir e));
  so_dir : fs !! sp_dir e = Some (Dir (sp_stat e) (sp_blocks e) (sp_indirect e));
  so_avoids : avoids fs (sp_inode e) ROOT_INODE_NUMBER ns;
  so_used : sp_inode e <> 0;
  so_others : sp_name e ∉ de_name <$> (sp_first e :: sp_before e ++ sp_after e) ++ entries_of (sp_rest e);
  so_one_link : one_link fs (sp_dir e) (sp_inode e) (sp_name e);
  so_apart : copies_apart e = true
}.

Lemma spot_of_ok fs ns nm e : spot_of fs ns nm = Some e -> spot_ok fs ns nm e.
Proof.
  unfold spot_of. destruct (tree_walk fs ROOT_INODE_NUMBER ns) as [[d|]|] eqn:Ew; [|done..].
  destruct (fs !! d) as [[st [|[b [|first es]] rest] ind| |]|] eqn:Ed; [done..| |done|done|done].
  destruct (entry_split nm es) as [[[l1 t] l2]|] eqn:Es; [|done]. apply entry_split_ok in Es as [-> Hnm].
  case_match eqn:Et; [|done]. intros [= <-].
  apply andb_prop in Et as [[[[Hav Hz]%andb_prop Ho%bool_decide_eq_true]%andb_prop Hone]%andb_prop Hap].
  apply negb_true_iff, Z.eqb_neq in Hz. rewrite <- Hnm in Ho, Hone.
  split; unfold sp_name, sp_inode, sp_blocks; cbn; try done; [by apply avoidsb_ok|by apply one_linkb_ok].
Qed.
End Spec.
