(* ===== verification/Data.v ===== *)
(** * Data: the bytes of the files, and the server's cache

    An image and a cache that have what a volume says of bytes: the known
    bytes of every file, and in the cache nothing but blocks of files, under
    paths that were used and that lead to them.  Each request of [Volume] keeps
    this. *)

From S2P Require Import Prelude Memory Bitarray Ext2 Ext2Facts CString Paths Rfs ActiveFiles Alloc AllocFacts InodeAlloc BlockMap Dirs DirFacts Walk FileOps Serial Requests SerialFacts Lookups Tree TreeSteps Enters Creates Mkdirs Removes Deletes Rmdirs Reads Writes Truncates Contents Volume.

(** ** Bytes that are put *)

Lemma put_bytes_lookup f o l M f' o' :
  put_bytes f o l M !! (f', o') =
    if decide (f' = f /\ o <= o' < o + zlen l) then l !! Z.to_nat (o' - o) else M !! (f', o').
Proof.
  revert o. induction l as [|x l IH]; intros o; cbn [put_bytes].
  - rewrite decide_False; [done|]. rewrite zlen_nil. lia.
  - rewrite zlen_cons. pose proof (zlen_nonneg l). destruct (decide ((f, o) = (f', o'))) as [[= -> ->]|Hne].
    + rewrite lookup_insert_eq, decide_True by lia. by rewrite Z.sub_diag.
    + rewrite lookup_insert_ne, IH by done. assert (~ (f = f' /\ o = o')) as Hne' by (intros [-> ->]; done).
      repeat case_decide; try done; try lia.
      replace (Z.to_nat (o' - o)) with (S (Z.to_nat (o' - (o + 1)))) by lia. done.
Qed.

Lemma put_bytes_all f off l M : mapM (fun o => put_bytes f off l M !! (f, o)) (seqZ off (zlen l)) = Some l.
Proof.
  apply mapM_Some_2, Forall2_same_length_lookup. pose proof (zlen_nonneg l). split.
  - rewrite length_seqZ. unfold zlen. lia.
  - intros k o x [-> Hk]%lookup_seqZ Hx. rewrite put_bytes_lookup, decide_True by lia.
    by replace (Z.to_nat (off + Z.of_nat k - off)) with k by lia.
Qed.

Lemma abs_path_injective ns ns' : Forall name_ok ns -> Forall name_ok ns' -> abs_path ns = abs_path ns' -> ns = ns'.
Proof. intros H H' E. by rewrite <- (string_split_abs_path ns), <- (string_split_abs_path ns'), E. Qed.

Lemma forallb_elem {A} (P : A -> bool) l x : forallb P l = true -> x ∈ l -> P x = true.
Proof. rewrite forallb_forall. intros Hl Hx. by apply Hl, list_elem_of_In. Qed.

Lemma add_seen_elem ns ns' l : ns' ∈ add_seen ns l <-> ns' = ns \/ ns' ∈ l.
Proof. unfold add_seen. case_decide; rewrite ?elem_of_cons; naive_solver. Qed.

Section Data.
Context {Super_constants : Superblock_constants} {SO : Superblock_ok} {AB : Abi}.
Context {C : Type} `{Memcached C}.
Implicit Types (m : mem) (fs : gmap Z node) (v : volume) (f b n o : Z) (bl : list Z) (ns : list (list Z)).

(** The block [k] of the file that [ns] leads to. *)
Definition block_of_path fs ns (k b : Z) : Prop :=
  exists f st bl, tree_walk fs ROOT_INODE_NUMBER ns = Some (Some f) /\ fs !! f = Some (File st bl []) /\ bl !! Z.to_nat k = Some b.

Record holds_data m (c : C) v : Prop := {
  hd_bytes : forall f o x, v_bytes v !! (f, o) = Some x ->
    exists st bl, v_tree v !! f = Some (File st bl []) /\ 0 <= o < i_size st /\ tree_byte m bl o = Some x;
  hd_cache : forall p k l, 0 <= k < 2 ^ 32 -> cached c (generate_key p k) = Some l ->
    exists ns b, p = abs_path ns /\ ns ∈ v_seen v /\ Forall name_ok ns /\ block_of_path (v_tree v) ns k b /\
      l = read_bytes m (block_addr b) BLOCK_SIZE
}.

Lemma sole_ok v ns f ns' :
  sole v ns f = true -> ns' ∈ v_seen v -> tree_walk (v_tree v) ROOT_INODE_NUMBER ns' = Some (Some f) -> ns' = ns.
Proof.
  intros Hs Hin Hw. pose proof (forallb_elem _ _ _ Hs Hin) as E. apply orb_prop in E as [E|E].
  - by apply bool_decide_eq_true in E.
  - apply negb_true_iff, bool_decide_eq_false in E. congruence.
Qed.

Lemma steady_ok v v' ns :
  steady v v' = true -> ns ∈ v_seen v' ->
  tree_walk (v_tree v') ROOT_INODE_NUMBER ns = tree_walk (v_tree v) ROOT_INODE_NUMBER ns.
Proof. intros Hs Hin. pose proof (forallb_elem _ _ _ Hs Hin) as E. by apply bool_decide_eq_true in E. Qed.

(** What the cache has at a path that leads to a file. *)
Lemma data_cached m (c : C) v ns f st bl :
  holds_data m c v -> Forall name_ok ns -> tree_walk (v_tree v) ROOT_INODE_NUMBER ns = Some (Some f) ->
  v_tree v !! f = Some (File st bl []) -> cached_blocks m c (abs_path ns) bl.
Proof.
  intros Hd Hns Hw Hf k l Hk Hl. destruct (hd_cache _ _ _ Hd _ _ _ Hk Hl) as (ns' & b & Hp & _ & Hns' & Hb & ->).
  apply abs_path_injective in Hp as <-; [|done..]. destruct Hb as (f' & st' & bl' & Hw' & Hf' & Hb). rewrite Hw' in Hw. injection Hw as ->.
  rewrite Hf' in Hf. injection Hf as -> ->. by exists b.
Qed.

(** ** A change of names *)

(** The bytes of the files stay. *)
Definition same_data m m' fs : Prop :=
  forall f st bl b x, fs !! f = Some (File st bl []) -> b ∈ bl -> in_block b x -> m' x = m x.

Lemma tree_byte_same m m' bl o : (forall b x, b ∈ bl -> in_block b x -> m' x = m x) -> tree_byte m' bl o = tree_byte m bl o.
Proof.
  intros Hx. unfold tree_byte. destruct (block_at bl o) as [b|] eqn:E; [|done]. cbn. f_equal.
  apply (Hx b); [by eapply list_elem_of_lookup_2|]. pose proof (Z.mod_pos_bound o BLOCK_SIZE block_size_pos). unfold in_block. lia.
Qed.

Lemma same_data_block m m' fs ns k b :
  same_data m m' fs -> block_of_path fs ns k b -> read_bytes m' (block_addr b) BLOCK_SIZE = read_bytes m (block_addr b) BLOCK_SIZE.
Proof.
  intros Hs (f & st & bl & _ & Hf & Hb). apply read_bytes_same. intros x Hx.
  apply (Hs f st bl b); [done| |done]. by eapply list_elem_of_lookup_2.
Qed.

(** Files are kept, but one whose bytes and cached blocks go. *)
Lemma data_kept m m' (c c' : C) v v' :
  holds_data m c v -> same_data m m' (v_tree v) -> (forall key : list Z, kept (cached c' key) (cached c key)) -> steady v v' = true ->
  (forall f o x, v_bytes v' !! (f, o) = Some x -> v_bytes v !! (f, o) = Some x /\
     forall st bl, v_tree v !! f = Some (File st bl []) -> v_tree v' !! f = Some (File st bl [])) ->
  (forall ns k b, ns ∈ v_seen v -> 0 <= k -> block_of_path (v_tree v) ns k b ->
     cached c' (generate_key (abs_path ns) k) = None \/
     ns ∈ v_seen v' /\ forall f st bl, tree_walk (v_tree v) ROOT_INODE_NUMBER ns = Some (Some f) ->
       v_tree v !! f = Some (File st bl []) -> v_tree v' !! f = Some (File st bl [])) ->
  holds_data m' c' v'.
Proof.
  intros [Hb Hc] Hs Hk Hst Hbytes Hcache. split.
  - intros f o x Hx. destruct (Hbytes f o x Hx) as [Hx' Hf']. destruct (Hb f o x Hx') as (st & bl & Hf & Ho & Ht).
    exists st, bl. split_and!; [by apply Hf'|lia..|]. rewrite <- Ht. apply tree_byte_same. intros b y. by apply (Hs f st bl b y).
  - intros p k l Hkr Hl. destruct (Hk (generate_key p k)) as [E|E]; [|congruence]. rewrite E in Hl.
    destruct (Hc p k l Hkr Hl) as (ns & b & -> & Hin & Hns & Hbp & ->).
    destruct (Hcache ns k b Hin ltac:(lia) Hbp) as [Hnone|[Hin' Hf']]; [congruence|].
    exists ns, b. split_and!; try done; [|by rewrite (same_data_block m m' (v_tree v) ns k b)].
    destruct Hbp as (f & st & bl & Hw & Hf & Hbk). exists f, st, bl. split_and!; [|by eapply Hf'|done].
    by rewrite (steady_ok v v').
Qed.

(** The bytes of the files are apart from the system's bytes, an inode and
    blocks of no file. *)
Lemma data_frame m m' fs n (l : list Z) :
  holds m fs -> 1 <= n <= TOTAL_GROUPS * INODES_PER_GROUP ->
  (forall b, b ∈ l -> data_place m b /\ forall f st bl, fs !! f = Some (File st bl []) -> b ∉ bl) ->
  (forall x, ~ control m x -> (forall b, b ∈ l -> ~ in_block b x) -> ~ in_inode (inode_place m n) x -> m' x = m x) ->
  same_data m m' fs.
Proof.
  intros Hh Hn Hl X f st bl b x Hf Hb Hx.
  assert (taken_block m b) as Htb by (apply (ho_taken _ _ Hh f _ b Hf); cbn; by rewrite app_nil_r).
  apply X.
  - intros Hc. apply (tb_data _ _ Htb x Hx). by apply control_system.
  - intros b' Hb'. destruct (Hl b' Hb') as [Hpl Hno].
    apply (places_disjoint m b b'); [by apply taken_place|done| |done]. intros ->. by apply (Hno f st bl).
  - intros Hi. by apply (place_not_taken m fs n b x Hh Hn (taken_place _ _ Htb) Hi).
Qed.

(** Blocks of a directory are blocks of no file. *)
Lemma dir_block_no_file m fs d st bs ind b :
  holds m fs -> tree_ok fs -> fs !! d = Some (Dir st bs ind) -> b ∈ bs.*1 ->
  data_place m b /\ forall f st' bl, fs !! f = Some (File st' bl []) -> b ∉ bl.
Proof.
  intros Hh Hok Hd Hb. assert (b ∈ node_blocks (Dir st bs ind)) as Hbn by (apply elem_of_app; by left). split.
  - by apply taken_place, (ho_taken _ _ Hh d _ b Hd).
  - intros f st' bl Hf Hin. apply (to_apart fs Hok d f _ _ b Hd Hf); [congruence|done|]. cbn. by rewrite app_nil_r.
Qed.

Lemma free_block_no_file m fs b :
  holds m fs -> free_ok m -> b ∈ free_blocks m ->
  data_place m b /\ forall f st' bl, fs !! f = Some (File st' bl []) -> b ∉ bl.
Proof.
  intros Hh Hfo Hb. split; [by apply Hfo|]. intros f st' bl Hf Hin.
  apply (tb_used _ _ (ho_taken _ _ Hh f _ b Hf ltac:(cbn; by rewrite app_nil_r)) Hb).
Qed.

Lemma data_named m m' (c : C) v v' :
  holds_data m c v -> same_data m m' (v_tree v) -> steady v v' = true -> v_bytes v' = v_bytes v -> v_seen v' = v_seen v ->
  (forall f st bl, v_tree v !! f = Some (File st bl []) -> v_tree v' !! f = Some (File st bl [])) -> holds_data m' c v'.
Proof.
  intros Hd Hs Hst Eb Es Hf. apply (data_kept m m' c c v v'); try done.
  - intros key. by left.
  - intros f o x. rewrite Eb. auto.
  - intros ns k b Hin _ _. right. rewrite Es. auto.
Qed.

(** An entry is taken out with what it names: the inode [n] that only the
    path [ns] leads to, of those that were used. *)
Lemma data_removed `{!MemcachedLaws C} m m' c c' v v' ns n :
  holds_data m c v -> same_data m m' (v_tree v) -> steady v v' = true ->
  (forall st bl, v_tree v !! n = Some (File st bl []) -> sole v ns n = true) ->
  tree_walk (v_tree v) ROOT_INODE_NUMBER ns = Some (Some n) ->
  v_bytes v' = filter (fun p => p.1.1 <> n) (v_bytes v) -> v_seen v' = filter (fun ns' => ns' <> ns) (v_seen v) ->
  (forall f st bl, f <> n -> v_tree v !! f = Some (File st bl []) -> v_tree v' !! f = Some (File st bl [])) ->
  (forall key, kept (cached c' key) (cached c key)) ->
  (forall st bl k, v_tree v !! n = Some (File st bl []) -> 0 <= k < zlen bl -> cached c' (generate_key (abs_path ns) k) = None) ->
  holds_data m' c' v'.
Proof.
  intros Hd Hs Hst Hsole Hw Eb Es Hf Hk Hgone. apply (data_kept m m' c c' v v'); try done.
  - intros f o x. rewrite Eb, map_lookup_filter_Some. intros [Hx Hne]. split; [done|]. intros st bl. by apply Hf.
  - intros ns' k b Hin Hk0 (f & st & bl & Hw' & Hf' & Hb). destruct (decide (f = n)) as [->|Hne].
    + left. rewrite (sole_ok v ns n ns' (Hsole _ _ Hf') Hin Hw'). apply (Hgone st bl); [done|]. apply lookup_lt_Some in Hb.
      unfold zlen. lia.
    + right. split.
      * rewrite Es. apply list_elem_of_filter. split; [|done]. intros ->. congruence.
      * intros f2 st2 bl2 Hw2 Hf2. apply Hf; [congruence|done].
Qed.

(** A node comes into a directory. *)
Lemma data_entered m m' (c : C) v v' d st bs bs' ind x nd (l : list Z) :
  holds m (v_tree v) -> tree_ok (v_tree v) -> holds_data m c v ->
  v_tree v !! d = Some (Dir st bs ind) -> v_tree v !! x = None -> 1 <= x <= TOTAL_GROUPS * INODES_PER_GROUP ->
  free_ok m -> (forall b, b ∈ l -> b ∈ free_blocks m) ->
  v_tree v' = create_in (v_tree v) d x st bs' ind nd -> v_bytes v' = v_bytes v -> v_seen v' = v_seen v -> steady v v' = true ->
  (forall y, ~ control m y -> (forall b, b ∈ l ++ bs.*1 -> ~ in_block b y) -> ~ in_inode (inode_place m x) y -> m' y = m y) ->
  holds_data m' c v'.
Proof.
  intros Hh Hok Hdata Hd Hx Hr Hfo Hl Et Eb Es Hst X. apply (data_named m m' c v v'); try done.
  - apply (data_frame m m' (v_tree v) x (l ++ bs.*1)); try done.
    intros b [Hb|Hb]%elem_of_app; [by apply free_block_no_file, Hl|by eapply dir_block_no_file].
  - intros f st' bl Hf. rewrite Et, (create_in_keeps _ _ _ _ bs _ _ _ f (File st' bl [])) by done.
    rewrite decide_False by congruence. done.
Qed.

(** An entry leaves its directory. *)
Lemma file_not_spot fs e f st bl :
  fs !! sp_dir e = Some (Dir (sp_stat e) (sp_blocks e) (sp_indirect e)) -> fs !! f = Some (File st bl []) ->
  unlink fs e !! f = Some (File st bl []) /\ (f <> sp_inode e -> without fs e !! f = Some (File st bl [])).
Proof.
  intros Hd Hf. assert (f <> sp_dir e) as Hne by congruence. split.
  - unfold unlink. by rewrite lookup_insert_ne.
  - intros Hfe. unfold without. by rewrite (delete_in_keeps _ _ _ _ _ _ f (File st bl [])), decide_False.
Qed.

(** ** A file that is read *)

Lemma data_read m (c c' : C) v ns f st bl :
  holds m (v_tree v) -> holds_data m c v -> Forall name_ok ns ->
  tree_walk (v_tree v) ROOT_INODE_NUMBER ns = Some (Some f) -> v_tree v !! f = Some (File st bl []) ->
  let i := inode_place m f in zlen bl <= 12 -> coherent m c' (abs_path ns) i ->
  kept_but (abs_path ns) (Size_In_Blocks (Inode.size m i)) c c' ->
  holds_data m c' {| v_tree := v_tree v; v_inodes := v_inodes v; v_blocks := v_blocks v; v_bytes := v_bytes v;
                     v_seen := add_seen ns (v_seen v) |}.
Proof.
  intros Hh Hd Hns Hw Hf i Hfew Hco Hk. pose proof (data_cached _ _ _ _ _ _ _ Hd Hns Hw Hf) as Hc.
  destruct (ho_node _ _ Hh f _ Hf) as [_ Hat]. unfold coherent in Hco. fold i in Hat.
  rewrite <- (fa_blocks _ _ _ _ Hat) in Hco, Hk.
  pose proof (coherent_blocks m m (v_tree v) f bl [] c c' (abs_path ns) bl (fitted_refl _ _ _ _ _ Hh Hf Hfew) Hfew Hco Hk Hc
    ltac:(done)) as Hc'.
  split; cbn [v_tree v_bytes v_seen]; [apply Hd|]. intros p k l Hkr Hl.
  destruct (decide (p = abs_path ns)) as [->|Hp].
  - destruct (Hc' k l Hkr Hl) as (b & Hb & ->). exists ns, b. split_and!; try done; [apply add_seen_elem; by left|].
    by exists f, st, bl.
  - destruct (Hk (generate_key p k)) as [E|E]; [|rewrite E in Hl|congruence].
    + intros k' Hk' E. apply Hp. apply generate_key_injective in E as [? _]; [done|lia|]. unfold zlen in *. lia.
    + destruct (hd_cache _ _ _ Hd p k l Hkr Hl) as (ns' & b & H1 & H2 & H3). exists ns', b.
      split_and!; try done; [apply add_seen_elem; by right|apply H3..].
Qed.

Lemma coherent_from m (c : C) fs f st bl p :
  holds m fs -> fs !! f = Some (File st bl []) -> zlen bl <= 12 -> cached_blocks m c p bl ->
  coherent m c p (inode_place m f).
Proof.
  intros Hh Hf Hfew Hc k l Hk Hl. destruct (ho_node _ _ Hh f _ Hf) as [_ Hat]. rewrite <- (fa_blocks _ _ _ _ Hat) in Hk.
  destruct (Hc k l ltac:(lia) Hl) as (b & Hb & ->).
  pose proof (fitted_pointer _ _ _ _ _ _ (fitted_refl _ _ _ _ _ Hh Hf Hfew) Hfew _ _ Hb) as E. rewrite Z2Nat.id in E by lia.
  unfold file_block. by rewrite E.
Qed.

(** The known bytes are those of the file. *)
Lemma known_contents m (c : C) v f st bl off n l :
  holds m (v_tree v) -> holds_data m c v -> v_tree v !! f = Some (File st bl []) -> zlen bl <= 12 ->
  known v f off n = Some l -> Reads.contents m (inode_place m f) off n = l.
Proof.
  intros Hh Hd Hf Hfew Hl. unfold known in Hl. apply mapM_Some_1 in Hl. unfold Reads.contents.
  destruct (ho_node _ _ Hh f _ Hf) as [[_ _ Esz] Hat]. change (node_stat (File st bl [])) with st in Esz.
  induction Hl as [|o x os xs Hx Hl IH]; [done|]. cbn [fmap list_fmap]. f_equal; [|exact IH].
  destruct (hd_bytes _ _ _ Hd f o x Hx) as (st2 & bl2 & Hf2 & Ho & Hbt). rewrite Hf in Hf2. injection Hf2 as <- <-.
  assert (i_size st < 2 ^ 31) by (rewrite <- Esz; apply s32_range).
  pose proof (Size_In_Blocks_bounds (i_size st) ltac:(lia)) as [Hb _]. rewrite <- Esz, <- (fa_blocks _ _ _ _ Hat), Esz in Hb.
  rewrite (fitted_byte _ _ _ _ _ _ o (fitted_refl _ _ _ _ _ Hh Hf Hfew) Hfew) in Hbt by lia. by injection Hbt.
Qed.

(** ** A file that is written or resized *)

Lemma other_file_kept m m' fs f st bl bl' n :
  holds m fs -> tree_ok (truncated fs f st bl' n) -> (forall b, b ∈ bl' -> data_place m b) ->
  fs !! f = Some (File st bl []) ->
  (forall x, ~ control m x -> ~ in_inode (inode_place m f) x -> (forall b, b ∈ bl' -> ~ in_block b x) -> m' x = m x) ->
  same_data m m' (delete f fs).
Proof.
  intros Hh Hok Hpl Hf X f2 st2 bl2 b x Hf2 Hb Hx. apply lookup_delete_Some in Hf2 as [Hne Hf2].
  assert (taken_block m b) as Htb by (apply (ho_taken _ _ Hh f2 _ b Hf2); cbn; by rewrite app_nil_r).
  apply X.
  - intros Hc. apply (tb_data _ _ Htb x Hx). by apply control_system.
  - intros Hi. by apply (place_not_taken m fs f b x Hh (ho_number _ _ Hh f _ Hf) (taken_place _ _ Htb) Hi).
  - intros b' Hb'. apply (places_disjoint m b b'); [by apply taken_place|by apply Hpl| |done].
    intros ->. apply (to_apart _ Hok f f2 (File (with_size n st) bl' []) (File st2 bl2 []) b').
    + apply lookup_insert_eq.
    + unfold truncated. by rewrite lookup_insert_ne.
    + done.
    + cbn. by rewrite app_nil_r.
    + cbn. by rewrite app_nil_r.
Qed.

Lemma data_changed m m' (c c' : C) v v' ns f st bl bl' n :
  holds_data m c v -> Forall name_ok ns -> tree_walk (v_tree v) ROOT_INODE_NUMBER ns = Some (Some f) ->
  v_tree v !! f = Some (File st bl []) -> v_tree v' = truncated (v_tree v) f st bl' n -> sole v ns f = true ->
  (forall ns', ns' ∈ v_seen v -> ns' ∈ v_seen v') -> same_data m m' (delete f (v_tree v)) ->
  (forall key, (forall k, 0 <= k < 2 ^ 32 -> key <> generate_key (abs_path ns) k) -> kept (cached c' key) (cached c key)) ->
  cached_blocks m' c' (abs_path ns) bl' ->
  (forall k l, 0 <= k < 2 ^ 32 -> cached c' (generate_key (abs_path ns) k) = Some l -> ns ∈ v_seen v') ->
  (forall f' o x, v_bytes v' !! (f', o) = Some x ->
     f' <> f /\ v_bytes v !! (f', o) = Some x \/ f' = f /\ 0 <= o < n /\ tree_byte m' bl' o = Some x) ->
  holds_data m' c' v'.
Proof.
  intros Hd Hns Hw Hf Ht' Hsole Hseen Hs Hk Hc' Hin' Hb. split; rewrite Ht'.
  - intros f' o x Hx. destruct (Hb f' o x Hx) as [[Hne Hx']|(-> & Ho & Hx')].
    + destruct (hd_bytes _ _ _ Hd f' o x Hx') as (st2 & bl2 & Hf2 & Ho & Hbt). exists st2, bl2.
      split_and!; [unfold truncated; by rewrite lookup_insert_ne|lia..|]. rewrite <- Hbt. apply tree_byte_same.
      intros b y Hb2. apply (Hs f' st2 bl2 b y); [by rewrite lookup_delete_ne|done].
    + exists (with_size n st), bl'. split_and!; [apply lookup_insert_eq|lia|cbn; lia|done].
  - intros p k l Hkr Hl. destruct (decide (p = abs_path ns)) as [->|Hp].
    + destruct (Hc' k l Hkr Hl) as (b & Hbk & ->). exists ns, b. split_and!; try done; [by eapply Hin'|].
      exists f, (with_size n st), bl'. split_and!; [by rewrite (walk_truncated _ f st bl)|apply lookup_insert_eq|done].
    + destruct (Hk (generate_key p k)) as [E|E]; [|rewrite E in Hl|congruence].
      { intros k' Hk' E. apply Hp. by apply generate_key_injective in E as [? _]. }
      destruct (hd_cache _ _ _ Hd p k l Hkr Hl) as (ns' & b & -> & Hin & Hns' & Hbp & ->). exists ns', b.
      destruct Hbp as (f2 & st2 & bl2 & Hw2 & Hf2 & Hbk).
      assert (f2 <> f) as Hne by (intros ->; apply Hp; f_equal; by apply (sole_ok v ns f)).
      split_and!; try done; [by apply Hseen| |].
      * exists f2, st2, bl2. split_and!; [by rewrite (walk_truncated _ f st bl)|unfold truncated; by rewrite lookup_insert_ne|done].
      * symmetry. apply read_bytes_same. intros x Hx. apply (Hs f2 st2 bl2 b); [by rewrite lookup_delete_ne| |done].
        by eapply list_elem_of_lookup_2.
Qed.

(** ** A file at another size *)

Lemma fit_block bl free k j b : 0 <= j < k -> bl !! Z.to_nat j = Some b -> fit bl free k !! Z.to_nat j = Some b.
Proof.
  intros Hj Hb. pose proof (lookup_lt_Some _ _ _ Hb). unfold fit. rewrite lookup_app_l by (rewrite length_take; lia).
  by rewrite lookup_take_lt by lia.
Qed.

Lemma data_truncated `{!MemcachedLaws C} m m' c v v' ns f st bl n :
  let free := free_blocks m in let k := Size_In_Blocks n in let bl' := fit bl free k in
  let c' := uncache (abs_path ns) k (length bl - Z.to_nat k) c in
  holds m (v_tree v) -> free_ok m -> holds_data m c v -> Forall name_ok ns ->
  tree_walk (v_tree v) ROOT_INODE_NUMBER ns = Some (Some f) -> v_tree v !! f = Some (File st bl []) -> 0 <= n < 2 ^ 31 ->
  v_tree v' = truncated (v_tree v) f st bl' n -> tree_ok (v_tree v') -> sole v ns f = true ->
  v_seen v' = v_seen v -> v_bytes v' = filter (fun p => p.1.1 = f -> p.1.2 < n) (v_bytes v) ->
  (forall x, ~ control m x -> ~ in_inode (inode_place m f) x ->
     (forall b, b ∈ take (Z.to_nat (k - zlen bl)) free -> ~ in_block b x) -> m' x = m x) ->
  holds_data m' c' v'.
Proof.
  intros free k bl' c' Hh Hfo Hd Hns Hw Hf Hn Et Hok' Hsole Es Eb X.
  pose proof (data_cached _ _ _ _ _ _ _ Hd Hns Hw Hf) as Hc. pose proof (Size_In_Blocks_bounds n ltac:(lia)) as [Hk Hk0]. fold k in Hk, Hk0.
  assert (forall b, b ∈ bl -> taken_block m b) as Htb by (intros b Hb; apply (ho_taken _ _ Hh f _ b Hf); cbn; by rewrite app_nil_r).
  assert (forall b x, b ∈ bl -> in_block b x -> m' x = m x) as Hown.
  { intros b x Hb Hx. apply X.
    - intros Hct. apply (tb_data _ _ (Htb b Hb) x Hx). by apply control_system.
    - intros Hi. by apply (place_not_taken m (v_tree v) f b x Hh (ho_number _ _ Hh f _ Hf) (taken_place _ _ (Htb b Hb)) Hi).
    - intros b' Hb'%subseteq_take. apply (places_disjoint m b b'); [by apply taken_place, Htb|by apply Hfo| |done].
      intros ->. by apply (tb_used _ _ (Htb b' Hb)). }
  assert (forall j l, 0 <= j < 2 ^ 32 -> cached c' (generate_key (abs_path ns) j) = Some l ->
            cached c (generate_key (abs_path ns) j) = Some l) as Hcc.
  { intros j l Hj Hl. destruct (uncache_others (abs_path ns) (length bl - Z.to_nat k) k c (generate_key (abs_path ns) j)) as [E|E].
    - by rewrite <- E.
    - unfold c' in Hl. congruence. }
  apply (data_changed m m' c c' v v' ns f st bl bl' n); try done; rewrite ?Es; try done.
  - apply (other_file_kept m m' (v_tree v) f st bl bl' n); try done; [by rewrite <- Et| |].
    + intros b [Hb|Hb]%fit_elem; [by apply taken_place, Htb|by apply Hfo].
    + intros x H1 H2 H3. apply X; [done..|]. intros b Hb. apply H3. apply elem_of_app. by right.
  - intros key _. apply uncache_others.
  - intros j l Hj Hl. destruct (Hc j l Hj (Hcc j l Hj Hl)) as (b & Hb & ->). exists b.
    assert (j < k) as Hjk.
    { destruct (decide (j < k)); [done|exfalso]. pose proof (lookup_lt_Some _ _ _ Hb).
      unfold c' in Hl. rewrite uncache_gone in Hl by lia. done. }
    split; [apply fit_block; [lia|done]|]. symmetry. apply read_bytes_same. intros x Hx. apply (Hown b); [|done].
    by eapply list_elem_of_lookup_2.
  - intros j l Hj Hl. destruct (hd_cache _ _ _ Hd _ j l Hj (Hcc j l Hj Hl)) as (ns' & b & E & Hin & Hns' & _).
    by apply abs_path_injective in E as ->.
  - intros f' o x. rewrite Eb, map_lookup_filter_Some. cbn [fst snd]. intros [Hx Hlt].
    destruct (decide (f' = f)) as [->|Hne]; [right|by left]. destruct (hd_bytes _ _ _ Hd f o x Hx) as (st2 & bl2 & Hf2 & Ho & Hbt).
    rewrite Hf in Hf2. injection Hf2 as <- <-. specialize (Hlt eq_refl). split_and!; [done|lia..|].
    rewrite <- (tree_byte_same m m' bl o) in Hbt by done. rewrite <- Hbt. unfold tree_byte, block_at.
    destruct (bl !! Z.to_nat (o / BLOCK_SIZE)) as [b|] eqn:Eb'; [|unfold tree_byte, block_at in Hbt; rewrite Eb' in Hbt; done].
    pose proof block_size_pos. assert (bl' !! Z.to_nat (o / BLOCK_SIZE) = Some b) as ->; [|done].
    apply fit_block; [|done]. split; [apply Z.div_pos; lia|apply Z.div_lt_upper_bound; lia].
Qed.

(** ** A file that is written *)

Lemma data_written (s : rfs C) m' (c' : C) v v' ns f st bl (l free d : list Z) size off :
  let bl' := bl ++ l in
  holds (file s) (v_tree v) -> free_ok (file s) -> holds_data (file s) (memc s) v -> Forall name_ok ns ->
  tree_walk (v_tree v) ROOT_INODE_NUMBER ns = Some (Some f) -> v_tree v !! f = Some (File st bl []) ->
  (forall b, b ∈ l -> b ∈ free_blocks (file s)) -> zlen bl' <= 12 ->
  file_written s m' c' (v_tree v) f st bl bl' free size (abs_path ns) off d ->
  v_tree v' = truncated (v_tree v) f st bl' size -> tree_ok (v_tree v') -> sole v ns f = true ->
  v_seen v' = add_seen ns (v_seen v) -> v_bytes v' = put_bytes f off d (v_bytes v) ->
  0 <= off -> off + zlen d <= size -> i_size st <= size -> holds_data m' c' v'.
Proof.
  intros bl' Hh Hfo Hd Hns Hw Hf Hl Hfew Hfw Et Hok' Hsole Es Eb Ho Hend Hsz.
  destruct Hfw as [_ _ _ _ [Hin Hout] Hc' Hk X]. destruct (ho_node _ _ Hh f _ Hf) as [[_ _ Esz] Hat].
  change (node_stat (File st bl [])) with st in Esz.
  apply (data_changed (file s) m' (memc s) c' v v' ns f st bl bl' size); try done.
  - intros ns' H1. rewrite Es. apply add_seen_elem. by right.
  - apply (other_file_kept (file s) m' (v_tree v) f st bl bl' size); try done; [by rewrite <- Et|].
    intros b [Hb|Hb]%elem_of_app; [|by apply Hfo, Hl].
    apply taken_place, (ho_taken _ _ Hh f _ b Hf). cbn. by rewrite app_nil_r.
  - intros key Hkey. apply Hk. intros b Hb. apply Hkey. lia.
  - intros k x _ _. rewrite Es. apply add_seen_elem. by left.
  - intros f' o x. rewrite Eb, put_bytes_lookup. case_decide as Hr.
    + destruct Hr as [-> Hr]. intros Hx. right. split_and!; [done|lia|lia|]. rewrite <- Hx. by apply Hin.
    + intros Hx. destruct (decide (f' = f)) as [->|Hne]; [right|by left].
      destruct (hd_bytes _ _ _ Hd f o x Hx) as (st2 & bl2 & Hf2 & Ho2 & Hbt). rewrite Hf in Hf2. injection Hf2 as <- <-.
      split_and!; [done|lia|lia|]. rewrite <- Hbt. apply Hout; [|naive_solver].
      rewrite (fa_blocks _ _ _ _ Hat), Esz. assert (i_size st < 2 ^ 31) by (rewrite <- Esz; apply s32_range).
      pose proof (Size_In_Blocks_bounds (i_size st) ltac:(lia)). lia.
Qed.
End Data.
