(* ===== verification/Sessions.v ===== *)
(** * Sessions: the server implements the volume

    A server whose image holds a volume answers every request that [paso]
    specifies with the answer of [paso], and its image then holds the volume
    of [paso]: from the bytes of the message, over the task, the operation,
    the walk, the allocators, the cache and the writes to the image, to the
    bytes of the answer.  So it does for every sequence of such requests. *)

From S2P Require Import Prelude Memory Bitarray Ext2 Ext2Facts CString Paths Rfs ActiveFiles Alloc AllocFacts InodeAlloc BlockMap Dirs DirFacts Walk FileOps Serial Requests SerialFacts Lookups Tree TreeSteps Enters Creates Mkdirs Removes Deletes Rmdirs Reads Writes Truncates Contents Volume Data.

Section Sessions.
Context {Super_constants : Superblock_constants} {SO : Superblock_ok} {WA : Word_after_array} {AB : Abi} {AO : Abi_ok}.
Context {C : Type} `{MemcachedLaws C}.
Abbreviation R := (rfs C).
Implicit Types (s : R) (m : mem) (refs : list nat) (fs : gmap Z node) (v : volume) (p : pedido) (q : peticion).

(** ** What the server serves *)

Record holds_volume m v : Prop := {
  hv_holds : holds m (v_tree v);
  hv_tree : tree_ok (v_tree v);
  hv_data : free_ok m;
  hv_inodes : free_inodes m = v_inodes v;
  hv_blocks : free_blocks m = v_blocks v
}.

(** Between two requests no file is in use. *)
Record serves s v : Prop := {
  se_table : table_ok s [];
  se_errno : errno s = 0;
  se_volume : holds_volume (file s) v;
  se_data : holds_data (file s) (memc s) v
}.

(** The message of an answer. *)
Definition answers (out : t_stream) (status : Z) (c : contents) : Prop :=
  exists payload, message out status payload /\
    match c with
    | Nothing => payload = []
    | Attributes a => deserializar_respuesta_obtener_atributos payload (zlen payload) = Ok a
    | Names l => exists text, c_string payload = Ok text /\ string_split text [hash_sign] = l
    | Read l => deserializar_respuesta_leer_archivo payload (zlen payload) = Ok {| rl_buffer := l; rl_bytes_leidos := zlen l |}
    | Count n => deserializar_respuesta_escribir_archivo payload (zlen payload) = Ok n
    end.

Lemma asked_request s ns :
  table_ok s [] -> Forall name_ok ns -> C_string (abs_path ns) -> strlen (abs_path ns) <= 40 -> asked s [] ns.
Proof.
  intros Ht Hns Hc Hl. split_and!; [split_and!|done|done]; [done| |done].
  pose proof (names_fit ns Hns). unfold strlen in Hl. change (zlen []) with 0. lia.
Qed.

(** ** From a message to its answer *)

Lemma served p (s s1 t : R) refs ns (r : operation_result_t) e body ans :
  asked s refs ns -> pedido_path p = abs_path ns -> p_path (params (task_of (C := C) p)) = abs_path ns ->
  pedido_numbers p -> payload_size p < 2 ^ 16 ->
  run (task_of p) (params (task_of p)) s = Ok (r, s1) -> restored e t s1 refs ->
  (forall res, r_path res = r_path r -> r_data res = r_data r -> r_error res = e ->
     deliver_response (task_of p) res = with_data_file res (body res)) ->
  (forall res sx, r_data res = r_data r -> r_error res = e -> file sx = file t -> body res sx = Ok (Some ans, sx)) ->
  exists req s', serializar_pedido p = Ok req /\ atender (data req) s = Ok (Some ans, s') /\
    restored 0 t s' refs.
Proof.
  intros ((Hok & Hlen & Hns) & Hc & Hl) Hp Hpp Hn Hsz Hrun Hrest Hd Hbody. pose proof (zlen_nonneg ns).
  pose proof off_t_is_size_t. pose proof size_t_size.
  destruct Hrest as (Hok1 & Ha & Hst). destruct (after_file _ _ _ Ha) as [Hf He].
  set (res := {| r_path := r_path r; r_data := r_data r; r_read_bytes := r_read_bytes r; r_error := errno s1 |}).
  destruct (with_data_file_ok (with_errno 0 s1) refs res (body res) (Some ans)) as (s' & Hrun' & Hrest');
    [by apply table_inv_errno|lia| |].
  { intros sx Hx. destruct (after_file _ _ _ Hx) as [Hfx _]. apply Hbody; [done|done|]. rewrite Hfx. exact Hf. }
  eexists _, s'. split; [apply serializar_pedido_spec; lia|]. split.
  - rewrite (atender_task p _ s); [|by rewrite Hp|done|lia|done|apply serializar_pedido_spec; lia].
    rewrite (worker_run _ s r s1); [|by rewrite Hpp|done]. rewrite Hd by done. exact Hrun'.
  - eapply restored_trans; [|exact Hrest']. by split_and!.
Qed.

(** The requests that are answered with a status. *)
Lemma status_served p (s s1 t : R) refs ns (r : operation_result_t) e k enoent :
  asked s refs ns -> pedido_path p = abs_path ns -> p_path (params (task_of (C := C) p)) = abs_path ns ->
  pedido_numbers p -> payload_size p <= 8 + zlen (abs_path ns) + 1 ->
  run (task_of p) (params (task_of p)) s = Ok (r, s1) -> restored e t s1 refs ->
  r_data r = Status k ->
  (forall res, deliver_response (task_of (C := C) p) res = with_data_file res (status_answer res enoent)) ->
  exists req out s', serializar_pedido p = Ok req /\ atender (data req) s = Ok (Some out, s') /\
    message out RESPUESTA_OK [] /\ restored 0 t s' refs.
Proof.
  intros Hask Hp Hpp Hn Hsz Hrun Hrest Hk Hd. pose proof Hask as (_ & _ & Hl). unfold strlen in Hl.
  destruct (finalizacion_message (C := C) RESPUESTA_OK) as (out & Hmes & Hfin); [unfold RESPUESTA_OK; lia|].
  destruct (served p s s1 t refs ns r e (fun res => status_answer res enoent) out) as (req & s' & G1 & G2 & G3);
    try done; [lia| |by exists req, out, s'].
  intros res sx Hr _ _. unfold status_answer. by rewrite Hr, Hk.
Qed.

(** The server answers the request and holds the volume [v'] afterwards. *)
Definition refined s q status (c : contents) v' : Prop :=
  exists req out s', serializar_pedido (pedido_of q) = Ok req /\ atender (data req) s = Ok (Some out, s') /\
    answers out status c /\ serves s' v'.

Lemma restored_serves (t s' : R) v :
  restored 0 t s' [] -> holds_volume (file t) v -> holds_data (file t) (memc t) v -> serves s' v.
Proof.
  intros (Hok & Ha & _) Hv Hd. destruct (after_file _ _ _ Ha) as [Hf He].
  assert (memc s' = memc t) as Hc by by rewrite Ha. split; [done|done|by rewrite Hf|by rewrite Hf, Hc].
Qed.

Lemma request_asked s v q :
  serves s v -> request_ok q -> asked s [] (names_of_request q) /\ pedido_numbers (pedido_of q) /\
  payload_size (pedido_of q) < 2 ^ 16 /\ pedido_path (pedido_of q) = abs_path (names_of_request q).
Proof.
  intros [Ht _ _ _] (Hns & Hc & Hl & Hn & Hsz). split_and!; [by apply asked_request|done|done|by destruct q as [[]| | | | | | | |]].
Qed.

(** The requests whose answer is a status alone. *)
Definition status_request q : Prop :=
  match q with Creacion _ _ _ _ | Borrado _ _ | Borrado_dir _ _ => True | _ => False end.

Lemma refined_status s v q (r : operation_result_t) s1 e (t' : R) k v' :
  serves s v -> request_ok q -> status_request q -> let t := task_of (pedido_of q) in
  run t (params t) s = Ok (r, s1) -> restored e t' s1 [] -> r_data r = Status k ->
  holds_volume (file t') v' -> holds_data (file t') (memc t') v' -> refined s q RESPUESTA_OK Nothing v'.
Proof.
  intros Hs Hq Hst t Hrun Hrest Hk Hv' Hd'. destruct (request_asked s v q Hs Hq) as (Hask & Hn & _ & Hp).
  pose proof mode_t_size.
  assert (exists req out s', serializar_pedido (pedido_of q) = Ok req /\ atender (data req) s = Ok (Some out, s') /\
    message out RESPUESTA_OK [] /\ restored 0 t' s' []) as (req & out & s' & G1 & G2 & G3 & G4).
  { pose proof (fun en => status_served (pedido_of q) s s1 t' [] _ r e k en Hask Hp) as Hs'.
    destruct q as [[]| | | | | | | |]; try done;
      (eapply Hs'; [done|done| |exact Hrun|exact Hrest|exact Hk|by intros res]); cbn [pedido_of payload_size names_of_request]; unfold smt; lia. }
  exists req, out, s'. split_and!; [done|done| |by apply (restored_serves t')]. by exists [].
Qed.

(** ** Creations *)

Lemma can_create_from s v es_archivo ns nm mode d st bs bs' ind x rest :
  serves s v -> request_ok (Creacion es_archivo ns nm mode) ->
  tree_walk (v_tree v) ROOT_INODE_NUMBER (ns ++ [nm]) = Some None ->
  tree_walk (v_tree v) ROOT_INODE_NUMBER ns = Some (Some d) ->
  v_tree v !! d = Some (Dir st bs ind) -> v_inodes v = x :: rest -> enter_blocks (create_entry nm x) bs = Some bs' ->
  can_create s [] (v_tree v) ns nm d st bs bs' ind x rest.
Proof.
  intros Hs Hq Hw Hwd Hd Hx Hroom. destruct (request_asked s v _ Hs Hq) as ((Hready & Hc & Hl) & _).
  pose proof Hs as [_ _ [Hh Htree _ Hi _] _]. cbn [names_of_request] in *. split; try done.
  - rewrite tree_walk_app, Hwd in Hw. cbn [tree_walk] in Hw. rewrite Hd in Hw.
    by destruct (dir_find nm (entries_of bs)).
  - by rewrite Hi.
  - assert (exists pre, abs_path (ns ++ [nm]) = pre ++ nm) as [pre E].
    { destruct ns as [|n ns]; [by exists [slash]|]. exists (dir_path (n :: ns)). by rewrite abs_path_app. }
    rewrite E in Hc, Hl. unfold strlen in Hl. rewrite zlen_app in Hl. pose proof (zlen_nonneg pre). split; [lia|].
    apply Forall_app in Hc as [_ Hc]. by apply C_string_bytes.
Qed.

Lemma creation_refined s v es_archivo ns nm mode d v' :
  serves s v -> (forall b, word_after_array [b] = 0) -> request_ok (Creacion es_archivo ns nm mode) ->
  tree_walk (v_tree v) ROOT_INODE_NUMBER (ns ++ [nm]) = Some None ->
  tree_walk (v_tree v) ROOT_INODE_NUMBER ns = Some (Some d) ->
  paso_creacion v es_archivo d nm mode = Some v' -> steady v v' = true -> refined s (Creacion es_archivo ns nm mode) RESPUESTA_OK Nothing v'.
Proof.
  intros Hs Hw Hq Hnew Hd Hpaso Hst. pose proof Hs as [_ _ [Hh Htree Hfo Hi Hb] Hdata]. revert Hpaso. unfold paso_creacion.
  destruct (v_tree v !! d) as [[st bs ind| |]|] eqn:Ed; [|done..].
  destruct (v_inodes v) as [|x rest] eqn:Ex; [done|].
  destruct (enter_blocks (create_entry nm x) bs) as [bs'|] eqn:Ebs; [|done].
  pose proof (can_create_from s v es_archivo ns nm mode d st bs bs' ind x rest Hs Hq Hnew Hd Ed Ex Ebs) as Hcc.
  destruct (can_create_facts _ _ _ _ _ _ _ _ _ _ _ _ Hcc) as (_ & _ & Hr & _ & Hx & _).
  pose proof (al_layout _ (io_alloc _ (io_ok _ (ho_inodes _ _ Hh)))) as Hlayout.
  destruct es_archivo.
  - intros [= <-]. set (q := Creacion true ns nm mode).
    destruct (create_file_run s [] (v_tree v) ns nm d st bs bs' ind x rest (params (task_of (C := C) (pedido_of q))) Hcc)
      as (m1 & m2 & m3 & s1 & Hrun & Hrest & Hcr); [done|done|].
    eapply (refined_status s v q); [done|done|done|exact Hrun|exact Hrest|done| |].
    + split; cbn [v_tree v_inodes v_blocks]; [apply Hcr|by eapply created_file_tree|by apply Hcr|apply Hcr|].
      etransitivity; [apply (cr_blocks _ _ _ _ _ _ _ _ _ _ _ _ _ _ Hcr)|done].
    + eapply (data_entered (file s) m3 (memc s) v _ d st bs bs' ind x _ []); try done; [by intros b ?%not_elem_of_nil|].
      intros y Hy Hyb Hyi. apply (cr_frame _ _ _ _ _ _ _ _ _ _ _ _ _ _ Hcr); [|done..]. intros Hm.
      apply Hy. by apply inode_metadata_control.
  - destruct (v_blocks v) as [|b restb] eqn:Eb; [done|]. destruct (Z.ltb_spec (x / INODES_PER_GROUP) TOTAL_GROUPS) as [Hg|]; [|done].
    intros [= <-]. set (q := Creacion false ns nm mode).
    destruct (create_dir_run s [] (v_tree v) ns nm d st bs bs' ind x rest b restb (params (task_of (C := C) (pedido_of q))))
      as (m' & s1 & Hrun & Hrest & [Hh' Hok'] & (Hfo' & Hi' & Hb') & _ & X); [by split|done|done|done|].
    eapply (refined_status s v q); [done|done|done|exact Hrun|exact Hrest|done|by split|].
    eapply (data_entered (file s) m' (memc s) v _ d st bs bs' ind x _ [b]); try done.
    by intros c ->%list_elem_of_singleton; rewrite Hb; left.
Qed.

Lemma resolves_from s v ns r :
  serves s v -> tree_walk (v_tree v) ROOT_INODE_NUMBER ns = Some r -> path_resolves (file s) ns (place_of (file s) r).
Proof. intros [_ _ [Hh Hok _ _ _] _] Hw. by apply (tree_path_resolves _ (v_tree v)). Qed.

(** Without change to the image. *)
Lemma refined_same s v q (r : operation_result_t) s1 e k :
  serves s v -> request_ok q -> status_request q -> let t := task_of (pedido_of q) in
  run t (params t) s = Ok (r, s1) -> restored e s s1 [] -> r_data r = Status k -> refined s q RESPUESTA_OK Nothing v.
Proof.
  intros Hs Hq Hst t Hrun Hrest Hk.
  apply (refined_status s v q r s1 e s k); try done; apply Hs.
Qed.

Lemma creation_exists s v es_archivo ns nm mode n :
  serves s v -> let q := Creacion es_archivo ns nm mode in request_ok q ->
  tree_walk (v_tree v) ROOT_INODE_NUMBER (ns ++ [nm]) = Some (Some n) -> refined s q RESPUESTA_OK Nothing v.
Proof.
  intros Hs q Hq Hw. destruct (request_asked s v q Hs Hq) as ((Hready & _) & _).
  pose proof (resolves_from s v _ _ Hs Hw) as Hres.
  destruct (create_exists s [] ns nm (params (task_of (C := C) (pedido_of q))) (inode_place (file s) n, n) Hready) as (s1 & Hrun & Hrest);
    [by destruct es_archivo|exact Hres|].
  eapply (refined_same s v q); [done|done|done| |exact Hrest|]; destruct es_archivo; done.
Qed.

Lemma creation_full s v es_archivo ns nm mode d :
  serves s v -> let q := Creacion es_archivo ns nm mode in request_ok q ->
  tree_walk (v_tree v) ROOT_INODE_NUMBER (ns ++ [nm]) = Some None ->
  tree_walk (v_tree v) ROOT_INODE_NUMBER ns = Some (Some d) -> v_inodes v = [] -> refined s q RESPUESTA_OK Nothing v.
Proof.
  intros Hs q Hq Hw Hd Hi. destruct (request_asked s v q Hs Hq) as ((Hready & _) & _).
  pose proof (resolves_from s v _ _ Hs Hw) as Hres1. pose proof (resolves_from s v _ _ Hs Hd) as Hres2.
  pose proof Hs as [_ _ [Hh _ _ Hin _] _].
  destruct (create_without_inode s [] ns nm (params (task_of (C := C) (pedido_of q)))
    (inode_place (file s) d, d) Hready) as (s1 & Hrun & Hrest);
    [by destruct es_archivo|apply Hh|exact Hres1|exact Hres2|congruence|].
  eapply (refined_same s v q); [done|done|done| |exact Hrest|]; destruct es_archivo; done.
Qed.

(** ** Deletions *)

Lemma can_unlink_from s v q ns nm e :
  serves s v -> request_ok q -> names_of_request q = ns ++ [nm] -> spot_of (v_tree v) ns nm = Some e ->
  can_unlink s [] (v_tree v) ns e /\ sp_name e = nm /\ copies_apart e = true.
Proof.
  intros Hs Hq Hn He. destruct (spot_of_ok _ _ _ _ He) as [<- Hw Hd Hav Hz Ho Hone Hap].
  destruct (request_asked s v q Hs Hq) as ((Hready & _) & _). rewrite Hn in Hready.
  pose proof Hs as [_ _ [Hh Htree _ _ _] _]. by split; [split|].
Qed.

(** An image without what the entry named, with its blocks and its inode free. *)
Lemma holds_released s m' v ns ns' e bl :
  serves s v -> can_unlink s [] (v_tree v) ns e -> holds m' (without (v_tree v) e) ->
  (free_ok (file s) -> free_ok m') -> free_blocks m' ≡ₚ bl ++ free_blocks (file s) ->
  free_inodes m' ≡ₚ sp_inode e :: free_inodes (file s) ->
  holds_volume m' (released v ns' e bl).
Proof.
  intros [_ _ [Hh Htree Hfo Hi Hb] _] Hcu Hh' Hfo' Hb' Hi'. destruct (unlinked_tree _ _ _ _ _ Hcu) as (Hok' & _).
  pose proof (io_ok _ (ho_inodes _ _ Hh')) as Hio'. pose proof (io_ok _ (ho_inodes _ _ Hh)) as Hio.
  pose proof (al_layout _ (io_alloc _ Hio')) as Hl'.
  split; cbn [released v_tree v_inodes v_blocks]; [done|done|by apply Hfo'|..]; apply increasing_unique.
  - by apply free_inodes_increasing.
  - rewrite <- Hi. apply put_back_increasing; [|by apply free_inodes_increasing].
    pose proof (free_inodes_nodup m' Hio') as Hnd. rewrite Hi' in Hnd. by apply NoDup_cons in Hnd as [? _].
  - by rewrite put_back_perm, Hi', Hi.
  - by apply free_blocks_increasing.
  - rewrite <- Hb. apply put_all_increasing; [|by apply free_blocks_increasing, al_layout, io_alloc].
    rewrite <- Hb'. by apply free_blocks_nodup.
  - by rewrite put_all_perm, Hb', Hb.
Qed.

(** ... and with its bytes gone. *)
Lemma data_released s m' (c' : C) v ns e bl :
  serves s v -> can_unlink s [] (v_tree v) ns e -> let ns' := ns ++ [sp_name e] in
  steady v (released v ns' e bl) = true ->
  (forall st bl, v_tree v !! sp_inode e = Some (File st bl []) -> sole v ns' (sp_inode e) = true) ->
  (forall key, kept (cached c' key) (cached (memc s) key)) ->
  (forall st bl k, v_tree v !! sp_inode e = Some (File st bl []) -> 0 <= k < zlen bl ->
     cached c' (generate_key (abs_path ns') k) = None) ->
  (forall x, ~ control (file s) x -> ~ in_block (sp_block e) x -> ~ in_inode (inode_place (file s) (sp_inode e)) x ->
     m' x = file s x) ->
  holds_data m' c' (released v ns' e bl).
Proof.
  intros [_ _ [Hh Htree Hfo Hi Hb] Hdata] Hcu ns' Hst Hsole Hk Hgone X.
  destruct (can_unlink_facts _ _ _ _ _ Hcu) as (Hfind & _ & _ & _ & Hr & _). destruct Hcu as [_ _ _ Hw _ Hd _ _ _].
  apply (data_removed (file s) m' (memc s) c' v _ ns' (sp_inode e)); try done.
  - apply (data_frame (file s) m' (v_tree v) (sp_inode e) [sp_block e]); try done.
    + intros b ->%list_elem_of_singleton. eapply dir_block_no_file; [done|done|exact Hd|]. by left.
    + intros x H1 H2 H3. apply X; [done| |done]. apply H2. by left.
  - unfold ns'. rewrite tree_walk_app, Hw. cbn [tree_walk]. by rewrite Hd, Hfind.
  - intros f st bl' Hne Hf. by apply file_not_spot.
Qed.

Lemma deletion_refined s v ns nm e v' :
  serves s v -> let q := Borrado ns nm in request_ok q -> spot_of (v_tree v) ns nm = Some e ->
  paso_borrado v (ns ++ [nm]) e = Some v' -> steady v v' = true -> refined s q RESPUESTA_OK Nothing v'.
Proof.
  intros Hs q Hq He Hpaso Hst. revert Hpaso Hst. destruct (can_unlink_from s v q ns nm e Hs Hq eq_refl He) as (Hcu & Hnm & Hap). unfold paso_borrado.
  destruct (v_tree v !! sp_inode e) as [[|st bl [|]|]|] eqn:Ef; [done| |done..].
  destruct (Z.leb_spec (zlen bl) 12) as [Hl|]; [|done]. destruct (sole _ _ _) eqn:Hsole; [|done]. intros [= <-] Hst. cbn [andb] in *.
  destruct (delete_file_run s [] (v_tree v) ns e st bl (params (task_of (C := C) (pedido_of q))))
    as (m' & s1 & Hrun & Hrest & Hh & Hfo & Hb & Hi & X); [by split|done|by rewrite Hnm|].
  eapply (refined_status s v q); [done|done|done|exact Hrun|exact Hrest|done|by eapply (holds_released s)|].
  rewrite <- Hnm in *. apply (data_released s); try done.
  - intros key. apply uncache_others.
  - intros st' bl' k Hf Hk. rewrite Hnm. apply uncache_gone. unfold zlen in *. rewrite Ef in Hf. injection Hf as _ ->. lia.
Qed.

Lemma dir_deletion_refined s v ns nm e v' :
  serves s v -> let q := Borrado_dir ns nm in request_ok q -> spot_of (v_tree v) ns nm = Some e ->
  paso_borrado_dir v (ns ++ [nm]) e = Some v' -> steady v v' = true -> refined s q RESPUESTA_OK Nothing v'.
Proof.
  intros Hs q Hq He Hpaso Hst. revert Hpaso Hst.
  destruct (can_unlink_from s v q ns nm e Hs Hq eq_refl He) as (Hcu & Hnm & Hap). unfold paso_borrado_dir.
  destruct (v_tree v !! sp_inode e) as [[st [|[b [|p1 [|p2 l]]] [|]] ind| |]|] eqn:Ef; try done.
  destruct (Z.eqb_spec (de_len p1) (size_of p1)) as [Hp1|]; [|done].
  set (params := params (task_of (C := C) (pedido_of q))).
  assert (p_path params = abs_path (ns ++ [sp_name e])) as Hp by by rewrite Hnm.
  assert (forall l' ind', l = l' -> ind = ind' -> can_delete_dir s [] (v_tree v) ns e st b p1 p2 l' ind') as Hcd
    by (by intros ?? <- <-; split).
  destruct l as [|d l].
  - destruct ind; [|done]. intros [= <-] Hst.
    destruct (delete_dir_run s [] (v_tree v) ns e st b p1 p2 params ltac:(by apply Hcd) Hap Hp)
      as (m' & s1 & Hrun & Hrest & Hh & Hfo & Hb & Hi & _ & X).
    eapply (refined_status s v q); [done|done|done|exact Hrun|exact Hrest|done|by eapply (holds_released s)|].
    rewrite <- Hnm in *. apply (data_released s); try done; [congruence|by left|congruence].
  - intros [= <-] Hst.
    destruct (delete_dir_refused s [] (v_tree v) ns e st b p1 p2 (d :: l) ind params ltac:(by apply Hcd) Hap ltac:(done) Hp)
      as (m' & s1 & Hrun & Hrest & Hun).
    pose proof Hs as [_ _ [Hh Htree Hfo Hi Hb] Hdata]. destruct Hun as [Hh' _ Ei Eb D T X].
    destruct (can_unlink_facts _ _ _ _ _ Hcu) as (_ & _ & _ & _ & Hr & _).
    eapply (refined_status s v q); [done|done|done|exact Hrun|exact Hrest|done| |].
    + split; cbn [v_tree v_inodes v_blocks file with_file]; [done|by eapply unlink_ok| |congruence|congruence].
      apply (free_ok_same (file s)); [done|done|]. intros c. rewrite Eb. apply Hfo.
    + pose proof (cu_dir _ _ _ _ _ Hcu) as Hd. apply (data_named (file s) m' _ v); try done.
      * apply (data_frame (file s) m' (v_tree v) (sp_inode e) [sp_block e]); try done.
        -- intros c ->%list_elem_of_singleton. eapply dir_block_no_file; [done|done|exact Hd|]. by left.
        -- intros x _ H2 _. apply X, H2. by left.
      * intros f st' bl Hf. by apply file_not_spot.
Qed.

Lemma missing_refined s v q r :
  serves s v -> request_ok q -> (exists ns nm, q = Borrado ns nm \/ q = Borrado_dir ns nm) -> r = v ->
  tree_walk (v_tree v) ROOT_INODE_NUMBER (names_of_request q) = Some None -> refined s q RESPUESTA_OK Nothing r.
Proof.
  intros Hs Hq (ns & nm & Hqq) -> Hw. destruct (request_asked s v q Hs Hq) as ((Hready & _) & _).
  pose proof (resolves_from s v _ _ Hs Hw) as Hres. destruct Hqq as [-> | ->].
  - destruct (delete_file_missing s [] (ns ++ [nm]) (params (task_of (C := C) (pedido_of (Borrado ns nm)))) Hready Hres)
      as (s1 & Hrun & Hrest); [done|]. by eapply (refined_same s v (Borrado ns nm)).
  - destruct (delete_dir_missing s [] (ns ++ [nm]) (params (task_of (C := C) (pedido_of (Borrado_dir ns nm)))) Hready Hres)
      as (s1 & Hrun & Hrest); [done|]. by eapply (refined_same s v (Borrado_dir ns nm)).
Qed.

(** ** Lookups *)

Lemma lookup_served s s' v : serves s v -> restored 0 s s' [] -> serves s' v.
Proof. intros [_ _ Hv Hd] Hr. by apply (restored_serves s). Qed.

Lemma opening_refined s v ns r :
  serves s v -> request_ok (Apertura ns) -> tree_walk (v_tree v) ROOT_INODE_NUMBER ns = Some r ->
  refined s (Apertura ns) (match r with Some _ => RESPUESTA_OK | None => - ENOENT end) Nothing v.
Proof.
  intros Hs Hq Hw. destruct (request_asked s v _ Hs Hq) as (Hask & _). pose proof (resolves_from s v _ _ Hs Hw) as Hres.
  destruct (open_served s [] ns _ Hask (se_errno _ _ Hs) Hres) as (req & out & s' & G1 & G2 & G3 & G4).
  exists req, out, s'. split_and!; [done|done| |by eapply lookup_served]. exists []. by destruct r.
Qed.

Lemma attributes_refined s v ns r :
  serves s v -> request_ok (Atributos ns) -> tree_walk (v_tree v) ROOT_INODE_NUMBER ns = Some r ->
  match r with
  | Some n => forall nd, v_tree v !! n = Some nd ->
      refined s (Atributos ns) RESPUESTA_OK (stat_answer n (node_stat nd)) v
  | None => refined s (Atributos ns) (- ENOENT) Nothing v
  end.
Proof.
  intros Hs Hq Hw. destruct (request_asked s v _ Hs Hq) as (Hask & _). pose proof (resolves_from s v _ _ Hs Hw) as Hres.
  pose proof Hs as [_ _ [Hh _ _ _ _] _].
  destruct (stat_served s [] ns _ Hask (al_mem _ (io_alloc _ (io_ok _ (ho_inodes _ _ Hh)))) Hres)
    as (req & out & s' & G1 & G2 & G3 & G4).
  destruct r as [n|]; cbn in G4.
  - intros nd Hn. destruct (ho_node _ _ Hh n nd Hn) as [[E1 E2 E3] _]. destruct G4 as (payload & Hmes & Hdes).
    exists req, out, s'. split_and!; [done|done| |by eapply lookup_served]. exists payload. split; [done|].
    unfold stat_answer. by rewrite <- E1, <- E2, <- E3.
  - exists req, out, s'. split_and!; [done|done| |by eapply lookup_served]. by exists [].
Qed.

Lemma listing_refined s v ns r :
  serves s v -> request_ok (Listado ns) -> tree_walk (v_tree v) ROOT_INODE_NUMBER ns = Some r ->
  match r with
  | Some n => forall st bs ind, v_tree v !! n = Some (Dir st bs ind) -> listable (names_in bs) ->
      refined s (Listado ns) RESPUESTA_OK (Names (names_in bs)) v
  | None => refined s (Listado ns) (- ENOENT) Nothing v
  end.
Proof.
  intros Hs Hq Hw. destruct (request_asked s v _ Hs Hq) as (Hask & _). pose proof (resolves_from s v _ _ Hs Hw) as Hres.
  pose proof Hs as [_ _ [Hh _ _ _ _] _]. destruct r as [n|].
  - intros st bs ind Hn (H1 & H2 & H3 & H4). destruct (ho_node _ _ Hh n _ Hn) as [_ Hd].
    pose proof (names_used (file s) bs (da_blocks _ _ _ _ Hd)) as Hnames.
    destruct (listing_served s [] ns (inode_place (file s) n) n (used_in bs) (names_in bs) Hask Hres)
      as (req & out & payload & text & s' & G1 & G2 & G3 & G4 & G5 & G6); try done; [apply Hd|by apply (holds_directory _ _ _ _ _ _ Hh Hn)|].
    exists req, out, s'. split_and!; [done|done| |by eapply lookup_served]. exists payload. split; [done|by exists text].
  - destruct (listing_missing s [] ns Hask Hres) as (req & out & s' & G1 & G2 & G3 & G4).
    exists req, out, s'. split_and!; [done|done| |by eapply lookup_served]. by exists [].
Qed.

(** ** Sizes *)

(** The answer to a request whose operation leaves errno at [e]. *)
Lemma answered_served s v q (s1 t' : R) (r : operation_result_t) e status v' :
  serves s v -> request_ok q -> let t := task_of (C := C) (pedido_of q) in
  p_path (params t) = abs_path (names_of_request q) ->
  run t (params t) s = Ok (r, s1) -> restored e t' s1 [] -> - 2 ^ 7 <= status < 2 ^ 7 ->
  (forall res, r_path res = r_path r -> r_data res = r_data r -> r_error res = e ->
     deliver_response t res = with_data_file res (finalizacion status)) ->
  holds_volume (file t') v' -> holds_data (file t') (memc t') v' -> refined s q status Nothing v'.
Proof.
  intros Hs Hq t Hpp Hrun Hrest Hst Hd Hv' Hd'. destruct (request_asked s v q Hs Hq) as (Hask & Hn & Hsz & Hp).
  destruct (finalizacion_message (C := C) status Hst) as (out & Hmes & Hfin).
  destruct (served (pedido_of q) s s1 t' [] _ r e (fun _ => finalizacion status) out Hask Hp Hpp Hn Hsz Hrun Hrest)
    as (req & s' & G1 & G2 & G3); [done|by intros res sx _ _ _|].
  exists req, out, s'. split_and!; [done|done| |by apply (restored_serves t')]. by exists [].
Qed.

Lemma truncation_refined s v ns n f v' :
  (forall l, word_after_array l = 0) -> serves s v -> let q := Truncado ns n in request_ok q ->
  tree_walk (v_tree v) ROOT_INODE_NUMBER ns = Some (Some f) -> paso_truncado v ns f n = Some v' ->
  refined s q RESPUESTA_OK Nothing v'.
Proof.
  intros Hword Hs q Hq Hw. unfold paso_truncado. destruct (v_tree v !! f) as [[|st bl [|]|]|] eqn:Ef; [done| |done..].
  cbv zeta. set (k := Size_In_Blocks n). destruct (bool_decide _) eqn:Eb; [|done]. cbn [andb].
  destruct (sole v ns f) eqn:Hsole; [|done]. intros [= <-].
  apply bool_decide_eq_true in Eb as (Hfew & Hn31 & Hk & Hroom).
  destruct (request_asked s v q Hs Hq) as ((Hready & Hc & Hl) & Hn & Hsz & Hp). cbn [q pedido_of pedido_numbers names_of_request] in *.
  pose proof Hs as [_ He [Hh Htree Hfo Hi Hb] Hdata].
  assert (can_truncate s [] (v_tree v) ns f st bl n) as Hct by (split; (done || lia)).
  set (t := task_of (C := C) (pedido_of q)).
  destruct (truncate_run s [] (v_tree v) ns f st bl n (params t) Hct) as (m' & s1 & Hrun & Hrest & Hh' & Hfo' & Hi' & Hb' & X);
    [split; [done|by rewrite Hb]|done|done|apply u32_small; lia|]. rewrite He in Hrest. fold k in Hrest, Hh', Hb', X.
  pose proof (truncated_tree _ _ _ _ _ _ _ _ Hct) as Hok'. fold k in Hok'. rewrite Hb in Hh', Hb', Hok'.
  pose proof (al_layout _ (io_alloc _ (io_ok _ (ho_inodes _ _ Hh)))) as Hlay.
  pose proof (al_layout _ (io_alloc _ (io_ok _ (ho_inodes _ _ Hh')))) as Hlay'.
  eapply (answered_served s v q s1 _ _ 0); [done|done|done|exact Hrun|exact Hrest|done| | |].
  - intros res _ _ Hres. cbn [t q pedido_of task_of deliver_response]. unfold truncar_archivo_response. by rewrite Hres.
  - split; cbn [v_tree v_inodes v_blocks file with_memc with_file]; [done|done|done|congruence|].
    apply increasing_unique; [by apply free_blocks_increasing| |by rewrite put_all_perm].
    apply put_all_increasing; [|apply increasing_drop; rewrite <- Hb; by apply free_blocks_increasing].
    rewrite <- Hb'. by apply free_blocks_nodup.
  - eapply (data_truncated (file s) m' (memc s) v _ ns f st bl n); try done; rewrite ?Hb; try done; [apply Hready|lia].
Qed.

Lemma truncation_missing s v ns n :
  serves s v -> let q := Truncado ns n in request_ok q -> tree_walk (v_tree v) ROOT_INODE_NUMBER ns = Some None ->
  refined s q (- ENOENT) Nothing v.
Proof.
  intros Hs q Hq Hw. destruct (request_asked s v q Hs Hq) as ((Hready & _) & _). pose proof (resolves_from s v _ _ Hs Hw) as Hres.
  destruct (truncate_missing s [] ns (params (task_of (C := C) (pedido_of q))) Hready Hres) as (s1 & Hrun & Hrest); [done|].
  eapply (answered_served s v q s1 s _ ENOENT); [done|done|done|exact Hrun|exact Hrest|done| |apply Hs|apply Hs].
  intros res _ _ Hr. cbn [q pedido_of task_of deliver_response]. unfold truncar_archivo_response. by rewrite Hr.
Qed.

(** ** Contents *)

Lemma reading_refined s v ns f len off status c v' :
  serves s v -> let q := Lectura ns len off in request_ok q ->
  tree_walk (v_tree v) ROOT_INODE_NUMBER ns = Some (Some f) -> paso_lectura v ns f len off = Some (status, c, v') ->
  refined s q status c v'.
Proof.
  intros Hs q Hq Hw. unfold paso_lectura. destruct (v_tree v !! f) as [[|st bl [|]|]|] eqn:Ef; [done| |done..].
  destruct (bool_decide _) eqn:Eb; [|done]. cbv zeta. destruct (known _ _ _ _) as [l|] eqn:El; [|done]. intros [= <- <- <-].
  apply bool_decide_eq_true in Eb as (Hfew & Hoff & Hlen & Hsz16).
  destruct (request_asked s v q Hs Hq) as (Hask & _). pose proof (resolves_from s v _ _ Hs Hw) as Hres.
  pose proof Hs as [_ He [Hh Htree Hfo Hi Hb] Hdata]. destruct (ho_node _ _ Hh f _ Ef) as [[_ _ Esz] Hat].
  change (node_stat (File st bl [])) with st in Esz. cbn [names_of_request q] in Hask. pose proof Hask as ((_ & _ & Hns) & _).
  pose proof (data_cached _ _ _ _ _ _ _ Hdata Hns Hw Ef) as Hc.
  destruct (read_served s [] ns _ f off len Hask He (coherent_from _ _ _ _ _ _ _ Hh Ef Hfew Hc) Hres)
    as (req & out & payload & s' & c' & G1 & G2 & G3 & G4 & G5 & G6 & G7); [apply Hat|by rewrite Esz|done|done|].
  rewrite Esz in G7. cbv zeta in G7. set (n := Z.min len (i_size st - off)) in *.
  rewrite (known_contents _ _ _ _ _ _ _ _ l Hh Hdata Ef Hfew El) in G7.
  assert (zlen l = copied off n) as Hl.
  { rewrite <- (known_contents _ _ _ _ _ _ _ _ l Hh Hdata Ef Hfew El), zlen_contents; [done|]. apply copied_bounds. unfold n. lia. }
  exists req, out, s'. split_and!; [done|done| |].
  - exists payload. split; [done|]. rewrite G7. do 2 f_equal. rewrite zlen_app, Hl. unfold zlen. rewrite length_replicate.
    pose proof (copied_bounds off n ltac:(unfold n; lia)). lia.
  - apply (restored_serves _ s' _ G3); [by split|]. by apply (data_read (file s) (memc s) c' v ns f st bl).
Qed.

Lemma writing_refined s v ns f buf off status c v' :
  (forall l, word_after_array l = 0) -> serves s v -> let q := Escritura ns buf off in request_ok q ->
  tree_walk (v_tree v) ROOT_INODE_NUMBER ns = Some (Some f) -> paso_escritura v ns f buf off = Some (status, c, v') ->
  refined s q status c v'.
Proof.
  intros Hword Hs q Hq Hw. unfold paso_escritura. destruct (v_tree v !! f) as [[|st bl [|]|]|] eqn:Ef; [done| |done..].
  cbv zeta. set (n := zlen buf). destruct (bool_decide _) eqn:Eb; [|done]. cbn [andb].
  destruct (sole v ns f) eqn:Hsole; [|done]. intros [= <- <- <-].
  apply bool_decide_eq_true in Eb as (Hoff & Hn0 & H31 & Hbytes & Hszt & Hfits).
  destruct (request_asked s v q Hs Hq) as (Hask & Hn & Hsz & Hp). pose proof Hask as (Hready & _).
  pose proof Hs as [_ He [Hh Htree Hfo Hi Hb] Hdata]. cbn [names_of_request q] in Hready, Hask.
  pose proof Hready as (_ & _ & Hns). pose proof off_t_is_size_t. pose proof size_t_size.
  set (t := task_of (C := C) (pedido_of q)).
  assert (p_offset (params t) = off) as Eo by (apply u32_small; lia).
  assert (p_bytes_to_write (params t) = n) as En by (apply u32_small; lia).
  pose proof (write_run s [] (v_tree v) ns f st bl (params t)) as Hrun. cbv zeta in Hrun. rewrite Eo, En in Hrun.
  change (p_write_buffer (params t)) with buf in Hrun. fold n in Hrun. rewrite Hb in Hrun.
  destruct Hrun as (m' & c' & s1 & Hrun & Hrest & Hfw); try done.
  { split; try done. by eapply data_cached. }
  rewrite He in Hrest. set (w := written off n) in *. set (d := attached (i_size st) (off + n)) in *.
  set (free := v_blocks v) in *. set (l := take (Z.to_nat d) free) in *. pose proof (written_bounds off n Hn0) as Hwr. fold w in Hwr.
  assert (forall b, b ∈ l -> b ∈ free_blocks (file s)) as Hl by (intros b; rewrite Hb; apply subseteq_take).
  pose proof (al_layout _ (io_alloc _ (io_ok _ (ho_inodes _ _ Hh)))) as Hlay.
  assert (NoDup l) as Hndl by (apply (sublist_NoDup _ free); [rewrite <- Hb; by apply free_blocks_nodup|apply sublist_take]).
  destruct (new_blocks_apart (file s) (v_tree v) f st bl l Hh Htree Ef Hndl Hl) as [Hnd Hap].
  assert (tree_ok (truncated (v_tree v) f st (bl ++ l) (size_after (i_size st) off w))) as Hok'
    by (apply (tree_truncated _ _ _ bl); [done|done|done|]; intros b k nd Hb' Hk; by apply (Hap b k nd)).
  pose proof Hfits as (Hfew & Henough & _). fold d in Hfew, Henough. pose proof (attached_nonneg (i_size st) (off + n)) as Hd0. fold d in Hd0.
  destruct (write_answer_message w) as (out & payload & Hser & Hmes & Hdes).
  { pose proof (pow_256_ge sizeof_size_t ltac:(lia)). unfold szt. lia. } { lia. }
  destruct (served (pedido_of q) s s1 _ [] ns (result (abs_path ns) (Status w)) 0
    (fun _ => s0 ← lift (serializar_respuesta_escribir_archivo RESPUESTA_OK w); mret (Some s0)) out Hask Hp eq_refl Hn Hsz Hrun Hrest)
    as (req & s' & G1 & G2 & G3).
  { intros res _ Hr _. cbn [q pedido_of task_of deliver_response]. unfold escribir_archivo_response. rewrite Hr.
    cbn [r_data result]. by rewrite (proj2 (Z.leb_le szt 4)). }
  { intros res sx _ _ _. by rewrite Hser. }
  exists req, out, s'. split_and!; [done|done|by exists payload|]. apply (restored_serves _ s' _ G3).
  - destruct Hfw as [F1 F2 F3 F4 _ _ _ _]. split; [done|done|done|by rewrite <- Hi|done].
  - apply (data_written s m' c' v _ ns f st bl l (drop (Z.to_nat d) free) (take (Z.to_nat w) buf) (size_after (i_size st) off w) off);
      try done; unfold size_after; try lia.
    + rewrite zlen_app. unfold l, zlen in *. rewrite length_take. lia.
    + unfold n, zlen in *. rewrite length_take. lia.
Qed.

Lemma writing_missing s v ns buf off :
  serves s v -> let q := Escritura ns buf off in request_ok q -> tree_walk (v_tree v) ROOT_INODE_NUMBER ns = Some None ->
  refined s q (- ENOENT) Nothing v.
Proof.
  intros Hs q Hq Hw. destruct (request_asked s v q Hs Hq) as ((Hready & _) & _). pose proof (resolves_from s v _ _ Hs Hw) as Hres.
  destruct (write_missing s [] ns (params (task_of (C := C) (pedido_of q))) Hready Hres) as (s1 & Hrun & Hrest); [done|].
  eapply (answered_served s v q s1 s _ ENOENT); [done|done|done|exact Hrun|exact Hrest|done| |apply Hs|apply Hs].
  intros res _ Hd Hr. cbn [q pedido_of task_of deliver_response]. unfold escribir_archivo_response. by rewrite Hd, Hr.
Qed.

(** ** The refinement *)

Lemma cambio_inv v o status c v' :
  cambio v o = Some (status, c, v') -> o = Some v' /\ steady v v' = true /\ status = RESPUESTA_OK /\ c = Nothing.
Proof.
  unfold cambio. destruct o as [v1|]; [|done]. cbn. destruct (steady v v1) eqn:E; [|done]. by intros [= <- <- <-].
Qed.

Lemma paso_refined s v q status c v' :
  (forall l, word_after_array l = 0) -> serves s v -> paso v q = Some (status, c, v') -> refined s q status c v'.
Proof.
  intros Hword Hs. unfold paso. case_bool_decide as Hq; [|done]. unfold paso_ok, respuesta. cbv zeta.
  destruct (tree_walk (v_tree v) ROOT_INODE_NUMBER (names_of_request q)) as [r|] eqn:Ew; [|by destruct q; rewrite Ew].
  destruct q as [es_archivo ns nm mode|ns nm|ns nm|ns|ns|ns|ns n|ns len off|ns buf off]; rewrite Ew; cbn [names_of_request] in Ew.
  - destruct r as [n|]; [intros [= <- <- <-]; by eapply creation_exists|].
    destruct (tree_walk (v_tree v) ROOT_INODE_NUMBER ns) as [[d|]|] eqn:Ed; [|done..]. case_bool_decide.
    + intros [= <- <- <-]. by eapply creation_full.
    + intros (E & Hst & -> & ->)%cambio_inv. by eapply creation_refined.
  - destruct r as [n|]; [|intros [= <- <- <-]; eapply missing_refined; eauto].
    destruct (spot_of (v_tree v) ns nm) as [e|] eqn:Ee; [|done].
    intros (E & Hst & -> & ->)%cambio_inv. by eapply deletion_refined.
  - destruct r as [n|]; [|intros [= <- <- <-]; eapply missing_refined; eauto].
    destruct (spot_of (v_tree v) ns nm) as [e|] eqn:Ee; [|done].
    intros (E & Hst & -> & ->)%cambio_inv. by eapply dir_deletion_refined.
  - pose proof (opening_refined s v ns r Hs Hq Ew) as G. by destruct r; intros [= <- <- <-].
  - pose proof (attributes_refined s v ns r Hs Hq Ew) as G. destruct r as [n|]; [|by intros [= <- <- <-]].
    destruct (v_tree v !! n) as [nd|]; [|done]. cbn. intros [= <- <- <-]. by apply G.
  - pose proof (listing_refined s v ns r Hs Hq Ew) as G. destruct r as [n|]; [|by intros [= <- <- <-]].
    destruct (v_tree v !! n) as [[st bs ind| |]|] eqn:En; [|done..]. case_bool_decide; [|done].
    intros [= <- <- <-]. by eapply G.
  - destruct r as [f|]; [|intros [= <- <- <-]; by apply truncation_missing].
    destruct (paso_truncado v ns f n) eqn:E; [|done]. intros [= <- <- <-]. by eapply truncation_refined.
  - destruct r as [f|]; [|done]. by eapply reading_refined.
  - destruct r as [f|]; [by eapply writing_refined|]. intros [= <- <- <-]. by apply writing_missing.
Qed.

(** The messages of one client after the other, and what each is answered. *)
Fixpoint atender_todos (l : list (list Z)) : M R (list (option t_stream)) :=
  match l with
  | [] => mret []
  | bytes :: l => ans ← atender bytes; rest ← atender_todos l; mret (ans :: rest)
  end.

Definition answered (out : option t_stream) (a : Z * contents) : Prop :=
  exists o, out = Some o /\ answers o a.1 a.2.

(** C1: The server implements the volume: from a state in which the image holds a volume and no file is in
    use, every sequence of creations, deletions, openings, lookups, reads, writes and changes of size that
    the abstract [pasos] specifies runs without fault from the bytes of the messages to the bytes of the answers, every answer is the
    specified one, bytes that were written included, and the image then holds the volume that [pasos]
    gives, with the known bytes of its files and the inodes and blocks that it has free, the cache nothing
    but blocks of its files, no file in use and no error left.  The word of the heap behind each array of
    block numbers is assumed to be zero. *)
Theorem server_implements_volume qs : forall s v l v',
  (forall l, word_after_array l = 0) -> serves s v -> pasos v qs = Some (l, v') ->
  exists reqs outs s', Forall2 (fun q req => serializar_pedido (pedido_of q) = Ok req) qs reqs /\
    atender_todos (data <$> reqs) s = Ok (outs, s') /\ Forall2 answered outs l /\ serves s' v'.
Proof.
  induction qs as [|q qs IH]; intros s v l v' Hword Hs.
  - intros [= <- <-]. exists [], [], s. by split_and!.
  - cbn [pasos]. destruct (paso v q) as [[[status c] v1]|] eqn:E1; [|done]. cbn.
    destruct (pasos v1 qs) as [[l1 v2]|] eqn:E2; [|done]. intros [= <- <-].
    destruct (paso_refined s v q status c v1 Hword Hs E1) as (req & out & s1 & G1 & G2 & G3 & Hs1).
    destruct (IH s1 v1 l1 v2 Hword Hs1 E2) as (reqs & outs & s' & G4 & G5 & G6 & Hs').
    exists (req :: reqs), (Some out :: outs), s'. split_and!; [by constructor| | |done].
    + cbn [fmap list_fmap atender_todos]. by rewrite (bind_ok _ _ _ _ _ G2), (bind_ok _ _ _ _ _ G5).
    + constructor; [by exists out|done].
Qed.
End Sessions.

(** ** Witness: the demo image with a free block, which holds a file and then a
    directory that come and go *)

#[local] Instance session_superblock : Superblock_constants := demo_sb.
#[local] Instance session_abi : Abi := abi_i386.

Definition demo_volume : volume :=
  {| v_tree := demo_tree; v_inodes := [4; 5; 6; 7; 8]; v_blocks := [10]; v_bytes := ∅; v_seen := [] |}.

Definition demo_session : list peticion :=
  [Creacion true [] (str "f") 420; Escritura [str "f"] (str "hello") 0; Lectura [str "f"] 100 1; Truncado [str "f"] 3;
   Escritura [str "f"] (str "p!") 3; Lectura [str "f"] 100 0; Creacion true [] (str "f") 420; Atributos [str "f"];
   Borrado [] (str "f"); Borrado [] (str "f"); Escritura [str "f"] (str "hello") 0;
   Creacion false [] (str "c") 493; Listado []; Creacion true [str "c"] (str "f") 420; Borrado [str "c"] (str "f");
   Listado [str "c"]; Borrado_dir [] (str "c"); Apertura [str "c"]].

(** The second creation and the second deletion of the file are failures. *)
Definition demo_answers : list (Z * contents) :=
  [(RESPUESTA_OK, Nothing); (RESPUESTA_OK, Count 5); (RESPUESTA_OK, Read (str "ello")); (RESPUESTA_OK, Nothing);
   (RESPUESTA_OK, Count 2); (RESPUESTA_OK, Read (str "help!")); (RESPUESTA_OK, Nothing);
   (RESPUESTA_OK, stat_answer 4 {| i_mode := 33188; i_links := 1; i_size := 5 |});
   (RESPUESTA_OK, Nothing); (RESPUESTA_OK, Nothing); (- ENOENT, Nothing);
   (RESPUESTA_OK, Nothing); (RESPUESTA_OK, Names [str "."; str ".."; str "a"; str "c"]); (RESPUESTA_OK, Nothing);
   (RESPUESTA_OK, Nothing); (RESPUESTA_OK, Names [str "."; str ".."]); (RESPUESTA_OK, Nothing); (- ENOENT, Nothing)].

Lemma demo_serves : @serves demo_sb _ _ mkdir_server demo_volume.
Proof.
  split; [split; constructor|reflexivity|split; [exact mkdir_image_holds|exact demo_tree_ok|exact mkdir_image_data|vm_compute; reflexivity..]|].
  split.
  - intros f o x Hx. discriminate Hx.
  - intros p k l _ Hl. discriminate Hl.
Defined.

Lemma demo_pasos : exists t, pasos demo_volume demo_session =
  Some (demo_answers, {| v_tree := t; v_inodes := [4; 5; 6; 7; 8]; v_blocks := [10]; v_bytes := ∅; v_seen := [] |}).
Proof. eexists. vm_compute. reflexivity. Defined.

Lemma server_implements_volume_witness :
  exists reqs outs s', @atender_todos demo_sb (fun _ => 0) _ _ _ (data <$> reqs) mkdir_server = Ok (outs, s') /\
    length reqs = 18%nat /\ Forall2 answered outs demo_answers /\
    free_inodes (file s') = [4; 5; 6; 7; 8] /\ free_blocks (file s') = [10].
Proof.
  destruct demo_pasos as [t Ht].
  destruct (@server_implements_volume demo_sb demo_sb_ok (fun _ => 0) abi_i386 abi_i386_ok sample_cache _ _ demo_session
    mkdir_server demo_volume _ _ (fun _ => eq_refl) demo_serves Ht)
    as (reqs & outs & s' & Hreqs & Hrun & Hans & [_ _ Hv _]).
  exists reqs, outs, s'. split; [exact Hrun|]. split; [symmetry; exact (Forall2_length _ _ _ Hreqs)|].
  split; [exact Hans|]. split; [exact (hv_inodes _ _ Hv)|exact (hv_blocks _ _ Hv)].
Defined.
