(* ===== verification/Acceptor.v ===== *)
(** * Acceptor: the main thread of the server and its clients

    Models the loop of [main] in [rfs/main.c]: the table of descriptors that
    poll watches, the acceptance of a client with its handshake, and the
    turn that receives a request of every client that has sent one and
    queues it as a task; below it [sockete_recibir] and
    [sockete_enviar] of [sockete.c] and [recibir_header], [recibir_paquete]
    and [server_responder_handshake] of [manejador_de_socketes.c], with the
    bytes they move.

    The kernel is part of the state: of each connection the segments that
    have arrived and that no call of recv has taken yet, whether the other
    side has closed it, and what was sent to it. *)

From S2P Require Import Prelude Memory Bitarray Ext2 CString Paths Rfs Alloc AllocFacts Serial Sockets Requests SerialFacts.

Definition POLLIN : Z := 1.
Definition BACKLOG : nat := 100.

(** struct pollfd *)
Record pollfd := { fd : Z; events : Z; revents : Z }.

(** A connection: a call of recv takes bytes of the first segment only. *)
Record conexion := { entrada : list (list Z); cerrada : bool; salida : list (list Z) }.

Definition without_segment (c : conexion) (n : Z) : conexion :=
  {| entrada := match entrada c with
                | [] => []
                | seg :: rest => match drop (Z.to_nat n) seg with [] => rest | seg' => seg' :: rest end
                end;
     cerrada := cerrada c; salida := salida c |}.

Definition with_answer (c : conexion) (l : list Z) : conexion :=
  {| entrada := entrada c; cerrada := cerrada c; salida := salida c ++ [l] |}.

(** A part of the code that keeps the state. *)
Definition of_res {S A} (r : res A) : M S A := fun s =>
  match r with Ok a => Ok (a, s) | Fail e => Fail e end.

Section Acceptor.
Context {Super_constants : Superblock_constants} {WA : Word_after_array} {AB : Abi}.
Context {C : Type} `{Memcached C}.

(** What [main] works on: its array, errno, the connections, those that wait
    for accept, and the task queue, whose tasks go with their socket. *)
Record principal := {
  read_fds : list pollfd;
  m_errno : Z;
  conexiones : gmap Z conexion;
  espera : list Z;
  task_queue : list (Z * @task_t C)
}.
Abbreviation P := principal.

Definition with_fds (l : list pollfd) (s : P) : P :=
  {| read_fds := l; m_errno := m_errno s; conexiones := conexiones s; espera := espera s; task_queue := task_queue s |}.
Definition with_m_errno (e : Z) (s : P) : P :=
  {| read_fds := read_fds s; m_errno := e; conexiones := conexiones s; espera := espera s; task_queue := task_queue s |}.
Definition with_conexiones (m : gmap Z conexion) (s : P) : P :=
  {| read_fds := read_fds s; m_errno := m_errno s; conexiones := m; espera := espera s; task_queue := task_queue s |}.
Definition with_espera (l : list Z) (s : P) : P :=
  {| read_fds := read_fds s; m_errno := m_errno s; conexiones := conexiones s; espera := l; task_queue := task_queue s |}.
Definition with_task (t : Z * task_t) (s : P) : P :=
  {| read_fds := read_fds s; m_errno := m_errno s; conexiones := conexiones s; espera := espera s;
     task_queue := task_queue s ++ [t] |}.

(** ** The calls of the kernel *)

(** recv: the result and the bytes.  Nothing there and the other side still
    open is a wait; what is no socket is an error. *)
Definition recv (socket longitud : Z) : M P (Z * list Z) :=
  m ← gets conexiones;
  match m !! socket with
  | None => mret (-1, [])
  | Some c =>
      if longitud =? 0 then mret (0, [])
      else
        match entrada c with
        | [] => if cerrada c then mret (0, []) else fail Deadlock
        | seg :: _ =>
            let l := take (Z.to_nat longitud) seg in
            modify (with_conexiones (<[socket := without_segment c (zlen l)]> m));;
            mret (zlen l, l)
        end
  end.

(** send of the few bytes of an answer, which it takes whole. *)
Definition send (socket : Z) (l : list Z) : M P Z :=
  m ← gets conexiones;
  match m !! socket with
  | None => mret (-1)
  | Some c => modify (with_conexiones (<[socket := with_answer c l]> m));; mret (zlen l)
  end.

(** accept *)
Definition accept : M P Z :=
  l ← gets espera;
  match l with [] => fail Deadlock | s :: l => modify (with_espera l);; mret s end.

(** ** Receiving *)

(** memcpy of what recv writes behind [mensaje_recibido + aux]. *)
Definition put_at (buffer : list Z) (aux : Z) (l : list Z) : M P (list Z) :=
  if (0 <=? aux) && (aux + zlen l <=? zlen buffer) then mret (array_write buffer aux l) else fail OutOfBounds.

(** while (aux < longitud_retorno), at most [n] rounds. *)
Fixpoint recibir_loop (n : nat) (socket : Z) (buffer : list Z) (aux longitud : Z) : M P (Z * list Z) :=
  match n with
  | O => fail OutOfFuel
  | S n =>
      if u32 aux <? longitud then
        r ← recv socket longitud;
        buffer ← put_at buffer aux r.2;
        recibir_loop n socket buffer (s32 (aux + r.1)) longitud
      else mret (aux, buffer)
  end.

(** The result and the buffer, which the callers allocate with calloc. *)
Definition sockete_recibir_en (socket longitud : Z) : M P (Z * list Z) :=
  let buffer := replicate (Z.to_nat longitud) 0 in
  r ← recv socket longitud;
  if r.1 <=? 0 then modify (with_m_errno EBADFD);; mret (SOCKETEERROR, buffer)
  else
    buffer ← put_at buffer 0 r.2;
    recibir_loop (S (Z.to_nat longitud)) socket buffer r.1 longitud.

Definition recibir_header_de (socket : Z) : M P t_header :=
  data ← sockete_recibir_en socket 3;
  of_res (deserializar_header data.2).

Definition recibir_paquete (socket longitud : Z) : M P (list Z) :=
  stream ← sockete_recibir_en socket longitud;
  mret stream.2.

(** [server_responder_handshake] of a socket. *)
Definition responder_handshake (socket : Z) : M P Z :=
  stream ← sockete_recibir_en socket 3;
  r ← of_res (server_responder_handshake stream.2);
  send socket (data r.1);;
  mret r.2.

(** ** The table of descriptors *)

(** for (i = 0; i < cantidad_clientes; i++) *)
Definition inicializar_vector (clientes : list pollfd) (cantidad_clientes : nat) : list pollfd :=
  replicate (cantidad_clientes `min` length clientes) {| fd := 0; events := POLLIN; revents := 0 |}
    ++ drop cantidad_clientes clientes.

(** [read_fds] before the loop: [garbage] are the 101 entries that the
    declaration of the array leaves. *)
Definition iniciar (garbage : list pollfd) (server : Z) : list pollfd :=
  alter (fun e => {| fd := server; events := events e; revents := revents e |}) 0%nat
    (inicializar_vector garbage BACKLOG).

Definition set_fd (n : Z) (e : pollfd) : pollfd := {| fd := n; events := events e; revents := revents e |}.
Definition set_revents (n : Z) (e : pollfd) : pollfd := {| fd := fd e; events := events e; revents := n |}.

Definition entry (i : nat) : M P pollfd :=
  l ← gets read_fds;
  match l !! i with Some e => mret e | None => fail OutOfBounds end.

Definition update_entry (i : nat) (f : pollfd -> pollfd) : M P unit :=
  l ← gets read_fds;
  modify (with_fds (alter f i l)).

(** ** The turns *)

(** The server's own entry: indice = aceptar_cliente(&read_fds[1], ...), then
    the handshake with read_fds[indice + 1]. *)
Definition turno_aceptar : M P unit :=
  l ← gets read_fds;
  nuevo ← accept;
  r ← of_res (aceptar_cliente (fd <$> drop 1 l) nuevo BACKLOG);
  let indice := S r.1 in
  update_entry indice (set_fd nuevo);;
  e ← entry indice;
  responder_handshake (fd e);;
  mret tt.

(** One round of for (i = 1; i < BACKLOG + 1; i++). *)
Definition turno_cliente (i : nat) : M P unit :=
  e ← entry i;
  if revents e =? POLLIN then
    header ← recibir_header_de (fd e);
    err ← gets m_errno;
    if err =? EBADFD then
      update_entry i (set_fd 0);;
      modify (with_m_errno 0)
    else
      payload ← recibir_paquete (fd e) (h_longitud header);
      tarea ← of_res (generar_task header payload);
      modify (with_task (fd e, tarea));;
      update_entry i (set_revents 0)
  else mret tt.

Fixpoint turno_clientes (l : list nat) : M P unit :=
  match l with
  | [] => mret tt
  | i :: l => turno_cliente i;; turno_clientes l
  end.

(** [s_Mapped_File_init] for the image that [Map_FS] has mapped, and the
    set_counter of its sleep. *)
Definition s_Mapped_File_init (fs : mem) (memc : C) : rfs C :=
  {| file := fs; errno := 0; active_file_list := []; next_id := 0; fs_sleep := 0; writes_to_sync := 0; memc := memc |}.
Definition set_counter (sleep_value : Z) (s : rfs C) : rfs C :=
  {| file := file s; errno := errno s; active_file_list := active_file_list s; next_id := next_id s;
     fs_sleep := u64 sleep_value; writes_to_sync := writes_to_sync s; memc := memc s |}.

(** What poll writes: the revents of the first BACKLOG entries. *)
Definition poll_writes (ready : list Z) (l : list pollfd) : list pollfd :=
  zip_with set_revents (take BACKLOG ready) l ++ drop (length (take BACKLOG ready)) l.

(** One round of while (1), for what poll returns and writes. *)
Definition turno (return_poll : Z) (ready : list Z) : M P unit :=
  l ← gets read_fds;
  modify (with_fds (poll_writes ready l));;
  if return_poll =? -1 then mret tt
  else
    e ← entry 0;
    if revents e =? POLLIN then turno_aceptar else turno_clientes (seq 1 BACKLOG).

(** The turns of one worker over the tasks that it pops, in order: what it
    sends, and to which socket. *)
Fixpoint trabajar (l : list (Z * @task_t C)) : M (rfs C) (list (Z * option t_stream)) :=
  match l with
  | [] => mret []
  | (socket, tarea) :: l =>
      answer ← worker tarea;
      rest ← trabajar l;
      mret ((socket, answer) :: rest)
  end.
End Acceptor.
