(* ===== verification/Service.v ===== *)
(** * Service: what the main thread does for the clients

    A turn of the main thread receives one whole request of every client that
    has sent one, in the order of the table, queues the tasks they stand for,
    and takes off the clients that have gone; with the worker that runs the
    queue, the clients together see the volume of [Volume].  Where the table
    is full, a message is cut, or a client goes before its handshake, the
    main thread fails others. *)

From S2P Require Import Prelude Memory Bitarray Ext2 Ext2Facts CString Paths Rfs ActiveFiles Alloc AllocFacts Serial Sockets Requests SerialFacts Lookups Tree TreeSteps Creates Mkdirs Volume Data Sessions Acceptor.

(** What is left of a segment, before the others. *)
Definition resto (more : list Z) (rest : list (list Z)) : list (list Z) :=
  match more with [] => rest | _ => more :: rest end.

Definition with_entrada (l : list (list Z)) (c : conexion) : conexion :=
  {| entrada := l; cerrada := cerrada c; salida := salida c |}.

Section Service.
Context {Super_constants : Superblock_constants} {SO : Superblock_ok} {WA : Word_after_array} {AB : Abi} {AO : Abi_ok}.
Context {C : Type} `{MemcachedLaws C}.
Abbreviation P := (@principal C).
Implicit Types (s : P) (c : conexion) (e : pollfd) (m : gmap Z conexion) (p : pedido) (q : peticion) (v : volume).

(** ** Receiving *)

Lemma without_segment_app c l more rest :
  entrada c = (l ++ more) :: rest -> without_segment c (zlen l) = with_entrada (resto more rest) c.
Proof.
  intros E. unfold without_segment, with_entrada. rewrite E. unfold zlen.
  rewrite Nat2Z.id, drop_app_length. by destruct more.
Qed.

Lemma recv_there socket l more rest c s :
  conexiones s !! socket = Some c -> entrada c = (l ++ more) :: rest -> 0 < zlen l ->
  recv socket (zlen l) s =
    Ok ((zlen l, l), with_conexiones (<[socket := with_entrada (resto more rest) c]> (conexiones s)) s).
Proof.
  intros Hc E Hl. unfold recv. rewrite (bind_ok _ _ s (conexiones s) s) by done.
  rewrite Hc, (proj2 (Z.eqb_neq _ _)) by lia. rewrite E. cbv zeta.
  assert (take (Z.to_nat (zlen l)) (l ++ more) = l) as -> by (unfold zlen; by rewrite Nat2Z.id, take_app_length).
  by rewrite (without_segment_app _ _ more rest).
Qed.

Lemma put_at_start l s : put_at (replicate (Z.to_nat (zlen l)) 0) 0 l s = Ok (l, s).
Proof.
  unfold put_at. assert (zlen (replicate (Z.to_nat (zlen l)) 0) = zlen l) as ->.
  { unfold zlen at 1. rewrite length_replicate. pose proof (zlen_nonneg l). lia. }
  rewrite Z.add_0_l. unfold array_write. cbn [andb Z.leb Z.compare].
  rewrite drop_ge by (rewrite length_replicate; unfold zlen; lia). by rewrite app_nil_r, Z.leb_refl.
Qed.

(** Bytes that have arrived together are received in one call. *)
Lemma recibir_there socket l more rest c s :
  conexiones s !! socket = Some c -> entrada c = (l ++ more) :: rest -> 0 < zlen l < 2 ^ 31 ->
  sockete_recibir_en socket (zlen l) s =
    Ok ((zlen l, l), with_conexiones (<[socket := with_entrada (resto more rest) c]> (conexiones s)) s).
Proof.
  intros Hc E Hl. unfold sockete_recibir_en. rewrite (bind_ok _ _ _ _ _ (recv_there socket l more rest c s Hc E ltac:(lia))).
  cbn [fst snd]. rewrite (proj2 (Z.leb_gt _ _)) by lia. rewrite (bind_ok _ _ _ _ _ (put_at_start l _)).
  cbn [recibir_loop]. by rewrite u32_small, Z.ltb_irrefl by lia.
Qed.

(** The other side has gone. *)
Lemma recibir_gone socket longitud c s :
  conexiones s !! socket = Some c -> entrada c = [] -> cerrada c = true ->
  sockete_recibir_en socket longitud s =
    Ok ((SOCKETEERROR, replicate (Z.to_nat longitud) 0), with_m_errno EBADFD s).
Proof.
  intros Hc E Hx. unfold sockete_recibir_en.
  rewrite (bind_ok _ _ s (0, []) s); [done|]. unfold recv. rewrite (bind_ok _ _ s (conexiones s) s) by done.
  rewrite Hc, E, Hx. by case_match.
Qed.

(** A whole request in one segment: the header, then the payload. *)
Lemma header_there socket p req more rest c s :
  payload_size p < 2 ^ 16 -> serializar_pedido p = Ok req ->
  conexiones s !! socket = Some c -> entrada c = (data req ++ more) :: rest ->
  recibir_header_de socket s =
    Ok ({| tipo := pedido_tipo p; h_longitud := payload_size p |},
        with_conexiones (<[socket := with_entrada ((payload_bytes p ++ more) :: rest) c]> (conexiones s)) s).
Proof.
  intros Hp Hreq Hc E. pose proof (zlen_nonneg (payload_bytes p)) as Hpos. rewrite zlen_payload_bytes in Hpos.
  assert (serializar_pedido p = Ok {| longitud := 3 + payload_size p;
    data := header_bytes (pedido_tipo p) (payload_size p) ++ payload_bytes p |}) as E' by (apply serializar_pedido_spec; lia).
  match type of E' with _ = Ok ?x => assert (req = x) as -> by congruence end. clear E'. cbn [data] in *.
  apply serializar_pedido_parts in Hreq as (Eh & Ed & _); [|lia]. cbn [data] in *.
  rewrite u16_small in Eh by lia.
  assert (take 3 (header_bytes (pedido_tipo p) (payload_size p) ++ payload_bytes p)
    = header_bytes (pedido_tipo p) (payload_size p)) as Et by done. rewrite Et in Eh.
  rewrite <- app_assoc in E. unfold recibir_header_de. change 3 with (zlen (header_bytes (pedido_tipo p) (payload_size p))).
  rewrite (bind_ok _ _ _ _ _ (recibir_there socket _ _ _ c s Hc E ltac:(rewrite zlen_header_bytes; lia))). cbn [snd].
  rewrite Eh. unfold of_res. destruct (payload_bytes p ++ more) eqn:Ep; [|done].
  destruct (app_eq_nil _ _ Ep) as [Hnil _]. exfalso. by destruct p; cbn in Hnil; repeat apply app_eq_nil in Hnil as [? Hnil].
Qed.

(** ** The round of one client *)

(** What poll and the kernel have for an entry: nothing, the end of the
    connection, or a request with what has arrived behind it. *)
Inductive oferta :=
  | Nada
  | Cierra
  | Pide (q : peticion) (more : list Z) (rest : list (list Z)).
Implicit Types (o : oferta).

Definition ofrece m e o : Prop :=
  match o with
  | Nada => revents e <> POLLIN
  | Cierra => revents e = POLLIN /\ exists c, m !! fd e = Some c /\ entrada c = [] /\ cerrada c = true
  | Pide q more rest => revents e = POLLIN /\ request_ok q /\ exists c req, m !! fd e = Some c /\
      serializar_pedido (pedido_of q) = Ok req /\ entrada c = (data req ++ more) :: rest
  end.

Definition entry_after e o : pollfd :=
  match o with Nada => e | Cierra => set_fd 0 e | Pide _ _ _ => set_revents 0 e end.

Definition conexiones_after m e o : gmap Z conexion :=
  match o with Pide _ more rest => alter (with_entrada (resto more rest)) (fd e) m | _ => m end.

Definition tasks_of e o : list (Z * @task_t C) :=
  match o with Pide q _ _ => [(fd e, task_of (pedido_of q))] | _ => [] end.

(** The state after the round of the entry [e], the [i]th. *)
Definition served_entry (i : nat) e o s : P :=
  {| read_fds := <[i := entry_after e o]> (read_fds s); m_errno := m_errno s;
     conexiones := conexiones_after (conexiones s) e o; espera := espera s;
     task_queue := task_queue s ++ tasks_of e o |}.

Lemma entry_there i e s : read_fds s !! i = Some e -> entry i s = Ok (e, s).
Proof. intros E. unfold entry. rewrite (bind_ok _ _ s (read_fds s) s) by done. by rewrite E. Qed.

Lemma alter_there {A} (f : A -> A) i (l : list A) (e : A) : l !! i = Some e -> alter f i l = <[i := f e]> l.
Proof.
  intros E. apply list_eq. intros j. destruct (decide (j = i)) as [->|].
  - rewrite list_lookup_alter_eq, E, list_lookup_insert_eq; [done|]. by eapply lookup_lt_Some.
  - by rewrite list_lookup_alter_ne, list_lookup_insert_ne by done.
Qed.

Lemma alter_insert_there (f : conexion -> conexion) (i : Z) m c : m !! i = Some c -> alter f i m = <[i := f c]> m.
Proof.
  intros E. apply map_eq. intros j. destruct (decide (j = i)) as [->|].
  - by rewrite lookup_alter_eq, E, lookup_insert_eq.
  - by rewrite lookup_alter_ne, lookup_insert_ne by done.
Qed.

Lemma request_payload q : request_ok q ->
  0 < payload_size (pedido_of q) < 2 ^ 16 /\
  generar_task {| tipo := pedido_tipo (pedido_of q); h_longitud := payload_size (pedido_of q) |} (payload_bytes (pedido_of q))
    = Ok (task_of (C := C) (pedido_of q)).
Proof.
  intros (_ & Hc & _ & Hn & Hs). assert (pedido_path (pedido_of q) = abs_path (names_of_request q)) as Hp
    by by destruct q as [[]| | | | | | | |].
  split.
  - split; [|done]. rewrite <- zlen_payload_bytes. destruct q as [[]| | | | | | | |]; cbn [pedido_of payload_bytes];
      autorewrite with liga; repeat match goal with |- context [zlen ?l] => pose proof (zlen_nonneg l); generalize dependent (zlen l) end; lia.
  - apply generar_task_payload; [by rewrite Hp|done| |done].
    pose proof size_t_size. pose proof off_t_is_size_t. lia.
Qed.

Lemma update_entry_there i e f s :
  read_fds s !! i = Some e -> update_entry i f s = Ok (tt, with_fds (<[i := f e]> (read_fds s)) s).
Proof.
  intros E. unfold update_entry. rewrite (bind_ok _ _ s (read_fds s) s) by done. by rewrite (alter_there _ _ _ e).
Qed.

Lemma payload_there socket p more rest c s :
  0 < payload_size p < 2 ^ 16 -> conexiones s !! socket = Some c -> entrada c = (payload_bytes p ++ more) :: rest ->
  recibir_paquete socket (payload_size p) s =
    Ok (payload_bytes p, with_conexiones (<[socket := with_entrada (resto more rest) c]> (conexiones s)) s).
Proof.
  intros Hsz Hc E. unfold recibir_paquete. rewrite <- zlen_payload_bytes in Hsz |- *.
  by rewrite (bind_ok _ _ _ _ _ (recibir_there socket _ _ _ c s Hc E ltac:(lia))).
Qed.

Lemma turno_cliente_pide i e q more rest s :
  read_fds s !! i = Some e -> m_errno s = 0 -> ofrece (conexiones s) e (Pide q more rest) ->
  turno_cliente i s = Ok (tt, served_entry i e (Pide q more rest) s).
Proof.
  intros He Herr (Hev & Hq & c & req & Hc & Hreq & Ein). destruct (request_payload q Hq) as [Hsz Htask].
  unfold turno_cliente. rewrite (bind_ok _ _ _ _ _ (entry_there i e s He)), Hev. cbn [Z.eqb POLLIN Pos.eqb].
  rewrite (bind_ok _ _ _ _ _ (header_there (fd e) _ req more rest c s (proj2 Hsz) Hreq Hc Ein)).
  set (s1 := with_conexiones _ s). rewrite (bind_ok _ _ s1 0 s1) by by cbn; rewrite <- Herr. cbn [Z.eqb EBADFD h_longitud].
  assert (conexiones s1 !! fd e = Some (with_entrada ((payload_bytes (pedido_of q) ++ more) :: rest) c)) as Hc1
    by apply lookup_insert_eq.
  rewrite (bind_ok _ _ _ _ _ (payload_there (fd e) _ more rest _ s1 Hsz Hc1 eq_refl)).
  set (s2 := with_conexiones _ s1). rewrite (bind_ok _ _ s2 (task_of (pedido_of q)) s2) by (unfold of_res; by rewrite Htask).
  set (s3 := with_task (fd e, task_of (pedido_of q)) s2). rewrite (bind_ok _ _ s2 tt s3) by done.
  rewrite (update_entry_there i e _ s3 He). unfold served_entry. cbn [entry_after conexiones_after tasks_of].
  subst s3 s2 s1. cbn. rewrite insert_insert_eq. do 3 f_equal. by rewrite (alter_insert_there _ _ _ c).
Qed.

(** The rounds of an entry that asks nothing, and of one whose client has gone. *)
Lemma turno_cliente_served i e o s :
  read_fds s !! i = Some e -> m_errno s = 0 -> ofrece (conexiones s) e o ->
  turno_cliente i s = Ok (tt, served_entry i e o s).
Proof.
  intros He Herr Ho. destruct o as [| |q more rest]; [| |by apply turno_cliente_pide].
  - unfold turno_cliente. rewrite (bind_ok _ _ _ _ _ (entry_there i e s He)), (proj2 (Z.eqb_neq _ _)) by done.
    unfold served_entry. cbn. rewrite list_insert_id, app_nil_r by done. by destruct s.
  - destruct Ho as (Hev & c & Hc & Ein & Hx). unfold turno_cliente.
    rewrite (bind_ok _ _ _ _ _ (entry_there i e s He)), Hev. cbn [Z.eqb POLLIN Pos.eqb].
    rewrite (bind_ok _ _ s {| tipo := 0; h_longitud := 0 |} (with_m_errno EBADFD s)).
    2: { unfold recibir_header_de. by rewrite (bind_ok _ _ _ _ _ (recibir_gone (fd e) 3 c s Hc Ein Hx)). }
    rewrite (bind_ok _ _ _ EBADFD (with_m_errno EBADFD s)) by done. cbn [Z.eqb Pos.eqb EBADFD].
    rewrite (bind_ok _ _ _ _ _ (update_entry_there i e (set_fd 0) (with_m_errno EBADFD s) He)).
    unfold served_entry. cbn. rewrite app_nil_r. unfold modify, with_m_errno, with_fds. cbn. by rewrite <- Herr.
Qed.

(** ** The rounds of all clients *)

Definition active e o : list Z := match o with Nada => [] | _ => [fd e] end.

Fixpoint conexiones_all m (es : list pollfd) (os : list oferta) : gmap Z conexion :=
  match es, os with
  | e :: es, o :: os => conexiones_all (conexiones_after m e o) es os
  | _, _ => m
  end.

Lemma ofrece_frame m e o e' o' : ofrece m e' o' -> (forall n, n ∈ active e' o' -> n ∉ active e o) ->
  ofrece (conexiones_after m e o) e' o'.
Proof.
  intros Ho' Hne. destruct o as [| |q more rest]; [done..|]. cbn [conexiones_after].
  destruct o' as [| |q' more' rest']; [done|..]; cbn [ofrece active] in *;
    (rewrite lookup_alter_ne; [done|]; intros E; apply (Hne (fd e')); [by left|rewrite E; by left]).
Qed.

Lemma turno_clientes_served es : forall os pre s,
  read_fds s = pre ++ es -> m_errno s = 0 -> Forall2 (ofrece (conexiones s)) es os ->
  NoDup (concat (zip_with active es os)) ->
  turno_clientes (seq (length pre) (length es)) s =
    Ok (tt, {| read_fds := pre ++ zip_with entry_after es os; m_errno := 0;
               conexiones := conexiones_all (conexiones s) es os; espera := espera s;
               task_queue := task_queue s ++ concat (zip_with tasks_of es os) |}).
Proof.
  induction es as [|e es IH]; intros os pre s Hr He Hall Hnd; inversion Hall as [|? o ? os' Ho Hos]; subst.
  - cbn. rewrite app_nil_r in Hr. rewrite !app_nil_r. rewrite <- Hr, <- He. by destruct s.
  - cbn [length seq turno_clientes]. rewrite (bind_ok _ _ _ _ _ (turno_cliente_served (length pre) e o s
      ltac:(by rewrite Hr, lookup_app_r, Nat.sub_diag) He Ho)).
    cbn [zip_with concat] in *. apply NoDup_app in Hnd as (_ & Hdis & Hnd).
    replace (S (length pre)) with (length (pre ++ [entry_after e o])) by (rewrite length_app; cbn; lia).
    rewrite (IH os' (pre ++ [entry_after e o]) (served_entry (length pre) e o s)).
    + cbn. by rewrite <- !app_assoc.
    + cbn. rewrite Hr. replace (length pre) with (length pre + 0)%nat by lia. by rewrite insert_app_r, <- app_assoc.
    + done.
    + cbn [served_entry conexiones]. revert Hdis. clear - Hos. induction Hos as [|e' o' es os Ho' Hos IH]; intros Hdis; [constructor|].
      constructor; [apply ofrece_frame; [done|]|apply IH].
      * intros n Hn Hn'. apply (Hdis n Hn'). cbn. apply elem_of_app. by left.
      * intros n Hn Hn'. apply (Hdis n Hn). cbn. apply elem_of_app. by right.
    + done.
Qed.

Lemma conexiones_all_others es : forall os m n,
  n ∉ concat (zip_with active es os) -> conexiones_all m es os !! n = m !! n.
Proof.
  induction es as [|e es IH]; intros [|o os] m n Hn; [done..|]. cbn [zip_with concat conexiones_all] in *.
  apply not_elem_of_app in Hn as [Hn1 Hn]. rewrite IH by done.
  destruct o as [| |q more rest]; [done..|]. cbn in *. apply lookup_alter_ne. intros <-. apply Hn1. by left.
Qed.

Lemma conexiones_all_asked es : forall os m e q more rest c,
  NoDup (concat (zip_with active es os)) -> (e, Pide q more rest) ∈ zip es os -> m !! fd e = Some c ->
  conexiones_all m es os !! fd e = Some (with_entrada (resto more rest) c).
Proof.
  induction es as [|e1 es IH]; intros [|o os] m e q more rest c Hnd Hin Hc; [by apply not_elem_of_nil in Hin..|].
  cbn [zip_with concat conexiones_all] in *. apply NoDup_app in Hnd as (_ & Hdis & Hnd).
  apply elem_of_cons in Hin as [[= <- <-]|Hin].
  - rewrite conexiones_all_others by (apply Hdis; by left). cbn. by rewrite lookup_alter_eq, Hc.
  - apply (IH _ _ _ q); [done..|]. rewrite <- Hc. destruct o as [| |q1 more1 rest1]; [done..|]. cbn.
    apply lookup_alter_ne. intros E. apply (Hdis (fd e)); [by apply list_elem_of_singleton|].
    clear - Hin. revert os Hin. induction es as [|e2 es IH]; intros [|o os] Hin; [by apply not_elem_of_nil in Hin..|].
    cbn in *. apply elem_of_app. apply elem_of_cons in Hin as [[= <- <-]|Hin]; [left; by left|right; by apply IH].
Qed.

(** ** The worker *)

Lemma atender_request q req sf :
  request_ok q -> serializar_pedido (pedido_of q) = Ok req ->
  atender (C := C) (data req) sf = worker (task_of (pedido_of q)) sf.
Proof.
  intros (_ & Hc & _ & Hn & Hsz) Hreq. pose proof size_t_size. pose proof off_t_is_size_t.
  apply atender_task; [by destruct q as [[]| | | | | | | |]|done|lia|done|done].
Qed.

Definition requests_of o : list peticion := match o with Pide q _ _ => [q] | _ => [] end.
Definition asking (es : list pollfd) (os : list oferta) : list Z := (concat (zip_with tasks_of es os)).*1.

Lemma trabajar_refined es : forall os sf v l v',
  (forall l, word_after_array l = 0) -> serves sf v -> length es = length os ->
  pasos v (concat (requests_of <$> os)) = Some (l, v') ->
  exists outs sf', trabajar (concat (zip_with tasks_of es os)) sf = Ok (outs, sf') /\
    outs.*1 = asking es os /\ Forall2 answered outs.*2 l /\ serves sf' v'.
Proof.
  induction es as [|e es IH]; intros [|o os] sf v l v' Hword Hs Hlen Hp; [|done..|].
  - injection Hp as <- <-. exists [], sf. by split_and!.
  - injection Hlen as Hlen. unfold asking. destruct o as [| |q more rest]; [by apply (IH os sf v)..|].
    cbn [fmap list_fmap concat requests_of app pasos] in Hp.
    destruct (paso v q) as [[[status c] v1]|] eqn:E1; [|done]. cbn in Hp.
    destruct (pasos v1 _) as [[l1 v2]|] eqn:E2; [|done]. injection Hp as <- <-.
    destruct (paso_refined sf v q status c v1 Hword Hs E1) as (req & out & s1 & G1 & G2 & G3 & Hs1).
    destruct (IH os s1 v1 l1 v2 Hword Hs1 Hlen E2) as (outs & s' & G4 & G5 & G6 & Hs').
    exists ((fd e, Some out) :: outs), s'. split_and!; [|by cbn; rewrite G5|by constructor; [exists out|]|done].
    cbn [zip_with concat tasks_of app trabajar].
    assert (request_ok q) as Hq by (revert E1; unfold paso; by case_bool_decide).
    rewrite (atender_request q) in G2 by done. by rewrite (bind_ok _ _ _ _ _ G2), (bind_ok _ _ _ _ _ G4).
Qed.

(** ** The server and its clients *)

(** From its start on the server serves the volume that the image holds. *)
Lemma init_serves (m : mem) (mc : C) v sleep_value :
  holds_volume m v -> v_bytes v = ∅ -> (forall k, cached mc k = None) ->
  serves (set_counter sleep_value (s_Mapped_File_init m mc)) v.
Proof.
  intros Hv Hb Hmc. split; [split; constructor|done|done|]. split.
  - intros f o x Hx. rewrite Hb in Hx. done.
  - intros p k l _ Hl. cbn in Hl. by rewrite Hmc in Hl.
Qed.

(** C2: The clients together see the volume: in a turn of the main thread in which poll has no new
    connection, every client that has sent a whole request is heard, whatever else it sent behind it, and
    the clients that have gone are taken off the table.  A worker that runs the tasks that the turn has
    queued gives every socket that asked, in the order of the table, the answer that the abstract [pasos]
    has for the requests in this order, and then serves the volume of [pasos].  Nothing is lost of what the
    clients sent besides, and the other connections and entries stay.  The request of each client lies in one
    segment, the clients that asked have sockets of their own, errno is 0 and the queue empty at the start, and the word of the heap
    behind each array of block numbers is zero. *)
Theorem clients_served s sf v return_poll ready e0 es os l v' :
  (forall l, word_after_array l = 0) -> serves sf v ->
  return_poll <> -1 -> poll_writes ready (read_fds s) = e0 :: es -> length es = BACKLOG -> revents e0 <> POLLIN ->
  m_errno s = 0 -> task_queue s = [] ->
  Forall2 (ofrece (conexiones s)) es os -> NoDup (concat (zip_with active es os)) ->
  pasos v (concat (requests_of <$> os)) = Some (l, v') ->
  exists s' outs sf', turno return_poll ready s = Ok (tt, s') /\
    trabajar (task_queue s') sf = Ok (outs, sf') /\
    outs.*1 = asking es os /\ Forall2 answered outs.*2 l /\ serves sf' v' /\
    read_fds s' = e0 :: zip_with entry_after es os /\ m_errno s' = 0 /\ espera s' = espera s /\
    (forall e q more rest c, (e, Pide q more rest) ∈ zip es os -> conexiones s !! fd e = Some c ->
       conexiones s' !! fd e = Some (with_entrada (resto more rest) c)) /\
    (forall n, n ∉ concat (zip_with active es os) -> conexiones s' !! n = conexiones s !! n).
Proof.
  intros Hword Hs Hr Hpoll Hlen H0' He Hq Hall Hnd Hp.
  destruct (trabajar_refined es os sf v l v' Hword Hs (Forall2_length _ _ _ Hall) Hp) as (outs & sf' & G1 & G2 & G3 & G4).
  set (s1 := with_fds (e0 :: es) s).
  pose proof (turno_clientes_served es os [e0] s1 eq_refl He Hall Hnd) as Hrun.
  eexists _, outs, sf'. split; [|split; [|split_and!; [exact G2|exact G3|exact G4|..]]].
  - unfold turno. rewrite (bind_ok _ _ s (read_fds s) s) by done. rewrite Hpoll, (bind_ok _ _ s tt s1) by done.
    rewrite (proj2 (Z.eqb_neq _ _)) by done. rewrite (bind_ok _ _ _ _ _ (entry_there 0 e0 s1 eq_refl)).
    rewrite (proj2 (Z.eqb_neq _ _)) by done. rewrite <- Hlen. exact Hrun.
  - cbn [task_queue]. replace (task_queue s1) with (@nil (Z * @task_t C)) by done. exact G1.
  - done.
  - done.
  - done.
  - intros e q more rest c Hin Hc. by apply (conexiones_all_asked es os (conexiones s) e q more rest c).
  - intros n Hn. by apply conexiones_all_others.
Qed.

(** ** A new client *)

Lemma insert_at {A} pre (x y : A) post : <[length pre := y]> (pre ++ x :: post) = pre ++ y :: post.
Proof. replace (length pre) with (length pre + 0)%nat at 1 by lia. by rewrite insert_app_r. Qed.

Lemma insert_behind {A} (x0 : A) pre x y post : <[S (length pre) := y]> (x0 :: pre ++ x :: post) = x0 :: pre ++ y :: post.
Proof. apply (insert_at (x0 :: pre)). Qed.

Lemma aceptar_loop pre post nuevo : Forall (fun x => x <> 0) pre -> forall n i indice,
  (i <= length pre <= indice)%nat -> (length pre - i + 2 <= n)%nat ->
  aceptar_cliente_loop n (pre ++ 0 :: post) nuevo i indice = Ok (length pre, pre ++ nuevo :: post).
Proof.
  intros Hpre n. induction n as [|n IH]; intros i indice Hi Hn; [lia|]. cbn [aceptar_cliente_loop].
  rewrite (proj2 (Nat.leb_le _ _)) by lia. destruct (decide (i = length pre)) as [->|Hne].
  - rewrite lookup_app_r, Nat.sub_diag by lia. cbn [lookup list_lookup]. rewrite Z.eqb_refl.
    rewrite insert_at. destruct n as [|n]; [lia|]. cbn [aceptar_cliente_loop]. by rewrite (proj2 (Nat.leb_gt _ _)) by lia.
  - destruct (lookup_lt_is_Some_2 pre i) as [x Hx]; [lia|]. rewrite lookup_app_l, Hx by lia.
    rewrite (proj2 (Z.eqb_neq _ _)) by (by eapply Forall_lookup_1 in Hpre). apply IH; lia.
Qed.

(** The first free entry is taken. *)
Lemma aceptar_cliente_first pre post nuevo n :
  Forall (fun x => x <> 0) pre -> (length pre <= n)%nat ->
  aceptar_cliente (pre ++ 0 :: post) nuevo n = Ok (length pre, pre ++ nuevo :: post).
Proof. intros Hpre Hn. apply aceptar_loop; [done|lia..]. Qed.

Lemma of_res_ok {S A} (r : res A) a (s : S) : r = Ok a -> of_res r s = Ok (a, s).
Proof. by intros ->. Qed.

(** Without one the loop leaves the array. *)
Lemma aceptar_full l nuevo : Forall (fun x => x <> 0) l -> forall n i,
  (i <= length l)%nat -> (length l - i + 1 <= n)%nat ->
  aceptar_cliente_loop n l nuevo i (length l) = Fail OutOfBounds.
Proof.
  intros Hl n. induction n as [|n IH]; intros i Hi Hn; [lia|]. cbn [aceptar_cliente_loop].
  rewrite (proj2 (Nat.leb_le _ _)) by lia. destruct (l !! i) as [x|] eqn:Hx; [|done].
  rewrite (proj2 (Z.eqb_neq _ _)) by (by eapply Forall_lookup_1 in Hl). apply lookup_lt_Some in Hx. apply IH; lia.
Qed.

Lemma handshake_answer t : 0 <= t < 256 -> forall a b,
  exists answer, serializar_handshake (if t =? HANDSHAKE_INIC then HANDSHAKE_OK else HANDSHAKE_FAIL) = Ok answer /\
    server_responder_handshake [t; a; b] =
      Ok (answer, if t =? HANDSHAKE_INIC then HANDSHAKE_OK else HANDSHAKE_FAIL).
Proof.
  intros Ht a b. unfold server_responder_handshake, deserializar_handshake.
  assert (bytes_at [t; a; b] 0 1 = Ok [t]) as -> by reflexivity. cbn [res_bind le_value].
  rewrite Z.mul_0_r, Z.add_0_r. by destruct (t =? HANDSHAKE_INIC); eexists.
Qed.

(** The part of the turn before the handshake. *)
Lemma turno_accepts s return_poll ready e0 pre e post nuevo l :
  return_poll <> -1 -> poll_writes ready (read_fds s) = e0 :: pre ++ e :: post -> length (pre ++ e :: post) = BACKLOG ->
  revents e0 = POLLIN -> Forall (fun x => x <> 0) (fd <$> pre) -> fd e = 0 -> espera s = nuevo :: l ->
  turno return_poll ready s =
    (responder_handshake nuevo;; mret tt)
      (with_fds (e0 :: pre ++ set_fd nuevo e :: post) (with_espera l s)).
Proof.
  intros Hr Hpoll Hlen H0' Hpre He Hl. rewrite length_app in Hlen. cbn [length] in Hlen.
  set (s1 := with_fds (e0 :: pre ++ e :: post) s).
  unfold turno. rewrite (bind_ok _ _ s (read_fds s) s) by done. rewrite Hpoll, (bind_ok _ _ s tt s1) by done.
  rewrite (proj2 (Z.eqb_neq _ _)) by done. rewrite (bind_ok _ _ _ _ _ (entry_there 0 e0 s1 eq_refl)), H0'.
  cbn [Z.eqb POLLIN Pos.eqb]. unfold turno_aceptar. rewrite (bind_ok _ _ s1 (read_fds s1) s1) by done.
  rewrite (bind_ok _ _ s1 nuevo (with_espera l s1)) by (unfold accept, gets, mbind, M_bind; cbn; by rewrite Hl).
  assert (fd <$> drop 1 (read_fds s1) = (fd <$> pre) ++ 0 :: (fd <$> post)) as -> by (rewrite <- He; apply (fmap_app fd pre (e :: post))).
  rewrite (bind_ok _ _ _ (length (fd <$> pre), (fd <$> pre) ++ nuevo :: (fd <$> post)) (with_espera l s1)).
  2: { unfold of_res. rewrite aceptar_cliente_first; [done|done|]. rewrite length_fmap. lia. }
  cbn [fst]. rewrite length_fmap.
  assert (read_fds (with_espera l s1) !! S (length pre) = Some e) as Hent by by apply (list_lookup_middle (e0 :: pre)).
  rewrite (bind_ok _ _ _ _ _ (update_entry_there _ e _ _ Hent)).
  set (s2 := with_fds _ (with_espera l s1)).
  assert (s2 = with_fds (e0 :: pre ++ set_fd nuevo e :: post) (with_espera l s)) as ->.
  { unfold s2. change (read_fds (with_espera l s1)) with (e0 :: pre ++ e :: post). by rewrite insert_behind. }
  rewrite (bind_ok _ _ _ (set_fd nuevo e) (with_fds (e0 :: pre ++ set_fd nuevo e :: post) (with_espera l s))); [done|].
  by apply entry_there, (list_lookup_middle (e0 :: pre)).
Qed.

(** What is known of the turn in which [nuevo] waits for its acceptance and
    the entry [e] is the first free one. *)
Record accepts (s : P) (return_poll : Z) (ready : list Z) (e0 : pollfd) (pre : list pollfd) (e : pollfd)
    (post : list pollfd) (nuevo : Z) (l : list Z) : Prop := {
  ac_poll : return_poll <> -1 /\ poll_writes ready (read_fds s) = e0 :: pre ++ e :: post;
  ac_size : length (pre ++ e :: post) = BACKLOG;
  ac_server : revents e0 = POLLIN;
  ac_taken : Forall (fun x => x <> 0) (fd <$> pre);
  ac_free : fd e = 0;
  ac_waits : espera s = nuevo :: l
}.

Lemma turno_full s return_poll ready e0 es nuevo l :
  return_poll <> -1 -> poll_writes ready (read_fds s) = e0 :: es -> length es = BACKLOG ->
  revents e0 = POLLIN -> Forall (fun x => x <> 0) (fd <$> es) -> espera s = nuevo :: l ->
  turno return_poll ready s = Fail OutOfBounds.
Proof.
  intros Hr Hpoll Hlen H0' Hes Hl. set (s1 := with_fds (e0 :: es) s).
  unfold turno. rewrite (bind_ok _ _ s (read_fds s) s) by done. rewrite Hpoll, (bind_ok _ _ s tt s1) by done.
  rewrite (proj2 (Z.eqb_neq _ _)) by done. rewrite (bind_ok _ _ _ _ _ (entry_there 0 e0 s1 eq_refl)), H0'.
  cbn [Z.eqb POLLIN Pos.eqb]. unfold turno_aceptar. rewrite (bind_ok _ _ s1 (read_fds s1) s1) by done.
  rewrite (bind_ok _ _ s1 nuevo (with_espera l s1)) by (unfold accept, gets, mbind, M_bind; cbn; by rewrite Hl).
  apply bind_fail. unfold of_res. change (drop 1 (read_fds s1)) with es. unfold aceptar_cliente. rewrite <- Hlen.
  rewrite <- (length_fmap fd es). rewrite aceptar_full; [done|done|lia|lia].
Qed.

Lemma responder_there socket t a b more rest answer status c s :
  conexiones s !! socket = Some c -> entrada c = ([t; a; b] ++ more) :: rest ->
  server_responder_handshake [t; a; b] = Ok (answer, status) ->
  responder_handshake socket s = Ok (status,
    with_conexiones (<[socket := with_answer (with_entrada (resto more rest) c) (data answer)]> (conexiones s)) s).
Proof.
  intros Hc Ein Hresp. unfold responder_handshake.
  rewrite (bind_ok _ _ _ _ _ (recibir_there socket [t; a; b] more rest c s Hc Ein ltac:(unfold zlen; cbn; lia))).
  cbn [snd fst]. rewrite (bind_ok _ _ _ _ _ (of_res_ok _ _ _ Hresp)). cbn [snd fst].
  set (s1 := with_conexiones _ s).
  rewrite (bind_ok _ _ s1 (zlen (data answer)) (with_conexiones
    (<[socket := with_answer (with_entrada (resto more rest) c) (data answer)]> (conexiones s1)) s1)).
  - unfold s1, with_conexiones. cbn. by rewrite insert_insert_eq.
  - unfold send. rewrite (bind_ok _ _ s1 (conexiones s1) s1) by done.
    assert (conexiones s1 !! socket = Some (with_entrada (resto more rest) c)) as -> by apply lookup_insert_eq. done.
Qed.

Lemma last_not_polled ready (f : list pollfd) : length f = S BACKLOG -> poll_writes ready f !! BACKLOG = f !! BACKLOG.
Proof.
  intros Hf. unfold poll_writes. set (k := take BACKLOG ready).
  assert (length k <= BACKLOG)%nat as Hk by (unfold k; rewrite length_take; lia).
  rewrite lookup_app_r, length_zip_with by (rewrite length_zip_with; lia). rewrite lookup_drop. f_equal. lia.
Qed.

(** C18: A new client gets the first free entry of the table, and the answer of the handshake: OK to the
    message that starts one, FAIL to any other, which leaves it in the table all the same.  But the table has
    one entry more than poll watches: what poll writes never changes the last one, so that a client that
    got it is not heard; and without a free entry the acceptance leaves the array. *)
Theorem client_accepted s return_poll ready e0 pre e post nuevo l c t a b more rest :
  accepts s return_poll ready e0 pre e post nuevo l -> 0 <= t < 256 ->
  conexiones s !! nuevo = Some c -> entrada c = ([t; a; b] ++ more) :: rest ->
  (exists answer s', turno return_poll ready s = Ok (tt, s') /\
     serializar_handshake (if t =? HANDSHAKE_INIC then HANDSHAKE_OK else HANDSHAKE_FAIL) = Ok answer /\
     read_fds s' = e0 :: pre ++ set_fd nuevo e :: post /\ espera s' = l /\
     m_errno s' = m_errno s /\ task_queue s' = task_queue s /\
     conexiones s' = <[nuevo := with_answer (with_entrada (resto more rest) c) (data answer)]> (conexiones s)) /\
  (forall ready' (f : list pollfd), length f = S BACKLOG -> poll_writes ready' f !! BACKLOG = f !! BACKLOG) /\
  (forall s2 ready2 e2 es2 n2 l2, poll_writes ready2 (read_fds s2) = e2 :: es2 -> length es2 = BACKLOG ->
     revents e2 = POLLIN -> Forall (fun x => x <> 0) (fd <$> es2) -> espera s2 = n2 :: l2 ->
     turno return_poll ready2 s2 = Fail OutOfBounds).
Proof.
  intros [[Hr Hpoll] Hlen H0' Hpre He Hl] Ht Hc Ein. split; [|split].
  - destruct (handshake_answer t Ht a b) as (answer & Hser & Hresp). eexists answer, _. split; [|split; [exact Hser|]].
    + rewrite (turno_accepts s return_poll ready e0 pre e post nuevo l) by done.
      by rewrite (bind_ok _ _ _ _ _ (responder_there nuevo t a b more rest answer _ c
        (with_fds (e0 :: pre ++ set_fd nuevo e :: post) (with_espera l s)) Hc Ein Hresp)).
    + done.
  - apply last_not_polled.
  - intros. by eapply turno_full.
Qed.

(** ** A client that goes before its handshake *)

Lemma turno_clientes_idle before : forall pre after tail s,
  read_fds s = pre ++ before ++ after -> Forall (fun e => revents e <> POLLIN) before ->
  turno_clientes (seq (length pre) (length before) ++ tail) s = turno_clientes tail s.
Proof.
  induction before as [|e before IH]; intros pre after tail s Hr Hall; [done|].
  inversion Hall as [|? ? He Hall']; subst. cbn [length seq app turno_clientes].
  rewrite (bind_ok _ _ s tt s).
  - replace (S (length pre)) with (length (pre ++ [e])) by (rewrite length_app; cbn; lia).
    apply (IH (pre ++ [e]) after); [by rewrite Hr, <- app_assoc|done].
  - assert (read_fds s !! length pre = Some e) as Hent by (rewrite Hr; by apply list_lookup_middle).
    unfold turno_cliente. rewrite (bind_ok _ _ _ _ _ (entry_there (length pre) e s Hent)).
    by rewrite (proj2 (Z.eqb_neq _ _)).
Qed.

(** The round of a client whose request comes while errno is EBADFD. *)
Lemma turno_cliente_dropped i e q more rest c req s :
  read_fds s !! i = Some e -> m_errno s = EBADFD -> revents e = POLLIN -> request_ok q ->
  conexiones s !! fd e = Some c -> serializar_pedido (pedido_of q) = Ok req -> entrada c = (data req ++ more) :: rest ->
  turno_cliente i s = Ok (tt, {| read_fds := <[i := set_fd 0 e]> (read_fds s); m_errno := 0;
    conexiones := <[fd e := with_entrada ((payload_bytes (pedido_of q) ++ more) :: rest) c]> (conexiones s);
    espera := espera s; task_queue := task_queue s |}).
Proof.
  intros He Herr Hev Hq Hc Hreq Ein. destruct (request_payload q Hq) as [Hsz _].
  unfold turno_cliente. rewrite (bind_ok _ _ _ _ _ (entry_there i e s He)), Hev. cbn [Z.eqb POLLIN Pos.eqb].
  rewrite (bind_ok _ _ _ _ _ (header_there (fd e) _ req more rest c s (proj2 Hsz) Hreq Hc Ein)).
  set (s1 := with_conexiones _ s). rewrite (bind_ok _ _ s1 EBADFD s1) by by cbn; rewrite <- Herr.
  cbn [Z.eqb EBADFD Pos.eqb]. by rewrite (bind_ok _ _ _ _ _ (update_entry_there i e (set_fd 0) s1 He)).
Qed.

(** A whole turn in which errno is EBADFD from before. *)
Lemma turno_drops s return_poll ready e0 before ea after os q more rest :
  m_errno s = EBADFD ->
  return_poll <> -1 -> poll_writes ready (read_fds s) = e0 :: before ++ ea :: after ->
  length (before ++ ea :: after) = BACKLOG -> revents e0 <> POLLIN ->
  Forall (fun x => revents x <> POLLIN) before -> ofrece (conexiones s) ea (Pide q more rest) ->
  Forall2 (ofrece (conexiones s)) after os -> NoDup (fd ea :: concat (zip_with active after os)) ->
  exists s2, turno return_poll ready s = Ok (tt, s2) /\ m_errno s2 = 0 /\
    read_fds s2 = e0 :: before ++ set_fd 0 ea :: zip_with entry_after after os /\
    task_queue s2 = task_queue s ++ concat (zip_with tasks_of after os) /\
    entrada <$> conexiones s2 !! fd ea = Some ((payload_bytes (pedido_of q) ++ more) :: rest).
Proof.
  intros Herr Hr Hpoll Hlen He0 Hidle (Hev & Hq & c & req & Hc & Hreq & Ein) Hos Hnd.
  apply NoDup_cons in Hnd as [Hfresh Hnd].
  set (s1 := with_fds (e0 :: before ++ ea :: after) s).
  pose proof (turno_cliente_dropped (length (e0 :: before)) ea q more rest c req s1
    ltac:(by apply (list_lookup_middle (e0 :: before))) Herr Hev Hq Hc Hreq Ein) as Hdrop.
  set (s2 := {| read_fds := _ |}) in Hdrop.
  assert (read_fds s2 = (e0 :: before ++ [set_fd 0 ea]) ++ after) as Hfds.
  { unfold s2, s1. change (<[length (e0 :: before) := set_fd 0 ea]> ((e0 :: before) ++ ea :: after)
      = (e0 :: before ++ [set_fd 0 ea]) ++ after). rewrite insert_at. cbn. by rewrite <- app_assoc. }
  assert (Forall2 (ofrece (conexiones s2)) after os) as Hos2.
  { revert Hfresh. clear - Hos. unfold s2, s1. cbn [conexiones with_fds].
    induction Hos as [|e o es os Ho Hos IH]; intros Hfresh; constructor.
    - cbn in Hfresh. apply not_elem_of_app in Hfresh as [Hne _]. destruct o as [| |q' more' rest']; [done|..];
        (cbn in *; rewrite lookup_insert_ne by (intros E; apply Hne; rewrite E; by left); done).
    - apply IH. cbn in Hfresh. by apply not_elem_of_app in Hfresh as [_ ?]. }
  pose proof (turno_clientes_served after os (e0 :: before ++ [set_fd 0 ea]) s2 Hfds eq_refl Hos2 Hnd) as Hrun.
  set (s3 := {| read_fds := _ |}) in Hrun. exists s3. split; [|split_and!]; [|done|..].
  - unfold turno. rewrite (bind_ok _ _ s (read_fds s) s) by done. rewrite Hpoll, (bind_ok _ _ s tt s1) by done.
    rewrite (proj2 (Z.eqb_neq _ _)) by done. rewrite (bind_ok _ _ _ _ _ (entry_there 0 e0 s1 eq_refl)).
    rewrite (proj2 (Z.eqb_neq _ _)) by done. rewrite <- Hlen, length_app, seq_app.
    change 1%nat with (length [e0]) at 1. rewrite (turno_clientes_idle before [e0] (ea :: after)) by done.
    cbn [length seq turno_clientes]. rewrite (bind_ok _ _ _ _ _ Hdrop).
    rewrite <- Hrun. f_equal. f_equal. cbn. rewrite length_app. cbn. lia.
  - unfold s3. cbn. by rewrite <- app_assoc.
  - done.
  - unfold s3. cbn [conexiones]. rewrite conexiones_all_others by done. unfold s2. cbn [conexiones].
    by rewrite lookup_insert_eq.
Qed.

Lemma responder_gone socket c s :
  conexiones s !! socket = Some c -> entrada c = [] -> cerrada c = true ->
  exists status c', responder_handshake socket s =
    Ok (status, with_conexiones (<[socket := c']> (conexiones s)) (with_m_errno EBADFD s)).
Proof.
  intros Hc Ein Hx. destruct (handshake_answer 0 ltac:(lia) 0 0) as (answer & _ & Hresp).
  eexists _, (with_answer c (data answer)). unfold responder_handshake.
  rewrite (bind_ok _ _ _ _ _ (recibir_gone socket 3 c s Hc Ein Hx)). cbn [snd fst].
  change (replicate (Z.to_nat 3) 0) with [0; 0; 0]. rewrite (bind_ok _ _ _ _ _ (of_res_ok _ _ _ Hresp)).
  cbn [snd fst]. set (s1 := with_m_errno EBADFD s).
  rewrite (bind_ok _ _ s1 (zlen (data answer)) (with_conexiones (<[socket := with_answer c (data answer)]> (conexiones s)) s1));
    [done|].
  unfold send. rewrite (bind_ok _ _ s1 (conexiones s1) s1) by done.
  assert (conexiones s1 !! socket = Some c) as -> by done. done.
Qed.

(** ** A client that goes in the middle of a message *)

(** recv gives 0 for ever. *)
Lemma recibir_loop_gone socket c longitud s aux : forall n buffer,
  conexiones s !! socket = Some c -> entrada c = [] -> cerrada c = true ->
  0 <= aux <= zlen buffer -> aux < longitud -> longitud < 2 ^ 31 ->
  recibir_loop n socket buffer aux longitud s = Fail OutOfFuel.
Proof.
  induction n as [|n IH]; intros buffer Hc Ein Hx Ha Hl H31; [done|]. cbn [recibir_loop].
  rewrite u32_small, (proj2 (Z.ltb_lt _ _)) by lia.
  rewrite (bind_ok _ _ s (0, []) s).
  2: { unfold recv. rewrite (bind_ok _ _ s (conexiones s) s) by done. rewrite Hc, Ein, Hx. by case_match. }
  cbn [fst snd]. rewrite (bind_ok _ _ s (array_write buffer aux []) s).
  2: { unfold put_at. change (zlen (@nil Z)) with 0. rewrite Z.add_0_r.
       by rewrite (proj2 (Z.leb_le 0 aux)), (proj2 (Z.leb_le aux _)) by lia. }
  rewrite Z.add_0_r, s32_small by lia. apply IH; [done..| |done|done].
  rewrite (proj2 (take_array_write buffer aux [] ltac:(lia) ltac:(change (zlen (@nil Z)) with 0; lia))). lia.
Qed.

(** C19: A client that goes after the first bytes of a header stops the server: [sockete_recibir] asks for the
    rest, gets 0 each time, which it does not test behind the first call, and never ends, whatever the number
    of its rounds; no other client is heard again. *)
Theorem cut_message_hangs i e c l s :
  read_fds s !! i = Some e -> revents e = POLLIN -> conexiones s !! fd e = Some c ->
  entrada c = [l] -> cerrada c = true -> 0 < zlen l < 3 ->
  turno_cliente i s = Fail OutOfFuel /\
  exists buffer s', recv (fd e) 3 s = Ok ((zlen l, l), s') /\ put_at [0; 0; 0] 0 l s' = Ok (buffer, s') /\
    forall n, recibir_loop n (fd e) buffer (zlen l) 3 s' = Fail OutOfFuel.
Proof.
  intros He Hev Hc Ein Hx Hl.
  set (s1 := with_conexiones (<[fd e := with_entrada [] c]> (conexiones s)) s).
  assert (recv (fd e) 3 s = Ok ((zlen l, l), s1)) as Hrecv.
  { unfold recv. rewrite (bind_ok _ _ s (conexiones s) s) by done. rewrite Hc, Ein. cbn [Z.eqb]. cbv zeta.
    rewrite take_ge by (unfold zlen in Hl; lia).
    by rewrite (without_segment_app c l [] []) by by rewrite app_nil_r. }
  set (buffer := array_write [0; 0; 0] 0 l).
  assert (put_at [0; 0; 0] 0 l s1 = Ok (buffer, s1)) as Hput.
  { unfold put_at. rewrite (proj2 (Z.leb_le (0 + zlen l) _)) by (unfold zlen at 2; cbn [length]; lia). done. }
  assert (forall n, recibir_loop n (fd e) buffer (zlen l) 3 s1 = Fail OutOfFuel) as Hloop.
  { intros n. apply (recibir_loop_gone (fd e) (with_entrada [] c)); [apply lookup_insert_eq|done|done| |lia|lia].
    unfold buffer. rewrite (proj2 (take_array_write [0; 0; 0] 0 l ltac:(lia) ltac:(change (zlen [0; 0; 0]) with 3; lia))).
    change (zlen [0; 0; 0]) with 3. lia. }
  split; [|by exists buffer, s1].
  unfold turno_cliente. rewrite (bind_ok _ _ _ _ _ (entry_there i e s He)), Hev. cbn [Z.eqb POLLIN Pos.eqb].
  apply bind_fail. unfold recibir_header_de. apply bind_fail. unfold sockete_recibir_en.
  rewrite (bind_ok _ _ _ _ _ Hrecv). cbn [fst snd]. rewrite (proj2 (Z.leb_gt _ _)) by lia.
  change (replicate (Z.to_nat 3) 0) with [0; 0; 0]. by rewrite (bind_ok _ _ _ _ _ Hput).
Qed.

(** C17: A client that goes before its handshake takes another one with it: the handshake leaves errno at
    EBADFD, the turn goes on without looking at it, and in a later turn the first client that asks for
    something is taken for gone: its entry is freed, its request is lost after its header was received, and
    no task is queued for it; the clients behind it are served. *)
Theorem handshake_drops_request s return_poll ready e0 pre e post nuevo l c :
  accepts s return_poll ready e0 pre e post nuevo l ->
  conexiones s !! nuevo = Some c -> entrada c = [] -> cerrada c = true ->
  exists s1, turno return_poll ready s = Ok (tt, s1) /\ m_errno s1 = EBADFD /\
    read_fds s1 = e0 :: pre ++ set_fd nuevo e :: post /\
    (forall n, n <> nuevo -> conexiones s1 !! n = conexiones s !! n) /\
    forall return_poll2 ready2 e2 before ea after os q more rest,
      return_poll2 <> -1 -> poll_writes ready2 (read_fds s1) = e2 :: before ++ ea :: after ->
      length (before ++ ea :: after) = BACKLOG -> revents e2 <> POLLIN ->
      Forall (fun x => revents x <> POLLIN) before -> ofrece (conexiones s1) ea (Pide q more rest) ->
      Forall2 (ofrece (conexiones s1)) after os -> NoDup (fd ea :: concat (zip_with active after os)) ->
      exists s2, turno return_poll2 ready2 s1 = Ok (tt, s2) /\ m_errno s2 = 0 /\
        read_fds s2 = e2 :: before ++ set_fd 0 ea :: zip_with entry_after after os /\
        task_queue s2 = task_queue s ++ concat (zip_with tasks_of after os) /\
        entrada <$> conexiones s2 !! fd ea = Some ((payload_bytes (pedido_of q) ++ more) :: rest).
Proof.
  intros [[Hr Hpoll] Hlen H0' Hpre He Hl] Hc Ein Hx.
  destruct (responder_gone nuevo c (with_fds (e0 :: pre ++ set_fd nuevo e :: post) (with_espera l s)) Hc Ein Hx)
    as (status & c' & Hresp). set (s0 := with_fds _ _) in Hresp.
  set (s1 := with_conexiones (<[nuevo := c']> (conexiones s0)) (with_m_errno EBADFD s0)) in Hresp.
  exists s1. split; [|split; [done|split; [done|split]]].
  - rewrite (turno_accepts s return_poll ready e0 pre e post nuevo l) by done. by rewrite (bind_ok _ _ _ _ _ Hresp).
  - intros n Hn. by apply lookup_insert_ne.
  - intros r2 ready2 e2 before ea after os q more rest Hr2 Hpoll2 Hlen2 He2 Hidle Hask Hos Hnd.
    destruct (turno_drops s1 r2 ready2 e2 before ea after os q more rest) as (s2 & G1 & G2 & G3 & G4 & G5); [done..|].
    by exists s2.
Qed.
End Service.

(** ** Witnesses: four clients, one of them gone; an acceptance, and one that fails *)

#[local] Instance service_superblock : Superblock_constants := demo_sb.
#[local] Instance service_abi : Abi := abi_i386.
#[local] Instance service_word_after : Word_after_array := fun _ => 0.

Definition mensaje (q : peticion) : list Z :=
  match serializar_pedido (pedido_of q) with Ok r => data r | Fail _ => [] end.

Definition is_ok {A} (r : res A) : bool := match r with Ok _ => true | Fail _ => false end.

Definition watched (n r : Z) : pollfd := {| fd := n; events := POLLIN; revents := r |}.

Definition creation_request : peticion := Creacion true [] (str "f") 420.
Definition writing_request : peticion := Escritura [str "f"] (str "hello") 0.
Definition reading_request : peticion := Lectura [str "f"] 100 1.

Definition open_with (l : list (list Z)) : conexion := {| entrada := l; cerrada := false; salida := [] |}.
Definition gone : conexion := {| entrada := []; cerrada := true; salida := [] |}.

Definition service_connections : gmap Z conexion :=
  list_to_map [(5, open_with [mensaje creation_request]);
               (6, open_with [mensaje writing_request ++ [9]; [1]]);
               (7, gone); (8, open_with [mensaje reading_request])].

Definition service_state : principal (C := sample_cache) :=
  {| read_fds := [watched 3 0; watched 5 0; watched 6 0; watched 7 0; watched 8 0] ++ replicate 96 (watched 0 0);
     m_errno := 0; conexiones := service_connections; espera := []; task_queue := [] |}.

Definition service_entries : list pollfd :=
  [watched 5 1; watched 6 1; watched 7 1; watched 8 1] ++ replicate 96 (watched 0 0).
Definition service_offers : list oferta :=
  [Pide creation_request [] []; Pide writing_request [9] [[1]]; Cierra; Pide reading_request [] []] ++ replicate 96 Nada.

Lemma asks (m : gmap Z conexion) n q more rest :
  bool_decide (request_ok q) = true -> is_ok (serializar_pedido (pedido_of q)) = true ->
  m !! n = Some (open_with ((mensaje q ++ more) :: rest)) -> ofrece m (watched n 1) (Pide q more rest).
Proof.
  intros Hq Hs Hm. split; [done|]. split; [by apply bool_decide_eq_true in Hq|]. unfold mensaje in Hm.
  destruct (serializar_pedido (pedido_of q)) as [r|] eqn:E; [|done]. by exists (open_with ((data r ++ more) :: rest)), r.
Defined.

Lemma service_offered : Forall2 (ofrece service_connections) service_entries service_offers.
Proof.
  unfold service_entries, service_offers. apply Forall2_app; [|by apply Forall2_replicate].
  constructor; [by apply asks; vm_compute|]. constructor; [by apply asks; vm_compute|].
  constructor; [split; [done|by exists gone]|]. constructor; [by apply asks; vm_compute|constructor].
Defined.

Lemma service_pasos : exists v', pasos demo_volume [creation_request; writing_request; reading_request] =
  Some ([(RESPUESTA_OK, Nothing); (RESPUESTA_OK, Count 5); (RESPUESTA_OK, Read (str "ello"))], v').
Proof. eexists. vm_compute. reflexivity. Defined.

Lemma clients_served_witness : exists s' outs sf',
  turno 4 [0; 1; 1; 1; 1] service_state = Ok (tt, s') /\ trabajar (task_queue s') mkdir_server = Ok (outs, sf') /\
  outs.*1 = [5; 6; 8] /\
  Forall2 answered outs.*2 [(RESPUESTA_OK, Nothing); (RESPUESTA_OK, Count 5); (RESPUESTA_OK, Read (str "ello"))] /\
  (fd <$> take 5 (read_fds s')) = [3; 5; 6; 0; 8] /\ (exists v', serves sf' v').
Proof.
  destruct service_pasos as [v' Hp].
  destruct (@clients_served demo_sb demo_sb_ok (fun _ => 0) abi_i386 abi_i386_ok sample_cache _ _ service_state
    mkdir_server demo_volume 4 [0; 1; 1; 1; 1] (watched 3 0) service_entries service_offers _ v' (fun _ => eq_refl) demo_serves
    ltac:(done) ltac:(reflexivity) ltac:(reflexivity) ltac:(done) ltac:(done) ltac:(done) service_offered
    ltac:(refine (bool_decide_unpack _ _); vm_compute; exact I) Hp)
    as (s' & outs & sf' & G1 & G2 & G3 & G4 & G5 & G6 & _).
  exists s', outs, sf'. split; [exact G1|]. split; [exact G2|]. split; [rewrite G3; reflexivity|].
  split; [exact G4|]. split; [rewrite G6; reflexivity|]. by exists v'.
Defined.

Definition arriving (c : conexion) : principal (C := sample_cache) :=
  {| read_fds := [watched 3 0; watched 5 0] ++ replicate 99 (watched 0 0); m_errno := 0;
     conexiones := <[6 := c]> {[5 := open_with [mensaje reading_request]]}; espera := [6]; task_queue := [] |}.

Lemma arriving_accepts c :
  accepts (arriving c) 1 [1] (watched 3 1) [watched 5 0] (watched 0 0) (replicate 98 (watched 0 0)) 6 [].
Proof. split; [by split|done..|by repeat constructor|done|done]. Defined.

Lemma client_accepted_witness : exists s',
  turno 1 [1] (arriving (open_with [[HANDSHAKE_INIC; 0; 0]])) = Ok (tt, s') /\
  (fd <$> take 4 (read_fds s')) = [3; 5; 6; 0] /\
  (salida <$> conexiones s' !! 6) = Some [[HANDSHAKE_OK; 0; 0]].
Proof.
  destruct (@client_accepted demo_sb (fun _ => 0) abi_i386 sample_cache _ (arriving (open_with [[HANDSHAKE_INIC; 0; 0]])) 1 [1] (watched 3 1) [watched 5 0] (watched 0 0)
    (replicate 98 (watched 0 0)) 6 [] (open_with [[HANDSHAKE_INIC; 0; 0]]) HANDSHAKE_INIC 0 0 [] [] (arriving_accepts _)
    ltac:(done) ltac:(reflexivity) eq_refl) as [(answer & s' & G1 & G2 & G3 & _ & _ & _ & G4) _].
  exists s'. split; [exact G1|]. split; [rewrite G3; reflexivity|]. rewrite G4.
  injection G2 as <-. reflexivity.
Defined.

Lemma handshake_drops_request_witness : exists s1 s2,
  turno 1 [1] (arriving gone) = Ok (tt, s1) /\ turno 1 [0; 1] s1 = Ok (tt, s2) /\
  task_queue s2 = [] /\ (fd <$> take 4 (read_fds s2)) = [3; 0; 6; 0].
Proof.
  destruct (@handshake_drops_request demo_sb (fun _ => 0) abi_i386 abi_i386_ok sample_cache _ (arriving gone) 1 [1] (watched 3 1) [watched 5 0] (watched 0 0)
    (replicate 98 (watched 0 0)) 6 [] gone (arriving_accepts _) ltac:(reflexivity) eq_refl eq_refl) as (s1 & G1 & _ & G2 & G3 & Hnext).
  destruct (Hnext 1 [0; 1] (watched 3 0) [] (watched 5 1) (watched 6 0 :: replicate 98 (watched 0 0))
    (Nada :: replicate 98 Nada) reading_request [] []) as (s2 & G4 & _ & G5 & G6 & _).
  - done.
  - rewrite G2. reflexivity.
  - reflexivity.
  - done.
  - constructor.
  - apply asks; [vm_compute; reflexivity..|]. rewrite G3 by done. reflexivity.
  - constructor; [done|by apply Forall2_replicate].
  - refine (bool_decide_unpack _ _); vm_compute; exact I.
  - exists s1, s2. split; [exact G1|]. split; [exact G4|]. split; [rewrite G6; reflexivity|rewrite G5; reflexivity].
Defined.

Definition cut_off : conexion := {| entrada := [[0; 5]]; cerrada := true; salida := [] |}.

Lemma cut_message_hangs_witness :
  turno_cliente 1 {| read_fds := [watched 3 0; watched 5 1]; m_errno := 0; conexiones := {[5 := cut_off]};
                     espera := []; task_queue := @nil (Z * @task_t sample_cache) |} = Fail OutOfFuel.
Proof.
  apply (@cut_message_hangs demo_sb (fun _ => 0) abi_i386 sample_cache _ 1 (watched 5 1) cut_off [0; 5]);
    [reflexivity..|unfold zlen; cbn [length]; lia].
Defined.
