(* ===== verification/Fuse.v ===== *)
(** * Fuse: the client

    Models the operations of [fsc/sources_FSC/operaciones_fuse.c] and the use
    of memcached in [manejador_memcached.c].  Each operation is a message to
    the server on a connection of its own, and the cache of the client keeps
    attributes under "attr-" and listings under "dir-" with the path.

    The server is an instance of the class [Server]: from the bytes of a
    request to the bytes of the answer, or to no answer, for which the client
    waits for ever.  The mutex of an operation makes it one step. *)

From S2P Require Import Prelude Memory Ext2 CString Paths Rfs Alloc Dirs FileOps Serial Requests.

(** ** The server as the client sees it *)

Class Server (S : Type) := serve : list Z -> M S (option (list Z)).

#[export] Instance rfs_server {Super_constants : Superblock_constants} {WA : Word_after_array} {AB : Abi}
    {C : Type} `{Memcached C} : Server (rfs C) :=
  fun bytes => answer ← atender bytes; mret (Serial.data <$> answer).

(** The key that is printed is not terminated: what lies behind it in the
    heap, up to the first NUL. *)
Class Bytes_behind_key := behind_key : list Z.

Definition MAX_KEY_SIZE : Z := 44.

(** sprintf into a buffer of [size] bytes *)
Definition sprintf_fits (size : Z) (text : list Z) : bool := strlen text + 1 <=? size.

(** %u *)
Fixpoint decimal_digits (fuel : nat) (n : Z) : list Z :=
  match fuel with
  | O => []
  | S fuel => (if n <? 10 then [] else decimal_digits fuel (n / 10)) ++ [48 + n mod 10]
  end.

Definition decimal (n : Z) : list Z := decimal_digits 10 (u32 n).

(** struct stat, as far as it is filled *)
Record stat_t := { st_ino : Z; stat_mode : Z; st_nlink : Z; stat_size : Z; st_blocks : Z }.

Definition S_IFDIR : Z := 16384.
Definition S_IFREG : Z := 32768.

(** modo & 0x4000 ? (S_IFDIR | 0755) : (S_IFREG | 0444), and so on *)
Definition fill_stat (attrib : t_respuesta_obtener_atributos) : stat_t :=
  let directory := negb (Z.land (modo attrib) 16384 =? 0) in
  {| st_ino := numero_de_inodo attrib;
     stat_mode := if directory then Z.lor S_IFDIR 493 else Z.lor S_IFREG 292;
     st_nlink := if directory then 2 else 1;
     stat_size := at_size attrib;
     st_blocks := cantidad_de_bloques_de_512b attrib |}.

Section Fuse.
Context {AB : Abi} {BK : Bytes_behind_key} {C : Type} `{Memcached C} {S : Type} `{Server S}.

Record fsc := { memcached : C; server : S }.

Abbreviation MF := (M fsc).

Definition on_server {A} (m : M S A) : MF A := fun s =>
  match m (server s) with
  | Ok (a, sv) => Ok (a, {| memcached := memcached s; server := sv |})
  | Fail e => Fail e
  end.

Definition lift_res {A} (r : res A) : MF A := fun s => match r with Ok a => Ok (a, s) | Fail e => Fail e end.

Definition log_debug (size : Z) (text : list Z) : MF unit :=
  if sprintf_fits size text then mret tt else fail OutOfBounds.

(** ** The cache *)

Definition memcached_library_get (key : list Z) : MF (option (list Z)) := fun s =>
  let '(v, c) := memcached_get key (memcached s) in Ok (v, {| memcached := c; server := server s |}).
Definition memcached_library_set (key value : list Z) : MF unit :=
  modify (fun s => {| memcached := memcached_set key value (memcached s); server := server s |}).
Definition memcached_library_delete (key : list Z) : MF unit :=
  modify (fun s => {| memcached := memcached_delete key (memcached s); server := server s |}).

(** ** A request and its answer *)

(** enviar_paquete and recibir_header: the header, and the bytes behind it *)
Definition enviar_recibir (stream : res t_stream) : MF (t_header * list Z) :=
  stream ← lift_res stream;
  answer ← on_server (serve (take (Z.to_nat (longitud stream)) (Serial.data stream)));
  match answer with
  | None => fail Deadlock
  | Some bytes =>
      if zlen bytes <? 3 then fail Deadlock
      else header ← lift_res (deserializar_header (take 3 bytes)); mret (header, drop 3 bytes)
  end.

(** recibir_paquete *)
Definition recibir_paquete (header : t_header) (rest : list Z) : MF (list Z) :=
  if h_longitud header <=? zlen rest then mret (take (Z.to_nat (h_longitud header)) rest) else fail Deadlock.

Definition is_error (errors : list Z) (tipo : Z) : bool := bool_decide (tipo ∈ errors).

(** The key of the listing of the parent of [path] is deleted. *)
Definition forget_parent (path : list Z) : MF unit :=
  previus_path ← deref (get_previus_path path);
  memcached_library_delete (memcached_library_key LEER_DIRECTORIO_key previus_path).

(** ** The operations: the result, and what they fill *)

Definition crear_archivo (path : list Z) (mode : Z) : MF Z :=
  log_debug 255 (str "Operation: Create File - Path: " ++ path);;
  r ← enviar_recibir (serializar_pedido_modo_nombre CREAR_ARCHIVO path mode);
  if is_error [- EEXIST; - ENAMETOOLONG] (tipo (fst r)) then mret (tipo (fst r))
  else forget_parent path;; mret 0.

Definition abrir_archivo (path : list Z) : MF Z :=
  log_debug 255 (str "Operation: Open File - Path: " ++ path);;
  r ← enviar_recibir (serializar_pedido_nombre ABRIR_ARCHIVO path);
  if is_error [- ENOENT; - ENAMETOOLONG] (tipo (fst r)) then mret (tipo (fst r)) else mret 0.

(** [buffer_size] is the room in FUSE's buffer: [size] bytes. *)
Definition leer_archivo (path : list Z) (size offset : Z) : MF (Z * list Z) :=
  log_debug 255 (str "Operation: Read File - Path: " ++ path ++ str " - Size: " ++ decimal size
                   ++ str " - Offset: " ++ decimal offset);;
  r ← enviar_recibir (serializar_pedido_leer_archivo path size offset);
  if is_error [- ENOENT; - ENAMETOOLONG] (tipo (fst r)) then mret (tipo (fst r), [])
  else
    payload ← recibir_paquete (fst r) (snd r);
    respuesta ← lift_res (deserializar_respuesta_leer_archivo payload (h_longitud (fst r)));
    let bytes := rl_bytes_leidos respuesta in
    buffer ← lift_res (bytes_at (rl_buffer respuesta) 0 bytes);
    if bytes <=? size then mret (s32 bytes, buffer) else fail OutOfBounds.

Definition escribir_archivo (path buffer : list Z) (size offset : Z) : MF Z :=
  log_debug 255 (str "Operation: Write File - Path: " ++ path ++ str " - Size: " ++ decimal size
                   ++ str " - Offset: " ++ decimal offset);;
  r ← enviar_recibir (serializar_pedido_escribir_archivo path buffer size offset);
  if is_error [- ENOENT; - ENAMETOOLONG] (tipo (fst r)) then mret (tipo (fst r))
  else
    payload ← recibir_paquete (fst r) (snd r);
    bytes ← lift_res (deserializar_respuesta_escribir_archivo payload (h_longitud (fst r)));
    mret (s32 bytes).

Definition cerrar_archivo (path : list Z) : MF Z :=
  log_debug 255 (str "Operation: Close File - Path: " ++ path);; mret 0.

Definition truncar_archivo (path : list Z) (size : Z) : MF Z :=
  log_debug 255 (str "Operation: Truncate File - Path: " ++ path ++ str " - Size: " ++ decimal size);;
  r ← enviar_recibir (serializar_pedido_truncar_archivo path size);
  if is_error [- ENOENT; - ENAMETOOLONG] (tipo (fst r)) then mret (tipo (fst r))
  else memcached_library_delete (memcached_library_key OTHER_key path);; mret 0.

Definition eliminar_archivo (path : list Z) : MF Z :=
  log_debug 255 (str "Operation: Unlink File - Path: " ++ path);;
  r ← enviar_recibir (serializar_pedido_nombre ELIMINAR_ARCHIVO path);
  if is_error [- ENOENT; - ENAMETOOLONG] (tipo (fst r)) then mret (tipo (fst r))
  else forget_parent path;; mret 0.

Definition crear_directorio (path : list Z) (mode : Z) : MF Z :=
  log_debug 255 (str "Operation: Create Directory - Path: " ++ path);;
  r ← enviar_recibir (serializar_pedido_modo_nombre CREAR_DIRECTORIO path mode);
  if is_error [- EEXIST; - ENAMETOOLONG] (tipo (fst r)) then mret (tipo (fst r))
  else forget_parent path;; mret 0.

(** filler gets the names, which the result has in order. *)
Definition leer_directorio (path : list Z) : MF (Z * list (list Z)) :=
  log_debug 255 (str "Operation: Read Directory - Path: " ++ path);;
  let clave := str "dir-" ++ path in
  (if strlen clave + 1 <=? MAX_KEY_SIZE then mret tt else fail OutOfBounds);;
  valor_obtenido ← memcached_library_get clave;
  match valor_obtenido with
  | Some valor =>
      text ← lift_res (c_string (nul_terminated valor));
      mret (0, string_split text [hash_sign])
  | None =>
      r ← enviar_recibir (serializar_pedido_nombre LEER_DIRECTORIO path);
      if is_error [- ENOENT; - ENAMETOOLONG] (tipo (fst r)) then mret (tipo (fst r), [])
      else
        payload ← recibir_paquete (fst r) (snd r);
        memcached_library_set clave payload;;
        text ← lift_res (c_string payload);
        mret (0, string_split text [hash_sign])
  end.

Definition eliminar_directorio (path : list Z) : MF Z :=
  log_debug 255 (str "Operation: Delete Directory - Path: " ++ path);;
  r ← enviar_recibir (serializar_pedido_nombre ELIMINAR_DIRECTORIO path);
  if is_error [- ENOENT; - ENAMETOOLONG] (tipo (fst r)) then mret (tipo (fst r))
  else
    forget_parent path;;
    previus_path ← deref (get_previus_path path);
    log_debug 255 (str "Operation: Memcached Delete- Key: "
                     ++ memcached_library_key LEER_DIRECTORIO_key previus_path ++ behind_key);;
    mret 0.

(** The value of memcached is deserialized without a look at its length. *)
Definition obtener_atributos (path : list Z) : MF (Z * option stat_t) :=
  log_debug 255 (str "Operation: Get Attributes- Path: " ++ path);;
  let key := memcached_library_key OTHER_key path in
  log_debug 255 (str "Operation: Memcached Get - Key: " ++ key ++ behind_key);;
  value ← memcached_library_get key;
  match value with
  | Some value =>
      attrib_memcached ← lift_res (deserializar_respuesta_obtener_atributos value (zlen value));
      mret (0, Some (fill_stat attrib_memcached))
  | None =>
      r ← enviar_recibir (serializar_pedido_nombre OBTENER_ATRIBUTOS path);
      if is_error [- ENOENT; - ENAMETOOLONG] (tipo (fst r)) then mret (tipo (fst r), None)
      else
        payload ← recibir_paquete (fst r) (snd r);
        memcached_library_set key payload;;
        log_debug 255 (str "Operation: Memcached Set- Key: " ++ key ++ behind_key);;
        attrib_payload ← lift_res (deserializar_respuesta_obtener_atributos payload (h_longitud (fst r)));
        mret (0, Some (fill_stat attrib_payload))
  end.
End Fuse.

Arguments fsc : clear implicits.
