(* ===== verification/FuseFacts.v ===== *)
(** * FuseFacts: the client's operations, end to end

    What FUSE gets from an operation of the client, with the server of this
    program at the other end: attributes, listings, contents, and the error
    for a path that is not there.  Then what the cache of the client may still
    say later: a listing is forgotten when an entry of the directory comes or
    goes, but attributes are forgotten by truncate alone. *)

From S2P Require Import Prelude Memory Bitarray Ext2 Ext2Facts CString Paths Rfs ActiveFiles Alloc BlockMap Dirs Walk FileOps Serial Requests SerialFacts Lookups Reads Fuse.

(** The lengths of what is printed. *)
Ltac logs := unfold strlen in *; autorewrite with liga in *;
  repeat match goal with |- context [zlen (str ?x)] => change (zlen (str x)) with (Z.of_nat (String.length x)) end;
  simpl String.length in *; try lia.

Section Client.
Context {Super_constants : Superblock_constants} {WA : Word_after_array} {AB : Abi} {BK : Bytes_behind_key}.
Context {C : Type} `{MS : MemcachedLaws C} {CC : Type} `{ML : MemcachedLaws CC}.
Abbreviation client := (fsc CC (rfs C)).
Implicit Types (s t : client) (refs : list nat) (path : list Z).

(** ** Messages *)

Lemma filled_length n l d : 0 <= n -> filled n l = Ok d -> zlen d = n.
Proof.
  intros Hn. unfold filled. case_test; [|done]. intros [= <-]. zify_bool.
  unfold zlen in *. rewrite length_app, length_replicate. lia.
Qed.

Lemma stream_of_length n l st : 0 <= n -> stream_of n l = Ok st -> longitud st = n /\ zlen (data st) = n.
Proof.
  intros Hn. unfold stream_of. destruct (filled n l) as [d|] eqn:Hd; [|done]. intros [= <-].
  split; [done|]. by eapply filled_length.
Qed.

Lemma take_stream n l st : stream_of (u32 n) l = Ok st -> take (Z.to_nat (longitud st)) (data st) = data st.
Proof.
  intros Hst. destruct (stream_of_length _ _ _ (proj1 (u32_range n)) Hst) as [Hl Hd].
  apply take_ge. unfold zlen in Hd. lia.
Qed.

(** The whole message is sent. *)
Lemma pedido_bytes p req :
  serializar_pedido p = Ok req -> take (Z.to_nat (longitud req)) (data req) = data req.
Proof.
  destruct p; cbn [serializar_pedido];
    unfold serializar_pedido_modo_nombre, serializar_pedido_nombre, serializar_pedido_leer_archivo,
      serializar_pedido_escribir_archivo, serializar_pedido_truncar_archivo; intros Hr;
    try (by eapply take_stream).
  destruct (bytes_at buffer 0 (zlen buffer)) as [b|]; [|done]. cbn [res_bind] in Hr. by eapply take_stream.
Qed.

Lemma header_needs_three l h : deserializar_header (take 3 l) = Ok h -> 3 <= zlen l.
Proof.
  unfold deserializar_header. destruct (bytes_at (take 3 l) 0 1) as [a|]; [|done]. cbn [res_bind].
  unfold bytes_at at 1. case_test; [|done]. intros _. zify_bool. unfold zlen in *. rewrite length_take in *. lia.
Qed.

Lemma enviar_recibir_answer p req ans tp payload s sv :
  serializar_pedido p = Ok req -> atender (data req) (server s) = Ok (Some ans, sv) ->
  message ans tp payload ->
  enviar_recibir (serializar_pedido p) s =
    Ok (({| tipo := tp; h_longitud := zlen payload |}, payload), {| memcached := memcached s; server := sv |}).
Proof.
  intros Hreq Hat (Hlen & Hh & Hp). unfold enviar_recibir.
  rewrite (bind_ok _ _ s req s) by (unfold lift_res; by rewrite Hreq).
  rewrite (bind_ok _ _ s (Some (data ans)) {| memcached := memcached s; server := sv |}).
  - pose proof (header_needs_three _ _ Hh). rewrite (proj2 (Z.ltb_ge _ _)) by lia.
    rewrite (bind_ok _ _ _ {| tipo := tp; h_longitud := zlen payload |} {| memcached := memcached s; server := sv |}).
    + by rewrite Hp.
    + unfold lift_res. by rewrite Hh.
  - unfold on_server, serve, rfs_server. rewrite (pedido_bytes p req Hreq). by rewrite (bind_ok _ _ _ _ _ Hat).
Qed.

(** A request that is not answered blocks the client. *)
Lemma enviar_recibir_silence p req s sv :
  serializar_pedido p = Ok req -> atender (data req) (server s) = Ok (None, sv) ->
  enviar_recibir (serializar_pedido p) s = Fail Deadlock.
Proof.
  intros Hreq Hat. unfold enviar_recibir.
  rewrite (bind_ok _ _ s req s) by (unfold lift_res; by rewrite Hreq).
  rewrite (bind_ok _ _ s None {| memcached := memcached s; server := sv |}); [done|].
  unfold on_server, serve, rfs_server. rewrite (pedido_bytes p req Hreq). by rewrite (bind_ok _ _ _ _ _ Hat).
Qed.

Lemma lift_res_ok {A} (r : res A) a s : r = Ok a -> lift_res r s = Ok (a, s).
Proof. by intros ->. Qed.

Lemma recibir_paquete_all tp payload s :
  recibir_paquete {| tipo := tp; h_longitud := zlen payload |} payload s = Ok (payload, s).
Proof.
  unfold recibir_paquete. cbn [h_longitud]. rewrite Z.leb_refl, take_ge by (unfold zlen; lia). done.
Qed.

Lemma log_debug_ok n text s : strlen text + 1 <= n -> log_debug n text s = Ok (tt, s).
Proof. intros Hn. unfold log_debug, sprintf_fits. by rewrite (proj2 (Z.leb_le _ _)). Qed.

Lemma decimal_length n : zlen (decimal n) <= 10.
Proof.
  unfold decimal. assert (Hd : forall f m, (length (decimal_digits f m) <= f)%nat).
  { intros f. induction f as [|f IH]; intros m; [done|]. cbn [decimal_digits]. rewrite length_app. simpl.
    destruct (m <? 10); [simpl; lia|]. specialize (IH (m / 10)). lia. }
  specialize (Hd 10%nat (u32 n)). unfold zlen. lia.
Qed.

Lemma memcached_library_get_ok k s v :
  cached (memcached s) k = v ->
  exists s', memcached_library_get k s = Ok (v, s') /\ server s' = server s /\
    forall k', kept (cached (memcached s') k') (cached (memcached s) k').
Proof.
  unfold cached, memcached_library_get. intros Hv. pose proof (cached_get (memcached s) k) as Hk.
  unfold cached in Hk. destruct (memcached_get k (memcached s)) as [v' c]. simpl in Hv. subst v'.
  exists {| memcached := c; server := server s |}. by split_and!.
Qed.

(** ** Attributes *)

(** The attributes that FUSE shows for the inode [i] with the number [n]. *)
Definition attributes_of (m : mem) (i n : Z) : stat_t :=
  fill_stat {| numero_de_inodo := n; modo := Inode.mode m i; numero_de_hard_links := Inode.links_count m i;
               at_size := Inode.size m i; tamano_de_bloque_por_fs := BLOCK_SIZE;
               cantidad_de_bloques_de_512b := Size_In_Blocks (Inode.size m i) |}.

Definition attr_key path : list Z := memcached_library_key OTHER_key path.
Definition dir_key path : list Z := memcached_library_key LEER_DIRECTORIO_key path.

(** From a cached value the attributes come without the server. *)
Lemma obtener_atributos_cached path v a s :
  strlen path + zlen behind_key <= 200 -> cached (memcached s) (attr_key path) = Some v ->
  deserializar_respuesta_obtener_atributos v (zlen v) = Ok a ->
  exists s', obtener_atributos path s = Ok ((0, Some (fill_stat a)), s') /\ server s' = server s /\
    forall k, kept (cached (memcached s') k) (cached (memcached s) k).
Proof.
  intros Hlen Hc Hd. destruct (memcached_library_get_ok _ _ _ Hc) as (s' & Hget & Hs & Hk).
  exists s'. split; [|done]. unfold obtener_atributos. pose proof (zlen_nonneg path). pose proof (zlen_nonneg behind_key).
  rewrite (bind_ok _ _ s tt s) by (apply log_debug_ok; logs).
  rewrite (bind_ok _ _ s tt s) by (apply log_debug_ok; unfold memcached_library_key; logs).
  rewrite (bind_ok _ _ _ _ _ Hget). by rewrite (bind_ok _ _ _ _ _ (lift_res_ok _ _ s' Hd)).
Qed.

(** C5: End to end, getattr: for a path that is not in the client's cache FUSE
    gets the attributes of the inode that the path resolves to, or -ENOENT,
    and the server's table, locks and image are as before; for as long as the
    cache keeps the value, the next calls get the same attributes without the
    server, whatever has become of the file. *)
Theorem obtener_atributos_served `{!Superblock_ok} `{!Abi_ok} s refs ns r :
  asked (server s) refs ns -> mem_ok (file (server s)) -> path_resolves (file (server s)) ns r ->
  zlen behind_key <= 160 -> cached (memcached s) (attr_key (abs_path ns)) = None ->
  exists s', restored 0 (server s) (server s') refs /\
    match r with
    | None => obtener_atributos (abs_path ns) s = Ok ((- ENOENT, None), s')
    | Some (i, n) =>
        obtener_atributos (abs_path ns) s = Ok ((0, Some (attributes_of (file (server s)) i n)), s') /\
        exists v, kept (cached (memcached s') (attr_key (abs_path ns))) (Some v) /\
          forall t, cached (memcached t) (attr_key (abs_path ns)) = Some v ->
            exists t', server t' = server t /\
              obtener_atributos (abs_path ns) t = Ok ((0, Some (attributes_of (file (server s)) i n)), t')
    end.
Proof.
  intros Hask Hm Hres Hbk Hc. pose proof Hask as (_ & _ & H40).
  destruct (memcached_library_get_ok _ _ _ Hc) as (s1 & Hget & Hs1 & Hk1). rewrite <- Hs1 in Hask, Hm, Hres.
  destruct (stat_served _ _ _ _ Hask Hm Hres) as (req & ans & sv & Hreq & Hat & Hrest & Hans).
  assert (Hrun : obtener_atributos (abs_path ns) s =
    (r ← enviar_recibir (serializar_pedido (Obtener_atributos (abs_path ns)));
     if is_error [- ENOENT; - ENAMETOOLONG] (tipo (fst r)) then mret (tipo (fst r), None)
     else
       payload ← recibir_paquete (fst r) (snd r);
       memcached_library_set (attr_key (abs_path ns)) payload;;
       log_debug 255 (str "Operation: Memcached Set- Key: " ++ attr_key (abs_path ns) ++ behind_key);;
       attrib_payload ← lift_res (deserializar_respuesta_obtener_atributos payload (h_longitud (fst r)));
       mret (0, Some (fill_stat attrib_payload))) s1).
  { unfold obtener_atributos, strlen in *. pose proof (zlen_nonneg behind_key).
    rewrite (bind_ok _ _ s tt s) by (apply log_debug_ok; logs).
    rewrite (bind_ok _ _ s tt s) by (apply log_debug_ok; unfold memcached_library_key; logs).
    by rewrite (bind_ok _ _ _ _ _ Hget). }
  rewrite <- Hs1. destruct r as [[i n]|].
  - destruct Hans as (payload & Hmes & Hdes).
    pose proof (enviar_recibir_answer _ _ _ _ _ _ _ Hreq Hat Hmes) as Her.
    rewrite (bind_ok _ _ _ _ _ Her) in Hrun. cbn [fst snd tipo] in Hrun.
    change (is_error _ RESPUESTA_OK) with false in Hrun. cbv iota in Hrun.
    rewrite (bind_ok _ _ _ _ _ (recibir_paquete_all _ _ _)) in Hrun.
    set (s2 := {| memcached := memcached_set (attr_key (abs_path ns)) payload (memcached s1); server := sv |}).
    rewrite (bind_ok _ _ _ tt s2) in Hrun by done.
    rewrite (bind_ok _ _ s2 tt s2) in Hrun by (apply log_debug_ok; unfold attr_key, memcached_library_key; logs).
    cbn [h_longitud] in Hrun. rewrite (bind_ok _ _ _ _ _ (lift_res_ok _ _ s2 Hdes)) in Hrun.
    exists s2. split; [done|]. split; [done|]. exists payload. split; [apply cached_set_same|].
    intros t Ht. assert (strlen (abs_path ns) + zlen behind_key <= 200) as Hl by lia.
    destruct (obtener_atributos_cached _ _ _ _ Hl Ht Hdes) as (t' & Hr & Hst & _). by exists t'.
  - pose proof (enviar_recibir_answer _ _ _ _ _ _ _ Hreq Hat Hans) as Her.
    rewrite (bind_ok _ _ _ _ _ Her) in Hrun. eexists. split; [|exact Hrun]. exact Hrest.
Qed.

(** ** Opening and reading *)

(** End to end, open: FUSE gets 0 when the path resolves to an inode of
    the image and -ENOENT when it does not; the client's cache is not touched
    and the server is as before. *)
Lemma abrir_archivo_served `{!Abi_ok} s refs ns r :
  asked (server s) refs ns -> errno (server s) = 0 -> path_resolves (file (server s)) ns r ->
  exists sv, restored 0 (server s) sv refs /\
    abrir_archivo (abs_path ns) s =
      Ok (match r with Some _ => 0 | None => - ENOENT end, {| memcached := memcached s; server := sv |}).
Proof.
  intros Hask He Hres. pose proof Hask as (_ & _ & H40).
  destruct (open_served _ _ _ _ Hask He Hres) as (req & ans & sv & Hreq & Hat & Hrest & Hmes).
  exists sv. split; [done|]. unfold abrir_archivo.
  rewrite (bind_ok _ _ s tt s) by (apply log_debug_ok; logs).
  rewrite (bind_ok _ _ _ _ _ (enviar_recibir_answer _ _ _ _ _ s sv Hreq Hat Hmes)). cbn [fst tipo]. by destruct r.
Qed.

(** An answer with bytes, and one with a number. *)
Lemma leer_archivo_answered path len off s req ans payload l sv :
  strlen path <= 40 -> serializar_pedido (Leer_archivo path len off) = Ok req ->
  atender (data req) (server s) = Ok (Some ans, sv) -> message ans RESPUESTA_OK payload ->
  deserializar_respuesta_leer_archivo payload (zlen payload) = Ok {| rl_buffer := l; rl_bytes_leidos := zlen l |} ->
  zlen l <= len -> zlen l < 2 ^ 31 ->
  leer_archivo path len off s = Ok ((zlen l, l), {| memcached := memcached s; server := sv |}).
Proof.
  intros H40 Hreq Hat Hmes Hdes Hlen H31. pose proof (decimal_length len). pose proof (decimal_length off). pose proof (zlen_nonneg l).
  unfold leer_archivo. rewrite (bind_ok _ _ s tt s) by (apply log_debug_ok; logs).
  rewrite (bind_ok _ _ _ _ _ (enviar_recibir_answer _ _ _ _ _ s sv Hreq Hat Hmes)). cbn [fst snd tipo].
  change (is_error _ RESPUESTA_OK) with false. cbv iota.
  rewrite (bind_ok _ _ _ _ _ (recibir_paquete_all _ _ _)). cbn [h_longitud].
  rewrite (bind_ok _ _ _ _ _ (lift_res_ok _ _ _ Hdes)). cbn [rl_bytes_leidos rl_buffer].
  rewrite (bind_ok _ _ _ _ _ (lift_res_ok _ _ _ (bytes_at_all _ _ eq_refl))).
  rewrite (proj2 (Z.leb_le _ _)) by lia. by rewrite s32_small by lia.
Qed.

Lemma escribir_archivo_answered path buf off s req ans payload n sv :
  strlen path <= 40 -> serializar_pedido (Escribir_archivo path buf off) = Ok req ->
  atender (data req) (server s) = Ok (Some ans, sv) -> message ans RESPUESTA_OK payload ->
  deserializar_respuesta_escribir_archivo payload (zlen payload) = Ok n -> 0 <= n < 2 ^ 31 ->
  escribir_archivo path buf (zlen buf) off s = Ok (n, {| memcached := memcached s; server := sv |}).
Proof.
  intros H40 Hreq Hat Hmes Hdes Hn. pose proof (decimal_length (zlen buf)). pose proof (decimal_length off).
  unfold escribir_archivo. rewrite (bind_ok _ _ s tt s) by (apply log_debug_ok; logs).
  rewrite (bind_ok _ _ _ _ _ (enviar_recibir_answer _ _ _ _ _ s sv Hreq Hat Hmes)). cbn [fst snd tipo].
  change (is_error _ RESPUESTA_OK) with false. cbv iota.
  rewrite (bind_ok _ _ _ _ _ (recibir_paquete_all _ _ _)). cbn [h_longitud].
  rewrite (bind_ok _ _ _ _ _ (lift_res_ok _ _ _ Hdes)). by rewrite s32_small by lia.
Qed.


(** ** Listings *)

Lemma c_string_terminated l x : c_string l = Ok x -> c_string (nul_terminated l) = Ok x.
Proof.
  unfold nul_terminated. revert x. induction l as [|c l IH]; intros x; [done|]. cbn [c_string app].
  destruct (c =? 0); [done|]. destruct (c_string l) as [y|]; [|done]. by rewrite (IH y eq_refl).
Qed.

(** C15: End to end, readdir: for a directory that is not in the client's
    cache FUSE gets exactly the names of its entries (not empty, without '#',
    fitting a message), with the server as before; for as long as the cache
    keeps the listing, the next calls get the same names without the server. *)
Theorem leer_directorio_served `{!Abi_ok} s refs ns i n entries names :
  asked (server s) refs ns -> strlen (abs_path ns) <= 39 ->
  path_resolves (file (server s)) ns (Some (i, n)) ->
  has_mode (Inode.mode (file (server s)) i) EXT2_IFDIR = true -> directory (file (server s)) i entries ->
  names = entry_name (file (server s)) <$> entries ->
  names <> [] -> Forall C_string names -> Forall (token_ok hash_sign) names ->
  names_size names + zlen names < 2 ^ 16 -> cached (memcached s) (dir_key (abs_path ns)) = None ->
  exists s' v, restored 0 (server s) (server s') refs /\
    leer_directorio (abs_path ns) s = Ok ((0, names), s') /\
    kept (cached (memcached s') (dir_key (abs_path ns))) (Some v) /\
    forall t, cached (memcached t) (dir_key (abs_path ns)) = Some v ->
      exists t', server t' = server t /\ leer_directorio (abs_path ns) t = Ok ((0, names), t').
Proof.
  intros Hask H39 Hres Hmode Hdir Hnames Hne Hcs Htok Hsz Hc.
  destruct (memcached_library_get_ok _ _ _ Hc) as (s1 & Hget & Hs1 & _). rewrite <- Hs1 in Hask, Hres, Hmode, Hdir, Hnames.
  destruct (listing_served _ _ _ _ _ _ _ Hask Hres Hmode Hdir Hnames Hne Hcs Htok Hsz)
    as (req & ans & payload & text & sv & Hreq & Hat & Hrest & Hmes & Htext & Hsplit).
  set (s2 := {| memcached := memcached_set (dir_key (abs_path ns)) payload (memcached s1); server := sv |}).
  exists s2, payload. unfold strlen in *. split_and!; [by rewrite <- Hs1| |apply cached_set_same|].
  - unfold leer_directorio. rewrite (bind_ok _ _ s tt s) by (apply log_debug_ok; logs).
    rewrite (proj2 (Z.leb_le _ _)) by (unfold MAX_KEY_SIZE; logs). rewrite (bind_ok _ _ s tt s) by done.
    rewrite (bind_ok _ _ _ _ _ Hget).
    rewrite (bind_ok _ _ _ _ _ (enviar_recibir_answer _ _ _ _ _ s1 sv Hreq Hat Hmes)). cbn [fst snd tipo].
    change (is_error _ RESPUESTA_OK) with false. cbv iota.
    rewrite (bind_ok _ _ _ _ _ (recibir_paquete_all _ _ _)). rewrite (bind_ok _ _ _ tt s2) by done.
    by rewrite (bind_ok _ _ _ _ _ (lift_res_ok _ _ s2 Htext)), Hsplit.
  - intros t Ht. destruct (memcached_library_get_ok _ _ _ Ht) as (t' & Hgt & Hst & _). exists t'. split; [done|].
    unfold leer_directorio. rewrite (bind_ok _ _ t tt t) by (apply log_debug_ok; logs).
    rewrite (proj2 (Z.leb_le _ _)) by (unfold MAX_KEY_SIZE; logs). rewrite (bind_ok _ _ t tt t) by done.
    rewrite (bind_ok _ _ _ _ _ Hgt).
    by rewrite (bind_ok _ _ _ _ _ (lift_res_ok _ _ t' (c_string_terminated _ _ Htext))), Hsplit.
Qed.
End Client.

(** ** What the cache of the client keeps *)

Section Effects.
Context {AB : Abi} {BK : Bytes_behind_key} {C : Type} `{ML : MemcachedLaws C} {S : Type} `{SV : Server S}.
Abbreviation client := (fsc C S).
Implicit Types (s : client) (path : list Z).

(** The operations that change the file system. *)
Inductive change :=
  | Create (path : list Z) (mode : Z) | Mkdir (path : list Z) (mode : Z)
  | Unlink (path : list Z) | Rmdir (path : list Z)
  | Truncate (path : list Z) (size : Z) | Write (path buffer : list Z) (size offset : Z).

Definition run_change (c : change) : M client Z :=
  match c with
  | Create path mode => crear_archivo path mode
  | Mkdir path mode => crear_directorio path mode
  | Unlink path => eliminar_archivo path
  | Rmdir path => eliminar_directorio path
  | Truncate path size => truncar_archivo path size
  | Write path buffer size offset => escribir_archivo path buffer size offset
  end.

(** The keys that a change forgets when it succeeds. *)
Definition forgets (c : change) : option (list Z) :=
  match c with
  | Create path _ | Mkdir path _ | Unlink path | Rmdir path => dir_key <$> get_previus_path path
  | Truncate path _ => Some (attr_key path)
  | Write _ _ _ _ => None
  end.

Lemma log_debug_inv n text s a s' : log_debug n text s = Ok (a, s') -> s' = s.
Proof. unfold log_debug. case_test; [|done]. by intros [= _ <-]. Qed.

Lemma lift_res_inv {A} (r : res A) s a s' : lift_res r s = Ok (a, s') -> s' = s /\ r = Ok a.
Proof. unfold lift_res. destruct r; [|done]. by intros [= <- <-]. Qed.

(** A request does not touch the cache. *)
Lemma enviar_recibir_cache st s r s' : enviar_recibir st s = Ok (r, s') -> memcached s' = memcached s.
Proof.
  unfold enviar_recibir. intros (x & s1 & [-> _]%lift_res_inv & Hx)%bind_inv.
  apply bind_inv in Hx as (a & s2 & Ha & Hx).
  assert (memcached s2 = memcached s) as <-.
  { unfold on_server in Ha. destruct (serve _ (server s)) as [[b sv]|]; [|done]. by injection Ha as <- <-. }
  destruct a as [bytes|]; [|done]. destruct (zlen bytes <? 3); [done|].
  by apply bind_inv in Hx as (h & s3 & [-> _]%lift_res_inv & [= <- <-]).
Qed.

Lemma is_error_nonzero e tp s (r : Z) s' :
  0 ∉ e -> is_error e tp = true -> mret (M := M client) tp s = Ok (r, s') -> r <> 0.
Proof.
  unfold is_error. intros He Ht%bool_decide_eq_true [= <- _] ->. done.
Qed.

Lemma no_zero_error : (0 ∉ [- ENOENT; - ENAMETOOLONG]) /\ (0 ∉ [- EEXIST; - ENAMETOOLONG]).
Proof. split; refine (bool_decide_unpack _ _); vm_compute; exact I. Qed.

Lemma forget_parent_inv path s a s' :
  forget_parent path s = Ok (a, s') ->
  exists p, get_previus_path path = Some p /\ memcached s' = memcached_delete (dir_key p) (memcached s).
Proof.
  unfold forget_parent. destruct (get_previus_path path) as [p|]; [|done].
  intros [= _ <-]. by exists p.
Qed.

Lemma forgotten_key k c : cached (memcached_delete k c) k = None /\
  forall k', k' <> k -> kept (cached (memcached_delete k c) k') (cached c k').
Proof. split; [apply cached_delete_same|]. intros k' Hk. apply cached_delete_other. congruence. Qed.

(** The operations with a name and no payload end in [forget_parent]. *)
Lemma forgetting_op e path log st (tail : M client Z) s s' :
  0 ∉ e ->
  (forall s1 r s2, tail s1 = Ok (r, s2) ->
     exists p, get_previus_path path = Some p /\ memcached s2 = memcached_delete (dir_key p) (memcached s1)) ->
  (log_debug 255 log;;
   r ← enviar_recibir st;
   if is_error e (tipo (fst r)) then mret (tipo (fst r)) else tail) s = Ok (0, s') ->
  exists p, get_previus_path path = Some p /\ memcached s' = memcached_delete (dir_key p) (memcached s).
Proof.
  intros He Htail (? & s1 & ->%log_debug_inv & (r & s2 & Hr%enviar_recibir_cache & Hx)%bind_inv)%bind_inv.
  case_test; [by destruct (is_error_nonzero _ _ _ _ _ He E Hx)|]. rewrite <- Hr. by eapply Htail.
Qed.

Lemma forget_tail path s1 (r : Z) s2 :
  (forget_parent path;; mret 0) s1 = Ok (r, s2) ->
  exists p, get_previus_path path = Some p /\ memcached s2 = memcached_delete (dir_key p) (memcached s1).
Proof. intros (? & s3 & Hf%forget_parent_inv & [= _ <-])%bind_inv. exact Hf. Qed.

Lemma forget_log_tail path s1 (r : Z) s2 :
  (forget_parent path;;
   previus_path ← deref (get_previus_path path);
   log_debug 255 (str "Operation: Memcached Delete- Key: "
                    ++ memcached_library_key LEER_DIRECTORIO_key previus_path ++ behind_key);;
   mret 0) s1 = Ok (r, s2) ->
  exists p, get_previus_path path = Some p /\ memcached s2 = memcached_delete (dir_key p) (memcached s1).
Proof.
  intros (? & s3 & Hf%forget_parent_inv & Hx)%bind_inv. destruct Hf as (p & Hp & Hm).
  exists p. split; [done|]. rewrite <- Hm. rewrite Hp in Hx. apply bind_inv in Hx as (q' & s4 & [= <- <-] & Hx).
  by apply bind_inv in Hx as (? & s5 & ->%log_debug_inv & [= _ <-]).
Qed.

Lemma keeps_op c s s' :
  memcached s' = memcached s -> forgets c = None ->
  (match forgets c with Some k => cached (memcached s') k = None | None => True end) /\
  forall k, Some k <> forgets c -> kept (cached (memcached s') k) (cached (memcached s) k).
Proof. intros -> ->. split; [done|]. intros k _. by left. Qed.

(** What a change does to the client's cache when it succeeds, for any
    server: creating or deleting an entry forgets the listing of the parent,
    truncating forgets the attributes of the file, and every other value is
    kept as far as the cache keeps values; so a write, which may change the
    size, and a deletion leave the attributes of the file. *)
Lemma changes_forget (c : change) s s' :
  run_change c s = Ok (0, s') ->
  (match forgets c with Some k => cached (memcached s') k = None | None => True end) /\
  forall k, Some k <> forgets c -> kept (cached (memcached s') k) (cached (memcached s) k).
Proof.
  destruct no_zero_error as [E1 E2]. intros Hrun.
  assert (Hdel : forall k, memcached s' = memcached_delete k (memcached s) -> forgets c = Some k ->
    (match forgets c with Some k => cached (memcached s') k = None | None => True end) /\
    forall k', Some k' <> forgets c -> kept (cached (memcached s') k') (cached (memcached s) k')).
  { intros k -> ->. destruct (forgotten_key k (memcached s)) as [Hs Ho]. split; [done|].
    intros k' Hk. apply Ho. congruence. }
  destruct c as [path mode|path mode|path|path|path size|path buffer size offset]; cbn [run_change] in Hrun.
  1-4: match goal with |- context [forgets ?c] => assert (exists p, forgets c = Some (dir_key p) /\
         memcached s' = memcached_delete (dir_key p) (memcached s)) as (p & Hp & Hm);
         [|exact (Hdel (dir_key p) Hm Hp)] end.
  - destruct (forgetting_op _ path _ _ _ s s' E2 (forget_tail path) Hrun) as (p & Hp & Hm). exists p. simpl. by rewrite Hp.
  - destruct (forgetting_op _ path _ _ _ s s' E2 (forget_tail path) Hrun) as (p & Hp & Hm). exists p. simpl. by rewrite Hp.
  - destruct (forgetting_op _ path _ _ _ s s' E1 (forget_tail path) Hrun) as (p & Hp & Hm). exists p. simpl. by rewrite Hp.
  - destruct (forgetting_op _ path _ _ _ s s' E1 (forget_log_tail path) Hrun) as (p & Hp & Hm). exists p. simpl. by rewrite Hp.
  - apply bind_inv in Hrun as (? & s1 & ->%log_debug_inv & Hx).
    apply bind_inv in Hx as (r & s2 & Hr%enviar_recibir_cache & Hx).
    case_test; [by destruct (is_error_nonzero _ _ _ _ _ E1 E Hx)|].
    apply bind_inv in Hx as (? & s3 & [= _ <-] & [= <-]). apply (Hdel (attr_key path)); [|done].
    simpl. by rewrite Hr.
  - apply keeps_op; [|done]. apply bind_inv in Hrun as (? & s1 & ->%log_debug_inv & Hx).
    apply bind_inv in Hx as (r & s2 & Hr%enviar_recibir_cache & Hx). rewrite <- Hr.
    case_test; [by destruct (is_error_nonzero _ _ _ _ _ E1 E Hx)|].
    apply bind_inv in Hx as (payload & s3 & Hp & Hx).
    assert (s3 = s2) as -> by (unfold recibir_paquete in Hp; case_test; [by injection Hp as _ <-|done]).
    by apply bind_inv in Hx as (b & s4 & [-> _]%lift_res_inv & [= _ <-]).
Qed.

(** The key of a listing has room for paths of 39 characters: reading the
    directory of a longer path writes behind the buffer before anything is
    sent, also for one of 40 characters, which the server accepts. *)
Lemma leer_directorio_overflows path s :
  40 <= strlen path -> leer_directorio path s = Fail OutOfBounds.
Proof.
  intros Hp. unfold leer_directorio. unfold log_debug at 1. destruct (sprintf_fits _ _); [|done].
  rewrite (bind_ok _ _ s tt s) by done. rewrite (proj2 (Z.leb_gt _ _)); [done|].
  unfold MAX_KEY_SIZE, strlen in *. rewrite zlen_app. change (zlen (str "dir-")) with 4. lia.
Qed.
End Effects.

(** ** Witnesses: the client of the demonstration server *)

#[local] Instance client_word_after : Word_after_array := fun _ => 0.
#[local] Instance client_superblock : Superblock_constants := demo_sb.
#[local] Instance client_abi : Abi := abi_i386.
#[local] Instance client_behind_key : Bytes_behind_key := [].
#[local] Existing Instance demo_sb_ok.
#[local] Existing Instance abi_i386_ok.

Definition demo_client : fsc sample_cache (rfs sample_cache) := {| memcached := ∅; server := demo_server |}.

Lemma obtener_atributos_served_witness :
  exists s, obtener_atributos (str "/a") demo_client =
    Ok ((0, Some {| st_ino := 3; stat_mode := 33060; st_nlink := 1; stat_size := 5; st_blocks := 1 |}), s).
Proof.
  destruct (obtener_atributos_served demo_client [] [str "a"] (Some (5376, 3)) demo_asked_a demo_image_ok demo_resolves)
    as (s & _ & Hr & _); [vm_compute; discriminate|vm_compute; reflexivity|].
  exists s. etransitivity; [exact Hr|]. vm_compute. reflexivity.
Defined.

Lemma abrir_archivo_served_witness : exists s, abrir_archivo (str "/a") demo_client = Ok (0, s).
Proof.
  destruct (abrir_archivo_served demo_client [] [str "a"] (Some (5376, 3)) demo_asked_a eq_refl demo_resolves)
    as (sv & _ & Hr).
  eexists. exact Hr.
Defined.


Lemma leer_directorio_served_witness :
  exists s, leer_directorio (str "/") demo_client = Ok ((0, [str "."; str ".."; str "a"]), s).
Proof.
  destruct (leer_directorio_served demo_client [] [] 5248 2 [6144; 6156; 6168] [str "."; str ".."; str "a"]
    demo_asked_root) as (s & v & _ & Hr & _).
  - vm_compute. discriminate.
  - exists 5248. split; [vm_compute; reflexivity|reflexivity].
  - vm_compute. reflexivity.
  - exact demo_directory.
  - vm_compute. reflexivity.
  - discriminate.
  - refine (bool_decide_unpack _ _). vm_compute. exact I.
  - refine (bool_decide_unpack _ _). vm_compute. exact I.
  - vm_compute. reflexivity.
  - vm_compute. reflexivity.
  - exists s. exact Hr.
Defined.

(** A server that accepts everything. *)
#[local] Instance yes_server : Server unit := fun _ s => Ok (Some [14; 0; 0], s).

Definition known_client : fsc sample_cache unit :=
  {| memcached := {[ str "dir-/d" := str "#f"; str "attr-/d/f" := str "old" ]}; server := tt |}.

Lemma changes_forget_witness :
  exists s, run_change (Unlink (str "/d/f")) known_client = Ok (0, s) /\
    cached (memcached s) (str "dir-/d") = None /\
    kept (cached (memcached s) (str "attr-/d/f")) (Some (str "old")).
Proof.
  destruct (run_change (Unlink (str "/d/f")) known_client) as [[r s]|] eqn:Hr; [|vm_compute in Hr; discriminate Hr].
  assert (r = 0) as -> by (vm_compute in Hr; injection Hr as <- _; reflexivity).
  exists s. split; [reflexivity|].
  destruct (changes_forget (Unlink (str "/d/f")) known_client s Hr) as [Hd Hk].
  split; [exact Hd|]. apply (Hk (str "attr-/d/f")). vm_compute. discriminate.
Defined.

Lemma leer_directorio_overflows_witness :
  leer_directorio (slash :: replicate 39 97) known_client = Fail OutOfBounds.
Proof. apply leer_directorio_overflows. vm_compute. discriminate. Defined.
