(* ===== verification/Clients.v ===== *)
(** * Clients: what FUSE is told about changes

    The creations and deletions of the client over the server that holds a
    volume: the server's volume changes as [paso] says, and FUSE is told that
    it did, also when nothing was created or deleted. *)

From S2P Require Import Prelude Memory Bitarray Ext2 Ext2Facts CString Paths Rfs ActiveFiles Alloc AllocFacts InodeAlloc BlockMap Dirs DirFacts Walk FileOps Serial Requests SerialFacts Lookups Tree TreeSteps Enters Creates Mkdirs Removes Deletes Rmdirs Reads Writes Truncates Contents Volume Data Sessions Fuse FuseFacts.

Section Changes.
Context {Super_constants : Superblock_constants} {SO : Superblock_ok} {WA : Word_after_array} {AB : Abi} {AO : Abi_ok}.
Context {BK : Bytes_behind_key} {C : Type} `{MemcachedLaws C} {CC : Type} `{ML : MemcachedLaws CC}.
Abbreviation client := (fsc CC (rfs C)).
Implicit Types (s : client) (v : volume) (q : peticion).

(** FUSE's operation for a request that changes the volume. *)
Definition change_of q : option change :=
  let path := abs_path (names_of_request q) in
  match q with
  | Creacion true _ _ mode => Some (Create path mode)
  | Creacion false _ _ mode => Some (Mkdir path mode)
  | Borrado _ _ => Some (Unlink path)
  | Borrado_dir _ _ => Some (Rmdir path)
  | _ => None
  end.

Definition parent_of q : list (list Z) :=
  match q with Creacion _ ns _ _ | Borrado ns _ | Borrado_dir ns _ => ns | _ => [] end.

(** The name is there already, there is no inode for it, or there is nothing
    to delete. *)
Definition fails v q : bool :=
  match q, tree_walk (v_tree v) ROOT_INODE_NUMBER (names_of_request q) with
  | Creacion _ _ _ _, Some (Some _) => true
  | Creacion _ _ _ _, Some None => bool_decide (v_inodes v = [])
  | Borrado _ _, Some None | Borrado_dir _ _, Some None => true
  | _, _ => false
  end.

Lemma fails_same v q status c v' : paso v q = Some (status, c, v') -> fails v q = true -> v' = v.
Proof.
  unfold paso, fails. case_bool_decide; [|done]. unfold paso_ok, respuesta. cbv zeta.
  destruct q as [es_archivo ns nm mode|ns nm|ns nm|ns|ns|ns|ns n|ns len off|ns buf off]; try done;
    destruct (tree_walk (v_tree v) ROOT_INODE_NUMBER _) as [[n|]|]; try done; try (by intros [= _ _ <-]).
  destruct (tree_walk (v_tree v) ROOT_INODE_NUMBER ns) as [[d|]|]; [|done..]. case_bool_decide; [|done]. by intros [= _ _ <-].
Qed.

Lemma paso_status v q status c v' ch :
  paso v q = Some (status, c, v') -> change_of q = Some ch -> status = RESPUESTA_OK /\ c = Nothing.
Proof.
  unfold paso. case_bool_decide; [|done]. unfold paso_ok, respuesta. cbv zeta.
  destruct q as [es_archivo ns nm mode|ns nm|ns nm|ns|ns|ns|ns n|ns len off|ns buf off]; try done;
    repeat (case_match; try done); intros E _;
    repeat first [by apply cambio_inv in E as (_ & _ & -> & ->)|apply bind_Some in E as (? & _ & E)]; by injection E as <- <- _.
Qed.

Lemma change_names q ch : change_of q = Some ch -> exists nm, names_of_request q = parent_of q ++ [nm].
Proof. destruct q; try done; eauto. Qed.

Lemma parent_not_longer ns nm : zlen (abs_path ns) <= zlen (abs_path (ns ++ [nm])).
Proof.
  destruct ns as [|n ns].
  - unfold abs_path. rewrite !zlen_cons. change (zlen (join slash [])) with 0.
    pose proof (zlen_nonneg (join slash ([] ++ [nm]))). lia.
  - rewrite abs_path_app by done. unfold dir_path. rewrite !zlen_app. pose proof (zlen_nonneg (join slash [nm])).
    change (zlen [slash]) with 1. lia.
Qed.

(** The tail of the four operations. *)
Lemma forget_parent_ok ns nm s :
  Forall name_ok (ns ++ [nm]) -> exists c, forget_parent (abs_path (ns ++ [nm])) s = Ok (tt, {| memcached := c; server := server s |}) /\
    cached c (dir_key (abs_path ns)) = None.
Proof.
  intros Hn. eexists. split; [|apply cached_delete_same]. unfold forget_parent. by rewrite get_previus_path_abs.
Qed.

Lemma change_answered q ch s req ans sv :
  change_of q = Some ch -> request_ok q -> strlen behind_key <= 100 ->
  serializar_pedido (pedido_of q) = Ok req -> atender (data req) (server s) = Ok (Some ans, sv) ->
  message ans RESPUESTA_OK [] ->
  exists c, run_change ch s = Ok (0, {| memcached := c; server := sv |}) /\ cached c (dir_key (abs_path (parent_of q))) = None.
Proof.
  intros Hch (Hns & _ & Hl & _) Hbk Hreq Hat Hmes.
  destruct (change_names q ch Hch) as [nm Hn]. rewrite Hn in Hns, Hl.
  pose proof (enviar_recibir_answer _ _ _ _ _ s sv Hreq Hat Hmes) as Her.
  destruct (forget_parent_ok (parent_of q) nm {| memcached := memcached s; server := sv |} Hns) as (c & Hf & Hc).
  exists c. split; [|done].
  destruct q as [[] ns nm' mode|ns nm'|ns nm'| | | | | |]; try done; injection Hch as <-;
    cbn [names_of_request parent_of run_change] in *; apply app_inj_2 in Hn as [_ [= ->]]; try done;
    unfold crear_archivo, crear_directorio, eliminar_archivo, eliminar_directorio;
    (rewrite (bind_ok _ _ s tt s) by (apply log_debug_ok; logs)); rewrite (bind_ok _ _ _ _ _ Her); cbn [fst tipo];
    (change (is_error _ RESPUESTA_OK) with false); cbv iota; rewrite (bind_ok _ _ _ _ _ Hf); try done.
  set (s2 := {| memcached := c; server := sv |}) in *.
  rewrite get_previus_path_abs by done. rewrite (bind_ok _ _ s2 (abs_path ns) s2) by done.
  rewrite (bind_ok _ _ s2 tt s2); [done|]. apply log_debug_ok.
  pose proof (parent_not_longer ns nm).
  unfold memcached_library_key. logs.
Qed.

(** C4: Every creation and deletion looks like a success: when the abstract [paso] specifies the change (the
    path has at most 40 characters and its directory is there, among others), FUSE's operation returns 0, the server holds the new volume, and the client forgets the listing of the
    parent; but also when the name was there, when there was no inode for it, or when there was nothing to
    delete, FUSE gets 0 and the volume stays what it was.  The word of the heap behind each array of block
    numbers is assumed to be zero, and what lies behind the logged key to be at most 100 bytes. *)
Theorem changes_look_successful q ch s v status c v' :
  change_of q = Some ch -> strlen behind_key <= 100 -> (forall l, word_after_array l = 0) ->
  serves (server s) v -> paso v q = Some (status, c, v') ->
  (exists s', run_change ch s = Ok (0, s') /\ serves (server s') v' /\
     cached (memcached s') (dir_key (abs_path (parent_of q))) = None) /\
  (fails v q = true -> v' = v).
Proof.
  intros Hch Hbk Hword Hs Hp. split; [|by eapply fails_same].
  destruct (paso_status _ _ _ _ _ _ Hp Hch) as [-> ->].
  destruct (paso_refined (server s) v q _ _ v' Hword Hs Hp) as (req & out & sv & G1 & G2 & (payload & Hmes & ->) & Hs').
  assert (request_ok q) as Hq by (unfold paso in Hp; by case_bool_decide).
  destruct (change_answered q ch s req out sv Hch Hq Hbk G1 G2 Hmes) as (cc & Hrun & Hc). by eexists.
Qed.

(** ** Bytes through FUSE *)

Lemma escribir_archivo_paso ns buf off s v n v' :
  (forall l, word_after_array l = 0) -> serves (server s) v -> paso v (Escritura ns buf off) = Some (RESPUESTA_OK, Count n, v') ->
  0 <= n < 2 ^ 31 ->
  exists sv, escribir_archivo (abs_path ns) buf (zlen buf) off s = Ok (n, {| memcached := memcached s; server := sv |}) /\
    serves sv v'.
Proof.
  intros Hword Hs Hp Hn.
  destruct (paso_refined (server s) v _ _ _ v' Hword Hs Hp) as (req & out & sv & G1 & G2 & (payload & Hmes & Hdes) & Hs').
  assert (request_ok (Escritura ns buf off)) as (_ & _ & H40 & _) by (unfold paso in Hp; by case_bool_decide).
  exists sv. split; [|done]. by eapply escribir_archivo_answered.
Qed.

Lemma leer_archivo_paso ns len off s v l v' :
  (forall l, word_after_array l = 0) -> serves (server s) v -> paso v (Lectura ns len off) = Some (RESPUESTA_OK, Read l, v') ->
  zlen l <= len -> zlen l < 2 ^ 31 ->
  exists sv, leer_archivo (abs_path ns) len off s = Ok ((zlen l, l), {| memcached := memcached s; server := sv |}) /\ serves sv v'.
Proof.
  intros Hword Hs Hp Hl Hn.
  destruct (paso_refined (server s) v _ _ _ v' Hword Hs Hp) as (req & out & sv & G1 & G2 & (payload & Hmes & Hdes) & Hs').
  assert (request_ok (Lectura ns len off)) as (_ & _ & H40 & _) by (unfold paso in Hp; by case_bool_decide).
  exists sv. split; [|done]. by eapply leer_archivo_answered.
Qed.

Lemma copied_written off n : 0 < n -> copied off n = written off n.
Proof.
  intros Hn. unfold copied, written. pose proof (room_bounds off). cbv zeta. set (room := BLOCK_SIZE - off mod BLOCK_SIZE) in *.
  destruct (Z.gtb_spec (n - Z.min n room) room), (Z.gtb_spec (n - Z.min n room) (Z.min n room)); lia.
Qed.

(** The volume after a whole write knows what was written. *)
Lemma paso_read_back v ns buf off v' :
  paso v (Escritura ns buf off) = Some (RESPUESTA_OK, Count (zlen buf), v') -> 
  zlen buf < 2 ^ 31 /\ paso v' (Lectura ns (zlen buf) off) = Some (RESPUESTA_OK, Read buf, v').
Proof.
  unfold paso. case_bool_decide as Hq; [|done]. unfold paso_ok. cbv zeta. cbn [names_of_request].
  destruct (tree_walk (v_tree v) ROOT_INODE_NUMBER ns) as [[f|]|] eqn:Ew; [|done..]. unfold paso_escritura, respuesta.
  destruct (v_tree v !! f) as [[|st bl [|]|]|] eqn:Ef; [done| |done..]. cbv zeta.
  destruct (bool_decide _) eqn:Eb; [|done]. destruct (sole v ns f); [|done]. cbn [andb]. intros [= Hw <-].
  apply bool_decide_eq_true in Eb as (Hoff & Hn0 & H31 & _ & _ & Hfew & _). rewrite Hw.
  pose proof (attached_nonneg (i_size st) (off + zlen buf)). split; [lia|].
  pose proof Hq as (Hns & Hc & Hl & Hnum & Hsz). cbn [names_of_request pedido_of pedido_numbers payload_size] in *.
  pose proof (zlen_nonneg (abs_path ns)). assert (0 <= szt /\ 0 <= sot) by (unfold szt, sot; lia).
  rewrite bool_decide_eq_true_2.
  2: { unfold request_ok. cbn [names_of_request pedido_of pedido_numbers payload_size]. split_and!; try done; lia. }
  cbn [v_tree v_bytes v_seen v_inodes v_blocks]. rewrite (walk_truncated _ f st bl), Ew by done.
  unfold paso_lectura, truncated. cbn [v_tree v_bytes v_seen v_inodes v_blocks]. rewrite lookup_insert_eq.
  cbn [with_size i_size]. unfold size_after in *. rewrite bool_decide_eq_true_2.
  2: { rewrite zlen_app. unfold zlen at 2. rewrite length_take. split_and!; lia. }
  cbv zeta. replace (Z.min (zlen buf) (Z.max (i_size st) (off + zlen buf) - off)) with (zlen buf) by lia.
  rewrite copied_written, Hw, Z.sub_diag by done. unfold known. cbn [v_bytes].
  rewrite (take_ge buf) by (unfold zlen; lia). rewrite put_bytes_all. cbn. rewrite app_nil_r. repeat f_equal.
  unfold add_seen at 1. rewrite decide_True; [done|]. apply add_seen_elem. by left.
Qed.

(** C3: What FUSE writes it reads back: when the abstract [paso] specifies the write of a whole buffer,
    [escribir_archivo] answers its length and [leer_archivo] at the same offset then gives exactly the
    buffer, through the messages, the blocks that the file may have grown by, and the server's cache; the
    server holds the volume of the write, and the client's cache is not touched.  The word of the heap behind
    each array of block numbers is assumed to be zero. *)
Theorem written_is_read ns buf off s v v' :
  (forall l, word_after_array l = 0) -> serves (server s) v ->
  paso v (Escritura ns buf off) = Some (RESPUESTA_OK, Count (zlen buf), v') ->
  exists s1 s2, escribir_archivo (abs_path ns) buf (zlen buf) off s = Ok (zlen buf, s1) /\
    leer_archivo (abs_path ns) (zlen buf) off s1 = Ok ((zlen buf, buf), s2) /\
    memcached s2 = memcached s /\ serves (server s1) v' /\ serves (server s2) v'.
Proof.
  intros Hword Hs Hp. destruct (paso_read_back _ _ _ _ _ Hp) as [H31 Hr]. pose proof (zlen_nonneg buf).
  destruct (escribir_archivo_paso ns buf off s v _ v' Hword Hs Hp) as (sv & G1 & Hs1); [lia|].
  destruct (leer_archivo_paso ns (zlen buf) off {| memcached := memcached s; server := sv |} v' buf v' Hword Hs1 Hr)
    as (sv' & G2 & Hs2); [lia|lia|].
  do 2 eexists. by split_and!.
Qed.
End Changes.

(** ** Witness: a file is made twice, and unlinked where there is none *)

#[local] Instance changes_superblock : Superblock_constants := demo_sb.
#[local] Instance changes_abi : Abi := abi_i386.
#[local] Instance changes_word_after : Word_after_array := fun _ => 0.
#[local] Instance changes_behind_key : Bytes_behind_key := [].

Definition mkdir_client : fsc sample_cache (rfs sample_cache) := {| memcached := ∅; server := mkdir_server |}.

Lemma changes_look_successful_witness :
  (exists s', run_change (Create (str "/a") 420) mkdir_client = Ok (0, s') /\ serves (server s') demo_volume) /\
  (exists s', run_change (Unlink (str "/b")) mkdir_client = Ok (0, s') /\ serves (server s') demo_volume).
Proof.
  pose proof (@changes_look_successful changes_superblock demo_sb_ok changes_word_after changes_abi abi_i386_ok changes_behind_key
    sample_cache _ _ sample_cache _ _) as Hall. split.
  - destruct (Hall (Creacion true [] (str "a") 420) (Create (str "/a") 420) mkdir_client demo_volume RESPUESTA_OK Nothing
      demo_volume eq_refl ltac:(vm_compute; congruence) (fun _ => eq_refl) demo_serves ltac:(vm_compute; reflexivity))
      as [(s' & Hrun & Hs & _) _]. exists s'. split; [exact Hrun|exact Hs].
  - destruct (Hall (Borrado [] (str "b")) (Unlink (str "/b")) mkdir_client demo_volume RESPUESTA_OK Nothing
      demo_volume eq_refl ltac:(vm_compute; congruence) (fun _ => eq_refl) demo_serves ltac:(vm_compute; reflexivity))
      as [(s' & Hrun & Hs & _) _]. exists s'. split; [exact Hrun|exact Hs].
Defined.

(** ** Witness: the file "a", which has 5 bytes, written from its last byte on *)

Lemma demo_escritura : exists v', paso demo_volume (Escritura [str "a"] (str "a mundo") 4) = Some (RESPUESTA_OK, Count 7, v').
Proof. eexists. vm_compute. reflexivity. Defined.

Lemma written_is_read_witness :
  exists s1 s2, escribir_archivo (str "/a") (str "a mundo") 7 4 mkdir_client = Ok (7, s1) /\
    leer_archivo (str "/a") 7 4 s1 = Ok ((7, str "a mundo"), s2).
Proof.
  destruct demo_escritura as [v' Hp].
  destruct (@written_is_read changes_superblock demo_sb_ok changes_word_after changes_abi abi_i386_ok
    sample_cache _ _ sample_cache [str "a"] (str "a mundo") 4 mkdir_client demo_volume v' (fun _ => eq_refl) demo_serves Hp)
    as (s1 & s2 & H1 & H2 & _). exists s1, s2. split; [exact H1|exact H2].
Defined.
