(* ===== verification/TaskQueue.v ===== *)
(** * TaskQueue: the queue between the main thread and the workers

    Models [s_queue_push] and [s_queue_pop] of [server_threading.c] as the
    steps of threads that interleave: a mutex, a counting semaphore and the
    queue of the commons library.  A program counter names the next call of
    the code. *)

From S2P Require Import Prelude.

Section TaskQueue.
Context {A : Type}.

Inductive pc : Type :=
  | Idle
  | Push_lock (element : A)      (* pthread_mutex_lock in s_queue_push *)
  | Push_push (element : A)      (* queue_push *)
  | Push_unlock
  | Push_post                    (* sem_post *)
  | Pop_wait                     (* sem_wait in s_queue_pop *)
  | Pop_lock
  | Pop_pop                      (* queue_pop *)
  | Pop_unlock (elem : option A)
  | Pop_return (elem : option A).

(** s_queue_t with the threads, and what went in and came out so far. *)
Record s_queue_t := {
  queue : list A;
  available_elements : nat;
  access : option nat;
  threads : list pc;
  pushed : list A;
  popped : list (option A)
}.

(** s_queue_create, for threads that have not called anything yet. *)
Definition s_queue_create (nthreads : nat) : s_queue_t :=
  {| queue := []; available_elements := 0; access := None;
     threads := replicate nthreads Idle; pushed := []; popped := [] |}.

(** queue_pop of an empty queue is NULL. *)
Definition queue_pop (q : list A) : option A * list A :=
  match q with [] => (None, []) | x :: q => (Some x, q) end.

Definition goto (t : nat) (p : pc) (s : s_queue_t) : s_queue_t :=
  {| queue := queue s; available_elements := available_elements s; access := access s;
     threads := <[t := p]> (threads s); pushed := pushed s; popped := popped s |}.

Definition with_access (o : option nat) (s : s_queue_t) : s_queue_t :=
  {| queue := queue s; available_elements := available_elements s; access := o;
     threads := threads s; pushed := pushed s; popped := popped s |}.

Definition with_available (n : nat) (s : s_queue_t) : s_queue_t :=
  {| queue := queue s; available_elements := n; access := access s;
     threads := threads s; pushed := pushed s; popped := popped s |}.

(** One call of thread [t], which is at [p]; [None] while it blocks.  An idle
    thread starts a push of [choice], or a pop. *)
Definition thread_step (t : nat) (p : pc) (choice : option A) (s : s_queue_t) : option s_queue_t :=
  match p with
  | Idle => Some (goto t (match choice with Some x => Push_lock x | None => Pop_wait end) s)
  | Push_lock x =>
      match access s with
      | None => Some (goto t (Push_push x) (with_access (Some t) s))
      | Some _ => None
      end
  | Push_push x =>
      Some (goto t Push_unlock
        {| queue := queue s ++ [x]; available_elements := available_elements s;
           access := access s; threads := threads s; pushed := pushed s ++ [x];
           popped := popped s |})
  | Push_unlock => Some (goto t Push_post (with_access None s))
  | Push_post => Some (goto t Idle (with_available (S (available_elements s)) s))
  | Pop_wait =>
      match available_elements s with
      | O => None
      | S n => Some (goto t Pop_lock (with_available n s))
      end
  | Pop_lock =>
      match access s with
      | None => Some (goto t Pop_pop (with_access (Some t) s))
      | Some _ => None
      end
  | Pop_pop =>
      let '(elem, q) := queue_pop (queue s) in
      Some (goto t (Pop_unlock elem)
        {| queue := q; available_elements := available_elements s; access := access s;
           threads := threads s; pushed := pushed s; popped := popped s ++ [elem] |})
  | Pop_unlock elem => Some (goto t (Pop_return elem) (with_access None s))
  | Pop_return _ => Some (goto t Idle s)
  end.

Inductive step : s_queue_t -> s_queue_t -> Prop :=
  | step_thread s t p choice s' :
      threads s !! t = Some p -> thread_step t p choice s = Some s' -> step s s'.

Inductive reachable (nthreads : nat) : s_queue_t -> Prop :=
  | reach_create : reachable nthreads (s_queue_create nthreads)
  | reach_step s s' : reachable nthreads s -> step s s' -> reachable nthreads s'.

(** ** Invariant *)

Definition critical (p : pc) : bool :=
  match p with Push_push _ | Push_unlock | Pop_pop | Pop_unlock _ => true | _ => false end.

(** Elements in the queue that the semaphore does not count: pushed and not
    posted yet, or waited for and not popped yet. *)
Definition in_flight (p : pc) : nat :=
  match p with Push_unlock | Push_post | Pop_lock | Pop_pop => 1 | _ => 0 end.

Definition waiting (p : pc) : bool := match p with Pop_wait => true | _ => false end.

Definition total (l : list pc) : nat := sum_list_with in_flight l.

Record queue_ok (s : s_queue_t) : Prop := {
  q_mutex : forall t p, threads s !! t = Some p -> critical p = true <-> access s = Some t;
  q_owner : forall t, access s = Some t -> is_Some (threads s !! t);
  q_count : (available_elements s + total (threads s) = length (queue s))%nat;
  q_fifo : exists l, popped s = Some <$> l /\ pushed s = l ++ queue s
}.

Lemma total_insert l t p q :
  l !! t = Some p -> (total (<[t := q]> l) + in_flight p = total l + in_flight q)%nat.
Proof.
  intros Ht. unfold total.
  rewrite <- (take_drop_middle l t p Ht) at 2. rewrite insert_take_drop by by eapply lookup_lt_Some.
  rewrite !sum_list_with_app. simpl. lia.
Qed.

Lemma total_ge l t p : l !! t = Some p -> (in_flight p <= total l)%nat.
Proof.
  intros Ht. unfold total. rewrite <- (take_drop_middle l t p Ht), sum_list_with_app. simpl. lia.
Qed.

(** A thread moves to [q]; the owner of the mutex becomes [o]. *)
Lemma mutex_move s t p q o :
  queue_ok s -> threads s !! t = Some p ->
  (o = access s /\ critical q = critical p \/
   o = Some t /\ access s = None /\ critical q = true \/
   o = None /\ access s = Some t /\ critical q = false) ->
  (forall t' p', <[t := q]> (threads s) !! t' = Some p' -> critical p' = true <-> o = Some t') /\
  (forall t', o = Some t' -> is_Some (<[t := q]> (threads s) !! t')).
Proof.
  intros [Hm Ho _ _] Ht Hcase. pose proof (Hm t p Ht) as Hp. split.
  - intros t' p' H'. destruct (decide (t' = t)) as [->|Hne].
    + rewrite list_lookup_insert_eq in H' by by eapply lookup_lt_Some. injection H' as <-.
      destruct Hcase as [[-> ->]|[(-> & Ha & ->)|(-> & Ha & ->)]]; [done|tauto|].
      split; [done|]. intros; congruence.
    + rewrite list_lookup_insert_ne in H' by done. pose proof (Hm t' p' H') as Hp'.
      destruct Hcase as [[-> _]|[(-> & Ha & _)|(-> & Ha & _)]]; [done|..].
      * rewrite Hp', Ha. split; congruence.
      * rewrite Hp', Ha. split; congruence.
  - intros t' ->. apply lookup_lt_is_Some. rewrite length_insert. apply lookup_lt_is_Some.
    destruct Hcase as [[Ha _]|[(Ha & _)|(Ha & _)]]; [by apply Ho|simplify_eq; by eexists|done].
Qed.

Ltac mutex_case :=
  match goal with
  | Hp : _ <-> _ |- _ =>
      first [ by left | by right; left
            | right; right; split_and!; [done|by apply Hp|done] ]
  end.

Lemma step_ok s s' : queue_ok s -> step s s' -> queue_ok s'.
Proof.
  intros Hok Hstep. destruct Hstep as [s t p choice s' Ht Hs].
  pose proof Hok as [Hm Ho Hc Hf].
  pose proof (fun q => total_insert (threads s) t p q Ht) as Htot.
  pose proof (Hm t p Ht) as Hp.
  assert (forall q o, (o = access s /\ critical q = critical p \/
     o = Some t /\ access s = None /\ critical q = true \/
     o = None /\ access s = Some t /\ critical q = false) -> _) as Hmove
    by exact (fun q o => mutex_move s t p q o Hok Ht).
  destruct p; simpl in Hs, Hp; simplify_eq.
  - assert (critical (match choice with Some x => Push_lock x | None => Pop_wait end) = false) as Hq
      by by destruct choice.
    destruct (Hmove _ (access s) (or_introl (conj eq_refl Hq))) as [H1 H2].
    split; try done. simpl. specialize (Htot (match choice with Some x => Push_lock x | None => Pop_wait end)).
    destruct choice; simpl in *; lia.
  - destruct (access s) eqn:Ea; simplify_eq.
    destruct (Hmove (Push_push element) (Some t)) as [H1 H2]; [mutex_case|].
    split; try done. simpl. specialize (Htot (Push_push element)). simpl in *; lia.
  - destruct (Hmove Push_unlock (access s)) as [H1 H2]; [mutex_case|].
    split; try done; simpl.
    + specialize (Htot Push_unlock). rewrite length_app. simpl in *; lia.
    + destruct Hf as (l & Hl & Hpu). exists l. split; [done|]. by rewrite Hpu, app_assoc.
  - destruct (Hmove Push_post None) as [H1 H2]; [mutex_case|].
    split; try done. simpl. specialize (Htot Push_post). simpl in *; lia.
  - destruct (Hmove Idle (access s)) as [H1 H2]; [mutex_case|].
    split; try done. simpl. specialize (Htot Idle). simpl in *; lia.
  - destruct (available_elements s) eqn:Ea; simplify_eq.
    destruct (Hmove Pop_lock (access s)) as [H1 H2]; [mutex_case|].
    split; try done. simpl. specialize (Htot Pop_lock). simpl in *; lia.
  - destruct (access s) eqn:Ea; simplify_eq.
    destruct (Hmove Pop_pop (Some t)) as [H1 H2]; [mutex_case|].
    split; try done. simpl. specialize (Htot Pop_pop). simpl in *; lia.
  - destruct (queue s) as [|x q] eqn:Eq.
    + pose proof (total_ge _ _ _ Ht) as Hge. simpl in *. lia.
    + simpl in Hs. simplify_eq.
      destruct (Hmove (Pop_unlock (Some x)) (access s)) as [H1 H2]; [mutex_case|].
      split; try done; simpl.
      * specialize (Htot (Pop_unlock (Some x))). simpl in *; lia.
      * destruct Hf as (l & Hl & Hpu). exists (l ++ [x]).
        by rewrite Hl, Hpu, fmap_app, <- app_assoc.
  - destruct (Hmove (Pop_return elem) None) as [H1 H2]; [mutex_case|].
    split; try done. simpl. specialize (Htot (Pop_return elem)). simpl in *; lia.
  - destruct (Hmove Idle (access s)) as [H1 H2]; [mutex_case|].
    split; try done. simpl. specialize (Htot Idle). simpl in *; lia.
Qed.

Lemma reachable_ok n s : reachable n s -> queue_ok s.
Proof.
  induction 1 as [|s s' Hr IH Hs]; [|by eapply step_ok].
  split; simpl.
  - intros t p [-> _]%lookup_replicate. done.
  - done.
  - unfold total. induction n; simpl in *; [done|lia].
  - by exists [].
Qed.

(** C30: in every interleaving of the pushes and the pops, the tasks come out
    in the order they went in, each once, and no pop finds the queue empty;
    at most one thread is between lock and unlock. *)
Theorem s_queue_fifo n s :
  reachable n s ->
  (exists l, popped s = Some <$> l /\ pushed s = l ++ queue s) /\
  (forall t p, threads s !! t = Some p -> critical p = true <-> access s = Some t).
Proof. intros H. destruct (reachable_ok n s H). done. Qed.

(** C31: the threads can only all be blocked when every one waits in a pop and
    the queue is empty. *)
Theorem s_queue_progress n s :
  reachable n s ->
  (exists s', step s s') \/
  ((forall t p, threads s !! t = Some p -> p = Pop_wait) /\ queue s = []).
Proof.
  intros H. pose proof (reachable_ok n s H) as [Hm Ho Hc Hf].
  assert (forall t p, threads s !! t = Some p -> is_Some (thread_step t p None s) -> exists s', step s s') as Hgo.
  { intros t p Ht [s' Hs]. exists s'. by eapply step_thread. }
  destruct (access s) as [t|] eqn:Ea.
  { left. destruct (Ho t eq_refl) as [p Ht]. apply (Hgo t p Ht).
    pose proof (proj2 (Hm t p Ht) eq_refl) as Hcrit.
    destruct p; simpl in *; try done; destruct (queue_pop (queue s)); by eexists. }
  destruct (decide (Forall (fun p => waiting p = true) (threads s)))
    as [Hall|Hn].
  - rewrite Forall_lookup in Hall. destruct (available_elements s) as [|k] eqn:Ev.
    + right. split.
      * intros t p Ht. specialize (Hall t p Ht). by destruct p.
      * assert (total (threads s) = 0)%nat as Ht0.
        { unfold total. clear -Hall. induction (threads s) as [|p l IH]; [done|]. simpl.
          rewrite IH by (intros t q Hq; by apply (Hall (S t))).
          specialize (Hall 0%nat p eq_refl). by destruct p. }
        rewrite Ht0 in Hc. by destruct (queue s).
    + destruct (threads s) as [|p l] eqn:Et.
      * right. split; [done|]. apply nil_length_inv. rewrite <- Hc. simpl.
        exfalso. clear -H Et Ev.
        assert (forall s, reachable n s -> threads s = [] -> available_elements s = 0%nat) as Hz.
        { clear. induction 1 as [|s s' Hr IH Hs]; [done|]. intros Hl.
          destruct Hs as [s t p c s' Ht Hs].
          assert (length (threads s') = length (threads s)) as Hlen.
          { destruct p; simpl in Hs; repeat case_match; simplify_eq; simpl; by rewrite length_insert. }
          rewrite Hl in Hlen. destruct (threads s); [by rewrite lookup_nil in Ht|done]. }
        rewrite (Hz s H Et) in Ev. done.
      * left. apply (Hgo 0%nat p).
        { done. }
        specialize (Hall 0%nat p eq_refl). destruct p; try done. simpl. rewrite Ev. by eexists.
  - left. apply (not_Forall_Exists _ _) in Hn.
    apply Exists_exists in Hn as (p & [t Ht]%list_elem_of_lookup & Hp). apply (Hgo t p Ht).
    pose proof (Hm t p Ht) as Hcrit.
    destruct p; simpl in *; rewrite ?Ea; try done; try (by eexists).
    by destruct (queue_pop (queue s)); eexists.
Qed.
End TaskQueue.

(** ** Witnesses *)

Definition run_threads {A} (schedule : list (nat * option A)) (s : @s_queue_t A) : @s_queue_t A :=
  fold_left (fun s x =>
    match threads s !! fst x with
    | Some p => default s (thread_step (fst x) p (snd x) s)
    | None => s
    end) schedule s.

(** The main thread pushes two tasks while a worker takes one. *)
Definition two_pushes : @s_queue_t Z :=
  run_threads [(0%nat, Some 7); (1%nat, None); (0%nat, None); (0%nat, None); (0%nat, None);
               (0%nat, None); (1%nat, None); (0%nat, Some 8); (1%nat, None); (0%nat, None);
               (1%nat, None); (1%nat, None); (0%nat, None); (0%nat, None)] (s_queue_create 2).

Lemma run_threads_reachable {A} n schedule (s : @s_queue_t A) :
  reachable n s -> reachable n (run_threads schedule s).
Proof.
  revert s. induction schedule as [|[t c] l IH]; intros s H; [done|]. simpl. apply IH.
  destruct (threads s !! t) as [p|] eqn:Ht; [|done].
  destruct (thread_step t p c s) as [s'|] eqn:Hs; [|done].
  eapply reach_step; [done|]. by eapply step_thread.
Qed.

Lemma s_queue_fifo_witness :
  queue two_pushes = [8] /\ popped two_pushes = [Some 7] /\
  exists l, popped two_pushes = Some <$> l /\ pushed two_pushes = l ++ [8].
Proof.
  split_and!; [vm_compute; reflexivity..|].
  exact (proj1 (s_queue_fifo 2 two_pushes (run_threads_reachable 2 _ _ (reach_create 2)))).
Defined.

Lemma s_queue_progress_witness :
  (exists s', step two_pushes s') \/
  ((forall t p, threads two_pushes !! t = Some p -> p = Pop_wait) /\ queue two_pushes = []).
Proof.
  exact (s_queue_progress 2 two_pushes (run_threads_reachable 2 _ _ (reach_create 2))).
Defined.
