(* ===== verification/Sync.v ===== *)
(** * Sync: the count of the writes and the thread that syncs the image

    Models [update_counter], [read_counter], [reset_counter] and [syncer] of
    [server_threading.c] as the steps of the workers and of the syncer that
    interleave: each step is one call of the code, the counter is one word of
    64 bits with its lock.  A worker counts a write after it has made it
    ([write_file]).  The system call msync is known by what it promises: when
    it returns, what was in the image when it was called is on the disk. *)

From S2P Require Import Prelude.

Definition WRITES_TO_SYNC : Z := 8 * 1024.

Inductive worker_pc : Type :=
  | W_run            (* before the next write to the image *)
  | W_wrote          (* WRLOCK in update_counter *)
  | W_locked         (* value++ *)
  | W_counted.       (* UNLOCK *)

Inductive syncer_pc : Type :=
  | S_sleep                    (* sleep(10) *)
  | S_read_lock                (* WRLOCK in read_counter *)
  | S_read                     (* value = wcounter->value *)
  | S_read_unlock (value : Z)
  | S_test (value : Z)         (* if (... >= WRITES_TO_SYNC) *)
  | S_msync                    (* the call *)
  | S_msync_wait (at_call : Z) (* its return *)
  | S_reset_lock               (* WRLOCK in reset_counter *)
  | S_reset                    (* value = 0 *)
  | S_reset_unlock.

Inductive thread : Type := Worker (k : nat) | Syncer.

#[export] Instance worker_pc_eq_dec : EqDecision worker_pc.
Proof. solve_decision. Defined.

#[export] Instance thread_eq_dec : EqDecision thread.
Proof. solve_decision. Defined.

(** The counter with its lock, and the threads; and, to say what is counted:
    the writes made, those of them (the first ones) that are surely on the
    disk, those counted, those counted when the counter was reset last, and
    those made between the last call of msync and the reset behind it. *)
Record sync_state := {
  value : Z;
  owner : option thread;
  workers : list worker_pc;
  syncer : syncer_pc;
  made : Z;
  durable : Z;
  counted : Z;
  at_reset : Z;
  window : Z
}.

(** create_counter, and the threads before their first steps. *)
Definition create_counter (nworkers : nat) : sync_state :=
  {| value := 0; owner := None; workers := replicate nworkers W_run; syncer := S_sleep;
     made := 0; durable := 0; counted := 0; at_reset := 0; window := 0 |}.

(** Between the call of msync and the reset. *)
Definition syncing (p : syncer_pc) : bool :=
  match p with S_msync_wait _ | S_reset_lock | S_reset => true | _ => false end.

Definition goto_worker (k : nat) (p : worker_pc) (s : sync_state) : sync_state :=
  {| value := value s; owner := owner s; workers := <[k := p]> (workers s); syncer := syncer s;
     made := made s; durable := durable s; counted := counted s; at_reset := at_reset s; window := window s |}.
Definition goto_syncer (p : syncer_pc) (s : sync_state) : sync_state :=
  {| value := value s; owner := owner s; workers := workers s; syncer := p;
     made := made s; durable := durable s; counted := counted s; at_reset := at_reset s; window := window s |}.
Definition with_owner (o : option thread) (s : sync_state) : sync_state :=
  {| value := value s; owner := o; workers := workers s; syncer := syncer s;
     made := made s; durable := durable s; counted := counted s; at_reset := at_reset s; window := window s |}.

(** One call of the worker [k], which is at [p]; [None] while it waits. *)
Definition update_step (k : nat) (p : worker_pc) (s : sync_state) : option sync_state :=
  match p with
  | W_run =>
      Some (goto_worker k W_wrote
        {| value := value s; owner := owner s; workers := workers s; syncer := syncer s;
           made := made s + 1; durable := durable s; counted := counted s; at_reset := at_reset s;
           window := if syncing (syncer s) then window s + 1 else window s |})
  | W_wrote =>
      match owner s with
      | None => Some (goto_worker k W_locked (with_owner (Some (Worker k)) s))
      | Some _ => None
      end
  | W_locked =>
      Some (goto_worker k W_counted
        {| value := u64 (value s + 1); owner := owner s; workers := workers s; syncer := syncer s;
           made := made s; durable := durable s; counted := counted s + 1; at_reset := at_reset s;
           window := window s |})
  | W_counted => Some (goto_worker k W_run (with_owner None s))
  end.

(** One call of the syncer. *)
Definition syncer_step (s : sync_state) : option sync_state :=
  match syncer s with
  | S_sleep => Some (goto_syncer S_read_lock s)
  | S_read_lock =>
      match owner s with
      | None => Some (goto_syncer S_read (with_owner (Some Syncer) s))
      | Some _ => None
      end
  | S_read => Some (goto_syncer (S_read_unlock (value s)) s)
  | S_read_unlock v => Some (goto_syncer (S_test v) (with_owner None s))
  | S_test v => Some (goto_syncer (if v >=? WRITES_TO_SYNC then S_msync else S_sleep) s)
  | S_msync =>
      Some (goto_syncer (S_msync_wait (made s))
        {| value := value s; owner := owner s; workers := workers s; syncer := syncer s;
           made := made s; durable := durable s; counted := counted s; at_reset := at_reset s; window := 0 |})
  | S_msync_wait n =>
      Some (goto_syncer S_reset_lock
        {| value := value s; owner := owner s; workers := workers s; syncer := syncer s;
           made := made s; durable := n; counted := counted s; at_reset := at_reset s; window := window s |})
  | S_reset_lock =>
      match owner s with
      | None => Some (goto_syncer S_reset (with_owner (Some Syncer) s))
      | Some _ => None
      end
  | S_reset =>
      Some (goto_syncer S_reset_unlock
        {| value := 0; owner := owner s; workers := workers s; syncer := syncer s;
           made := made s; durable := durable s; counted := counted s; at_reset := counted s;
           window := window s |})
  | S_reset_unlock => Some (goto_syncer S_sleep (with_owner None s))
  end.

Definition sync_step (t : thread) (s : sync_state) : option sync_state :=
  match t with
  | Worker k => p ← workers s !! k; update_step k p s
  | Syncer => syncer_step s
  end.

(** A schedule. *)
Fixpoint run_sync (l : list thread) (s : sync_state) : option sync_state :=
  match l with [] => Some s | t :: l => s' ← sync_step t s; run_sync l s' end.

Inductive sync_reachable (nworkers : nat) : sync_state -> Prop :=
  | sync_create : sync_reachable nworkers (create_counter nworkers)
  | sync_next t s s' : sync_reachable nworkers s -> sync_step t s = Some s' -> sync_reachable nworkers s'.

Lemma run_sync_reachable n l : forall s s', sync_reachable n s -> run_sync l s = Some s' -> sync_reachable n s'.
Proof.
  induction l as [|t l IH]; intros s s' Hr; [by intros [= <-]|]. cbn.
  destruct (sync_step t s) as [s1|] eqn:E; [|done]. apply IH. by eapply sync_next.
Qed.

(** ** Invariant *)

Definition inside (t : thread) (s : sync_state) : bool :=
  match t with
  | Worker k => match workers s !! k with Some W_locked | Some W_counted => true | _ => false end
  | Syncer => match syncer s with S_read | S_read_unlock _ | S_reset | S_reset_unlock => true | _ => false end
  end.

(** A write that was made and is not counted yet. *)
Definition uncounted (p : worker_pc) : nat := match p with W_wrote | W_locked => 1 | _ => 0 end.
Definition in_flight (s : sync_state) : Z := Z.of_nat (sum_list_with uncounted (workers s)).

Record sync_ok (s : sync_state) : Prop := {
  sy_lock : forall t, inside t s = true <-> owner s = Some t;
  sy_made : made s = counted s + in_flight s;
  sy_value : value s = u64 (counted s - at_reset s);
  sy_reset : at_reset s <= counted s;
  sy_durable : durable s <= made s;
  sy_window : match syncer s with
              | S_msync_wait n => n + window s = made s /\ durable s <= n
              | S_reset_lock | S_reset => durable s + window s = made s
              | _ => at_reset s <= durable s + window s
              end;
  sy_positive : 0 <= window s
}.

Lemma in_flight_insert s k p q : workers s !! k = Some p ->
  Z.of_nat (sum_list_with uncounted (<[k := q]> (workers s))) + Z.of_nat (uncounted p) = in_flight s + Z.of_nat (uncounted q).
Proof.
  intros Hk. unfold in_flight. rewrite <- (take_drop_middle (workers s) k p Hk) at 2.
  rewrite insert_take_drop by by eapply lookup_lt_Some. rewrite !sum_list_with_app. simpl. lia.
Qed.

Definition holds_lock (p : worker_pc) : bool := match p with W_locked | W_counted => true | _ => false end.
Definition syncer_holds (p : syncer_pc) : bool :=
  match p with S_read | S_read_unlock _ | S_reset | S_reset_unlock => true | _ => false end.

Lemma inside_worker k s : inside (Worker k) s = true <-> exists p, workers s !! k = Some p /\ holds_lock p = true.
Proof.
  cbn. destruct (workers s !! k) as [p|]; [|by split; [|intros (? & ? & _)]].
  split; [intros Hp; exists p; by destruct p|]. intros (p' & [= <-] & Hp). by destruct p.
Qed.

(** How a step changes the hold of the lock: not at all, it takes it, or it
    gives it back. *)
Definition lock_change (t : thread) (before after : bool) (s s' : sync_state) : Prop :=
  owner s' = owner s /\ after = before \/
  owner s = None /\ owner s' = Some t /\ after = true \/
  before = true /\ owner s' = None /\ after = false.

Lemma worker_moves s s' k p q :
  sync_ok s -> workers s !! k = Some p -> workers s' = <[k := q]> (workers s) -> syncer s' = syncer s ->
  lock_change (Worker k) (holds_lock p) (holds_lock q) s s' -> forall t, inside t s' = true <-> owner s' = Some t.
Proof.
  intros [Hlock _ _ _ _ _ _] Hk Hw Hs Hc t.
  assert (inside (Worker k) s = holds_lock p) as Hp by (cbn; rewrite Hk; by destruct p).
  pose proof (Hlock (Worker k)) as Hown. rewrite Hp in Hown.
  destruct (decide (t = Worker k)) as [->|Hne].
  - assert (inside (Worker k) s' = holds_lock q) as ->.
    { cbn. rewrite Hw, list_lookup_insert_eq by by eapply lookup_lt_Some. by destruct q. }
    destruct Hc as [[-> ->]|[(Ho & -> & ->)|(Hb & -> & ->)]]; [done|done|done].
  - assert (inside t s' = inside t s) as ->.
    { destruct t as [k'|]; cbn; [|by rewrite Hs]. rewrite Hw, list_lookup_insert_ne; [done|congruence]. }
    rewrite Hlock. destruct Hc as [[-> _]|[(Ho & -> & _)|(Hb & -> & _)]]; [done|..].
    + rewrite Ho. split; [done|congruence].
    + rewrite (proj1 Hown Hb). split; [congruence|done].
Qed.

Lemma syncer_moves s s' :
  sync_ok s -> workers s' = workers s ->
  lock_change Syncer (syncer_holds (syncer s)) (syncer_holds (syncer s')) s s' ->
  forall t, inside t s' = true <-> owner s' = Some t.
Proof.
  intros [Hlock _ _ _ _ _ _] Hw Hc t. pose proof (Hlock Syncer) as Hown. destruct t as [k|].
  - assert (inside (Worker k) s' = inside (Worker k) s) as -> by (cbn; by rewrite Hw). rewrite Hlock.
    destruct Hc as [[-> _]|[(Ho & -> & _)|(Hb & -> & _)]]; [done|..].
    + rewrite Ho. split; [done|congruence].
    + rewrite (proj1 Hown Hb). split; [congruence|done].
  - change (inside Syncer s') with (syncer_holds (syncer s')). change (inside Syncer s) with (syncer_holds (syncer s)) in Hown.
    destruct Hc as [[-> ->]|[(Ho & -> & ->)|(Hb & -> & ->)]]; done.
Qed.

Lemma u64_next a b : u64 (u64 (a - b) + 1) = u64 (a + 1 - b).
Proof. unfold u64. rewrite Z.add_mod_idemp_l by lia. f_equal. lia. Qed.

Lemma update_step_ok s k p s' : sync_ok s -> workers s !! k = Some p -> update_step k p s = Some s' -> sync_ok s'.
Proof.
  intros Hok Hk Hs. pose proof Hok as [_ Hm Hv Hr Hd Hwin Hpos].
  pose proof (fun q => in_flight_insert s k p q Hk) as Hfl. pose proof (worker_moves s s' k p) as Hmove.
  destruct p; cbn [update_step] in Hs.
  - injection Hs as <-. specialize (Hfl W_wrote). specialize (Hmove W_wrote). cbn in Hfl.
    split; [apply Hmove; [done..|by left]|unfold in_flight in *; cbn; lia|done|done|cbn; lia| |cbn; case_match; lia].
    cbn. destruct (syncer s); cbn; lia.
  - destruct (owner s) eqn:Ho; [done|]. injection Hs as <-. specialize (Hfl W_locked). specialize (Hmove W_locked). cbn in Hfl.
    split; [apply Hmove; [done..|by right; left]|unfold in_flight in *; cbn; lia|done..].
  - injection Hs as <-. specialize (Hfl W_counted). specialize (Hmove W_counted). cbn in Hfl.
    split; [apply Hmove; [done..|by left]|unfold in_flight in *; cbn; lia| |cbn; lia|done..].
    cbn. by rewrite Hv, u64_next.
  - injection Hs as <-. specialize (Hfl W_run). specialize (Hmove W_run). cbn in Hfl.
    split; [apply Hmove; [done..|by right; right]|unfold in_flight in *; cbn; lia|done..].
Qed.

Lemma in_flight_nonneg s : 0 <= in_flight s.
Proof. unfold in_flight. lia. Qed.

Lemma syncer_step_ok s s' : sync_ok s -> syncer_step s = Some s' -> sync_ok s'.
Proof.
  intros Hok Hs. pose proof Hok as [_ Hm Hv Hr Hd Hwin Hpos]. pose proof (in_flight_nonneg s) as Hfl.
  pose proof (syncer_moves s s' Hok) as Hmove. unfold lock_change in Hmove. unfold syncer_step in Hs.
  destruct (syncer s) as [| | |v|v| |n| | |] eqn:Ep; try (destruct (owner s) eqn:Ho; [done|]);
    injection Hs as <-; cbn in Hmove, Hwin;
    (split; [apply Hmove; [done|tauto || (destruct (v >=? WRITES_TO_SYNC); tauto)|..]|..]);
    unfold in_flight in *; cbn; try done; try lia.
  - by destruct (v >=? WRITES_TO_SYNC).
  - by rewrite Z.sub_diag.
Qed.

Lemma sync_reachable_ok n s : sync_reachable n s -> sync_ok s.
Proof.
  induction 1 as [|t s s' Hr IH Hs].
  - split; try done; cbn.
    + intros [k|]; [|done]. cbn. split; [|done]. destruct (replicate n W_run !! k) as [p|] eqn:E; [|done].
      by apply lookup_replicate in E as [-> _].
    + unfold in_flight. cbn. assert (sum_list_with uncounted (replicate n W_run) = 0%nat) as -> by (induction n; done). done.
  - destruct t as [k|]; cbn in Hs; [|by eapply syncer_step_ok].
    destruct (workers s !! k) as [p|] eqn:Hk; [|done]. by eapply update_step_ok.
Qed.

Lemma owner_steps n s t : sync_reachable n s -> owner s = Some t -> exists s', sync_step t s = Some s'.
Proof.
  intros Hr Ho. pose proof (sync_reachable_ok n s Hr) as [Hlock _ _ _ _ _ _]. apply Hlock in Ho. destruct t as [k|].
  - apply inside_worker in Ho as (p & Hk & Hp). cbn. rewrite Hk. destruct p; [done..| |]; by eexists.
  - cbn in *. unfold syncer_step. destruct (syncer s); try done; by eexists.
Qed.

(** C20: What the counter knows of the writes: in every interleaving of the workers and the syncer the counter
    holds the writes counted since its last reset, modulo 2^64; outside of a sync, the writes that may not be
    on the disk are at most those that it counts, those whose worker is about to count them, and those that
    were made between the last call of msync and the reset behind it; at most one thread is at the counter;
    and some thread can always go on. *)
Theorem syncer_accounts nworkers s :
  sync_reachable nworkers s ->
  value s = u64 (counted s - at_reset s) /\
  (syncing (syncer s) = false ->
     0 <= made s - durable s <= (counted s - at_reset s) + in_flight s + window s) /\
  (forall t1 t2, inside t1 s = true -> inside t2 s = true -> t1 = t2) /\
  (exists t s', sync_step t s = Some s').
Proof.
  intros Hr. pose proof (sync_reachable_ok nworkers s Hr) as [Hlock Hm Hv Hre Hd Hw Hp].
  split_and!; [done| | |].
  - intros Hs. destruct (syncer s); try done; lia.
  - intros t1 t2 H1%Hlock H2%Hlock. congruence.
  - destruct (owner s) as [t|] eqn:Ho; [exists t; by apply (owner_steps nworkers)|].
    exists Syncer. cbn. unfold syncer_step. rewrite Ho. destruct (syncer s); by eexists.
Qed.

(** The calls of a write by the first worker, and of a round of the syncer
    that syncs, with a write of the first worker while msync runs. *)
Definition write_round : list thread := [Worker 0; Worker 0; Worker 0; Worker 0].
Definition sync_round : list thread := replicate 6 Syncer ++ write_round ++ replicate 4 Syncer.
Definition idle_round : list thread := replicate 5 Syncer.

Lemma many_writes k : forall s ws, workers s = W_run :: ws -> owner s = None -> syncer s = S_sleep ->
  value s = u64 (counted s - at_reset s) ->
  run_sync (mjoin (replicate k write_round)) s =
    Some {| value := u64 (counted s + Z.of_nat k - at_reset s); owner := None; workers := W_run :: ws; syncer := S_sleep;
            made := made s + Z.of_nat k; durable := durable s; counted := counted s + Z.of_nat k;
            at_reset := at_reset s; window := window s |}.
Proof.
  induction k as [|k IH]; intros s ws Hw Ho Hs Hv.
  - cbn. rewrite !Z.add_0_r, <- Hv, <- Hw, <- Ho, <- Hs. by destruct s.
  - destruct s as [v o w sy m d c r wi]. cbn in Hw, Ho, Hs, Hv. subst.
    change (mjoin (replicate (S k) write_round)) with (write_round ++ mjoin (replicate k write_round)).
    cbn [write_round app run_sync sync_step workers lookup list_lookup mbind option_bind update_step].
    cbn. rewrite (IH _ ws); [|done..|]; cbn.
    + do 2 f_equal; [f_equal|..]; lia.
    + apply u64_next.
Qed.

Lemma run_sync_app l1 l2 s s' : run_sync l1 s = Some s' -> run_sync (l1 ++ l2) s = run_sync l2 s'.
Proof.
  revert s. induction l1 as [|t l1 IH]; intros s; [by intros [= ->]|]. cbn. by destruct (sync_step t s) as [s1|]; [apply IH|].
Qed.

Lemma idle_below s : owner s = None -> syncer s = S_sleep -> value s < WRITES_TO_SYNC ->
  run_sync idle_round s = Some (goto_syncer S_sleep s).
Proof.
  intros Ho Hs Hv. destruct s as [v o w sy m d c r wi]. cbn in Ho, Hs, Hv. subst.
  cbn -[WRITES_TO_SYNC]. rewrite Z.geb_leb, (proj2 (Z.leb_gt _ _)) by done. done.
Qed.

(** The counter after 8192 writes and a sync with one write more in it. *)
Definition missed_state (n : nat) : sync_state :=
  {| value := 0; owner := None; workers := W_run :: replicate n W_run; syncer := S_sleep;
     made := 8193; durable := 8192; counted := 8193; at_reset := 8193; window := 1 |}.

Lemma missed_reachable n : sync_reachable (S n) (missed_state n).
Proof.
  pose proof (many_writes (Z.to_nat 8192) (create_counter (S n)) (replicate n W_run) eq_refl eq_refl eq_refl eq_refl) as H1.
  set (A := {| value := _ |}) in H1.
  assert (run_sync sync_round A = Some (missed_state n)) as H2 by reflexivity.
  eapply run_sync_reachable; [|exact H2]. eapply run_sync_reachable; [constructor|exact H1].
Qed.

(** C21: The syncer loses count of writes: a write that a worker makes and counts while msync runs is wiped
    out of the counter by the reset behind it.  There is a reachable state in which no thread is doing
    anything, the counter is zero and a write is not known to be on the disk; from there the syncer's rounds
    change nothing, so that the write stays unsynced until 8192 others follow. *)
Theorem syncer_misses_writes nworkers :
  (0 < nworkers)%nat ->
  exists s, sync_reachable nworkers s /\ Forall (fun p => p = W_run) (workers s) /\ syncer s = S_sleep /\
    owner s = None /\ value s = 0 /\ durable s < made s /\
    run_sync idle_round s = Some s /\
    (forall k, Z.of_nat k < WRITES_TO_SYNC -> exists s', run_sync (mjoin (replicate k write_round) ++ idle_round) s = Some s' /\
       durable s' = durable s).
Proof.
  intros Hn. destruct nworkers as [|n]; [lia|].
  exists (missed_state n). split_and!; [apply missed_reachable|by constructor; [|apply Forall_replicate]|done..|].
  - intros k Hk.
    pose proof (many_writes k (missed_state n) (replicate n W_run) eq_refl eq_refl eq_refl eq_refl) as H3.
    set (B := {| value := _ |}) in H3. exists (goto_syncer S_sleep B). split; [|done].
    rewrite (run_sync_app _ _ _ B H3). apply idle_below; [done|done|].
    unfold B. cbn. unfold WRITES_TO_SYNC in *. unfold u64. rewrite Z.mod_small; lia.
Qed.

(** ** Witnesses: one worker *)

Lemma syncer_accounts_witness :
  0 <= made (missed_state 0) - durable (missed_state 0)
    <= (counted (missed_state 0) - at_reset (missed_state 0)) + in_flight (missed_state 0) + window (missed_state 0).
Proof. exact (proj1 (proj2 (syncer_accounts 1 (missed_state 0) (missed_reachable 0))) eq_refl). Defined.

Lemma syncer_misses_writes_witness : exists s, sync_reachable 3 s /\ value s = 0 /\ durable s < made s.
Proof.
  destruct (syncer_misses_writes 3 ltac:(lia)) as (s & Hr & _ & _ & _ & Hv & Hd & _).
  exists s. split; [exact Hr|]. split; [exact Hv|exact Hd].
Defined.
