(* ===== verification/Lists.v ===== *)
(** * Lists: commons/collections/list.c and queue.c

    Singly linked lists on a heap of nodes.  A pointer is the number of a
    node; a freed node is no longer in the heap, so that using one is a
    fault.  The data is not NULL: [None] is what the functions return for
    NULL. *)

From S2P Require Import Prelude.

Section Lists.
Context {V : Type}.

Record t_link_element := { data : V; next : option nat }.

(** The nodes, and the address that the next malloc returns. *)
Record store := { nodes : gmap nat t_link_element; brk : nat }.

Record t_list := { head : option nat; elements_count : Z }.

Abbreviation MS := (M store).

Definition load_element (p : nat) : MS t_link_element := fun s =>
  match nodes s !! p with Some e => Ok (e, s) | None => Fail OutOfBounds end.

Definition store_element (p : nat) (e : t_link_element) : MS unit :=
  load_element p;; modify (fun s => {| nodes := <[p := e]> (nodes s); brk := brk s |}).

Definition free_element (p : nat) : MS unit :=
  load_element p;; modify (fun s => {| nodes := delete p (nodes s); brk := brk s |}).

(** A walk to the end of a list that is not cyclic. *)
Definition walk_fuel : MS nat := gets (fun s => Datatypes.S (size (nodes s))).

Definition list_create : t_list := {| head := None; elements_count := 0 |}.

Definition list_create_element (d : V) : MS nat := fun s =>
  Ok (brk s, {| nodes := <[brk s := {| data := d; next := None |}]> (nodes s); brk := Datatypes.S (brk s) |}).

(** if (previous != NULL) previous->next = next; *)
Definition list_link_element (previous next_ : option nat) : MS unit :=
  match previous with
  | None => mret tt
  | Some p => e ← load_element p; store_element p {| data := data e; next := next_ |}
  end.

(** while (cont < index), from [element] on *)
Fixpoint advance (n : nat) (element : option nat) : MS (option nat) :=
  match n with
  | O => mret element
  | Datatypes.S n => p ← deref element; e ← load_element p; advance n (next e)
  end.

Definition list_get_element (self : t_list) (index : Z) : MS (option nat) :=
  if (elements_count self >? index) && (index >=? 0) then advance (Z.to_nat index) (head self) else mret None.

Definition list_add (self : t_list) (d : V) : MS (Z * t_list) :=
  new_element ← list_create_element d;
  (if elements_count self =? 0 then
     mret (s32 (elements_count self + 1) - 1,
           {| head := Some new_element; elements_count := s32 (elements_count self + 1) |})
   else
     last ← list_get_element self (elements_count self - 1);
     list_link_element last (Some new_element);;
     mret (s32 (elements_count self + 1) - 1,
           {| head := head self; elements_count := s32 (elements_count self + 1) |})).

Definition list_get (self : t_list) (index : Z) : MS (option V) :=
  element_in_index ← list_get_element self index;
  match element_in_index with
  | Some p => e ← load_element p; mret (Some (data e))
  | None => mret None
  end.

Definition list_add_in_index (self : t_list) (index : Z) (d : V) : MS t_list :=
  if (elements_count self >? index) && (index >=? 0) then
    new_element ← list_create_element d;
    (if index =? 0 then
       list_link_element (Some new_element) (head self);;
       mret {| head := Some new_element; elements_count := s32 (elements_count self + 1) |}
     else
       next_ ← list_get_element self index;
       previous ← list_get_element self (index - 1);
       list_link_element previous (Some new_element);;
       list_link_element (Some new_element) next_;;
       mret {| head := head self; elements_count := s32 (elements_count self + 1) |})
  else mret self.

Definition list_replace (self : t_list) (index : Z) (d : V) : MS (option V) :=
  element ← list_get_element self index;
  match element with
  | Some p =>
      e ← load_element p;
      store_element p {| data := d; next := next e |};;
      mret (Some (data e))
  | None => mret None
  end.

(** while (element != NULL && !condition(element->data)) *)
Fixpoint find_from (fuel : nat) (condition : V -> bool) (element : option nat) (position : Z)
  : MS (option nat * Z) :=
  match element, fuel with
  | None, _ => mret (None, position)
  | Some _, O => fail OutOfFuel
  | Some p, Datatypes.S fuel =>
      e ← load_element p;
      if condition (data e) then mret (Some p, position)
      else find_from fuel condition (next e) (position + 1)
  end.

(** The element and its index. *)
Definition list_find_element (self : t_list) (condition : V -> bool) : MS (option nat * Z) :=
  fuel ← walk_fuel; find_from fuel condition (head self) 0.

Definition list_find (self : t_list) (condition : V -> bool) : MS (option V) :=
  r ← list_find_element self condition;
  match fst r with
  | Some p => e ← load_element p; mret (Some (data e))
  | None => mret None
  end.

(** closure(element->data) for every element; [a] is the state of the
    closure. *)
Fixpoint iterate_from {A} (fuel : nat) (closure : V -> A -> MS A) (element : option nat) (a : A) : MS A :=
  match element, fuel with
  | None, _ => mret a
  | Some _, O => fail OutOfFuel
  | Some p, Datatypes.S fuel =>
      e ← load_element p;
      a ← closure (data e) a;
      e ← load_element p;
      iterate_from fuel closure (next e) a
  end.

Definition list_iterate {A} (self : t_list) (closure : V -> A -> MS A) (a : A) : MS A :=
  fuel ← walk_fuel; iterate_from fuel closure (head self) a.

(** A closure that only looks at the data: what it is called with. *)
Definition visit (d : V) (seen : list V) : MS (list V) := mret (seen ++ [d]).

(** The element is dereferenced without a test. *)
Definition list_remove (self : t_list) (index : Z) : MS (option V * t_list) :=
  match head self with
  | None => mret (None, self)
  | Some _ =>
      aux ← list_get_element self index;
      aux_element ← deref aux;
      e ← load_element aux_element;
      new_head ← (if index =? 0 then mret (next e)
                  else
                    previous ← list_get_element self (index - 1);
                    list_link_element previous (next e);;
                    mret (head self));
      free_element aux_element;;
      mret (Some (data e), {| head := new_head; elements_count := elements_count self - 1 |})
  end.

Definition list_remove_by_condition (self : t_list) (condition : V -> bool) : MS (option V * t_list) :=
  r ← list_find_element self condition;
  match fst r with
  | Some _ => list_remove self (snd r)
  | None => mret (None, self)
  end.

Definition list_size (self : t_list) : Z := elements_count self.
Definition list_is_empty (self : t_list) : bool := list_size self =? 0.

(** while (self->head != NULL) *)
Fixpoint free_from (fuel : nat) (element : option nat) : MS unit :=
  match element, fuel with
  | None, _ => mret tt
  | Some _, O => fail OutOfFuel
  | Some p, Datatypes.S fuel =>
      e ← load_element p;
      free_element p;;
      free_from fuel (next e)
  end.

Definition list_clean (self : t_list) : MS t_list :=
  fuel ← walk_fuel;
  free_from fuel (head self);;
  mret {| head := None; elements_count := 0 |}.

(** The data that the destroyer is called with. *)
Definition list_clean_and_destroy_elements (self : t_list) : MS (list V * t_list) :=
  destroyed ← list_iterate self visit [];
  self ← list_clean self;
  mret (destroyed, self).

Definition list_destroy (self : t_list) : MS unit := list_clean self;; mret tt.

(** The functions that pass an element to a destroyer: what it gets, NULL
    included. *)
Definition list_replace_and_destroy_element (self : t_list) (num : Z) (d : V) : MS (option V) :=
  list_replace self num d.
Definition list_remove_and_destroy_element (self : t_list) (index : Z) : MS (option V * t_list) :=
  list_remove self index.
Definition list_remove_and_destroy_by_condition (self : t_list) (condition : V -> bool)
  : MS (option V * t_list) :=
  list_remove_by_condition self condition.
Definition list_destroy_and_destroy_elements (self : t_list) : MS (list V) :=
  r ← list_clean_and_destroy_elements self; mret (fst r).

(** ** Lists made of lists *)

(** for (i = 0; i < count; ++i); behind the end of the list NULL is added,
    which is outside of this model. *)
Fixpoint take_from (n : nat) (self : t_list) (i : Z) (sublist : t_list) : MS t_list :=
  match n with
  | O => mret sublist
  | Datatypes.S n =>
      element ← list_get self i;
      d ← deref element;
      r ← list_add sublist d;
      take_from n self (i + 1) (snd r)
  end.

Definition list_take (self : t_list) (count : Z) : MS t_list := take_from (Z.to_nat count) self 0 list_create.

Fixpoint take_and_remove_from (n : nat) (self sublist : t_list) : MS (t_list * t_list) :=
  match n with
  | O => mret (sublist, self)
  | Datatypes.S n =>
      r ← list_remove self 0;
      d ← deref (fst r);
      a ← list_add sublist d;
      take_and_remove_from n (snd r) (snd a)
  end.

(** The new list, and what is left of [self]. *)
Definition list_take_and_remove (self : t_list) (count : Z) : MS (t_list * t_list) :=
  take_and_remove_from (Z.to_nat count) self list_create.

Definition list_filter (self : t_list) (condition : V -> bool) : MS t_list :=
  list_iterate self (fun element filtered =>
    if condition element then r ← list_add filtered element; mret (snd r) else mret filtered) list_create.

Definition list_map (self : t_list) (transformer : V -> V) : MS t_list :=
  list_iterate self (fun element mapped => r ← list_add mapped (transformer element); mret (snd r)) list_create.

(** ** queue.c *)

Definition queue_create : t_list := list_create.
Definition queue_clean (self : t_list) : MS t_list := list_clean self.
Definition queue_push (self : t_list) (element : V) : MS t_list := r ← list_add self element; mret (snd r).
Definition queue_pop (self : t_list) : MS (option V * t_list) := list_remove self 0.
Definition queue_peek (self : t_list) : MS (option V) := list_get self 0.
Definition queue_size (self : t_list) : Z := list_size self.
Definition queue_is_empty (self : t_list) : bool := list_is_empty self.
Definition queue_destroy (self : t_list) : MS unit := list_destroy self.
Definition queue_clean_and_destroy_elements (self : t_list) : MS (list V * t_list) :=
  list_clean_and_destroy_elements self.
Definition queue_destroy_and_destroy_elements (self : t_list) : MS (list V) :=
  list_destroy_and_destroy_elements self.
End Lists.

Arguments t_link_element V : clear implicits.
Arguments store V : clear implicits.
