(* ===== verification/ListsFacts.v ===== *)
(** * ListsFacts: the linked lists as sequences

    [is_list s l vs] says that the nodes of [s] from the head of [l] on hold
    the sequence [vs].  [lists_refine] is the refinement of the sequence
    operations by the operations of list.c and queue.c, with their faults. *)

From S2P Require Import Prelude Lists.

Section Facts.
Context {V : Type}.
Implicit Types (h : gmap nat (t_link_element V)) (s : store V) (l : t_list) (vs : list V) (ls : list nat).

(** ** Segments *)

Fixpoint lseg h (p : option nat) ls vs (q : option nat) : Prop :=
  match ls, vs with
  | [], [] => p = q
  | a :: ls, v :: vs => p = Some a /\ exists n, h !! a = Some {| data := v; next := n |} /\ lseg h n ls vs q
  | _, _ => False
  end.

Lemma lseg_length h p ls vs q : lseg h p ls vs q -> length ls = length vs.
Proof.
  revert p vs. induction ls as [|a ls IH]; intros p [|v vs]; try done. intros (_ & n & _ & H). simpl.
  by rewrite (IH _ _ H).
Qed.

Lemma lseg_split h p ls vs1 vs2 q :
  lseg h p ls (vs1 ++ vs2) q ->
  exists ls1 ls2 r, ls = ls1 ++ ls2 /\ lseg h p ls1 vs1 r /\ lseg h r ls2 vs2 q.
Proof.
  revert p ls. induction vs1 as [|v vs1 IH]; intros p ls H.
  - by exists [], ls, p.
  - destruct ls as [|a ls]; [done|]. destruct H as (-> & n & Ha & H).
    destruct (IH n ls H) as (ls1 & ls2 & r & -> & H1 & H2). exists (a :: ls1), ls2, r. simpl. eauto 6.
Qed.

Lemma lseg_app h p ls1 ls2 vs1 vs2 q r :
  lseg h p ls1 vs1 r -> lseg h r ls2 vs2 q -> lseg h p (ls1 ++ ls2) (vs1 ++ vs2) q.
Proof.
  revert p vs1. induction ls1 as [|a ls1 IH]; intros p [|v vs1] H1 H2; try done.
  - by rewrite H1.
  - destruct H1 as (-> & n & Ha & H1). simpl. eauto.
Qed.

Lemma lseg_ext h h' p ls vs q :
  (forall a, a ∈ ls -> h' !! a = h !! a) -> lseg h p ls vs q -> lseg h' p ls vs q.
Proof.
  revert p vs. induction ls as [|a ls IH]; intros p [|v vs] Hx; try done.
  intros (-> & n & Ha & H). split; [done|]. exists n. split; [by rewrite Hx by left|].
  apply IH; [|done]. intros b Hb. apply Hx. by right.
Qed.

Lemma lseg_insert h p ls vs q a e : a ∉ ls -> lseg h p ls vs q -> lseg (<[a := e]> h) p ls vs q.
Proof. intros Ha. apply lseg_ext. intros b Hb. apply lookup_insert_ne. by intros ->. Qed.

Lemma lseg_delete h p ls vs q a : a ∉ ls -> lseg h p ls vs q -> lseg (delete a h) p ls vs q.
Proof. intros Ha. apply lseg_ext. intros b Hb. apply lookup_delete_ne. by intros ->. Qed.

Lemma lseg_dom h p ls vs q a : lseg h p ls vs q -> a ∈ ls -> is_Some (h !! a).
Proof.
  revert p vs. induction ls as [|b ls IH]; intros p [|v vs] H Ha; try done; [by apply not_elem_of_nil in Ha|].
  destruct H as (_ & n & Hb & H). apply elem_of_cons in Ha as [->|Ha]; eauto.
Qed.

Lemma lseg_one h p ls v q : lseg h p ls [v] q -> exists a, ls = [a] /\ p = Some a /\ h !! a = Some {| data := v; next := q |}.
Proof.
  destruct ls as [|a [|b ls]]; [done| |by intros (_ & n & _ & H)]. intros (-> & n & Ha & ->). eauto.
Qed.

(** ** Lists *)

(** malloc returns a new address. *)
Definition store_ok s : Prop := forall a, is_Some (nodes s !! a) -> (a < brk s)%nat.

Definition is_list s l vs : Prop :=
  store_ok s /\ elements_count l = zlen vs /\
  exists ls, lseg (nodes s) (head l) ls vs None /\ NoDup ls.

(** The nodes that are not in the list; what an operation does not free, or
    frees of another list, shows here. *)
Definition others s vs : Z := Z.of_nat (size (nodes s)) - zlen vs.

Lemma others_new s e vs vs' :
  store_ok s -> zlen vs' = zlen vs + 1 ->
  others {| nodes := <[brk s := e]> (nodes s); brk := Datatypes.S (brk s) |} vs' = others s vs.
Proof.
  intros Hs Hv. unfold others. cbn [nodes]. rewrite map_size_insert_None; [lia|].
  destruct (nodes s !! brk s) eqn:Hb; [|done]. specialize (Hs (brk s) ltac:(by rewrite Hb)). lia.
Qed.

Lemma others_insert s a e vs vs' :
  is_Some (nodes s !! a) -> zlen vs' = zlen vs ->
  others {| nodes := <[a := e]> (nodes s); brk := brk s |} vs' = others s vs.
Proof. intros [x Ha] Hv. unfold others. cbn [nodes]. rewrite map_size_insert_Some by (by eexists). lia. Qed.

Lemma others_delete s a vs vs' :
  is_Some (nodes s !! a) -> zlen vs = zlen vs' + 1 ->
  others {| nodes := delete a (nodes s); brk := brk s |} vs' = others s vs.
Proof.
  intros Ha Hv. unfold others. cbn [nodes]. rewrite (map_size_delete_Some _ _ Ha).
  assert (size (nodes s) <> 0%nat); [|lia]. intros Hz%map_size_empty_inv. rewrite Hz in Ha.
  rewrite lookup_empty in Ha. by destruct Ha.
Qed.

Lemma advance_ok h b p ls vs q :
  lseg h p ls vs q -> advance (length vs) p {| nodes := h; brk := b |} = Ok (q, {| nodes := h; brk := b |}).
Proof.
  revert p ls. induction vs as [|v vs IH]; intros p [|a ls] H; try done; [by rewrite H|].
  destruct H as (-> & n & Ha & H). cbn [length advance]. rewrite (bind_ok _ _ _ a _) by done.
  rewrite (bind_ok _ _ _ {| data := v; next := n |} {| nodes := h; brk := b |}); [by eapply IH|].
  unfold load_element. cbn [nodes]. by rewrite Ha.
Qed.

Lemma get_element_ok s l ls vs1 vs2 r :
  elements_count l = zlen (vs1 ++ vs2) -> lseg (nodes s) (head l) ls vs1 r -> vs2 <> [] ->
  list_get_element l (zlen vs1) s = Ok (r, s).
Proof.
  intros Hc Hs Hne. unfold list_get_element. rewrite Hc, zlen_app. pose proof (zlen_nonneg vs1).
  assert (0 < zlen vs2) by (destruct vs2; [done|rewrite zlen_cons; pose proof (zlen_nonneg vs2); lia]).
  rewrite (proj2 (Z.gtb_lt _ _)), (proj2 (Z.geb_le _ _)) by lia. simpl. unfold zlen. rewrite Nat2Z.id.
  destruct s as [h b]. by eapply advance_ok.
Qed.

Lemma get_element_out l s i :
  ~ (0 <= i < elements_count l) -> list_get_element l i s = Ok (None, s).
Proof.
  intros Hi. unfold list_get_element. case_test; [|done]. exfalso. apply Hi.
  apply andb_true_iff in E as [E1%Z.gtb_lt E2%Z.geb_le]. lia.
Qed.

Lemma load_ok s a e : nodes s !! a = Some e -> load_element a s = Ok (e, s).
Proof. intros H. unfold load_element. by rewrite H. Qed.

Lemma store_element_ok s a e e' :
  nodes s !! a = Some e -> store_element a e' s = Ok (tt, {| nodes := <[a := e']> (nodes s); brk := brk s |}).
Proof. intros H. unfold store_element. by rewrite (bind_ok _ _ _ _ _ (load_ok s a e H)). Qed.

Lemma free_ok s a e :
  nodes s !! a = Some e -> free_element a s = Ok (tt, {| nodes := delete a (nodes s); brk := brk s |}).
Proof. intros H. unfold free_element. by rewrite (bind_ok _ _ _ _ _ (load_ok s a e H)). Qed.

Lemma link_ok s a v n n' :
  nodes s !! a = Some {| data := v; next := n |} ->
  list_link_element (Some a) n' s =
    Ok (tt, {| nodes := <[a := {| data := v; next := n' |}]> (nodes s); brk := brk s |}).
Proof.
  intros H. unfold list_link_element. rewrite (bind_ok _ _ _ _ _ (load_ok s a _ H)). by eapply store_element_ok.
Qed.

Lemma store_ok_insert s a e : store_ok s -> is_Some (nodes s !! a) -> store_ok {| nodes := <[a := e]> (nodes s); brk := brk s |}.
Proof.
  intros Hs Ha b. cbn [nodes brk]. destruct (decide (a = b)) as [->|Hne]; [intros _; by apply Hs|].
  rewrite lookup_insert_ne by done. apply Hs.
Qed.

Lemma store_ok_new s e : store_ok s -> store_ok {| nodes := <[brk s := e]> (nodes s); brk := Datatypes.S (brk s) |}.
Proof.
  intros Hs b. cbn [nodes brk]. destruct (decide (brk s = b)) as [->|Hne]; [lia|].
  rewrite lookup_insert_ne by done. intros Hb%Hs. lia.
Qed.

Lemma store_ok_delete s a : store_ok s -> store_ok {| nodes := delete a (nodes s); brk := brk s |}.
Proof. intros Hs b [e He]. cbn [nodes] in He. apply lookup_delete_Some in He as [_ Hb]. apply Hs. by exists e. Qed.

Lemma new_not_in s p ls vs q : store_ok s -> lseg (nodes s) p ls vs q -> brk s ∉ ls.
Proof. intros Hs Hl Hin. pose proof (Hs _ (lseg_dom _ _ _ _ _ _ Hl Hin)). lia. Qed.

(** A list that is cut before and behind one element. *)
Lemma is_list_cut s l vs1 v vs2 :
  is_list s l (vs1 ++ v :: vs2) ->
  exists ls1 a ls2 n, lseg (nodes s) (head l) ls1 vs1 (Some a) /\ nodes s !! a = Some {| data := v; next := n |} /\
    lseg (nodes s) n ls2 vs2 None /\ NoDup (ls1 ++ a :: ls2) /\
    list_get_element l (zlen vs1) s = Ok (Some a, s).
Proof.
  intros (_ & Hc & ls & Hls & Hnd). destruct (lseg_split _ _ _ _ _ _ Hls) as (ls1 & ls2 & r & -> & H1 & H2).
  destruct ls2 as [|a ls2]; [done|]. destruct H2 as (-> & n & Ha & H2).
  exists ls1, a, ls2, n. split_and!; try done. by eapply get_element_ok.
Qed.

Lemma insert_list s l vs1 v vs2 ls1 a ls2 n d count :
  store_ok s -> lseg (nodes s) (head l) ls1 vs1 (Some a) -> nodes s !! a = Some {| data := v; next := n |} ->
  lseg (nodes s) n ls2 vs2 None -> NoDup (ls1 ++ a :: ls2) -> count = zlen (vs1 ++ v :: d :: vs2) ->
  is_list {| nodes := <[a := {| data := v; next := Some (brk s) |}]>
                        (<[brk s := {| data := d; next := n |}]> (nodes s)); brk := Datatypes.S (brk s) |}
    {| head := head l; elements_count := count |} (vs1 ++ v :: d :: vs2).
Proof.
  intros Hs H1 Ha H2 Hnd ->. assert (Hab : a <> brk s) by (intros ->; specialize (Hs (brk s) ltac:(by eexists)); lia).
  pose proof (new_not_in _ _ _ _ _ Hs H1) as Hb1. pose proof (new_not_in _ _ _ _ _ Hs H2) as Hb2.
  pose proof Hnd as [Ha1 Hnd']%NoDup_middle. apply not_elem_of_app in Ha1 as [Ha1 Ha2].
  split; [|split; [done|]].
  - refine (store_ok_insert {| nodes := <[brk s := {| data := d; next := n |}]> (nodes s); brk := Datatypes.S (brk s) |}
              a {| data := v; next := Some (brk s) |} (store_ok_new s _ Hs) _).
    cbn [nodes]. rewrite lookup_insert_ne by done. by eexists.
  - exists (ls1 ++ a :: brk s :: ls2). split.
    + cbn [nodes head]. eapply lseg_app; [by do 2 (apply lseg_insert; [done|])|]. split; [done|].
      exists (Some (brk s)). split; [apply lookup_insert_eq|]. split; [done|]. exists n.
      split; [rewrite lookup_insert_ne by done; apply lookup_insert_eq|]. by do 2 (apply lseg_insert; [done|]).
    + apply NoDup_middle. rewrite not_elem_of_app, not_elem_of_cons. split; [done|].
      apply NoDup_middle. by rewrite not_elem_of_app.
Qed.

Lemma push_front s l vs d count :
  is_list s l vs -> count = zlen (d :: vs) ->
  is_list {| nodes := <[brk s := {| data := d; next := head l |}]> (nodes s); brk := Datatypes.S (brk s) |}
    {| head := Some (brk s); elements_count := count |} (d :: vs).
Proof.
  intros (Hs & Hc & ls & Hls & Hnd) ->. pose proof (new_not_in _ _ _ _ _ Hs Hls) as Hb.
  split; [by apply store_ok_new|]. split; [done|]. exists (brk s :: ls). split.
  - split; [done|]. exists (head l). split; [apply lookup_insert_eq|by apply lseg_insert].
  - by apply NoDup_cons.
Qed.

Lemma list_create_element_ok s d :
  list_create_element d s =
    Ok (brk s, {| nodes := <[brk s := {| data := d; next := None |}]> (nodes s); brk := Datatypes.S (brk s) |}).
Proof. done. Qed.

(** The new node does not show in the list yet. *)
Lemma is_list_new s l vs d :
  is_list s l vs ->
  is_list {| nodes := <[brk s := {| data := d; next := None |}]> (nodes s); brk := Datatypes.S (brk s) |} l vs.
Proof.
  intros (Hs & Hc & ls & Hls & Hnd). split; [by apply store_ok_new|]. split; [done|]. exists ls.
  split; [|done]. apply lseg_insert; [by eapply new_not_in|done].
Qed.

Lemma list_add_ok s l vs d :
  is_list s l vs -> zlen vs < 2 ^ 31 - 1 ->
  exists s' l', list_add l d s = Ok ((zlen vs, l'), s') /\ is_list s' l' (vs ++ [d]) /\
    others s' (vs ++ [d]) = others s vs.
Proof.
  intros Hl Hlen. pose proof (zlen_nonneg vs). pose proof Hl as (Hs & Hc & ls & Hls & Hnd).
  unfold list_add. rewrite (bind_ok _ _ _ _ _ (list_create_element_ok s d)), Hc.
  rewrite s32_small, Z.add_simpl_r by lia. destruct vs as [|v vs _] using rev_ind.
  - change (zlen [] =? 0) with true. cbv iota. eexists _, _. split; [reflexivity|].
    destruct ls; [|done]. simpl in Hls. rewrite <- Hls. split; [by apply (push_front s l [])|by apply others_new].
  - rewrite zlen_app in *. change (zlen [v]) with 1 in *. pose proof (zlen_nonneg vs).
    rewrite (proj2 (Z.eqb_neq _ _)), Z.add_simpl_r by lia.
    destruct (is_list_cut _ _ _ _ _ Hl) as (ls1 & a & ls2 & n & H1 & Ha & H2 & Hnd2 & _).
    pose proof (new_not_in _ _ _ _ _ Hs H1) as Hb1.
    assert (a <> brk s) as Hab by (intros ->; specialize (Hs (brk s) ltac:(by eexists)); lia).
    set (s1 := {| nodes := _; brk := _ |}).
    assert (Hget : list_get_element l (zlen vs) s1 = Ok (Some a, s1)).
    { apply (get_element_ok _ l ls1 vs [v]); [by rewrite zlen_app|by apply lseg_insert|done]. }
    assert (Ha1 : nodes s1 !! a = Some {| data := v; next := n |}) by by apply lookup_insert_Some; right.
    rewrite (bind_ok _ _ _ _ _ Hget), (bind_ok _ _ _ _ _ (link_ok _ _ _ _ (Some (brk s)) Ha1)).
    eexists _, _. split; [reflexivity|]. cbn [nodes brk].
    destruct ls2; [|done]. simpl in H2. subst n. rewrite <- app_assoc.
    split; [apply (insert_list s l vs v [] ls1 a [] None d); [done..|]|].
    + rewrite zlen_app. change (zlen [v; d]) with 2. lia.
    + etransitivity; [exact (others_insert s1 a _ (vs ++ [v; d]) _ ltac:(by eexists) eq_refl)|].
      apply others_new; [done|]. rewrite !zlen_app. change (zlen [v; d]) with 2. change (zlen [v]) with 1. lia.
Qed.

(** The nodes in which a list is stored, for an index in range. *)
Lemma zlen_split vs i : 0 <= i < zlen vs -> exists vs1 v vs2, vs = vs1 ++ v :: vs2 /\ zlen vs1 = i.
Proof.
  intros Hi. destruct (lookup_lt_is_Some_2 vs (Z.to_nat i)) as [v Hv]; [unfold zlen in Hi; lia|].
  exists (take (Z.to_nat i) vs), v, (drop (S (Z.to_nat i)) vs). split; [by rewrite take_drop_middle|].
  unfold zlen in *. rewrite length_take. lia.
Qed.

Lemma to_nat_zlen vs : Z.to_nat (zlen vs) = length vs.
Proof. unfold zlen. by rewrite Nat2Z.id. Qed.

Lemma lookup_at vs1 v vs2 : (vs1 ++ v :: vs2) !! Z.to_nat (zlen vs1) = Some v.
Proof. rewrite to_nat_zlen. by apply list_lookup_middle. Qed.

Lemma list_get_ok s l vs i :
  is_list s l vs -> 0 <= i < zlen vs -> list_get l i s = Ok (vs !! Z.to_nat i, s).
Proof.
  intros Hl (vs1 & v & vs2 & -> & <-)%zlen_split.
  destruct (is_list_cut _ _ _ _ _ Hl) as (ls1 & a & ls2 & n & H1 & Ha & H2 & Hnd2 & Hget).
  unfold list_get. rewrite (bind_ok _ _ _ _ _ Hget), (bind_ok _ _ _ _ _ (load_ok _ _ _ Ha)). by rewrite lookup_at.
Qed.

Lemma list_get_none s l vs i : is_list s l vs -> ~ (0 <= i < zlen vs) -> list_get l i s = Ok (None, s).
Proof.
  intros (_ & Hc & _) Hi. unfold list_get. rewrite <- Hc in Hi. by rewrite (bind_ok _ _ _ _ _ (get_element_out l s i Hi)).
Qed.

Lemma list_replace_ok s l vs1 v vs2 d :
  is_list s l (vs1 ++ v :: vs2) ->
  exists s', list_replace l (zlen vs1) d s = Ok (Some v, s') /\ is_list s' l (vs1 ++ d :: vs2) /\
    others s' (vs1 ++ d :: vs2) = others s (vs1 ++ v :: vs2).
Proof.
  intros Hl. destruct (is_list_cut _ _ _ _ _ Hl) as (ls1 & a & ls2 & n & H1 & Ha & H2 & Hnd & Hget).
  destruct Hl as (Hs & Hc & _). unfold list_replace.
  rewrite (bind_ok _ _ _ _ _ Hget), (bind_ok _ _ _ _ _ (load_ok _ _ _ Ha)), (bind_ok _ _ _ _ _ (store_element_ok _ _ _ _ Ha)).
  eexists. split; [reflexivity|].
  split; [|apply others_insert; [by eexists|unfold zlen; by rewrite !length_app]].
  split; [apply store_ok_insert; [done|by eexists]|].
  split; [rewrite Hc; unfold zlen; rewrite !length_app; done|].
  pose proof Hnd as [Ha1 _]%NoDup_middle. apply not_elem_of_app in Ha1 as [Ha1 Ha2].
  exists (ls1 ++ a :: ls2). split; [|done]. cbn [nodes]. eapply lseg_app; [by apply lseg_insert|].
  split; [done|]. exists n. split; [apply lookup_insert_eq|by apply lseg_insert].
Qed.

Lemma list_remove_ok s l vs1 v vs2 :
  is_list s l (vs1 ++ v :: vs2) ->
  exists s' l', list_remove l (zlen vs1) s = Ok ((Some v, l'), s') /\ is_list s' l' (vs1 ++ vs2) /\
    others s' (vs1 ++ vs2) = others s (vs1 ++ v :: vs2).
Proof.
  intros Hl. destruct (is_list_cut _ _ _ _ _ Hl) as (ls1 & a & ls2 & n & H1 & Ha & H2 & Hnd & Hget).
  destruct Hl as (Hs & Hc & _). pose proof Hnd as [Ha1 Hnd']%NoDup_middle.
  apply not_elem_of_app in Ha1 as [Ha1 Ha2].
  assert (Hlen : elements_count l - 1 = zlen (vs1 ++ vs2)) by (rewrite Hc; autorewrite with liga; lia).
  unfold list_remove. destruct (head l) as [hd|] eqn:Hhd; [|exfalso; destruct ls1, vs1; try done; by destruct H1].
  rewrite (bind_ok _ _ _ _ _ Hget). cbn [deref]. rewrite (bind_ok _ _ s a s) by done.
  rewrite (bind_ok _ _ _ _ _ (load_ok _ _ _ Ha)). cbn [next data].
  destruct vs1 as [|v0 vs1 _] using rev_ind.
  - change (zlen [] =? 0) with true. cbv iota. rewrite (bind_ok _ _ s n s) by done.
    rewrite (bind_ok _ _ _ _ _ (free_ok _ _ _ Ha)). eexists _, _. split; [reflexivity|].
    split; [|apply others_delete; [by eexists|autorewrite with liga; lia]].
    split; [by apply store_ok_delete|]. split; [exact Hlen|]. exists ls2.
    split; [by apply lseg_delete|]. destruct ls1; [|done]. by apply NoDup_cons in Hnd as [_ ?].
  - rewrite zlen_app. change (zlen [v0]) with 1. pose proof (zlen_nonneg vs1).
    destruct (lseg_split _ _ _ _ _ _ H1) as (k1 & k2 & r & -> & G1 & (p & -> & -> & Hp)%lseg_one).
    rewrite (proj2 (Z.eqb_neq _ _)), Z.add_simpl_r by lia.
    assert (Hprev : list_get_element l (zlen vs1) s = Ok (Some p, s)).
    { apply (get_element_ok s l k1 vs1 (v0 :: v :: vs2)); [by rewrite Hc, <- app_assoc|by rewrite Hhd|done]. }
    rewrite (bind_ok _ _ s (Some hd) {| nodes := <[p := {| data := v0; next := n |}]> (nodes s); brk := brk s |}).
    2: { rewrite (bind_ok _ _ _ _ _ Hprev), (bind_ok _ _ _ _ _ (link_ok _ _ _ _ n Hp)). done. }
    apply not_elem_of_app in Ha1 as [Ha1 Hap]. rewrite list_elem_of_singleton in Hap.
    rewrite <- !app_assoc in *. cbn [app] in *. pose proof Hnd' as [Hp1 Hnd2]%NoDup_middle.
    apply not_elem_of_app in Hp1 as [Hp1 Hp2].
    rewrite (bind_ok _ _ _ _ _ (free_ok {| nodes := _; brk := _ |} a {| data := v; next := n |}
               ltac:(cbn [nodes]; by rewrite lookup_insert_ne))).
    eexists _, _. split; [reflexivity|]. split; [split; [|split; [exact Hlen|]]|].
    + refine (store_ok_delete {| nodes := <[p := _]> (nodes s); brk := brk s |} a _).
      apply store_ok_insert; [done|by eexists].
    + exists (k1 ++ p :: ls2). split; [|done]. cbn [nodes head].
      eapply lseg_app; [apply lseg_delete; [done|by apply lseg_insert]|]. split; [done|]. exists n.
      split; [rewrite lookup_delete_ne by done; apply lookup_insert_eq|].
      apply lseg_delete; [done|by apply lseg_insert].
    + rewrite (others_delete {| nodes := <[p := _]> (nodes s); brk := brk s |} a (vs1 ++ v0 :: v :: vs2)).
      * apply others_insert; [by eexists|done].
      * cbn [nodes]. rewrite lookup_insert_ne by done. by eexists.
      * autorewrite with liga. lia.
Qed.

Lemma list_add_front s l v vs d :
  is_list s l (v :: vs) -> zlen (v :: vs) < 2 ^ 31 - 1 ->
  exists s' l', list_add_in_index l 0 d s = Ok (l', s') /\ is_list s' l' (d :: v :: vs) /\
    others s' (d :: v :: vs) = others s (v :: vs).
Proof.
  intros Hl Hlen. pose proof Hl as (Hs & Hc & _). pose proof (zlen_nonneg vs). unfold list_add_in_index.
  rewrite Hc, (proj2 (Z.gtb_lt _ _)) by (rewrite zlen_cons; lia). cbn [andb Z.geb Z.eqb Z.compare].
  rewrite (bind_ok _ _ _ _ _ (list_create_element_ok s d)).
  set (s1 := {| nodes := _; brk := _ |}).
  assert (Hb : nodes s1 !! brk s = Some {| data := d; next := None |}) by apply lookup_insert_eq.
  rewrite (bind_ok _ _ _ _ _ (link_ok _ _ _ _ (head l) Hb)). eexists _, _. split; [reflexivity|].
  cbn [nodes brk s1]. rewrite insert_insert_eq.
  split; [|apply others_new; [done|rewrite !zlen_cons; lia]].
  apply push_front; [done|]. rewrite !zlen_cons in *. rewrite s32_small by lia. lia.
Qed.

Lemma list_add_middle s l vs1 u v vs2 d :
  is_list s l (vs1 ++ u :: v :: vs2) -> zlen (vs1 ++ u :: v :: vs2) < 2 ^ 31 - 1 ->
  exists s' l', list_add_in_index l (zlen vs1 + 1) d s = Ok (l', s') /\ is_list s' l' (vs1 ++ u :: d :: v :: vs2) /\
    others s' (vs1 ++ u :: d :: v :: vs2) = others s (vs1 ++ u :: v :: vs2).
Proof.
  intros Hl Hlen. destruct (is_list_cut _ _ _ _ _ Hl) as (ls1 & a & ls2 & n & H1 & Ha & H2 & Hnd & _).
  pose proof Hl as (Hs & Hc & _). pose proof (zlen_nonneg vs1). pose proof (zlen_nonneg vs2).
  unfold list_add_in_index.
  assert (Hz : zlen (vs1 ++ u :: v :: vs2) = zlen vs1 + 2 + zlen vs2) by (autorewrite with liga; lia).
  rewrite Hc, Hz, (proj2 (Z.gtb_lt _ _)), (proj2 (Z.geb_le _ _)), (proj2 (Z.eqb_neq _ _)), Z.add_simpl_r by lia.
  cbn [andb]. rewrite (bind_ok _ _ _ _ _ (list_create_element_ok s d)). set (s1 := {| nodes := _; brk := _ |}).
  assert (Hb1 : brk s ∉ ls1) by by eapply new_not_in.
  assert (a <> brk s) as Hab by (intros ->; specialize (Hs (brk s) ltac:(by eexists)); lia).
  assert (Ha1 : nodes s1 !! a = Some {| data := u; next := n |}) by by apply lookup_insert_Some; right.
  assert (H1' : lseg (nodes s1) (head l) ls1 vs1 (Some a)) by by apply lseg_insert.
  assert (Hprev : list_get_element l (zlen vs1) s1 = Ok (Some a, s1)).
  { by apply (get_element_ok s1 l ls1 vs1 (u :: v :: vs2)). }
  assert (Hnext : list_get_element l (zlen vs1 + 1) s1 = Ok (n, s1)).
  { replace (zlen vs1 + 1) with (zlen (vs1 ++ [u])) by by rewrite zlen_app.
    apply (get_element_ok s1 l (ls1 ++ [a]) (vs1 ++ [u]) (v :: vs2)); [by rewrite <- app_assoc| |done].
    eapply lseg_app; [done|]. split; [done|]. by exists n. }
  rewrite (bind_ok _ _ _ _ _ Hnext), (bind_ok _ _ _ _ _ Hprev), (bind_ok _ _ _ _ _ (link_ok _ _ _ _ (Some (brk s)) Ha1)).
  set (s2 := {| nodes := _; brk := brk s1 |}).
  assert (Hb2 : nodes s2 !! brk s = Some {| data := d; next := None |}).
  { cbn [nodes s2 s1]. rewrite lookup_insert_ne by done. apply lookup_insert_eq. }
  rewrite (bind_ok _ _ _ _ _ (link_ok _ _ _ _ n Hb2)). eexists _, _. split; [reflexivity|].
  cbn [nodes brk s2 s1]. rewrite insert_insert_ne, insert_insert_eq by done.
  split.
  - apply (insert_list s l vs1 u (v :: vs2) ls1 a ls2 n d); [done..|].
    rewrite s32_small by lia. autorewrite with liga. lia.
  - etransitivity; [refine (others_insert {| nodes := <[brk s := _]> (nodes s); brk := S (brk s) |} a _ _ _ _ eq_refl);
      cbn [nodes]; rewrite lookup_insert_ne by done; by eexists|].
    apply others_new; [done|]. autorewrite with liga. lia.
Qed.

(** ** Walks *)

Lemma lseg_size h p ls vs q : lseg h p ls vs q -> NoDup ls -> (length vs <= size h)%nat.
Proof.
  intros Hl Hnd. rewrite <- (lseg_length _ _ _ _ _ Hl). rewrite <- (size_list_to_set (C := gset nat) ls Hnd).
  rewrite <- size_dom. apply subseteq_size. intros a Ha%elem_of_list_to_set. apply elem_of_dom. by eapply lseg_dom.
Qed.

(** The first value that meets the condition, with the index. *)
Fixpoint first_index (condition : V -> bool) vs : option (nat * V) :=
  match vs with
  | [] => None
  | v :: vs =>
      if condition v then Some (0%nat, v)
      else match first_index condition vs with Some (i, w) => Some (Datatypes.S i, w) | None => None end
  end.

Lemma find_from_ok s condition fuel : forall p ls vs position,
  lseg (nodes s) p ls vs None -> (length vs <= fuel)%nat ->
  exists q, find_from fuel condition p position s =
    Ok ((q, position + match first_index condition vs with Some (i, _) => Z.of_nat i | None => zlen vs end), s) /\
  match first_index condition vs with
  | Some (_, v) => exists a n, q = Some a /\ nodes s !! a = Some {| data := v; next := n |}
  | None => q = None
  end.
Proof.
  induction fuel as [|fuel IH]; intros p [|a ls] [|v vs] position Hl Hf; try done; try (simpl in Hf; lia).
  - simpl in Hl. subst p. exists None. rewrite Z.add_0_r. done.
  - simpl in Hl. subst p. exists None. rewrite Z.add_0_r. done.
  - destruct Hl as (-> & n & Ha & Hl). cbn [find_from first_index].
    rewrite (bind_ok _ _ _ _ _ (load_ok _ _ _ Ha)). cbn [data next]. destruct (condition v) eqn:Ev.
    + exists (Some a). change (Z.of_nat 0) with 0. rewrite Z.add_0_r. eauto.
    + destruct (IH n ls vs (position + 1) Hl ltac:(simpl in Hf; lia)) as (q & Hr & Hq). exists q. rewrite Hr.
      split; [|by destruct (first_index condition vs) as [[i w]|]].
      do 3 f_equal. destruct (first_index condition vs) as [[i w]|]; [lia|rewrite zlen_cons; lia].
Qed.

Lemma first_index_split condition vs i v :
  first_index condition vs = Some (i, v) -> exists vs1 vs2, vs = vs1 ++ v :: vs2 /\ length vs1 = i.
Proof.
  revert i. induction vs as [|w vs IH]; intros i; [done|]. cbn [first_index]. destruct (condition w).
  - intros [= <- <-]. by exists [], vs.
  - destruct (first_index condition vs) as [[j u]|]; [|done]. intros [= <- <-].
    destruct (IH j eq_refl) as (vs1 & vs2 & -> & <-). by exists (w :: vs1), vs2.
Qed.

Lemma list_find_element_ok s l vs condition :
  is_list s l vs ->
  exists q, list_find_element l condition s =
    Ok ((q, match first_index condition vs with Some (i, _) => Z.of_nat i | None => zlen vs end), s) /\
  match first_index condition vs with
  | Some (_, v) => exists a n, q = Some a /\ nodes s !! a = Some {| data := v; next := n |}
  | None => q = None
  end.
Proof.
  intros (Hs & Hc & ls & Hls & Hnd). unfold list_find_element, walk_fuel.
  rewrite (bind_ok _ _ s (S (size (nodes s))) s) by done. pose proof (lseg_size _ _ _ _ _ Hls Hnd).
  exact (find_from_ok s condition (S (size (nodes s))) (head l) ls vs 0 Hls ltac:(lia)).
Qed.

Lemma list_find_ok s l vs condition :
  is_list s l vs -> list_find l condition s = Ok (snd <$> first_index condition vs, s).
Proof.
  intros Hl. destruct (list_find_element_ok s l vs condition Hl) as (q & Hr & Hq).
  unfold list_find. rewrite (bind_ok _ _ _ _ _ Hr). cbn [fst].
  destruct (first_index condition vs) as [[i v]|]; [|by rewrite Hq].
  destruct Hq as (a & n & -> & Ha). by rewrite (bind_ok _ _ _ _ _ (load_ok _ _ _ Ha)).
Qed.

Lemma list_remove_by_condition_ok s l vs condition :
  is_list s l vs ->
  match first_index condition vs with
  | Some (i, v) =>
      exists s' l', list_remove_by_condition l condition s = Ok ((Some v, l'), s') /\
        is_list s' l' (delete i vs) /\ others s' (delete i vs) = others s vs
  | None => list_remove_by_condition l condition s = Ok ((None, l), s)
  end.
Proof.
  intros Hl. destruct (list_find_element_ok s l vs condition Hl) as (q & Hr & Hq).
  unfold list_remove_by_condition. rewrite (bind_ok _ _ _ _ _ Hr). cbn [fst snd].
  destruct (first_index condition vs) as [[i v]|] eqn:Hi; [|by rewrite Hq].
  destruct Hq as (a & n & -> & Ha). destruct (first_index_split _ _ _ _ Hi) as (vs1 & vs2 & -> & <-).
  destruct (list_remove_ok s l vs1 v vs2 Hl) as (s' & l' & Hrun & Hrest). unfold zlen in Hrun. rewrite Hrun.
  exists s', l'. by rewrite delete_middle.
Qed.

Lemma iterate_visit_ok s fuel : forall p ls vs seen,
  lseg (nodes s) p ls vs None -> (length vs <= fuel)%nat ->
  iterate_from fuel visit p seen s = Ok (seen ++ vs, s).
Proof.
  induction fuel as [|fuel IH]; intros p [|a ls] [|v vs] seen Hl Hf; try done; try (simpl in Hf; lia).
  - simpl in Hl. subst p. by rewrite app_nil_r.
  - simpl in Hl. subst p. cbn [iterate_from]. by rewrite app_nil_r.
  - destruct Hl as (-> & n & Ha & Hl). cbn [iterate_from].
    rewrite (bind_ok _ _ _ _ _ (load_ok _ _ _ Ha)), (bind_ok _ _ s (seen ++ [v]) s) by done.
    rewrite (bind_ok _ _ _ _ _ (load_ok _ _ _ Ha)). cbn [next].
    rewrite (IH n ls vs) by (done || (simpl in Hf; lia)). by rewrite <- app_assoc.
Qed.

Lemma list_iterate_ok s l vs : is_list s l vs -> list_iterate l visit [] s = Ok (vs, s).
Proof.
  intros (Hs & Hc & ls & Hls & Hnd). unfold list_iterate, walk_fuel.
  rewrite (bind_ok _ _ s (S (size (nodes s))) s) by done. pose proof (lseg_size _ _ _ _ _ Hls Hnd).
  exact (iterate_visit_ok s (S (size (nodes s))) (head l) ls vs [] Hls ltac:(lia)).
Qed.

Lemma free_from_ok fuel : forall s p ls vs,
  store_ok s -> lseg (nodes s) p ls vs None -> NoDup ls -> (length vs <= fuel)%nat ->
  exists s', free_from fuel p s = Ok (tt, s') /\ store_ok s' /\ others s' [] = others s vs.
Proof.
  induction fuel as [|fuel IH]; intros s p [|a ls] [|v vs] Hs Hl Hnd Hf; try done; try (simpl in Hf; lia).
  - simpl in Hl. subst p. by exists s.
  - simpl in Hl. subst p. by exists s.
  - destruct Hl as (-> & n & Ha & Hl). apply NoDup_cons in Hnd as [Hal Hnd]. cbn [free_from].
    rewrite (bind_ok _ _ _ _ _ (load_ok _ _ _ Ha)), (bind_ok _ _ _ _ _ (free_ok _ _ _ Ha)). cbn [next].
    destruct (IH {| nodes := delete a (nodes s); brk := brk s |} n ls vs) as (s' & Hr & Hs' & Ho);
      [by apply store_ok_delete|by apply lseg_delete|done|simpl in Hf; lia|].
    exists s'. split_and!; [done|done|]. rewrite Ho. apply others_delete; [by eexists|rewrite zlen_cons; lia].
Qed.

Lemma list_clean_ok s l vs :
  is_list s l vs ->
  exists s' l', list_clean l s = Ok (l', s') /\ is_list s' l' [] /\ others s' [] = others s vs.
Proof.
  intros (Hs & Hc & ls & Hls & Hnd). unfold list_clean, walk_fuel.
  rewrite (bind_ok _ _ s (S (size (nodes s))) s) by done. pose proof (lseg_size _ _ _ _ _ Hls Hnd).
  destruct (free_from_ok (S (size (nodes s))) s (head l) ls vs Hs Hls Hnd ltac:(lia)) as (s' & Hr & Hs' & Ho).
  rewrite (bind_ok _ _ _ _ _ Hr). exists s', {| head := None; elements_count := 0 |}. split_and!; [done| |done].
  split; [done|]. split; [done|]. exists []. split; [done|constructor].
Qed.

(** ** The refinement *)

Inductive list_op :=
  | Add (d : V) | Add_in_index (i : Z) (d : V) | Replace (i : Z) (d : V) | Remove (i : Z)
  | Remove_by (condition : V -> bool) | Get (i : Z) | Find (condition : V -> bool) | Iterate | Clean | Size
  | Push (d : V) | Pop | Peek.

Inductive answer := Done | Index (i : Z) | Data (o : option V) | All (ds : list V).

Definition result {A B} (r : res (A * store V)) (f : A -> B) : res (B * store V) :=
  match r with Ok (a, s) => Ok (f a, s) | Fail e => Fail e end.

(** The operation of the code. *)
Definition run_op (op : list_op) l s : res (answer * t_list * store V) :=
  match op with
  | Add d => result (list_add l d s) (fun r => (Index (fst r), snd r))
  | Add_in_index i d => result (list_add_in_index l i d s) (fun l => (Done, l))
  | Replace i d => result (list_replace l i d s) (fun o => (Data o, l))
  | Remove i => result (list_remove l i s) (fun r => (Data (fst r), snd r))
  | Remove_by c => result (list_remove_by_condition l c s) (fun r => (Data (fst r), snd r))
  | Get i => result (list_get l i s) (fun o => (Data o, l))
  | Find c => result (list_find l c s) (fun o => (Data o, l))
  | Iterate => result (list_iterate l visit [] s) (fun ds => (All ds, l))
  | Clean => result (list_clean l s) (fun l => (Done, l))
  | Size => Ok (Index (list_size l), l, s)
  | Push d => result (queue_push l d s) (fun l => (Done, l))
  | Pop => result (queue_pop l s) (fun r => (Data (fst r), snd r))
  | Peek => result (queue_peek l s) (fun o => (Data o, l))
  end.

Definition in_range (i : Z) vs : bool := (0 <=? i) && (i <? zlen vs).

Definition remove_at (i : Z) vs : res (answer * list V) :=
  if in_range i vs then Ok (Data (vs !! Z.to_nat i), delete (Z.to_nat i) vs)
  else match vs with [] => Ok (Data None, vs) | _ => Fail NullDeref end.

(** The operation on the sequence; removing behind the end of a list that is
    not empty is a fault. *)
Definition spec_op (op : list_op) vs : res (answer * list V) :=
  match op with
  | Add d => Ok (Index (zlen vs), vs ++ [d])
  | Add_in_index i d =>
      Ok (Done, if in_range i vs then take (Z.to_nat i) vs ++ d :: drop (Z.to_nat i) vs else vs)
  | Replace i d =>
      if in_range i vs then Ok (Data (vs !! Z.to_nat i), <[Z.to_nat i := d]> vs) else Ok (Data None, vs)
  | Remove i => remove_at i vs
  | Remove_by c =>
      match first_index c vs with Some (i, v) => Ok (Data (Some v), delete i vs) | None => Ok (Data None, vs) end
  | Get i => Ok (Data (if in_range i vs then vs !! Z.to_nat i else None), vs)
  | Find c => Ok (Data (snd <$> first_index c vs), vs)
  | Iterate => Ok (All vs, vs)
  | Clean => Ok (Done, [])
  | Size => Ok (Index (zlen vs), vs)
  | Push d => Ok (Done, vs ++ [d])
  | Pop => Ok (Data (hd_error vs), tail vs)
  | Peek => Ok (Data (hd_error vs), vs)
  end.

Lemma in_range_spec i vs : in_range i vs = true <-> 0 <= i < zlen vs.
Proof. unfold in_range. rewrite andb_true_iff, Z.leb_le, Z.ltb_lt. lia. Qed.

Lemma list_in_range_false i vs : in_range i vs = false <-> ~ (0 <= i < zlen vs).
Proof. rewrite <- in_range_spec. by destruct (in_range i vs). Qed.

Lemma list_remove_run s l vs i :
  is_list s l vs ->
  match remove_at i vs with
  | Ok (a, vs') =>
      exists s' l', result (list_remove l i s) (fun r => (Data (fst r), snd r)) = Ok (a, l', s') /\
        is_list s' l' vs' /\ others s' vs' = others s vs
  | Fail e => list_remove l i s = Fail e
  end.
Proof.
  intros Hl. unfold remove_at. destruct (in_range i vs) eqn:Hi.
  - apply in_range_spec, zlen_split in Hi as (vs1 & v & vs2 & -> & <-).
    destruct (list_remove_ok s l vs1 v vs2 Hl) as (s' & l' & Hr & Hrest). rewrite Hr, lookup_at.
    rewrite to_nat_zlen, delete_middle. by exists s', l'.
  - apply list_in_range_false in Hi. pose proof Hl as (_ & Hc & ls & Hls & _). unfold list_remove. destruct vs as [|v vs].
    + exists s, l. destruct ls; [|done]. simpl in Hls. by rewrite Hls.
    + destruct ls as [|a ls]; [done|]. destruct Hls as (Hh & _). rewrite Hh.
      rewrite <- Hc in Hi. by rewrite (bind_ok _ _ _ _ _ (get_element_out l s i Hi)).
Qed.

Lemma run_op_ok op s l vs :
  is_list s l vs -> zlen vs < 2 ^ 31 - 1 ->
  match spec_op op vs with
  | Ok (a, vs') => exists s' l', run_op op l s = Ok (a, l', s') /\ is_list s' l' vs' /\ others s' vs' = others s vs
  | Fail e => run_op op l s = Fail e
  end.
Proof.
  intros Hl Hlen. destruct op as [d|i d|i d|i|c|i|c| | | |d| |]; cbn [spec_op run_op].
  - destruct (list_add_ok s l vs d Hl Hlen) as (s' & l' & -> & H). by exists s', l'.
  - destruct (in_range i vs) eqn:Hi.
    + apply in_range_spec, zlen_split in Hi as (vs1 & v & vs2 & -> & <-).
      rewrite to_nat_zlen, take_app_length, drop_app_length.
      destruct vs1 as [|u vs1 _] using rev_ind.
      * destruct (list_add_front s l v vs2 d Hl Hlen) as (s' & l' & Hr & H).
        change (zlen []) with 0. cbn [app]. rewrite Hr. by exists s', l'.
      * rewrite zlen_app. change (zlen [u]) with 1. rewrite <- !app_assoc in *. cbn [app] in *.
        destruct (list_add_middle s l vs1 u v vs2 d Hl Hlen) as (s' & l' & -> & H). by exists s', l'.
    + apply list_in_range_false in Hi. exists s, l. split; [|done]. unfold list_add_in_index. destruct Hl as (_ & Hc & _).
      case_test; [|done]. exfalso. apply andb_true_iff in E as [E1%Z.gtb_lt E2%Z.geb_le]. lia.
  - destruct (in_range i vs) eqn:Hi.
    + apply in_range_spec, zlen_split in Hi as (vs1 & v & vs2 & -> & <-).
      destruct (list_replace_ok s l vs1 v vs2 d Hl) as (s' & -> & H). rewrite lookup_at.
      rewrite to_nat_zlen, insert_app_r_alt by lia. rewrite Nat.sub_diag. by exists s', l.
    + apply list_in_range_false in Hi. exists s, l. split; [|done]. unfold list_replace. destruct Hl as (_ & Hc & _).
      rewrite <- Hc in Hi. by rewrite (bind_ok _ _ _ _ _ (get_element_out l s i Hi)).
  - pose proof (list_remove_run s l vs i Hl) as H. destruct (remove_at i vs) as [[a vs']|e]; [done|]. by rewrite H.
  - pose proof (list_remove_by_condition_ok s l vs c Hl) as H. destruct (first_index c vs) as [[i v]|].
    + destruct H as (s' & l' & -> & H). by exists s', l'.
    + rewrite H. by exists s, l.
  - exists s, l. split; [|done]. destruct (in_range i vs) eqn:Hi.
    + apply in_range_spec in Hi. by rewrite (list_get_ok s l vs i Hl Hi).
    + apply list_in_range_false in Hi. by rewrite (list_get_none s l vs i Hl Hi).
  - exists s, l. by rewrite (list_find_ok s l vs c Hl).
  - exists s, l. by rewrite (list_iterate_ok s l vs Hl).
  - destruct (list_clean_ok s l vs Hl) as (s' & l' & -> & H). by exists s', l'.
  - exists s, l. unfold list_size. destruct Hl as (Hs & Hc & H). by rewrite Hc.
  - unfold queue_push. destruct (list_add_ok s l vs d Hl Hlen) as (s' & l' & Hr & H).
    rewrite (bind_ok _ _ _ _ _ Hr). by exists s', l'.
  - pose proof (list_remove_run s l vs 0 Hl) as H. unfold queue_pop, remove_at in *.
    destruct vs as [|v vs]; [done|]. rewrite (proj2 (in_range_spec 0 (v :: vs))) in H; [done|].
    rewrite zlen_cons. pose proof (zlen_nonneg vs). lia.
  - exists s, l. split; [|done]. unfold queue_peek. destruct vs as [|v vs].
    + by rewrite (list_get_none s l [] 0 Hl) by (unfold zlen; simpl; lia).
    + rewrite (list_get_ok s l (v :: vs) 0 Hl); [done|]. rewrite zlen_cons. pose proof (zlen_nonneg vs). lia.
Qed.

Fixpoint run_ops (ops : list list_op) l s : res (list answer * t_list * store V) :=
  match ops with
  | [] => Ok ([], l, s)
  | op :: ops =>
      match run_op op l s with
      | Ok (a, l, s) => match run_ops ops l s with Ok (r, l, s) => Ok (a :: r, l, s) | Fail e => Fail e end
      | Fail e => Fail e
      end
  end.

Fixpoint spec_ops (ops : list list_op) vs : res (list answer * list V) :=
  match ops with
  | [] => Ok ([], vs)
  | op :: ops =>
      match spec_op op vs with
      | Ok (a, vs) => match spec_ops ops vs with Ok (r, vs) => Ok (a :: r, vs) | Fail e => Fail e end
      | Fail e => Fail e
      end
  end.

(** An operation makes the sequence longer by at most one. *)
Lemma spec_op_length op vs a vs' : spec_op op vs = Ok (a, vs') -> zlen vs' <= zlen vs + 1.
Proof.
  assert (Hdel : forall i, (length (delete i vs) <= length vs)%nat).
  { intros i. rewrite delete_take_drop, length_app, length_take, length_drop. lia. }
  unfold zlen. destruct op; cbn [spec_op]; unfold remove_at; repeat case_match; intros [= <- <-]; try done;
    rewrite ?length_app, ?length_insert, ?length_tail; try (cbn [length]; rewrite ?length_take, ?length_drop);
    try (match goal with |- context [delete ?i vs] => specialize (Hdel i) end); try lia.
  destruct vs; simpl; lia.
Qed.

Lemma run_ops_ok ops : forall s l vs,
  is_list s l vs -> zlen vs + zlen ops < 2 ^ 31 ->
  match spec_ops ops vs with
  | Ok (r, vs') => exists s' l', run_ops ops l s = Ok (r, l', s') /\ is_list s' l' vs' /\ others s' vs' = others s vs
  | Fail e => run_ops ops l s = Fail e
  end.
Proof.
  induction ops as [|op ops IH]; intros s l vs Hl Hlen; cbn [run_ops spec_ops]; [by exists s, l|].
  rewrite zlen_cons in Hlen. pose proof (zlen_nonneg ops).
  pose proof (run_op_ok op s l vs Hl ltac:(lia)) as H1. destruct (spec_op op vs) as [[a vs1]|e] eqn:Hspec; [|by rewrite H1].
  destruct H1 as (s1 & l1 & -> & Hl1 & Ho1). pose proof (spec_op_length _ _ _ _ Hspec).
  specialize (IH s1 l1 vs1 Hl1 ltac:(lia)). destruct (spec_ops ops vs1) as [[r vs2]|e]; [|by rewrite IH].
  destruct IH as (s2 & l2 & -> & Hl2 & Ho2). exists s2, l2. by rewrite Ho2.
Qed.

(** C24: Every sequence of operations on a new list or queue does to its nodes
    what it does to a sequence: the same answers, in the same order, and a
    fault exactly where the sequence has one (removing behind the end); at the
    end the nodes are linked in the order of the sequence, and every node that
    was allocated is in the list or was freed. *)
Theorem lists_refine (ops : list list_op) s :
  store_ok s -> zlen ops < 2 ^ 31 ->
  match spec_ops ops [] with
  | Ok (r, vs) =>
      exists s' l, run_ops ops list_create s = Ok (r, l, s') /\ is_list s' l vs /\
        Z.of_nat (size (nodes s')) = Z.of_nat (size (nodes s)) + zlen vs
  | Fail e => run_ops ops list_create s = Fail e
  end.
Proof.
  intros Hs Hlen. assert (Hl : is_list s list_create []).
  { split; [done|]. split; [done|]. exists []. split; [done|constructor]. }
  pose proof (run_ops_ok ops s list_create [] Hl ltac:(done)) as H.
  destruct (spec_ops ops []) as [[r vs]|e]; [|done]. destruct H as (s' & l & Hr & Hl' & Ho).
  exists s', l. split_and!; [done|done|]. unfold others in Ho. change (zlen []) with 0 in Ho. lia.
Qed.
End Facts.

(** ** A run *)

Definition empty_store : store Z := {| nodes := ∅; brk := 0 |}.

Definition some_ops : list (list_op (V := Z)) :=
  [Push 1; Push 2; Push 3; Add_in_index 1 9; Pop; Remove_by (fun v => v =? 2); Peek; Replace 1 7; Iterate; Size].

Lemma empty_store_ok : store_ok empty_store.
Proof. intros a [e He]. cbn [empty_store nodes] in He. rewrite lookup_empty in He. discriminate He. Qed.

Lemma lists_refine_witness :
  exists s l, run_ops some_ops list_create empty_store =
    Ok ([Done; Done; Done; Done; Data (Some 1); Data (Some 2); Data (Some 9); Data (Some 3); All [9; 7]; Index 2], l, s) /\
    size (nodes s) = 2%nat.
Proof.
  destruct (lists_refine some_ops empty_store empty_store_ok ltac:(vm_compute; reflexivity)) as (s & l & Hr & _ & Hn).
  exists s, l. split; [exact Hr|]. change (Z.of_nat (size (nodes s)) = 2) in Hn. lia.
Defined.
