(* ===== verification/Dictionary.v ===== *)
(** * Dictionary: commons/collections/dictionary.c

    The hash table of the commons library, which keeps the configuration.
    An element is compared by its hash alone, and [dictionary_put] does not
    look for an element with the same key.  The chain of a bucket is the list
    of its elements from the head on; [None] as data is the NULL pointer. *)

From S2P Require Import Prelude CString.

Definition DEFAULT_DICTIONARY_INITIAL_SIZE : Z := 20.

(** The mixing of one character, and the end of the hash. *)
Definition hash_char (hash c : Z) : Z :=
  let hash := u32 (hash + c) in
  let hash := u32 (hash + u32 (Z.shiftl hash 10)) in
  Z.lxor hash (Z.shiftr hash 6).

Definition dictionary_hash (key : list Z) : Z :=
  let hash := foldl hash_char 0 key in
  let hash := u32 (hash + u32 (Z.shiftl hash 3)) in
  let hash := Z.lxor hash (Z.shiftr hash 11) in
  u32 (hash + u32 (Z.shiftl hash 15)).

Section Dictionary.
Context {D : Type}.

Record t_hash_element := { key : list Z; hashcode : Z; data : option D }.

Record t_dictionary := {
  elements : list (list t_hash_element);
  data_destroyer : bool; (* whether there is one *)
  table_max_size : Z;
  table_current_size : Z;
  elements_amount : Z
}.

Definition with_table (els : list (list t_hash_element)) (cur : Z) (d : t_dictionary) : t_dictionary :=
  {| elements := els; data_destroyer := data_destroyer d; table_max_size := table_max_size d;
     table_current_size := cur; elements_amount := elements_amount d |}.
Definition with_max (n : Z) (d : t_dictionary) : t_dictionary :=
  {| elements := elements d; data_destroyer := data_destroyer d; table_max_size := n;
     table_current_size := table_current_size d; elements_amount := elements_amount d |}.
Definition with_amount (n : Z) (d : t_dictionary) : t_dictionary :=
  {| elements := elements d; data_destroyer := data_destroyer d; table_max_size := table_max_size d;
     table_current_size := table_current_size d; elements_amount := n |}.

(** The table that calloc gives: [n] NULL pointers. *)
Definition empty_table (n : Z) : list (list t_hash_element) := replicate (Z.to_nat n) [].

Definition dictionary_create (destroyer : bool) : t_dictionary :=
  {| elements := empty_table DEFAULT_DICTIONARY_INITIAL_SIZE; data_destroyer := destroyer;
     table_max_size := DEFAULT_DICTIONARY_INITIAL_SIZE; table_current_size := 0; elements_amount := 0 |}.

Definition dictionary_create_element (k : list Z) (key_hash : Z) (v : option D) : t_hash_element :=
  {| key := k; hashcode := key_hash; data := v |}.

(** key_hash % self->table_max_size, as an index of the table *)
Definition index_of (key_hash max_size : Z) : nat := Z.to_nat (key_hash mod u32 max_size).

(** One element of the old table: it is put at the end of its new chain. *)
Definition rehash_element (new_max_size : Z) (old_element : t_hash_element)
    (new : list (list t_hash_element) * Z) : res (list (list t_hash_element) * Z) :=
  let '(new_table, current_size) := new in
  let new_index := index_of (hashcode old_element) new_max_size in
  match new_table !! new_index with
  | None => Fail OutOfBounds
  | Some [] => Ok (<[new_index := [old_element]]> new_table, current_size + 1)
  | Some chain => Ok (<[new_index := chain ++ [old_element]]> new_table, current_size)
  end.

Fixpoint rehash_elements (new_max_size : Z) (olds : list t_hash_element)
    (new : list (list t_hash_element) * Z) : res (list (list t_hash_element) * Z) :=
  match olds with
  | [] => Ok new
  | e :: olds =>
      match rehash_element new_max_size e new with
      | Ok new => rehash_elements new_max_size olds new
      | Fail f => Fail f
      end
  end.

(** The buckets of the old table in order, each from its head on. *)
Definition dictionary_resize (self : t_dictionary) (new_max_size : Z) : res t_dictionary :=
  match rehash_elements new_max_size (concat (elements self)) (empty_table new_max_size, 0) with
  | Ok (new_table, current_size) => Ok (with_max new_max_size (with_table new_table current_size self))
  | Fail f => Fail f
  end.

Definition dictionary_put (self : t_dictionary) (k : list Z) (v : option D) : res t_dictionary :=
  let key_hash := dictionary_hash k in
  let index := index_of key_hash (table_max_size self) in
  let new_element := dictionary_create_element k key_hash v in
  match elements self !! index with
  | None => Fail OutOfBounds
  | Some [] =>
      let self := with_table (<[index := [new_element]]> (elements self)) (table_current_size self + 1) self in
      match (if table_current_size self >=? table_max_size self
             then dictionary_resize self (s32 (table_max_size self * 2)) else Ok self) with
      | Ok self => Ok (with_amount (s32 (elements_amount self + 1)) self)
      | Fail f => Fail f
      end
  | Some chain =>
      let self := with_table (<[index := chain ++ [new_element]]> (elements self)) (table_current_size self) self in
      Ok (with_amount (s32 (elements_amount self + 1)) self)
  end.

(** The first element of a chain with the hash. *)
Fixpoint find_hash (key_hash : Z) (chain : list t_hash_element) : option t_hash_element :=
  match chain with
  | [] => None
  | e :: chain => if hashcode e =? key_hash then Some e else find_hash key_hash chain
  end.

Definition dictionary_get_element (self : t_dictionary) (k : list Z) : res (option t_hash_element) :=
  let key_hash := dictionary_hash k in
  match elements self !! index_of key_hash (table_max_size self) with
  | None => Fail OutOfBounds
  | Some chain => Ok (find_hash key_hash chain)
  end.

Definition dictionary_get (self : t_dictionary) (k : list Z) : res (option D) :=
  match dictionary_get_element self k with
  | Ok (Some e) => Ok (data e)
  | Ok None => Ok None
  | Fail f => Fail f
  end.

Definition dictionary_has_key (self : t_dictionary) (k : list Z) : res bool :=
  match dictionary_get_element self k with
  | Ok (Some _) => Ok true
  | Ok None => Ok false
  | Fail f => Fail f
  end.

(** The chain without the first element with the hash, and its data. *)
Fixpoint unlink_hash (key_hash : Z) (chain : list t_hash_element)
  : option (option D * list t_hash_element) :=
  match chain with
  | [] => None
  | e :: chain =>
      if hashcode e =? key_hash then Some (data e, chain)
      else match unlink_hash key_hash chain with
           | Some (v, chain) => Some (v, e :: chain)
           | None => None
           end
  end.

Definition dictionary_remove_element (self : t_dictionary) (k : list Z) : res (option D * t_dictionary) :=
  let key_hash := dictionary_hash k in
  let index := index_of key_hash (table_max_size self) in
  match elements self !! index with
  | None => Fail OutOfBounds
  | Some chain =>
      match unlink_hash key_hash chain with
      | None => Ok (None, self)
      | Some (v, chain) =>
          Ok (v, with_table (<[index := chain]> (elements self))
                   (match chain with [] => table_current_size self - 1 | _ => table_current_size self end) self)
      end
  end.

(** The counter goes down only when the data is not NULL. *)
Definition dictionary_remove (self : t_dictionary) (k : list Z) : res (option D * t_dictionary) :=
  match dictionary_remove_element self k with
  | Ok (Some v, self) => Ok (Some v, with_amount (elements_amount self - 1) self)
  | Ok (None, self) => Ok (None, self)
  | Fail f => Fail f
  end.

(** The destroyer is called without a test; the result has what it gets. *)
Definition dictionary_remove_and_destroy (self : t_dictionary) (k : list Z) : res (list D * t_dictionary) :=
  match dictionary_remove_element self k with
  | Ok (Some v, self) =>
      if data_destroyer self then Ok ([v], with_amount (elements_amount self - 1) self) else Fail NullDeref
  | Ok (None, self) => Ok ([], self)
  | Fail f => Fail f
  end.

(** do { next = element->next; closure(...); } while (next != NULL), where
    [element] stays the head of the chain.  The result has the elements that
    the closure is called with. *)
Fixpoint iterate_bucket (fuel : nat) (element : t_hash_element) (next_element : list t_hash_element)
  : res (list t_hash_element) :=
  match fuel with
  | O => Fail OutOfFuel
  | S fuel =>
      match next_element with
      | [] => Ok [element]
      | _ :: _ =>
          match iterate_bucket fuel element next_element with
          | Ok calls => Ok (element :: calls)
          | Fail f => Fail f
          end
      end
  end.

Fixpoint iterate_buckets (fuel : nat) (buckets : list (list t_hash_element)) : res (list t_hash_element) :=
  match buckets with
  | [] => Ok []
  | [] :: buckets => iterate_buckets fuel buckets
  | (element :: next_element) :: buckets =>
      match iterate_bucket fuel element next_element with
      | Ok calls =>
          match iterate_buckets fuel buckets with
          | Ok more => Ok (calls ++ more)
          | Fail f => Fail f
          end
      | Fail f => Fail f
      end
  end.

Definition dictionary_iterator (fuel : nat) (self : t_dictionary) : res (list t_hash_element) :=
  iterate_buckets fuel (elements self).

(** The data that the destroyer gets, in order. *)
Definition dictionary_clean (self : t_dictionary) : list (option D) * t_dictionary :=
  (if data_destroyer self then data <$> concat (elements self) else [],
   with_amount 0 (with_table ((fun _ => []) <$> elements self) 0 self)).

Definition dictionary_is_empty (self : t_dictionary) : bool := elements_amount self =? 0.

Definition dictionary_size (self : t_dictionary) : Z := elements_amount self.

Definition dictionary_destroy (self : t_dictionary) : list (option D) := fst (dictionary_clean self).
End Dictionary.

Arguments t_hash_element D : clear implicits.
Arguments t_dictionary D : clear implicits.
