(* ===== verification/DictionaryFacts.v ===== *)
(** * DictionaryFacts: the hash table as a list of entries

    The dictionary behaves as the list of its entries in the order in which
    they were put, where a key stands for every key with the same hash: the
    table, its growth and the chains do not show.  [table_ok] is the invariant
    that the table and a list of elements share; [dictionary_refines] is the
    refinement for every sequence of operations. *)

From S2P Require Import Prelude CString Dictionary.

Section Table.
Context {D : Type}.
Abbreviation element := (t_hash_element D).
Implicit Types (t : list (list element)) (p c : list element) (e : element).

Definition by_hash (h : Z) (p : list element) : list element := filter (fun e => hashcode e = h) p.

(** The buckets in use. *)
Definition in_use t : Z := zlen (filter (fun c => c <> []) t).

Record table_ok (n : Z) t (cur : Z) p : Prop := {
  t_size : zlen t = n /\ 0 < n < 2 ^ 31;
  t_home : forall i c e, t !! i = Some c -> e ∈ c -> index_of (hashcode e) n = i;
  t_same : forall h c, t !! index_of h n = Some c -> by_hash h c = by_hash h p;
  t_used : cur = in_use t;
  t_count : zlen (concat t) = zlen p
}.

Lemma by_hash_app h p q : by_hash h (p ++ q) = by_hash h p ++ by_hash h q.
Proof. apply filter_app. Qed.

Lemma by_hash_cons h e p :
  by_hash h (e :: p) = if decide (hashcode e = h) then e :: by_hash h p else by_hash h p.
Proof. unfold by_hash. rewrite filter_cons. by repeat case_decide. Qed.

Lemma by_hash_none h p : (forall e, e ∈ p -> hashcode e <> h) -> by_hash h p = [].
Proof.
  induction p as [|e p IH]; intros Hp; [done|]. rewrite by_hash_cons, decide_False by (apply Hp; by left).
  apply IH. intros e' He. apply Hp. by right.
Qed.

Lemma index_of_lt h n : 0 < n < 2 ^ 31 -> (index_of h n < Z.to_nat n)%nat.
Proof. intros Hn. unfold index_of. rewrite u32_small by lia. pose proof (Z.mod_pos_bound h n). lia. Qed.

Lemma table_lookup n t cur p h : table_ok n t cur p -> exists c, t !! index_of h n = Some c.
Proof.
  intros [[Hl Hn] _ _ _ _]. apply lookup_lt_is_Some_2. pose proof (index_of_lt h n Hn). unfold zlen in Hl. lia.
Qed.

Lemma zlen_concat_insert t i c c' :
  t !! i = Some c -> zlen (concat (<[i := c']> t)) = zlen (concat t) + zlen c' - zlen c.
Proof.
  intros Hi. pose proof (f_equal (fun l => zlen (concat l)) (take_drop_middle t i c Hi)) as Ht. simpl in Ht.
  rewrite insert_take_drop by by eapply lookup_lt_Some.
  rewrite concat_app, concat_cons in *. autorewrite with liga in *. lia.
Qed.

Lemma in_use_insert t i c c' :
  t !! i = Some c ->
  in_use (<[i := c']> t) = in_use t + (if decide (c' = []) then 0 else 1) - (if decide (c = []) then 0 else 1).
Proof.
  intros Hi. unfold in_use.
  pose proof (f_equal (fun l => zlen (filter (fun c => c <> []) l)) (take_drop_middle t i c Hi)) as Ht. cbv beta in Ht.
  rewrite insert_take_drop by by eapply lookup_lt_Some.
  rewrite filter_app, filter_cons in *.
  repeat case_decide; try done; autorewrite with liga in *; try lia; exfalso; tauto.
Qed.

Lemma in_use_concat t : in_use t <= zlen (concat t).
Proof.
  unfold in_use. induction t as [|c t IH]; [done|]. rewrite filter_cons, concat_cons.
  case_decide as Hc; autorewrite with liga in *; [|pose proof (zlen_nonneg c); lia].
  destruct c as [|e c]; [done|]. rewrite zlen_cons. pose proof (zlen_nonneg c). lia.
Qed.

(** Only the bucket of a hash has elements with it. *)
Lemma by_hash_concat n t cur p h : table_ok n t cur p -> by_hash h (concat t) = by_hash h p.
Proof.
  intros Ht. destruct (table_lookup n t cur p h Ht) as [c Hc]. destruct Ht as [_ Hhome Hsame _ _].
  rewrite <- (Hsame h c Hc), <- (take_drop_middle t _ c Hc), concat_app, concat_cons, !by_hash_app.
  assert (Hother : forall k s, (forall j, (j < length s)%nat -> s !! j = t !! (k + j)%nat) ->
            (forall j, (j < length s)%nat -> (k + j)%nat <> index_of h n) -> by_hash h (concat s) = []).
  { intros k s Hs Hk. apply by_hash_none. intros e (b & [j Hj]%list_elem_of_In%list_elem_of_lookup & He%list_elem_of_In)%list_elem_of_In%in_concat Hh.
    pose proof (lookup_lt_Some _ _ _ Hj) as Hlt. apply (Hk j Hlt). rewrite <- Hh. symmetry.
    eapply Hhome; [|exact He]. by rewrite <- Hs. }
  pose proof (lookup_lt_Some _ _ _ Hc) as Hlt.
  rewrite (Hother 0%nat (take (index_of h n) t)), (Hother (S (index_of h n)) (drop (S (index_of h n)) t)).
  - by rewrite app_nil_r.
  - intros j Hj. by rewrite lookup_drop.
  - intros j Hj. lia.
  - intros j Hj. rewrite length_take in Hj. rewrite lookup_take_lt by lia. done.
  - intros j Hj. rewrite length_take in Hj. lia.
Qed.

Lemma table_ok_ext n t cur p q :
  (forall h, by_hash h p = by_hash h q) -> zlen p = zlen q -> table_ok n t cur p -> table_ok n t cur q.
Proof.
  intros Hh Hl [Hs Hhome Hsame Hu Hc]. split; [done..| |done|by rewrite Hc].
  intros h c Hlk. by rewrite (Hsame h c Hlk).
Qed.

Lemma index_of_same n t cur p i c h e :
  table_ok n t cur p -> t !! i = Some c -> e ∈ c -> hashcode e = h -> i = index_of h n.
Proof. intros [_ Hhome _ _ _] Hi He <-. symmetry. by eapply Hhome. Qed.

(** A new element at the end of its chain. *)
Lemma table_push n t cur p e c :
  table_ok n t cur p -> t !! index_of (hashcode e) n = Some c ->
  table_ok n (<[index_of (hashcode e) n := c ++ [e]]> t) (if decide (c = []) then cur + 1 else cur) (p ++ [e]).
Proof.
  intros [[Hl Hn] Hhome Hsame Hu Hc] Hi. split.
  - split; [|done]. unfold zlen in *. by rewrite length_insert.
  - intros i c' e' [(<- & <- & Hlt)|[Hne Hlk]]%list_lookup_insert_Some He; [|by eapply Hhome].
    apply elem_of_app in He as [He|He]; [by eapply Hhome|].
    by apply list_elem_of_singleton in He as ->.
  - intros h c' [(Hh & <- & Hlt)|[Hne Hlk]]%list_lookup_insert_Some; rewrite !by_hash_app.
    + f_equal. apply Hsame. by rewrite <- Hh.
    + rewrite (Hsame h c' Hlk). rewrite by_hash_cons. case_decide as Heq; [by rewrite Heq in Hne|].
      symmetry. apply app_nil_r.
  - rewrite (in_use_insert _ _ c) by done. subst cur.
    rewrite (decide_False (P := c ++ [e] = [])) by by destruct c. case_decide; lia.
  - rewrite (zlen_concat_insert _ _ c) by done. autorewrite with liga. rewrite Hc. change (zlen []) with 0. lia.
Qed.

Lemma table_empty n : 0 < n < 2 ^ 31 -> table_ok n (empty_table n) 0 [].
Proof.
  intros Hn. unfold empty_table. split.
  - split; [|done]. unfold zlen. rewrite length_replicate. lia.
  - intros i c e [-> _]%lookup_replicate He. by apply not_elem_of_nil in He.
  - by intros h c [-> _]%lookup_replicate.
  - unfold in_use. symmetry. induction (Z.to_nat n) as [|k IH]; [done|]. simpl. rewrite filter_cons.
    by rewrite decide_False by tauto.
  - unfold zlen. induction (Z.to_nat n) as [|k IH]; done.
Qed.

Lemma rehash_ok n olds : forall t cur p,
  table_ok n t cur p ->
  exists t' cur', rehash_elements n olds (t, cur) = Ok (t', cur') /\ table_ok n t' cur' (p ++ olds).
Proof.
  induction olds as [|e olds IH]; intros t cur p Ht; cbn [rehash_elements rehash_element].
  - exists t, cur. by rewrite app_nil_r.
  - destruct (table_lookup n t cur p (hashcode e) Ht) as [c Hc]. rewrite Hc.
    pose proof (table_push n t cur p e c Ht Hc) as Hp. rewrite (cons_middle e p olds), app_assoc.
    destruct c as [|e' c]; [rewrite decide_True in Hp by done|rewrite decide_False in Hp by done]; by apply IH.
Qed.

(** ** Taking an element out *)

Lemma find_hash_by_hash h c : find_hash h c = head (by_hash h c).
Proof.
  induction c as [|e c IH]; [done|]. cbn [find_hash]. rewrite by_hash_cons.
  case_decide as Hh; [by rewrite Hh, Z.eqb_refl|]. by rewrite (proj2 (Z.eqb_neq _ _)).
Qed.

Lemma unlink_none h c : unlink_hash h c = None <-> by_hash h c = [].
Proof.
  induction c as [|e c IH]; [done|]. cbn [unlink_hash]. rewrite by_hash_cons.
  case_decide as Hh; [by rewrite Hh, Z.eqb_refl|]. rewrite (proj2 (Z.eqb_neq _ _)) by done.
  rewrite <- IH. by destruct (unlink_hash h c) as [[v c']|].
Qed.

Lemma unlink_some h c v c' :
  unlink_hash h c = Some (v, c') ->
  (exists e, by_hash h c = e :: by_hash h c' /\ data e = v) /\
  (forall k, k <> h -> by_hash k c' = by_hash k c) /\ zlen c = zlen c' + 1 /\ (forall e, e ∈ c' -> e ∈ c).
Proof.
  revert c'. induction c as [|e c IH]; intros c'; [done|]. cbn [unlink_hash].
  destruct (Z.eqb_spec (hashcode e) h) as [Hh|Hh].
  - intros [= <- <-]. split_and!.
    + exists e. by rewrite by_hash_cons, decide_True.
    + intros k Hk. rewrite by_hash_cons, decide_False by congruence. done.
    + rewrite zlen_cons. lia.
    + intros e' He. by right.
  - destruct (unlink_hash h c) as [[v2 c2]|] eqn:Hu; [|done]. intros [= -> <-].
    destruct (IH _ eq_refl) as ((e1 & H1 & H2) & H3 & H4 & H5). split_and!.
    + exists e1. by rewrite !by_hash_cons, !decide_False by done.
    + intros k Hk. by rewrite !by_hash_cons, (H3 k Hk).
    + rewrite !zlen_cons. lia.
    + intros e' [->|He]%elem_of_cons; [by left|]. right. by apply H5.
Qed.

Lemma table_unlink n t cur p h c :
  table_ok n t cur p -> t !! index_of h n = Some c ->
  match unlink_hash h p with
  | None => unlink_hash h c = None
  | Some (v, p') =>
      exists c', unlink_hash h c = Some (v, c') /\
        table_ok n (<[index_of h n := c']> t) (match c' with [] => cur - 1 | _ => cur end) p'
  end.
Proof.
  intros Ht Hc. pose proof Ht as [[Hl Hn] Hhome Hsame Hu Hcount]. pose proof (Hsame h c Hc) as Hs.
  destruct (unlink_hash h p) as [[v p']|] eqn:Hp; [|by apply unlink_none; rewrite Hs; apply unlink_none].
  destruct (unlink_some _ _ _ _ Hp) as ((e & He & Hv) & Hother & Hlen & Hsub).
  destruct (unlink_hash h c) as [[v2 c']|] eqn:Hc2; [|apply unlink_none in Hc2; congruence].
  destruct (unlink_some _ _ _ _ Hc2) as ((e2 & He2 & Hv2) & Hother2 & Hlen2 & Hsub2).
  assert (e2 = e /\ by_hash h c' = by_hash h p') as [-> Hrest] by (split; congruence).
  exists c'. split; [congruence|]. split.
  - split; [|done]. unfold zlen in *. by rewrite length_insert.
  - intros i c0 e0 [(<- & <- & Hlt)|[Hne Hlk]]%list_lookup_insert_Some He0; [|by eapply Hhome].
    eapply Hhome; [exact Hc|by apply Hsub2].
  - intros k c0 [(Hk & <- & Hlt)|[Hne Hlk]]%list_lookup_insert_Some.
    + destruct (decide (k = h)) as [->|Hkh]; [done|]. rewrite Hother2, Hother by done.
      apply Hsame. by rewrite <- Hk.
    + rewrite Hother by (intros ->; done). by apply Hsame.
  - rewrite (in_use_insert _ _ c) by done. rewrite (decide_False (P := c = [])).
    + subst cur. destruct c' as [|e3 c']; [rewrite decide_True by done; lia|rewrite decide_False by done; lia].
    + intros ->. done.
  - rewrite (zlen_concat_insert _ _ c) by done. lia.
Qed.
End Table.

(** ** The dictionary and its entries *)

Section Refinement.
Context {D : Type}.
Implicit Types (d : t_dictionary D) (l : list (list Z * D)) (k : list Z).

Definition element_of (kv : list Z * D) : t_hash_element D :=
  dictionary_create_element (fst kv) (dictionary_hash (fst kv)) (Some (snd kv)).

(** [d] holds the entries [l]; [n] bounds the entries there ever were. *)
Record holds d l (n : Z) : Prop := {
  h_table : table_ok (table_max_size d) (elements d) (table_current_size d) (element_of <$> l);
  h_amount : elements_amount d = zlen l;
  h_bound : zlen l <= n /\ table_max_size d <= DEFAULT_DICTIONARY_INITIAL_SIZE + 2 * n
}.

(** What an entry is found by. *)
Definition same_hash k (kv : list Z * D) : Prop := dictionary_hash (fst kv) = dictionary_hash k.

#[export] Instance same_hash_dec k kv : Decision (same_hash k kv).
Proof. unfold same_hash. apply _. Defined.

Definition entry_of k l : option (list Z * D) := snd <$> list_find (same_hash k) l.

Fixpoint without k l : option (D * list (list Z * D)) :=
  match l with
  | [] => None
  | kv :: l =>
      if decide (same_hash k kv) then Some (snd kv, l)
      else match without k l with Some (v, l) => Some (v, kv :: l) | None => None end
  end.

Inductive dict_op := Put (k : list Z) (v : D) | Get (k : list Z) | Has (k : list Z) | Remove (k : list Z) | Size.
Inductive answer := Done | Data (o : option D) | Found (b : bool) | Number (n : Z).

(** The operation of the code. *)
Definition run_op (op : dict_op) d : res (answer * t_dictionary D) :=
  match op with
  | Put k v => match dictionary_put d k (Some v) with Ok d => Ok (Done, d) | Fail f => Fail f end
  | Get k => match dictionary_get d k with Ok o => Ok (Data o, d) | Fail f => Fail f end
  | Has k => match dictionary_has_key d k with Ok b => Ok (Found b, d) | Fail f => Fail f end
  | Remove k => match dictionary_remove d k with Ok (o, d) => Ok (Data o, d) | Fail f => Fail f end
  | Size => Ok (Number (dictionary_size d), d)
  end.

(** The operation on the entries. *)
Definition spec_op (op : dict_op) l : answer * list (list Z * D) :=
  match op with
  | Put k v => (Done, l ++ [(k, v)])
  | Get k => (Data (snd <$> entry_of k l), l)
  | Has k => (Found (bool_decide (is_Some (entry_of k l))), l)
  | Remove k => match without k l with Some (v, l) => (Data (Some v), l) | None => (Data None, l) end
  | Size => (Number (zlen l), l)
  end.

Fixpoint run_ops (ops : list dict_op) d : res (list answer * t_dictionary D) :=
  match ops with
  | [] => Ok ([], d)
  | op :: ops =>
      match run_op op d with
      | Ok (a, d) => match run_ops ops d with Ok (r, d) => Ok (a :: r, d) | Fail f => Fail f end
      | Fail f => Fail f
      end
  end.

Fixpoint spec_ops (ops : list dict_op) l : list answer * list (list Z * D) :=
  match ops with
  | [] => ([], l)
  | op :: ops => let '(a, l) := spec_op op l in let '(r, l) := spec_ops ops l in (a :: r, l)
  end.

Lemma find_hash_entries k l : find_hash (dictionary_hash k) (element_of <$> l) = element_of <$> entry_of k l.
Proof.
  unfold entry_of. induction l as [|kv l IH]; [done|].
  cbn [fmap list_fmap find_hash list_find element_of dictionary_create_element hashcode].
  unfold same_hash at 1. destruct (decide (dictionary_hash (fst kv) = dictionary_hash k)) as [E|E].
  - by rewrite E, Z.eqb_refl.
  - rewrite (proj2 (Z.eqb_neq _ _)) by done. rewrite IH. by destruct (list_find (same_hash k) l) as [[i x]|].
Qed.

Definition unlinked (r : D * list (list Z * D)) : option D * list (t_hash_element D) :=
  (Some (fst r), element_of <$> snd r).

Lemma unlink_entries k l :
  unlink_hash (dictionary_hash k) (element_of <$> l) = unlinked <$> without k l.
Proof.
  induction l as [|kv l IH]; [done|].
  cbn [fmap list_fmap unlink_hash without element_of dictionary_create_element hashcode].
  unfold same_hash at 1. destruct (decide (dictionary_hash (fst kv) = dictionary_hash k)) as [E|E].
  - by rewrite E, Z.eqb_refl.
  - rewrite (proj2 (Z.eqb_neq _ _)) by done. rewrite IH. by destruct (without k l) as [[v l']|].
Qed.

Lemma dict_get_element_ok d l n k :
  holds d l n -> dictionary_get_element d k = Ok (element_of <$> entry_of k l).
Proof.
  intros [Ht _ _]. unfold dictionary_get_element.
  destruct (table_lookup _ _ _ _ (dictionary_hash k) Ht) as [c Hc]. rewrite Hc, <- find_hash_entries.
  by rewrite !find_hash_by_hash, (t_same _ _ _ _ Ht _ _ Hc).
Qed.

Lemma put_ok d l n k v :
  holds d l n -> n < 2 ^ 29 ->
  exists d', dictionary_put d k (Some v) = Ok d' /\ holds d' (l ++ [(k, v)]) (n + 1).
Proof.
  intros [Ht Ha [Hl Hm]] Hn. unfold dictionary_put. set (e := dictionary_create_element k (dictionary_hash k) (Some v)).
  destruct (table_lookup _ _ _ _ (dictionary_hash k) Ht) as [c Hc]. rewrite Hc.
  pose proof (table_push _ _ _ _ e c Ht Hc) as Hp. change (hashcode e) with (dictionary_hash k) in Hp.
  assert (Hl' : (element_of <$> l) ++ [e] = element_of <$> l ++ [(k, v)]) by by rewrite fmap_app.
  rewrite Hl' in Hp. pose proof (zlen_nonneg l).
  assert (Hz : zlen (l ++ [(k, v)]) = zlen l + 1) by (rewrite zlen_app; done).
  destruct c as [|e0 c].
  - rewrite decide_True in Hp by done. cbn [app] in Hp. cbn [table_current_size table_max_size with_table].
    assert (Hlen : zlen (element_of <$> l ++ [(k, v)]) = zlen l + 1) by (unfold zlen in *; rewrite length_fmap; lia).
    case_test.
    + cbn [table_max_size with_table] in E. unfold dictionary_resize. cbn [elements with_table].
      assert (Hmax : table_max_size d <= zlen l + 1).
      { apply Z.geb_le in E. pose proof (t_used _ _ _ _ Hp) as Hu. pose proof (t_count _ _ _ _ Hp) as Hcnt.
        pose proof (in_use_concat (<[index_of (dictionary_hash k) (table_max_size d) := [e]]> (elements d))).
        lia. }
      pose proof (proj2 (t_size _ _ _ _ Ht)) as Hpos. rewrite s32_small by (unfold DEFAULT_DICTIONARY_INITIAL_SIZE in *; lia).
      destruct (rehash_ok (table_max_size d * 2) (concat (<[index_of (dictionary_hash k) (table_max_size d) := [e]]> (elements d)))
                  _ _ _ (table_empty (table_max_size d * 2) ltac:(lia))) as (t' & cur' & Hrun & Ht').
      rewrite Hrun. eexists. split; [done|]. split; cbn [with_amount with_max with_table elements table_max_size
        table_current_size elements_amount].
      * eapply table_ok_ext; [| |exact Ht'].
        -- intros h. exact (by_hash_concat _ _ _ _ h Hp).
        -- exact (t_count _ _ _ _ Hp).
      * rewrite Ha, s32_small by lia. by rewrite Hz.
      * rewrite Hz. unfold DEFAULT_DICTIONARY_INITIAL_SIZE. lia.
    + eexists. split; [done|]. split; cbn [with_amount with_table elements table_max_size table_current_size elements_amount];
        [exact Hp|by rewrite Ha, s32_small by lia; rewrite Hz|rewrite Hz; lia].
  - rewrite decide_False in Hp by done. eexists. split; [done|].
    split; cbn [with_amount with_table elements table_max_size table_current_size elements_amount];
      [exact Hp|by rewrite Ha, s32_small by lia; rewrite Hz|rewrite Hz; lia].
Qed.

Lemma dict_remove_ok d l n k :
  holds d l n ->
  exists d', dictionary_remove d k = Ok (fst <$> without k l, d') /\
    holds d' (match without k l with Some (_, l') => l' | None => l end) n.
Proof.
  intros [Ht Ha [Hl Hm]]. unfold dictionary_remove, dictionary_remove_element.
  destruct (table_lookup _ _ _ _ (dictionary_hash k) Ht) as [c Hc]. rewrite Hc.
  pose proof (table_unlink _ _ _ _ _ _ Ht Hc) as Hu. rewrite unlink_entries in Hu.
  destruct (without k l) as [[v l']|] eqn:Hw; simpl in Hu; [|rewrite Hu; by exists d].
  destruct Hu as (c' & -> & Ht'). eexists. split; [done|].
  assert (Hz : zlen l = zlen l' + 1).
  { pose proof (unlink_entries k l) as He. rewrite Hw in He. apply unlink_some in He as (_ & _ & He & _).
    unfold zlen in *. simpl in He. by rewrite !length_fmap in He. }
  split; cbn [with_amount with_table elements table_max_size table_current_size elements_amount];
    [exact Ht'|rewrite Ha; lia|lia].
Qed.

Lemma dict_run_op_ok op d l n :
  holds d l n -> 0 <= n < 2 ^ 29 ->
  exists d', run_op op d = Ok (fst (spec_op op l), d') /\ holds d' (snd (spec_op op l)) (n + 1).
Proof.
  intros Hd Hn. assert (Hd' : holds d l (n + 1)) by (destruct Hd as [? ? [? ?]]; split; [done..|lia]).
  destruct op as [k v|k|k|k|]; cbn [run_op spec_op].
  - destruct (put_ok d l n k v Hd ltac:(lia)) as (d' & -> & Hh). by exists d'.
  - unfold dictionary_get. rewrite (dict_get_element_ok _ _ _ k Hd). exists d.
    split; [|done]. by destruct (entry_of k l).
  - unfold dictionary_has_key. rewrite (dict_get_element_ok _ _ _ k Hd). exists d. split; [|done].
    by destruct (entry_of k l).
  - destruct (dict_remove_ok d l (n + 1) k Hd') as (d' & -> & Hh). exists d'. by destruct (without k l) as [[v l']|].
  - exists d. split; [|done]. unfold dictionary_size. by rewrite (h_amount _ _ _ Hd).
Qed.

Lemma dict_run_ops_ok ops : forall d l n,
  holds d l n -> 0 <= n -> n + zlen ops <= 2 ^ 29 ->
  exists d', run_ops ops d = Ok (fst (spec_ops ops l), d') /\ holds d' (snd (spec_ops ops l)) (n + zlen ops).
Proof.
  induction ops as [|op ops IH]; intros d l n Hd Hn Hlen.
  - exists d. change (zlen []) with 0. by rewrite Z.add_0_r.
  - rewrite zlen_cons in *. pose proof (zlen_nonneg ops). cbn [run_ops spec_ops].
    destruct (dict_run_op_ok op d l n Hd ltac:(lia)) as (d1 & -> & Hd1). destruct (spec_op op l) as [a l1].
    destruct (IH d1 l1 (n + 1) Hd1 ltac:(lia) ltac:(lia)) as (d2 & Hr & Hd2). cbn [fst] in Hr. rewrite Hr.
    destruct (spec_ops ops l1) as [r l2]. exists d2. split; [done|].
    by replace (n + (1 + zlen ops)) with (n + 1 + zlen ops) by lia.
Qed.

Lemma create_holds destroyer : holds (dictionary_create destroyer) [] 0.
Proof.
  split; [|done|unfold zlen; simpl; lia].
  exact (table_empty DEFAULT_DICTIONARY_INITIAL_SIZE ltac:(unfold DEFAULT_DICTIONARY_INITIAL_SIZE; lia)).
Qed.

(** C25: Every sequence of fewer than 2^29 operations on a new dictionary
    (put, get, has_key, remove, size, with values that are not NULL) runs
    without fault, through every growth of the table, and answers what the
    list of the entries answers: get and remove take the oldest entry whose
    key has the same hash, and put does not replace. *)
Theorem dictionary_refines (destroyer : bool) (ops : list dict_op) :
  zlen ops <= 2 ^ 29 ->
  exists d, run_ops ops (dictionary_create destroyer) = Ok (fst (spec_ops ops []), d) /\
    holds d (snd (spec_ops ops [])) (zlen ops).
Proof.
  intros Hops. exact (dict_run_ops_ok ops _ _ 0 (create_holds destroyer) ltac:(lia) ltac:(lia)).
Qed.
(** ** Two keys with the same hash *)

Lemma iterate_bucket_hangs fuel (e e' : t_hash_element D) c : iterate_bucket fuel e (e' :: c) = Fail OutOfFuel.
Proof. induction fuel as [|fuel IH]; [done|]. cbn [iterate_bucket]. by rewrite IH. Qed.

Lemma iterate_bucket_fails fuel (e : t_hash_element D) c f : iterate_bucket fuel e c = Fail f -> f = OutOfFuel.
Proof.
  destruct c as [|e' c]; [|by rewrite iterate_bucket_hangs; intros [= <-]].
  destruct fuel; cbn [iterate_bucket]; [by intros [= <-]|done].
Qed.

(** A chain of two elements is enough for the iterator not to end. *)
Lemma iterator_hangs d i e e' c :
  elements d !! i = Some (e :: e' :: c) -> forall fuel, dictionary_iterator fuel d = Fail OutOfFuel.
Proof.
  unfold dictionary_iterator. generalize (elements d) as t. clear d. intros t. revert i.
  induction t as [|b t IH]; intros i Hi fuel; [done|]. destruct i as [|i].
  - injection Hi as ->. cbn [iterate_buckets]. by rewrite iterate_bucket_hangs.
  - cbn [iterate_buckets]. specialize (IH i Hi fuel). destruct b as [|x b]; [exact IH|].
    destruct (iterate_bucket fuel x b) as [calls|f] eqn:E; [by rewrite IH|]. by rewrite (iterate_bucket_fails _ _ _ _ E).
Qed.

Lemma entry_of_app k l l' : entry_of k l = None -> entry_of k (l ++ l') = entry_of k l'.
Proof.
  unfold entry_of. intros Hl%fmap_None. rewrite list_find_app_r by done. by destruct (list_find (same_hash k) l') as [[]|].
Qed.

Lemma without_app k l kv l' : entry_of k l = None -> same_hash k kv -> without k (l ++ kv :: l') = Some (snd kv, l ++ l').
Proof.
  unfold entry_of. intros Hl%fmap_None%list_find_None Hk. induction Hl as [|kv0 l Hn _ IH]; cbn [app without].
  - by rewrite decide_True.
  - rewrite decide_False by done. by rewrite IH.
Qed.

(** Two entries with one hash are in one chain. *)
Lemma same_hash_chained d l n k1 k2 v1 v2 :
  holds d (l ++ [(k1, v1); (k2, v2)]) n -> dictionary_hash k1 = dictionary_hash k2 ->
  exists i e e' c, elements d !! i = Some (e :: e' :: c).
Proof.
  intros [Ht _ _] Hk. destruct (table_lookup _ _ _ _ (dictionary_hash k1) Ht) as [c Hc].
  pose proof (t_same _ _ _ _ Ht _ _ Hc) as Hs. rewrite fmap_app, by_hash_app in Hs. cbn [fmap list_fmap] in Hs.
  rewrite !by_hash_cons in Hs. cbn [element_of dictionary_create_element hashcode fst] in Hs.
  rewrite !decide_True in Hs by done. apply (f_equal length) in Hs. rewrite length_app in Hs. cbn [length] in Hs.
  pose proof (length_filter (fun e => hashcode e = dictionary_hash k1) c) as Hf. fold (by_hash (dictionary_hash k1) c) in Hf.
  destruct c as [|e [|e' c]]; cbn [length] in Hf; [lia..|]. by eexists _, e, e', c.
Qed.

(** C39: Two keys with the same hash are one key to the dictionary: in any dictionary without an entry of that
    hash, after the first and the second are put, the second is found with the value of the first, and
    removing the second removes the first, which is then found with the value of the second.  Meanwhile the
    two are in one chain, and [dictionary_iterator] never ends, as it does not go on to the next element. *)
Theorem dictionary_confuses_keys d l n k1 k2 v1 v2 :
  holds d l n -> n + 1 < 2 ^ 29 -> dictionary_hash k1 = dictionary_hash k2 -> entry_of k1 l = None ->
  exists d1 d2 d3, dictionary_put d k1 (Some v1) = Ok d1 /\ dictionary_put d1 k2 (Some v2) = Ok d2 /\
    dictionary_get d2 k2 = Ok (Some v1) /\
    dictionary_remove d2 k2 = Ok (Some v1, d3) /\ dictionary_get d3 k1 = Ok (Some v2) /\
    forall fuel, dictionary_iterator fuel d2 = Fail OutOfFuel.
Proof.
  intros Hd Hn Hk Hl. assert (entry_of k2 l = None) as Hl2.
  { revert Hl. unfold entry_of. rewrite !fmap_None, !list_find_None. unfold same_hash. by rewrite Hk. }
  destruct (put_ok d l n k1 v1 Hd ltac:(lia)) as (d1 & H1 & Hd1).
  destruct (put_ok d1 _ _ k2 v2 Hd1 Hn) as (d2 & H2 & Hd2). rewrite <- app_assoc in Hd2. cbn [app] in Hd2.
  destruct (dict_remove_ok d2 _ _ k2 Hd2) as (d3 & H3 & Hd3).
  assert (same_hash k2 (k1, v1)) as Hs by exact Hk. assert (same_hash k1 (k2, v2)) as Hs' by (symmetry; exact Hk).
  rewrite (without_app k2 l (k1, v1) [(k2, v2)] Hl2 Hs) in H3, Hd3. cbn [fmap option_fmap option_map fst snd] in H3, Hd3.
  exists d1, d2, d3. split_and!; [done|done| |done| |].
  - unfold dictionary_get. rewrite (dict_get_element_ok _ _ _ k2 Hd2), entry_of_app by done.
    unfold entry_of. cbn [list_find]. by rewrite decide_True.
  - unfold dictionary_get. rewrite (dict_get_element_ok _ _ _ k1 Hd3), entry_of_app by done.
    unfold entry_of. cbn [list_find]. by rewrite decide_True.
  - destruct (same_hash_chained d2 l _ k1 k2 v1 v2 Hd2 Hk) as (i & e & e' & c & Hi). by eapply iterator_hangs.
Qed.
End Refinement.

(** ** Runs *)

Definition three_ops : list (dict_op (D := Z)) :=
  [Put (str "WORKERS") 5; Put (str "PORT") 1234; Get (str "WORKERS"); Remove (str "PORT"); Size; Has (str "PORT")].

Lemma dictionary_refines_witness :
  exists d, run_ops three_ops (dictionary_create true) =
    Ok ([Done; Done; Data (Some 5); Data (Some 1234); Number 1; Found false], d).
Proof.
  destruct (dictionary_refines true three_ops ltac:(vm_compute; discriminate)) as (d & Hrun & _).
  exists d. rewrite Hrun. f_equal.
Defined.

(** "aqaa" and "elue" have the same hash. *)
Lemma dictionary_confuses_keys_witness :
  str "aqaa" <> str "elue" /\ exists d1 d2 d3,
    dictionary_put (dictionary_create true) (str "aqaa") (Some 1) = Ok d1 /\ dictionary_put d1 (str "elue") (Some 2) = Ok d2 /\
    dictionary_get d2 (str "elue") = Ok (Some 1) /\
    dictionary_remove d2 (str "elue") = Ok (Some 1, d3) /\ dictionary_get d3 (str "aqaa") = Ok (Some 2) /\
    forall fuel, dictionary_iterator fuel d2 = Fail OutOfFuel.
Proof.
  split; [discriminate|].
  apply (dictionary_confuses_keys (dictionary_create true) [] 0 (str "aqaa") (str "elue") 1 2 (create_holds true));
    vm_compute; reflexivity.
Defined.
