(* ===== verification/Config.v ===== *)
(** * Config: commons/config.c and the settings of both programs

    Reading a configuration file into a dictionary, the getters, and the
    settings that [main] of the server and [load_config] of the client read.
    The theorem reads a text of settings and comments back. *)

From S2P Require Import Prelude CString Dictionary DictionaryFacts.

Definition newline : Z := 10.
Definition equals_sign : Z := 61.

(** ** atoi *)

Definition isspace (c : Z) : bool := (c =? 32) || ((9 <=? c) && (c <=? 13)).

Fixpoint decimal (acc : Z) (s : list Z) : Z :=
  match s with
  | c :: s => if (48 <=? c) && (c <=? 57) then decimal (acc * 10 + (c - 48)) s else acc
  | [] => acc
  end.

(** A value that does not fit is undefined; here it wraps around. *)
Definition atoi (s : list Z) : Z :=
  match snd (span isspace s) with
  | 45 :: s => s32 (- decimal 0 s)
  | 43 :: s => s32 (decimal 0 s)
  | s => s32 (decimal 0 s)
  end.

(** ** config.c *)

Record t_config := { c_path : list Z; properties : t_dictionary (list Z) }.

(** The strings of [keyAndValue] that string_split leaves NULL are [None]. *)
Definition add_cofiguration (line : list Z) (properties : res (t_dictionary (list Z)))
  : res (t_dictionary (list Z)) :=
  match properties with
  | Fail f => Fail f
  | Ok properties =>
      if negb (string_starts_with line [hash_sign]) then
        match string_split line [equals_sign] with
        | [] => Fail NullDeref
        | key :: keyAndValue => dictionary_put properties key (head keyAndValue)
        end
      else Ok properties
  end.

(** [content] are the bytes of the file, if it can be opened; the buffer is a
    string, which ends at the first NUL. *)
Definition config_create (path : list Z) (content : option (list Z)) : res t_config :=
  let properties := dictionary_create true in
  match content with
  | None => Ok {| c_path := path; properties := properties |}
  | Some content =>
      let buffer := fst (span (fun c => negb (c =? 0)) content) in
      let lines := string_split buffer [newline] in
      match string_iterate_lines lines add_cofiguration (Ok properties) with
      | Ok properties => Ok {| c_path := path; properties := properties |}
      | Fail f => Fail f
      end
  end.

Definition config_has_property (self : t_config) (key : list Z) : res bool :=
  dictionary_has_key (properties self) key.

Definition config_get_string_value (self : t_config) (key : list Z) : res (option (list Z)) :=
  dictionary_get (properties self) key.

(** A property that is not there is a NULL string. *)
Definition config_get_int_value (self : t_config) (key : list Z) : res Z :=
  match config_get_string_value self key with
  | Ok (Some value) => Ok (atoi value)
  | Ok None => Fail NullDeref
  | Fail f => Fail f
  end.

Definition config_keys_amount (self : t_config) : Z := dictionary_size (properties self).

(** The data that is freed. *)
Definition config_destroy (self : t_config) : list (option (list Z)) := dictionary_destroy (properties self).

(** strdup(config_get_string_value(config, key)) *)
Definition string_setting (self : t_config) (key : list Z) : res (list Z) :=
  match config_get_string_value self key with
  | Ok (Some value) => Ok value
  | Ok None => Fail NullDeref
  | Fail f => Fail f
  end.

(** The settings of the server. *)
Record server_settings := {
  fs_path : list Z; server_ip : list Z; server_port : Z; cache_ip : list Z; cache_port : Z;
  Nthreads : Z; sleep_value : Z
}.

Definition main_settings (config : t_config) : res server_settings :=
  res_bind (string_setting config (str "FS_PATH")) (fun fs_path =>
  res_bind (string_setting config (str "SERVER_IP")) (fun server_ip =>
  res_bind (config_get_int_value config (str "SERVER_PORT")) (fun server_port =>
  res_bind (string_setting config (str "CACHE_IP")) (fun cache_ip =>
  res_bind (config_get_int_value config (str "CACHE_PORT")) (fun cache_port =>
  res_bind (config_get_int_value config (str "WORKERS")) (fun Nthreads =>
  res_bind (config_get_int_value config (str "SLEEP_VALUE")) (fun sleep_value =>
  Ok {| fs_path := fs_path; server_ip := server_ip; server_port := server_port; cache_ip := cache_ip;
        cache_port := cache_port; Nthreads := Nthreads; sleep_value := sleep_value |}))))))).

(** The settings of the client; the ports are 16 bits wide. *)
Record client_settings := {
  SERVER_IP : list Z; MEMCACHED_IP : list Z; SERVER_PUERTO : Z; MEMCACHED_PUERTO : Z; LOG_PATH : list Z
}.

Definition load_config (config : t_config) : res client_settings :=
  res_bind (string_setting config (str "server_ip")) (fun server_ip =>
  res_bind (string_setting config (str "memcached_ip")) (fun memcached_ip =>
  res_bind (config_get_int_value config (str "server_port")) (fun server_port =>
  res_bind (config_get_int_value config (str "memcached_port")) (fun memcached_port =>
  res_bind (string_setting config (str "logger_path")) (fun logger_path =>
  Ok {| SERVER_IP := server_ip; MEMCACHED_IP := memcached_ip; SERVER_PUERTO := u16 server_port;
        MEMCACHED_PUERTO := u16 memcached_port; LOG_PATH := logger_path |}))))).

(** ** The text of a configuration *)

Inductive config_line := Comment (c : list Z) | Setting (k v : list Z).

Definition render (ln : config_line) : list Z :=
  match ln with Comment c => hash_sign :: c | Setting k v => k ++ equals_sign :: v end.

(** The lines, each with its newline. *)
Definition config_text (lines : list config_line) : list Z := concat ((fun ln => render ln ++ [newline]) <$> lines).

Definition line_ok (ln : config_line) : Prop :=
  (newline ∉ render ln) /\ (0 ∉ render ln) /\
  match ln with
  | Comment _ => True
  | Setting k v => token_ok equals_sign k /\ token_ok equals_sign v /\ head k <> Some hash_sign
  end.

Definition settings (lines : list config_line) : list (list Z * list Z) :=
  lines ≫= fun ln => match ln with Comment _ => [] | Setting k v => [(k, v)] end.

Lemma settings_cons ln lines : settings (ln :: lines) = settings [ln] ++ settings lines.
Proof. unfold settings. cbn [mbind list_bind]. by rewrite app_nil_r. Qed.

Lemma render_token ln : line_ok ln -> token_ok newline (render ln).
Proof.
  intros (Hn & _ & Hl). split; [|done]. destruct ln as [c|k v]; [done|]. simpl. by destruct k.
Qed.

Lemma holds_more {D} (d : t_dictionary D) l n m : holds d l n -> n <= m -> holds d l m.
Proof. intros [Ht Ha [Hl Hm]] Hnm. split; [done|done|lia]. Qed.

Lemma add_line ln d l n :
  line_ok ln -> holds d l n -> n < 2 ^ 29 ->
  exists d', add_cofiguration (render ln) (Ok d) = Ok d' /\ holds d' (l ++ settings [ln]) (n + 1).
Proof.
  intros (_ & _ & Hl) Hd Hn. unfold add_cofiguration, settings. destruct ln as [c|k v]; simpl.
  - exists d. rewrite app_nil_r. split; [|eapply holds_more; [done|lia]].
    unfold string_starts_with. simpl. by destruct c.
  - destruct Hl as (Hk & Hv & Hh).
    assert (string_starts_with (k ++ equals_sign :: v) [hash_sign] = false) as ->.
    { destruct k as [|c k]; [by destruct Hk|]. unfold string_starts_with. simpl. simpl in Hh.
      rewrite (proj2 (Z.eqb_neq _ _)); [done|]. congruence. }
    change (k ++ equals_sign :: v) with (join equals_sign [k; v]).
    rewrite (string_split_join_eq equals_sign [k; v]) by (repeat constructor; apply Hk || apply Hv || done).
    exact (put_ok d l n k v Hd Hn).
Qed.

Lemma add_lines lines : forall d l n,
  Forall line_ok lines -> holds d l n -> n + zlen lines <= 2 ^ 29 ->
  exists d', string_iterate_lines (render <$> lines) add_cofiguration (Ok d) = Ok d' /\
    holds d' (l ++ settings lines) (n + zlen lines).
Proof.
  induction lines as [|ln lines IH]; intros d l n Hok Hd Hn.
  - exists d. change (zlen []) with 0. rewrite Z.add_0_r. change (settings []) with (@nil (list Z * list Z)).
    by rewrite app_nil_r.
  - rewrite zlen_cons in *. pose proof (zlen_nonneg lines). inversion Hok as [|? ? Hln Hlns]; subst.
    destruct (add_line ln d l n Hln Hd ltac:(lia)) as (d1 & Hr1 & Hd1).
    destruct (IH d1 _ (n + 1) Hlns Hd1 ltac:(lia)) as (d2 & Hr2 & Hd2). exists d2.
    unfold string_iterate_lines in *. cbn [fmap list_fmap fold_left]. rewrite Hr1. split; [done|].
    rewrite <- app_assoc, <- settings_cons in Hd2. replace (n + (1 + zlen lines)) with (n + 1 + zlen lines) by lia. exact Hd2.
Qed.

Lemma config_text_join lines : lines <> [] -> config_text lines = join newline (render <$> lines) ++ [newline].
Proof.
  intros Hne. unfold config_text. induction lines as [|ln lines IH]; [done|]. cbn [fmap list_fmap concat].
  destruct lines as [|ln2 lines]; [by rewrite app_nil_r|]. rewrite IH by done.
  cbn [fmap list_fmap join]. by rewrite <- !app_assoc.
Qed.

Lemma config_text_split lines : Forall line_ok lines -> string_split (config_text lines) [newline] = render <$> lines.
Proof.
  intros Hok. destruct (decide (lines = [])) as [->|Hne]; [done|]. rewrite config_text_join by done.
  assert (Forall (token_ok newline) (render <$> lines)) as Ht.
  { apply Forall_fmap. eapply Forall_impl; [exact Hok|]. exact render_token. }
  unfold string_split. apply string_split_loop_trail; [done|].
  pose proof (length_join _ _ Ht). rewrite length_app. simpl. lia.
Qed.

Lemma config_text_string lines :
  Forall line_ok lines -> span (fun c => negb (c =? 0)) (config_text lines) = (config_text lines, []).
Proof.
  intros Hok. rewrite <- (app_nil_r (config_text lines)) at 1. apply span_exact; [|done].
  unfold config_text. apply Forall_concat, Forall_fmap. eapply Forall_impl; [exact Hok|].
  intros ln (_ & H0 & _). simpl. apply Forall_app. split; [|by repeat constructor].
  apply Forall_forall. intros c Hc. apply negb_true_iff, Z.eqb_neq. by intros ->.
Qed.

Lemma entry_of_member {D} (l : list (list Z * D)) k v :
  NoDup ((fun kv => dictionary_hash (fst kv)) <$> l) -> (k, v) ∈ l -> snd <$> entry_of k l = Some v.
Proof.
  unfold entry_of. induction l as [|[k1 v1] l IH]; intros Hnd Hin; [by apply not_elem_of_nil in Hin|].
  cbn [fmap list_fmap] in Hnd. apply NoDup_cons in Hnd as [Hk1 Hnd]. cbn [list_find].
  apply elem_of_cons in Hin as [[= <- <-]|Hin]; [by rewrite decide_True|].
  destruct (decide (same_hash k (k1, v1))) as [Hs|Hs].
  - exfalso. apply Hk1. unfold same_hash in Hs. simpl in *. rewrite Hs.
    apply list_elem_of_fmap. by exists (k, v).
  - rewrite <- (IH Hnd Hin). by destruct (list_find (same_hash k) l) as [[i x]|].
Qed.

(** C35: A configuration file reads back: from a text of comments and of
    settings (no '=', newline or NUL in a key or a value, neither empty)
    whose keys have different hashes, [config_create] makes a configuration
    that has each setting with its value, nothing for a key of another hash,
    and as many keys as settings. *)
Theorem config_roundtrip (path : list Z) (lines : list config_line) :
  Forall line_ok lines -> zlen lines <= 2 ^ 29 ->
  NoDup ((fun kv => dictionary_hash (fst kv)) <$> settings lines) ->
  exists config, config_create path (Some (config_text lines)) = Ok config /\
    (forall k v, (k, v) ∈ settings lines -> config_get_string_value config k = Ok (Some v)) /\
    (forall k, dictionary_hash k ∉ (fun kv => dictionary_hash (fst kv)) <$> settings lines ->
       config_get_string_value config k = Ok None) /\
    config_keys_amount config = zlen (settings lines).
Proof.
  intros Hok Hlen Hnd. unfold config_create. rewrite config_text_string by done. cbn [fst].
  rewrite config_text_split by done.
  destruct (add_lines lines _ _ 0 Hok (create_holds true) ltac:(lia)) as (d & Hrun & Hd). rewrite Hrun.
  eexists. split; [done|]. unfold config_get_string_value, dictionary_get, config_keys_amount. cbn [properties].
  split_and!.
  - intros k v Hin. rewrite (dict_get_element_ok d (settings lines) _ k Hd).
    pose proof (entry_of_member _ k v Hnd Hin) as He. destruct (entry_of k (settings lines)) as [[k1 v1]|]; [|done].
    by simpl in *; injection He as ->.
  - intros k Hk. rewrite (dict_get_element_ok d (settings lines) _ k Hd). unfold entry_of.
    destruct (list_find (same_hash k) (settings lines)) as [[i x]|] eqn:Hf; [|done].
    apply list_find_Some in Hf as (Hi & Hs & _). exfalso. apply Hk. unfold same_hash in Hs. rewrite <- Hs.
    apply list_elem_of_fmap. exists x. split; [done|]. by eapply list_elem_of_lookup_2.
  - exact (h_amount _ _ _ Hd).
Qed.

(** ** The file rfs/makefiles/config.ini *)

Definition server_config : list config_line := [
  Comment (str "valor de sleep en ms"); Setting (str "SLEEP_VALUE") (str "1");
  Comment (str "IP del server"); Setting (str "SERVER_IP") (str "127.0.0.1");
  Comment (str "Puerto del server"); Setting (str "SERVER_PORT") (str "1234");
  Comment (str "IP de la cache"); Setting (str "CACHE_IP") (str "127.0.0.1");
  Comment (str "Puerto de la cache"); Setting (str "CACHE_PORT") (str "11212");
  Comment (str "Cantidad de worker threads"); Setting (str "WORKERS") (str "5");
  Comment (str "Path del ext2.disk"); Setting (str "FS_PATH") (str "/home/utnso/Desarrollo/server_fs/ext2.disk")].

#[export] Instance line_ok_dec ln : Decision (line_ok ln).
Proof. destruct ln; unfold line_ok, token_ok; apply _. Defined.

Lemma config_roundtrip_witness :
  exists config, config_create (str "./config.ini") (Some (config_text server_config)) = Ok config /\
    config_get_string_value config (str "WORKERS") = Ok (Some (str "5")) /\
    config_get_string_value config (str "SWAP") = Ok None /\ config_keys_amount config = 7.
Proof.
  destruct (config_roundtrip (str "./config.ini") server_config) as (config & Hc & Hin & Hout & Hn).
  - refine (bool_decide_unpack _ _). vm_compute. exact I.
  - vm_compute. discriminate.
  - refine (bool_decide_unpack _ _). vm_compute. exact I.
  - exists config. split_and!; [exact Hc|apply Hin|apply Hout|exact Hn];
      refine (bool_decide_unpack _ _); vm_compute; exact I.
Defined.

Example main_settings_of_file :
  res_bind (config_create (str "./config.ini") (Some (config_text server_config))) main_settings =
  Ok {| fs_path := str "/home/utnso/Desarrollo/server_fs/ext2.disk"; server_ip := str "127.0.0.1";
        server_port := 1234; cache_ip := str "127.0.0.1"; cache_port := 11212; Nthreads := 5; sleep_value := 1 |}.
Proof. vm_compute. reflexivity. Qed.
