(* ===== verification/Diccionario.v ===== *)
(** * Diccionario: the storage of the cache engine

    Models [rc/source/diccionario.c] and its header: the elements of the
    cache are structures in a table of nodes, linked in a list that covers
    the memory of the cache in order of the addresses; the nodes that are not
    used are linked in a second list.  A pointer to an element is an index of
    the heap: 0 is [elements[0]], [i + 1] is [nodes[i]]. *)

From S2P Require Import Prelude Memory.

Definition KEY_SIZE_MAX : Z := 45.

(** struct dict_element; [key] is [None] when it was not malloc'ed, and
    [data] is an offset into the memory of the cache. *)
Record t_dict_element := {
  prev : option nat;
  key : option (list Z);
  nkey : Z;
  data : option Z;
  hour : Z;
  chunk_size : Z;
  data_size : Z;
  ocupado : bool;
  flags : Z;
  next : option nat
}.

(** struct dictionary *)
Record t_diccionario := {
  nodes : option nat;
  elements : option nat;
  table_max_size : Z;
  table_current_size : Z;
  slab_min_size : Z;
  lru : bool;
  bestfit : bool;
  compactarMemoria : Z;
  frecuenciaCompactacion : Z
}.

(** The heap, the dictionary, the memory of the items and the clock. *)
Record rc := {
  heap : gmap nat t_dict_element;
  dic : t_diccionario;
  memoria : mem;
  clock : Z
}.

Abbreviation MR := (M rc).

(** ** Field updates *)

Definition set_prev (p : option nat) (e : t_dict_element) : t_dict_element :=
  {| prev := p; key := key e; nkey := nkey e; data := data e; hour := hour e;
     chunk_size := chunk_size e; data_size := data_size e; ocupado := ocupado e;
     flags := flags e; next := next e |}.
Definition set_next (p : option nat) (e : t_dict_element) : t_dict_element :=
  {| prev := prev e; key := key e; nkey := nkey e; data := data e; hour := hour e;
     chunk_size := chunk_size e; data_size := data_size e; ocupado := ocupado e;
     flags := flags e; next := p |}.
Definition set_key (k : option (list Z)) (e : t_dict_element) : t_dict_element :=
  {| prev := prev e; key := k; nkey := nkey e; data := data e; hour := hour e;
     chunk_size := chunk_size e; data_size := data_size e; ocupado := ocupado e;
     flags := flags e; next := next e |}.
Definition set_nkey (n : Z) (e : t_dict_element) : t_dict_element :=
  {| prev := prev e; key := key e; nkey := n; data := data e; hour := hour e;
     chunk_size := chunk_size e; data_size := data_size e; ocupado := ocupado e;
     flags := flags e; next := next e |}.
Definition set_data (d : option Z) (e : t_dict_element) : t_dict_element :=
  {| prev := prev e; key := key e; nkey := nkey e; data := d; hour := hour e;
     chunk_size := chunk_size e; data_size := data_size e; ocupado := ocupado e;
     flags := flags e; next := next e |}.
Definition set_hour (h : Z) (e : t_dict_element) : t_dict_element :=
  {| prev := prev e; key := key e; nkey := nkey e; data := data e; hour := h;
     chunk_size := chunk_size e; data_size := data_size e; ocupado := ocupado e;
     flags := flags e; next := next e |}.
Definition set_chunk_size (n : Z) (e : t_dict_element) : t_dict_element :=
  {| prev := prev e; key := key e; nkey := nkey e; data := data e; hour := hour e;
     chunk_size := n; data_size := data_size e; ocupado := ocupado e;
     flags := flags e; next := next e |}.
Definition set_data_size (n : Z) (e : t_dict_element) : t_dict_element :=
  {| prev := prev e; key := key e; nkey := nkey e; data := data e; hour := hour e;
     chunk_size := chunk_size e; data_size := n; ocupado := ocupado e;
     flags := flags e; next := next e |}.
Definition set_ocupado (b : bool) (e : t_dict_element) : t_dict_element :=
  {| prev := prev e; key := key e; nkey := nkey e; data := data e; hour := hour e;
     chunk_size := chunk_size e; data_size := data_size e; ocupado := b;
     flags := flags e; next := next e |}.
Definition set_flags (n : Z) (e : t_dict_element) : t_dict_element :=
  {| prev := prev e; key := key e; nkey := nkey e; data := data e; hour := hour e;
     chunk_size := chunk_size e; data_size := data_size e; ocupado := ocupado e;
     flags := n; next := next e |}.

Definition set_nodes (p : option nat) (d : t_diccionario) : t_diccionario :=
  {| nodes := p; elements := elements d; table_max_size := table_max_size d;
     table_current_size := table_current_size d; slab_min_size := slab_min_size d;
     lru := lru d; bestfit := bestfit d; compactarMemoria := compactarMemoria d;
     frecuenciaCompactacion := frecuenciaCompactacion d |}.
Definition set_elements (p : option nat) (d : t_diccionario) : t_diccionario :=
  {| nodes := nodes d; elements := p; table_max_size := table_max_size d;
     table_current_size := table_current_size d; slab_min_size := slab_min_size d;
     lru := lru d; bestfit := bestfit d; compactarMemoria := compactarMemoria d;
     frecuenciaCompactacion := frecuenciaCompactacion d |}.
Definition set_table_current_size (n : Z) (d : t_diccionario) : t_diccionario :=
  {| nodes := nodes d; elements := elements d; table_max_size := table_max_size d;
     table_current_size := n; slab_min_size := slab_min_size d;
     lru := lru d; bestfit := bestfit d; compactarMemoria := compactarMemoria d;
     frecuenciaCompactacion := frecuenciaCompactacion d |}.
Definition set_compactarMemoria (n : Z) (d : t_diccionario) : t_diccionario :=
  {| nodes := nodes d; elements := elements d; table_max_size := table_max_size d;
     table_current_size := table_current_size d; slab_min_size := slab_min_size d;
     lru := lru d; bestfit := bestfit d; compactarMemoria := n;
     frecuenciaCompactacion := frecuenciaCompactacion d |}.

(** ** Access through pointers *)

Definition with_heap (h : gmap nat t_dict_element) (s : rc) : rc :=
  {| heap := h; dic := dic s; memoria := memoria s; clock := clock s |}.
Definition with_dic (d : t_diccionario) (s : rc) : rc :=
  {| heap := heap s; dic := d; memoria := memoria s; clock := clock s |}.
Definition with_memoria (m : mem) (s : rc) : rc :=
  {| heap := heap s; dic := dic s; memoria := m; clock := clock s |}.

Definition at_ (p : nat) : MR t_dict_element := fun s =>
  match heap s !! p with Some e => Ok (e, s) | None => Fail OutOfBounds end.

Definition set_at (p : nat) (f : t_dict_element -> t_dict_element) : MR unit :=
  e ← at_ p; modify (fun s => with_heap (<[p := f e]> (heap s)) s).

Definition get_dic : MR t_diccionario := gets dic.
Definition set_dic (f : t_diccionario -> t_diccionario) : MR unit :=
  modify (fun s => with_dic (f (dic s)) s).

(** if (p != NULL) p->... *)
Definition set_if (p : option nat) (f : t_dict_element -> t_dict_element) : MR unit :=
  match p with Some p => set_at p f | None => mret tt end.

(** The fuel of a walk along a list: a list that is not cyclic is not longer
    than the heap. *)
Definition list_fuel : MR nat := gets (fun s => S (size (heap s))).

(** memcpy into a key: [KEY_SIZE_MAX] bytes were malloc'ed. *)
Definition key_write (bytes : list Z) (e : t_dict_element) : option t_dict_element :=
  k ← key e;
  if zlen bytes <=? zlen k then Some (set_key (Some (bytes ++ drop (length bytes) k)) e) else None.

Definition set_key_at (p : nat) (bytes : list Z) : MR unit :=
  e ← at_ p;
  match key_write bytes e with
  | Some e => modify (fun s => with_heap (<[p := e]> (heap s)) s)
  | None => fail OutOfBounds
  end.

(** ** The functions *)

Definition max (a b : Z) : Z := if a >? b then a else b.

(** pow(2, (int) log2(n)) for a positive [n] *)
Definition power_two_low (un_numero : Z) : Z := 2 ^ Z.log2 un_numero.

Definition estaReservado (e : t_dict_element) : bool := negb (ocupado e) && negb (nkey e =? 0).

Definition key_malloc : option (list Z) := Some (replicate (Z.to_nat KEY_SIZE_MAX) 0).

(** [nodes] has [cant_max_el - 1] elements (and none for a negative number).
    The write behind the loop is to [nodes[cant_max_el - 1]], outside of the
    array: it is a fault unless the heap holds an element there
    ([behind_nodes]). *)
Definition nodes_array (cant_max_el : nat) (behind_nodes : option t_dict_element)
  : gmap nat t_dict_element :=
  let node i :=
    {| prev := match i with O => None | S j => Some (S j) end; key := key_malloc; nkey := 0;
       data := None; hour := 0; chunk_size := 0; data_size := 0; ocupado := false; flags := 0;
       next := Some (S (S i)) |} in
  let h := list_to_map ((fun i => (S i, node i)) <$> seq 0 (cant_max_el - 1)) in
  match behind_nodes with
  | Some e => <[S (cant_max_el - 1) := e]> h
  | None => h
  end.

Definition inicializarElementos (cant_max_el : nat) : MR unit :=
  set_at (S (cant_max_el - 1)) (set_next None);;
  d ← get_dic;
  modify (fun s => with_heap (<[0%nat :=
    {| prev := None; key := key_malloc; nkey := 0; data := Some 0; hour := 0;
       chunk_size := table_max_size d; data_size := 0; ocupado := false; flags := 0;
       next := None |}]> (heap s)) s).

(** The search from [it] on. *)
Fixpoint obtener_loop (fuel : nat) (it : option nat) (k : list Z) (n : Z) : MR (option nat) :=
  match it, fuel with
  | None, _ => mret None
  | Some _, O => fail OutOfFuel
  | Some p, S fuel =>
      e ← at_ p;
      if negb (nkey e =? 0) && (nkey e =? n)
         && bool_decide (take (Z.to_nat n) (default [] (key e)) = take (Z.to_nat n) k)
      then mret (Some p)
      else obtener_loop fuel (next e) k n
  end.

Definition diccionario_obtener (k : list Z) (n : Z) : MR (option nat) :=
  d ← get_dic;
  fuel ← list_fuel;
  obtener_loop fuel (elements d) k n.

(** The first element with an hour. *)
Fixpoint first_with_hour (fuel : nat) (victima : option nat) : MR (option nat) :=
  match victima, fuel with
  | None, _ => mret None
  | Some _, O => fail OutOfFuel
  | Some p, S fuel =>
      e ← at_ p;
      if hour e =? 0 then first_with_hour fuel (next e) else mret (Some p)
  end.

(** The oldest one from [item] on; NULL is dereferenced when there is none. *)
Fixpoint oldest_loop (fuel : nat) (item : option nat) (victima : nat) : MR nat :=
  match item, fuel with
  | None, _ => mret victima
  | Some _, O => fail OutOfFuel
  | Some p, S fuel =>
      e ← at_ p;
      v ← at_ victima;
      oldest_loop fuel (next e)
        (if negb (hour e =? 0) && (hour e <? hour v) then p else victima)
  end.

Definition diccionario_elegirVictima : MR nat :=
  d ← get_dic;
  fuel ← list_fuel;
  victima ← first_with_hour fuel (elements d);
  v ← deref victima;
  oldest_loop fuel victima v.

(** while (item != NULL) { if (item->nkey != 0) item = f_eliminar(self, item);
    item = item->next; } *)
Fixpoint limpiar_loop (fuel : nat) (item : option nat) (f_eliminar : nat -> MR nat) : MR unit :=
  match item, fuel with
  | None, _ => mret tt
  | Some _, O => fail OutOfFuel
  | Some p, S fuel =>
      e ← at_ p;
      p ← (if negb (nkey e =? 0) then f_eliminar p else mret p);
      e ← at_ p;
      limpiar_loop fuel (next e) f_eliminar
  end.

Definition diccionario_limpiar (f_eliminar : nat -> MR nat) : MR unit :=
  d ← get_dic;
  fuel ← list_fuel;
  limpiar_loop fuel (elements d) f_eliminar.

(** What a line of the dump says of an element: the start, the end, whether it
    is occupied, the size, the hour and the bytes of the key. *)
Record dump_line := {
  dl_start : option Z; dl_chunk_size : Z; dl_ocupado : bool; dl_hour : Z; dl_key : list Z
}.

Fixpoint dump_loop (fuel : nat) (item : option nat) : MR (list dump_line) :=
  match item, fuel with
  | None, _ => mret []
  | Some _, O => fail OutOfFuel
  | Some p, S fuel =>
      e ← at_ p;
      l ← dump_loop fuel (next e);
      mret ({| dl_start := data e; dl_chunk_size := chunk_size e; dl_ocupado := ocupado e;
               dl_hour := hour e; dl_key := take (Z.to_nat (nkey e)) (default [] (key e)) |} :: l)
  end.

Definition diccionario_dump : MR (list dump_line) :=
  d ← get_dic; fuel ← list_fuel; dump_loop fuel (elements d).

(** ** First fit and best fit, which both schemes share *)

(** A free element of at least [n] bytes, from [item] on. *)
Definition fits (n : Z) (e : t_dict_element) : bool :=
  negb (ocupado e || estaReservado e || (chunk_size e <? n)).

Fixpoint first_fit (fuel : nat) (item : option nat) (n : Z) : MR (option nat) :=
  match item, fuel with
  | None, _ => mret None
  | Some _, O => fail OutOfFuel
  | Some p, S fuel =>
      e ← at_ p;
      if fits n e then mret (Some p) else first_fit fuel (next e) n
  end.

(** The smallest one that fits, from [aux_item] on. *)
Fixpoint best_fit (fuel : nat) (aux_item : option nat) (item : nat) (n : Z) : MR nat :=
  match aux_item, fuel with
  | None, _ => mret item
  | Some _, O => fail OutOfFuel
  | Some p, S fuel =>
      a ← at_ p;
      e ← at_ item;
      best_fit fuel (next a)
        (if negb (ocupado a) && negb (estaReservado a) && (chunk_size a <? chunk_size e)
            && (chunk_size a >=? n) then p else item) n
  end.

(** Puts an element in front of the list of free nodes. *)
Definition release_node (it : nat) : MR unit :=
  d ← get_dic;
  set_at it (set_next (nodes d));;
  set_if (nodes d) (set_prev (Some it));;
  set_dic (set_nodes (Some it)).

(** The fields of an element that is removed. *)
Definition clear_item (it : nat) : MR unit :=
  e ← at_ it;
  set_dic (fun d => set_table_current_size (table_current_size d - data_size e) d);;
  set_key_at it [0];;
  set_at it (fun e => set_data_size 0 (set_ocupado false (set_flags 0 (set_nkey 0 (set_hour 0 e))))).
