(* ===== verification/Dinamicas.v ===== *)
(** * Dinamicas: dynamic partitions

    Models [rc/source/diccionario_dinamicas.c]: the memory of the cache is cut
    into partitions of the sizes that are asked for; free neighbours are
    joined when an item is removed; when no partition is large enough, the
    partitions are compacted or the oldest item is evicted. *)

From S2P Require Import Prelude Memory Diccionario.

(** ** diccionario_crear *)

Definition diccionario_crear (max_size slab_size : Z) (behind_nodes : option t_dict_element)
    (m : mem) (now : Z) : res rc :=
  let cant_max_el := Z.to_nat (max_size / slab_size) in
  let s := {|
    heap := nodes_array cant_max_el behind_nodes;
    dic := {| nodes := Some 1%nat; elements := Some 0%nat; table_max_size := max_size;
              table_current_size := 0; slab_min_size := slab_size; lru := false;
              bestfit := false; compactarMemoria := 0; frecuenciaCompactacion := 0 |};
    memoria := m; clock := now |} in
  match inicializarElementos cant_max_el s with
  | Ok (_, s) => Ok s
  | Fail e => Fail e
  end.

(** ** diccionario_eliminar *)

(** The free neighbours in front; the result is the element that holds the
    joined partition. *)
Fixpoint join_anterior (fuel : nat) (it : nat) : MR nat :=
  match fuel with
  | O => fail OutOfFuel
  | S fuel =>
      e ← at_ it;
      match prev e with
      | None => mret it
      | Some anterior =>
          a ← at_ anterior;
          if ocupado a then mret it
          else
            set_at anterior (set_chunk_size (chunk_size a + chunk_size e));;
            set_at it (set_chunk_size 0);;
            set_at anterior (set_next (next e));;
            set_if (next e) (set_prev (Some anterior));;
            set_at it (set_prev None);;
            release_node it;;
            join_anterior fuel anterior
      end
  end.

(** The free neighbours behind; the [prev] of the element that follows is not
    set. *)
Fixpoint join_posterior (fuel : nat) (it : nat) : MR nat :=
  match fuel with
  | O => fail OutOfFuel
  | S fuel =>
      e ← at_ it;
      match next e with
      | None => mret it
      | Some posterior =>
          p ← at_ posterior;
          if ocupado p then mret it
          else
            set_at it (set_chunk_size (chunk_size e + chunk_size p));;
            set_at posterior (set_chunk_size 0);;
            set_at it (set_next (next p));;
            set_at posterior (set_prev None);;
            release_node posterior;;
            join_posterior fuel it
      end
  end.

Definition diccionario_eliminar (it : nat) : MR nat :=
  clear_item it;;
  fuel ← list_fuel;
  it ← join_anterior fuel it;
  join_posterior fuel it.

(** ** diccionario_compactarMemoria *)

(** Joins the free partitions behind [item_libre], from [item] on. *)
Fixpoint join_free (fuel : nat) (item_libre : nat) (item : option nat) : MR (option nat) :=
  match item, fuel with
  | None, _ => mret None
  | Some _, O => fail OutOfFuel
  | Some p, S fuel =>
      e ← at_ p;
      if negb (ocupado e) && negb (estaReservado e) then
        l ← at_ item_libre;
        set_at item_libre (set_chunk_size (chunk_size l + chunk_size e));;
        set_at item_libre (set_next (next e));;
        set_if (next e) (set_prev (Some item_libre));;
        set_at p (set_prev None);;
        release_node p;;
        set_at p (set_chunk_size 0);;
        l ← at_ item_libre;
        join_free fuel item_libre (next l)
      else mret (Some p)
  end.

(** Moves the item of [item] into the free partition in front of it.  The
    length of the key and the flags are not moved. *)
Definition move_item (item_libre item : nat) : MR unit :=
  l ← at_ item_libre;
  e ← at_ item;
  let espacioLibre := chunk_size l in
  set_at item_libre (set_chunk_size (chunk_size e));;
  dst ← deref (data l);
  src ← deref (data e);
  m ← gets memoria;
  match memcpy m dst src (chunk_size e) with
  | Ok m => modify (with_memoria m)
  | Fail f => fail f
  end;;
  set_at item (set_data (Some (dst + chunk_size e)));;
  set_at item_libre (fun l => set_hour (hour e) (set_data_size (data_size e) l));;
  k ← deref (key e);
  set_key_at item_libre (take (Z.to_nat (nkey e + 1)) k);;
  set_at item_libre (set_ocupado true);;
  set_at item (fun e => set_ocupado false (set_chunk_size espacioLibre (set_prev (Some item_libre) e)));;
  set_key_at item [0];;
  set_at item (fun e => set_data_size 0 (set_hour 0 e)).

Definition in_use (e : t_dict_element) : bool := ocupado e || estaReservado e.

(** The inner loop: [item_libre] and [item] move on together. *)
Fixpoint compact_from (fuel : nat) (item_libre : option nat) (item : option nat) : MR unit :=
  match item, fuel with
  | None, _ => mret tt
  | Some _, O => fail OutOfFuel
  | Some _, S fuel' =>
      l ← deref item_libre;
      item ← join_free fuel l item;
      match item with
      | None => mret tt
      | Some p =>
          e ← at_ p;
          when (in_use e) (move_item l p);;
          l' ← at_ l;
          e' ← at_ p;
          compact_from fuel' (next l') (next e')
      end
  end.

(** while (item != NULL && in use) item = item->next; *)
Fixpoint first_free (fuel : nat) (item : option nat) : MR (option nat) :=
  match item, fuel with
  | None, _ => mret None
  | Some _, O => fail OutOfFuel
  | Some p, S fuel =>
      e ← at_ p;
      if in_use e then first_free fuel (next e) else mret (Some p)
  end.

(** The inner loop leaves [item] NULL, so the outer one runs once. *)
Definition diccionario_compactarMemoria : MR unit :=
  d ← get_dic;
  fuel ← list_fuel;
  item ← first_free fuel (elements d);
  match item with
  | None => mret tt
  | Some item_libre =>
      l ← at_ item_libre;
      compact_from fuel (Some item_libre) (next l)
  end.

(** ** diccionario_obtenerDireccion *)

(** Cuts the rest of the partition off into a node of its own. *)
Definition split (item : nat) (aux_data_size : Z) : MR unit :=
  d ← get_dic;
  e ← at_ item;
  match nodes d with
  | Some nuevo_nodo =>
      if chunk_size e - aux_data_size >=? slab_min_size d then
        n ← at_ nuevo_nodo;
        set_dic (set_nodes (next n));;
        set_if (next n) (set_prev None);;
        e ← at_ item;
        set_at nuevo_nodo (fun n => set_prev (Some item) (set_next (next e) n));;
        set_if (next e) (set_prev (Some nuevo_nodo));;
        set_at item (set_next (Some nuevo_nodo));;
        set_at nuevo_nodo (fun n => set_chunk_size (chunk_size n + (chunk_size e - aux_data_size)) n);;
        set_at item (set_chunk_size aux_data_size);;
        d ← deref (data e);
        set_at nuevo_nodo (set_data (Some (d + aux_data_size)))
      else mret tt
  | None => mret tt
  end.

(** The loop: [rounds] bounds the evictions and compactions. *)
Fixpoint obtenerDireccion_loop (rounds : nat) (aux_data_size data_size : Z) : MR (option nat) :=
  d ← get_dic;
  if negb (aux_data_size <=? table_max_size d) then mret None
  else
    match rounds with
    | O => fail OutOfFuel
    | S rounds =>
        fuel ← list_fuel;
        item ← first_fit fuel (elements d) aux_data_size;
        match item with
        | None =>
            set_dic (fun d => if compactarMemoria d >? 0
                              then set_compactarMemoria (compactarMemoria d - 1) d else d);;
            d ← get_dic;
            (if (compactarMemoria d =? 0)
                && (table_max_size d - table_current_size d >=? aux_data_size) then
               diccionario_compactarMemoria;;
               set_dic (fun d => set_compactarMemoria (frecuenciaCompactacion d) d)
             else
               victima ← diccionario_elegirVictima;
               diccionario_eliminar victima;;
               mret tt);;
            obtenerDireccion_loop rounds aux_data_size data_size
        | Some item =>
            item ← (if bestfit d then best_fit fuel (Some item) item aux_data_size else mret item);
            split item aux_data_size;;
            set_at item (set_data_size data_size);;
            set_dic (fun d => set_table_current_size (table_current_size d + data_size) d);;
            mret (Some item)
        end
    end.

Definition diccionario_obtenerDireccion (rounds : nat) (data_size : Z) : MR (option nat) :=
  d ← get_dic;
  obtenerDireccion_loop rounds (max (s32 data_size) (slab_min_size d)) data_size.
