(* ===== verification/Particiones.v ===== *)
(** * Particiones: what the storage of the cache engine promises

    The invariant of the dynamic partitions: the elements form a doubly
    linked list that covers the memory of the cache from 0 to its size, the
    free nodes are linked in a second list and hold nothing, and the used
    size is the sum of the sizes of the items.  Searching, allocating and
    removing against this invariant. *)

From S2P Require Import Prelude Memory Diccionario Dinamicas.

Implicit Types (h : gmap nat t_dict_element) (l fl : list nat) (s : rc) (e : t_dict_element).

(** ** Linked lists in the heap *)

Definition links h (x : nat) : option (option nat * option nat) :=
  (fun e => (prev e, next e)) <$> h !! x.

(** From the pointer [p], whose predecessor is [prv], through the elements
    [l] to the pointer [nxt]. *)
Fixpoint dlseg h (prv p : option nat) l (nxt : option nat) : Prop :=
  match l with
  | [] => p = nxt
  | x :: l => p = Some x /\ exists q, links h x = Some (prv, q) /\ dlseg h (Some x) q l nxt
  end.

(** The list of free nodes is used through [next] only. *)
Fixpoint slseg h (p : option nat) l : Prop :=
  match l with
  | [] => p = None
  | x :: l => p = Some x /\ exists q, snd <$> links h x = Some q /\ slseg h q l
  end.

Definition last_of (prv : option nat) l : option nat :=
  match last l with Some x => Some x | None => prv end.

Lemma last_of_cons prv x l : last_of prv (x :: l) = last_of (Some x) l.
Proof. unfold last_of. rewrite last_cons. by destruct (last l). Qed.

Lemma dlseg_app h prv p l1 l2 nxt :
  dlseg h prv p (l1 ++ l2) nxt <->
  exists q, dlseg h prv p l1 q /\ dlseg h (last_of prv l1) q l2 nxt.
Proof.
  revert prv p. induction l1 as [|x l1 IH]; intros prv p.
  - simpl. unfold last_of. simpl. split; [eauto|by intros (q & -> & Hq)].
  - cbn [app dlseg]. rewrite last_of_cons. split.
    + intros (-> & q & Hq & (r & Hr & Hl)%IH). exists r. eauto.
    + intros (r & (-> & q & Hq & Hr) & Hl). split; [done|]. exists q. split; [done|].
      apply IH. eauto.
Qed.

Lemma dlseg_ext h h' prv p l nxt :
  (forall x, x ∈ l -> links h' x = links h x) -> dlseg h prv p l nxt -> dlseg h' prv p l nxt.
Proof.
  revert prv p. induction l as [|x l IH]; intros prv p Hx; [done|].
  intros (-> & q & Hq & Hl). split; [done|]. exists q. split.
  - rewrite Hx; [done|by left].
  - apply IH; [|done]. intros y Hy. apply Hx. by right.
Qed.

Lemma slseg_ext h h' p l :
  (forall x, x ∈ l -> snd <$> links h' x = snd <$> links h x) -> slseg h p l -> slseg h' p l.
Proof.
  revert p. induction l as [|x l IH]; intros p Hx; [done|].
  intros (-> & q & Hq & Hl). split; [done|]. exists q. split.
  - rewrite Hx; [done|by left].
  - apply IH; [|done]. intros y Hy. apply Hx. by right.
Qed.

Lemma dlseg_elem h prv p l nxt x : dlseg h prv p l nxt -> x ∈ l -> is_Some (h !! x).
Proof.
  revert prv p. induction l as [|y l IH]; intros prv p; [by intros _ ?%not_elem_of_nil|].
  intros (_ & q & Hq & Hl) [->|Hx]%elem_of_cons; [|by eapply IH].
  unfold links in Hq. destruct (h !! y); [done|done].
Qed.

Lemma size_le (h : gmap nat t_dict_element) l :
  NoDup l -> (forall x, x ∈ l -> is_Some (h !! x)) -> (length l <= size h)%nat.
Proof.
  intros Hnd Hin. rewrite <- size_dom, <- (size_list_to_set (C := gset nat) l Hnd).
  apply subseteq_size. intros x Hx%elem_of_list_to_set. by apply elem_of_dom, Hin.
Qed.

Lemma set_at_ok p f s e :
  heap s !! p = Some e -> set_at p f s = Ok (tt, with_heap (<[p := f e]> (heap s)) s).
Proof. intros Hp. unfold set_at, at_, mbind, M_bind. by rewrite Hp. Qed.

Lemma at_ok p s e : heap s !! p = Some e -> at_ p s = Ok (e, s).
Proof. intros Hp. unfold at_. by rewrite Hp. Qed.

(** ** Searches along the list *)

Definition test h (P : t_dict_element -> bool) (x : nat) : bool :=
  match h !! x with Some e => P e | None => false end.

Definition find_elem h (P : t_dict_element -> bool) l : option nat :=
  snd <$> list_find (fun x => test h P x = true) l.

Lemma find_elem_cons h P x l :
  find_elem h P (x :: l) = if test h P x then Some x else find_elem h P l.
Proof.
  unfold find_elem. cbn [list_find]. case_decide as D.
  - by rewrite D.
  - destruct (test h P x); [done|]. by destruct (list_find _ l) as [[]|].
Qed.

Lemma first_fit_ok fuel s prv p l n :
  dlseg (heap s) prv p l None -> (length l <= fuel)%nat ->
  first_fit fuel p n s = Ok (find_elem (heap s) (fits n) l, s).
Proof.
  revert prv p fuel. induction l as [|x l IH]; intros prv p fuel.
  - simpl. intros -> _. by destruct fuel.
  - intros (-> & q & Hq & Hl) Hf. destruct fuel as [|fuel]; [simpl in Hf; lia|].
    unfold links in Hq. destruct (heap s !! x) as [e|] eqn:Ex; [|done].
    injection Hq as Hp Hn. cbn [first_fit]. rewrite (bind_ok _ _ _ _ _ (at_ok _ _ _ Ex)).
    rewrite find_elem_cons. unfold test. rewrite Ex. destruct (fits n e); [done|].
    rewrite Hn. eapply IH; [exact Hl|simpl in Hf; lia].
Qed.

(** The element of a key: same length, same bytes. *)
Definition has_key (k : list Z) (n : Z) e : bool :=
  negb (nkey e =? 0) && (nkey e =? n)
  && bool_decide (take (Z.to_nat n) (default [] (key e)) = take (Z.to_nat n) k).

Lemma obtener_loop_ok fuel s prv p l k n :
  dlseg (heap s) prv p l None -> (length l <= fuel)%nat ->
  obtener_loop fuel p k n s = Ok (find_elem (heap s) (has_key k n) l, s).
Proof.
  revert prv p fuel. induction l as [|x l IH]; intros prv p fuel.
  - simpl. intros -> _. by destruct fuel.
  - intros (-> & q & Hq & Hl) Hf. destruct fuel as [|fuel]; [simpl in Hf; lia|].
    unfold links in Hq. destruct (heap s !! x) as [e|] eqn:Ex; [|done].
    injection Hq as Hp Hn. cbn [obtener_loop]. rewrite (bind_ok _ _ _ _ _ (at_ok _ _ _ Ex)).
    rewrite find_elem_cons. unfold test. rewrite Ex. fold (has_key k n e).
    destruct (has_key k n e); [done|]. rewrite Hn. eapply IH; [exact Hl|simpl in Hf; lia].
Qed.

(** ** The layout of the memory *)

(** The partitions [l] follow each other from the address [a] to [b]. *)
Fixpoint tiles h (a : Z) l (b : Z) : Prop :=
  match l with
  | [] => a = b
  | x :: l => exists e, h !! x = Some e /\ Diccionario.data e = Some a /\ 0 < chunk_size e /\
                tiles h (a + chunk_size e) l b
  end.

Definition used h l : Z := foldr (fun x n => default 0 (data_size <$> h !! x) + n) 0 l.

(** A free node of the second list. *)
Definition idle e : Prop := chunk_size e = 0 /\ ocupado e = false /\ nkey e = 0 /\ data_size e = 0.

(** A partition that is not in use has no item; every key has its place. *)
Definition element_ok e : Prop :=
  (in_use e = false -> data_size e = 0 /\ hour e = 0) /\
  (exists k, key e = Some k /\ zlen k = KEY_SIZE_MAX).

Record partitioned s l fl : Prop := {
  pa_list : dlseg (heap s) None (elements (dic s)) l None;
  pa_free : slseg (heap s) (nodes (dic s)) fl;
  pa_nodup : NoDup (l ++ fl);
  pa_tiles : tiles (heap s) 0 l (table_max_size (dic s));
  pa_used : used (heap s) l = table_current_size (dic s);
  pa_elements : forall x e, x ∈ l -> heap s !! x = Some e -> element_ok e;
  pa_idle : forall x e, x ∈ fl -> heap s !! x = Some e -> idle e /\ element_ok e
}.

(** ** Updates of the heap *)

(** What an element holds, without its place in the lists. *)
Definition item_of e : t_dict_element := set_prev None (set_next None e).
Definition item_at h (x : nat) : option t_dict_element := item_of <$> h !! x.

Definition alter_if (f : t_dict_element -> t_dict_element) (p : option nat) h :=
  match p with Some p => alter f p h | None => h end.

Definition keeps_links (f : t_dict_element -> t_dict_element) : Prop :=
  forall e, prev (f e) = prev e /\ next (f e) = next e.
Definition keeps_next (f : t_dict_element -> t_dict_element) : Prop := forall e, next (f e) = next e.
Definition keeps_item (f : t_dict_element -> t_dict_element) : Prop :=
  forall e, item_of (f e) = item_of e.

Lemma set_at_alter p f s :
  is_Some (heap s !! p) -> set_at p f s = Ok (tt, with_heap (alter f p (heap s)) s).
Proof.
  intros [e Hp]. rewrite (set_at_ok p f s e Hp). do 2 f_equal. unfold with_heap. f_equal.
  apply map_eq. intros x. rewrite lookup_insert, lookup_alter. case_decide; [|done].
  subst x. by rewrite Hp.
Qed.

Lemma set_if_alter p f s :
  (forall x, p = Some x -> is_Some (heap s !! x)) ->
  set_if p f s = Ok (tt, with_heap (alter_if f p (heap s)) s).
Proof.
  intros Hp. destruct p as [p|]; simpl; [by apply set_at_alter, Hp|]. by destruct s.
Qed.

Lemma links_alter f p h x :
  links (alter f p h) x = if decide (p = x) then (fun e => (prev (f e), next (f e))) <$> h !! x else links h x.
Proof. unfold links. rewrite lookup_alter. case_decide; [subst x|done]. by destruct (h !! p). Qed.

Lemma links_alter_ne f p h x : p <> x -> links (alter f p h) x = links h x.
Proof. intros Hp. rewrite links_alter. by rewrite decide_False. Qed.

Lemma links_alter_same f p h x : keeps_links f -> links (alter f p h) x = links h x.
Proof.
  intros Hf. rewrite links_alter. case_decide; [|done]. unfold links.
  destruct (h !! x) as [e|]; [|done]. simpl. by destruct (Hf e) as [-> ->].
Qed.

Lemma links_alter_if f p h x :
  (forall y, p = Some y -> y <> x) -> links (alter_if f p h) x = links h x.
Proof. intros Hp. destruct p as [y|]; [|done]. apply links_alter_ne. by apply Hp. Qed.

Lemma next_alter_if f p h x :
  keeps_next f -> snd <$> links (alter_if f p h) x = snd <$> links h x.
Proof.
  intros Hf. destruct p as [p|]; [|done]. simpl. rewrite links_alter. case_decide; [|done].
  unfold links. destruct (h !! x); [|done]. simpl. by rewrite Hf.
Qed.

Lemma item_alter_ne f p h x : p <> x -> item_at (alter f p h) x = item_at h x.
Proof. intros Hp. unfold item_at. by rewrite lookup_alter_ne. Qed.

Lemma item_alter_same f p h x : keeps_item f -> item_at (alter f p h) x = item_at h x.
Proof.
  intros Hf. unfold item_at. rewrite lookup_alter. case_decide; [subst x|done].
  destruct (h !! p); [|done]. simpl. by rewrite Hf.
Qed.

Lemma item_alter_if f p h x : keeps_item f -> item_at (alter_if f p h) x = item_at h x.
Proof. intros Hf. destruct p; [by apply item_alter_same|done]. Qed.

Lemma keeps_links_compose f g : keeps_links f -> keeps_links g -> keeps_links (fun e => f (g e)).
Proof. intros Hf Hg e. destruct (Hf (g e)), (Hg e). split; congruence. Qed.

Lemma is_Some_alter f p h x : is_Some (alter f p h !! x) <-> is_Some (h !! x).
Proof. rewrite lookup_alter. case_decide; [subst x|done]. by rewrite fmap_is_Some. Qed.

Lemma is_Some_alter_if f p h x : is_Some (alter_if f p h !! x) <-> is_Some (h !! x).
Proof. destruct p; [apply is_Some_alter|done]. Qed.

Lemma item_at_lookup h h' x e :
  item_at h' x = item_at h x -> h !! x = Some e -> exists e', h' !! x = Some e' /\ item_of e' = item_of e.
Proof.
  intros Hi Hx. unfold item_at in Hi. rewrite Hx in Hi. destruct (h' !! x) as [e'|]; [|done].
  exists e'. split; [done|]. by apply (inj Some).
Qed.

(** The layout depends on the items only. *)
Lemma tiles_ext h h' a l b :
  (forall x, x ∈ l -> item_at h' x = item_at h x) -> tiles h a l b -> tiles h' a l b.
Proof.
  revert a. induction l as [|x l IH]; intros a Hx; [done|].
  intros (e & He & Hd & Hc & Hl).
  destruct (item_at_lookup h h' x e) as (e' & He' & Hi); [apply Hx; by left|done|].
  apply (f_equal chunk_size) in Hi as Hch. apply (f_equal Diccionario.data) in Hi as Hda. simpl in Hch, Hda.
  exists e'. split_and!; [done|congruence|lia|]. rewrite Hch. apply IH; [|done].
  intros y Hy. apply Hx. by right.
Qed.

Lemma tiles_le h a l b : tiles h a l b -> a <= b.
Proof.
  revert a. induction l as [|x l IH]; intros a; simpl; [lia|].
  intros (e & _ & _ & Hc & Hl%IH). lia.
Qed.

Lemma used_ext h h' l :
  (forall x, x ∈ l -> item_at h' x = item_at h x) -> used h' l = used h l.
Proof.
  induction l as [|x l IH]; intros Hx; [done|]. cbn [used foldr].
  fold (used h' l). fold (used h l). rewrite IH by (intros y Hy; apply Hx; by right).
  f_equal. specialize (Hx x ltac:(by left)). unfold item_at in Hx.
  destruct (h' !! x) as [e'|], (h !! x) as [e|]; try done. simpl.
  apply (inj Some) in Hx. by apply (f_equal data_size) in Hx.
Qed.

Lemma tiles_app h a l1 l2 b :
  tiles h a (l1 ++ l2) b <-> exists c, tiles h a l1 c /\ tiles h c l2 b.
Proof.
  revert a. induction l1 as [|x l1 IH]; intros a; simpl.
  - split; [eauto|by intros (c & <- & H)].
  - split.
    + intros (e & He & Hd & Hc & (c & H1 & H2)%IH). exists c. split; [|done]. eauto.
    + intros (c & (e & He & Hd & Hc & H1) & H2). exists e. split_and!; try done.
      apply IH. eauto.
Qed.

Lemma used_app h l1 l2 : used h (l1 ++ l2) = used h l1 + used h l2.
Proof.
  induction l1 as [|x l1 IH]; [done|]. cbn [app used foldr]. fold (used h (l1 ++ l2)). fold (used h l1).
  rewrite IH. lia.
Qed.

Lemma used_cons h x e l : h !! x = Some e -> used h (x :: l) = data_size e + used h l.
Proof. intros Hx. cbn [used foldr]. by rewrite Hx. Qed.

(** A new predecessor for the first element of a list. *)
Lemma dlseg_set_head h prv prv' p l :
  NoDup l -> dlseg h prv p l None -> dlseg (alter_if (set_prev prv') p h) prv' p l None.
Proof.
  destruct l as [|x l]; [by intros _ ->|]. intros [Hx _]%NoDup_cons (-> & q & Hq & Hl).
  split; [done|]. exists q. split.
  - simpl. rewrite links_alter, decide_True by done. unfold links in Hq.
    destruct (h !! x) as [e|]; [|done]. injection Hq as _ Hn. simpl. by rewrite Hn.
  - eapply dlseg_ext; [|exact Hl]. intros y Hy. apply links_alter_ne. by intros ->.
Qed.

Lemma dlseg_head h prv p l : dlseg h prv p l None -> p = head l.
Proof. destruct l; [done|]. by intros (-> & _). Qed.

Lemma slseg_head h p l : slseg h p l -> p = head l.
Proof. destruct l; [done|]. by intros (-> & _). Qed.

Lemma slseg_elem h p l x : slseg h p l -> x ∈ l -> is_Some (h !! x).
Proof.
  revert p. induction l as [|y l IH]; intros p; [by intros _ ?%not_elem_of_nil|].
  intros (_ & q & Hq & Hl) [->|Hx]%elem_of_cons; [|by eapply IH].
  unfold links in Hq. destruct (h !! y); [done|done].
Qed.

(** ** Cutting a partition *)

(** The heap after [split]: the node [n] becomes the rest of [x]. *)
Definition split_heap h (x n : nat) (e en : t_dict_element) (a d : Z) :=
  alter (set_data (Some (d + a))) n
  (alter (set_chunk_size a) x
  (alter (fun n => set_chunk_size (chunk_size n + (chunk_size e - a)) n) n
  (alter (set_next (Some n)) x
  (alter_if (set_prev (Some n)) (next e)
  (alter (fun n => set_prev (Some x) (set_next (next e) n)) n
  (alter_if (set_prev None) (next en) h)))))).

Ltac heap_some :=
  cbn [heap with_heap with_dic]; repeat first [rewrite is_Some_alter | rewrite is_Some_alter_if]; eauto.

Lemma split_run s x n e en a d :
  heap s !! x = Some e -> nodes (dic s) = Some n -> heap s !! n = Some en -> next en <> Some x ->
  Diccionario.data e = Some d -> slab_min_size (dic s) <= chunk_size e - a ->
  (forall y, next en = Some y -> is_Some (heap s !! y)) ->
  (forall y, next e = Some y -> is_Some (heap s !! y)) ->
  split x a s = Ok (tt, with_heap (split_heap (heap s) x n e en a d)
                          (with_dic (set_nodes (next en) (dic s)) s)).
Proof.
  intros Hx Hn Hen Hnx Hd Hsz Hy Hz. unfold split, get_dic, set_dic.
  rewrite (bind_ok _ _ s (dic s) s) by done. rewrite (bind_ok _ _ _ _ _ (at_ok _ _ _ Hx)).
  rewrite Hn, Z.geb_leb, (proj2 (Z.leb_le _ _)) by done.
  rewrite (bind_ok _ _ _ _ _ (at_ok _ _ _ Hen)). unfold modify.
  rewrite (bind_ok _ _ s tt (with_dic (set_nodes (next en) (dic s)) s)) by done.
  erewrite bind_ok by (apply set_if_alter; exact Hy). cbn [heap with_dic].
  set (s1 := with_heap (alter_if (set_prev None) (next en) (heap s)) _).
  assert (heap s1 !! x = Some e) as Hx1.
  { cbn. destruct (next en) as [y|]; [|done]. simpl. rewrite lookup_alter_ne; [done|congruence]. }
  rewrite (bind_ok _ _ _ _ _ (at_ok _ _ _ Hx1)).
  assert (is_Some (heap s !! x) /\ is_Some (heap s !! n)) as [Ix In] by (split; eauto).
  subst s1.
  erewrite bind_ok by (apply set_at_alter; heap_some).
  erewrite bind_ok by (apply set_if_alter; intros y ?; heap_some).
  erewrite bind_ok by (apply set_at_alter; heap_some).
  erewrite bind_ok by (apply set_at_alter; heap_some).
  erewrite bind_ok by (apply set_at_alter; heap_some).
  rewrite Hd. erewrite bind_ok by done. rewrite set_at_alter by heap_some. done.
Qed.

Lemma split_links h x n e en a d w :
  w <> x -> w <> n -> next e <> Some w ->
  snd <$> links (split_heap h x n e en a d) w = snd <$> links h w /\
  (next en <> Some w -> links (split_heap h x n e en a d) w = links h w).
Proof.
  intros Hx Hn He. unfold split_heap.
  rewrite !(links_alter_same _ _ _ w) by (by intros ?).
  rewrite (links_alter_ne _ x) by done.
  rewrite (links_alter_if _ (next e)) by (intros y Hy ->; done).
  rewrite (links_alter_ne _ n) by done.
  split; [by apply next_alter_if|]. intros Hen. apply links_alter_if. by intros y Hy ->.
Qed.

Lemma split_items h x n e en a d w :
  w <> x -> w <> n -> item_at (split_heap h x n e en a d) w = item_at h w.
Proof.
  intros Hx Hn. unfold split_heap.
  rewrite (item_alter_ne _ n), (item_alter_ne _ x), (item_alter_ne _ n) by done.
  rewrite (item_alter_same (set_next _)) by done. rewrite item_alter_if by done.
  rewrite (item_alter_ne _ n) by done. by apply item_alter_if.
Qed.

Lemma lookup_alter_if_ne f p h x : p <> Some x -> alter_if f p h !! x = h !! x.
Proof. intros Hp. destruct p as [y|]; [|done]. apply lookup_alter_ne. congruence. Qed.

Lemma split_lookup h x n e en a d :
  h !! x = Some e -> h !! n = Some en -> x <> n ->
  next e <> Some x -> next e <> Some n -> next en <> Some x -> next en <> Some n ->
  split_heap h x n e en a d !! x = Some (set_chunk_size a (set_next (Some n) e)) /\
  split_heap h x n e en a d !! n
  = Some (set_data (Some (d + a)) (set_chunk_size (chunk_size en + (chunk_size e - a))
            (set_prev (Some x) (set_next (next e) en)))).
Proof.
  intros Hx Hn Hne E1 E2 E3 E4. unfold split_heap. split.
  - rewrite lookup_alter_ne, lookup_alter_eq, lookup_alter_ne, lookup_alter_eq by done.
    rewrite lookup_alter_if_ne, lookup_alter_ne, lookup_alter_if_ne by done. by rewrite Hx.
  - rewrite lookup_alter_eq, lookup_alter_ne, lookup_alter_eq, lookup_alter_ne by done.
    rewrite lookup_alter_if_ne, lookup_alter_eq, lookup_alter_if_ne by done. by rewrite Hn.
Qed.

Lemma slseg_next_in h p x fl y : slseg h p (x :: fl) -> snd <$> links h x = Some (Some y) -> y ∈ fl.
Proof.
  intros (_ & q & Hq & Hl) Hy. rewrite Hy in Hq. injection Hq as <-.
  destruct fl; [done|]. destruct Hl as ([= ->] & _). by left.
Qed.

Lemma dlseg_next_in h prv p x l y e :
  dlseg h prv p (x :: l) None -> h !! x = Some e -> next e = Some y -> y ∈ l.
Proof.
  intros (_ & q & Hq & Hl) He Hy. unfold links in Hq. rewrite He in Hq. injection Hq as _ Hq.
  rewrite <- Hq, Hy in Hl. destruct l; [done|]. destruct Hl as ([= ->] & _). by left.
Qed.

(** Where [x] can be cut with the free node [n]. *)
Record cut h l1 (x n : nat) l2 fl e en : Prop := {
  cut_x : h !! x = Some e;
  cut_n : h !! n = Some en;
  cut_nodup : NoDup ((l1 ++ x :: n :: l2) ++ fl);
  cut_next : forall w, next e = Some w -> w ∈ l2;
  cut_free : forall w, next en = Some w -> w ∈ fl
}.

Section Cut.
Variables (h : gmap nat t_dict_element) (l1 : list nat) (x n : nat) (l2 fl : list nat)
  (e en : t_dict_element) (a d : Z).
Hypothesis Hcut : cut h l1 x n l2 fl e en.

Lemma cut_distinct w : w ∈ l1 \/ w ∈ l2 \/ w ∈ fl -> w <> x /\ w <> n.
Proof.
  pose proof (cut_nodup _ _ _ _ _ _ _ _ Hcut) as (Hnd1 & Hdis & _)%NoDup_app.
  apply NoDup_app in Hnd1 as (_ & Hd1 & [Hx [Hn _]%NoDup_cons]%NoDup_cons).
  intros [Hw|[Hw|Hw]]; split; intros ->.
  - apply (Hd1 _ Hw). by left.
  - apply (Hd1 _ Hw). right. by left.
  - apply Hx. by right.
  - done.
  - apply (Hdis x); [|done]. apply elem_of_app. right. by left.
  - apply (Hdis n); [|done]. apply elem_of_app. right. right. by left.
Qed.

Lemma cut_ne : x <> n.
Proof.
  pose proof (cut_nodup _ _ _ _ _ _ _ _ Hcut) as (Hnd1 & _ & _)%NoDup_app.
  apply NoDup_app in Hnd1 as (_ & _ & [Hx _]%NoDup_cons). intros ->. apply Hx. by left.
Qed.

Lemma cut_free_not w : w ∈ l1 \/ w ∈ l2 \/ w = x \/ w = n -> next en <> Some w.
Proof.
  intros Hw E%(cut_free _ _ _ _ _ _ _ _ Hcut).
  destruct (cut_distinct w) as [Hx Hn]; [tauto|].
  pose proof (cut_nodup _ _ _ _ _ _ _ _ Hcut) as (_ & Hdis & _)%NoDup_app.
  destruct Hw as [Hw|[Hw|[Hw|Hw]]]; [| |done|done]; apply (Hdis w); try done; apply elem_of_app.
  - by left.
  - right. right. by right.
Qed.

Lemma cut_next_not w : w ∈ l1 \/ w = x \/ w = n \/ w ∈ fl -> next e <> Some w.
Proof.
  intros Hw E%(cut_next _ _ _ _ _ _ _ _ Hcut).
  destruct (cut_distinct w) as [Hx Hn]; [tauto|].
  pose proof (cut_nodup _ _ _ _ _ _ _ _ Hcut) as (Hnd1 & Hdis & _)%NoDup_app.
  apply NoDup_app in Hnd1 as (_ & Hd1 & _).
  destruct Hw as [Hw|[Hw|[Hw|Hw]]]; [|done|done|].
  - apply (Hd1 w Hw). right. by right.
  - apply (Hdis w); [|done]. apply elem_of_app. right. right. by right.
Qed.

Lemma cut_lookup :
  split_heap h x n e en a d !! x = Some (set_chunk_size a (set_next (Some n) e)) /\
  split_heap h x n e en a d !! n
  = Some (set_data (Some (d + a)) (set_chunk_size (chunk_size en + (chunk_size e - a))
            (set_prev (Some x) (set_next (next e) en)))).
Proof.
  pose proof Hcut as []. apply split_lookup; [done|done|apply cut_ne|apply cut_next_not; tauto..| |];
    apply cut_free_not; tauto.
Qed.

Lemma cut_items w : w ∈ l1 \/ w ∈ l2 \/ w ∈ fl -> item_at (split_heap h x n e en a d) w = item_at h w.
Proof. intros [Hx Hn]%cut_distinct. by apply split_items. Qed.

Lemma cut_links w :
  w ∈ l1 \/ w ∈ l2 -> next e <> Some w -> links (split_heap h x n e en a d) w = links h w.
Proof.
  intros Hw Hne. destruct (cut_distinct w) as [Hx Hn]; [tauto|].
  apply split_links; [done..|]. apply cut_free_not. tauto.
Qed.

Lemma cut_dlseg p :
  dlseg h None p (l1 ++ x :: l2) None ->
  dlseg (split_heap h x n e en a d) None p (l1 ++ x :: n :: l2) None.
Proof.
  intros (q & H1 & -> & r & Hr & H2)%dlseg_app. destruct cut_lookup as [Lx Ln]. pose proof Hcut as [cut_x0 cut_n0 cut_nodup0 cut_next0 cut_free0].
  apply dlseg_app. exists (Some x). split.
  { eapply dlseg_ext; [|exact H1]. intros w Hw. apply cut_links; [by left|].
    apply cut_next_not. by left. }
  unfold links in Hr. rewrite cut_x0 in Hr. injection Hr as Hp Hr.
  split; [done|]. exists (Some n). split; [unfold links; rewrite Lx; simpl; by rewrite Hp|].
  split; [done|]. exists r. split; [unfold links; rewrite Ln; simpl; by rewrite Hr|].
  assert (l2 = [] \/ exists z l, l2 = z :: l) as [E2|(z & l2' & E2)] by (destruct l2; eauto).
  { rewrite E2 in *. by destruct H2. }
  rewrite E2 in H2 |- *. destruct H2 as (Er & q' & Hq' & H2).
  assert (forall w, w ∈ z :: l2' -> w ∈ l2) as Hin by (by rewrite E2).
  destruct (cut_distinct z) as [Hzx Hzn]; [right; left; apply Hin; by left|].
  assert (NoDup (z :: l2')) as [Hz2 _]%NoDup_cons.
  { rewrite <- E2. by apply NoDup_app in cut_nodup0 as ((_ & _ & [_ [_ ?]%NoDup_cons]%NoDup_cons)%NoDup_app & _ & _). }
  split; [done|]. exists q'. rewrite Er in Hr. split.
  - unfold split_heap. rewrite !(links_alter_same _ _ _ z) by (by intros ?).
    rewrite (links_alter_ne _ x) by done. rewrite Hr. simpl.
    rewrite links_alter, decide_True by done.
    rewrite lookup_alter_ne by done. rewrite lookup_alter_if_ne.
    + unfold links in Hq'. destruct (h !! z); [|done]. injection Hq' as _ Hq'. simpl. by rewrite Hq'.
    + apply cut_free_not. right. left. apply Hin. by left.
  - eapply dlseg_ext; [|exact H2]. intros w Hw. apply cut_links; [right; apply Hin; by right|].
    rewrite Hr. by intros [= ->].
Qed.

Lemma cut_slseg p : slseg h p fl -> slseg (split_heap h x n e en a d) p fl.
Proof.
  apply slseg_ext. intros w Hw. destruct (cut_distinct w) as [Hx Hn]; [tauto|].
  apply split_links; [done..|]. apply cut_next_not. tauto.
Qed.

Lemma cut_tiles b :
  tiles h 0 (l1 ++ x :: l2) b -> Diccionario.data e = Some d -> chunk_size en = 0 -> 0 < a < chunk_size e ->
  tiles (split_heap h x n e en a d) 0 (l1 ++ x :: n :: l2) b.
Proof.
  intros (c & Ht1 & e' & Hx' & Hd' & Hc' & Ht2)%tiles_app Hd Hch Ha.
  destruct cut_lookup as [Lx Ln]. pose proof Hcut as [cut_x0 cut_n0 cut_nodup0 cut_next0 cut_free0].
  assert (e' = e) as -> by congruence. assert (d = c) as <- by congruence.
  apply tiles_app. exists d. split.
  { eapply tiles_ext; [|exact Ht1]. intros w Hw. apply cut_items. tauto. }
  eexists. split; [exact Lx|]. split_and!; [done|simpl; lia|].
  eexists. split; [exact Ln|]. simpl. split_and!; [done|lia|].
  replace (d + a + (chunk_size en + (chunk_size e - a))) with (d + chunk_size e) by lia.
  eapply tiles_ext; [|exact Ht2]. intros w Hw. apply cut_items. tauto.
Qed.

Lemma cut_used : data_size en = 0 ->
  used (split_heap h x n e en a d) (l1 ++ x :: n :: l2) = used h (l1 ++ x :: l2).
Proof.
  intros Hen. destruct cut_lookup as [Lx Ln]. pose proof Hcut as [cut_x0 cut_n0 cut_nodup0 cut_next0 cut_free0]. rewrite !used_app.
  rewrite (used_cons _ _ _ _ Lx), (used_cons _ _ _ _ Ln), (used_cons _ _ _ _ cut_x0). simpl data_size.
  rewrite (used_ext h _ l1), (used_ext h _ l2) by (intros w Hw; apply cut_items; tauto). lia.
Qed.

Lemma element_ok_item e1 e2 : item_of e1 = item_of e2 -> element_ok e1 -> element_ok e2.
Proof. destruct e1, e2. intros [=]. subst. done. Qed.

Lemma cut_elements w e' :
  (forall w e, w ∈ l1 ++ x :: l2 -> h !! w = Some e -> element_ok e) -> idle en -> element_ok en ->
  w ∈ l1 ++ x :: n :: l2 -> split_heap h x n e en a d !! w = Some e' -> element_ok e'.
Proof.
  intros Hel (Hch & Hoc & Hnk & Hds) Hen Hw He'. destruct cut_lookup as [Lx Ln].
  assert (w ∈ l1 \/ w ∈ l2 -> element_ok e') as Hother.
  { intros Hin. destruct (item_at_lookup (split_heap h x n e en a d) h w e') as (e0 & He0 & Hi); [|done|].
    - symmetry. apply cut_items. tauto.
    - eapply element_ok_item; [exact Hi|]. apply (Hel w); [|done].
      apply elem_of_app. destruct Hin; [by left|right; by right]. }
  apply elem_of_app in Hw as [Hw|[->|[->|Hw]%elem_of_cons]%elem_of_cons]; [tauto| | |tauto].
  - rewrite Lx in He'. injection He' as <-. change (element_ok e).
    apply (Hel x); [apply elem_of_app; right; by left|apply Hcut].
  - rewrite Ln in He'. injection He' as <-. destruct Hen as [H1 H2]. split; [|done]. intros _. simpl.
    apply H1. unfold in_use, estaReservado. rewrite Hoc, Hnk. done.
Qed.
End Cut.

(** What happens to the partition that a size is cut off. *)
Definition shrunk e e' : Prop := item_of e' = item_of (set_chunk_size (chunk_size e') e).

(** The state after a cut: [new] are the nodes taken from [fl]. *)
Record was_cut s s' l1 (x : nat) l2 fl e (a : Z) (new fl' : list nat) : Prop := {
  wc_free : fl = rev new ++ fl';
  wc_partitioned : partitioned s' (l1 ++ x :: new ++ l2) fl';
  wc_dic : dic s' = set_nodes (head fl') (dic s);
  wc_rest : memoria s' = memoria s /\ clock s' = clock s;
  wc_x : exists e', heap s' !! x = Some e' /\ a <= chunk_size e' /\ shrunk e e';
  wc_others : forall w, w ∈ l1 \/ w ∈ l2 -> item_at (heap s') w = item_at (heap s) w;
  wc_new : forall w e', w ∈ new -> heap s' !! w = Some e' -> in_use e' = false
}.

Lemma was_cut_nothing s l1 x l2 fl e a :
  partitioned s (l1 ++ x :: l2) fl -> heap s !! x = Some e -> a <= chunk_size e ->
  was_cut s s l1 x l2 fl e a [] fl.
Proof.
  intros Hp Hx Ha. split; try done.
  - rewrite <- (slseg_head _ _ _ (pa_free _ _ _ Hp)). by destruct (dic s).
  - exists e. split_and!; [done|lia|by destruct e].
  - by intros w e' ?%not_elem_of_nil.
Qed.

(** A cut of what a cut has left. *)
Lemma was_cut_trans s s1 s2 l1 x l2 fl e e1 a a' n fl1 new fl2 :
  was_cut s s1 l1 x l2 fl e a [n] fl1 -> heap s1 !! x = Some e1 ->
  was_cut s1 s2 l1 x (n :: l2) fl1 e1 a' new fl2 -> was_cut s s2 l1 x l2 fl e a' (new ++ [n]) fl2.
Proof.
  intros [Hf1 _ Hd1 [Hm1 Hc1] (e1' & He1' & _ & Hs1) Ho1 Hn1] He1 [Hf2 Hp2 Hd2 [Hm2 Hc2] (e2 & He2 & Ha2 & Hs2) Ho2 Hn2].
  assert (e1' = e1) as -> by congruence. split.
  - rewrite Hf1, Hf2, rev_app_distr. done.
  - by rewrite <- app_assoc.
  - by rewrite Hd2, Hd1.
  - split; congruence.
  - exists e2. split_and!; [done..|]. unfold shrunk in *. rewrite Hs2. destruct e, e1. unfold item_of in *.
    cbn in *. injection Hs1 as ? ? ? ? ? ? ?. by subst.
  - intros w Hw. rewrite Ho2, Ho1; [done|tauto|]. destruct Hw; [by left|right; by right].
  - intros w e' Hw He'. apply elem_of_app in Hw as [Hw|Hw]; [by eapply Hn2|].
    apply list_elem_of_singleton in Hw as ->.
    destruct (item_at_lookup (heap s2) (heap s1) n e') as (e0 & He0 & Hi); [|done|].
    { symmetry. apply Ho2. right. by left. }
    specialize (Hn1 n e0 ltac:(by left) He0). unfold in_use, estaReservado in *.
    pose proof (f_equal ocupado Hi) as E1. pose proof (f_equal nkey Hi) as E2. cbn in E1, E2. congruence.
Qed.

Lemma split_nothing s x e a :
  heap s !! x = Some e ->
  nodes (dic s) = None \/ chunk_size e - a < slab_min_size (dic s) -> split x a s = Ok (tt, s).
Proof.
  intros Hx Hn. unfold split, get_dic. rewrite (bind_ok _ _ s (dic s) s) by done.
  rewrite (bind_ok _ _ _ _ _ (at_ok _ _ _ Hx)). destruct (nodes (dic s)); [|done].
  destruct Hn as [Hn|Hn]; [done|]. by rewrite Z.geb_leb, (proj2 (Z.leb_gt _ _)) by lia.
Qed.

Lemma partitioned_cut s l1 x l2 n fl e :
  partitioned s (l1 ++ x :: l2) (n :: fl) -> heap s !! x = Some e ->
  exists en, cut (heap s) l1 x n l2 fl e en /\ next en = head fl /\ slseg (heap s) (head fl) fl.
Proof.
  intros [Hl (_ & q & Hq & Hf) Hnd _ _ _ _] Hx. unfold links in Hq.
  destruct (heap s !! n) as [en|] eqn:Hn; [|done]. injection Hq as Hq.
  pose proof (slseg_head _ _ _ Hf) as Hqh. exists en.
  split; [|split; [congruence|by rewrite <- Hqh]]. split; try done.
  - assert ((l1 ++ x :: n :: l2) ++ fl ≡ₚ (l1 ++ x :: l2) ++ n :: fl) as ->; [|done].
    rewrite <- !app_assoc. cbn [app]. by rewrite <- (Permutation_middle l2 fl n).
  - intros w Hw. apply dlseg_app in Hl as (r & _ & Hl2). by eapply dlseg_next_in.
  - intros w Hw. rewrite Hq, Hqh in Hw. destruct fl; [done|]. injection Hw as ->. by left.
Qed.

(** The state after [x] is cut at [a] with the first free node. *)
Definition cut_state (x n : nat) e en (a d : Z) fl s : rc :=
  with_heap (split_heap (heap s) x n e en a d) (with_dic (set_nodes (head fl) (dic s)) s).

Lemma cut_was_cut s l1 x l2 n fl e en a d :
  partitioned s (l1 ++ x :: l2) (n :: fl) -> cut (heap s) l1 x n l2 fl e en ->
  Diccionario.data e = Some d -> 0 < a < chunk_size e ->
  was_cut s (cut_state x n e en a d fl s) l1 x l2 (n :: fl) e a [n] fl.
Proof.
  intros [Hl Hf Hnd Ht Hus Hel Hid] Hcut Hd Ha. pose proof (cut_n _ _ _ _ _ _ _ _ Hcut) as Hn.
  destruct (Hid n en ltac:(by left) Hn) as [Hidle Hok].
  assert (slseg (heap s) (head fl) fl) as Hfl.
  { destruct Hf as (_ & q & _ & Hfl). by rewrite <- (slseg_head _ _ _ Hfl). }
  destruct (cut_lookup _ _ _ _ _ _ _ _ a d Hcut) as [Lx Ln]. pose proof Hidle as (Hch & Hoc & Hnk & Hds).
  split; try done.
  - split; cbn [cut_state heap dic with_heap with_dic elements nodes table_max_size table_current_size set_nodes].
    + by apply (cut_dlseg _ _ _ _ _ fl).
    + by apply (cut_slseg _ l1 _ _ l2).
    + apply Hcut.
    + by apply (cut_tiles _ _ _ _ _ fl).
    + exact (eq_trans (cut_used _ _ _ _ _ fl _ _ a d Hcut Hds) Hus).
    + intros w e' Hw Hl'. by apply (cut_elements (heap s) l1 x n l2 fl e en a d Hcut w e').
    + intros w e' Hw Hl'.
      destruct (item_at_lookup (split_heap (heap s) x n e en a d) (heap s) w e') as (e0 & He0 & Hi); [|done|].
      { symmetry. apply (cut_items _ l1 _ _ l2 fl); [done|tauto]. }
      destruct (Hid w e0 ltac:(by right) He0) as [Hi1 Hi2].
      split; [|by eapply element_ok_item]. destruct e0, e'. injection Hi as ? ? ? ? ? ? ? ?.
      by simplify_eq.
  - exists (set_chunk_size a (set_next (Some n) e)). split_and!; [done|simpl; lia|by destruct e].
  - intros w Hw. apply (cut_items _ l1 _ _ l2 fl); [done|tauto].
  - intros w e' ->%list_elem_of_singleton. cbn [cut_state heap with_heap]. rewrite Ln. intros [= <-].
    unfold in_use, estaReservado. cbn. by rewrite Hoc, Hnk.
Qed.

Lemma partitioned_data s l1 x l2 fl e :
  partitioned s (l1 ++ x :: l2) fl -> heap s !! x = Some e -> exists d, Diccionario.data e = Some d.
Proof.
  intros Hp Hx. pose proof (pa_tiles _ _ _ Hp) as (c & _ & e' & Hx' & Hd' & _)%tiles_app. exists c. congruence.
Qed.

Lemma cut_live s l1 x l2 n fl e en :
  partitioned s (l1 ++ x :: l2) (n :: fl) -> cut (heap s) l1 x n l2 fl e en ->
  slseg (heap s) (head fl) fl ->
  next en <> Some x /\ (forall y, next en = Some y -> is_Some (heap s !! y)) /\ (forall y, next e = Some y -> is_Some (heap s !! y)).
Proof.
  intros [Hl _ _ _ _ _ _] Hcut Hfl. split_and!.
  - apply (cut_free_not _ _ _ _ _ _ _ _ Hcut). tauto.
  - intros y Hy. eapply slseg_elem; [exact Hfl|]. by apply (cut_free _ _ _ _ _ _ _ _ Hcut).
  - intros y Hy. eapply dlseg_elem; [exact Hl|]. apply elem_of_app. right. right.
    by apply (cut_next _ _ _ _ _ _ _ _ Hcut).
Qed.

Lemma split_partitioned s l1 x l2 fl e a :
  partitioned s (l1 ++ x :: l2) fl -> heap s !! x = Some e ->
  0 < a <= chunk_size e -> 0 < slab_min_size (dic s) ->
  exists s' new fl', split x a s = Ok (tt, s') /\ was_cut s s' l1 x l2 fl e a new fl'.
Proof.
  intros Hp Hx Ha Hslab. pose proof (slseg_head _ _ _ (pa_free _ _ _ Hp)) as Hnodes.
  assert (Hnone : split x a s = Ok (tt, s) -> exists s' new fl', split x a s = Ok (tt, s') /\
            was_cut s s' l1 x l2 fl e a new fl').
  { intros Hs. exists s, [], fl. split; [done|]. apply was_cut_nothing; [done|done|lia]. }
  destruct fl as [|n fl]; [apply Hnone, (split_nothing s x e a Hx); by left|].
  destruct (Z.le_gt_cases (slab_min_size (dic s)) (chunk_size e - a)) as [Hbig|Hsmall].
  2: { apply Hnone, (split_nothing s x e a Hx). right. lia. }
  destruct (partitioned_cut _ _ _ _ _ _ _ Hp Hx) as (en & Hcut & Hen & Hfl).
  destruct (partitioned_data _ _ _ _ _ _ Hp Hx) as [d Hd].
  destruct (cut_live _ _ _ _ _ _ _ _ Hp Hcut Hfl) as (Hnx & Hny & Hz).
  exists (cut_state x n e en a d fl s), [n], fl. split.
  - unfold cut_state. rewrite <- Hen. by apply split_run; try done; apply Hcut.
  - apply cut_was_cut; [done..|lia].
Qed.

(** ** Allocation *)

Lemma best_fit_ok fuel s prv p l n it e :
  dlseg (heap s) prv p l None -> (length l <= fuel)%nat -> heap s !! it = Some e ->
  exists r er, best_fit fuel p it n s = Ok (r, s) /\ heap s !! r = Some er /\
    (r = it \/ r ∈ l /\ fits n er = true) /\ chunk_size er <= chunk_size e /\
    (forall y ey, y ∈ l -> heap s !! y = Some ey -> fits n ey = true -> chunk_size er <= chunk_size ey).
Proof.
  revert prv p fuel it e. induction l as [|x l IH]; intros prv p fuel it e.
  - simpl. intros -> _ He. exists it, e.
    split_and!; [by destruct fuel|done|by left|done|by intros y ey ?%not_elem_of_nil].
  - intros (-> & q & Hq & Hl) Hf He. destruct fuel as [|fuel]; [simpl in Hf; lia|].
    unfold links in Hq. destruct (heap s !! x) as [ex|] eqn:Ex; [|done].
    injection Hq as Hp Hn. cbn [best_fit].
    rewrite (bind_ok _ _ _ _ _ (at_ok _ _ _ Ex)), (bind_ok _ _ _ _ _ (at_ok _ _ _ He)).
    set (b := negb (ocupado ex) && _ && _ && _).
    assert (b = fits n ex && (chunk_size ex <? chunk_size e)) as Eb.
    { subst b. unfold fits. rewrite Z.geb_leb, Z.leb_antisym.
      by destruct (ocupado ex), (estaReservado ex), (chunk_size ex <? n), (chunk_size ex <? chunk_size e). }
    rewrite Hn. clearbody b. simpl in Hf.
    destruct (IH _ _ fuel (if b then x else it) (if b then ex else e) Hl ltac:(lia) ltac:(by destruct b))
      as (r & er & Hr & Her & Hin & Hle & Hmin).
    exists r, er. rewrite Eb in *. split_and!; [done|done| | |].
    + destruct Hin as [->|[Hin Hfit]]; [|right; split; [by right|done]].
      destruct (fits n ex) eqn:Efit; [|by left]. destruct (Z.ltb_spec (chunk_size ex) (chunk_size e)); [|by left].
      right. simpl in Her. split; [by left|]. rewrite Ex in Her. by injection Her as <-.
    + destruct (fits n ex), (Z.ltb_spec (chunk_size ex) (chunk_size e)); simpl in Hle; lia.
    + intros y ey [->|Hy]%elem_of_cons Hey Hfit; [|by eapply Hmin].
      assert (ey = ex) as -> by congruence. rewrite Hfit in Hle.
      destruct (Z.ltb_spec (chunk_size ex) (chunk_size e)); simpl in Hle; lia.
Qed.

Lemma fits_spec n e : fits n e = true <-> in_use e = false /\ n <= chunk_size e.
Proof.
  unfold fits, in_use. rewrite negb_true_iff, !orb_false_iff, Z.ltb_ge. tauto.
Qed.

Lemma find_elem_Some h P l x :
  find_elem h P l = Some x -> x ∈ l /\ exists e, h !! x = Some e /\ P e = true.
Proof.
  unfold find_elem. intros ([i y] & Hy & ->)%fmap_Some.
  apply list_find_Some in Hy as (Hi & Ht & _). split; [by eapply list_elem_of_lookup_2|].
  unfold test in Ht. simpl. destruct (h !! y); [eauto|done].
Qed.

Lemma find_elem_None h P l x e :
  find_elem h P l = None -> x ∈ l -> h !! x = Some e -> P e = false.
Proof.
  unfold find_elem. intros Hn%fmap_None. apply list_find_None in Hn. rewrite Forall_forall in Hn.
  intros Hx He. specialize (Hn x Hx). unfold test in Hn. rewrite He in Hn. by destruct (P e).
Qed.

Lemma partitioned_fuel s l fl :
  partitioned s l fl -> (length l <= Datatypes.S (size (heap s)))%nat.
Proof.
  intros [Hl _ Hnd _ _ _ _]. apply NoDup_app in Hnd as (Hnd & _ & _).
  pose proof (size_le (heap s) l Hnd (fun x Hx => dlseg_elem _ _ _ _ _ x Hl Hx)). lia.
Qed.

Lemma diccionario_obtener_ok s l fl k n :
  partitioned s l fl -> diccionario_obtener k n s = Ok (find_elem (heap s) (has_key k n) l, s).
Proof.
  intros Hp. unfold diccionario_obtener, get_dic, list_fuel.
  rewrite (bind_ok _ _ s (dic s) s) by done.
  rewrite (bind_ok _ _ s (Datatypes.S (size (heap s))) s) by done.
  eapply obtener_loop_ok; [apply Hp|by eapply partitioned_fuel].
Qed.

Lemma find_elem_found h P l1 x l2 e :
  (forall y ey, y ∈ l1 -> h !! y = Some ey -> P ey = false) -> h !! x = Some e -> P e = true ->
  find_elem h P (l1 ++ x :: l2) = Some x.
Proof.
  intros H1 Hx HP. induction l1 as [|y l1 IH]; simpl app; rewrite find_elem_cons; unfold test.
  - by rewrite Hx, HP.
  - destruct (h !! y) as [ey|] eqn:Ey.
    + rewrite (H1 y ey) by (try done; by left). apply IH. intros z ez Hz. apply H1. by right.
    + apply IH. intros z ez Hz. apply H1. by right.
Qed.

Lemma find_elem_absent h P l :
  (forall x e, x ∈ l -> h !! x = Some e -> P e = false) -> find_elem h P l = None.
Proof.
  induction l as [|x l IH]; intros Hl; [done|]. rewrite find_elem_cons. unfold test.
  destruct (h !! x) as [e|] eqn:Hx; [rewrite (Hl x e) by (try done; by left)|]; apply IH;
    intros y ey Hy; apply Hl; by right.
Qed.

(** The partition that is taken for [n] bytes. *)
Definition chosen s l (n : Z) (x : nat) e : Prop :=
  x ∈ l /\ heap s !! x = Some e /\ fits n e = true /\
  if bestfit (dic s)
  then forall y ey, y ∈ l -> heap s !! y = Some ey -> fits n ey = true -> chunk_size e <= chunk_size ey
  else find_elem (heap s) (fits n) l = Some x.

Definition with_size (x : nat) (n : Z) s : rc :=
  with_dic (set_table_current_size (table_current_size (dic s) + n) (dic s))
    (with_heap (alter (set_data_size n) x (heap s)) s).

(** The choice, which both schemes make in the same way. *)
Lemma pick_ok s l fl a x0 :
  partitioned s l fl -> find_elem (heap s) (fits a) l = Some x0 ->
  exists x e, chosen s l a x e /\
    (if bestfit (dic s) then best_fit (Datatypes.S (size (heap s))) (Some x0) x0 a else mret x0) s = Ok (x, s).
Proof.
  intros Hp Hfind. pose proof (partitioned_fuel _ _ _ Hp) as Hfuel. pose proof (pa_list _ _ _ Hp) as Hl.
  destruct (find_elem_Some _ _ _ _ Hfind) as (Hx0 & e0 & He0 & Hfit0).
  destruct (bestfit (dic s)) eqn:Eb.
  2: { exists x0, e0. unfold chosen. by rewrite Eb. }
  unfold find_elem in Hfind. apply fmap_Some in Hfind as ([i y] & Hy & Ey). simpl in Ey. subst y.
  apply list_find_Some in Hy as (Hi & _ & Hbefore).
  rewrite <- (take_drop_middle _ _ _ Hi) in Hl. apply dlseg_app in Hl as (q & _ & Hl).
  assert (q = Some x0) as -> by by destruct Hl.
  destruct (best_fit_ok (Datatypes.S (size (heap s))) s _ _ _ a x0 e0 Hl) as (r & er & Hr & Her & Hin & Hle & Hmin);
    [|done|].
  { pose proof (take_drop_middle _ _ _ Hi) as Hlen. apply (f_equal length) in Hlen.
    rewrite length_app in Hlen. simpl in *. lia. }
  exists r, er. split; [|done]. unfold chosen. rewrite Eb. split_and!; [|done| |].
  - destruct Hin as [->|[Hin _]]; [done|]. rewrite <- (take_drop_middle _ _ _ Hi).
    apply elem_of_app. by right.
  - destruct Hin as [->|[_ Hin]]; [|done]. congruence.
  - intros y ey Hy Hey Hfit. rewrite <- (take_drop_middle _ _ _ Hi) in Hy.
    apply elem_of_app in Hy as [Hy|Hy]; [|by eapply Hmin].
    exfalso. apply elem_of_take in Hy as (j & Hj & Hlt). apply (Hbefore j y Hj Hlt).
    unfold test. by rewrite Hey.
Qed.

Lemma first_fit_found s l fl a x0 :
  partitioned s l fl -> find_elem (heap s) (fits a) l = Some x0 ->
  first_fit (Datatypes.S (size (heap s))) (elements (dic s)) a s = Ok (Some x0, s).
Proof.
  intros Hp Hfind. rewrite <- Hfind. eapply first_fit_ok; [apply Hp|by eapply partitioned_fuel].
Qed.

Lemma obtenerDireccion_fit rounds s l fl n x0 :
  partitioned s l fl -> 0 < slab_min_size (dic s) ->
  let a := max (s32 n) (slab_min_size (dic s)) in
  a <= table_max_size (dic s) -> find_elem (heap s) (fits a) l = Some x0 ->
  exists x e l1 l2 s1 new fl', chosen s l a x e /\ l = l1 ++ x :: l2 /\
    was_cut s s1 l1 x l2 fl e a new fl' /\
    diccionario_obtenerDireccion (Datatypes.S rounds) n s = Ok (Some x, with_size x n s1).
Proof.
  intros Hp Hslab a Ha Hfind. assert (0 < a) as Ha0 by (unfold a, max; case_test; lia).
  destruct (pick_ok _ _ _ _ _ Hp Hfind) as (x & e & Hch & Hpick).
  pose proof Hch as (Hx & He & Hfit & _). apply fits_spec in Hfit as [Hu Hsz].
  apply list_elem_of_split in Hx as (l1 & l2 & ->).
  destruct (split_partitioned s l1 x l2 fl e a Hp He ltac:(lia) Hslab) as (s1 & new & fl' & Hrun & Hcut).
  exists x, e, l1, l2, s1, new, fl'. split_and!; [done|done|done|].
  unfold diccionario_obtenerDireccion, get_dic. rewrite (bind_ok _ _ s (dic s) s) by done. fold a.
  cbn [obtenerDireccion_loop]. unfold get_dic at 1. rewrite (bind_ok _ _ s (dic s) s) by done.
  rewrite (proj2 (Z.leb_le _ _)) by done. cbn [negb].
  rewrite (bind_ok _ _ s (Datatypes.S (size (heap s))) s) by done.
  rewrite (bind_ok _ _ _ _ _ (first_fit_found _ _ _ _ _ Hp Hfind)).
  rewrite (bind_ok _ _ _ _ _ Hpick), (bind_ok _ _ _ _ _ Hrun).
  destruct (wc_x _ _ _ _ _ _ _ _ _ _ Hcut) as (e' & He' & _).
  erewrite bind_ok by (apply set_at_alter; eauto). done.
Qed.

(** ** Updates of one item *)

(** [f] leaves an element where it is, in the lists and in the memory. *)
Definition in_place (f : t_dict_element -> t_dict_element) : Prop :=
  forall e, prev (f e) = prev e /\ next (f e) = next e /\
            Diccionario.data (f e) = Diccionario.data e /\ chunk_size (f e) = chunk_size e.

Lemma tiles_alter f x h a l b : in_place f -> tiles h a l b -> tiles (alter f x h) a l b.
Proof.
  intros Hf. revert a. induction l as [|y l IH]; intros a; [done|].
  intros (e & He & Hd & Hc & Hl). destruct (Hf e) as (_ & _ & Hfd & Hfc).
  destruct (decide (x = y)) as [->|Hne].
  - exists (f e). rewrite lookup_alter_eq, He. split_and!; [done|congruence|lia|]. rewrite Hfc. by apply IH.
  - exists e. rewrite lookup_alter_ne by done. split_and!; [done..|]. by apply IH.
Qed.

Lemma used_alter f x h l e :
  NoDup l -> x ∈ l -> h !! x = Some e -> used (alter f x h) l = used h l + (data_size (f e) - data_size e).
Proof.
  intros Hnd (l1 & l2 & ->)%list_elem_of_split Hx. apply NoDup_middle in Hnd as [Hx12 _].
  rewrite !used_app, (used_cons h x e), (used_cons _ x (f e)) by (rewrite ?lookup_alter_eq, ?Hx; done).
  assert (forall w, w ∈ l1 \/ w ∈ l2 -> w <> x) as Hne.
  { intros w Hw ->. apply Hx12. by apply elem_of_app. }
  rewrite (used_ext h _ l1), (used_ext h _ l2); [lia| |];
    intros w Hw; apply item_alter_ne; intros ->; apply (Hne w); tauto.
Qed.

(** The state with the element [x] changed by [f], and the used size with it. *)
Definition with_item (x : nat) (f : t_dict_element -> t_dict_element) (n : Z) s : rc :=
  with_dic (set_table_current_size (table_current_size (dic s) + n) (dic s))
    (with_heap (alter f x (heap s)) s).

Lemma partitioned_update s l fl x e f n :
  partitioned s l fl -> x ∈ l -> heap s !! x = Some e -> in_place f ->
  data_size (f e) = data_size e + n -> element_ok (f e) ->
  partitioned (with_item x f n s) l fl.
Proof.
  intros [Hl Hf Hnd Ht Hus Hel Hid] Hx He Hin Hn Hok.
  assert (x ∉ fl) as Hxfl by (intros E; by apply NoDup_app in Hnd as (_ & Hd & _); apply (Hd x)).
  assert (forall w, links (alter f x (heap s)) w = links (heap s) w) as Hlinks.
  { intros w. apply links_alter_same. intros e'. by destruct (Hin e') as (? & ? & _). }
  split; cbn [heap dic with_item with_heap with_dic elements nodes table_max_size table_current_size
              set_table_current_size].
  - eapply dlseg_ext; [|exact Hl]. auto.
  - eapply slseg_ext; [|exact Hf]. intros w _. by rewrite Hlinks.
  - done.
  - by apply tiles_alter.
  - apply NoDup_app in Hnd as (Hnd & _ & _). rewrite (used_alter f x _ _ e) by done. lia.
  - intros y ey Hy. destruct (decide (x = y)) as [->|Hne].
    + rewrite lookup_alter_eq, He. by intros [= <-].
    + rewrite lookup_alter_ne by done. by apply Hel.
  - intros y ey Hy. rewrite lookup_alter_ne by (intros ->; done). by apply Hid.
Qed.

(** Two partitions do not overlap. *)
Lemma tiles_disjoint h a l b x y ex ey dx dy :
  NoDup l -> tiles h a l b -> x ∈ l -> y ∈ l -> x <> y -> h !! x = Some ex -> h !! y = Some ey ->
  Diccionario.data ex = Some dx -> Diccionario.data ey = Some dy ->
  dx + chunk_size ex <= dy \/ dy + chunk_size ey <= dx.
Proof.
  intros Hnd Ht Hx Hy Hne Hex Hey Hdx Hdy.
  assert (Hlow : forall l a, tiles h a l b -> forall w e d, w ∈ l -> h !! w = Some e ->
            Diccionario.data e = Some d -> a <= d).
  { intros l' a'. revert a'. induction l' as [|z l' IH]; intros a'; [by intros _ w e d ?%not_elem_of_nil|].
    intros (e' & He' & Hd' & Hc' & Hl') w e d [->|Hw]%elem_of_cons He Hd.
    - assert (e' = e) as -> by congruence. assert (a' = d) as -> by congruence. lia.
    - specialize (IH _ Hl' w e d Hw He Hd). lia. }
  revert a Ht Hx Hy. induction l as [|z l IH]; intros a Ht Hx Hy; [by apply not_elem_of_nil in Hx|].
  apply NoDup_cons in Hnd as [_ Hnd]. destruct Ht as (ez & Hez & Hdz & Hcz & Hl).
  apply elem_of_cons in Hx as [->|Hx], Hy as [->|Hy].
  - done.
  - assert (ez = ex) as -> by congruence. assert (a = dx) as -> by congruence.
    left. by apply (Hlow _ _ Hl y ey dy).
  - assert (ez = ey) as -> by congruence. assert (a = dy) as -> by congruence.
    right. by apply (Hlow _ _ Hl x ex dx).
  - by eapply IH.
Qed.

Lemma tiles_inside h a l b x e d :
  tiles h a l b -> x ∈ l -> h !! x = Some e -> Diccionario.data e = Some d ->
  a <= d /\ 0 < chunk_size e /\ d + chunk_size e <= b.
Proof.
  intros Ht (l1 & l2 & ->)%list_elem_of_split Hx Hd.
  apply tiles_app in Ht as (c & H1%tiles_le & e' & He' & Hd' & Hc' & H2%tiles_le).
  assert (e' = e) as -> by congruence. assert (c = d) as -> by congruence. lia.
Qed.
