(* ===== verification/Liberacion.v ===== *)
(** * Liberacion: removing an item

    [diccionario_eliminar] of the dynamic partitions against the invariant of
    the storage: the item's partition is joined with the free ones in front of
    it, and the invariant holds again, as long as the partition behind it is
    in use or is the last one.  Otherwise the element that follows keeps a
    pointer to a node that is not in the list any more, and its own deletion
    never ends. *)

From S2P Require Import Prelude Memory Diccionario Dinamicas Particiones.

Implicit Types (h : gmap nat t_dict_element) (l fl : list nat) (s : rc) (e : t_dict_element).

(** ** Joining two partitions *)

(** The heap after [x] is joined to [a], the partition in front of it, and
    put in front of the free nodes, whose first one is [nd]. *)
Definition join_heap h (a x : nat) (ea ex : t_dict_element) (nd : option nat) :=
  alter_if (set_prev (Some x)) nd
  (alter (set_next nd) x
  (alter (set_prev None) x
  (alter_if (set_prev (Some a)) (next ex)
  (alter (set_next (next ex)) a
  (alter (set_chunk_size 0) x
  (alter (set_chunk_size (chunk_size ea + chunk_size ex)) a h)))))).

Record joined h l1 (a x : nat) l2 fl ea ex (nd : option nat) : Prop := {
  jo_a : h !! a = Some ea;
  jo_x : h !! x = Some ex;
  jo_nodup : NoDup ((l1 ++ a :: x :: l2) ++ fl);
  jo_next : forall w, next ex = Some w -> w ∈ l2;
  jo_nodes : nd = head fl
}.

Section Join.
Variables (h : gmap nat t_dict_element) (l1 : list nat) (a x : nat) (l2 fl : list nat)
  (ea ex : t_dict_element) (nd : option nat).
Hypothesis Hjoin : joined h l1 a x l2 fl ea ex nd.

Lemma jo_ne : a <> x.
Proof using Hjoin.
  pose proof (jo_nodup _ _ _ _ _ _ _ _ _ Hjoin) as (Hnd & _ & _)%NoDup_app.
  apply NoDup_app in Hnd as (_ & _ & [Ha _]%NoDup_cons). intros ->. apply Ha. by left.
Qed.

Lemma jo_distinct w : w ∈ l1 \/ w ∈ l2 \/ w ∈ fl -> w <> a /\ w <> x.
Proof using Hjoin.
  pose proof (jo_nodup _ _ _ _ _ _ _ _ _ Hjoin) as (Hnd1 & Hdis & _)%NoDup_app.
  apply NoDup_app in Hnd1 as (_ & Hd1 & [Hx [Hn _]%NoDup_cons]%NoDup_cons).
  intros [Hw|[Hw|Hw]]; split; intros ->.
  - apply (Hd1 _ Hw). by left.
  - apply (Hd1 _ Hw). right. by left.
  - apply Hx. by right.
  - done.
  - apply (Hdis a); [|done]. apply elem_of_app. right. by left.
  - apply (Hdis x); [|done]. apply elem_of_app. right. right. by left.
Qed.

Lemma jo_next_not w : w ∈ l1 \/ w = a \/ w = x \/ w ∈ fl -> next ex <> Some w.
Proof using Hjoin.
  intros Hw E%(jo_next _ _ _ _ _ _ _ _ _ Hjoin).
  destruct (jo_distinct w) as [Ha Hx]; [tauto|].
  pose proof (jo_nodup _ _ _ _ _ _ _ _ _ Hjoin) as (Hnd1 & Hdis & _)%NoDup_app.
  apply NoDup_app in Hnd1 as (_ & Hd1 & _).
  destruct Hw as [Hw|[Hw|[Hw|Hw]]]; [|done|done|].
  - apply (Hd1 w Hw). right. by right.
  - apply (Hdis w); [|done]. apply elem_of_app. right. right. by right.
Qed.

Lemma jo_nodes_not w : w ∈ l1 \/ w ∈ l2 \/ w = a \/ w = x -> nd <> Some w.
Proof using Hjoin.
  intros Hw E. assert (w ∈ fl) as Hfl.
  { rewrite (jo_nodes _ _ _ _ _ _ _ _ _ Hjoin) in E. destruct fl; [done|]. injection E as ->. by left. }
  destruct (jo_distinct w) as [Ha Hx]; [tauto|].
  pose proof (jo_nodup _ _ _ _ _ _ _ _ _ Hjoin) as (_ & Hdis & _)%NoDup_app.
  destruct Hw as [Hw|[Hw|[Hw|Hw]]]; [| |done|done]; apply (Hdis w); try done; apply elem_of_app.
  - by left.
  - right. right. by right.
Qed.

Lemma jo_lookup :
  join_heap h a x ea ex nd !! a
  = Some (set_next (next ex) (set_chunk_size (chunk_size ea + chunk_size ex) ea)) /\
  join_heap h a x ea ex nd !! x = Some (set_next nd (set_prev None (set_chunk_size 0 ex))).
Proof using Hjoin.
  pose proof jo_ne as Hne. unfold join_heap. split.
  - rewrite lookup_alter_if_ne by (apply jo_nodes_not; tauto).
    rewrite !(lookup_alter_ne _ _ x) by done.
    rewrite lookup_alter_if_ne by (apply jo_next_not; tauto).
    rewrite lookup_alter_eq, lookup_alter_ne, lookup_alter_eq by done.
    by rewrite (jo_a _ _ _ _ _ _ _ _ _ Hjoin).
  - rewrite lookup_alter_if_ne by (apply jo_nodes_not; tauto).
    rewrite !lookup_alter_eq. rewrite lookup_alter_if_ne by (apply jo_next_not; tauto).
    rewrite lookup_alter_ne, lookup_alter_eq, lookup_alter_ne by done.
    by rewrite (jo_x _ _ _ _ _ _ _ _ _ Hjoin).
Qed.

Lemma jo_items w : w <> a -> w <> x -> item_at (join_heap h a x ea ex nd) w = item_at h w.
Proof using.
  intros Ha Hx. unfold join_heap. rewrite item_alter_if by done.
  rewrite !(item_alter_ne _ x) by done. rewrite item_alter_if by done.
  by rewrite !(item_alter_ne _ a), !(item_alter_ne _ x), !(item_alter_ne _ a) by done.
Qed.

Lemma jo_links w :
  w <> a -> w <> x -> next ex <> Some w ->
  snd <$> links (join_heap h a x ea ex nd) w = snd <$> links h w /\
  (nd <> Some w -> links (join_heap h a x ea ex nd) w = links h w).
Proof using.
  intros Ha Hx Hn. assert (links (alter (set_next nd) x (alter (set_prev None) x
      (alter_if (set_prev (Some a)) (next ex) (alter (set_next (next ex)) a
      (alter (set_chunk_size 0) x (alter (set_chunk_size (chunk_size ea + chunk_size ex)) a h)))))) w
    = links h w) as E.
  { rewrite !(links_alter_ne _ x) by done. rewrite links_alter_if by (intros y Hy ->; done).
    by rewrite (links_alter_ne _ a), (links_alter_ne _ x), (links_alter_ne _ a) by done. }
  unfold join_heap. split.
  - rewrite next_alter_if by done. by rewrite E.
  - intros Hnd. rewrite links_alter_if; [done|]. by intros y Hy ->.
Qed.

Lemma jo_dlseg p :
  dlseg h None p (l1 ++ a :: x :: l2) None -> dlseg (join_heap h a x ea ex nd) None p (l1 ++ a :: l2) None.
Proof using Hjoin.
  intros (q & H1 & -> & r & Hr & -> & r' & Hr' & H2)%dlseg_app. destruct jo_lookup as [La Lx].
  apply dlseg_app. exists (Some a). split.
  { eapply dlseg_ext; [|exact H1]. intros w Hw. destruct (jo_distinct w) as [Ha Hx]; [tauto|].
    apply jo_links; [done..|apply jo_next_not; tauto|apply jo_nodes_not; tauto]. }
  unfold links in Hr, Hr'. rewrite (jo_a _ _ _ _ _ _ _ _ _ Hjoin) in Hr.
  rewrite (jo_x _ _ _ _ _ _ _ _ _ Hjoin) in Hr'. injection Hr as Hp _. injection Hr' as _ Hr'.
  split; [done|]. exists r'. split; [unfold links; rewrite La; cbn; by rewrite Hp, Hr'|].
  assert (l2 = [] \/ exists z l, l2 = z :: l) as [E2|(z & l2' & E2)] by (destruct l2; eauto).
  { rewrite E2 in *. by destruct H2. }
  rewrite E2 in H2 |- *. destruct H2 as (Er & q' & Hq' & H2).
  assert (forall w, w ∈ z :: l2' -> w ∈ l2) as Hin by (by rewrite E2).
  destruct (jo_distinct z) as [Hza Hzx]; [right; left; apply Hin; by left|].
  assert (NoDup (z :: l2')) as [Hz2 _]%NoDup_cons.
  { rewrite <- E2. by pose proof (jo_nodup _ _ _ _ _ _ _ _ _ Hjoin) as
      ((_ & _ & [_ [_ ?]%NoDup_cons]%NoDup_cons)%NoDup_app & _ & _)%NoDup_app. }
  split; [done|]. exists q'. rewrite Er in Hr'. split.
  - unfold join_heap. rewrite links_alter_if.
    2: { intros y Hy ->. apply (jo_nodes_not z); [right; left; apply Hin; by left|done]. }
    rewrite !(links_alter_ne _ x) by done. rewrite Hr'. cbn [alter_if].
    rewrite links_alter, decide_True by done. rewrite !lookup_alter_ne by done.
    unfold links in Hq'. destruct (h !! z); [|done]. injection Hq' as _ Hq'. simpl. by rewrite Hq'.
  - eapply dlseg_ext; [|exact H2]. intros w Hw.
    destruct (jo_distinct w) as [Ha Hx]; [right; left; apply Hin; by right|].
    apply jo_links; [done..| |apply jo_nodes_not; right; left; apply Hin; by right].
    rewrite Hr'. by intros [= ->].
Qed.

Lemma jo_slseg : slseg h (head fl) fl -> slseg (join_heap h a x ea ex nd) (Some x) (x :: fl).
Proof using Hjoin.
  intros Hf. destruct jo_lookup as [_ Lx]. split; [done|]. exists nd. split.
  - unfold links. by rewrite Lx.
  - rewrite (jo_nodes _ _ _ _ _ _ _ _ _ Hjoin) at 2. eapply slseg_ext; [|exact Hf].
    intros w Hw. destruct (jo_distinct w) as [Ha Hx]; [tauto|].
    apply jo_links; [done..|apply jo_next_not; tauto].
Qed.

Lemma jo_tiles b :
  tiles h 0 (l1 ++ a :: x :: l2) b -> tiles (join_heap h a x ea ex nd) 0 (l1 ++ a :: l2) b.
Proof using Hjoin.
  intros (c & Ht1 & e1 & He1 & Hd1 & Hc1 & e2 & He2 & Hd2 & Hc2 & Ht2)%tiles_app.
  destruct jo_lookup as [La _]. pose proof (jo_a _ _ _ _ _ _ _ _ _ Hjoin) as Ha.
  pose proof (jo_x _ _ _ _ _ _ _ _ _ Hjoin) as Hx.
  assert (e1 = ea) as -> by congruence. assert (e2 = ex) as -> by congruence.
  apply tiles_app. exists c. split.
  { eapply tiles_ext; [|exact Ht1]. intros w Hw. destruct (jo_distinct w); [tauto|]. by apply jo_items. }
  eexists. split; [exact La|]. cbn. split_and!; [done|lia|].
  rewrite Z.add_assoc. eapply tiles_ext; [|exact Ht2].
  intros w Hw. destruct (jo_distinct w); [tauto|]. by apply jo_items.
Qed.

Lemma jo_used : data_size ex = 0 ->
  used (join_heap h a x ea ex nd) (l1 ++ a :: l2) = used h (l1 ++ a :: x :: l2).
Proof using Hjoin.
  intros Hd. destruct jo_lookup as [La _]. rewrite !used_app, (used_cons _ _ _ _ La).
  rewrite (used_cons _ _ _ _ (jo_a _ _ _ _ _ _ _ _ _ Hjoin)), (used_cons _ _ _ _ (jo_x _ _ _ _ _ _ _ _ _ Hjoin)).
  rewrite (used_ext h _ l1), (used_ext h _ l2); [cbn; lia| |];
    intros w Hw; destruct (jo_distinct w); try tauto; by apply jo_items.
Qed.
End Join.

(** ** The invariant after a join *)

(** An element that holds nothing. *)
Definition empty e : Prop := ocupado e = false /\ nkey e = 0 /\ data_size e = 0.

Definition join_state (a x : nat) (ea ex : t_dict_element) s : rc :=
  with_dic (set_nodes (Some x) (dic s)) (with_heap (join_heap (heap s) a x ea ex (nodes (dic s))) s).

Lemma partitioned_joined s l1 a x l2 fl ea ex :
  partitioned s (l1 ++ a :: x :: l2) fl -> heap s !! a = Some ea -> heap s !! x = Some ex ->
  joined (heap s) l1 a x l2 fl ea ex (nodes (dic s)).
Proof.
  intros [Hl Hf Hnd _ _ _ _] Ha Hx. split; try done; [|by eapply slseg_head].
  intros w Hw. apply dlseg_app in Hl as (r & _ & _ & r' & _ & Hl).
  by eapply dlseg_next_in.
Qed.

Lemma partitioned_join s l1 a x l2 fl ea ex :
  partitioned s (l1 ++ a :: x :: l2) fl -> heap s !! a = Some ea -> heap s !! x = Some ex -> empty ex ->
  partitioned (join_state a x ea ex s) (l1 ++ a :: l2) (x :: fl).
Proof.
  intros Hp Ha Hx (Ho & Hn & Hd). pose proof (partitioned_joined _ _ _ _ _ _ _ _ Hp Ha Hx) as Hj.
  pose proof Hp as [Hl Hf Hnd Ht Hus Hel Hid].
  destruct (jo_lookup _ _ _ _ _ _ _ _ _ Hj) as [La Lx].
  assert (Hitems : forall w e, w ∈ l1 \/ w ∈ l2 \/ w ∈ fl ->
    join_heap (heap s) a x ea ex (nodes (dic s)) !! w = Some e ->
    exists e0, heap s !! w = Some e0 /\ item_of e0 = item_of e).
  { intros w e Hw He. destruct (jo_distinct _ _ _ _ _ _ _ _ _ Hj w Hw) as [Hwa Hwx].
    destruct (item_at_lookup _ (heap s) w e (eq_sym (jo_items (heap s) a x ea ex (nodes (dic s)) w Hwa Hwx)) He)
      as (e0 & He0 & Hi). eauto. }
  split; cbn [heap dic join_state with_heap with_dic elements nodes table_max_size table_current_size set_nodes].
  - by eapply jo_dlseg.
  - eapply jo_slseg; [done|]. by rewrite <- (slseg_head _ _ _ Hf).
  - assert ((l1 ++ a :: l2) ++ x :: fl ≡ₚ (l1 ++ a :: x :: l2) ++ fl) as ->; [|done].
    rewrite <- !app_assoc. cbn [app]. by rewrite (Permutation_middle l2 fl x).
  - by eapply jo_tiles.
  - by rewrite (jo_used _ _ _ _ _ _ _ _ _ Hj Hd).
  - intros w e Hw He. apply elem_of_app in Hw as [Hw|[->|Hw]%elem_of_cons].
    + destruct (Hitems w e ltac:(tauto) He) as (e0 & He0 & Hi). eapply element_ok_item; [exact Hi|].
      apply (Hel w); [apply elem_of_app; by left|done].
    + rewrite La in He. injection He as <-. change (element_ok ea).
      apply (Hel a); [apply elem_of_app; right; by left|done].
    + destruct (Hitems w e ltac:(tauto) He) as (e0 & He0 & Hi). eapply element_ok_item; [exact Hi|].
      apply (Hel w); [apply elem_of_app; right; right; by right|done].
  - intros w e [->|Hw]%elem_of_cons He.
    + rewrite Lx in He. injection He as <-. split; [done|]. change (element_ok ex).
      apply (Hel x); [apply elem_of_app; right; right; by left|done].
    + destruct (Hitems w e ltac:(tauto) He) as (e0 & He0 & Hi).
      destruct (Hid w e0 Hw He0) as [(H1 & H2 & H3 & H4) Hok].
      split; [|by eapply element_ok_item]. 
      pose proof (f_equal chunk_size Hi). pose proof (f_equal ocupado Hi).
      pose proof (f_equal nkey Hi). pose proof (f_equal data_size Hi). cbn in *. unfold idle. intuition congruence.
Qed.

(** ** The loops *)

Lemma release_run x s :
  is_Some (heap s !! x) -> (forall y, nodes (dic s) = Some y -> is_Some (heap s !! y)) ->
  release_node x s = Ok (tt, with_dic (set_nodes (Some x) (dic s))
    (with_heap (alter_if (set_prev (Some x)) (nodes (dic s)) (alter (set_next (nodes (dic s))) x (heap s))) s)).
Proof.
  intros Hx Hy. unfold release_node, get_dic, set_dic. rewrite (bind_ok _ _ s (dic s) s) by done.
  erewrite bind_ok by (apply set_at_alter; heap_some).
  erewrite bind_ok by (apply set_if_alter; intros y ?; heap_some). done.
Qed.

Lemma anterior_run s a x ea ex fuel :
  heap s !! a = Some ea -> heap s !! x = Some ex -> prev ex = Some a -> ocupado ea = false ->
  (forall y, next ex = Some y \/ nodes (dic s) = Some y -> is_Some (heap s !! y)) ->
  join_anterior (Datatypes.S fuel) x s = join_anterior fuel a (join_state a x ea ex s).
Proof.
  intros Ha Hx Hprev Ho Hsome. cbn [join_anterior]. rewrite (bind_ok _ _ _ _ _ (at_ok _ _ _ Hx)), Hprev.
  rewrite (bind_ok _ _ _ _ _ (at_ok _ _ _ Ha)), Ho.
  assert (is_Some (heap s !! a) /\ is_Some (heap s !! x)) as [Ia Ix] by (split; eauto).
  do 3 erewrite bind_ok by (apply set_at_alter; heap_some).
  erewrite bind_ok by (apply set_if_alter; intros y ?; heap_some).
  erewrite bind_ok by (apply set_at_alter; heap_some).
  erewrite bind_ok by (apply release_run; [heap_some|intros y ?; heap_some]). done.
Qed.

(** The other loop does not correct the [prev] behind the joined partition. *)
Definition posterior_state (a x : nat) (ea ex : t_dict_element) s : rc :=
  with_dic (set_nodes (Some x) (dic s))
    (with_heap (alter_if (set_prev (Some x)) (nodes (dic s))
      (alter (set_next (nodes (dic s))) x
      (alter (set_prev None) x
      (alter (set_next (next ex)) a
      (alter (set_chunk_size 0) x
      (alter (set_chunk_size (chunk_size ea + chunk_size ex)) a (heap s))))))) s).

Lemma posterior_run s a x ea ex fuel :
  heap s !! a = Some ea -> heap s !! x = Some ex -> next ea = Some x -> ocupado ex = false ->
  (forall y, nodes (dic s) = Some y -> is_Some (heap s !! y)) ->
  join_posterior (Datatypes.S fuel) a s = join_posterior fuel a (posterior_state a x ea ex s).
Proof.
  intros Ha Hx Hnext Ho Hsome. cbn [join_posterior]. rewrite (bind_ok _ _ _ _ _ (at_ok _ _ _ Ha)), Hnext.
  rewrite (bind_ok _ _ _ _ _ (at_ok _ _ _ Hx)), Ho.
  assert (is_Some (heap s !! a) /\ is_Some (heap s !! x)) as [Ia Ix] by (split; eauto).
  do 4 erewrite bind_ok by (apply set_at_alter; heap_some).
  by erewrite bind_ok by (apply release_run; [heap_some|intros y ?; heap_some]).
Qed.

Lemma partitioned_nodes_some s l fl y : partitioned s l fl -> nodes (dic s) = Some y -> y ∈ fl /\ is_Some (heap s !! y).
Proof.
  intros Hp Hy. pose proof (pa_free _ _ _ Hp) as Hf. rewrite (slseg_head _ _ _ Hf) in Hy.
  assert (y ∈ fl) as Hin by (destruct fl; [done|]; injection Hy as ->; by left).
  split; [done|]. by eapply slseg_elem.
Qed.

Lemma prev_of_middle s l1 x l2 fl e :
  partitioned s (l1 ++ x :: l2) fl -> heap s !! x = Some e -> prev e = last l1 /\ next e = head l2.
Proof.
  intros Hp Hx. pose proof (pa_list _ _ _ Hp) as (q & _ & _ & r & Hr & H2)%dlseg_app.
  unfold links in Hr. rewrite Hx in Hr. injection Hr as Hprev Hnext. split.
  - rewrite Hprev. unfold last_of. by destruct (last l1).
  - rewrite Hnext. by eapply dlseg_head.
Qed.

Lemma anterior_step s l1 a x l2 fl ea ex fuel :
  partitioned s (l1 ++ a :: x :: l2) fl -> heap s !! a = Some ea -> heap s !! x = Some ex ->
  ocupado ea = false ->
  join_anterior (Datatypes.S fuel) x s = join_anterior fuel a (join_state a x ea ex s).
Proof.
  intros Hp Ha Hx Ho. pose proof (partitioned_joined _ _ _ _ _ _ _ _ Hp Ha Hx) as Hj.
  pose proof Hp as Hp'. rewrite (app_assoc l1 [a] (x :: l2) : l1 ++ a :: x :: l2 = _) in Hp'.
  destruct (prev_of_middle _ _ _ _ _ _ Hp' Hx) as [Hprev _]. rewrite last_snoc in Hprev.
  apply anterior_run; [done..|]. intros y [Hy|Hy].
  - eapply dlseg_elem; [apply (pa_list _ _ _ Hp)|]. apply elem_of_app. right. right. right.
    by apply (jo_next _ _ _ _ _ _ _ _ _ Hj).
  - by eapply partitioned_nodes_some.
Qed.

Lemma posterior_step s l1 a x fl ea ex fuel :
  partitioned s (l1 ++ [a; x]) fl -> heap s !! a = Some ea -> heap s !! x = Some ex ->
  ocupado ex = false ->
  join_posterior (Datatypes.S fuel) a s = join_posterior fuel a (join_state a x ea ex s).
Proof.
  intros Hp Ha Hx Ho. destruct (prev_of_middle _ _ _ _ _ _ Hp Ha) as [_ Hna].
  pose proof Hp as Hp'. rewrite (app_assoc l1 [a] [x] : l1 ++ [a; x] = _) in Hp'.
  destruct (prev_of_middle _ _ _ _ _ _ Hp' Hx) as [_ Hnx]. cbn [head] in Hna, Hnx.
  rewrite (posterior_run s a x ea ex) by (done || by intros; eapply partitioned_nodes_some).
  unfold posterior_state, join_state, join_heap. by rewrite Hnx.
Qed.

(** Nothing reserved: a partition that is not in use has no key. *)
Definition settled h l : Prop := forall y e, y ∈ l -> h !! y = Some e -> ocupado e = false -> empty e.

(** The state after free partitions are joined: only the list and the items
    of partitions that were not in use are different. *)
Definition merged s s' : Prop :=
  memoria s' = memoria s /\ clock s' = clock s /\
  table_current_size (dic s') = table_current_size (dic s) /\ size (heap s') = size (heap s).

Lemma size_alter (f : t_dict_element -> t_dict_element) p h : size (alter f p h) = size h.
Proof. by rewrite <- !size_dom, dom_alter_L. Qed.

Lemma merged_join a x ea ex s : merged s (join_state a x ea ex s).
Proof.
  split_and!; try done. cbn [heap join_state with_heap with_dic]. unfold join_heap, alter_if.
  by destruct (nodes (dic s)), (next ex); rewrite !size_alter.
Qed.

Lemma merged_trans s1 s2 s3 : merged s1 s2 -> merged s2 s3 -> merged s1 s3.
Proof. unfold merged. intuition congruence. Qed.

(** An empty partition stays empty when it grows. *)
Lemma join_state_a s l1 a x l2 fl ea ex :
  partitioned s (l1 ++ a :: x :: l2) fl -> heap s !! a = Some ea -> heap s !! x = Some ex -> empty ea ->
  exists e, heap (join_state a x ea ex s) !! a = Some e /\ empty e /\
    chunk_size e = chunk_size ea + chunk_size ex.
Proof.
  intros Hp Ha Hx He. destruct (jo_lookup _ _ _ _ _ _ _ _ _ (partitioned_joined _ _ _ _ _ _ _ _ Hp Ha Hx)) as [La _].
  eexists. split; [exact La|done].
Qed.

Lemma settled_join s l1 a x l2 fl ea ex k :
  partitioned s (l1 ++ a :: x :: l2) fl -> heap s !! a = Some ea -> heap s !! x = Some ex ->
  (forall w, w ∈ k -> w ∈ l1 \/ w ∈ l2) -> settled (heap s) k -> settled (heap (join_state a x ea ex s)) k.
Proof.
  intros Hp Ha Hx Hk Hs w e Hw He Ho. pose proof (partitioned_joined _ _ _ _ _ _ _ _ Hp Ha Hx) as Hj.
  destruct (jo_distinct _ _ _ _ _ _ _ _ _ Hj w) as [Hwa Hwx]; [destruct (Hk w Hw); tauto|].
  pose proof (jo_items (heap s) a x ea ex (nodes (dic s)) w Hwa Hwx) as Hi.
  destruct (item_at_lookup _ (heap s) w e (eq_sym Hi) He) as (e0 & He0 & Hi0).
  pose proof (f_equal ocupado Hi0). pose proof (f_equal nkey Hi0). pose proof (f_equal data_size Hi0).
  cbn in *. destruct (Hs w e0 Hw He0) as (E1 & E2 & E3); [congruence|]. split_and!; congruence.
Qed.

(** The flag and the sizes of partitions. *)
Definition occupied h (x : nat) : option bool := ocupado <$> h !! x.
Definition chunks h l : Z := foldr (fun x n => default 0 (chunk_size <$> h !! x) + n) 0 l.

Lemma chunks_app h l1 l2 : chunks h (l1 ++ l2) = chunks h l1 + chunks h l2.
Proof. unfold chunks. induction l1 as [|x l1 IH]; [done|]. cbn [app foldr]. rewrite IH. lia. Qed.

Lemma chunks_cons h x e l : h !! x = Some e -> chunks h (x :: l) = chunk_size e + chunks h l.
Proof. intros Hx. unfold chunks. cbn [foldr]. by rewrite Hx. Qed.

Lemma chunks_one h x e : h !! x = Some e -> chunks h [x] = chunk_size e.
Proof. intros Hx. rewrite (chunks_cons _ _ _ _ Hx). cbn [chunks foldr]. lia. Qed.

Lemma item_occupied h h' w : item_at h' w = item_at h w -> occupied h' w = occupied h w.
Proof.
  unfold item_at, occupied. intros E. destruct (h' !! w), (h !! w); try done. injection E as E.
  cbn. by f_equal.
Qed.

Lemma chunks_ext h h' l : (forall w, w ∈ l -> item_at h' w = item_at h w) -> chunks h' l = chunks h l.
Proof.
  induction l as [|x l IH]; intros Hl; [done|]. unfold chunks in *. cbn [foldr].
  rewrite IH by (intros w Hw; apply Hl; by right). f_equal.
  specialize (Hl x ltac:(by left)). unfold item_at in Hl. destruct (h' !! x), (h !! x); try done.
  apply (inj Some) in Hl. exact (f_equal chunk_size Hl).
Qed.

(** [r] are free partitions, and the one at [o] is in use, if there is one. *)
Definition free_run h (r : list nat) (o : option nat) : Prop :=
  (forall w, w ∈ r -> occupied h w = Some false) /\ (forall w, o = Some w -> occupied h w = Some true).

Lemma free_run_ext h h' r o :
  (forall w, w ∈ r \/ o = Some w -> item_at h' w = item_at h w) -> free_run h' r o -> free_run h r o.
Proof.
  intros Hi [H1 H2]. split; intros w Hw.
  - rewrite <- (item_occupied h h') by auto. by apply H1.
  - rewrite <- (item_occupied h h') by auto. by apply H2.
Qed.

Lemma last_elem (l : list nat) w : last l = Some w -> w ∈ l.
Proof. intros (l' & ->)%last_Some. apply elem_of_app. right. by left. Qed.

Lemma join_anterior_ok fuel s l1 x l2 fl e :
  partitioned s (l1 ++ x :: l2) fl -> heap s !! x = Some e -> empty e -> settled (heap s) l1 ->
  (length l1 < fuel)%nat ->
  exists l1' r y s' fl' e', join_anterior fuel x s = Ok (y, s') /\
    (l1 = l1' ++ r /\ head (r ++ [x]) = Some y /\ free_run (heap s) r (last l1')) /\
    partitioned s' (l1' ++ y :: l2) fl' /\ heap s' !! y = Some e' /\ empty e' /\
    chunk_size e' = chunks (heap s) (r ++ [x]) /\
    merged s s' /\ (forall w, w ∈ l1' \/ w ∈ l2 -> item_at (heap s') w = item_at (heap s) w).
Proof.
  revert s l1 x fl e. induction fuel as [|fuel IH]; intros s l1 x fl e Hp Hx He Hset Hf; [lia|].
  destruct (prev_of_middle _ _ _ _ _ _ Hp Hx) as [Hprev _].
  destruct l1 as [|a l0 _] using rev_ind.
  { exists [], [], x, s, fl, e. split_and!; try done; [|split; [intros ? []%not_elem_of_nil|done]|by cbn [app]; rewrite (chunks_one _ _ _ Hx)].
    cbn [join_anterior]. by rewrite (bind_ok _ _ _ _ _ (at_ok _ _ _ Hx)), Hprev. }
  rewrite last_snoc in Hprev.
  assert (a ∈ (l0 ++ [a]) ++ x :: l2) as Hain by (rewrite !elem_of_app, elem_of_cons; left; right; by left).
  destruct (dlseg_elem _ _ _ _ _ a (pa_list _ _ _ Hp) Hain) as [ea Ha].
  destruct (ocupado ea) eqn:Hoa.
  { exists (l0 ++ [a]), [], x, s, fl, e. split_and!; try done; [|by rewrite app_nil_r| |by cbn [app]; rewrite (chunks_one _ _ _ Hx)].
    - cbn [join_anterior]. rewrite (bind_ok _ _ _ _ _ (at_ok _ _ _ Hx)), Hprev.
      by rewrite (bind_ok _ _ _ _ _ (at_ok _ _ _ Ha)), Hoa.
    - split; [intros ? []%not_elem_of_nil|]. rewrite last_snoc. intros w [= <-]. unfold occupied. by rewrite Ha; cbn; rewrite Hoa. }
  assert (empty ea) as Hea by (apply (Hset a ea); [apply elem_of_app; right; by left|done|done]).
  rewrite <- app_assoc in Hp. cbn [app] in Hp.
  rewrite (anterior_step s l0 a x l2 fl ea e fuel Hp Ha Hx Hoa).
  pose proof (partitioned_join _ _ _ _ _ _ _ _ Hp Ha Hx He) as Hp1.
  pose proof (partitioned_joined _ _ _ _ _ _ _ _ Hp Ha Hx) as Hj.
  destruct (join_state_a _ _ _ _ _ _ _ _ Hp Ha Hx Hea) as (ea1 & Ha1 & Hea1 & Hc1).
  assert (forall w, w ∈ l0 \/ w ∈ l2 -> item_at (heap (join_state a x ea e s)) w = item_at (heap s) w) as Hit.
  { intros w Hw. destruct (jo_distinct _ _ _ _ _ _ _ _ _ Hj w); [tauto|]. by apply jo_items. }
  destruct (IH (join_state a x ea e s) l0 a (x :: fl) ea1 Hp1 Ha1 Hea1) as
    (l1' & r & y & s' & fl' & e' & Hrun & (-> & Hh & Hr) & Hp' & Hy & Hey & Hce & Hmer & Hkept).
  { eapply settled_join; [exact Hp|done|done|tauto|]. intros w ew Hw. apply Hset, elem_of_app. by left. }
  { rewrite length_app in Hf. simpl in Hf. lia. }
  assert (forall w, w ∈ r \/ last l1' = Some w -> item_at (heap (join_state a x ea e s)) w = item_at (heap s) w) as Hit'.
  { intros w Hw. apply Hit. left. apply elem_of_app. destruct Hw as [?|?%last_elem]; tauto. }
  exists l1', (r ++ [a]), y, s', fl', e'. split_and!; try done.
  - by rewrite app_assoc.
  - by destruct r.
  - destruct (free_run_ext _ _ _ _ Hit' Hr) as [H1 H2]. split; [|done].
    intros w [Hw| ->%list_elem_of_singleton]%elem_of_app; [by apply H1|]. unfold occupied. by rewrite Ha; cbn; rewrite Hoa.
  - rewrite Hce, !chunks_app, (chunks_one _ _ _ Ha1), (chunks_one _ _ _ Ha), (chunks_one _ _ _ Hx), Hc1.
    rewrite (chunks_ext (heap s)) by auto. lia.
  - eapply merged_trans; [apply merged_join|done].
  - intros w Hw. rewrite Hkept by done. apply Hit. destruct Hw; [left; apply elem_of_app|]; tauto.
Qed.

(** ** The item that is removed *)

Definition cleared (k : list Z) e : t_dict_element :=
  set_data_size 0 (set_ocupado false (set_flags 0 (set_nkey 0 (set_hour 0 (set_key (Some (0 :: drop 1 k)) e))))).

Lemma cleared_ok s l fl x e k :
  partitioned s l fl -> x ∈ l -> heap s !! x = Some e -> key e = Some k -> element_ok (cleared k e).
Proof.
  intros Hp Hin Hx Hk. destruct (pa_elements _ _ _ Hp x e Hin Hx) as [_ (k' & Hk' & Hlen)].
  assert (k' = k) as -> by congruence. split; [done|]. exists (0 :: drop 1 k). split; [done|].
  unfold zlen, KEY_SIZE_MAX in *. simpl length. rewrite length_drop. lia.
Qed.

Lemma clear_item_run s x e k :
  heap s !! x = Some e -> key e = Some k -> zlen k = KEY_SIZE_MAX ->
  clear_item x s = Ok (tt, with_item x (cleared k) (- data_size e) s).
Proof.
  intros Hx Hk Hlen. unfold clear_item, set_dic, modify. rewrite (bind_ok _ _ _ _ _ (at_ok _ _ _ Hx)).
  erewrite bind_ok by done. erewrite bind_ok.
  2: { unfold set_key_at. erewrite bind_ok by (apply at_ok; exact Hx). unfold key_write. rewrite Hk.
       cbn [mbind option_bind]. rewrite Hlen. reflexivity. }
  rewrite set_at_alter by (cbn [heap with_heap with_dic]; rewrite lookup_insert_eq; eauto).
  do 2 f_equal. unfold with_item, with_heap, with_dic. cbn [heap dic memoria clock].
  f_equal. apply map_eq. intros w. destruct (decide (x = w)) as [<-|Hne].
  - rewrite lookup_alter_eq, lookup_insert_eq, lookup_alter_eq, Hx. done.
  - by rewrite lookup_alter_ne, lookup_insert_ne, lookup_alter_ne by done.
Qed.

Lemma clear_item_ok s l fl x e :
  partitioned s l fl -> x ∈ l -> heap s !! x = Some e ->
  exists k, key e = Some k /\
    clear_item x s = Ok (tt, with_item x (cleared k) (- data_size e) s) /\
    partitioned (with_item x (cleared k) (- data_size e) s) l fl.
Proof.
  intros Hp Hin Hx. destruct (pa_elements _ _ _ Hp x e Hin Hx) as [_ (k & Hk & Hlen)].
  exists k. split_and!; [done|by apply clear_item_run|].
  apply (partitioned_update s l fl x e); try done; [cbn; lia|]. by apply (cleared_ok s l fl x e).
Qed.

(** The partition behind [x] is in use, or it is the last one. *)
Definition behind_ok h l2 : Prop :=
  match l2 with
  | z :: _ :: _ => exists ez, h !! z = Some ez /\ ocupado ez = true
  | _ => True
  end.

Lemma join_posterior_stop fuel s l1 y l2 fl e :
  partitioned s (l1 ++ y :: l2) fl -> heap s !! y = Some e ->
  match l2 with z :: _ => exists ez, heap s !! z = Some ez /\ ocupado ez = true | [] => True end ->
  join_posterior (Datatypes.S fuel) y s = Ok (y, s).
Proof.
  intros Hp Hy Hl2. destruct (prev_of_middle _ _ _ _ _ _ Hp Hy) as [_ Hnext].
  cbn [join_posterior]. rewrite (bind_ok _ _ _ _ _ (at_ok _ _ _ Hy)), Hnext.
  destruct l2 as [|z l2]; [done|]. destruct Hl2 as (ez & Hz & Ho). cbn [head].
  by rewrite (bind_ok _ _ _ _ _ (at_ok _ _ _ Hz)), Ho.
Qed.

Lemma join_posterior_ok fuel s l1 y l2 fl e :
  partitioned s (l1 ++ y :: l2) fl -> heap s !! y = Some e -> empty e -> settled (heap s) l2 ->
  behind_ok (heap s) l2 ->
  exists r l2' s' fl' e', join_posterior (Datatypes.S (Datatypes.S fuel)) y s = Ok (y, s') /\
    (l2 = r ++ l2' /\ free_run (heap s) r (head l2')) /\
    partitioned s' (l1 ++ y :: l2') fl' /\ heap s' !! y = Some e' /\ empty e' /\
    chunk_size e' = chunk_size e + chunks (heap s) r /\
    merged s s' /\ (forall w, w ∈ l1 \/ w ∈ l2' -> item_at (heap s') w = item_at (heap s) w).
Proof.
  intros Hp Hy He Hset Hb. set (used_or_none := match l2 with z :: _ => exists ez, heap s !! z = Some ez /\ ocupado ez = true | [] => True end).
  assert (used_or_none \/ exists z ez, l2 = [z] /\ heap s !! z = Some ez /\ ocupado ez = false) as [Hl2|(z & ez & -> & Hz & Hoz)].
  { subst used_or_none. destruct l2 as [|z [|z' l2]]; [by left| |by left].
    assert (z ∈ l1 ++ [y; z]) as Hzin by (rewrite elem_of_app, !elem_of_cons; tauto).
    destruct (dlseg_elem _ _ _ _ _ z (pa_list _ _ _ Hp) Hzin) as [ez Hz].
    destruct (ocupado ez) eqn:E; [left|right]; eauto. }
  - exists [], l2, s, fl, e. split_and!; try done; [by eapply join_posterior_stop| |cbn; lia].
    split; [intros ? []%not_elem_of_nil|]. intros w Hw. subst used_or_none. destruct l2 as [|z l2]; [done|].
    injection Hw as ->. destruct Hl2 as (ez & Hz & Hoz). unfold occupied. by rewrite Hz; cbn; rewrite Hoz.
  - assert (empty ez) as Hez by (apply (Hset z ez); [by left|done|done]).
    pose proof (partitioned_join _ _ _ _ _ _ _ _ Hp Hy Hz Hez) as Hp1.
    destruct (join_state_a _ _ _ _ _ _ _ _ Hp Hy Hz He) as (e1 & Hy1 & He1 & Hc1).
    exists [z], [], (join_state y z e ez s), (z :: fl), e1. split_and!; try done.
    + rewrite (posterior_step s l1 y z fl e ez _ Hp Hy Hz Hoz). by eapply join_posterior_stop.
    + split; [|done]. intros w ->%list_elem_of_singleton. unfold occupied. by rewrite Hz; cbn; rewrite Hoz.
    + by rewrite (chunks_one _ _ _ Hz).
    + apply merged_join.
    + intros w Hw. destruct (jo_distinct _ _ _ _ _ _ _ _ _ (partitioned_joined _ _ _ _ _ _ _ _ Hp Hy Hz) w); [tauto|].
      by apply jo_items.
Qed.

(** Both loops, from an empty partition on. *)
Lemma joins_ok s l1 x l2 fl e :
  partitioned s (l1 ++ x :: l2) fl -> heap s !! x = Some e -> empty e -> settled (heap s) (l1 ++ l2) ->
  behind_ok (heap s) l2 -> let fuel := Datatypes.S (size (heap s)) in
  exists l1' r1 r2 l2' y s' fl' e', (y ← join_anterior fuel x; join_posterior fuel y) s = Ok (y, s') /\
    (l1 = l1' ++ r1 /\ l2 = r2 ++ l2' /\ head (r1 ++ [x]) = Some y /\
     free_run (heap s) r1 (last l1') /\ free_run (heap s) r2 (head l2')) /\
    partitioned s' (l1' ++ y :: l2') fl' /\ heap s' !! y = Some e' /\ empty e' /\
    chunk_size e' = chunks (heap s) (r1 ++ x :: r2) /\
    merged s s' /\ (forall w, w ∈ l1' ++ l2' -> item_at (heap s') w = item_at (heap s) w).
Proof.
  intros Hp Hx He Hset Hb fuel. pose proof (partitioned_fuel _ _ _ Hp) as Hfuel. rewrite length_app in Hfuel. cbn [length] in Hfuel.
  destruct (join_anterior_ok fuel s l1 x l2 fl e Hp Hx He) as
    (l1' & r1 & y & s2 & fl2 & e2 & Hrun2 & (-> & Hh & Hr1) & Hp2 & Hy2 & He2 & Hc2 & Hm2 & Hk2);
    [|unfold fuel; lia|].
  { intros w ew Hw. apply Hset, elem_of_app. by left. }
  assert (exists n, size (heap s) = Datatypes.S n) as [n En].
  { destruct (size (heap s)) eqn:E; [|eauto]. apply map_size_empty_inv in E. by rewrite E in Hx. }
  destruct (join_posterior_ok n s2 l1' y l2 fl2 e2 Hp2 Hy2 He2) as
    (r2 & l2' & s3 & fl3 & e3 & Hrun3 & (-> & Hr2) & Hp3 & Hy3 & He3 & Hc3 & Hm3 & Hk3).
  { intros w ew Hw Hew Ho. destruct (item_at_lookup _ (heap s) w ew (eq_sym (Hk2 w (or_intror Hw))) Hew) as (e0 & He0 & Hi).
    pose proof (f_equal ocupado Hi). pose proof (f_equal nkey Hi). pose proof (f_equal data_size Hi). cbn in *.
    destruct (Hset w e0) as (E1 & E2 & E3); [apply elem_of_app; by right|done|congruence|]. split_and!; congruence. }
  { destruct l2 as [|z [|z' l2]]; [done|done|]. destruct Hb as (ez & Hz & Hoz). cbn.
    destruct (item_at_lookup _ _ z ez (Hk2 z ltac:(right; by left)) Hz) as (e' & He' & Hi).
    exists e'. split; [done|]. apply (f_equal ocupado) in Hi. cbn in Hi. congruence. }
  assert (forall w, w ∈ r2 \/ w ∈ l2' -> item_at (heap s2) w = item_at (heap s) w) as Hk
    by (intros w Hw; apply Hk2; right; by apply elem_of_app).
  exists l1', r1, r2, l2', y, s3, fl3, e3. split_and!; try done.
  - rewrite (bind_ok _ _ _ _ _ Hrun2). unfold fuel. by rewrite En.
  - eapply free_run_ext; [|exact Hr2]. intros w [Hw|Hw]; apply Hk; [by left|right]. by apply head_Some_elem_of.
  - rewrite Hc3, Hc2, (chunks_ext (heap s) (heap s2) r2) by auto.
    rewrite !chunks_app, !(chunks_cons _ _ _ _ Hx). change (chunks (heap s) []) with 0. lia.
  - by eapply merged_trans.
  - intros w [Hw|Hw]%elem_of_app; rewrite Hk3 by tauto; [apply Hk2; tauto|]. apply Hk. by right.
Qed.

(** C27: Removing an item whose neighbour behind is in use, or is the last partition, gives its memory
    back: its partition is joined with all the free ones in front of it and, when it is the last one, with
    the free one behind it, so that those next to it are in use; the joined partition is empty, starts
    where the first of them did and has the sum of their sizes.  The used size goes down by the size of the
    item, the other items keep their keys, addresses and values, and the invariant of the storage
    holds again. *)
Theorem eliminar_releases s l1 x l2 fl e :
  partitioned s (l1 ++ x :: l2) fl -> heap s !! x = Some e -> settled (heap s) (l1 ++ l2) ->
  behind_ok (heap s) l2 ->
  exists l1' r1 r2 l2' y s' fl' e', diccionario_eliminar x s = Ok (y, s') /\
    (l1 = l1' ++ r1 /\ l2 = r2 ++ l2' /\ head (r1 ++ [x]) = Some y /\
     free_run (heap s) r1 (last l1') /\ free_run (heap s) r2 (head l2')) /\
    partitioned s' (l1' ++ y :: l2') fl' /\ heap s' !! y = Some e' /\ empty e' /\
    chunk_size e' = chunks (heap s) (r1 ++ x :: r2) /\
    table_current_size (dic s') = table_current_size (dic s) - data_size e /\ memoria s' = memoria s /\
    (forall w, w ∈ l1' ++ l2' -> item_at (heap s') w = item_at (heap s) w).
Proof.
  intros Hp Hx Hset Hb.
  assert (x ∈ l1 ++ x :: l2) as Hin by (apply elem_of_app; right; by left).
  destruct (clear_item_ok s _ fl x e Hp Hin Hx) as (k & Hk & Hclr & Hp1).
  set (s1 := with_item x (cleared k) (- data_size e) s) in *.
  assert (heap s1 !! x = Some (cleared k e)) as Hx1.
  { cbn [s1 heap with_item with_heap with_dic]. by rewrite lookup_alter_eq, Hx. }
  pose proof (pa_nodup _ _ _ Hp) as (Hnd & _ & _)%NoDup_app. apply NoDup_middle in Hnd as [Hx12 _].
  assert (forall w, w ∈ l1 ++ l2 -> heap s1 !! w = heap s !! w) as Hs1.
  { intros w Hw. cbn [s1 heap with_item with_heap with_dic]. rewrite lookup_alter_ne; [done|by intros ->]. }
  assert (forall w, w ∈ l1 ++ l2 -> item_at (heap s1) w = item_at (heap s) w) as Hi1
    by (intros w Hw; unfold item_at; by rewrite Hs1).
  destruct (joins_ok s1 l1 x l2 fl _ Hp1 Hx1) as
    (l1' & r1 & r2 & l2' & y & s2 & fl2 & e2 & Hrun & (-> & -> & Hh & Hr1 & Hr2) & Hp2 & Hy & He2 & Hc & Hm & Hkept); [done|..].
  { intros w ew Hw Hew. apply (Hset w ew Hw). by rewrite <- Hs1. }
  { destruct l2 as [|z [|z' l2]]; [done|done|]. destruct Hb as (ez & Hz & Hoz). exists ez.
    rewrite Hs1; [done|]. apply elem_of_app. right. by left. }
  destruct Hm as (Em & _ & Et & _).
  exists l1', r1, r2, l2', y, s2, fl2, e2. split_and!; try done.
  - unfold diccionario_eliminar, list_fuel. rewrite (bind_ok _ _ _ _ _ Hclr).
    by rewrite (bind_ok _ _ s1 (Datatypes.S (size (heap s1))) s1).
  - eapply free_run_ext; [|exact Hr1]. intros w Hw. apply Hi1. rewrite !elem_of_app. destruct Hw as [?|?%last_elem]; tauto.
  - eapply free_run_ext; [|exact Hr2]. intros w Hw. apply Hi1. rewrite !elem_of_app.
    destruct Hw as [?|?%head_Some_elem_of]; tauto.
  - rewrite Hc, !chunks_app, (chunks_cons _ _ _ _ Hx), (chunks_cons _ _ _ _ Hx1).
    rewrite !(chunks_ext (heap s) (heap s1)); [done|intros w Hw; apply Hi1; rewrite !elem_of_app; tauto..].
  - intros w Hw. rewrite Hkept by done. apply Hi1. rewrite !elem_of_app in *. tauto.
Qed.

(** ** Removing in the wrong order *)

(** [x] has [a] as its predecessor, which is the first free node; neither is
    in use, and what is behind [x] is neither of them. *)
Record stale s (x a : nat) (ex ea : t_dict_element) : Prop := {
  st_x : heap s !! x = Some ex;
  st_a : heap s !! a = Some ea;
  st_ne : a <> x;
  st_prev : prev ex = Some a;
  st_nodes : nodes (dic s) = Some a;
  st_free : ocupado ea = false /\ ocupado ex = false;
  st_next : forall y, next ex = Some y -> y <> x /\ y <> a /\ is_Some (heap s !! y)
}.

(** Joining them makes [x] the predecessor of [a], and the first free node. *)
Lemma stale_round s x a ex ea :
  stale s x a ex ea -> exists ea' ex', stale (join_state a x ea ex s) a x ea' ex'.
Proof.
  intros [Hx Ha Hne Hprev Hnodes [Hoa Hox] Hnext].
  assert (forall y, next ex = Some y -> y <> x /\ y <> a) as Hny by (intros y Hy; split; by apply Hnext).
  assert (next ex <> Some x /\ next ex <> Some a) as [Nx Na] by (split; intros E; by destruct (Hny _ E)).
  eexists _, _. split; cbn [heap dic join_state with_heap with_dic set_nodes nodes]; unfold join_heap; rewrite ?Hnodes.
  - cbn [alter_if]. rewrite lookup_alter_eq, !(lookup_alter_ne _ _ x) by done.
    rewrite lookup_alter_if_ne, lookup_alter_eq, lookup_alter_ne, lookup_alter_eq, Ha by done. reflexivity.
  - cbn [alter_if]. rewrite lookup_alter_ne, !lookup_alter_eq by done.
    rewrite lookup_alter_if_ne, lookup_alter_ne, lookup_alter_eq, lookup_alter_ne, Hx by done. reflexivity.
  - done.
  - done.
  - done.
  - by split.
  - intros y Hy. cbn in Hy. destruct (Hnext y Hy) as (H1 & H2 & H3). split_and!; [done|done|heap_some].
Qed.

Lemma stale_hangs fuel s x a ex ea : stale s x a ex ea -> join_anterior fuel x s = Fail OutOfFuel.
Proof.
  revert s x a ex ea. induction fuel as [|fuel IH]; intros s x a ex ea Hs; [done|].
  pose proof Hs as [Hx Ha Hne Hprev Hnodes [Hoa Hox] Hnext].
  rewrite (anterior_run s a x ea ex) 
    by first [done|intros y [Hy|Hy]; [by apply Hnext|rewrite Hnodes in Hy; injection Hy as <-; eauto]].
  destruct (stale_round s x a ex ea Hs) as (ea' & ex' & Hs'). by eapply IH.
Qed.

(** A partition that is joined from behind is still the [prev] of the item
    that follows. *)
Lemma posterior_stale s l1 y z c l2 fl ey ez ec :
  partitioned s (l1 ++ y :: z :: c :: l2) fl -> heap s !! y = Some ey -> heap s !! z = Some ez ->
  heap s !! c = Some ec -> ocupado ez = false -> ocupado ec = true ->
  let s' := posterior_state y z ey ez s in
  (forall fuel, join_posterior (Datatypes.S (Datatypes.S fuel)) y s = Ok (y, s')) /\
  heap s' !! c = Some ec /\ prev ec = Some z /\ (forall w, next ec = Some w -> w ∈ l2) /\
  (exists ez', heap s' !! z = Some ez' /\ ocupado ez' = false) /\ nodes (dic s') = Some z /\
  (forall w, is_Some (heap s !! w) -> is_Some (heap s' !! w)).
Proof.
  intros Hp Hy Hz Hc Hoz Hoc s'. destruct (prev_of_middle _ _ _ _ _ _ Hp Hy) as [_ Hny]. cbn [head] in Hny.
  pose proof Hp as Hpz. rewrite (app_assoc l1 [y] (z :: c :: l2) : l1 ++ y :: z :: c :: l2 = _) in Hpz.
  destruct (prev_of_middle _ _ _ _ _ _ Hpz Hz) as [_ Hnz]. cbn [head] in Hnz.
  pose proof Hp as Hpc. rewrite (app_assoc l1 [y; z] (c :: l2) : l1 ++ y :: z :: c :: l2 = _) in Hpc.
  destruct (prev_of_middle _ _ _ _ _ _ Hpc Hc) as [Hprevc Hnextc]. rewrite last_app in Hprevc. cbn in Hprevc.
  pose proof (pa_nodup _ _ _ Hp) as (Hnd & Hdis & _)%NoDup_app. apply NoDup_app in Hnd as (_ & _ & Hnd).
  apply NoDup_cons in Hnd as [Hy' [Hz' _]%NoDup_cons]. apply not_elem_of_cons in Hy' as [Nyz [Nyc _]%not_elem_of_cons].
  apply not_elem_of_cons in Hz' as [Nzc _].
  assert (forall w, w = y \/ w = z \/ w = c -> nodes (dic s) <> Some w) as Hnodes.
  { intros w Hw [Hin _]%(partitioned_nodes_some _ _ _ _ Hp). apply (Hdis w); [|done].
    rewrite elem_of_app, !elem_of_cons. tauto. }
  assert (exists ey', heap s' !! y = Some ey' /\ next ey' = Some c) as (ey' & Hey' & Hney').
  { eexists. cbn [heap s' posterior_state with_heap with_dic]. split.
    - rewrite lookup_alter_if_ne by auto. rewrite !(lookup_alter_ne _ _ z) by done.
      rewrite lookup_alter_eq, lookup_alter_ne, lookup_alter_eq, Hy by done. reflexivity.
    - done. }
  assert (heap s' !! c = Some ec) as Hc'.
  { cbn [heap s' posterior_state with_heap with_dic]. rewrite lookup_alter_if_ne by auto.
    by rewrite !lookup_alter_ne by done. }
  split_and!; try done.
  - intros fuel. rewrite (posterior_run s y z ey ez) by (done || by intros; eapply partitioned_nodes_some).
    fold s'. cbn [join_posterior]. rewrite (bind_ok _ _ _ _ _ (at_ok _ _ _ Hey')), Hney'.
    by rewrite (bind_ok _ _ _ _ _ (at_ok _ _ _ Hc')), Hoc.
  - intros w Hw. rewrite Hnextc in Hw. by apply head_Some_elem_of.
  - eexists. cbn [heap s' posterior_state with_heap with_dic]. rewrite lookup_alter_if_ne by auto.
    rewrite !lookup_alter_eq, lookup_alter_ne, lookup_alter_eq, lookup_alter_ne, Hz by done. by split.
  - intros w Hw. cbn [heap s' posterior_state with_heap with_dic]. by repeat first [rewrite is_Some_alter_if|rewrite is_Some_alter].
Qed.

(** What [c] is after it is cleared is stale. *)
Lemma cleared_stale s c z ec ez k :
  heap s !! c = Some ec -> heap s !! z = Some ez -> z <> c -> prev ec = Some z -> nodes (dic s) = Some z ->
  ocupado ez = false -> (forall w, next ec = Some w -> w <> c /\ w <> z /\ is_Some (heap s !! w)) ->
  stale (with_item c (cleared k) (- data_size ec) s) c z (cleared k ec) ez.
Proof.
  intros Hc Hz Hne Hprev Hnodes Ho Hnext.
  split; cbn [heap dic with_item with_heap with_dic set_table_current_size nodes]; try done.
  - by rewrite lookup_alter_eq, Hc.
  - by rewrite lookup_alter_ne.
  - intros w Hw. destruct (Hnext w Hw) as (H1 & H2 & H3). split_and!; [done|done|heap_some].
Qed.

(** The item in front: both loops, and what they leave. *)
Lemma eliminar_in_front s l1 a z c l2 fl ea ez ec :
  partitioned s (l1 ++ a :: z :: c :: l2) fl -> settled (heap s) l1 ->
  heap s !! a = Some ea -> heap s !! z = Some ez -> ocupado ez = false ->
  heap s !! c = Some ec -> ocupado ec = true ->
  exists l1' y s2 fl2 ey ez2 ec2, partitioned s2 (l1' ++ y :: z :: c :: l2) fl2 /\
    heap s2 !! y = Some ey /\ heap s2 !! z = Some ez2 /\ ocupado ez2 = false /\
    heap s2 !! c = Some ec2 /\ ocupado ec2 = true /\
    diccionario_eliminar a s = Ok (y, posterior_state y z ey ez2 s2).
Proof.
  intros Hp Hset Ha Hz Hoz Hc Hoc.
  assert (a ∈ l1 ++ a :: z :: c :: l2) as Hin by (apply elem_of_app; right; by left).
  destruct (clear_item_ok s _ fl a ea Hp Hin Ha) as (k & _ & Hclr & Hp1).
  set (s1 := with_item a (cleared k) (- data_size ea) s) in *.
  assert (heap s1 !! a = Some (cleared k ea)) as Ha1 by (cbn [s1 heap with_item with_heap with_dic]; by rewrite lookup_alter_eq, Ha).
  pose proof (pa_nodup _ _ _ Hp) as (Hnd & _ & _)%NoDup_app. apply NoDup_middle in Hnd as [Hna _].
  assert (forall w, w ∈ l1 ++ z :: c :: l2 -> heap s1 !! w = heap s !! w) as Hs1.
  { intros w Hw. cbn [s1 heap with_item with_heap with_dic]. rewrite lookup_alter_ne; [done|by intros ->]. }
  pose proof (partitioned_fuel _ _ _ Hp1) as Hfuel. rewrite length_app in Hfuel. cbn [length] in Hfuel.
  destruct (join_anterior_ok (Datatypes.S (size (heap s1))) s1 l1 a _ fl _ Hp1 Ha1) as
    (l1' & r & y & s2 & fl2 & ey & Hrun2 & _ & Hp2 & Hy & _ & _ & _ & Hk2); [done| |lia|].
  { intros w ew Hw Hew. apply (Hset w ew Hw). rewrite <- Hs1; [done|]. apply elem_of_app. by left. }
  assert (forall w e, w = z \/ w = c -> heap s !! w = Some e -> exists e', heap s2 !! w = Some e' /\ ocupado e' = ocupado e) as Hk.
  { intros w e Hw He. rewrite <- (Hs1 w) in He by (rewrite elem_of_app, !elem_of_cons; tauto).
    destruct (item_at_lookup _ (heap s2) w e (Hk2 w ltac:(right; rewrite !elem_of_cons; tauto)) He) as (e' & He' & Hi).
    exists e'. split; [done|]. by apply (f_equal ocupado) in Hi. }
  destruct (Hk z ez ltac:(by left) Hz) as (ez2 & Hz2 & Hiz), (Hk c ec ltac:(by right) Hc) as (ec2 & Hc2 & Hic).
  rewrite Hoz in Hiz. rewrite Hoc in Hic.
  destruct (posterior_stale s2 l1' y z c l2 fl2 ey ez2 ec2 Hp2 Hy Hz2 Hc2 Hiz Hic) as (Hrun3 & _).
  assert (exists n, size (heap s1) = Datatypes.S n) as [n En].
  { destruct (size (heap s1)) eqn:E; [|eauto]. apply map_size_empty_inv in E. by rewrite E in Ha1. }
  exists l1', y, s2, fl2, ey, ez2, ec2. split_and!; try done.
  unfold diccionario_eliminar, list_fuel. rewrite (bind_ok _ _ _ _ _ Hclr).
  rewrite (bind_ok _ _ s1 (Datatypes.S (size (heap s1))) s1), (bind_ok _ _ _ _ _ Hrun2) by done. by rewrite En.
Qed.

(** C33: A deletion that never ends: when an item is deleted in front of a partition that is free, and that one
    in front of an item [c] in use, and no partition before them is reserved, the free partition is joined from behind, and its node, now in the list of
    free nodes, is left as the [prev] of [c].  The deletion of [c] then joins these two nodes with each
    other in turns, however many rounds its first loop is given. *)
Theorem eliminar_hangs s l1 a z c l2 fl ea ez ec :
  partitioned s (l1 ++ a :: z :: c :: l2) fl -> settled (heap s) l1 ->
  heap s !! a = Some ea -> heap s !! z = Some ez -> ocupado ez = false ->
  heap s !! c = Some ec -> ocupado ec = true ->
  exists y s1 s2, diccionario_eliminar a s = Ok (y, s1) /\ clear_item c s1 = Ok (tt, s2) /\
    (forall fuel, join_anterior fuel c s2 = Fail OutOfFuel) /\ diccionario_eliminar c s1 = Fail OutOfFuel.
Proof.
  intros Hp Hset Ha Hz Hoz Hc Hoc.
  destruct (eliminar_in_front s l1 a z c l2 fl ea ez ec Hp Hset Ha Hz Hoz Hc Hoc)
    as (l1' & y & s2 & fl2 & ey & ez2 & ec2 & Hp2 & Hy & Hz2 & Hoz2 & Hc2 & Hoc2 & Hrun).
  destruct (posterior_stale s2 l1' y z c l2 fl2 ey ez2 ec2 Hp2 Hy Hz2 Hc2 Hoz2 Hoc2)
    as (_ & Hc3 & Hprev & Hnext & (ez3 & Hz3 & Hoz3) & Hnodes & Hsome).
  set (s3 := posterior_state y z ey ez2 s2) in *.
  destruct (pa_elements _ _ _ Hp2 c ec2 ltac:(rewrite elem_of_app, !elem_of_cons; tauto) Hc2) as [_ (k & Hk & Hlen)].
  pose proof (clear_item_run s3 c ec2 k Hc3 Hk Hlen) as Hclr.
  set (s4 := with_item c (cleared k) (- data_size ec2) s3) in *.
  assert (stale s4 c z (cleared k ec2) ez3) as Hst.
  { pose proof (pa_nodup _ _ _ Hp) as (Hnd & _ & _)%NoDup_app.
    apply NoDup_app in Hnd as (_ & _ & [_ [Hnz [Hnc _]%NoDup_cons]%NoDup_cons]%NoDup_cons).
    apply cleared_stale; try done; [by intros ->; apply Hnz; left|]. intros w Hw%Hnext.
    split_and!; [by intros ->|intros ->; apply Hnz; by right|]. apply Hsome.
    eapply dlseg_elem; [apply (pa_list _ _ _ Hp2)|]. rewrite elem_of_app, !elem_of_cons. tauto. }
  exists y, s3, s4. split_and!; [done|done|intros fuel; by eapply stale_hangs|].
  unfold diccionario_eliminar, list_fuel. rewrite (bind_ok _ _ _ _ _ Hclr).
  rewrite (bind_ok _ _ s4 (Datatypes.S (size (heap s4))) s4) by done.
  by rewrite (bind_fail _ _ _ OutOfFuel) by by eapply stale_hangs.
Qed.
