(* ===== verification/Compactacion.v ===== *)
(** * Compactacion: moving the items together

    [diccionario_compactarMemoria] of the dynamic partitions, when the free
    ones are one in front of the last item and some behind it: the item's
    bytes move to the front and the free partitions are joined behind it, in
    the layout of [Particiones].  The length of the key does not move with the
    item, which nobody finds any more, and stays at what is free, which looks
    reserved. *)

From S2P Require Import Prelude Memory Diccionario Dinamicas Particiones Liberacion.

Implicit Types (h : gmap nat t_dict_element) (l fl : list nat) (s : rc) (e : t_dict_element).

(** ** Joining the free partitions behind *)

Lemma alter_swap (f g : t_dict_element -> t_dict_element) p q h :
  (forall e, f (g e) = g (f e)) -> alter f p (alter g q h) = alter g q (alter f p h).
Proof.
  intros Hfg. apply map_eq. intros w. rewrite !lookup_alter. repeat case_decide; subst; try done.
  destruct (h !! w); [cbn; by rewrite Hfg|done].
Qed.

Lemma alter_if_swap (f g : t_dict_element -> t_dict_element) p q h :
  (forall e, f (g e) = g (f e)) -> alter f p (alter_if g q h) = alter_if g q (alter f p h).
Proof. intros Hfg. destruct q; [by apply alter_swap|done]. Qed.

(** A round of the loop does what one of [diccionario_eliminar] does. *)
Lemma join_free_step s l1 a x l2 fl ea ex fuel :
  partitioned s (l1 ++ a :: x :: l2) fl -> heap s !! a = Some ea -> heap s !! x = Some ex -> in_use ex = false ->
  join_free (Datatypes.S fuel) a (Some x) s = join_free fuel a (head l2) (join_state a x ea ex s).
Proof.
  intros Hp Ha Hx Hu. unfold in_use in Hu. apply orb_false_iff in Hu as [Ho Hr].
  cbn [join_free]. rewrite (bind_ok _ _ _ _ _ (at_ok _ _ _ Hx)), Ho, Hr. cbn [negb andb].
  rewrite (bind_ok _ _ _ _ _ (at_ok _ _ _ Ha)).
  pose proof (partitioned_joined _ _ _ _ _ _ _ _ Hp Ha Hx) as Hj.
  pose proof Hp as Hp'. rewrite (app_assoc l1 [a] (x :: l2) : l1 ++ a :: x :: l2 = _) in Hp'.
  destruct (prev_of_middle _ _ _ _ _ _ Hp' Hx) as [_ Hnext].
  assert (is_Some (heap s !! a) /\ is_Some (heap s !! x)) as [Ia Ix] by (split; eauto).
  assert (forall y, next ex = Some y -> is_Some (heap s !! y)) as Hny.
  { intros y Hy. eapply dlseg_elem; [apply (pa_list _ _ _ Hp)|]. apply elem_of_app. right. right. right.
    by apply (jo_next _ _ _ _ _ _ _ _ _ Hj). }
  assert (forall y, nodes (dic s) = Some y -> is_Some (heap s !! y)) as Hnd by (intros y Hy; by eapply partitioned_nodes_some).
  do 2 erewrite bind_ok by (apply set_at_alter; heap_some).
  erewrite bind_ok by (apply set_if_alter; intros y ?; heap_some).
  erewrite bind_ok by (apply set_at_alter; heap_some).
  erewrite bind_ok by (apply release_run; [heap_some|intros y ?; heap_some]).
  erewrite bind_ok by (apply set_at_alter; heap_some).
  cbn [heap dic with_heap with_dic nodes].
  destruct (jo_lookup _ _ _ _ _ _ _ _ _ Hj) as [La _].
  match goal with |- (_ ≫= _) ?t = _ => assert (t = join_state a x ea ex s) as -> end.
  { unfold join_state, join_heap, with_dic, with_heap. cbn. f_equal.
    rewrite alter_if_swap by done. f_equal. do 2 (rewrite (alter_swap (set_chunk_size 0)) by done; f_equal).
    rewrite alter_if_swap by done. f_equal. by rewrite (alter_swap (set_chunk_size 0)). }
  erewrite bind_ok by (apply at_ok; exact La). cbn [next set_next set_chunk_size]. by rewrite Hnext.
Qed.

(** What is left of the element at [a] when all of [l2] is joined to it. *)
Lemma join_free_ok fuel s l1 a l2 fl ea :
  partitioned s (l1 ++ a :: l2) fl -> heap s !! a = Some ea -> (length l2 < fuel)%nat ->
  (forall w e, w ∈ l2 -> heap s !! w = Some e -> in_use e = false) ->
  exists s' fl' n, join_free fuel a (head l2) s = Ok (None, s') /\ partitioned s' (l1 ++ [a]) fl' /\
    heap s' !! a = Some (set_next None (set_chunk_size n ea)) /\ merged s s' /\
    (forall w, w ∈ l1 -> item_at (heap s') w = item_at (heap s) w).
Proof.
  revert s l2 fl ea. induction fuel as [|fuel IH]; intros s l2 fl ea Hp Ha Hf Hfree; [lia|].
  destruct l2 as [|x l2].
  { destruct (prev_of_middle _ _ _ _ _ _ Hp Ha) as [_ Hnext]. exists s, fl, (chunk_size ea).
    split_and!; try done. rewrite Ha. f_equal. cbn in Hnext. destruct ea. cbn in *. by subst. }
  assert (x ∈ l1 ++ a :: x :: l2) as Hin by (rewrite elem_of_app, !elem_of_cons; tauto).
  destruct (dlseg_elem _ _ _ _ _ x (pa_list _ _ _ Hp) Hin) as [ex Hx].
  pose proof (Hfree x ex ltac:(by left) Hx) as Hu. cbn [head].
  rewrite (join_free_step s l1 a x l2 fl ea ex fuel Hp Ha Hx Hu).
  assert (empty ex) as Hex.
  { destruct (pa_elements _ _ _ Hp x ex Hin Hx) as [Hun _]. destruct (Hun Hu) as [Hd _].
    unfold in_use, estaReservado in Hu. apply orb_false_iff in Hu as [Ho Hr]. rewrite Ho in Hr. cbn in Hr.
    apply negb_false_iff, Z.eqb_eq in Hr. by split_and!. }
  pose proof (partitioned_join _ _ _ _ _ _ _ _ Hp Ha Hx Hex) as Hp1.
  pose proof (partitioned_joined _ _ _ _ _ _ _ _ Hp Ha Hx) as Hj.
  destruct (jo_lookup _ _ _ _ _ _ _ _ _ Hj) as [La _].
  assert (forall w, w ∈ l1 \/ w ∈ l2 -> item_at (heap (join_state a x ea ex s)) w = item_at (heap s) w) as Hit.
  { intros w Hw. destruct (jo_distinct _ _ _ _ _ _ _ _ _ Hj w); [tauto|]. by apply jo_items. }
  destruct (IH _ l2 (x :: fl) _ Hp1 La) as (s' & fl' & n & Hrun & Hp' & Ha' & Hm & Hkept); [cbn in Hf; lia| |].
  { intros w e Hw He. destruct (item_at_lookup _ (heap s) w e (eq_sym (Hit w (or_intror Hw))) He) as (e0 & He0 & Hi).
    rewrite <- (Hfree w e0 ltac:(by right) He0). destruct e0, e. injection Hi as ????????. by subst. }
  exists s', fl', n. split_and!; [done|done|by rewrite Ha'|by eapply merged_trans; [apply merged_join|]|].
  intros w Hw. rewrite Hkept by done. apply Hit. by left.
Qed.

(** ** Moving an item *)

Definition moved_to (ef ep : t_dict_element) (kf kp : list Z) : t_dict_element :=
  let k := take (Z.to_nat (nkey ep + 1)) kp in
  set_ocupado true (set_key (Some (k ++ drop (length k) kf))
    (set_hour (hour ep) (set_data_size (data_size ep) (set_chunk_size (chunk_size ep) ef)))).

Definition moved_from (f : nat) (ef ep : t_dict_element) (a : Z) (kp : list Z) : t_dict_element :=
  set_data_size 0 (set_hour 0 (set_key (Some (0 :: drop 1 kp))
    (set_ocupado false (set_chunk_size (chunk_size ef) (set_prev (Some f) (set_data (Some (a + chunk_size ep)) ep)))))).

Definition moved_state (f p : nat) (ef ep : t_dict_element) (a b : Z) (kf kp : list Z) s : rc :=
  with_heap (<[p := moved_from f ef ep a kp]> (<[f := moved_to ef ep kf kp]> (heap s)))
    (with_memoria (moved (memoria s) a b (chunk_size ep)) s).

Lemma set_key_at_ok p bs s e k :
  heap s !! p = Some e -> key e = Some k -> zlen bs <= zlen k ->
  set_key_at p bs s = Ok (tt, with_heap (<[p := set_key (Some (bs ++ drop (length bs) k)) e]> (heap s)) s).
Proof.
  intros Hp Hk Hl. unfold set_key_at. rewrite (bind_ok _ _ _ _ _ (at_ok _ _ _ Hp)). unfold key_write. rewrite Hk.
  cbn [mbind option_bind]. by rewrite (proj2 (Z.leb_le _ _)).
Qed.

Ltac at_insert :=
  cbn [heap with_heap with_memoria]; repeat first [rewrite lookup_insert_eq | rewrite lookup_insert_ne by congruence]; done.

Lemma move_item_run s f p ef ep a b kf kp :
  heap s !! f = Some ef -> heap s !! p = Some ep -> f <> p ->
  Diccionario.data ef = Some a -> Diccionario.data ep = Some b ->
  key ef = Some kf -> key ep = Some kp -> zlen kf = KEY_SIZE_MAX -> zlen kp = KEY_SIZE_MAX ->
  move_item f p s = if chunk_size ep <=? Z.abs (a - b) then Ok (tt, moved_state f p ef ep a b kf kp s) else Fail Overlap.
Proof.
  intros Hf Hp Hne Ha Hb Hkf Hkp Hlf Hlp. unfold move_item.
  rewrite (bind_ok _ _ _ _ _ (at_ok _ _ _ Hf)), (bind_ok _ _ _ _ _ (at_ok _ _ _ Hp)).
  erewrite bind_ok by (apply set_at_ok; exact Hf). rewrite Ha, Hb. do 2 erewrite bind_ok by done.
  set (s1 := with_heap _ s). rewrite (bind_ok _ _ s1 (memoria s) s1) by done. unfold memcpy.
  destruct (chunk_size ep <=? Z.abs (a - b)); [|by rewrite (bind_fail _ _ s1 Overlap)].
  rewrite (bind_ok _ _ s1 tt (with_memoria (moved (memoria s) a b (chunk_size ep)) s1)) by done. subst s1.
  erewrite bind_ok by (apply set_at_ok; at_insert).
  erewrite bind_ok by (apply set_at_ok; at_insert). rewrite Hkp. erewrite bind_ok by done.
  assert (zlen (take (Z.to_nat (nkey ep + 1)) kp) <= zlen kf) as Hle.
  { unfold zlen in *. rewrite length_take. lia. }
  erewrite bind_ok by (eapply set_key_at_ok; [at_insert|exact Hkf|exact Hle]).
  erewrite bind_ok by (apply set_at_ok; at_insert).
  erewrite bind_ok by (apply set_at_ok; at_insert).
  erewrite bind_ok by (eapply set_key_at_ok; [at_insert|exact Hkp|rewrite Hlp; vm_compute; congruence]).
  erewrite set_at_ok by at_insert. do 2 f_equal. unfold moved_state, with_heap, with_memoria. cbn [heap dic memoria clock].
  f_equal. apply map_eq. intros w. rewrite !lookup_insert. repeat case_decide; subst; done.
Qed.

(** What the two elements are then, and that no other element and no link is different. *)
Lemma moved_lookups s f p ef ep a b kf kp :
  heap s !! f = Some ef -> heap s !! p = Some ep -> f <> p -> prev ep = Some f ->
  let h' := heap (moved_state f p ef ep a b kf kp s) in
  h' !! f = Some (moved_to ef ep kf kp) /\ h' !! p = Some (moved_from f ef ep a kp) /\
  (forall w, w <> f /\ w <> p -> h' !! w = heap s !! w) /\ (forall w, links h' w = links (heap s) w).
Proof.
  intros Hf Hp Hne Hprev h'. unfold h'. cbn [heap moved_state with_heap]. split_and!.
  - by rewrite lookup_insert_ne, lookup_insert_eq by done.
  - by rewrite lookup_insert_eq.
  - intros w [Hwf Hwp]. by rewrite !lookup_insert_ne by done.
  - intros w. unfold links. rewrite !lookup_insert.
    repeat case_decide; subst; [rewrite Hp|rewrite Hf|done]; cbn; by rewrite ?Hprev.
Qed.

Lemma moved_elements_ok f ef ep a kf kp :
  zlen kf = KEY_SIZE_MAX -> zlen kp = KEY_SIZE_MAX -> nkey ep <> 0 ->
  element_ok (moved_to ef ep kf kp) /\ element_ok (moved_from f ef ep a kp).
Proof.
  unfold zlen. change KEY_SIZE_MAX with 45. intros Hf Hp Hnk. split; split; [done| | |].
  - eexists. split; [done|]. unfold zlen. change KEY_SIZE_MAX with 45.
    rewrite ?length_app, ?length_take, ?length_drop, ?length_take. lia.
  - unfold in_use, estaReservado. cbn. by rewrite (proj2 (Z.eqb_neq _ _)).
  - eexists. split; [done|]. unfold zlen. change KEY_SIZE_MAX with 45. cbn [length]. rewrite length_drop. lia.
Qed.

(** The two partitions change places, in the same layout. *)
Lemma partitioned_moved s l1 f p l2 fl ef ep a b kf kp :
  partitioned s (l1 ++ f :: p :: l2) fl -> heap s !! f = Some ef -> heap s !! p = Some ep ->
  in_use ef = false -> nkey ep <> 0 -> Diccionario.data ef = Some a ->
  zlen kf = KEY_SIZE_MAX -> zlen kp = KEY_SIZE_MAX ->
  partitioned (moved_state f p ef ep a b kf kp s) (l1 ++ f :: p :: l2) fl.
Proof.
  intros Hp Hf Hpp Hu Hnk Ha Hlf Hlp. pose proof Hp as [Hl Hfl Hnd Ht Hus Hel Hid].
  pose proof Hp as Hp'. rewrite (app_assoc l1 [f] (p :: l2) : l1 ++ f :: p :: l2 = _) in Hp'.
  destruct (prev_of_middle _ _ _ _ _ _ Hp' Hpp) as [Hprev _]. rewrite last_snoc in Hprev.
  pose proof (partitioned_joined _ _ _ _ _ _ _ _ Hp Hf Hpp) as Hj. pose proof (jo_ne _ _ _ _ _ _ _ _ _ Hj) as Hne.
  destruct (moved_lookups s f p ef ep a b kf kp Hf Hpp Hne Hprev) as (Hf' & Hpp' & Hw' & Hlinks).
  destruct (moved_elements_ok f ef ep a kf kp Hlf Hlp Hnk) as [Hok1 Hok2].
  set (h' := heap (moved_state f p ef ep a b kf kp s)) in *.
  assert (forall w, w ∈ l1 \/ w ∈ l2 \/ w ∈ fl -> h' !! w = heap s !! w) as Hw
    by (intros w Hw; apply Hw', (jo_distinct _ _ _ _ _ _ _ _ _ Hj w Hw)).
  assert (forall w, w ∈ l1 \/ w ∈ l2 \/ w ∈ fl -> item_at h' w = item_at (heap s) w) as Hit
    by (intros w Hin; unfold item_at; by rewrite Hw).
  split; fold h'; cbn [dic moved_state with_heap with_memoria]; [| |done| | | |].
  - eapply dlseg_ext; [|exact Hl]. auto.
  - eapply slseg_ext; [|exact Hfl]. intros w _. by rewrite Hlinks.
  - apply tiles_app in Ht as (c & Ht1 & e1 & He1 & Hd1' & Hc1 & e2 & He2 & Hd2 & Hc2 & Ht2).
    assert (e1 = ef) as -> by congruence. assert (e2 = ep) as -> by congruence. assert (c = a) as -> by congruence.
    apply tiles_app. exists a. split; [eapply tiles_ext; [|exact Ht1]; auto|].
    eexists. split; [exact Hf'|]. split; [done|]. split; [done|]. eexists. split; [exact Hpp'|]. split; [done|].
    split; [done|]. cbn. replace (a + chunk_size ep + chunk_size ef) with (a + chunk_size ef + chunk_size ep) by lia.
    eapply tiles_ext; [|exact Ht2]. auto.
  - destruct (Hel f ef ltac:(rewrite elem_of_app, !elem_of_cons; tauto) Hf) as [Hz _]. destruct (Hz Hu) as [Hd0 _].
    rewrite <- Hus, !used_app, (used_cons _ _ _ _ Hf'), (used_cons _ _ _ _ Hpp'), (used_cons _ _ _ _ Hf), (used_cons _ _ _ _ Hpp).
    rewrite (used_ext (heap s) h' l1), (used_ext (heap s) h' l2) by auto. cbn. lia.
  - intros w e Hin He. destruct (decide (w = f)) as [->|]; [|destruct (decide (w = p)) as [->|]]; [congruence..|].
    apply (Hel w); [done|]. by rewrite <- Hw'.
  - intros w e Hin He. apply (Hid w); [done|]. rewrite <- Hw; [done|tauto].
Qed.

(** ** The whole of it *)

Lemma first_free_ok fuel s prv p l :
  dlseg (heap s) prv p l None -> (length l <= fuel)%nat ->
  first_free fuel p s = Ok (find_elem (heap s) (fun e => negb (in_use e)) l, s).
Proof.
  revert prv p fuel. induction l as [|x l IH]; intros prv p fuel.
  - simpl. intros -> _. by destruct fuel.
  - intros (-> & q & Hq & Hl) Hf. destruct fuel as [|fuel]; [simpl in Hf; lia|].
    unfold links in Hq. destruct (heap s !! x) as [e|] eqn:Ex; [|done].
    injection Hq as Hp Hn. cbn [first_free]. rewrite (bind_ok _ _ _ _ _ (at_ok _ _ _ Ex)).
    rewrite find_elem_cons. unfold test. rewrite Ex. destruct (in_use e); cbn [negb]; [|done].
    rewrite Hn. eapply IH; [exact Hl|simpl in Hf; lia].
Qed.

(** The partitions in use, a free one, an item, and free ones. *)
Record one_to_move s l1 (f p : nat) l2 fl (ef ep : t_dict_element) : Prop := {
  om_layout : partitioned s (l1 ++ f :: p :: l2) fl;
  om_used : forall w e, w ∈ l1 -> heap s !! w = Some e -> in_use e = true;
  om_free : heap s !! f = Some ef /\ in_use ef = false;
  om_item : heap s !! p = Some ep /\ ocupado ep = true /\ nkey ep <> 0;
  om_rest : forall w e, w ∈ l2 -> heap s !! w = Some e -> in_use e = false
}.

(** Up to the copy. *)
Lemma compact_reaches s l1 f p l2 fl ef ep :
  one_to_move s l1 f p l2 fl ef ep ->
  diccionario_compactarMemoria s =
    (move_item f p;; l ← at_ f; e ← at_ p; compact_from (size (heap s)) (next l) (next e)) s.
Proof.
  intros [Hp Hu1 [Hf Huf] (Hpp & Hop & _) _]. unfold diccionario_compactarMemoria, get_dic, list_fuel.
  rewrite (bind_ok _ _ s (dic s) s), (bind_ok _ _ s (Datatypes.S (size (heap s))) s) by done.
  rewrite (bind_ok _ _ _ _ _ (first_free_ok _ s _ _ _ (pa_list _ _ _ Hp) (partitioned_fuel _ _ _ Hp))).
  rewrite (find_elem_found _ _ l1 f (p :: l2) ef);
    [|by intros w e Hw He; rewrite (Hu1 w e)|done|by rewrite Huf].
  destruct (prev_of_middle _ _ _ _ _ _ Hp Hf) as [_ Hnext]. cbn [head] in Hnext.
  rewrite (bind_ok _ _ _ _ _ (at_ok _ _ _ Hf)), Hnext. cbn [compact_from]. rewrite (bind_ok _ _ s f s) by done.
  rewrite (bind_ok _ _ s (Some p) s).
  2: { cbn [join_free]. rewrite (bind_ok _ _ _ _ _ (at_ok _ _ _ Hpp)). by rewrite Hop. }
  rewrite (bind_ok _ _ _ _ _ (at_ok _ _ _ Hpp)). unfold in_use. by rewrite Hop.
Qed.

(** The rest of the loop: the free partitions behind are joined to the one the item left. *)
Lemma compact_joins s l1 f p l2 fl e ep :
  partitioned s (l1 ++ f :: p :: l2) fl -> heap s !! f = Some e -> heap s !! p = Some ep ->
  (forall w e, w ∈ l2 -> heap s !! w = Some e -> in_use e = false) ->
  exists s' fl' n, (l ← at_ f; e ← at_ p; compact_from (size (heap s)) (next l) (next e)) s = Ok (tt, s') /\
    partitioned s' (l1 ++ [f; p]) fl' /\ heap s' !! p = Some (set_next None (set_chunk_size n ep)) /\ merged s s' /\
    (forall w, w ∈ l1 ++ [f] -> item_at (heap s') w = item_at (heap s) w).
Proof.
  intros Hp Hf Hpp Hfree. pose proof (partitioned_fuel _ _ _ Hp) as Hfuel. rewrite length_app in Hfuel. cbn [length] in Hfuel.
  destruct (prev_of_middle _ _ _ _ _ _ Hp Hf) as [_ Hnf]. cbn [head] in Hnf.
  rewrite (app_assoc l1 [f] (p :: l2) : l1 ++ f :: p :: l2 = _) in Hp.
  destruct (prev_of_middle _ _ _ _ _ _ Hp Hpp) as [_ Hnp].
  assert (exists n, size (heap s) = Datatypes.S n) as [n En].
  { destruct (size (heap s)) eqn:E; [|eauto]. apply map_size_empty_inv in E. by rewrite E in Hf. }
  destruct (join_free_ok (size (heap s)) s (l1 ++ [f]) p l2 fl ep Hp Hpp ltac:(lia) Hfree)
    as (s' & fl' & c & Hrun & Hp' & Hp2 & Hm & Hkept).
  rewrite <- (app_assoc l1 [f] [p]) in Hp'. exists s', fl', c. split_and!; try done.
  rewrite (bind_ok _ _ _ _ _ (at_ok _ _ _ Hf)), (bind_ok _ _ _ _ _ (at_ok _ _ _ Hpp)), Hnf, Hnp. rewrite En in *.
  cbn [compact_from]. destruct l2 as [|x l2].
  - cbn [head]. cbn [head join_free] in Hrun. injection Hrun as <-. done.
  - cbn [head] in *. rewrite (bind_ok _ _ s p s) by done. by rewrite (bind_ok _ _ _ _ _ Hrun).
Qed.

Lemma has_key_free k n e : in_use e = false -> has_key k n e = false.
Proof.
  unfold in_use, estaReservado, has_key. intros [Ho Hr]%orb_false_iff. rewrite Ho in Hr. cbn in Hr.
  apply negb_false_iff in Hr. by rewrite Hr.
Qed.

(** The bytes that move are those of the item. *)
Lemma read_moved (m : mem) (d b n : Z) : read_bytes (moved m d b n) d n = read_bytes m b n.
Proof.
  apply list_eq. intros i. unfold read_bytes. rewrite !list_lookup_fmap.
  destruct (seqZ 0 n !! i) as [j|] eqn:E; [|done]. apply lookup_seqZ in E as [-> Hi]. cbn. f_equal.
  unfold moved. rewrite (proj2 (in_range_true _ _ _)) by lia. f_equal. lia.
Qed.

(** Neither of the two is found afterwards. *)
Lemma moved_hidden f ef ep a kf kp k n c :
  in_use ef = false -> nkey ep <> 0 -> 0 < n -> head k <> Some 0 ->
  (in_use (moved_to ef ep kf kp) = true /\ has_key k n (moved_to ef ep kf kp) = false) /\
  let e := set_next None (set_chunk_size c (moved_from f ef ep a kp)) in in_use e = true /\ has_key k n e = false.
Proof.
  intros Hu Hnk Hn Hz. split; split; [done| | |].
  - unfold in_use, estaReservado in Hu. apply orb_false_iff in Hu as [Ho Hr].
    rewrite Ho in Hr. apply negb_false_iff in Hr. unfold has_key. cbn. by rewrite Hr.
  - unfold in_use, estaReservado. cbn. by rewrite (proj2 (Z.eqb_neq _ _)).
  - unfold has_key. apply andb_false_iff. right. apply bool_decide_eq_false_2. cbn. intros E.
    destruct (Z.to_nat n) as [|i] eqn:En; [lia|]. destruct k as [|x k]; [done|]. injection E as <- _. done.
Qed.

Lemma nothing_found s l fl k n :
  partitioned s l fl ->
  (forall w e, w ∈ l -> heap s !! w = Some e -> in_use e = true /\ has_key k n e = false) ->
  diccionario_obtener k n s = Ok (None, s) /\
  forall size, first_fit (length l) (elements (dic s)) size s = Ok (None, s).
Proof.
  intros Hp Hl. split.
  - rewrite (diccionario_obtener_ok _ _ _ k n Hp), find_elem_absent; [done|]. intros x e Hx He. by apply (Hl x e).
  - intros size. rewrite (first_fit_ok _ _ _ _ _ size (pa_list _ _ _ Hp)) by done.
    rewrite find_elem_absent; [done|]. intros x e Hx He. destruct (Hl x e Hx He) as [Hu _].
    unfold fits. unfold in_use in Hu. by rewrite Hu.
Qed.

Lemma item_in_use e1 e2 k n : item_of e1 = item_of e2 -> in_use e1 = in_use e2 /\ has_key k n e1 = has_key k n e2.
Proof. destruct e1, e2. intros [=]. subst. done. Qed.

Lemma moved_size s f p ef ep a b kf kp :
  heap s !! f = Some ef -> heap s !! p = Some ep -> f <> p ->
  size (heap (moved_state f p ef ep a b kf kp s)) = size (heap s).
Proof.
  intros Hf Hp Hne. cbn [heap moved_state with_heap].
  by rewrite map_size_insert, lookup_insert_ne, Hp, map_size_insert, Hf by done.
Qed.

(** The state it leaves. *)
Lemma compact_moves s l1 f p l2 fl ef ep :
  one_to_move s l1 f p l2 fl ef ep ->
  exists a b kf kp, Diccionario.data ef = Some a /\ Diccionario.data ep = Some b /\
  if chunk_size ep <=? chunk_size ef then
    exists s' fl' ef' c, diccionario_compactarMemoria s = Ok (tt, s') /\ partitioned s' (l1 ++ [f; p]) fl' /\
      heap s' !! f = Some ef' /\ item_of ef' = item_of (moved_to ef ep kf kp) /\
      heap s' !! p = Some (set_next None (set_chunk_size c (moved_from f ef ep a kp))) /\
      memoria s' = moved (memoria s) a b (chunk_size ep) /\
      table_current_size (dic s') = table_current_size (dic s) /\
      (forall w, w ∈ l1 -> item_at (heap s') w = item_at (heap s) w)
  else diccionario_compactarMemoria s = Fail Overlap.
Proof.
  intros Hom. rewrite (compact_reaches s l1 f p l2 fl ef ep Hom).
  destruct Hom as [Hp Hu1 [Hf Huf] (Hpp & Hop & Hnk) Hfree].
  pose proof (pa_tiles _ _ _ Hp) as (a & _ & e1 & He1 & Ha & Hc1 & e2 & He2 & Hb & Hc2 & _)%tiles_app.
  assert (e1 = ef) as -> by congruence. assert (e2 = ep) as -> by congruence.
  destruct (pa_elements _ _ _ Hp f ef ltac:(rewrite elem_of_app, !elem_of_cons; tauto) Hf) as [_ (kf & Hkf & Hlf)].
  destruct (pa_elements _ _ _ Hp p ep ltac:(rewrite elem_of_app, !elem_of_cons; tauto) Hpp) as [_ (kp & Hkp & Hlp)].
  pose proof (partitioned_joined _ _ _ _ _ _ _ _ Hp Hf Hpp) as Hj. pose proof (jo_ne _ _ _ _ _ _ _ _ _ Hj) as Hne.
  pose proof Hp as Hp'. rewrite (app_assoc l1 [f] (p :: l2) : l1 ++ f :: p :: l2 = _) in Hp'.
  destruct (prev_of_middle _ _ _ _ _ _ Hp' Hpp) as [Hprev _]. rewrite last_snoc in Hprev.
  set (b := a + chunk_size ef) in *.
  pose proof (move_item_run s f p ef ep a b kf kp Hf Hpp Hne Ha Hb Hkf Hkp Hlf Hlp) as Hrun.
  replace (Z.abs (a - b)) with (chunk_size ef) in Hrun by (unfold b; lia). exists a, b, kf, kp. do 2 (split; [done|]).
  destruct (chunk_size ep <=? chunk_size ef); [|by rewrite (bind_fail _ _ _ _ Hrun)]. rewrite (bind_ok _ _ _ _ _ Hrun).
  rewrite <- (moved_size s f p ef ep a b kf kp Hf Hpp Hne).
  pose proof (partitioned_moved s l1 f p l2 fl ef ep a b kf kp Hp Hf Hpp Huf Hnk Ha Hlf Hlp) as Hpm.
  destruct (moved_lookups s f p ef ep a b kf kp Hf Hpp Hne Hprev) as (Hf' & Hpp' & Hw' & _).
  set (t := moved_state f p ef ep a b kf kp s) in *.
  destruct (compact_joins t l1 f p l2 fl _ _ Hpm Hf' Hpp') as (s' & fl' & c & Hrun' & Hps & Hpc & (Em & _ & Et & _) & Hkept).
  { intros w e Hw. rewrite Hw' by (apply (jo_distinct _ _ _ _ _ _ _ _ _ Hj); tauto). by apply Hfree. }
  destruct (item_at_lookup _ _ f _ (Hkept f ltac:(apply elem_of_app; right; by left)) Hf') as (ef' & Hef & Hif).
  exists s', fl', ef', c. split_and!; try done.
  intros w Hw. rewrite Hkept by (apply elem_of_app; by left). unfold item_at.
  by rewrite Hw' by (apply (jo_distinct _ _ _ _ _ _ _ _ _ Hj); tauto).
Qed.

(** C34: What compaction does to an item with a free partition in front of it, only partitions in use before
    that one, and only free ones behind the item.
    The copy of its bytes overlaps when the free partition is smaller than the item's.  Otherwise its
    bytes, its size and the bytes of its key are moved, and the layout is kept, but not the length of the key:
    the item cannot be found any more, although its bytes are there and its size is still counted, and what is
    free behind it looks reserved for ever, so that not one byte of the cache can be allocated. *)
Theorem compaction_loses_items s l1 f p l2 fl ef ep k n :
  one_to_move s l1 f p l2 fl ef ep -> has_key k n ep = true -> 0 < n -> head k <> Some 0 ->
  (forall w e, w ∈ l1 -> heap s !! w = Some e -> has_key k n e = false) ->
  diccionario_obtener k n s = Ok (Some p, s) /\
  if chunk_size ep <=? chunk_size ef then
    exists s' fl' ef' a b, diccionario_compactarMemoria s = Ok (tt, s') /\ partitioned s' (l1 ++ [f; p]) fl' /\
      (heap s' !! f = Some ef' /\ Diccionario.data ef' = Some a /\ Diccionario.data ep = Some b /\
       data_size ef' = data_size ep /\ read_bytes (memoria s') a (chunk_size ep) = read_bytes (memoria s) b (chunk_size ep)) /\
      diccionario_obtener k n s' = Ok (None, s') /\
      (forall size, first_fit (length (l1 ++ [f; p])) (elements (dic s')) size s' = Ok (None, s')) /\
      table_current_size (dic s') = table_current_size (dic s)
  else diccionario_compactarMemoria s = Fail Overlap.
Proof.
  intros Hom Hk Hn Hz Hl1. destruct (compact_moves s l1 f p l2 fl ef ep Hom) as (a & b & kf & kp & Ha & Hb & Hrun).
  destruct Hom as [Hp Hu1 [Hf Huf] (Hpp & Hop & Hnk) Hfree]. split.
  { rewrite (app_assoc l1 [f] (p :: l2) : l1 ++ f :: p :: l2 = _) in Hp.
    rewrite (diccionario_obtener_ok _ _ _ k n Hp), (find_elem_found _ _ (l1 ++ [f]) p l2 ep); [done| |done|done].
    intros w e [Hw| ->%list_elem_of_singleton]%elem_of_app He; [by apply (Hl1 w)|].
    assert (e = ef) as -> by congruence. by apply has_key_free. }
  destruct (chunk_size ep <=? chunk_size ef); [|done].
  destruct Hrun as (s' & fl' & ef' & c & Hrun & Hp' & Hf' & Hif & Hpp' & Em & Et & Hkept).
  destruct (moved_hidden f ef ep a kf kp k n c Huf Hnk Hn Hz) as [[H1 H2] [H3 H4]].
  destruct (nothing_found s' _ fl' k n Hp') as [Hobt Hfit].
  { intros w e Hw He. rewrite elem_of_app, !elem_of_cons in Hw. destruct Hw as [Hw|[->|[->|[]%not_elem_of_nil]]].
    - destruct (item_at_lookup _ (heap s) w e (eq_sym (Hkept w Hw)) He) as (e0 & He0 & Hi).
      destruct (item_in_use e0 e k n Hi) as [<- <-]. split; [by apply (Hu1 w)|by apply (Hl1 w)].
    - assert (e = ef') as -> by congruence. by destruct (item_in_use ef' _ k n Hif) as [-> ->].
    - assert (e = set_next None (set_chunk_size c (moved_from f ef ep a kp))) as -> by congruence. done. }
  pose proof (f_equal Diccionario.data Hif). pose proof (f_equal data_size Hif). cbn in *.
  exists s', fl', ef', a, b. split_and!; try done; try congruence. rewrite Em. apply read_moved.
Qed.
