(* ===== verification/Buddy.v ===== *)
(** * Buddy: the buddy system

    Models [rc/source/diccionario_buddy.c]: partitions are halved until the
    half would be too small, and an item that is removed is joined with its
    brother while that one is free and of the same size. *)

From S2P Require Import Prelude Memory Diccionario.

(** The memory has the next lower power of two; [table_max_size] keeps the
    size that was asked for. *)
Definition diccionario_crear_buddy (max_size slab_size : Z) (behind_nodes : option t_dict_element)
    (m : mem) (now : Z) : res (rc * Z) :=
  let cant_max_hojas := Z.to_nat (max_size / slab_size) in
  let s := {|
    heap := nodes_array cant_max_hojas behind_nodes;
    dic := {| nodes := Some 1%nat; elements := Some 0%nat; table_max_size := max_size;
              table_current_size := 0; slab_min_size := slab_size; lru := false;
              bestfit := false; compactarMemoria := 0; frecuenciaCompactacion := 0 |};
    memoria := m; clock := now |} in
  match inicializarElementos cant_max_hojas s with
  | Ok (_, s) => Ok (s, power_two_low max_size)
  | Fail e => Fail e
  end.

(** NULL nodes are dereferenced. *)
Definition agregarHijosDePadre (padre : nat) : MR unit :=
  d ← get_dic;
  hno ← deref (nodes d);
  h ← at_ hno;
  set_if (next h) (set_prev None);;
  set_dic (set_nodes (next h));;
  p ← at_ padre;
  set_if (next p) (set_prev (Some hno));;
  set_at hno (fun h => set_prev (Some padre) (set_next (next p) h));;
  set_at padre (set_next (Some hno));;
  set_at hno (set_chunk_size (Z.quot (chunk_size p) 2));;
  set_at padre (set_chunk_size (Z.quot (chunk_size p) 2));;
  dat ← deref (data p);
  set_at hno (set_data (Some (dat + Z.quot (chunk_size p) 2))).

(** The number of partitions of the size of [item] in front of it. *)
Fixpoint esElPrimerHermano_loop (fuel : nat) (aux_item : option nat) (item : nat)
    (tamanio cantidad subtamanio : Z) : MR Z :=
  match aux_item, fuel with
  | None, _ => mret cantidad
  | Some _, O => fail OutOfFuel
  | Some p, S fuel =>
      if (p =? item)%nat then mret cantidad
      else
        a ← at_ p;
        if chunk_size a <? tamanio then
          let subtamanio := subtamanio + Z.rem (chunk_size a) tamanio in
          if subtamanio =? tamanio
          then esElPrimerHermano_loop fuel (next a) item tamanio (cantidad + 1) 0
          else esElPrimerHermano_loop fuel (next a) item tamanio cantidad subtamanio
        else if tamanio =? 0 then fail DivByZero
        else esElPrimerHermano_loop fuel (next a) item tamanio
               (cantidad + Z.quot (chunk_size a) tamanio) subtamanio
  end.

Definition esElPrimerHermano (item : nat) : MR bool :=
  d ← get_dic;
  fuel ← list_fuel;
  e ← at_ item;
  cantidad ← esElPrimerHermano_loop fuel (elements d) item (chunk_size e) 0 0;
  mret (Z.rem cantidad 2 =? 0).

(** The brother, and the address the joined partition will have. *)
Definition brother (it : nat) (data_now : option Z) : MR (option nat * option Z) :=
  e ← at_ it;
  primero ← esElPrimerHermano it;
  if (primero : bool) then mret (next e, data_now)
  else
    hno ← deref (prev e);
    h ← at_ hno;
    mret (Some hno, data h).

Fixpoint join_brothers (fuel : nat) (it : nat) (hno : option nat) (dat : option Z) : MR unit :=
  match hno, fuel with
  | None, _ => mret tt
  | Some _, O => fail OutOfFuel
  | Some p, S fuel =>
      h ← at_ p;
      e ← at_ it;
      if negb (ocupado h) && negb (estaReservado h) && (chunk_size h =? chunk_size e) then
        set_at p (fun h => set_data None (set_chunk_size 0 h));;
        match prev h with
        | Some q => set_at q (set_next (next h))
        | None => set_dic (set_elements (next h))
        end;;
        set_if (next h) (set_prev (prev h));;
        set_at p (set_prev None);;
        release_node p;;
        set_at it (fun e => set_chunk_size (chunk_size e * 2) (set_data dat e));;
        b ← brother it dat;
        join_brothers fuel it (fst b) (snd b)
      else mret tt
  end.

Definition diccionario_eliminar_buddy (it : nat) : MR nat :=
  e ← at_ it;
  b ← brother it (data e);
  clear_item it;;
  fuel ← list_fuel;
  join_brothers fuel it (fst b) (snd b);;
  mret it.

(** while (item->chunk_size / 2 >= aux_data_size && nodes != NULL) *)
Fixpoint split_down (fuel : nat) (item : nat) (aux_data_size : Z) : MR unit :=
  match fuel with
  | O => fail OutOfFuel
  | S fuel =>
      e ← at_ item;
      d ← get_dic;
      if (Z.quot (chunk_size e) 2 >=? aux_data_size) && bool_decide (nodes d <> None) then
        agregarHijosDePadre item;;
        split_down fuel item aux_data_size
      else mret tt
  end.

Fixpoint obtenerDireccion_buddy_loop (rounds : nat) (aux_data_size data_size : Z) : MR (option nat) :=
  d ← get_dic;
  if negb (aux_data_size <=? table_max_size d) then mret None
  else
    match rounds with
    | O => fail OutOfFuel
    | S rounds =>
        fuel ← list_fuel;
        item ← first_fit fuel (elements d) aux_data_size;
        match item with
        | None =>
            victima ← diccionario_elegirVictima;
            diccionario_eliminar_buddy victima;;
            obtenerDireccion_buddy_loop rounds aux_data_size data_size
        | Some item =>
            item ← (if bestfit d then best_fit fuel (Some item) item aux_data_size else mret item);
            split_down fuel item aux_data_size;;
            set_at item (set_data_size data_size);;
            set_dic (fun d => set_table_current_size (table_current_size d + data_size) d);;
            mret (Some item)
        end
    end.

Definition diccionario_obtenerDireccion_buddy (rounds : nat) (data_size : Z) : MR (option nat) :=
  d ← get_dic;
  obtenerDireccion_buddy_loop rounds (max (s32 data_size) (slab_min_size d)) data_size.
