(* ===== verification/BuddyFacts.v ===== *)
(** * BuddyFacts: the buddy system keeps its buddies

    The invariant of the buddy system ([buddies]): the partitions of
    [Particiones], each of a power of two and at a multiple of its size.
    Against it: [esElPrimerHermano] finds the side of a partition, halving
    and joining keep the invariant, and an item that is removed is joined as
    far as its brothers are free. *)

From S2P Require Import Prelude Memory Diccionario Dinamicas Buddy Particiones Liberacion.

Implicit Types (h : gmap nat t_dict_element) (l fl : list nat) (s : rc) (e : t_dict_element).

(** ** Powers of two and alignment *)

Definition power_of_two (n : Z) : Prop := exists k, 0 <= k /\ n = 2 ^ k.

Lemma power_pos n : power_of_two n -> 0 < n.
Proof. intros (k & Hk & ->). lia. Qed.

Lemma power_divide m n : power_of_two m -> power_of_two n -> m <= n -> (m | n).
Proof.
  intros (j & Hj & ->) (k & Hk & ->) Hle. apply Z.pow_le_mono_r_iff in Hle; [|lia..].
  exists (2 ^ (k - j)). rewrite <- Z.pow_add_r by lia. f_equal. lia.
Qed.

Lemma power_half n : power_of_two n -> 1 < n -> exists m, power_of_two m /\ n = 2 * m /\ Z.quot n 2 = m.
Proof.
  intros (k & Hk & ->) Hn. assert (0 < k) by (destruct (decide (k = 0)) as [->|]; lia).
  assert (2 ^ k = 2 * 2 ^ (k - 1)) as E by (rewrite <- Z.pow_succ_r by lia; f_equal; lia).
  exists (2 ^ (k - 1)). split; [exists (k - 1); lia|]. split; [done|].
  rewrite E, Z.quot_div_nonneg, Z.mul_comm, Z.div_mul; lia.
Qed.

Lemma power_double n : power_of_two n -> power_of_two (n * 2).
Proof. intros (k & Hk & ->). exists (k + 1). rewrite Z.pow_add_r by lia. lia. Qed.

(** A partition of a power of two at a multiple of its size. *)
Definition aligned_at (n : Z) (d : Z) : Prop := power_of_two n /\ (n | d).

Definition aligned h l : Prop :=
  forall x e d, x ∈ l -> h !! x = Some e -> Diccionario.data e = Some d -> aligned_at (chunk_size e) d.

Record buddies s l fl : Prop := {
  bu_partitioned : partitioned s l fl;
  bu_aligned : aligned (heap s) l
}.

(** ** Which of the brothers *)

(** One element in front of the item: [c] is its address, and [cantidad] and
    [subtamanio] count what is in front of it in units of [t]. *)
Lemma count_step n t c cantidad subtamanio :
  aligned_at n c -> power_of_two t -> cantidad * t + subtamanio = c -> 0 <= subtamanio < t ->
  if n <? t
  then Z.rem n t = n /\ subtamanio + n <= t
  else subtamanio = 0 /\ (cantidad + Z.quot n t) * t = c + n.
Proof.
  intros [Hn [j Hj]] Ht Hc Hs. pose proof (power_pos _ Hn). pose proof (power_pos _ Ht).
  destruct (Z.ltb_spec n t) as [Hlt|Hge].
  - destruct (power_divide n t Hn Ht ltac:(lia)) as [i Hi]. split; [rewrite Z.rem_small; lia|].
    assert (subtamanio = (j - cantidad * i) * n) as E by (rewrite Z.mul_sub_distr_r; nia).
    assert (j - cantidad * i < i) by nia. nia.
  - destruct (power_divide t n Ht Hn ltac:(lia)) as [i Hi].
    assert (subtamanio = (j * i - cantidad) * t) as E by nia.
    assert (j * i - cantidad = 0) as E0 by nia.
    split; [nia|]. subst n. rewrite Z.quot_mul by lia. nia.
Qed.

Lemma hermano_loop_ok fuel s prv p l1 x l2 e c a cantidad subtamanio :
  dlseg (heap s) prv p (l1 ++ x :: l2) None -> tiles (heap s) c l1 a -> aligned (heap s) l1 -> x ∉ l1 ->
  power_of_two (chunk_size e) -> (length l1 < fuel)%nat ->
  cantidad * chunk_size e + subtamanio = c -> 0 <= subtamanio < chunk_size e ->
  exists r subtamanio', esElPrimerHermano_loop fuel p x (chunk_size e) cantidad subtamanio s = Ok (r, s) /\
    r * chunk_size e + subtamanio' = a /\ 0 <= subtamanio' < chunk_size e.
Proof.
  revert prv p fuel c cantidad subtamanio.
  induction l1 as [|y l1 IH]; intros prv p fuel c cantidad sub Hl Ht Hal Hx He Hf Hc Hs.
  - destruct Hl as (-> & _). destruct fuel as [|fuel]; [simpl in Hf; lia|]. simpl in Ht. subst a.
    exists cantidad, sub. split; [|lia]. cbn [esElPrimerHermano_loop]. by rewrite Nat.eqb_refl.
  - destruct Hl as (-> & q & Hq & Hl), Ht as (ey & Hey & Hd & Hcy & Ht).
    apply not_elem_of_cons in Hx as [Hxy Hx]. destruct fuel as [|fuel]; [simpl in Hf; lia|]. simpl in Hf.
    unfold links in Hq. rewrite Hey in Hq. injection Hq as _ Hq.
    pose proof (Hal y ey c ltac:(by left) Hey Hd) as Hcal.
    pose proof (count_step _ _ _ _ _ Hcal He Hc Hs) as Hstep. pose proof (power_pos _ He).
    assert (aligned (heap s) l1) as Hal1 by (intros w ew dw Hw; apply Hal; by right).
    cbn [esElPrimerHermano_loop]. rewrite (proj2 (Nat.eqb_neq y x)) by congruence.
    rewrite (bind_ok _ _ _ _ _ (at_ok _ _ _ Hey)), Hq.
    destruct (chunk_size ey <? chunk_size e).
    + destruct Hstep as [-> Hle]. destruct (Z.eqb_spec (sub + chunk_size ey) (chunk_size e)) as [E|E];
        (eapply IH; [exact Hl|exact Ht|done|done|done|lia|lia|lia]).
    + destruct Hstep as [-> Hcount]. rewrite (proj2 (Z.eqb_neq _ _)) by lia.
      eapply IH; [exact Hl|exact Ht|done|done|done|lia|lia|lia].
Qed.

(** The partition is the first one of its two. *)
Definition is_first (d n : Z) : bool := Z.even (d / n).

Lemma buddies_at s l1 x l2 fl e d :
  buddies s (l1 ++ x :: l2) fl -> heap s !! x = Some e -> Diccionario.data e = Some d ->
  tiles (heap s) 0 l1 d /\ tiles (heap s) (d + chunk_size e) l2 (table_max_size (dic s)) /\
  aligned_at (chunk_size e) d.
Proof.
  intros [Hp Hal] Hx Hd. pose proof (pa_tiles _ _ _ Hp) as (c & H1 & e' & He' & Hd' & Hc' & H2)%tiles_app.
  assert (e' = e) as -> by congruence. assert (c = d) as -> by congruence. split_and!; try done.
  apply (Hal x); [apply elem_of_app; right; by left|done|done].
Qed.

Lemma esElPrimerHermano_ok s l1 x l2 fl e d :
  buddies s (l1 ++ x :: l2) fl -> heap s !! x = Some e -> Diccionario.data e = Some d ->
  esElPrimerHermano x s = Ok (is_first d (chunk_size e), s).
Proof.
  intros Hb Hx Hd. pose proof Hb as [Hp Hal]. destruct (buddies_at _ _ _ _ _ _ _ Hb Hx Hd) as (Ht & _ & Hpow & Hdiv).
  pose proof (partitioned_fuel _ _ _ Hp) as Hfuel. rewrite length_app in Hfuel. simpl in Hfuel.
  pose proof (pa_nodup _ _ _ Hp) as (Hnd & _ & _)%NoDup_app. apply NoDup_middle in Hnd as [Hx12 _].
  pose proof (power_pos _ Hpow) as Hpos.
  destruct (hermano_loop_ok (Datatypes.S (size (heap s))) s None (elements (dic s)) l1 x l2 e 0 d 0 0)
    as (r & sub & Hrun & Hr & Hsub); [apply Hp|done| | |done|lia|lia|lia|].
  { intros w ew dw Hw. apply Hal, elem_of_app. by left. }
  { intros Hin. apply Hx12, elem_of_app. by left. }
  unfold esElPrimerHermano, get_dic, list_fuel. rewrite (bind_ok _ _ s (dic s) s) by done.
  rewrite (bind_ok _ _ s (Datatypes.S (size (heap s))) s) by done.
  rewrite (bind_ok _ _ _ _ _ (at_ok _ _ _ Hx)), (bind_ok _ _ _ _ _ Hrun).
  unfold mret, M_ret, is_first. do 3 f_equal. destruct Hdiv as [j ->].
  assert (sub = (j - r) * chunk_size e) by nia. assert (r = j) as -> by nia.
  rewrite Z.div_mul by lia.
  assert (0 <= j) by (assert (0 <= j * chunk_size e); [|nia]; by eapply tiles_le).
  rewrite Z.rem_mod_nonneg by lia. by rewrite Zeven_mod.
Qed.

(** ** Halving *)

Lemma alter_if_comm f g p q h : p <> Some q -> alter_if f p (alter g q h) = alter g q (alter_if f p h).
Proof. destruct p as [p|]; [|done]. intros Hp. simpl. apply alter_alter_ne. congruence. Qed.

(** Halving leaves the state that a cut in the middle leaves. *)
Lemma agregar_run s l1 x n l2 fl e en m d :
  partitioned s (l1 ++ x :: l2) (n :: fl) -> cut (heap s) l1 x n l2 fl e en -> next en = head fl ->
  Diccionario.data e = Some d -> chunk_size e = 2 * m -> 0 <= m ->
  agregarHijosDePadre x s = Ok (tt, cut_state x n e en m d fl s).
Proof.
  intros Hp Hcut Hen Hd Hm Hm0. pose proof (cut_x _ _ _ _ _ _ _ _ Hcut) as Hx. pose proof (cut_n _ _ _ _ _ _ _ _ Hcut) as Hn.
  pose proof (pa_free _ _ _ Hp) as (Hnodes & q & Hq & Hfl).
  rewrite (slseg_head _ _ _ Hfl) in Hfl. pose proof (cut_live _ _ _ _ _ _ _ _ Hp Hcut Hfl) as (Hnx & Hny & Hz).
  pose proof (cut_ne _ _ _ _ _ _ _ _ Hcut) as Hne.
  assert (next en <> Some n) as Hnn by (apply (cut_free_not _ _ _ _ _ _ _ _ Hcut); tauto).
  assert (next e <> Some n) as Hen' by (apply (cut_next_not _ _ _ _ _ _ _ _ Hcut); tauto).
  assert (next e <> Some x) as Hex' by (apply (cut_next_not _ _ _ _ _ _ _ _ Hcut); tauto).
  assert (idle en) as (Hch & _) by (apply (pa_idle _ _ _ Hp n en); [by left|done]).
  assert (Z.quot (chunk_size e) 2 = m) as Hquot.
  { rewrite Hm, Z.quot_div_nonneg, Z.mul_comm, Z.div_mul by lia. done. }
  unfold agregarHijosDePadre, get_dic, set_dic, modify. rewrite (bind_ok _ _ s (dic s) s) by done.
  rewrite Hnodes. cbn [deref]. rewrite (bind_ok _ _ s n s) by done. rewrite (bind_ok _ _ _ _ _ (at_ok _ _ _ Hn)).
  erewrite bind_ok by (by apply set_if_alter). erewrite bind_ok by done.
  cbn [heap dic with_heap with_dic].
  assert (alter_if (set_prev None) (next en) (heap s) !! x = Some e) as Hx1 by by rewrite lookup_alter_if_ne.
  erewrite bind_ok by (apply at_ok; exact Hx1).
  assert (is_Some (heap s !! x) /\ is_Some (heap s !! n)) as [Ix In] by (split; eauto).
  erewrite bind_ok by (apply set_if_alter; intros y ?; heap_some). rewrite Hquot.
  do 4 erewrite bind_ok by (apply set_at_alter; heap_some).
  rewrite Hd. cbn [deref]. erewrite bind_ok by done. rewrite set_at_alter by heap_some.
  unfold cut_state, split_heap. cbn [heap dic with_heap with_dic memoria clock]. do 2 f_equal.
  unfold with_heap, with_dic. cbn [dic memoria clock heap]. rewrite Hen. f_equal. rewrite Hen in *.
  set (h := alter_if (set_prev None) (head fl) (heap s)).
  assert (h !! n = Some en) as Hhn by (subst h; by rewrite lookup_alter_if_ne).
  apply map_eq. intros w. rewrite !alter_if_comm by done.
  destruct (decide (w = n)) as [->|Hwn]; [|destruct (decide (w = x)) as [->|Hwx]];
    repeat first [rewrite lookup_alter_eq | rewrite lookup_alter_ne by done]; [|done|done].
  rewrite lookup_alter_if_ne, Hhn by done. cbn. rewrite Hch, Hm. do 3 f_equal. lia.
Qed.

(** The first free node takes the second half. *)
Lemma halve_step s l1 x l2 n fl e m :
  buddies s (l1 ++ x :: l2) (n :: fl) -> heap s !! x = Some e -> power_of_two m -> chunk_size e = 2 * m ->
  exists s1 e1, agregarHijosDePadre x s = Ok (tt, s1) /\ was_cut s s1 l1 x l2 (n :: fl) e m [n] fl /\
    heap s1 !! x = Some e1 /\ chunk_size e1 = m /\ buddies s1 (l1 ++ x :: n :: l2) fl.
Proof.
  intros Hb Hx Hpm Hm. pose proof Hb as [Hp Hal]. pose proof (power_pos _ Hpm).
  destruct (partitioned_cut _ _ _ _ _ _ _ Hp Hx) as (en & Hcut & Hen & Hfl).
  destruct (partitioned_data _ _ _ _ _ _ Hp Hx) as [d Hd].
  destruct (buddies_at _ _ _ _ _ _ _ Hb Hx Hd) as (_ & _ & _ & [j Hj]).
  pose proof (cut_was_cut s l1 x l2 n fl e en m d Hp Hcut Hd ltac:(lia)) as Hwc.
  destruct (cut_lookup _ _ _ _ _ _ _ _ m d Hcut) as [Lx Ln].
  assert (idle en) as (Hch & _) by (apply (pa_idle _ _ _ Hp n en); [by left|apply Hcut]).
  exists (cut_state x n e en m d fl s). eexists. split_and!.
  - eapply agregar_run; try done. lia.
  - done.
  - exact Lx.
  - done.
  - split; [apply Hwc|]. intros w ew dw Hw Hew Hdw. cbn [cut_state heap with_heap] in Hew.
    apply elem_of_app in Hw as [Hw|[->|[->|Hw]%elem_of_cons]%elem_of_cons].
    2: { rewrite Lx in Hew. injection Hew as <-. cbn in *. split; [done|]. exists (j * 2).
         assert (dw = d) as -> by congruence. lia. }
    2: { rewrite Ln in Hew. injection Hew as <-. cbn in *. injection Hdw as <-. rewrite Hch, Hm.
         replace (0 + (2 * m - m)) with m by lia. split; [done|]. exists (j * 2 + 1). lia. }
    all: destruct (item_at_lookup (split_heap (heap s) x n e en m d) (heap s) w ew) as (e0 & He0 & Hi); [|done|];
      [symmetry; apply (cut_items _ l1 _ _ l2 fl); [done|tauto]|].
    all: apply (f_equal chunk_size) in Hi as Hic; apply (f_equal Diccionario.data) in Hi as Hid; cbn in Hic, Hid.
    all: rewrite <- Hic; apply (Hal w e0 dw); [rewrite elem_of_app, elem_of_cons; tauto|done|congruence].
Qed.

Lemma split_down_ok fuel s l1 x l2 fl e a :
  buddies s (l1 ++ x :: l2) fl -> heap s !! x = Some e -> 0 < a <= chunk_size e -> (length fl < fuel)%nat ->
  exists s' new fl' e', split_down fuel x a s = Ok (tt, s') /\ was_cut s s' l1 x l2 fl e a new fl' /\
    buddies s' (l1 ++ x :: new ++ l2) fl' /\ heap s' !! x = Some e' /\ (chunk_size e' < 2 * a \/ fl' = []).
Proof.
  revert s l2 fl e. induction fuel as [|fuel IH]; intros s l2 fl e Hb Hx Ha Hf; [lia|].
  pose proof Hb as [Hp Hal]. pose proof (slseg_head _ _ _ (pa_free _ _ _ Hp)) as Hnodes.
  destruct (partitioned_data _ _ _ _ _ _ Hp Hx) as [d Hd].
  destruct (buddies_at _ _ _ _ _ _ _ Hb Hx Hd) as (_ & _ & Hpow & _).
  cbn [split_down]. rewrite (bind_ok _ _ _ _ _ (at_ok _ _ _ Hx)). unfold get_dic at 1.
  rewrite (bind_ok _ _ s (dic s) s) by done. rewrite Hnodes, Z.geb_leb.
  destruct fl as [|n fl].
  { rewrite andb_false_r. exists s, [], [], e. split_and!; try done; [apply was_cut_nothing; [done|done|lia]|by right]. }
  rewrite bool_decide_eq_true_2, andb_true_r by done.
  destruct (Z.leb_spec a (Z.quot (chunk_size e) 2)) as [Hle|Hgt].
  - destruct (power_half (chunk_size e)) as (m & Hpm & Em & Eq); [done| |].
    { rewrite Z.quot_div_nonneg in Hle by lia. pose proof (Z.mul_div_le (chunk_size e) 2 ltac:(lia)). lia. }
    destruct (halve_step _ _ _ _ _ _ _ _ Hb Hx Hpm Em) as (s1 & e1 & Hrun & Hwc & Hx1 & Hc1 & Hb1).
    rewrite (bind_ok _ _ _ _ _ Hrun).
    destruct (IH s1 (n :: l2) fl e1 Hb1 Hx1 ltac:(lia) ltac:(simpl in Hf; lia)) as
      (s' & new & fl' & e' & Hrun' & Hwc' & Hb' & Hx' & Hend).
    exists s', (new ++ [n]), fl', e'. split_and!; try done.
    + eapply was_cut_trans; [exact Hwc|exact Hx1|done].
    + by rewrite <- app_assoc.
  - exists s, [], (n :: fl), e. split_and!; try done; [apply was_cut_nothing; [done|done|lia]|].
    left. rewrite Z.quot_div_nonneg in Hgt by lia. pose proof (Z.div_lt_upper_bound (chunk_size e) 2 a).
    pose proof (Z.mod_pos_bound (chunk_size e) 2 ltac:(lia)). pose proof (Z.div_mod (chunk_size e) 2 ltac:(lia)). lia.
Qed.

Lemma obtenerDireccion_buddy_fit rounds s l fl n x0 :
  buddies s l fl -> 0 < slab_min_size (dic s) ->
  let a := max (s32 n) (slab_min_size (dic s)) in
  a <= table_max_size (dic s) -> find_elem (heap s) (fits a) l = Some x0 ->
  exists x e l1 l2 s1 new fl' e', chosen s l a x e /\ l = l1 ++ x :: l2 /\
    was_cut s s1 l1 x l2 fl e a new fl' /\ buddies s1 (l1 ++ x :: new ++ l2) fl' /\
    heap s1 !! x = Some e' /\ (chunk_size e' < 2 * a \/ fl' = []) /\
    diccionario_obtenerDireccion_buddy (Datatypes.S rounds) n s = Ok (Some x, with_size x n s1).
Proof.
  intros Hb Hslab a Ha Hfind. pose proof Hb as [Hp Hal].
  assert (0 < a) as Ha0 by (unfold a, max; case_test; lia).
  destruct (pick_ok _ _ _ _ _ Hp Hfind) as (x & e & Hch & Hpick).
  pose proof Hch as (Hx & He & Hfit & _). apply fits_spec in Hfit as [Hu Hsz].
  apply list_elem_of_split in Hx as (l1 & l2 & ->).
  destruct (split_down_ok (Datatypes.S (size (heap s))) s l1 x l2 fl e a Hb He) as
    (s1 & new & fl' & e' & Hrun & Hcut & Hb1 & He' & Hend); [lia| |].
  { pose proof (pa_nodup _ _ _ Hp) as (_ & _ & Hnd)%NoDup_app.
    pose proof (size_le (heap s) fl Hnd (fun y Hy => slseg_elem _ _ _ _ (pa_free _ _ _ Hp) Hy)). lia. }
  exists x, e, l1, l2, s1, new, fl', e'. split_and!; try done.
  unfold diccionario_obtenerDireccion_buddy, get_dic. rewrite (bind_ok _ _ s (dic s) s) by done. fold a.
  cbn [obtenerDireccion_buddy_loop]. unfold get_dic at 1. rewrite (bind_ok _ _ s (dic s) s) by done.
  rewrite (proj2 (Z.leb_le _ _)) by done. cbn [negb].
  rewrite (bind_ok _ _ s (Datatypes.S (size (heap s))) s) by done.
  rewrite (bind_ok _ _ _ _ _ (first_fit_found _ _ _ _ _ Hp Hfind)).
  rewrite (bind_ok _ _ _ _ _ Hpick), (bind_ok _ _ _ _ _ Hrun).
  erewrite bind_ok by (apply set_at_alter; eauto). done.
Qed.

(** ** Taking a node out of the list *)

(** The heap after the node [p], whose element was [e], is taken out of the
    list and put in front of the free nodes. *)
Definition unlink_heap h (p : nat) e (nd : option nat) :=
  alter_if (set_prev (Some p)) nd
  (alter (set_next nd) p
  (alter (set_prev None) p
  (alter_if (set_prev (prev e)) (next e)
  (alter_if (set_next (next e)) (prev e)
  (alter (fun x => set_data None (set_chunk_size 0 x)) p h))))).

(** A new end for a list. *)
Lemma dlseg_set_last h prv p l nxt nxt' :
  NoDup l -> dlseg h prv p l nxt ->
  dlseg (alter_if (set_next nxt') (last l) h) prv (if l is [] then nxt' else p) l nxt'.
Proof.
  intros Hnd Hl. destruct l as [|x l _] using rev_ind; [done|]. rewrite last_snoc.
  apply dlseg_app in Hl as (q & Hl & -> & r & Hr & _). apply NoDup_app in Hnd as (_ & Hx & _).
  assert ((if l ++ [x] is [] then nxt' else p) = p) as -> by by destruct l.
  apply dlseg_app. exists (Some x). split.
  - eapply dlseg_ext; [|exact Hl]. intros y Hy. apply links_alter_ne. intros ->. apply (Hx y Hy). by left.
  - split; [done|]. exists nxt'. split; [|done]. cbn [alter_if]. rewrite links_alter, decide_True by done.
    unfold links in Hr. destruct (h !! x); [|done]. injection Hr as Hr _. cbn. by rewrite Hr.
Qed.

Section Unlink.
Variables (s : rc) (l1 : list nat) (p : nat) (l2 fl : list nat) (e : t_dict_element).
Hypotheses (Hp : partitioned s (l1 ++ p :: l2) fl) (He : heap s !! p = Some e).
Let h' := unlink_heap (heap s) p e (nodes (dic s)).

Lemma un_neighbours : prev e = last l1 /\ next e = head l2 /\ nodes (dic s) = head fl.
Proof using Hp He.
  destruct (prev_of_middle _ _ _ _ _ _ Hp He) as [-> ->]. split_and!; [done|done|]. eapply slseg_head, Hp.
Qed.

Lemma un_nodup : NoDup (l1 ++ l2) /\ (p ∉ l1 ++ l2) /\ NoDup ((l1 ++ l2) ++ p :: fl).
Proof using Hp.
  pose proof (pa_nodup _ _ _ Hp) as Hnd.
  assert ((l1 ++ p :: l2) ++ fl ≡ₚ (l1 ++ l2) ++ p :: fl) as E.
  { rewrite <- !app_assoc. cbn [app]. by rewrite (Permutation_middle l2 fl p). }
  rewrite E in Hnd. split_and!; [| |done]; apply NoDup_app in Hnd as (Hnd & Hdis & _); [done|].
  intros Hin. apply (Hdis p Hin). by left.
Qed.

Lemma un_not w : w ∈ l1 \/ w ∈ l2 -> w <> p /\ w ∉ fl.
Proof using Hp.
  destruct un_nodup as (_ & Hpn & (_ & Hdis & _)%NoDup_app). intros Hw%elem_of_app. split.
  - by intros ->.
  - intros Hin. apply (Hdis w Hw). by right.
Qed.

Lemma un_pointers : (prev e <> Some p) /\ (next e <> Some p) /\ nodes (dic s) <> Some p.
Proof using Hp He.
  destruct un_neighbours as (-> & -> & ->), un_nodup as (_ & Hpn & (_ & _ & [Hpf _]%NoDup_cons)%NoDup_app).
  rewrite elem_of_app in Hpn. split_and!; intros E.
  - apply last_Some_elem_of in E. tauto.
  - apply head_Some_elem_of in E. tauto.
  - by apply head_Some_elem_of in E.
Qed.

Lemma un_lookup : h' !! p = Some (set_next (nodes (dic s)) (set_prev None (set_data None (set_chunk_size 0 e)))).
Proof using Hp He.
  destruct un_pointers as (H1 & H2 & H3). unfold h', unlink_heap.
  rewrite lookup_alter_if_ne, !lookup_alter_eq, !lookup_alter_if_ne, lookup_alter_eq, He by done. done.
Qed.

Lemma un_items w : w <> p -> item_at h' w = item_at (heap s) w.
Proof using.
  intros Hw. unfold h', unlink_heap. rewrite item_alter_if, !(item_alter_ne _ p), !item_alter_if by done.
  by rewrite item_alter_ne.
Qed.

Lemma un_links w : w ∈ l1 \/ w ∈ l2 ->
  links h' w = links (alter_if (set_prev (last l1)) (head l2) (alter_if (set_next (head l2)) (last l1) (heap s))) w.
Proof using Hp He.
  intros Hw. destruct un_pointers as (H1 & H2 & _), (un_not w Hw) as [Hwp Hwf]. unfold h', unlink_heap.
  destruct un_neighbours as (E1 & E2 & ->). rewrite links_alter_if, !links_alter_ne.
  - by rewrite !alter_if_comm, E1, E2, links_alter_ne by done.
  - done.
  - done.
  - intros y Hy%head_Some_elem_of ->. done.
Qed.

Lemma un_dlseg :
  dlseg h' None (if prev e is None then next e else elements (dic s)) (l1 ++ l2) None.
Proof using Hp He.
  pose proof (pa_list _ _ _ Hp) as (q & H1 & -> & r & Hr & H2)%dlseg_app.
  destruct un_neighbours as (-> & -> & _), un_nodup as ((Hnd1 & Hdis & Hnd2)%NoDup_app & _).
  apply (dlseg_set_last _ _ _ _ _ (head l2) Hnd1) in H1. pose proof (dlseg_head _ _ _ _ H2) as ->.
  apply dlseg_app. exists (head l2). split.
  - assert ((match last l1 with Some _ => elements (dic s) | None => head l2 end)
            = (if l1 is [] then head l2 else elements (dic s))) as ->.
    { destruct l1 as [|x k _] using rev_ind; [done|]. rewrite last_snoc. by destruct k. }
    eapply dlseg_ext; [|exact H1]. intros w Hw. rewrite un_links by tauto. apply links_alter_if.
    intros y Hy%head_Some_elem_of ->. by apply (Hdis w).
  - assert (last_of None l1 = last l1) as -> by (unfold last_of; by destruct (last l1)).
    assert (dlseg (alter_if (set_next (head l2)) (last l1) (heap s)) (Some p) (head l2) l2 None) as H3.
    { eapply dlseg_ext; [|exact H2]. intros w Hw. apply links_alter_if.
      intros y Hy%last_Some_elem_of ->. by apply (Hdis w). }
    apply (dlseg_set_head _ _ (last l1) _ _ Hnd2) in H3. eapply dlseg_ext; [|exact H3].
    intros w Hw. apply un_links. tauto.
Qed.

Lemma un_slseg : slseg h' (Some p) (p :: fl).
Proof using Hp He.
  split; [done|]. exists (nodes (dic s)). split; [unfold links; by rewrite un_lookup|].
  eapply slseg_ext; [|apply Hp]. intros w Hw. 
  destruct un_nodup as (_ & _ & (_ & Hdis & [Hpf _]%NoDup_cons)%NoDup_app).
  assert (w <> p) as Hwp by (by intros ->).
  assert (w ∉ l1 ++ l2) as Hw12 by (intros Hin; apply (Hdis w Hin); by right).
  rewrite elem_of_app in Hw12. unfold h', unlink_heap. rewrite next_alter_if, !(links_alter_ne _ p) by done.
  destruct un_neighbours as (-> & -> & _).
  rewrite !links_alter_if, links_alter_ne; try done;
    [intros y Hy%last_Some_elem_of ->|intros y Hy%head_Some_elem_of ->]; tauto.
Qed.
End Unlink.

(** ** Joining two brothers *)

Definition twice (d : option Z) e : t_dict_element := set_chunk_size (chunk_size e * 2) (set_data d e).

(** The node [p] is taken out, and [it] has the partition of both, from [d]. *)
Definition absorb_state (it p : nat) ep (d : option Z) s : rc :=
  with_heap (alter (twice d) it (unlink_heap (heap s) p ep (nodes (dic s))))
    (with_dic (set_nodes (Some p)
      (match prev ep with Some _ => dic s | None => set_elements (next ep) (dic s) end)) s).

Lemma free_empty e : in_use e = false -> element_ok e -> empty e.
Proof.
  unfold in_use, estaReservado. intros Hu [Hok _]. destruct (Hok Hu) as [Hd _].
  destruct (ocupado e) eqn:Ho; [done|]. simpl in Hu. split_and!; [done| |done].
  destruct (Z.eqb_spec (nkey e) 0); done.
Qed.

Lemma twice_item d e1 e2 : item_of e1 = item_of e2 -> item_of (twice d e1) = item_of (twice d e2).
Proof. destruct e1, e2. unfold item_of, twice. cbn. intros [= ? ? ? ? ? ? ? ?]. by subst. Qed.

Section Absorb.
Variables (s : rc) (l1 : list nat) (p : nat) (l2 fl : list nat) (ep : t_dict_element).
Variables (it : nat) (eit : t_dict_element) (m1 m2 : list nat) (d c : Z).
Hypotheses (Hb : buddies s (l1 ++ p :: l2) fl) (Hep : heap s !! p = Some ep) (Hfree : in_use ep = false)
  (Hit : heap s !! it = Some eit) (Hm : l1 ++ l2 = m1 ++ it :: m2) (Hc : chunk_size eit = c)
  (Hd : aligned_at (2 * c) d)
  (Ht1 : tiles (heap s) 0 m1 d) (Ht2 : tiles (heap s) (d + 2 * c) m2 (table_max_size (dic s))).
Let s' := absorb_state it p ep (Some d) s.

Lemma ab_not w : w ∈ m1 \/ w ∈ m2 \/ w = it -> w <> p /\ (w ∈ fl -> False).
Proof using Hb Hm.
  intros Hw. destruct (un_not s l1 p l2 fl (bu_partitioned _ _ _ Hb) w) as [H1 H2]; [|done].
  rewrite <- elem_of_app, Hm, elem_of_app, elem_of_cons. tauto.
Qed.

Lemma ab_single w : w ∈ m1 \/ w ∈ m2 -> w <> it.
Proof using Hb Hm.
  destruct (un_nodup s l1 p l2 fl (bu_partitioned _ _ _ Hb)) as [Hnd _]. rewrite Hm in Hnd.
  apply NoDup_middle in Hnd as [Hn _]. intros Hw ->. apply Hn. by apply elem_of_app.
Qed.

Lemma ab_it : exists e', heap s' !! it = Some e' /\ item_of e' = item_of (twice (Some d) eit).
Proof using Hb Hm Hit.
  destruct (ab_not it ltac:(tauto)) as [Hne _].
  pose proof (un_items s p ep it Hne) as Hi.
  destruct (item_at_lookup _ _ it eit Hi Hit) as (e0 & He0 & Hi0).
  exists (twice (Some d) e0). cbn [s' absorb_state heap with_heap]. rewrite lookup_alter_eq, He0. split; [done|].
  by apply twice_item.
Qed.

Lemma ab_items w : w <> p -> w <> it -> item_at (heap s') w = item_at (heap s) w.
Proof using.
  intros Hp Hw. cbn [s' absorb_state heap with_heap]. rewrite item_alter_ne by done. by apply un_items.
Qed.

Lemma ab_old w e : w ∈ m1 \/ w ∈ m2 \/ w ∈ fl -> heap s' !! w = Some e ->
  exists e0, heap s !! w = Some e0 /\ item_of e0 = item_of e.
Proof using Hb Hm.
  intros Hw He. eapply item_at_lookup; [|exact He]. symmetry.
  destruct (un_nodup s l1 p l2 fl (bu_partitioned _ _ _ Hb)) as (_ & _ & (_ & _ & [Hpf _]%NoDup_cons)%NoDup_app).
  destruct (ab_not it ltac:(tauto)) as [_ Hitf].
  apply ab_items.
  - intros ->. destruct Hw as [Hw|[Hw|Hw]]; [..|done]; destruct (ab_not p); tauto.
  - intros ->. destruct Hw as [Hw|[Hw|Hw]]; [..|tauto]; destruct (ab_single it); tauto.
Qed.

Lemma ab_tiles : tiles (heap s') 0 (m1 ++ it :: m2) (table_max_size (dic s)).
Proof using All.
  assert (forall w, w ∈ m1 \/ w ∈ m2 -> item_at (heap s') w = item_at (heap s) w) as Hi.
  { intros w Hw. apply ab_items; [apply ab_not; tauto|by apply ab_single]. }
  destruct ab_it as (e' & He' & Hi'). apply (f_equal chunk_size) in Hi' as Hc'.
  apply (f_equal Diccionario.data) in Hi' as Hd'. cbn in Hc', Hd'. destruct Hd as [Hpow _]. apply power_pos in Hpow.
  apply tiles_app. exists d. split; [eapply tiles_ext; [|exact Ht1]; auto|].
  exists e'. split_and!; [done|done|lia|]. replace (chunk_size e') with (2 * c) by lia.
  eapply tiles_ext; [|exact Ht2]. auto.
Qed.

Lemma ab_used : used (heap s') (m1 ++ it :: m2) = table_current_size (dic s).
Proof using Hb Hep Hfree Hm Hit.
  pose proof (bu_partitioned _ _ _ Hb) as Hp. destruct (un_nodup s l1 p l2 fl Hp) as (Hnd & Hpn & _).
  rewrite <- Hm. destruct (ab_not it ltac:(tauto)) as [Hne _].
  destruct (item_at_lookup _ _ it eit (un_items s p ep it Hne) Hit) as (e0 & He0 & _).
  cbn [s' absorb_state heap with_heap]. rewrite (used_alter _ it _ _ e0); [|done| |done].
  2: { rewrite Hm, elem_of_app, elem_of_cons. tauto. }
  rewrite (used_ext (heap s)).
  2: { intros w Hw. apply un_items. by intros ->. }
  assert (p ∈ l1 ++ p :: l2) as Hpin by (apply elem_of_app; right; by left).
  destruct (free_empty ep Hfree (pa_elements _ _ _ Hp p ep Hpin Hep)) as (_ & _ & Hds).
  rewrite <- (pa_used _ _ _ Hp), !used_app, (used_cons _ _ _ _ Hep), Hds. cbn. lia.
Qed.

Lemma ab_elements w e : w ∈ m1 ++ it :: m2 -> heap s' !! w = Some e -> element_ok e.
Proof using Hb Hm Hit.
  pose proof (pa_elements _ _ _ (bu_partitioned _ _ _ Hb)) as Hel.
  assert (forall w, w ∈ m1 ++ it :: m2 -> w ∈ l1 ++ p :: l2) as Hin.
  { intros x. rewrite <- Hm, !elem_of_app, elem_of_cons. tauto. }
  intros Hw He. pose proof (Hin w Hw) as Hwl. apply elem_of_app in Hw as [Hw|[->|Hw]%elem_of_cons].
  2: { destruct ab_it as (e' & He' & Hi'). assert (e' = e) as -> by congruence.
       eapply element_ok_item; [exact (eq_sym Hi')|]. change (element_ok eit). by apply (Hel it). }
  all: destruct (ab_old w e ltac:(tauto) He) as (e0 & He0 & Hi); eapply element_ok_item; [exact Hi|];
    by apply (Hel w).
Qed.

Lemma ab_idle w e : w ∈ p :: fl -> heap s' !! w = Some e -> idle e /\ element_ok e.
Proof using Hb Hep Hfree Hm.
  pose proof (bu_partitioned _ _ _ Hb) as Hp. intros [->|Hw]%elem_of_cons He.
  - destruct (ab_not it ltac:(tauto)) as [Hne _]. cbn [s' absorb_state heap with_heap] in He.
    rewrite lookup_alter_ne, (un_lookup s l1 p l2 fl ep Hp Hep) in He by done. injection He as <-.
    assert (p ∈ l1 ++ p :: l2) as Hpin by (apply elem_of_app; right; by left).
    pose proof (pa_elements _ _ _ Hp p ep Hpin Hep) as Hok. split; [|exact Hok].
    destruct (free_empty ep Hfree Hok) as (H1 & H2 & H3). done.
  - destruct (ab_old w e ltac:(tauto) He) as (e0 & He0 & Hi).
    destruct (pa_idle _ _ _ Hp w e0 Hw He0) as [(H1 & H2 & H3 & H4) Hok].
    split; [|by eapply element_ok_item].
    pose proof (f_equal chunk_size Hi). pose proof (f_equal ocupado Hi).
    pose proof (f_equal nkey Hi). pose proof (f_equal data_size Hi). cbn in *. unfold idle. intuition congruence.
Qed.

Lemma ab_aligned : aligned (heap s') (m1 ++ it :: m2).
Proof using All.
  intros w e dw Hw He Hdw. assert (w ∈ l1 ++ p :: l2) as Hwl.
  { rewrite <- Hm in Hw. rewrite elem_of_app, elem_of_cons in *. tauto. }
  apply elem_of_app in Hw as [Hw|[->|Hw]%elem_of_cons].
  2: { destruct ab_it as (e' & He' & Hi'). assert (e' = e) as -> by congruence.
       apply (f_equal chunk_size) in Hi' as Hc'. apply (f_equal Diccionario.data) in Hi' as Hd'. cbn in Hc', Hd'.
       assert (dw = d) as -> by congruence. by replace (chunk_size e) with (2 * c) by lia. }
  all: destruct (ab_old w e ltac:(tauto) He) as (e0 & He0 & Hi);
    apply (f_equal chunk_size) in Hi as Hc'; apply (f_equal Diccionario.data) in Hi as Hd'; cbn in Hc', Hd';
    rewrite <- Hc'; apply (bu_aligned _ _ _ Hb w e0); [done|done|congruence].
Qed.

Lemma ab_buddies : buddies s' (m1 ++ it :: m2) (p :: fl).
Proof using All.
  pose proof (bu_partitioned _ _ _ Hb) as Hp. destruct (un_nodup s l1 p l2 fl Hp) as (Hnd & _ & Hnd').
  split; [|apply ab_aligned].
  assert (forall w, links (heap s') w = links (unlink_heap (heap s) p ep (nodes (dic s))) w) as Hlinks.
  { intros w. by apply links_alter_same. }
  split.
  - rewrite <- Hm. pose proof (un_dlseg s l1 p l2 fl ep Hp Hep) as Hl.
    replace (elements (dic s')) with (if prev ep is None then next ep else elements (dic s))
      by (cbn; by destruct (prev ep)).
    eapply dlseg_ext; [|exact Hl]. auto.
  - eapply slseg_ext; [|apply (un_slseg s l1 p l2 fl ep Hp Hep)]. intros w _. by rewrite Hlinks.
  - by rewrite <- Hm.
  - pose proof ab_tiles as Ht. cbn. by destruct (prev ep).
  - pose proof ab_used as Hu. cbn in *. by destruct (prev ep).
  - apply ab_elements.
  - apply ab_idle.
Qed.
End Absorb.

(** ** Brothers *)

Lemma brother_ok s l1 x l2 fl e d :
  buddies s (l1 ++ x :: l2) fl -> heap s !! x = Some e -> Diccionario.data e = Some d ->
  if is_first d (chunk_size e)
  then brother x (Some d) s = Ok ((head l2, Some d), s)
  else exists l0 a ea, l1 = l0 ++ [a] /\ heap s !! a = Some ea /\
         brother x (Some d) s = Ok ((Some a, Diccionario.data ea), s).
Proof.
  intros Hb Hx Hd. pose proof Hb as [Hp _]. pose proof (esElPrimerHermano_ok _ _ _ _ _ _ _ Hb Hx Hd) as Hfirst.
  destruct (buddies_at _ _ _ _ _ _ _ Hb Hx Hd) as (Ht1 & _ & _).
  destruct (prev_of_middle _ _ _ _ _ _ Hp Hx) as [Hprev Hnext].
  destruct (is_first d (chunk_size e)) eqn:Ef.
  - unfold brother. rewrite (bind_ok _ _ _ _ _ (at_ok _ _ _ Hx)), (bind_ok _ _ _ _ _ Hfirst), Hnext. done.
  - destruct l1 as [|a l0 _] using rev_ind.
    { simpl in Ht1. subst d. unfold is_first in Ef. by rewrite Zdiv_0_l in Ef. }
    assert (a ∈ (l0 ++ [a]) ++ x :: l2) as Hain by (rewrite !elem_of_app; left; right; by left).
    destruct (dlseg_elem _ _ _ _ _ a (pa_list _ _ _ Hp) Hain) as [ea Ha].
    exists l0, a, ea. split_and!; [done|done|]. rewrite last_snoc in Hprev. unfold brother.
    rewrite (bind_ok _ _ _ _ _ (at_ok _ _ _ Hx)), (bind_ok _ _ _ _ _ Hfirst), Hprev. cbn [deref].
    erewrite bind_ok by done. by rewrite (bind_ok _ _ _ _ _ (at_ok _ _ _ Ha)).
Qed.

(** The partition of the brother is free and whole. *)
Definition joinable e ep : bool := negb (in_use ep) && (chunk_size ep =? chunk_size e).

Record joining s l1 (x : nat) l2 e (p : nat) (d d1 : Z) k1 k2 m1 m2 : Prop := {
  jg_split : l1 ++ x :: l2 = k1 ++ p :: k2;
  jg_rest : k1 ++ k2 = m1 ++ x :: m2;
  jg_aligned : aligned_at (2 * chunk_size e) d1;
  jg_before : tiles (heap s) 0 m1 d1;
  jg_behind : tiles (heap s) (d1 + 2 * chunk_size e) m2 (table_max_size (dic s));
  jg_covers : d1 <= d /\ d + chunk_size e <= d1 + 2 * chunk_size e;
  jg_others : forall w, w ∈ l1 ++ l2 <-> w = p \/ w ∈ m1 ++ m2
}.

Lemma joining_ok s l1 x l2 fl e d p dat ep :
  buddies s (l1 ++ x :: l2) fl -> heap s !! x = Some e -> Diccionario.data e = Some d ->
  brother x (Some d) s = Ok ((Some p, dat), s) -> heap s !! p = Some ep -> joinable e ep = true ->
  exists d1 k1 k2 m1 m2, dat = Some d1 /\ joining s l1 x l2 e p d d1 k1 k2 m1 m2.
Proof.
  intros Hb Hx Hd Hbr Hep [Hu%negb_true_iff Hsz%Z.eqb_eq]%andb_true_iff.
  pose proof (brother_ok _ _ _ _ _ _ _ Hb Hx Hd) as Hok.
  destruct (buddies_at _ _ _ _ _ _ _ Hb Hx Hd) as (Ht1 & Ht2 & Hpow & [j Hj]). pose proof (power_pos _ Hpow).
  assert (power_of_two (2 * chunk_size e)) as Hpow2 by (rewrite Z.mul_comm; by apply power_double).
  assert (is_first d (chunk_size e) = Z.even j) as Ej by (unfold is_first; rewrite Hj, Z.div_mul; [done|lia]).
  rewrite Ej in Hok. destruct (Z.even j) eqn:Ev.
  - rewrite Hbr in Hok. injection Hok as Hh ->. destruct l2 as [|p' l2]; [done|]. injection Hh as <-.
    destruct Ht2 as (ep' & Hep' & Hdp & Hcp & Ht2). assert (ep' = ep) as -> by congruence.
    apply Z.even_spec in Ev as [i Hi].
    exists d, (l1 ++ [x]), l2, l1, l2. split; [done|]. split.
    + by rewrite <- app_assoc.
    + by rewrite <- app_assoc.
    + split; [done|]. exists i. lia.
    + done.
    + replace (d + 2 * chunk_size e) with (d + chunk_size e + chunk_size ep) by lia. done.
    + lia.
    + intros w. rewrite !elem_of_app, elem_of_cons. tauto.
  - destruct Hok as (l0 & a & ea & -> & Ha & Hbr'). rewrite Hbr in Hbr'. injection Hbr' as -> ->.
    assert (ea = ep) as -> by congruence.
    apply tiles_app in Ht1 as (c & Ht1 & ep' & Hep' & Hdp & Hcp & Hend). assert (ep' = ep) as -> by congruence.
    simpl in Hend. assert (Z.odd j = true) as [i Hi]%Z.odd_spec by (by rewrite <- Z.negb_even, Ev).
    exists c, l0, (x :: l2), l0, l2. split; [done|]. split.
    + by rewrite <- app_assoc.
    + done.
    + split; [done|]. exists i. lia.
    + done.
    + replace (c + 2 * chunk_size e) with (d + chunk_size e) by lia. done.
    + lia.
    + intros w. rewrite !elem_of_app, elem_of_cons, elem_of_nil. tauto.
Qed.

Lemma join_step_run fuel s k1 p k2 fl e ep x dat :
  partitioned s (k1 ++ p :: k2) fl -> heap s !! x = Some e -> heap s !! p = Some ep -> joinable e ep = true ->
  join_brothers (Datatypes.S fuel) x (Some p) dat s
  = (b ← brother x dat; join_brothers fuel x (fst b) (snd b)) (absorb_state x p ep dat s).
Proof.
  intros Hp Hx Hep Hj. pose proof (pa_list _ _ _ Hp) as Hl.
  destruct (un_neighbours s k1 p k2 fl ep Hp Hep) as (E1 & E2 & E3).
  assert (forall y, prev ep = Some y -> is_Some (heap s !! y)) as Hpy.
  { intros y Hy. rewrite E1 in Hy. apply last_Some_elem_of in Hy. eapply dlseg_elem; [exact Hl|].
    apply elem_of_app. by left. }
  assert (forall y, next ep = Some y -> is_Some (heap s !! y)) as Hny.
  { intros y Hy. rewrite E2 in Hy. apply head_Some_elem_of in Hy. eapply dlseg_elem; [exact Hl|].
    apply elem_of_app. right. by right. }
  assert (forall y, nodes (dic s) = Some y -> is_Some (heap s !! y)) as Hfy.
  { intros y Hy. rewrite E3 in Hy. apply head_Some_elem_of in Hy. by eapply slseg_elem; [apply Hp|]. }
  assert (is_Some (heap s !! p) /\ is_Some (heap s !! x)) as [Ip Ix] by (split; eauto).
  assert (negb (ocupado ep) && negb (estaReservado ep) && (chunk_size ep =? chunk_size e) = true) as Ht.
  { rewrite <- Hj. unfold joinable, in_use. by rewrite negb_orb. }
  cbn [join_brothers]. rewrite (bind_ok _ _ _ _ _ (at_ok _ _ _ Hep)), (bind_ok _ _ _ _ _ (at_ok _ _ _ Hx)), Ht.
  erewrite bind_ok by (apply set_at_alter; done).
  unfold absorb_state, unlink_heap.
  destruct (prev ep) as [q|].
  - erewrite bind_ok by (apply set_at_alter; cbn [heap with_heap]; rewrite is_Some_alter; by apply Hpy).
    erewrite bind_ok by (apply set_if_alter; intros y ?; heap_some).
    erewrite bind_ok by (apply set_at_alter; heap_some).
    erewrite bind_ok by (apply release_run; [heap_some|intros y ?; heap_some]).
    erewrite bind_ok by (apply set_at_alter; heap_some). done.
  - unfold set_dic at 1, modify at 1. erewrite bind_ok by done.
    erewrite bind_ok by (apply set_if_alter; intros y ?; heap_some).
    erewrite bind_ok by (apply set_at_alter; heap_some).
    erewrite bind_ok by (apply release_run; [heap_some|intros y ?; heap_some]).
    erewrite bind_ok by (apply set_at_alter; heap_some). done.
Qed.

(** Two partitions that share an address are the same. *)
Lemma overlap_same s l fl x y ex ey dx dy :
  partitioned s l fl -> x ∈ l -> y ∈ l -> heap s !! x = Some ex -> heap s !! y = Some ey ->
  Diccionario.data ex = Some dx -> Diccionario.data ey = Some dy ->
  dx < dy + chunk_size ey -> dy < dx + chunk_size ex -> x = y.
Proof.
  intros Hp Hx Hy Hex Hey Hdx Hdy H1 H2. destruct (decide (x = y)) as [|Hne]; [done|].
  pose proof (pa_nodup _ _ _ Hp) as (Hnd & _ & _)%NoDup_app.
  pose proof (tiles_disjoint _ _ _ _ x y ex ey dx dy Hnd (pa_tiles _ _ _ Hp) Hx Hy Hne Hex Hey Hdx Hdy). lia.
Qed.

(** No other partition of [l] is free and the brother of [x]. *)
Definition alone h l (x : nat) : Prop :=
  forall e d y ey dy, h !! x = Some e -> Diccionario.data e = Some d ->
    y ∈ l -> y <> x -> h !! y = Some ey -> Diccionario.data ey = Some dy -> in_use ey = false ->
    chunk_size ey = chunk_size e -> dy / (2 * chunk_size e) <> d / (2 * chunk_size e).

Lemma brothers_apart n d dy i :
  0 < n -> d = i * n -> (n | dy) -> dy <> d -> dy / (2 * n) = d / (2 * n) ->
  dy = if Z.even i then d + n else d - n.
Proof.
  intros Hn -> [j ->] Hne E. rewrite !Z.div_mul_cancel_r in E by lia.
  pose proof (Z.div_mod j 2 ltac:(lia)) as Hj. pose proof (Z.div_mod i 2 ltac:(lia)) as Hi.
  rewrite !Zmod_even in *. assert (j <> i) by congruence.
  destruct (Z.even i), (Z.even j); nia.
Qed.

Lemma alone_ok s l1 x l2 fl e d hno dat :
  buddies s (l1 ++ x :: l2) fl -> heap s !! x = Some e -> Diccionario.data e = Some d ->
  brother x (Some d) s = Ok ((hno, dat), s) ->
  (forall p ep, hno = Some p -> heap s !! p = Some ep -> joinable e ep = false) ->
  alone (heap s) (l1 ++ x :: l2) x.
Proof.
  intros Hb Hx Hd Hbr Hstop e' d' y ey dy He' Hd' Hy Hyx Hey Hdy Hu Hc E.
  assert (e' = e) as -> by congruence. assert (d' = d) as -> by congruence. clear He' Hd'.
  pose proof Hb as [Hp Hal]. assert (x ∈ l1 ++ x :: l2) as Hxin by (apply elem_of_app; right; by left).
  destruct (Hal y ey dy Hy Hey Hdy) as [_ Hdiv]. rewrite Hc in Hdiv.
  destruct (buddies_at _ _ _ _ _ _ _ Hb Hx Hd) as (Ht1 & Ht2 & Hpow & [i Hi]). pose proof (power_pos _ Hpow) as Hpos.
  assert (dy <> d) as Hne.
  { intros ->. apply Hyx. apply (overlap_same s _ fl y x ey e d d Hp); try done; lia. }
  assert (joinable e ey = true) as Hj by (unfold joinable; by rewrite Hu, Hc, Z.eqb_refl).
  pose proof (brothers_apart _ _ _ _ Hpos Hi Hdiv Hne E) as Hat.
  pose proof (brother_ok _ _ _ _ _ _ _ Hb Hx Hd) as Hok.
  assert (is_first d (chunk_size e) = Z.even i) as Ei by (unfold is_first; rewrite Hi, Z.div_mul; [done|lia]).
  rewrite Ei in Hok. destruct (Z.even i).
  - rewrite Hbr in Hok. injection Hok as Hh _. destruct l2 as [|z l2].
    + simpl in Ht2. pose proof (tiles_inside _ _ _ _ y ey dy (pa_tiles _ _ _ Hp) Hy Hey Hdy). lia.
    + destruct Ht2 as (ez & Hez & Hdz & Hcz & _).
      assert (z = y) as ->.
      { apply (overlap_same s _ fl z y ez ey (d + chunk_size e) dy Hp); try done; try lia.
        apply elem_of_app. right. right. by left. }
      rewrite (Hstop y ey Hh Hey) in Hj. done.
  - destruct Hok as (l0 & a & ea & -> & Ha & Hbr'). rewrite Hbr in Hbr'. injection Hbr' as -> _.
    apply tiles_app in Ht1 as (c & _ & ea' & Ha' & Hda & Hca & Hend). simpl in Hend.
    assert (ea' = ea) as -> by congruence.
    assert (a = y) as ->.
    { apply (overlap_same s _ fl a y ea ey c dy Hp); try done; try lia.
      rewrite !elem_of_app. left. right. by left. }
    rewrite (Hstop y ey eq_refl Hey) in Hj. done.
Qed.

(** The other partitions: those in use stay, and those that stay are as they were. *)
Definition others_kept s s' l l' : Prop :=
  (forall w e, w ∈ l -> heap s !! w = Some e -> in_use e = true -> w ∈ l') /\
  (forall w, w ∈ l' -> w ∈ l /\ item_at (heap s') w = item_at (heap s) w).

Lemma others_kept_trans s1 s2 s3 l1 l2 l3 :
  (forall w, w ∈ l1 -> is_Some (heap s1 !! w)) ->
  others_kept s1 s2 l1 l2 -> others_kept s2 s3 l2 l3 -> others_kept s1 s3 l1 l3.
Proof.
  intros Hin [Hu12 Hk12] [Hu23 Hk23]. split.
  - intros w e Hw He Hu. pose proof (Hu12 w e Hw He Hu) as Hw2. destruct (Hk12 w Hw2) as [_ Hi].
    destruct (item_at_lookup _ _ w e Hi He) as (e2 & He2 & Hi2). apply (Hu23 w e2 Hw2 He2).
    unfold in_use, estaReservado in *. pose proof (f_equal ocupado Hi2) as E1. pose proof (f_equal nkey Hi2) as E2.
    cbn in E1, E2. congruence.
  - intros w Hw. destruct (Hk23 w Hw) as [Hw2 ->]. by apply Hk12.
Qed.

(** What the loop leaves: [x] has a partition that covers the one it had, and
    no free brother. *)
Record grown s s' l1 (x : nat) l2 l1' l2' fl' e e' (d d' : Z) : Prop := {
  gr_buddies : buddies s' (l1' ++ x :: l2') fl';
  gr_x : heap s' !! x = Some e';
  gr_data : Diccionario.data e' = Some d';
  gr_item : item_of e' = item_of (set_chunk_size (chunk_size e') (set_data (Some d') e));
  gr_covers : d' <= d /\ d + chunk_size e <= d' + chunk_size e';
  gr_others : others_kept s s' (l1 ++ l2) (l1' ++ l2');
  gr_alone : alone (heap s') (l1' ++ x :: l2') x;
  gr_rest : memoria s' = memoria s /\ clock s' = clock s /\
    table_current_size (dic s') = table_current_size (dic s) /\ table_max_size (dic s') = table_max_size (dic s)
}.

Lemma grown_nothing s l1 x l2 fl e d hno dat :
  buddies s (l1 ++ x :: l2) fl -> heap s !! x = Some e -> Diccionario.data e = Some d ->
  brother x (Some d) s = Ok ((hno, dat), s) ->
  (forall p ep, hno = Some p -> heap s !! p = Some ep -> joinable e ep = false) ->
  grown s s l1 x l2 l1 l2 fl e e d d.
Proof.
  intros Hb Hx Hd Hbr Hstop. split; try done.
  - destruct e. cbn in *. by subst.
  - by eapply alone_ok.
Qed.

(** One round. *)
Lemma absorb_grown s l1 x l2 fl e d p ep d1 k1 k2 m1 m2 :
  buddies s (l1 ++ x :: l2) fl -> heap s !! x = Some e -> heap s !! p = Some ep -> joinable e ep = true ->
  joining s l1 x l2 e p d d1 k1 k2 m1 m2 ->
  let s1 := absorb_state x p ep (Some d1) s in
  exists e1, buddies s1 (m1 ++ x :: m2) (p :: fl) /\ heap s1 !! x = Some e1 /\
    item_of e1 = item_of (twice (Some d1) e) /\ others_kept s s1 (l1 ++ l2) (m1 ++ m2).
Proof.
  intros Hb Hx Hep Hj [Hsplit Hrest Hal Hbef Hbeh Hcov Hoth] s1.
  apply andb_true_iff in Hj as [Hu%negb_true_iff Hsz%Z.eqb_eq].
  rewrite Hsplit in Hb.
  destruct (ab_it s k1 p k2 fl ep x e m1 m2 d1 Hb Hx Hrest) as (e1 & He1 & Hi1).
  exists e1. split_and!; [|done|done|].
  - by apply (ab_buddies s k1 p k2 fl ep x e m1 m2 d1 (chunk_size e)).
  - split.
    + intros w ew Hw Hew Huw. apply Hoth in Hw as [->|Hw]; [|done]. congruence.
    + intros w Hw. split; [apply Hoth; by right|]. rewrite elem_of_app in Hw. apply ab_items.
      * apply (ab_not s k1 p k2 fl x m1 m2 Hb Hrest). tauto.
      * by apply (ab_single s k1 p k2 fl x m1 m2 Hb Hrest).
Qed.

Lemma join_brothers_ok fuel s l1 x l2 fl e d hno dat :
  buddies s (l1 ++ x :: l2) fl -> heap s !! x = Some e -> Diccionario.data e = Some d ->
  brother x (Some d) s = Ok ((hno, dat), s) -> (length (l1 ++ l2) < fuel)%nat ->
  exists s' l1' l2' fl' e' d', join_brothers fuel x hno dat s = Ok (tt, s') /\
    grown s s' l1 x l2 l1' l2' fl' e e' d d'.
Proof.
  revert s l1 l2 fl e d hno dat. induction fuel as [|fuel IH]; intros s l1 l2 fl e d hno dat Hb Hx Hd Hbr Hf; [lia|].
  destruct hno as [p|].
  2: { exists s, l1, l2, fl, e, d. split; [done|]. by eapply grown_nothing. }
  assert (exists ep, heap s !! p = Some ep) as [ep Hep].
  { pose proof (brother_ok _ _ _ _ _ _ _ Hb Hx Hd) as Hok.
    destruct (is_first d (chunk_size e)); [|by destruct Hok as (l0 & a & ea & -> & Ha & Hr); exists ea; congruence].
    rewrite Hbr in Hok. injection Hok as Hh _. symmetry in Hh. apply head_Some_elem_of in Hh.
    eapply (dlseg_elem _ _ _ _ _ p (pa_list _ _ _ (bu_partitioned _ _ _ Hb))).
    rewrite elem_of_app, elem_of_cons. tauto. }
  destruct (joinable e ep) eqn:Hj.
  2: { exists s, l1, l2, fl, e, d. split; [|eapply grown_nothing; try done; congruence].
       cbn [join_brothers]. rewrite (bind_ok _ _ _ _ _ (at_ok _ _ _ Hep)), (bind_ok _ _ _ _ _ (at_ok _ _ _ Hx)).
       unfold joinable, in_use in Hj. rewrite negb_orb in Hj. by rewrite Hj. }
  destruct (joining_ok _ _ _ _ _ _ _ _ _ _ Hb Hx Hd Hbr Hep Hj) as (d1 & k1 & k2 & m1 & m2 & -> & Hjo).
  destruct (absorb_grown _ _ _ _ _ _ _ _ _ _ _ _ _ _ Hb Hx Hep Hj Hjo) as (e1 & Hb1 & Hx1 & Hi1 & Hk1).
  pose proof Hjo as [Hsplit Hrest _ _ _ Hcov _]. set (s1 := absorb_state x p ep (Some d1) s) in *.
  apply (f_equal chunk_size) in Hi1 as Hc1. apply (f_equal Diccionario.data) in Hi1 as Hd1. cbn in Hc1, Hd1.
  assert (exists hno1 dat1, brother x (Some d1) s1 = Ok ((hno1, dat1), s1)) as (hno1 & dat1 & Hbr1).
  { pose proof (brother_ok _ _ _ _ _ _ _ Hb1 Hx1 Hd1) as Hok.
    destruct (is_first d1 (chunk_size e1)); [eauto|]. destruct Hok as (l0 & a & ea & _ & _ & Hr). eauto. }
  destruct (IH s1 m1 m2 (p :: fl) e1 d1 hno1 dat1 Hb1 Hx1 Hd1 Hbr1) as
    (s' & l1' & l2' & fl' & e' & d' & Hrun & [G1 G2 G3 G4 G5 G6 G7 G8]).
  { apply (f_equal length) in Hsplit, Hrest. rewrite !length_app in *. simpl in *. lia. }
  exists s', l1', l2', fl', e', d'. split.
  - rewrite Hsplit in Hb. rewrite (join_step_run fuel s k1 p k2 fl e ep x _ (bu_partitioned _ _ _ Hb) Hx Hep Hj).
    fold s1. by rewrite (bind_ok _ _ _ _ _ Hbr1).
  - split; try done.
    + rewrite G4. destruct e, e1. unfold item_of, twice in Hi1. cbn in *. injection Hi1 as ? ? ? ? ? ? ? ?. by subst.
    + lia.
    + eapply others_kept_trans; [|exact Hk1|exact G6]. intros w Hw.
      eapply dlseg_elem; [apply (pa_list _ _ _ (bu_partitioned _ _ _ Hb))|].
      rewrite elem_of_app in Hw. rewrite elem_of_app, elem_of_cons. tauto.
    + destruct G8 as (-> & -> & -> & ->). unfold s1, absorb_state. cbn. by destruct (prev ep).
Qed.

(** ** The item that is removed *)

(** No two free partitions are brothers. *)
Definition coalesced h l : Prop := forall x e, x ∈ l -> h !! x = Some e -> in_use e = false -> alone h l x.

Lemma buddies_update s l fl x e f n :
  buddies s l fl -> x ∈ l -> heap s !! x = Some e -> in_place f ->
  data_size (f e) = data_size e + n -> element_ok (f e) -> buddies (with_item x f n s) l fl.
Proof.
  intros [Hp Hal] Hx He Hf Hn Hok. split; [by apply (partitioned_update s l fl x e)|].
  intros w ew dw Hw Hew Hdw. cbn [heap with_item with_heap with_dic] in Hew.
  destruct (decide (x = w)) as [<-|Hne].
  - rewrite lookup_alter_eq, He in Hew. injection Hew as <-. destruct (Hf e) as (_ & _ & Ed & Ec).
    rewrite Ec. apply (Hal x e dw Hx He). congruence.
  - rewrite lookup_alter_ne in Hew by done. by apply (Hal w).
Qed.

Lemma brother_update s s1 l1 x l2 fl e e1 d :
  buddies s (l1 ++ x :: l2) fl -> buddies s1 (l1 ++ x :: l2) fl ->
  heap s !! x = Some e -> heap s1 !! x = Some e1 -> Diccionario.data e = Some d -> Diccionario.data e1 = Some d ->
  chunk_size e1 = chunk_size e -> (forall w, w <> x -> heap s1 !! w = heap s !! w) ->
  exists b, brother x (Some d) s = Ok (b, s) /\ brother x (Some d) s1 = Ok (b, s1).
Proof.
  intros Hb Hb1 Hx Hx1 Hd Hd1 Hc Hsame.
  pose proof (brother_ok _ _ _ _ _ _ _ Hb Hx Hd) as H. pose proof (brother_ok _ _ _ _ _ _ _ Hb1 Hx1 Hd1) as H1.
  rewrite Hc in H1. destruct (is_first d (chunk_size e)); [eauto|].
  destruct H as (l0 & a & ea & -> & Ha & Hbr), H1 as (l0' & a' & ea' & E & Ha' & Hbr').
  apply app_inj_tail in E as [<- <-]. rewrite Hsame in Ha'.
  - assert (ea' = ea) as -> by congruence. eauto.
  - intros ->. pose proof (pa_nodup _ _ _ (bu_partitioned _ _ _ Hb)) as (Hnd & _ & _)%NoDup_app.
    apply NoDup_middle in Hnd as [Hn _]. apply Hn. rewrite !elem_of_app. left. right. by left.
Qed.

Lemma coalesced_grown s s' l1 x l2 l1' l2' fl' e e' d d' :
  grown s s' l1 x l2 l1' l2' fl' e e' d d' -> coalesced (heap s) (l1 ++ l2) ->
  coalesced (heap s') (l1' ++ x :: l2').
Proof.
  intros [_ Hx' Hd' _ _ [_ Hk] Hal _] Hco y ey Hy Hey Hu ey0 dy z ez dz Hey0 Hdy Hz Hzy Hez Hdz Huz Hc.
  assert (ey0 = ey) as -> by congruence. clear Hey0.
  destruct (decide (y = x)) as [->|Hyx]; [by apply (Hal ey dy z ez dz)|].
  destruct (decide (z = x)) as [->|Hzx].
  { intros E. apply (Hal ez dz y ey dy); try done. by rewrite Hc. }
  assert (forall w ew, w ∈ l1' ++ x :: l2' -> w <> x -> heap s' !! w = Some ew ->
            w ∈ l1 ++ l2 /\ exists e0, heap s !! w = Some e0 /\ item_of e0 = item_of ew) as Hold.
  { intros w ew Hw Hwx Hew. assert (w ∈ l1' ++ l2') as Hw' by (rewrite elem_of_app, elem_of_cons in *; tauto).
    destruct (Hk w Hw') as [Hwl Hi]. split; [done|].
    by eapply item_at_lookup; [symmetry|]. }
  destruct (Hold y ey Hy Hyx Hey) as (Hyl & ey1 & Hey1 & Hiy), (Hold z ez Hz Hzx Hez) as (Hzl & ez1 & Hez1 & Hiz).
  assert (forall e1 e2, item_of e1 = item_of e2 -> in_use e1 = in_use e2 /\ chunk_size e1 = chunk_size e2 /\
            Diccionario.data e1 = Diccionario.data e2) as Hitem by (intros [] [] [=]; by subst).
  destruct (Hitem _ _ Hiy) as (E1 & E2 & E3), (Hitem _ _ Hiz) as (E4 & E5 & E6).
  rewrite <- E2. apply (Hco y ey1 Hyl Hey1 ltac:(congruence) ey1 dy z ez1 dz); congruence.
Qed.

Lemma coalesced_ext h h' l l' :
  (forall w, w ∈ l' -> w ∈ l /\ h' !! w = h !! w) -> coalesced h l -> coalesced h' l'.
Proof.
  intros Hs Hco x e Hx He Hu e' d y ey dy He' Hd Hy Hyx Hey. destruct (Hs x Hx) as [Hxl Ex], (Hs y Hy) as [Hyl Ey].
  apply (Hco x e Hxl ltac:(congruence) Hu e' d y ey dy); congruence.
Qed.

(** C28: Removing an item of the buddy system ends, gives its memory back and joins it with its
    brother as long as that one is free and whole, and no further: the partition that is left covers
    the old one, is again a power of two at a multiple of its size, and has no free brother; the other
    items keep their partitions, keys and values, and if no two free partitions were brothers before,
    none are afterwards. *)
Theorem eliminar_buddy_releases s l1 x l2 fl e d :
  buddies s (l1 ++ x :: l2) fl -> heap s !! x = Some e -> Diccionario.data e = Some d ->
  exists s' l1' l2' fl' e' d', diccionario_eliminar_buddy x s = Ok (x, s') /\
    buddies s' (l1' ++ x :: l2') fl' /\ heap s' !! x = Some e' /\ empty e' /\
    Diccionario.data e' = Some d' /\ d' <= d /\ d + chunk_size e <= d' + chunk_size e' /\
    table_current_size (dic s') = table_current_size (dic s) - data_size e /\ memoria s' = memoria s /\
    others_kept s s' (l1 ++ l2) (l1' ++ l2') /\ alone (heap s') (l1' ++ x :: l2') x /\
    (coalesced (heap s) (l1 ++ x :: l2) -> coalesced (heap s') (l1' ++ x :: l2')).
Proof.
  intros Hb Hx Hd. pose proof Hb as [Hp _].
  assert (x ∈ l1 ++ x :: l2) as Hin by (apply elem_of_app; right; by left).
  destruct (clear_item_ok s _ fl x e Hp Hin Hx) as (k & Hk & Hclr & Hp1).
  assert (buddies (with_item x (cleared k) (- data_size e) s) (l1 ++ x :: l2) fl) as Hb1.
  { apply (buddies_update s _ fl x e); try done; [cbn; lia|]. by apply (cleared_ok s (l1 ++ x :: l2) fl x e). }
  set (s1 := with_item x (cleared k) (- data_size e) s) in *.
  assert (heap s1 !! x = Some (cleared k e)) as Hx1 by (cbn; by rewrite lookup_alter_eq, Hx).
  assert (forall w, w <> x -> heap s1 !! w = heap s !! w) as Hs1 by (intros w Hw; cbn; by rewrite lookup_alter_ne).
  pose proof (pa_nodup _ _ _ Hp) as (Hnd & _ & _)%NoDup_app. apply NoDup_middle in Hnd as [Hx12 _].
  assert (forall w, w ∈ l1 ++ l2 -> heap s1 !! w = heap s !! w) as Hs1l by (intros w Hw; apply Hs1; by intros ->).
  destruct (brother_update s s1 l1 x l2 fl e _ d Hb Hb1 Hx Hx1 Hd Hd eq_refl Hs1) as ([hno dat] & Hbr & Hbr1).
  pose proof (partitioned_fuel _ _ _ Hp1) as Hfuel. rewrite length_app in Hfuel. cbn [length] in Hfuel.
  destruct (join_brothers_ok (Datatypes.S (size (heap s1))) s1 l1 x l2 fl _ d hno dat Hb1 Hx1 Hd Hbr1)
    as (s' & l1' & l2' & fl' & e' & d' & Hrun & Hg); [rewrite length_app; lia|].
  pose proof Hg as [G1 G2 G3 G4 G5 G6 G7 (G8 & _ & G9 & _)].
  exists s', l1', l2', fl', e', d'. split_and!; try done.
  - unfold diccionario_eliminar_buddy. rewrite (bind_ok _ _ _ _ _ (at_ok _ _ _ Hx)), Hd, (bind_ok _ _ _ _ _ Hbr).
    rewrite (bind_ok _ _ _ _ _ Hclr). unfold list_fuel.
    rewrite (bind_ok _ _ s1 (Datatypes.S (size (heap s1))) s1) by done. by rewrite (bind_ok _ _ _ _ _ Hrun).
  - exact (conj (f_equal ocupado G4) (conj (f_equal nkey G4) (f_equal data_size G4))).
  - apply G5.
  - apply G5.
  - destruct G6 as [H1 H2]. split.
    + intros w ew Hw Hew. apply (H1 w ew Hw). by rewrite Hs1l.
    + intros w Hw. destruct (H2 w Hw) as [Hwl Hi]. split; [done|]. rewrite Hi. unfold item_at. by rewrite Hs1l.
  - intros Hco. eapply coalesced_grown; [exact Hg|]. eapply coalesced_ext; [|exact Hco].
    intros w Hw. split; [rewrite elem_of_app in *; rewrite elem_of_cons; tauto|by apply Hs1l].
Qed.
