(* ===== verification/Engine.v ===== *)
(** * Engine: the cache engine

    Models [rc/source/justice_engine.c]: the functions that memcached calls
    through the engine's table, over the storage of the scheme that is
    configured.  memcached itself (and [parse_config]) is not part of the
    model; the time that [time] returns is the clock of the state, and the
    lines for the log are left out. *)

From S2P Require Import Prelude Memory Diccionario Dinamicas Buddy.

(** The results the engine uses of memcached's. *)
Inductive ENGINE_ERROR_CODE :=
  ENGINE_SUCCESS | ENGINE_KEY_ENOENT | ENGINE_E2BIG | ENGINE_NOT_STORED | ENGINE_ENOTSUP.

(** The value of "scheme" in the configuration. *)
Inductive ESQUEMA := ParticionesDinamicas | BuddySystem.

(** [f_eliminar] and [f_obtenerDireccion] of the scheme. *)
Definition f_eliminar (esquema : ESQUEMA) : nat -> MR nat :=
  match esquema with
  | ParticionesDinamicas => diccionario_eliminar
  | BuddySystem => diccionario_eliminar_buddy
  end.

Definition f_obtenerDireccion (esquema : ESQUEMA) : nat -> Z -> MR (option nat) :=
  match esquema with
  | ParticionesDinamicas => diccionario_obtenerDireccion
  | BuddySystem => diccionario_obtenerDireccion_buddy
  end.

(** The settings the dictionary gets from the configuration. *)
Definition configured (lru bestfit : bool) (compaction_freq : Z) (d : t_diccionario) : t_diccionario :=
  {| nodes := nodes d; elements := elements d; table_max_size := table_max_size d;
     table_current_size := table_current_size d; slab_min_size := slab_min_size d;
     lru := lru; bestfit := bestfit; compactarMemoria := compactarMemoria d;
     frecuenciaCompactacion := compaction_freq |}.

Definition justice_engine_inicializar (esquema : ESQUEMA) (max_size chunk_min_size : Z)
    (lru bestfit : bool) (compaction_freq : Z) (behind_nodes : option t_dict_element) (m : mem)
    (now : Z) : res rc :=
  match
    match esquema with
    | ParticionesDinamicas => diccionario_crear max_size chunk_min_size behind_nodes m now
    | BuddySystem =>
        match diccionario_crear_buddy max_size chunk_min_size behind_nodes m now with
        | Ok (s, _) => Ok s
        | Fail e => Fail e
        end
    end
  with
  | Ok s => Ok (with_dic (configured lru bestfit compaction_freq (dic s)) s)
  | Fail e => Fail e
  end.

(** [key] are the bytes that can be read at the pointer. *)
Definition justice_engine_allocate (esquema : ESQUEMA) (rounds : nat) (key : list Z)
    (nkey nbytes flags : Z) : MR (ENGINE_ERROR_CODE * option nat) :=
  element ← diccionario_obtener key nkey;
  match element with
  | Some p =>
      e ← at_ p;
      when (ocupado e) (f_eliminar esquema p;; mret tt)
  | None => mret tt
  end;;
  element ← f_obtenerDireccion esquema rounds nbytes;
  match element with
  | None => mret (ENGINE_E2BIG, None)
  | Some p =>
      set_at p (set_nkey nkey);;
      set_at p (set_flags flags);;
      (if nkey + 1 <=? zlen key then set_key_at p (take (Z.to_nat (nkey + 1)) key)
       else fail OutOfBounds);;
      mret (ENGINE_SUCCESS, Some p)
  end.

(** The item is looked up again by its key. *)
Definition justice_engine_store (item : nat) : MR ENGINE_ERROR_CODE :=
  it ← at_ item;
  k ← deref (Diccionario.key it);
  found ← diccionario_obtener k (nkey it);
  match found with
  | Some p =>
      s ← get;
      set_at p (set_ocupado true);;
      set_at p (set_hour (clock s));;
      mret ENGINE_SUCCESS
  | None => mret ENGINE_NOT_STORED
  end.

(** item_info, as far as the engine sets it. *)
Record item_info := {
  ii_flags : Z; ii_nbytes : Z; ii_key : option (list Z); ii_nkey : Z;
  iov_base : option Z; iov_len : Z
}.

Definition justice_engine_get_item_info (item : nat) : MR item_info :=
  it ← at_ item;
  mret {| ii_flags := flags it; ii_nbytes := data_size it; ii_key := Diccionario.key it;
          ii_nkey := nkey it; iov_base := Diccionario.data it; iov_len := data_size it |}.

(** [diccionario_eliminar], whatever the scheme. *)
Definition justice_engine_item_release (item : nat) : MR unit :=
  it ← at_ item;
  when (negb (ocupado it)) (diccionario_eliminar item;; mret tt).

Definition justice_engine_get (key : list Z) (nkey : Z) : MR (ENGINE_ERROR_CODE * option nat) :=
  it ← diccionario_obtener key nkey;
  match it with
  | None => mret (ENGINE_KEY_ENOENT, None)
  | Some p =>
      e ← at_ p;
      if negb (ocupado e) then mret (ENGINE_KEY_ENOENT, None)
      else
        s ← get;
        when (lru (dic s)) (set_at p (set_hour (clock s)));;
        mret (ENGINE_SUCCESS, Some p)
  end.

Definition justice_engine_item_delete (esquema : ESQUEMA) (key : list Z) (nkey : Z)
  : MR ENGINE_ERROR_CODE :=
  dict_element ← diccionario_obtener key nkey;
  match dict_element with
  | None => mret ENGINE_KEY_ENOENT
  | Some p => f_eliminar esquema p;; mret ENGINE_SUCCESS
  end.

Definition justice_engine_flush (esquema : ESQUEMA) : MR ENGINE_ERROR_CODE :=
  diccionario_limpiar (f_eliminar esquema);; mret ENGINE_SUCCESS.

Definition justice_engine_dump : MR (list dump_line) := diccionario_dump.
