(* ===== verification/Schemes.v ===== *)
(** * Schemes: what the engine needs of a way to divide the memory

    The engine calls the functions of the scheme that is configured through
    pointers.  [Storage_scheme] states what it relies on: an invariant that
    gives the layout of [Particiones], that updates of an item in place keep,
    and against which the search for a partition that fits succeeds.  The
    dynamic partitions and the buddy system are its instances. *)

From S2P Require Import Prelude Memory Diccionario Dinamicas Buddy Engine Particiones BuddyFacts.

Implicit Types (l fl : list nat) (s : rc) (e : t_dict_element).

Class Storage_scheme (q : ESQUEMA) := {
  layout : rc -> list nat -> list nat -> Prop;
  layout_partitioned s l fl : layout s l fl -> partitioned s l fl;
  layout_memoria s l fl m : layout s l fl -> layout (with_memoria m s) l fl;
  layout_update s l fl x e f n :
    layout s l fl -> x ∈ l -> heap s !! x = Some e -> in_place f ->
    data_size (f e) = data_size e + n -> element_ok (f e) -> layout (with_item x f n s) l fl;
  layout_fit rounds s l fl n x0 :
    layout s l fl -> 0 < slab_min_size (dic s) ->
    max (s32 n) (slab_min_size (dic s)) <= table_max_size (dic s) ->
    find_elem (heap s) (fits (max (s32 n) (slab_min_size (dic s)))) l = Some x0 ->
    exists x e l1 l2 s1 new fl', chosen s l (max (s32 n) (slab_min_size (dic s))) x e /\ l = l1 ++ x :: l2 /\
      was_cut s s1 l1 x l2 fl e (max (s32 n) (slab_min_size (dic s))) new fl' /\
      layout s1 (l1 ++ x :: new ++ l2) fl' /\
      f_obtenerDireccion q (S rounds) n s = Ok (Some x, with_size x n s1)
}.

Lemma partitioned_memoria s l fl m : partitioned s l fl -> partitioned (with_memoria m s) l fl.
Proof. intros []. by split. Qed.

#[export] Instance dynamic_partitions : Storage_scheme ParticionesDinamicas.
Proof.
  refine {| layout := partitioned |}; [done|apply partitioned_memoria|apply partitioned_update|].
  intros rounds s l fl n x0 Hp Hslab Ha Hfind.
  destruct (obtenerDireccion_fit rounds s l fl n x0 Hp Hslab Ha Hfind) as
    (x & e & l1 & l2 & s1 & new & fl' & Hch & El & Hcut & Hrun).
  exists x, e, l1, l2, s1, new, fl'. split_and!; [done|done|done|apply Hcut|done].
Defined.

#[export] Instance buddy_system : Storage_scheme BuddySystem.
Proof.
  refine {| layout := buddies |}; [by intros s l fl []| |apply buddies_update|].
  - intros s l fl m [Hp Hal]. split; [by apply partitioned_memoria|done].
  - intros rounds s l fl n x0 Hb Hslab Ha Hfind.
    destruct (obtenerDireccion_buddy_fit rounds s l fl n x0 Hb Hslab Ha Hfind) as
      (x & e & l1 & l2 & s1 & new & fl' & e' & Hch & El & Hcut & Hb1 & _ & _ & Hrun).
    by exists x, e, l1, l2, s1, new, fl'.
Defined.
