(* ===== verification/EngineFacts.v ===== *)
(** * EngineFacts: what memcached can rely on

    The operations of the engine with the dynamic partitions, against the
    invariant of the storage: an allocation takes a partition that is not in
    use and changes no other item; what is set can be got, with its value,
    and the values of the other items stay as they are. *)

From S2P Require Import Prelude Memory Diccionario Dinamicas Buddy Engine Particiones Liberacion Compactacion BuddyFacts Schemes.

Implicit Types (h : gmap nat t_dict_element) (l fl : list nat) (s : rc) (e : t_dict_element).

(** What [allocate] writes into the element. *)
Definition label (k : list Z) (nk nbytes fg : Z) e : t_dict_element :=
  set_key (Some (take (Z.to_nat (nk + 1)) k ++ drop (length (take (Z.to_nat (nk + 1)) k)) (default [] (key e))))
    (set_flags fg (set_nkey nk (set_data_size nbytes e))).

(** An item that is reserved for a key. *)
Record reserved (k : list Z) (nk nbytes fg : Z) e : Prop := {
  re_key : take (Z.to_nat nk) (default [] (key e)) = take (Z.to_nat nk) k;
  re_nkey : nkey e = nk;
  re_size : data_size e = nbytes;
  re_fits : nbytes <= chunk_size e;
  re_flags : flags e = fg;
  re_ocupado : ocupado e = false
}.

Lemma label_run k nk nbytes fg x s e :
  heap s !! x = Some e -> (exists k', key e = Some k' /\ zlen k' = KEY_SIZE_MAX) ->
  0 < nk < KEY_SIZE_MAX -> nk < zlen k ->
  (set_at x (set_nkey nk);; set_at x (set_flags fg);;
   (if nk + 1 <=? zlen k then set_key_at x (take (Z.to_nat (nk + 1)) k) else fail OutOfBounds);;
   mret (ENGINE_SUCCESS, Some x)) (with_size x nbytes s)
  = Ok ((ENGINE_SUCCESS, Some x), with_item x (label k nk nbytes fg) nbytes s).
Proof.
  intros Hx (k' & Hk' & Hlen) Hnk Hk. pose proof (zlen_nonneg k).
  assert (zlen (take (Z.to_nat (nk + 1)) k) = nk + 1) as Ht.
  { unfold zlen in *. rewrite length_take. lia. }
  unfold with_size. erewrite bind_ok by (apply set_at_alter; heap_some).
  erewrite bind_ok by (apply set_at_alter; heap_some).
  rewrite (proj2 (Z.leb_le _ _)) by lia.
  erewrite bind_ok; [reflexivity|]. unfold set_key_at.
  erewrite bind_ok.
  2: { apply at_ok. cbn [heap with_heap with_dic]. rewrite !lookup_alter_eq, Hx. reflexivity. }
  unfold key_write. cbn [key set_flags set_nkey set_data_size]. rewrite Hk'. cbn [mbind option_bind].
  rewrite Ht, Hlen, (proj2 (Z.leb_le _ _)) by (unfold KEY_SIZE_MAX in *; lia).
  unfold modify. do 2 f_equal. unfold with_item, with_heap, with_dic. cbn [heap]. f_equal.
  apply map_eq. intros w. destruct (decide (x = w)) as [<-|Hne].
  - rewrite lookup_insert_eq, lookup_alter_eq, Hx. cbn. unfold label. by rewrite Hk'.
  - by rewrite lookup_insert_ne, !lookup_alter_ne by done.
Qed.

Lemma label_reserved k nk nbytes fg e :
  0 < nk < KEY_SIZE_MAX -> nk < zlen k -> (exists k', key e = Some k' /\ zlen k' = KEY_SIZE_MAX) ->
  ocupado e = false -> nbytes <= chunk_size e -> 
  reserved k nk nbytes fg (label k nk nbytes fg e) /\ element_ok (label k nk nbytes fg e) /\
  in_use (label k nk nbytes fg e) = true.
Proof.
  intros Hnk Hk (k' & Hk' & Hlen) Ho Hc.
  assert (in_use (label k nk nbytes fg e) = true) as Hu.
  { unfold in_use, estaReservado. cbn. rewrite Ho. cbn. by rewrite (proj2 (Z.eqb_neq nk 0)) by lia. }
  split_and!; [split; try done| |done].
  - cbn. rewrite take_app_le by (rewrite length_take; unfold zlen in *; lia).
    rewrite take_take. f_equal. lia.
  - split; [intros E; congruence|]. cbn. rewrite Hk'. eexists. split; [done|]. cbn.
    unfold zlen, KEY_SIZE_MAX in *. rewrite length_app, length_drop, length_take. lia.
Qed.

(** The requests that can be served without an eviction. *)
Record servable s l (k : list Z) (nk nbytes : Z) : Prop := {
  sv_slab : 0 < slab_min_size (dic s);
  sv_nkey : 0 < nk < KEY_SIZE_MAX;
  sv_key : nk < zlen k;
  sv_nbytes : 0 <= nbytes < 2 ^ 31;
  sv_size : max nbytes (slab_min_size (dic s)) <= table_max_size (dic s);
  sv_fit : exists x e, x ∈ l /\ heap s !! x = Some e /\
             fits (max nbytes (slab_min_size (dic s))) e = true;
  sv_new : find_elem (heap s) (has_key k nk) l = None
}.

Lemma find_elem_exists h P l x e :
  x ∈ l -> h !! x = Some e -> P e = true -> exists y, find_elem h P l = Some y.
Proof.
  intros Hx He HP. destruct (find_elem h P l) as [y|] eqn:E; [by exists y|].
  pose proof (find_elem_None _ _ _ _ _ E Hx He). congruence.
Qed.

Lemma allocate_ok q `{Storage_scheme q} rounds s l fl k nk nbytes fg :
  layout s l fl -> servable s l k nk nbytes ->
  exists x e l1 l2 s' new fl', 
    chosen s l (max nbytes (slab_min_size (dic s))) x e /\ l = l1 ++ x :: l2 /\ fl = rev new ++ fl' /\
    justice_engine_allocate q (Datatypes.S rounds) k nk nbytes fg s
      = Ok ((ENGINE_SUCCESS, Some x), s') /\
    layout s' (l1 ++ x :: new ++ l2) fl' /\ memoria s' = memoria s /\
    (exists e', heap s' !! x = Some e' /\ reserved k nk nbytes fg e') /\
    (forall w, w ∈ l1 \/ w ∈ l2 -> item_at (heap s') w = item_at (heap s) w).
Proof.
  intros Hlay [Hslab Hnk Hk Hnb Hsz (x0 & e0 & Hx0 & He0 & Hfit0) Hnew].
  pose proof (layout_partitioned _ _ _ Hlay) as Hp.
  destruct (find_elem_exists _ _ _ _ _ Hx0 He0 Hfit0) as [y Hy].
  destruct (layout_fit rounds s l fl nbytes y Hlay Hslab) as
    (x & e & l1 & l2 & s1 & new & fl' & Hch & El & Hcut & Hlay1 & Hrun).
  { by rewrite s32_small by lia. } { by rewrite s32_small by lia. }
  rewrite s32_small in * by lia.
  destruct Hcut as [Efl Hp1 Hdic (Hmem & _) (e' & He' & Ha & Hsh) Hoth _].
  pose proof Hch as (Hx & He & Hfit & _). apply fits_spec in Hfit as [Hu Hsz'].
  assert (item_of e' = item_of (set_chunk_size (chunk_size e') e)) as Hi by done.
  pose proof (f_equal key Hi) as Hkey. pose proof (f_equal ocupado Hi) as Hoc.
  pose proof (f_equal data_size Hi) as Hds. cbn in Hkey, Hoc, Hds.
  destruct (pa_elements _ _ _ Hp x e Hx He) as [Hidle (k' & Hk' & Hlen)].
  assert (ocupado e' = false) as Ho' by (rewrite Hoc; unfold in_use in Hu; by destruct (ocupado e)).
  assert (nbytes <= chunk_size e') as Hfits.
  { assert (nbytes <= max nbytes (slab_min_size (dic s))) by (unfold max; case_test; lia). lia. }
  assert (exists k', key e' = Some k' /\ zlen k' = KEY_SIZE_MAX) as Hk45 by (exists k'; by rewrite Hkey).
  destruct (label_reserved k nk nbytes fg e' Hnk Hk Hk45 Ho' Hfits) as (Hres & Hok & _).
  exists x, e, l1, l2, (with_item x (label k nk nbytes fg) nbytes s1), new, fl'.
  split_and!; try done.
  - unfold justice_engine_allocate. rewrite (bind_ok _ _ _ _ _ (diccionario_obtener_ok _ _ _ k nk Hp)), Hnew.
    rewrite (bind_ok _ _ s tt s) by done. rewrite (bind_ok _ _ _ _ _ Hrun).
    by apply (label_run k nk nbytes fg x s1 e').
  - apply (layout_update s1 _ _ x e'); try done.
    + apply elem_of_app. right. by left.
    + cbn. rewrite Hds. destruct (Hidle Hu) as [-> _]. lia.
  - exists (label k nk nbytes fg e'). cbn [heap with_item with_heap with_dic]. by rewrite lookup_alter_eq, He'.
  - intros w Hw. cbn [heap with_item with_heap with_dic]. rewrite item_alter_ne; [by apply Hoth|].
    intros ->. apply (pa_nodup _ _ _) in Hp. rewrite El in Hp. apply NoDup_app in Hp as (Hp & _ & _).
    apply NoDup_middle in Hp as [Hp _]. apply Hp, elem_of_app. tauto.
Qed.

(** ** Storing and getting *)

Lemma has_key_prefix k1 k2 nk e :
  take (Z.to_nat nk) k1 = take (Z.to_nat nk) k2 -> has_key k1 nk e = has_key k2 nk e.
Proof. intros E. unfold has_key. by rewrite E. Qed.

Lemma find_elem_alter f x h P l :
  (forall e, P (f e) = P e) -> find_elem (alter f x h) P l = find_elem h P l.
Proof.
  intros Hf. induction l as [|y l IH]; [done|]. rewrite !find_elem_cons, IH.
  assert (test (alter f x h) P y = test h P y) as ->; [|done].
  unfold test. destruct (decide (x = y)) as [->|Hne].
  - rewrite lookup_alter_eq. destruct (h !! y); [|done]. simpl. apply Hf.
  - by rewrite lookup_alter_ne.
Qed.

Lemma find_elem_pred h P Q l : (forall e, P e = Q e) -> find_elem h P l = find_elem h Q l.
Proof.
  intros HPQ. induction l as [|y l IH]; [done|]. rewrite !find_elem_cons, IH.
  unfold test. by destruct (h !! y); rewrite ?HPQ.
Qed.

Lemma with_item_0 x f s : with_item x f 0 s = with_heap (alter f x (heap s)) s.
Proof. destruct s as [h [] m c]. unfold with_item, with_dic, with_heap. cbn. by rewrite Z.add_0_r. Qed.

Lemma in_use_ok e k :
  in_use e = true -> key e = Some k -> zlen k = KEY_SIZE_MAX -> element_ok e.
Proof. intros Hu Hk Hl. split; [intros E; congruence|eauto]. Qed.

(** The element stored: in use, with the time of the clock. *)
Definition stored (now : Z) e : t_dict_element := set_hour now (set_ocupado true e).

Lemma store_ok q `{Storage_scheme q} s l fl x e k :
  layout s l fl -> heap s !! x = Some e -> key e = Some k ->
  find_elem (heap s) (has_key k (nkey e)) l = Some x ->
  exists s', justice_engine_store x s = Ok (ENGINE_SUCCESS, s') /\ layout s' l fl /\
    s' = with_heap (alter (stored (clock s)) x (heap s)) s.
Proof.
  intros Hlay Hx Hk Hfind. pose proof (layout_partitioned _ _ _ Hlay) as Hp. destruct (find_elem_Some _ _ _ _ Hfind) as [Hin _].
  destruct (pa_elements _ _ _ Hp x e Hin Hx) as [_ (k' & Hk' & Hlen)].
  eexists. split; [|split; [|done]].
  - unfold justice_engine_store. rewrite (bind_ok _ _ _ _ _ (at_ok _ _ _ Hx)), Hk. cbn [deref].
    rewrite (bind_ok _ _ s k s) by done.
    rewrite (bind_ok _ _ _ _ _ (diccionario_obtener_ok _ _ _ k (nkey e) Hp)), Hfind.
    rewrite (bind_ok _ _ s s s) by done.
    erewrite bind_ok by (apply set_at_alter; heap_some). erewrite bind_ok by (apply set_at_alter; heap_some).
    unfold mret, M_ret. do 2 f_equal. unfold with_heap. cbn [heap]. f_equal. by rewrite alter_alter_eq.
  - rewrite <- with_item_0. apply (layout_update s l fl x e); try done; [cbn; lia|].
    by apply (in_use_ok _ k').
Qed.

(** The element after a get. *)
Definition touched (s : rc) e : t_dict_element := if lru (dic s) then set_hour (clock s) e else e.

Lemma get_ok q `{Storage_scheme q} s l fl x e k n :
  layout s l fl -> heap s !! x = Some e -> ocupado e = true ->
  find_elem (heap s) (has_key k n) l = Some x ->
  exists s', justice_engine_get k n s = Ok ((ENGINE_SUCCESS, Some x), s') /\ layout s' l fl /\
    s' = with_heap (alter (touched s) x (heap s)) s.
Proof.
  intros Hlay Hx Ho Hfind. pose proof (layout_partitioned _ _ _ Hlay) as Hp. destruct (find_elem_Some _ _ _ _ Hfind) as [Hin _].
  destruct (pa_elements _ _ _ Hp x e Hin Hx) as [_ (k' & Hk' & Hlen)].
  eexists. split; [|split; [|done]].
  - unfold justice_engine_get. rewrite (bind_ok _ _ _ _ _ (diccionario_obtener_ok _ _ _ k n Hp)), Hfind.
    rewrite (bind_ok _ _ _ _ _ (at_ok _ _ _ Hx)), Ho. cbn [negb].
    rewrite (bind_ok _ _ s s s) by done. unfold touched. destruct (lru (dic s)); cbn [when].
    + erewrite bind_ok by (apply set_at_alter; heap_some). done.
    + rewrite (bind_ok _ _ s tt s) by done. unfold mret, M_ret. do 2 f_equal.
      assert (alter (fun e => e) x (heap s) = heap s) as ->; [|by destruct s].
      apply map_eq. intros w. destruct (decide (x = w)) as [<-|Hne].
      * by rewrite lookup_alter_eq, Hx.
      * by rewrite lookup_alter_ne.
  - rewrite <- with_item_0. unfold touched. apply (layout_update s l fl x e); try done.
    + intros e'. by destruct (lru (dic s)).
    + destruct (lru (dic s)); cbn; lia.
    + apply (in_use_ok _ k'); [|destruct (lru (dic s)); done|done].
      unfold in_use. destruct (lru (dic s)); cbn; by rewrite Ho.
Qed.

Lemma tiles_data h a l b x : tiles h a l b -> x ∈ l ->
  exists e d, h !! x = Some e /\ Diccionario.data e = Some d /\ a <= d.
Proof.
  revert a. induction l as [|y l IH]; intros a; [by intros _ ?%not_elem_of_nil|].
  intros (e & He & Hd & Hc & Hl) [->|Hx]%elem_of_cons; [by exists e, a|].
  destruct (IH _ Hl Hx) as (e' & d & He' & Hd' & Hle). exists e', d. split_and!; [done..|lia].
Qed.

Lemma read_bytes_memcpy m a (v : list Z) b n :
  (a = b /\ n = zlen v -> read_bytes (memcpy_bytes m a v) b n = v) /\
  (b + n <= a \/ a + zlen v <= b -> read_bytes (memcpy_bytes m a v) b n = read_bytes m b n).
Proof.
  unfold read_bytes. split.
  - intros [<- ->]. apply list_eq. intros i. rewrite list_lookup_fmap.
    destruct (decide (Z.of_nat i < zlen v)) as [Hi|Hi].
    + rewrite lookup_seqZ_lt by lia. cbn [fmap option_fmap option_map]. unfold memcpy_bytes.
      rewrite (proj2 (in_range_true a (zlen v) _)) by lia.
      replace (Z.to_nat (a + (0 + Z.of_nat i) - a)) with i by lia.
      destruct (lookup_lt_is_Some_2 v i) as [c Hc]; [unfold zlen in Hi; lia|]. by rewrite Hc.
    + rewrite lookup_seqZ_ge by lia. symmetry. apply lookup_ge_None. unfold zlen in Hi. lia.
  - intros Hd. apply list_fmap_ext. intros i c Hc. apply lookup_seqZ in Hc as [-> Hc].
    unfold memcpy_bytes. by rewrite (proj2 (in_range_false a (zlen v) _)) by lia.
Qed.

(** Before and after the calls of a set and a get, the item [y] and its
    partition are the same. *)
Definition same_value s s' (y : nat) : Prop :=
  forall e d, heap s !! y = Some e -> Diccionario.data e = Some d ->
    exists e', heap s' !! y = Some e' /\ item_of e' = item_of e /\
      read_bytes (memoria s') d (chunk_size e) = read_bytes (memoria s) d (chunk_size e).

(** The element that was reserved for a new key is the one that has it. *)
Lemma reserved_found h h1 l l1 rest x e1 k nk nbytes fg :
  find_elem h (has_key k nk) l = None -> 0 < nk ->
  (forall y, y ∈ l1 -> y ∈ l /\ item_at h1 y = item_at h y) ->
  h1 !! x = Some e1 -> is_Some (key e1) -> reserved k nk nbytes fg e1 ->
  find_elem h1 (has_key k nk) (l1 ++ x :: rest) = Some x.
Proof.
  intros Hnew Hnk Hl1 Hx [k1 Hk1] [Hrk Hrn _ _ _ _]. rewrite Hk1 in Hrk. apply find_elem_found with e1; [|done|].
  - intros y ey Hy Hey. destruct (Hl1 y Hy) as [Hyl Hit].
    destruct (item_at_lookup h1 h y ey (eq_sym Hit) Hey) as (e0 & He0 & Hi).
    pose proof (find_elem_None _ _ _ _ _ Hnew Hyl He0) as Hno.
    apply (f_equal (has_key k nk)) in Hi. unfold has_key in *. cbn in Hi. congruence.
  - unfold has_key. rewrite Hrn, Hk1. cbn [default] in *.
    by rewrite (proj2 (Z.eqb_neq nk 0)), Z.eqb_refl, bool_decide_eq_true_2 by (done || lia).
Qed.

(** Writing into one partition changes the value of no other. *)
Lemma written_elsewhere s s1 s3 L fl x e1 base value y :
  partitioned s1 L fl -> x ∈ L -> heap s1 !! x = Some e1 -> Diccionario.data e1 = Some base -> zlen value <= chunk_size e1 ->
  memoria s1 = memoria s -> memoria s3 = memcpy_bytes (memoria s1) base value ->
  y ∈ L -> y <> x -> item_at (heap s1) y = item_at (heap s) y -> heap s3 !! y = heap s1 !! y -> same_value s s3 y.
Proof.
  intros Hp HxL He1 Hbase Hfit Hmem Hm3 HyL Hyx Hit Hy3 ey dy Hey Hdy.
  destruct (item_at_lookup (heap s) (heap s1) y ey Hit Hey) as (ey1 & Hey1 & Hi).
  pose proof (f_equal Diccionario.data Hi) as Hd1. pose proof (f_equal chunk_size Hi) as Hc1. cbn in Hd1, Hc1.
  exists ey1. split; [by rewrite Hy3|]. split; [done|]. rewrite Hm3, Hmem. apply read_bytes_memcpy.
  pose proof (pa_nodup _ _ _ Hp) as (HndL & _ & _)%NoDup_app.
  pose proof (tiles_disjoint _ _ _ _ y x ey1 e1 dy base HndL (pa_tiles _ _ _ Hp) HyL HxL Hyx Hey1 He1
                ltac:(congruence) Hbase). lia.
Qed.

(** C16: What is set can be got: for a key that is not in the cache and a value that fits a partition
    that is not in use, the calls that memcached makes for a set (allocate, the copy of the value to
    the address of the item, store) succeed, and a get of the key then finds the item with the flags,
    the size and the bytes of the value; every other item keeps its key and its value, and the
    invariant of the storage holds again. *)
Theorem set_then_get q `{Storage_scheme q} rounds s l fl k nk value fg :
  layout s l fl -> servable s l k nk (zlen value) ->
  exists x base s1 s2 s3 info l' fl',
    justice_engine_allocate q (Datatypes.S rounds) k nk (zlen value) fg s
      = Ok ((ENGINE_SUCCESS, Some x), s1) /\
    iov_base <$> (match justice_engine_get_item_info x s1 with Ok (i, _) => Some i | _ => None end)
      = Some (Some base) /\
    justice_engine_store x (with_memoria (memcpy_bytes (memoria s1) base value) s1)
      = Ok (ENGINE_SUCCESS, s2) /\
    justice_engine_get k nk s2 = Ok ((ENGINE_SUCCESS, Some x), s3) /\
    justice_engine_get_item_info x s3 = Ok (info, s3) /\
    ii_flags info = fg /\ ii_nkey info = nk /\ iov_base info = Some base /\ iov_len info = zlen value /\
    read_bytes (memoria s3) base (zlen value) = value /\
    layout s3 l' fl' /\ (forall y, y ∈ l -> y <> x -> same_value s s3 y).
Proof.
  intros Hlay Hsv.
  destruct (allocate_ok q rounds s l fl k nk (zlen value) fg Hlay Hsv) as
    (x & e & l1 & l2 & s1 & new & fl' & Hch & El & Efl & Hal & Hlay1 & Hmem & (e1 & He1 & Hres) & Hoth).
  pose proof (layout_partitioned _ _ _ Hlay1) as Hp1.
  set (L := l1 ++ x :: new ++ l2) in *.
  assert (x ∈ L) as HxL by (apply elem_of_app; right; by left).
  destruct (tiles_data _ _ _ _ x (pa_tiles _ _ _ Hp1) HxL) as (e1' & base & He1' & Hbase & _).
  assert (e1' = e1) as -> by congruence. clear He1'.
  destruct (pa_elements _ _ _ Hp1 x e1 HxL He1) as [_ (k1 & Hk1 & Hk1len)].
  pose proof Hres as [Hrk Hrn Hrs Hrf Hrfl Hro]. rewrite Hk1 in Hrk. cbn [default] in Hrk.
  set (s1m := with_memoria (memcpy_bytes (memoria s1) base value) s1).
  assert (layout s1m L fl') as Hp1m by by apply layout_memoria.
  assert (forall y, y ∈ l1 \/ y ∈ l2 -> y ∈ l /\ y ∈ L) as Hin
    by (intros y Hy; split; [rewrite El|unfold L]; rewrite ?elem_of_app, ?elem_of_cons, ?elem_of_app; tauto).
  assert (Hfind : find_elem (heap s1m) (has_key k nk) L = Some x).
  { destruct (sv_nkey _ _ _ _ _ Hsv). apply (reserved_found (heap s) _ l _ _ _ e1 k nk (zlen value) fg (sv_new _ _ _ _ _ Hsv)); try done.
    intros y Hy. split; [by apply Hin; left|by apply Hoth; left]. }
  destruct (store_ok q s1m L fl' x e1 k1 Hp1m He1 Hk1) as (s2 & Hst & Hp2 & Es2).
  { rewrite Hrn. rewrite <- Hfind. apply find_elem_pred. intros e'. by apply has_key_prefix. }
  set (e2 := stored (clock s1m) e1) in *.
  assert (heap s2 !! x = Some e2) as He2.
  { rewrite Es2. cbn [heap with_heap]. rewrite lookup_alter_eq. change (heap s1m) with (heap s1). by rewrite He1. }
  destruct (get_ok q s2 L fl' x e2 k nk Hp2 He2 eq_refl) as (s3 & Hgt & Hp3 & Es3).
  { rewrite Es2. cbn [heap with_heap]. rewrite find_elem_alter by done. done. }
  assert (exists now, touched s2 e2 = set_hour now e2) as [now Et].
  { unfold touched. destruct (lru (dic s2)); [by eexists|]. by exists (hour e2). }
  assert (heap s3 !! x = Some (set_hour now e2)) as He3.
  { rewrite Es3. cbn [heap with_heap]. by rewrite lookup_alter_eq, He2, <- Et. }
  assert (memoria s3 = memcpy_bytes (memoria s1) base value) as Hm3 by by rewrite Es3, Es2.
  exists x, base, s1, s2, s3. eexists. exists L, fl'. split; [done|]. split.
  { unfold justice_engine_get_item_info. rewrite (bind_ok _ _ _ _ _ (at_ok _ _ _ He1)). cbn. by rewrite Hbase. }
  split; [done|]. split; [done|]. split.
  { unfold justice_engine_get_item_info. by rewrite (bind_ok _ _ _ _ _ (at_ok _ _ _ He3)). }
  cbn [ii_flags ii_nkey iov_base iov_len]. split_and!; try done.
  { rewrite Hm3. by apply read_bytes_memcpy. }
  intros y Hy Hyx. assert (y ∈ l1 \/ y ∈ l2) as Hy12 by (rewrite El in Hy; apply elem_of_app in Hy as [Hy|[Hy|Hy]%elem_of_cons]; tauto).
  eapply (written_elsewhere s s1 s3 L fl' x e1 base value y); try done; [by apply Hin|by apply Hoth|].
  rewrite Es3, Es2. cbn [heap with_heap]. by rewrite !lookup_alter_ne by done.
Qed.

(** ** The start *)

Section Start.
Variables (max_size slab : Z) (b : t_dict_element) (m : mem) (now : Z).
Hypotheses (Hslab : 0 < slab <= max_size) (Hidle : idle b) (Hok : element_ok b).

Definition start_count : nat := Z.to_nat (max_size / slab).

Lemma start_count_pos : (0 < start_count)%nat.
Proof using Hslab.
  unfold start_count. assert (1 <= max_size / slab) by (apply Z.div_le_lower_bound; lia). lia.
Qed.

Definition start_node (i : nat) : t_dict_element :=
  {| prev := match i with O => None | S j => Some (S j) end; key := key_malloc; nkey := 0;
     Diccionario.data := None; hour := 0; chunk_size := 0; data_size := 0; ocupado := false; flags := 0;
     next := Some (S (S i)) |}.

Lemma nodes_array_lookup i :
  (i < start_count - 1)%nat -> nodes_array start_count (Some b) !! S i = Some (start_node i).
Proof using.
  intros Hi. unfold nodes_array. rewrite lookup_insert_ne by lia.
  apply elem_of_list_to_map_1.
  - rewrite <- list_fmap_compose. apply NoDup_fmap; [intros x y [=]; done|apply NoDup_seq].
  - apply list_elem_of_fmap. exists i. split; [done|]. apply elem_of_seq. lia.
Qed.

Definition start_heap : gmap nat t_dict_element :=
  <[0%nat := {| prev := None; key := key_malloc; nkey := 0; Diccionario.data := Some 0; hour := 0;
                chunk_size := max_size; data_size := 0; ocupado := false; flags := 0; next := None |}]>
    (alter (set_next None) start_count (nodes_array start_count (Some b))).

Lemma start_heap_last : start_heap !! start_count = Some (set_next None b).
Proof using Hslab.
  pose proof start_count_pos. unfold start_heap. rewrite lookup_insert_ne by lia.
  rewrite lookup_alter_eq. unfold nodes_array.
  replace (S (start_count - 1)) with start_count by lia. by rewrite lookup_insert_eq.
Qed.

Lemma start_heap_node i : (i < start_count - 1)%nat -> start_heap !! S i = Some (start_node i).
Proof using.
  intros Hi. unfold start_heap. rewrite lookup_insert_ne by lia. rewrite lookup_alter_ne by lia.
  by apply nodes_array_lookup.
Qed.

Lemma start_nodes k j :
  (0 < j)%nat -> (j + k = start_count)%nat -> slseg start_heap (Some j) (seq j (S k)).
Proof using Hslab.
  revert j. induction k as [|k IH]; intros j Hj Hk; (split; [done|]).
  - exists None. split; [|done]. unfold links.
    assert (j = start_count) as -> by lia. by rewrite start_heap_last.
  - exists (Some (S j)). split; [|apply IH; lia]. unfold links. destruct j as [|i]; [lia|].
    by rewrite start_heap_node by lia.
Qed.

Lemma crear_ok :
  exists s, diccionario_crear max_size slab (Some b) m now = Ok s /\ heap s = start_heap /\
    dic s = {| nodes := Some 1%nat; elements := Some 0%nat; table_max_size := max_size;
               table_current_size := 0; slab_min_size := slab; lru := false; bestfit := false;
               compactarMemoria := 0; frecuenciaCompactacion := 0 |} /\
    memoria s = m /\ clock s = now.
Proof using Hslab.
  pose proof start_count_pos. unfold diccionario_crear, inicializarElementos. fold start_count.
  replace (S (start_count - 1)) with start_count by lia.
  erewrite bind_ok.
  2: { apply set_at_alter. cbn [heap]. unfold nodes_array.
       replace (S (start_count - 1)) with start_count by lia. by rewrite lookup_insert_eq. }
  eexists. split; [reflexivity|done].
Qed.

Lemma start_partitioned lru_ bestfit_ freq s :
  heap s = start_heap ->
  dic s = {| nodes := Some 1%nat; elements := Some 0%nat; table_max_size := max_size;
             table_current_size := 0; slab_min_size := slab; lru := lru_; bestfit := bestfit_;
             compactarMemoria := 0; frecuenciaCompactacion := freq |} ->
  partitioned s [0%nat] (seq 1 start_count).
Proof using Hslab Hidle Hok.
  intros Eh Ed. pose proof start_count_pos. split; rewrite ?Eh, ?Ed;
    cbn [nodes elements table_max_size table_current_size].
  - split; [done|]. exists None. split; [|done]. unfold links, start_heap. by rewrite lookup_insert_eq.
  - assert (start_count = S (start_count - 1)) as -> by lia. apply start_nodes; lia.
  - apply NoDup_cons. split; [|apply NoDup_seq]. intros Hin%elem_of_seq. lia.
  - eexists. split; [apply lookup_insert_eq|]. cbn. split_and!; [done|lia|done].
  - cbn [used foldr]. unfold start_heap. by rewrite lookup_insert_eq.
  - intros x e ->%list_elem_of_singleton. unfold start_heap. rewrite lookup_insert_eq. intros [= <-].
    split; [done|]. by eexists.
  - intros x e Hx%elem_of_seq He. destruct (decide (x = start_count)) as [->|Hne].
    + rewrite start_heap_last in He. injection He as <-. split; [exact Hidle|exact Hok].
    + destruct x as [|i]; [lia|]. rewrite start_heap_node in He by lia. injection He as <-.
      split; [done|]. split; [done|]. by eexists.
Qed.

Lemma start_aligned s : heap s = start_heap -> power_of_two max_size -> aligned (heap s) [0%nat].
Proof using.
  intros Eh Hpow x e d Hx He Hd. apply list_elem_of_singleton in Hx as ->. rewrite Eh in He.
  unfold start_heap in He. rewrite lookup_insert_eq in He. injection He as <-. cbn in *. injection Hd as <-.
  split; [done|]. apply Z.divide_0_r.
Qed.
End Start.

(** Both schemes start in the same way. *)
Lemma inicializar_schemes q max_size slab lru_ bestfit_ freq b m now :
  justice_engine_inicializar q max_size slab lru_ bestfit_ freq b m now
  = justice_engine_inicializar ParticionesDinamicas max_size slab lru_ bestfit_ freq b m now.
Proof.
  destruct q; [done|]. unfold justice_engine_inicializar, diccionario_crear_buddy, diccionario_crear.
  by destruct (inicializarElementos _ _) as [[]|].
Qed.

(** The engine starts with one free partition that is the whole memory, and as many free nodes as
    slabs fit the memory, whichever the scheme is; if the size is a power of two, the buddy system
    starts with buddies.  But the last of the free nodes lies behind the array that was allocated: the
    write to it is outside, and the start works when an unused element happens to be there. *)
Lemma engine_starts q max_size slab lru_ bestfit_ freq m now :
  0 < slab <= max_size ->
  justice_engine_inicializar q max_size slab lru_ bestfit_ freq None m now = Fail OutOfBounds /\
  (forall b, idle b -> element_ok b ->
     exists s, justice_engine_inicializar q max_size slab lru_ bestfit_ freq (Some b) m now
       = Ok s /\ partitioned s [0%nat] (seq 1 (Z.to_nat (max_size / slab))) /\
       (power_of_two max_size -> buddies s [0%nat] (seq 1 (Z.to_nat (max_size / slab)))) /\
       lru (dic s) = lru_ /\ bestfit (dic s) = bestfit_ /\ slab_min_size (dic s) = slab /\
       table_max_size (dic s) = max_size).
Proof.
  intros Hs. pose proof (start_count_pos max_size slab Hs) as Hpos. rewrite inicializar_schemes. split.
  - unfold justice_engine_inicializar, diccionario_crear, inicializarElementos.
    change (Z.to_nat (max_size / slab)) with (start_count max_size slab).
    unfold mbind at 1, M_bind at 1, set_at, at_, mbind at 1, M_bind at 1. cbn [heap].
    unfold nodes_array. rewrite not_elem_of_list_to_map_1; [done|].
    rewrite <- list_fmap_compose. intros (i & Hi & Hin%elem_of_seq)%list_elem_of_fmap. simpl in Hi. lia.
  - intros b Hidle Hok. rewrite inicializar_schemes.
    destruct (crear_ok max_size slab b m now Hs) as (s & Hrun & Hh & Hd & _).
    eexists. unfold justice_engine_inicializar. rewrite Hrun. split; [reflexivity|].
    set (s' := with_dic _ s). assert (partitioned s' [0%nat] (seq 1 (Z.to_nat (max_size / slab)))) as Hp.
    { apply (start_partitioned max_size slab b Hs Hidle Hok lru_ bestfit_ freq); [done|].
      cbn. by rewrite Hd. }
    split; [done|]. split; [|unfold s'; by rewrite Hd]. intros Hpow. split; [done|].
    by apply (start_aligned max_size slab b).
Qed.

(** The buddy system gets the lower power of two of memory, but its first partition has the size
    that was configured: unless that is a power of two, the partitions reach behind the memory. *)
Lemma buddy_memory_short max_size slab b m now :
  0 < slab <= max_size ->
  exists s memory e, diccionario_crear_buddy max_size slab (Some b) m now = Ok (s, memory) /\
    elements (dic s) = Some 0%nat /\ heap s !! 0%nat = Some e /\ in_use e = false /\
    chunk_size e = max_size /\ memory <= max_size < 2 * memory /\
    (memory = max_size <-> power_of_two max_size).
Proof.
  intros Hs. destruct (crear_ok max_size slab b m now Hs) as (s & Hrun & Hh & Hd & _).
  exists s, (power_two_low max_size). eexists. split.
  { unfold diccionario_crear in Hrun. unfold diccionario_crear_buddy.
    destruct (inicializarElementos _ _) as [[[] s0]|]; [|done]. by injection Hrun as ->. }
  rewrite Hh, Hd. split; [done|]. split; [apply lookup_insert_eq|]. split; [done|]. split; [done|].
  unfold power_two_low. destruct (Z.log2_spec max_size ltac:(lia)) as [Hlo Hhi].
  rewrite Z.pow_succ_r in Hhi by apply Z.log2_nonneg. split; [lia|]. split.
  - intros E. exists (Z.log2 max_size). split; [apply Z.log2_nonneg|done].
  - intros (k & Hk & ->). by rewrite Z.log2_pow2.
Qed.

(** ** Witnesses: a cache of 64 bytes in slabs of 8 *)

Definition empty_element : t_dict_element :=
  {| prev := None; key := key_malloc; nkey := 0; Diccionario.data := None; hour := 0; chunk_size := 0;
     data_size := 0; ocupado := false; flags := 0; next := None |}.

Lemma empty_element_ok : idle empty_element /\ element_ok empty_element.
Proof. split; [done|]. split; [done|]. by exists (replicate 45 0). Defined.

Definition small_cache : rc :=
  match justice_engine_inicializar ParticionesDinamicas 64 8 true false 2 (Some empty_element) (fun _ => 0) 100 with
  | Ok s => s
  | Fail _ => {| heap := ∅; dic := {| nodes := None; elements := None; table_max_size := 0; table_current_size := 0;
                 slab_min_size := 0; lru := false; bestfit := false; compactarMemoria := 0;
                 frecuenciaCompactacion := 0 |}; memoria := fun _ => 0; clock := 0 |}
  end.

Lemma engine_starts_witness : partitioned small_cache [0%nat] (seq 1 8).
Proof.
  destruct (engine_starts ParticionesDinamicas 64 8 true false 2 (fun _ => 0) 100 ltac:(lia)) as [_ H].
  destruct empty_element_ok as [Hi Ho]. destruct (H empty_element Hi Ho) as (s & Hs & Hp & _).
  assert (s = small_cache) as <-.
  { unfold small_cache. by rewrite Hs. }
  exact Hp.
Defined.

Lemma small_cache_partitioned : partitioned small_cache [0%nat] (seq 1 8).
Proof.
  destruct empty_element_ok as [Hi Ho].
  apply (start_partitioned 64 8 empty_element ltac:(lia) Hi Ho true false 2); vm_compute; reflexivity.
Defined.


Definition small_key : list Z := str "key" ++ [0].

(** The start state serves both schemes: 64 is a power of two. *)
Lemma small_cache_buddies : buddies small_cache [0%nat] (seq 1 8).
Proof.
  split; [apply small_cache_partitioned|].
  apply (start_aligned 64 8 empty_element); [vm_compute; reflexivity|]. exists 6. split; [lia|reflexivity].
Defined.

Definition set_and_got (q : ESQUEMA) : Prop :=
  exists x s1 s2 s3,
    justice_engine_allocate q 1 small_key 3 4 7 small_cache = Ok ((ENGINE_SUCCESS, Some x), s1) /\
    justice_engine_store x (with_memoria (memcpy_bytes (memoria s1) 0 (str "hola")) s1) = Ok (ENGINE_SUCCESS, s2) /\
    justice_engine_get small_key 3 s2 = Ok ((ENGINE_SUCCESS, Some x), s3) /\
    read_bytes (memoria s3) 0 4 = str "hola".

Lemma small_servable : servable small_cache [0%nat] small_key 3 4.
Proof.
  split; [vm_compute; reflexivity|split; vm_compute; reflexivity|vm_compute; reflexivity
         |split; [vm_compute; discriminate|vm_compute; reflexivity]|vm_compute; discriminate| |vm_compute; reflexivity].
  exists 0%nat. eexists. split; [by left|]. split; vm_compute; reflexivity.
Defined.

(** From the run that the theorem gives to the one with the address 0. *)
Ltac at_address_0 H :=
  destruct H as (x & base & s1 & s2 & s3 & info & l' & fl' & H1 & Hb & H2 & H3 & _ & _ & _ & _ & _ & H4 & _);
  assert (base = 0) as ->;
  [ revert Hb; assert (x = 0%nat /\ Diccionario.data <$> heap s1 !! 0%nat = Some (Some 0)) as [-> E];
    [ vm_compute in H1; injection H1 as <- <-; done
    | unfold justice_engine_get_item_info, mbind, M_bind, at_; destruct (heap s1 !! 0%nat) as [e|]; [|done];
      simpl in *; congruence ]
  | exists x, s1, s2, s3; exact (conj H1 (conj H2 (conj H3 H4))) ].

Lemma set_then_get_witness : set_and_got ParticionesDinamicas /\ set_and_got BuddySystem.
Proof.
  split.
  - pose proof (@set_then_get ParticionesDinamicas dynamic_partitions 0 small_cache [0%nat] (seq 1 8) small_key 3
      (str "hola") 7 small_cache_partitioned small_servable) as H. at_address_0 H.
  - pose proof (@set_then_get BuddySystem buddy_system 0 small_cache [0%nat] (seq 1 8) small_key 3
      (str "hola") 7 small_cache_buddies small_servable) as H. at_address_0 H.
Defined.

(** ** Removing in the wrong order *)

(** A set of a value of eight bytes for the key [k], as memcached makes it. *)
Definition set_call (q : ESQUEMA) (k : string) : MR unit :=
  r ← justice_engine_allocate q 1 (str k ++ [0]) 1 8 0;
  p ← deref (snd r);
  justice_engine_store p;;
  mret tt.

Definition delete_call (q : ESQUEMA) (k : string) : MR unit :=
  justice_engine_item_delete q (str k) 1;; mret tt.

(** The state of the witness of [eliminar_releases]: the items A and B. *)
Definition two_items : rc :=
  match (set_call ParticionesDinamicas "A";; set_call ParticionesDinamicas "B") small_cache with Ok (_, s) => s | Fail _ => small_cache end.

Ltac concrete_list :=
  repeat (split; [vm_compute; reflexivity|]; eexists; split; [vm_compute; reflexivity|]); vm_compute; reflexivity.

Ltac each_element Hx He :=
  repeat (apply elem_of_cons in Hx as [->|Hx]; [vm_compute in He; injection He as <-|]);
  [..|destruct (not_elem_of_nil _ Hx)].

(** The layout of a concrete cache. *)
Ltac concrete_partitions :=
  split;
  [ concrete_list
  | concrete_list
  | refine (bool_decide_unpack _ _); vm_compute; exact I
  | repeat (eexists; split; [vm_compute; reflexivity|]; split; [vm_compute; reflexivity|];
            split; [vm_compute; reflexivity|]); vm_compute; reflexivity
  | vm_compute; reflexivity
  | let x := fresh in let e := fresh in let Hx := fresh in let He := fresh in
    intros x e Hx He; each_element Hx He; (split; [vm_compute; intros; split; congruence|eexists; split; reflexivity])
  | let x := fresh in let e := fresh in let Hx := fresh in let He := fresh in
    intros x e Hx He; each_element Hx He;
    (split; [split_and!; reflexivity|split; [vm_compute; intros; split; reflexivity|eexists; split; reflexivity]]) ].

Lemma two_items_partitioned : partitioned two_items [0; 1; 2]%nat [3; 4; 5; 6; 7; 8]%nat.
Proof. concrete_partitions. Defined.

(** B goes: its 8 bytes join the 48 that are free behind it, and A stays. *)
Lemma eliminar_releases_witness :
  exists s' fl' e', diccionario_eliminar 1 two_items = Ok (1%nat, s') /\ partitioned s' [0; 1]%nat fl' /\
    heap s' !! 1%nat = Some e' /\ empty e' /\ chunk_size e' = 56 /\ table_current_size (dic s') = 8.
Proof.
  destruct (heap two_items !! 1%nat) as [e|] eqn:He; [|vm_compute in He; discriminate].
  destruct (eliminar_releases two_items [0%nat] 1 [2%nat] [3; 4; 5; 6; 7; 8]%nat e two_items_partitioned He)
    as (l1' & r1 & r2 & l2' & y & s' & fl' & e' & H1 & (E1 & E2 & E3 & [F1 G1] & [F2 G2]) & H2 & H3 & H4 & H5 & H6 & _).
  - intros w ew Hw Hew Ho. 
    repeat (apply elem_of_cons in Hw as [->|Hw];
      [vm_compute in Hew; injection Hew as <-; first [discriminate Ho|split_and!; reflexivity]|]).
    destruct (not_elem_of_nil _ Hw).
  - exact I.
  - destruct r1 as [|w r1 _] using rev_ind.
    2: { assert (w = 0%nat) as -> by (rewrite app_assoc in E1; by apply (app_inj_tail [] _ 0%nat w) in E1 as [_ <-]).
         discriminate (F1 0%nat ltac:(apply elem_of_app; right; by left)). }
    destruct r2 as [|w r2].
    { cbn in E2. subst l2'. discriminate (G2 2%nat eq_refl). }
    injection E2 as <- E2. destruct r2; [|discriminate]. cbn in E2. subst l2'.
    rewrite app_nil_r in E1. subst l1'. injection E3 as <-.
    assert (data_size e = 8) as Hd by (vm_compute in He; by injection He as <-).
    exists s', fl', e'. split; [exact H1|]. split; [exact H2|]. split; [exact H3|]. split; [exact H4|].
    rewrite H5, H6, Hd. split; vm_compute; reflexivity.
Defined.

(** The items A, B and C, of which B is deleted: A is in front of its free partition, and that one in front
    of C.  When A is deleted now, C cannot be any more. *)
Definition three_items : rc :=
  let q := ParticionesDinamicas in
  match (set_call q "A";; set_call q "B";; set_call q "C";; delete_call q "B") small_cache with Ok (_, s) => s | Fail _ => small_cache end.

Lemma three_items_partitioned : partitioned three_items [0; 1; 2; 3]%nat [4; 5; 6; 7; 8]%nat.
Proof. concrete_partitions. Defined.

Lemma eliminar_hangs_witness :
  diccionario_obtener (str "A") 1 three_items = Ok (Some 0%nat, three_items) /\
  diccionario_obtener (str "C") 1 three_items = Ok (Some 2%nat, three_items) /\
  exists y s1, diccionario_eliminar 0 three_items = Ok (y, s1) /\ diccionario_eliminar 2 s1 = Fail OutOfFuel.
Proof.
  split; [vm_compute; reflexivity|]. split; [vm_compute; reflexivity|].
  destruct (heap three_items !! 0%nat) as [ea|] eqn:Ha; [|vm_compute in Ha; discriminate].
  destruct (heap three_items !! 1%nat) as [ez|] eqn:Hz; [|vm_compute in Hz; discriminate].
  destruct (heap three_items !! 2%nat) as [ec|] eqn:Hc; [|vm_compute in Hc; discriminate].
  destruct (eliminar_hangs three_items [] 0 1 2 [3%nat] [4; 5; 6; 7; 8]%nat ea ez ec three_items_partitioned)
    as (y & s1 & s2 & H1 & _ & _ & H2); [|exact Ha|exact Hz| |exact Hc| |].
  - intros w ew Hw. destruct (not_elem_of_nil _ Hw).
  - vm_compute in Hz. by injection Hz as <-.
  - vm_compute in Hc. by injection Hc as <-.
  - exists y, s1. split; [exact H1|exact H2].
Defined.

(** The state of the witness of [eliminar_buddy_releases]: the item A, for which the memory was halved
    three times. *)
Definition one_buddy : rc :=
  match set_call BuddySystem "A" small_cache with Ok (_, s) => s | Fail _ => small_cache end.

Lemma one_buddy_buddies : buddies one_buddy [0; 3; 2; 1]%nat [4; 5; 6; 7; 8]%nat.
Proof.
  split.
  - concrete_partitions.
  - intros x e d Hx He Hd. each_element Hx He; injection Hd as <-; split.
    + by exists 3.
    + by exists 0.
    + by exists 3.
    + by exists 1.
    + by exists 4.
    + by exists 1.
    + by exists 5.
    + by exists 1.
Defined.

Lemma eliminar_buddy_releases_witness :
  exists s' e', diccionario_eliminar_buddy 0 one_buddy = Ok (0%nat, s') /\ heap s' !! 0%nat = Some e' /\
    empty e' /\ chunk_size e' = 64 /\ table_current_size (dic s') = 0.
Proof.
  destruct (heap one_buddy !! 0%nat) as [e|] eqn:He; [|vm_compute in He; discriminate].
  assert (Diccionario.data e = Some 0 /\ data_size e = 8) as [Hd Hs].
  { vm_compute in He. injection He as <-. split; reflexivity. }
  destruct (eliminar_buddy_releases one_buddy [] 0 [3; 2; 1]%nat [4; 5; 6; 7; 8]%nat e 0 one_buddy_buddies He Hd)
    as (s' & l1' & l2' & fl' & e' & d' & H1 & _ & H2 & H3 & _ & _ & _ & H4 & _).
  exists s', e'. rewrite Hs in H4. split; [exact H1|]. split; [exact H2|]. split; [exact H3|]. split; [|exact H4].
  vm_compute in H1. injection H1 as <-. vm_compute in H2. injection H2 as <-. reflexivity.
Defined.

Lemma buddy_memory_short_witness :
  exists s e, diccionario_crear_buddy 100 8 (Some empty_element) (fun _ => 0) 0 = Ok (s, 64) /\
    heap s !! 0%nat = Some e /\ chunk_size e = 100.
Proof.
  destruct (buddy_memory_short 100 8 empty_element (fun _ => 0) 0 ltac:(lia)) as (s & memory & e & H1 & _ & H2 & _ & H3 & _).
  exists s, e. split; [|split; [exact H2|exact H3]]. rewrite H1. vm_compute in H1. by injection H1 as <- <-.
Defined.

(** ** Compaction *)

(** The items A and B, and A is deleted: 8 bytes are free in front of B, and 48 behind it. *)
Definition before_compaction : rc :=
  match (set_call ParticionesDinamicas "A";; set_call ParticionesDinamicas "B";; delete_call ParticionesDinamicas "A") small_cache with
  | Ok (_, s) => s
  | Fail _ => small_cache
  end.

Lemma before_compaction_partitioned : partitioned before_compaction [0; 1; 2]%nat [3; 4; 5; 6; 7; 8]%nat.
Proof. concrete_partitions. Defined.

Lemma compaction_loses_items_witness :
  diccionario_obtener (str "B") 1 before_compaction = Ok (Some 1%nat, before_compaction) /\
  exists s', diccionario_compactarMemoria before_compaction = Ok (tt, s') /\
    diccionario_obtener (str "B") 1 s' = Ok (None, s') /\
    table_current_size (dic s') = 8 /\ first_fit 2 (elements (dic s')) 1 s' = Ok (None, s').
Proof.
  destruct (heap before_compaction !! 0%nat) as [ef|] eqn:Hf; [|vm_compute in Hf; discriminate].
  destruct (heap before_compaction !! 1%nat) as [ep|] eqn:Hp; [|vm_compute in Hp; discriminate].
  destruct (compaction_loses_items before_compaction [] 0 1 [2%nat] [3; 4; 5; 6; 7; 8]%nat ef ep (str "B") 1) as [H1 H2].
  - split; [exact before_compaction_partitioned| | | |].
    + intros w e Hw. destruct (not_elem_of_nil _ Hw).
    + split; [exact Hf|]. vm_compute in Hf. by injection Hf as <-.
    + split; [exact Hp|]. vm_compute in Hp. injection Hp as <-. split; [reflexivity|discriminate].
    + intros w e Hw He. each_element Hw He. reflexivity.
  - vm_compute in Hp. by injection Hp as <-.
  - reflexivity.
  - discriminate.
  - intros w e Hw. destruct (not_elem_of_nil _ Hw).
  - split; [exact H1|].
    assert ((chunk_size ep <=? chunk_size ef) = true) as Hc.
    { vm_compute in Hf, Hp. injection Hf as <-. injection Hp as <-. reflexivity. }
    rewrite Hc in H2. destruct H2 as (s' & fl' & ef' & a & b & H2 & _ & _ & H3 & H4 & H5).
    exists s'. split; [exact H2|]. split; [exact H3|]. split; [|exact (H4 1)]. rewrite H5. vm_compute. reflexivity.
Defined.
