(* ===== verification/Typed.v ===== *)
(** * Typed: the state keeps its types, whatever a client sends

    The values of the model are integers and lists without bounds; the
    program's are bytes, words, C strings and structures.  [typed] says that a
    state is one the program can have: an image of bytes, a table of C strings
    with addresses of their own and locks that no reader shares with a
    writer, counters within their words.  [keeps] is the rule for computations:
    a run that returns from a state of the invariant ends in one, with a
    result of which [P] holds.  It composes by the rules of the monad, and the
    database [typed] has it for every operation. *)

From S2P Require Import Prelude Memory Bitarray Ext2 Ext2Facts CString Paths Rfs ActiveFiles Alloc BlockMap Dirs FileOps Serial Requests Enters Removes SerialFacts Lookups Creates.

(** ** Computations that keep an invariant *)

Section Keeps.
Context {S : Type} (I : S -> Prop).

Definition keeps {A} (P : A -> Prop) (m : M S A) : Prop :=
  forall s a s', I s -> m s = Ok (a, s') -> I s' /\ P a.

Lemma keeps_ret {A} (P : A -> Prop) a : P a -> keeps P (mret a).
Proof. by intros Hp s ? ? Hs [= <- <-]. Qed.

Lemma keeps_bind {A B} (Q : A -> Prop) (P : B -> Prop) (m : M S A) (f : A -> M S B) :
  keeps Q m -> (forall a, Q a -> keeps P (f a)) -> keeps P (m ≫= f).
Proof.
  intros Hm Hf s b s' Hs (a & s1 & E1 & E2)%bind_inv.
  destruct (Hm _ _ _ Hs E1) as [Hs1 Ha]. exact (Hf a Ha _ _ _ Hs1 E2).
Qed.

Lemma keeps_weaken {A} (Q P : A -> Prop) (m : M S A) : keeps Q m -> (forall a, Q a -> P a) -> keeps P m.
Proof. intros Hm Hq s a s' Hs E. destruct (Hm _ _ _ Hs E). eauto. Qed.

Lemma keeps_fail {A} (P : A -> Prop) e : keeps P (fail e).
Proof. by intros s a s' _. Qed.

Lemma keeps_gets {A} (P : A -> Prop) (f : S -> A) : (forall s, I s -> P (f s)) -> keeps P (gets f).
Proof. intros Hf s ? ? Hs [= <- <-]. auto. Qed.

Lemma keeps_modify (f : S -> S) : (forall s, I s -> I (f s)) -> keeps (fun _ => True) (modify f).
Proof. intros Hf s ? ? Hs [= <- <-]. auto. Qed.

Lemma keeps_when b m : keeps (fun _ => True) m -> keeps (fun _ => True) (when b m).
Proof. destruct b; [done|]. intros _. by apply keeps_ret. Qed.

Lemma keeps_deref {A} (P : A -> Prop) p : (forall a, p = Some a -> P a) -> keeps P (deref p).
Proof. destruct p; intros Hp; [by apply keeps_ret, Hp|apply keeps_fail]. Qed.
End Keeps.

(** ** The types of the state *)

Section Typed.
Context {Super_constants : Superblock_constants} {WA : Word_after_array} {AB : Abi}.
Context {C : Type} `{Memcached C}.
Abbreviation R := (rfs C).
Implicit Types (s : R) (a : active_file_t) (m : mem) (p : list Z).

(** An entry of the table. *)
Definition entry_typed a : Prop :=
  C_string (path a) /\ 0 <= is_working a < 2 ^ 32 /\ (writer (rwlock a) = true -> readers (rwlock a) = 0%nat).

Record typed s : Prop := {
  ty_image : mem_ok (file s);
  ty_entries : Forall entry_typed (active_file_list s);
  ty_paths : NoDup (path <$> active_file_list s);
  ty_ids : NoDup (af_id <$> active_file_list s);
  ty_fresh : Forall (fun a => (af_id a < next_id s)%nat) (active_file_list s);
  ty_counter : 0 <= writes_to_sync s < 2 ^ 64
}.

Abbreviation keep := (keeps typed).
Abbreviation keep_all := (keeps typed (fun _ => True)).

(** ** The state, field by field *)

Lemma keep_get_file : keep mem_ok get_file.
Proof. apply keeps_gets, ty_image. Qed.

Lemma typed_file s m : typed s -> mem_ok m -> typed (with_file m s).
Proof. by intros [] Hm. Qed.

Lemma typed_files s l n :
  typed s -> Forall entry_typed l -> NoDup (path <$> l) -> NoDup (af_id <$> l) ->
  Forall (fun a => (af_id a < n)%nat) l -> typed (with_files l n s).
Proof. by intros []. Qed.

Lemma keep_put_file m : mem_ok m -> keep_all (put_file m).
Proof. intros Hm. apply keeps_modify. intros s Hs. by apply typed_file. Qed.

Lemma keep_update_file f : (forall m, mem_ok m -> mem_ok (f m)) -> keep_all (update_file f).
Proof. intros Hf. apply keeps_modify. intros s Hs. by apply typed_file, Hf, ty_image. Qed.

Lemma keep_set_errno e : keep_all (set_errno e).
Proof. apply keeps_modify. by intros s []. Qed.

Lemma keep_get_errno : keep_all get_errno.
Proof. by apply keeps_gets. Qed.

Lemma keep_with_memc (f : R -> C) : keep_all (modify (fun s => with_memc (f s) s)).
Proof. apply keeps_modify. by intros s []. Qed.

Lemma keep_update_counter : keep_all update_counter.
Proof. apply keeps_modify. intros s []. split; try done. apply Z.mod_pos_bound. lia. Qed.

(** ** The table *)

Lemma keep_the_file id : keep entry_typed (the_file id).
Proof.
  intros s a s' Hs (l & s1 & [= <- <-] & E)%bind_inv.
  destruct (find_id id (active_file_list s)) as [b|] eqn:Eb; [|done]. injection E as <- <-.
  split; [done|]. apply find_id_Some in Eb as [Hb _]. exact (proj1 (Forall_forall _ _) (ty_entries _ Hs) _ Hb).
Qed.

(** An update of an entry that keeps its path and its address. *)
Lemma typed_update s id f :
  (forall a, path (f a) = path a) -> (forall a, af_id (f a) = af_id a) ->
  (forall a, entry_typed a -> entry_typed (f a)) -> typed s ->
  typed (with_files (update_id id f (active_file_list s)) (next_id s) s).
Proof.
  intros Hp Hi Hf Hs. apply typed_files; [done| | | |].
  - apply Forall_fmap. eapply Forall_impl; [apply ty_entries, Hs|]. intros a Ha. simpl. case_match; auto.
  - rewrite update_id_paths by done. apply ty_paths, Hs.
  - rewrite update_id_ids by done. apply ty_ids, Hs.
  - apply Forall_fmap. eapply Forall_impl; [apply ty_fresh, Hs|]. intros a Ha. simpl. case_match; [by rewrite Hi|done].
Qed.

Lemma keep_update_entry id f :
  (forall a, path (f a) = path a) -> (forall a, af_id (f a) = af_id a) ->
  (forall a, entry_typed a -> entry_typed (f a)) ->
  keep_all (l ← get_files; put_files (update_id id f l)).
Proof.
  intros Hp Hi Hf s ? ? Hs (l & s1 & [= <- <-] & [= <- <-])%bind_inv. split; [|done]. by apply typed_update.
Qed.

Lemma keep_with_lock id f :
  (forall k k', f k = Ok k' -> writer k' = true -> readers k' = 0%nat) -> keep_all (with_lock id f).
Proof.
  intros Hf. eapply keeps_bind; [apply keep_the_file|]. intros a _ s ? ? Hs (l & s1 & [= <- <-] & E)%bind_inv.
  destruct (f (rwlock a)) as [k|] eqn:Ek; [|done]. injection E as <- <-. split; [|done].
  apply typed_update; [done..| |done]. intros b (Hb & Hw & _). split_and!; [done|apply Hw..|by eapply Hf].
Qed.

Lemma keep_RDLOCK id : keep_all (RDLOCK id).
Proof. apply keep_with_lock. intros [r w] k'. cbn. case_match; [done|]. by intros [= <-]. Qed.

Lemma keep_WRLOCK id : keep_all (WRLOCK id).
Proof. apply keep_with_lock. intros [r w] k'. cbn. case_match; [done|]. by intros [= <-]. Qed.

Lemma keep_UNLOCK id : keep_all (UNLOCK id).
Proof. apply keep_with_lock. intros [[|r] []] k'; cbn; intros [= <-]; done. Qed.

(** The counting of a reference, in front of [k]. *)
Lemma keep_set_working id (d : Z) {A} (P : A -> Prop) (k : M R A) :
  keep P k ->
  keep P (l ← get_files; put_files (update_id id (fun a => set_working (u32 (is_working a + d)) a) l);; k).
Proof.
  intros Hk s a s' Hs (l & s1 & [= <- <-] & ([] & s2 & [= <-] & E)%bind_inv)%bind_inv.
  refine (Hk _ _ _ _ E). apply typed_update; [done..| |done].
  intros b (Hp & _ & Hl). split_and!; [done|apply u32_range..|done].
Qed.

Lemma entry_typed_create n p : C_string p -> entry_typed (active_file_create n p).
Proof. intros Hp. by split_and!. Qed.

Lemma keep_find p : C_string p -> keep_all (active_file_list_find p).
Proof.
  intros Hp s a s' Hs (l & s1 & [= <- <-] & E)%bind_inv.
  destruct (list_find _ (active_file_list s)) as [[i found]|] eqn:Ef.
  - refine (keeps_bind _ _ (fun _ => True) _ _ (keep_WRLOCK _) _ _ _ _ Hs E). intros _ _. apply (keep_set_working _ 1). eapply keeps_bind; [apply keep_UNLOCK|]. intros _ _. by apply keeps_ret.
  - injection E as <- <-. split; [|done]. destruct Hs as [Hm He Hps Hids Hfr Hc].
    apply list_find_None in Ef. rewrite Forall_forall in Ef. split; cbn [with_files active_file_list next_id file writes_to_sync].
    + done.
    + apply Forall_app. split; [done|]. constructor; [by apply entry_typed_create|done].
    + rewrite fmap_app. apply NoDup_app. split_and!; [done| |apply NoDup_singleton].
      intros q (b & Eb & Hb)%list_elem_of_fmap Hq%list_elem_of_singleton. apply (Ef b Hb), cmp_str_spec. by rewrite <- Eb.
    + rewrite fmap_app. apply NoDup_app. split_and!; [done| |apply NoDup_singleton].
      intros q Hq ->%list_elem_of_singleton. by apply (fresh_not_in _ _ (next_id s) Hfr) in Hq.
    + apply Forall_app. split; [|by repeat constructor; cbn; lia].
      eapply Forall_impl; [exact Hfr|]. cbn. lia.
    + done.
Qed.

Lemma Forall_sublist_of {A} (Q : A -> Prop) k l : Forall Q l -> sublist k l -> Forall Q k.
Proof. rewrite !Forall_forall. intros Hl Hk x Hx. by eapply Hl, elem_of_sublist. Qed.

Lemma keep_remove_and_destroy a : keep_all (active_file_list_remove_and_destroy_element a).
Proof.
  intros s [] s' Hs (l & s1 & [= <- <-] & E)%bind_inv. split; [|done].
  cbv zeta in E. match type of E with context [list_find ?f ?l] => destruct (list_find f l) as [[i b]|] end; [|done].
  injection E as <-.
  assert (sublist (take i (active_file_list s) ++ drop (S i) (active_file_list s)) (active_file_list s)) as Hsub.
  { rewrite <- (take_drop i (active_file_list s)) at 3. apply sublist_app; [done|].
    replace (Datatypes.S i) with (i + 1)%nat by lia. rewrite <- (drop_drop _ 1 i). apply sublist_drop. }
  destruct Hs as [Hm He Hps Hids Hfr Hc]. apply typed_files.
  - done.
  - by eapply Forall_sublist_of.
  - eapply sublist_NoDup; [exact Hps|by apply fmap_sublist].
  - eapply sublist_NoDup; [exact Hids|by apply fmap_sublist].
  - by eapply Forall_sublist_of.
Qed.

Lemma keep_finished_using id : keep_all (active_file_finished_using id).
Proof.
  eapply keeps_bind; [apply keep_WRLOCK|]. intros _ _. apply (keep_set_working id (-1)).
  eapply keeps_bind; [apply keep_UNLOCK|]. intros _ _.
  eapply keeps_bind; [apply keep_the_file|]. intros a _.
  case_match; [apply keep_remove_and_destroy|by apply keeps_ret].
Qed.

(** ** Names *)

Lemma string_split_Forall (Q : Z -> Prop) text sep : Forall Q text -> Forall (Forall Q) (string_split text sep).
Proof.
  unfold string_split. generalize (Datatypes.S (length text)). intros n. revert text.
  induction n as [|n IH]; intros text Ht; cbn [string_split_loop]; [done|]. unfold strtok_r.
  pose proof (span_app (is_sep sep) text) as E1. destruct (span (is_sep sep) text) as [x y]. cbn [fst snd] in *.
  destruct y as [|c y]; [done|].
  pose proof (span_app (fun c => negb (is_sep sep c)) (c :: y)) as E2.
  destruct (span (fun c => negb (is_sep sep c)) (c :: y)) as [tok rest]. cbn [fst snd] in *.
  rewrite <- E1, <- E2, !Forall_app in Ht. destruct Ht as (_ & Htok & Hrest).
  constructor; [done|]. apply IH. destruct rest; [done|]. by inversion Hrest.
Qed.

Lemma keep_file_name id : keep C_string (active_file_get_file_name id).
Proof.
  eapply keeps_bind; [apply keep_the_file|]. intros a (Hp & _).
  destruct (active_file_get_file_name_of (path a)) as [n|] eqn:E; [|apply keeps_fail]. apply keeps_ret.
  unfold active_file_get_file_name_of in E. case_match; [by injection E as <-|].
  apply last_Some_elem_of in E. exact (proj1 (Forall_forall _ _) (string_split_Forall _ _ [slash] Hp) _ E).
Qed.

Lemma split_path_typed p l : C_string p -> split_path p = Some l -> Forall C_string l.
Proof.
  intros Hp. unfold split_path. case_match; [done|]. case_match; [|case_match].
  - intros [= <-]. by repeat constructor.
  - intros [= <-]. repeat constructor; done.
  - set (mid := _ <$> _). assert (Forall C_string mid) as Hmid.
    { apply Forall_fmap, Forall_forall. intros n _. by apply Forall_take. }
    assert (C_string [slash]) by by repeat constructor.
    case_match; intros [= <-]; repeat (constructor; [done || by apply Forall_take|]); [done|].
    apply Forall_app. split; [done|]. by constructor.
Qed.
Lemma keep_path_of id : keep C_string (path_of id).
Proof. eapply keeps_bind; [apply keep_the_file|]. intros a (Hp & _). by apply keeps_ret. Qed.
End Typed.

(** ** Images *)

Section Images.
Context {Super_constants : Superblock_constants}.
Implicit Types (m : mem).

Lemma free_bits_loop_mem_ok n i k bm (f : Z -> Z) m got :
  mem_ok m -> mem_ok (snd (free_bits_loop n i k bm f m got)).
Proof.
  revert i m got. induction n as [|n IH]; intros i m got Hm; cbn [free_bits_loop]; [done|].
  repeat case_match; [|by apply IH|done]. apply IH. by apply set_bit_mem_ok.
Qed.

Lemma Get_Free_Blocks_In_Group_mem_ok m n g l m' : Get_Free_Blocks_In_Group m n g = (l, m') -> mem_ok m -> mem_ok m'.
Proof.
  unfold Get_Free_Blocks_In_Group. intros Hr Hm.
  match type of Hr with context [free_bits_loop ?a ?b ?c ?d ?e ?f ?g] =>
    pose proof (free_bits_loop_mem_ok a b c d e f g Hm) as Hg; destruct (free_bits_loop a b c d e f g) end.
  by injection Hr as _ <-.
Qed.

Lemma Get_Free_Inodes_In_Group_mem_ok m n g k l m' : Get_Free_Inodes_In_Group m n g k = (l, m') -> mem_ok m -> mem_ok m'.
Proof.
  unfold Get_Free_Inodes_In_Group. intros Hr Hm.
  match type of Hr with context [free_bits_loop ?a ?b ?c ?d ?e ?f ?g] =>
    pose proof (free_bits_loop_mem_ok a b c d e f g Hm) as Hg; destruct (free_bits_loop a b c d e f g) end.
  by injection Hr as _ <-.
Qed.

Lemma CleanBlocks_mem_ok l after m m' : CleanBlocks l after m = Ok m' -> mem_ok m -> mem_ok m'.
Proof.
  revert m. induction l as [|b l IH]; intros m; cbn [CleanBlocks]; [case_match; [by intros [= <-]|done]|].
  destruct l; [case_match; [by intros [= <-]|done]|]. case_match; [by intros [= <-]|].
  intros Hr Hm. eapply IH; [exact Hr|]. by apply memset_mem_ok.
Qed.

Lemma attach_in_blocks_mem_ok m l e m' :
  attach_in_blocks m l e = Ok (Some m') -> mem_ok m -> C_string (file_name e) -> mem_ok m'.
Proof.
  intros Hr Hm He%C_string_bytes. induction l as [|b l IH]; cbn [attach_in_blocks] in Hr; [done|].
  destruct (attach_in_block _ _ _ _ _) as [[m1|]|] eqn:E; [|by apply IH|done].
  injection Hr as ->. by eapply attach_in_block_mem_ok.
Qed.

Lemma Clear_Inode_mem_ok m i : mem_ok m -> mem_ok (Clear_Inode m i).
Proof. apply filled_mem_ok. Qed.
End Images.

(** ** Automation *)

Create HintDb typed.
#[export] Hint Resolve keep_get_file keep_put_file keep_update_file keep_set_errno keep_get_errno
  keep_with_memc keep_update_counter keep_the_file keep_RDLOCK keep_WRLOCK keep_UNLOCK keep_find
  keep_finished_using keep_file_name keep_path_of keeps_fail : typed.

(** A C string that is at hand, or a constant. *)
Ltac string_ok := first [assumption | solve [cbn; first [assumption | by repeat constructor]]].

(** An image that is written is one of bytes. *)
Ltac image_ok := cbv zeta; repeat first
  [ assumption | apply C_string_bytes; string_ok | eapply Get_Free_Blocks_In_Group_mem_ok; [eassumption|]
  | eapply Get_Free_Inodes_In_Group_mem_ok; [eassumption|] | eapply CleanBlocks_mem_ok; [eassumption|]
  | eapply attach_in_blocks_mem_ok; [eassumption| |assumption] | eapply delete_in_block_mem_ok; [|eassumption]
  | apply Clear_Inode_mem_ok | apply store_byte_mem_ok | apply store_mem_ok | apply memset_mem_ok | apply write_words_mem_ok
  | eapply copy_in_file_mem_ok; [|eassumption] | eapply memcpy_mem_ok; [|eassumption]
  | apply set_bit_mem_ok | apply clean_bit_mem_ok | apply copy_entry_mem_ok ].

#[export] Hint Extern 2 (mem_ok _) => solve [image_ok] : typed.
#[export] Hint Extern 1 (C_string _) => string_ok : typed.

(** One step through the code: its sequence, its tests, its calls. *)
Ltac keep_step := cbv zeta;
  lazymatch goal with
  | |- keeps _ _ (mret _) => apply keeps_ret; try done
  | |- keeps _ _ (when _ _) => apply keeps_when
  | |- keeps _ _ (deref _) => apply keeps_deref; try done
  | |- keeps _ _ (_ ≫= _) =>
      first [ eapply keeps_bind; [solve [eauto 4 with typed]|]; intros ? ?
            | apply (keeps_bind _ (fun _ => True)); [|intros ? _] ]
  | |- keeps _ _ (match ?x with _ => _ end) => destruct x eqn:?
  | |- keeps _ _ _ => solve [eauto 4 with typed]
  end.
Ltac keep_steps := repeat keep_step.
