(* ===== verification/TypedOps.v ===== *)
(** * TypedOps: every operation of the server keeps the types of its state

    The lemmas go up the calls of the code, from the allocation to
    [atender]; each enters the database [typed] for the operations that call
    it. *)

From S2P Require Import Prelude Memory Bitarray Ext2 Ext2Facts CString Paths Rfs ActiveFiles Alloc BlockMap Dirs FileOps Serial Requests Enters Removes SerialFacts Lookups Creates Mkdirs Sessions Typed.

Section TypedOps.
Context {Super_constants : Superblock_constants} {WA : Word_after_array} {AB : Abi}.
Context {C : Type} `{Memcached C}.
Abbreviation R := (rfs C).
Implicit Types (s : R) (m : mem) (p : list Z).
Abbreviation keep := (keeps (typed (C := C))).
Abbreviation keep_all := (keeps (typed (C := C)) (fun _ => True)).

(** ** Allocation *)

Lemma keep_Get_Free_Blocks_turn g n i l : keep_all (Get_Free_Blocks_turn g n i l).
Proof.
  unfold Get_Free_Blocks_turn. keep_steps.
Qed.
#[local] Hint Resolve keep_Get_Free_Blocks_turn : typed.

Lemma keep_Get_Free_Blocks_loop k g n i l : keep_all (Get_Free_Blocks_loop k g n i l).
Proof. revert g n i l. induction k as [|k IH]; intros; cbn [Get_Free_Blocks_loop]; keep_steps. Qed.
#[local] Hint Resolve keep_Get_Free_Blocks_loop : typed.

Lemma keep_clean_blocks l : keep_all (clean_blocks l).
Proof. unfold clean_blocks. keep_steps. Qed.
#[local] Hint Resolve keep_clean_blocks : typed.

Lemma keep_Get_Free_Blocks n : keep_all (Get_Free_Blocks n).
Proof. unfold Get_Free_Blocks. keep_steps. Qed.

Lemma keep_Get_Free_Inodes_turn g n i l : keep_all (Get_Free_Inodes_turn g n i l).
Proof. unfold Get_Free_Inodes_turn. keep_steps. Qed.
#[local] Hint Resolve keep_Get_Free_Inodes_turn : typed.

Lemma keep_Get_Free_Inodes_loop k g n i l : keep_all (Get_Free_Inodes_loop k g n i l).
Proof. revert g n i l. induction k as [|k IH]; intros; cbn [Get_Free_Inodes_loop]; keep_steps. Qed.
#[local] Hint Resolve keep_Get_Free_Inodes_loop : typed.

Lemma keep_Get_Free_Inodes n : keep_all (Get_Free_Inodes n).
Proof. unfold Get_Free_Inodes. keep_steps. Qed.

Lemma keep_setFreeBlockBitmap b : keep_all (setFreeBlockBitmap b).
Proof. unfold setFreeBlockBitmap. keep_steps. Qed.

Lemma keep_setFreeInodeBitmap i : keep_all (setFreeInodeBitmap i).
Proof. unfold setFreeInodeBitmap. keep_steps. Qed.
#[local] Hint Resolve keep_Get_Free_Blocks keep_Get_Free_Inodes keep_setFreeBlockBitmap keep_setFreeInodeBitmap : typed.

(** ** The blocks of a file *)

Lemma keep_load_word a : keep_all (load_word a).
Proof. by apply keeps_gets. Qed.

Lemma keep_store_word a v : keep_all (store_word a v).
Proof. unfold store_word. keep_steps. Qed.
#[local] Hint Resolve keep_load_word keep_store_word : typed.

Lemma keep_Attach1 b o n : keep_all (Inode_Indirect_Attach1 b o n).
Proof. unfold Inode_Indirect_Attach1. keep_steps. Qed.
#[local] Hint Resolve keep_Attach1 : typed.

Lemma keep_check_and_set_Ind a : keep_all (check_and_set_Ind a).
Proof. unfold check_and_set_Ind. keep_steps. Qed.
#[local] Hint Resolve keep_check_and_set_Ind : typed.

Lemma keep_check_and_attach1 b n : keep_all (check_and_attach1 b n).
Proof. unfold check_and_attach1. keep_steps. Qed.
#[local] Hint Resolve keep_check_and_attach1 : typed.

Lemma keep_Attach2_loop k b e n t : keep_all (Inode_Indirect_Attach2_loop k b e n t).
Proof. revert e n t. induction k as [|k IH]; intros; cbn [Inode_Indirect_Attach2_loop]; keep_steps. Qed.
#[local] Hint Resolve keep_Attach2_loop : typed.

Lemma keep_Attach2 b n : keep_all (Inode_Indirect_Attach2 b n).
Proof. unfold Inode_Indirect_Attach2. keep_steps. Qed.
#[local] Hint Resolve keep_Attach2 : typed.

Lemma keep_level3 k e i n : keep_all (Attach_Blocks_level3 k e i n).
Proof. revert i n. induction k as [|k IH]; intros; cbn [Attach_Blocks_level3]; keep_steps. Qed.
#[local] Hint Resolve keep_level3 : typed.

Lemma keep_Attach_Blocks i n : keep_all (Attach_Blocks i n).
Proof. unfold Attach_Blocks. keep_steps. Qed.
#[local] Hint Resolve keep_Attach_Blocks : typed.

Lemma keep_deleteIfEmpty b : keep_all (deleteIfEmpty b).
Proof. unfold deleteIfEmpty. keep_steps. Qed.
#[local] Hint Resolve keep_deleteIfEmpty : typed.

Lemma keep_RemoveIndirect i b : keep_all (RemoveIndirect i b).
Proof. unfold RemoveIndirect. keep_steps. Qed.

Lemma keep_clear_slot a : keep_all (clear_slot a).
Proof. unfold clear_slot. keep_steps. Qed.
#[local] Hint Resolve keep_RemoveIndirect keep_clear_slot : typed.

Lemma keep_Remove_Block i b : keep_all (Remove_Block i b).
Proof. unfold Remove_Block. keep_steps. Qed.

Lemma keep_cache_delete p b : keep_all (cache_delete p b).
Proof. unfold cache_delete. keep_steps. Qed.
#[local] Hint Resolve keep_Remove_Block keep_cache_delete : typed.

Lemma keep_Remove_Blocks_loop k i b p : keep_all (Remove_Blocks_loop k i b p).
Proof. revert b. induction k as [|k IH]; intros; cbn [Remove_Blocks_loop]; keep_steps. Qed.
#[local] Hint Resolve keep_Remove_Blocks_loop : typed.

Lemma keep_Remove_Blocks i n p : keep_all (Remove_Blocks i n p).
Proof. unfold Remove_Blocks. keep_steps. Qed.

Lemma keep_setFileInode i mode : keep_all (setFileInode i mode).
Proof. unfold setFileInode, clear_pointers. keep_steps. Qed.

Lemma keep_setDirInode i mode n : keep_all (setDirInode i mode n).
Proof. unfold setDirInode, clear_pointers. keep_steps. Qed.
#[local] Hint Resolve keep_Remove_Blocks keep_setFileInode keep_setDirInode : typed.

(** ** Directories *)

Lemma keep_read_directory i : keep_all (read_directory i).
Proof. unfold read_directory. keep_steps. Qed.

Lemma keep_attach_entry k i e : C_string (file_name e) -> keep_all (attach_entry k i e).
Proof. intros He. revert i. induction k as [|k IH]; intros; cbn [attach_entry]; keep_steps. Qed.

Lemma keep_delete_in_blocks l v i p : keep_all (delete_in_blocks l v i p).
Proof. revert v. induction l as [|b l IH]; intros; cbn [delete_in_blocks]; keep_steps. Qed.
#[local] Hint Resolve keep_read_directory keep_attach_entry keep_delete_in_blocks : typed.

Lemma keep_delete_entry i a : keep_all (delete_entry i a).
Proof. unfold delete_entry. keep_steps. Qed.

Lemma keep_unlock_all l : keep_all (unlock_all l).
Proof. induction l as [|a l IH]; cbn [unlock_all]; keep_steps. Qed.
#[local] Hint Resolve keep_delete_entry keep_unlock_all : typed.

Lemma keep_search_in_directory i l es : keep_all (search_in_directory i l es).
Proof. revert i es. induction l as [|a l IH]; intros; cbn [search_in_directory]; keep_steps. Qed.

Lemma keep_find_and_rdlock l : Forall C_string l -> keep_all (find_and_rdlock l).
Proof. induction 1 as [|a l IH]; cbn [find_and_rdlock]; keep_steps. Qed.

Lemma keep_finished_using_all l : keep_all (finished_using_all l).
Proof. induction l as [|a l IH]; cbn [finished_using_all]; keep_steps. Qed.
#[local] Hint Resolve keep_search_in_directory keep_find_and_rdlock keep_finished_using_all split_path_typed : typed.

Lemma keep_inode_of_file p : C_string p -> keep_all (inode_of_file p).
Proof. intros Hp. unfold inode_of_file. keep_steps. Qed.
#[local] Hint Resolve keep_inode_of_file : typed.

(** ** The operations *)

(** What an operation promises: the types, and a result for the path that
    was asked for. *)
Definition operation_keeps (f : params_t -> M R operation_result_t) : Prop :=
  forall ps, C_string (p_path ps) -> bytes (p_write_buffer ps) -> keep (fun r => r_path r = p_path ps) (f ps).

Lemma keep_get : keep typed get.
Proof. by intros s ? ? Hs [= <- <-]. Qed.

Lemma keep_set_memc (c : C) : keep_all (modify (with_memc c)).
Proof. apply (keep_with_memc (fun _ => c)). Qed.
#[local] Hint Resolve keep_get keep_set_memc : typed.

Lemma keep_array_get l i : keep_all (array_get (C := C) l i).
Proof. unfold array_get. keep_steps. Qed.
#[local] Hint Resolve keep_array_get : typed.

Lemma keep_cache_fs_get_set p b l : keep_all (cache_fs_get_set p b l).
Proof. unfold cache_fs_get_set. keep_steps. Qed.

Lemma keep_cache_set p b l : keep_all (cache_set p b l).
Proof. unfold cache_set. keep_steps. Qed.

Lemma keep_block_bytes d i n : keep_all (block_bytes d i n).
Proof. unfold block_bytes. keep_steps. Qed.

Lemma keep_buffer_write b i d : keep_all (buffer_write (C := C) b i d).
Proof. unfold buffer_write. keep_steps. Qed.

Lemma parent_entry_typed p l q : Forall C_string l -> parent_entry l p = Some q -> C_string q.
Proof.
  unfold parent_entry. intros Hl. repeat case_match; [done..| |done].
  intros Hq. by eapply Forall_lookup_1.
Qed.

Lemma keep_find_parent p : C_string p -> keep_all (find_parent p).
Proof.
  intros Hp. unfold find_parent. eapply keeps_bind; [apply keeps_deref; by intros l; apply split_path_typed|].
  intros l Hl. cbv beta in Hl. destruct (parent_entry l p) as [q|] eqn:E; [|apply keeps_fail].
  apply keep_find. by eapply parent_entry_typed.
Qed.
#[local] Hint Resolve keep_cache_fs_get_set keep_cache_set keep_block_bytes keep_buffer_write keep_find_parent : typed.

Lemma keep_delete_dir_finish r d q : keep (fun r' => r_path r' = r_path r) (delete_dir_finish r d q).
Proof. unfold delete_dir_finish. keep_steps. Qed.

Lemma delete_dir_keeps : operation_keeps delete_dir.
Proof.
  intros ps Hp _. unfold delete_dir, delete_empty_dir. keep_steps.
  all: try apply keep_delete_dir_finish.
Qed.

Lemma delete_file_keeps : operation_keeps delete_file.
Proof. intros ps Hp _. unfold delete_file. keep_steps. Qed.

Lemma create_file_dir_keeps : operation_keeps create_file_dir.
Proof.
  intros ps Hp _. unfold create_file_dir, create_with_inode, create_settle, create_finish, create_dir_contents. keep_steps.
Qed.

Lemma list_directory_keeps : operation_keeps list_directory.
Proof. intros ps Hp _. unfold list_directory. keep_steps. Qed.

Lemma getattr_keeps : operation_keeps getattr.
Proof. intros ps Hp _. unfold getattr. keep_steps. Qed.

Lemma open_file_keeps : operation_keeps open_file.
Proof. intros ps Hp _. unfold open_file. keep_steps. Qed.

Lemma keep_read_rest k p fd d b n r : keep_all (read_rest k p fd d b n r).
Proof. revert d b n r. induction k as [|k IH]; intros; cbn [read_rest]; keep_steps. Qed.
#[local] Hint Resolve keep_read_rest : typed.

Lemma keep_read_blocks p fd c o n : keep_all (read_blocks p fd c o n).
Proof. unfold read_blocks. keep_steps. Qed.
#[local] Hint Resolve keep_read_blocks : typed.

Lemma read_file_keeps : operation_keeps read_file.
Proof. intros ps Hp _. unfold read_file. keep_steps. Qed.

Lemma truncate_file_keeps : operation_keeps truncate_file.
Proof. intros ps Hp _. unfold truncate_file. keep_steps. Qed.

Lemma keep_copy_to_file a buf i n : bytes buf -> keep_all (copy_to_file a buf i n).
Proof.
  intros Hb. unfold copy_to_file. keep_step; [|keep_steps]. apply keep_update_file. intros m Hm.
  apply memcpy_bytes_mem_ok; [done|]. by apply Forall_take, Forall_drop.
Qed.
#[local] Hint Resolve keep_copy_to_file : typed.

Lemma keep_write_rest k ps fd c b n r : bytes (p_write_buffer ps) -> keep_all (write_rest k ps fd c b n r).
Proof. intros Hb. revert b n r. induction k as [|k IH]; intros; cbn [write_rest]; keep_steps. Qed.

Lemma keep_clear_tail ps i : keep_all (clear_tail ps i).
Proof. unfold clear_tail. keep_steps. Qed.
#[local] Hint Resolve keep_write_rest keep_clear_tail : typed.

Lemma keep_write_blocks ps i fd c : bytes (p_write_buffer ps) -> keep_all (write_blocks ps i fd c).
Proof. intros Hb. unfold write_blocks. keep_steps. Qed.
#[local] Hint Resolve keep_write_blocks : typed.

Lemma write_file_keeps : operation_keeps write_file.
Proof. intros ps Hp Hb. unfold write_file. keep_steps. Qed.

(** ** From the message to the answer *)

Definition response_keeps (f : operation_result_t -> M R (option t_stream)) : Prop :=
  forall r, C_string (r_path r) -> keep_all (f r).

Record task_typed (t : task_t) : Prop := {
  tt_path : C_string (p_path (params t));
  tt_buffer : bytes (p_write_buffer (params t));
  tt_run : operation_keeps (run t);
  tt_response : response_keeps (deliver_response t)
}.

Lemma keep_lift {A} (r : res A) (P : A -> Prop) : (forall a, r = Ok a -> P a) -> keep P (lift r).
Proof. intros Hr s a s' Hs. unfold lift. destruct r; [|done]. intros [= <- <-]. auto. Qed.

Lemma keep_lift_all {A} (r : res A) : keep_all (lift r).
Proof. by apply keep_lift. Qed.
#[local] Hint Resolve keep_lift_all : typed.

Lemma keep_with_data_file r body : C_string (r_path r) -> keep_all body -> keep_all (with_data_file r body).
Proof. intros Hp Hb. unfold with_data_file. keep_steps. Qed.

Lemma keep_finalizacion t : keep_all (finalizacion t).
Proof. unfold finalizacion. keep_steps. Qed.
#[local] Hint Resolve keep_finalizacion : typed.

Lemma keep_error_answer r e : keep_all (error_answer r e).
Proof. unfold error_answer. keep_steps. Qed.
#[local] Hint Resolve keep_error_answer : typed.

Lemma keep_status_answer r e : keep_all (status_answer r e).
Proof. unfold status_answer. keep_steps. Qed.
#[local] Hint Resolve keep_status_answer : typed.

Ltac response := intros ? ?; apply keep_with_data_file; [done|]; keep_steps.

Lemma responses_keep :
  response_keeps listar_directorio_response /\ response_keeps leer_archivo_response /\
  response_keeps obtener_atributos_response /\ response_keeps crear_archivo_response /\
  response_keeps escribir_archivo_response /\ response_keeps crear_directorio_response /\
  response_keeps eliminar_archivo_response /\ response_keeps eliminar_directorio_response /\
  response_keeps truncar_archivo_response /\ response_keeps abrir_archivo_response.
Proof. split_and!; response. Qed.

(** ** What a client can send *)

Lemma bytes_at_typed l o n k : bytes l -> bytes_at l o n = Ok k -> bytes k.
Proof. intros Hl. unfold bytes_at. case_match; [|done]. intros [= <-]. by apply Forall_take, Forall_drop. Qed.

Lemma c_string_typed l k : bytes l -> c_string l = Ok k -> C_string k.
Proof.
  intros Hl. revert k. induction Hl as [|c l Hc Hl IH]; intros k; cbn [c_string]; [done|].
  destruct (c =? 0) eqn:E; [intros [= <-]; constructor|]. destruct (c_string l); [|done]. intros [= <-].
  constructor; [zify_bool; lia|by apply IH].
Qed.

Lemma res_bind_inv {A B} (r : res A) (f : A -> res B) b :
  res_bind r f = Ok b -> exists a, r = Ok a /\ f a = Ok b.
Proof. destruct r; [eauto|done]. Qed.

(** Through the parts of a message. *)
Ltac parts := repeat match goal with
  | E : res_bind _ _ = Ok _ |- _ => apply res_bind_inv in E as (? & ? & ?)
  | E : bytes_at ?l _ _ = Ok ?k |- _ => apply bytes_at_typed in E; [|assumption]
  | E : c_string ?l = Ok ?k |- _ => apply c_string_typed in E; [|assumption]
  | E : Ok _ = Ok _ |- _ => injection E as <-
  end.

#[local] Hint Resolve delete_dir_keeps delete_file_keeps create_file_dir_keeps list_directory_keeps getattr_keeps
  open_file_keeps read_file_keeps truncate_file_keeps write_file_keeps : typed.

Lemma generar_task_typed h l t : bytes l -> generar_task h l = Ok t -> task_typed t.
Proof.
  pose proof responses_keep as (R1 & R2 & R3 & R4 & R5 & R6 & R7 & R8 & R9 & R10).
  intros Hl. unfold generar_task.
  unfold generar_task_crear_archivo, generar_task_crear_directorio, generar_task_abrir_archivo,
    generar_task_leer_archivo, generar_task_escribir_archivo, generar_task_eliminar_archivo,
    generar_task_eliminar_directorio, generar_task_truncar_archivo, generar_task_obtener_atributos,
    generar_task_listar_directorio, deserializar_pedido_nombre, deserializar_pedido_modo_nombre,
    deserializar_pedido_leer_archivo, deserializar_pedido_escribir_archivo, deserializar_pedido_truncar_archivo.
  repeat (case_match; [intros E; parts; split; solve [assumption | constructor | auto with typed]|]). done.
Qed.

Lemma keep_worker t : task_typed t -> keep_all (worker t).
Proof.
  intros [Hp Hb Hr Hd]. unfold worker.
  eapply (keeps_bind _ (fun r => r_path r = p_path (params t))).
  - keep_step; [by apply Hr|keep_steps].
  - intros r Er. do 2 keep_step. apply Hd. cbn. by rewrite Er.
Qed.

Lemma keep_atender l : bytes l -> keep_all (atender l).
Proof.
  intros Hl. unfold atender. keep_step. keep_step; [|keep_steps].
  eapply keeps_bind; [apply (keep_lift _ task_typed)|].
  - intros t. apply generar_task_typed. by apply Forall_take, Forall_drop.
  - intros t. apply keep_worker.
Qed.

(** C32: Whatever clients send: for every sequence of arbitrary byte strings, a server that answers them is left
    with a state of the program's types.  The image is one of bytes, the table holds C strings, each once,
    with addresses of their own, counters that fit a word and locks that no reader shares with a writer, and
    the count of the writes fits its 64 bits. *)
Theorem server_keeps_types messages s outs s' :
  Forall bytes messages -> typed s -> atender_todos messages s = Ok (outs, s') -> typed s'.
Proof.
  intros Hl Hs Hrun. enough (keep_all (atender_todos messages)) as Hk by (by destruct (Hk _ _ _ Hs Hrun)).
  clear Hs Hrun. induction Hl as [|l messages Hl Hls IH]; cbn [atender_todos]; [by apply keeps_ret|].
  eapply keeps_bind; [by apply keep_atender|]. intros ans _. keep_steps.
Qed.
End TypedOps.

(** ** Witness: a path that is none, a creation, a write of garbage *)

#[local] Instance typed_superblock : Superblock_constants := demo_sb.
#[local] Instance typed_abi : Abi := abi_i386.
#[local] Instance typed_word_after : Word_after_array := fun _ => 0.

(** A path that is none, the creation of a file, and a write of garbage into it. *)
Definition odd_messages : list (list Z) :=
  [[ABRIR_ARCHIVO; 3; 0; 122; 255; 0];
   [CREAR_ARCHIVO; 7; 0; 164; 1; 0; 0; 47; 120; 0];
   [ESCRIBIR_ARCHIVO; 14; 0; 3; 0; 0; 0; 0; 0; 0; 0; 255; 0; 254; 47; 120; 0]].

Definition returns {A} (r : res A) : bool := match r with Ok _ => true | Fail _ => false end.

Lemma odd_messages_answered :
  returns (@atender_todos typed_superblock typed_word_after typed_abi sample_cache _ odd_messages mkdir_server) = true.
Proof. vm_compute. reflexivity. Defined.

Lemma server_keeps_types_witness :
  exists outs s', @atender_todos _ _ _ sample_cache _ odd_messages mkdir_server = Ok (outs, s') /\ typed s'.
Proof.
  pose proof odd_messages_answered as Hok. revert Hok.
  destruct (@atender_todos typed_superblock typed_word_after typed_abi sample_cache _ odd_messages mkdir_server)
    as [[outs s']|e] eqn:E; intros Hok; [|discriminate].
  exists outs, s'. split; [reflexivity|].
  refine (@server_keeps_types typed_superblock typed_word_after typed_abi sample_cache _ odd_messages mkdir_server outs s' _ _ E).
  - by repeat constructor.
  - split.
    + repeat apply store_mem_ok. exact create_image_mem_ok.
    + constructor.
    + constructor.
    + constructor.
    + constructor.
    + split; [exact (Z.le_refl 0)|reflexivity].
Defined.
